(* ===== verification/_CoqProject ===== *)
-Q . S2P
Prelude.v
GoStrings.v
Decimal.v
Calendar.v
Numbers.v
Query.v
Filter.v
Units.v
Errors.v
HyperCore.v
Messages.v
Regex.v
RpcErrors.v
Backoff.v
HttpClient.v
Ethereum.v
Bytes.v
Base64.v
Sha256.v
AddressText.v
Abi.v
CoreWriter.v
Precompiles.v
HyperAction.v
Json.v
Webhook.v
HttpJson.v
FileLoader.v
Exchange.v
HyperClient.v
Explorer.v
Ledger.v
Frankfurter.v
FrankfurterSafety.v
Polymarket.v
PolymarketTypes.v
PolymarketAuth.v
PolymarketClient.v
PolymarketSafety.v
Merkl.v
MerklSafety.v
Sec.v
Yahoo.v
YahooSession.v
YahooSafety.v
Partner.v
Coinbase.v
Dex.v
Services.v
Prices.v
PartnerSafety.v
KmsSigner.v
EventIndexer.v
Payload.v
Provider.v
MemStore.v
NonceLane.v
Fees.v
World.v
Manager.v
Replacement.v
Batch.v
StepInvariant.v
StepSafety.v
NonceSafety.v
Submit.v
Notify.v
System.v
Lifecycle.v
Toy.v
Witnesses.v
PgRows.v
PgStore.v
PgRefine.v
PgContract.v
ToyCodec.v
UtilWitnesses.v
PgWitnesses.v
HyperWitnesses.v
ApiWitnesses.v
