(* ===== verification/Prelude.v ===== *)
(** * Verification of superform-go-utils

    A model of the Go library's own logic, with the theorems that make it
    correct.  Names follow the source; where two files use one name the file
    qualifies it.

    ** The program

    The heart of the library is the transaction manager ([evm/txmngr]): callers
    queue transactions ([SendTxAsync]), three loops advance them ([processTxs]),
    publish metrics and deliver status notifications, and a durable queue
    ([TransactionsQ], in memory or in PostgreSQL) holds rows, signed attempts and
    lane locks, so that several processes can share one account.  Around it stand
    an event indexer that shares subscriptions to contract logs, a KMS signer, an
    HTTP client with retries, exact decimal amounts, Polymarket orders with their
    EIP-712 digest, HyperCore's amounts and CoreWriter evidence, and clients of
    the services an exchange back end asks: Hyperliquid, the Polymarket order
    book, Merkl rewards, exchange rates, SEC filings, Yahoo quotes, the payment
    partners (Transak, Robinhood, Coinbase), the swap aggregators (1inch, KyberSwap,
    OpenOcean), and the price and portfolio services (snapshotd, Axiom, DefiLlama,
    DeBank, Finnhub, Zerion), Rhinestone and Slack.

    ** Files

    Foundations.  [Prelude]: errors as [result], machine integers, Go's
    comparison helpers, stable sorting, hints.  [GoStrings], [Decimal], [Bytes],
    [Calendar], [Numbers]: Go's strings, base-10 text and letter case, big-endian
    bytes and hexadecimal, civil dates, floats as IEEE values.  [Query]:
    URL values, [PathEscape] and its inverse.  [Base64], [Sha256]: executable, the
    latter with its HMAC.  [Json]: JSON trees, printing, and the
    decoders of typed fields as [encoding/json] fills them.
    [Exchange]: a response with its bounded body, and the monad of a
    client's requests, which logs each and is told its answer.  [Errors]: a Go
    error as what [errors.Is], [errors.As] and its text show.  [Regex]: the part
    of Go's regular expressions the redaction uses.  [Ethereum], [Abi]: what the
    sources use of go-ethereum, as classes with their documented laws.

    The queue (evm/txmngr/txmngr_provider).  [Provider]: rows, attempts, statuses
    and the interface [TransactionsQ] as a class over an abstract store, with its
    laws [TransactionsQLaws] on three views (rows, attempts, hash owners); the
    manager is proved against these.  [MemStore] (mem/tx.go, mem/util.go)
    implements and discharges the class.  [PgRows], [PgStore] (pg/util.go,
    pg/tx.go) translate rows, the query builder and the statements;
    [PgRefine] and [PgContract] prove that on the view of the tables they
    answer and change what the contract says.

    The manager (evm/txmngr/txmngr.go).  [NonceLane], [Fees], [Messages],
    [RpcErrors], [Payload]: the pure helpers.  [World]: state, faults and the
    effect monad with its Hoare logic.  [Manager]: one step of one transaction.
    [Batch]: the lane batch and the tick.  [Submit], [Notify]: queueing, waiting,
    notifications.  [Lifecycle]: New, Start, Stop and the loops as goroutines.
    [Replacement], [StepInvariant], [StepSafety], [NonceSafety]: the theorems on
    fees, one step, and whole batches.  [System]: everything interleaved.

    The libraries.  [Units], [Filter], [AddressText], [Abi] (utils), [FileLoader]
    (utils/fileloader, and the hooks of evm/confighooks), [Polymarket] and
    [PolymarketAuth] (utils/polymarket), [KmsSigner] (evm/ethawskmssigner and
    evm/txmngr/txauth.go), [EventIndexer] (evm/eventindexer), [Backoff]
    (pkg/backoff), [HttpClient] and [HttpJson] (pkg/http_client).

    Hyperliquid (providers/hyperliquid).  [HyperCore], [Precompiles], [CoreWriter]
    (hypercore): amounts, the precompiles' readers, evidence of actions.
    [HyperAction]: typed actions, their digest and envelope.  [HyperClient]: one
    attempt of the client.  [Explorer], [Ledger]: decoding and validation of
    blocks and of ledger deltas, and the info client's typed reads.

    The API clients (providers).  [Frankfurter] and [FrankfurterSafety]: exchange
    rates over a cache shared by concurrent calls.  [PolymarketTypes],
    [PolymarketClient], [PolymarketSafety]: the order book.
    [Merkl], [MerklSafety]: rewards, claims, history, campaigns.  [Sec]:
    company facts.  [Yahoo], [YahooSession], [YahooSafety]: charts,
    and the session that concurrent calls share.  [Webhook] (dynamic).
    [Partner] (transak, robinhood), [Coinbase], [PartnerSafety]: the payment
    partners, whose clients share the shape of their errors; a Coinbase request
    carries a token minted for it.  [Dex] (oneinch, kyberswap, openocean,
    utils/constants): chains, tokens, quotes and swaps.  [Services] (snapshotd,
    axiom, rhinestone, slack), with [strconv.ParseFloat], and [Prices] (defillama,
    debank, finnhub, zerion).

    Witnesses.  [Toy] and [ToyCodec] instantiate the classes and parameters with
    concrete functions; the files named [...Witnesses] apply the theorems there.

    ** What is proved

    - Nonces.  From an empty store, whatever ticks, submissions and notifications
      happen, no two rows of the account on a chain share a nonce and no two rows
      share an operation key ([System.reachable_unique]); a tick keeps the lane
      invariant for every node, clock, signer and store failure
      ([NonceSafety.processTxs_nonces]), other chains are untouched.
    - Durability.  A transaction handed to the node is owned by its row first;
      attempts are append-only; a step touches its own row and keeps its payload
      ([StepSafety]).
    - Fees.  What is signed is the row's payload, a set-code transaction's value
      modulo 2^256, and outbids the previous attempt and the nonce's history
      ([Replacement.signAttempt_outbids]).
    - Queueing.  A retried operation key is idempotent, another payload is
      refused, and equal payload hashes mean equal payloads or a Keccak collision.
    - Notifications touch only notification columns of terminal unannounced rows,
      survive a panicking callback, and back off within bounds.
    - Lifecycle.  No panic under any interleaving of Start and Stop, one goroutine
      per loop, a Stop that has returned is final, and no call is stuck.
    - Providers.  Both implement the queue contract; rows survive the round trip
      through their columns; over any run of workers the locks held are of
      distinct lanes, a lane is refused only for a lock held, of it or of one whose
      key collides, and a lock is released once ([PgContract.pg_lane_exclusive]).
    - Libraries.  Round trips and exactness of amounts, rounding against the
      signer, binding digests (up to a collision of the very texts that were
      hashed), sound and complete CoreWriter evidence, the
      retry loops' calls and waits, the body limit, channels closed exactly once.
    - Hyperliquid.  A signature binds one action, an envelope reads back, a pair of
      precompile reads is of one execution, block details that are accepted are
      consistent, and a ledger delta has the fields of its variant.
    - API clients.  An exchange rate served is the source's for its date, or one no
      staler than configured; an order is posted once, and its errors say whether
      it may be live; a request goes to its operation's endpoint and query;
      responses that come back satisfy the documented shape, but for a book inside
      a market that was asked for without books, which is not looked at;
      credentials are derived only for a checked signature; listing stops within
      its pages; rewards are asked in one canonical form; only signed webhooks are
      decoded; one Yahoo session is fetched at a time and a rejected one is not
      used again ([YahooSafety]), and its calls all return; the facts selected of a
      filing are the latest ([Sec]); a partner's answer is a value only if 2xx, and
      otherwise the error of its status; Transak's secret goes to one endpoint, a
      Coinbase token is good for one method, host and path, for two minutes
      ([PartnerSafety]); the least amount of a 1inch or KyberSwap swap is its output
      less the slippage asked for, OpenOcean's is its own answer to the slippage it
      was asked with ([Dex]); an allocation
      or price per share is what was asked for, and well formed ([Services]); tokens
      are asked of DeBank once each, a hundred at a time ([Prices]).

    ** Conventions and bounds

    A [*big.Int] is a [Z], a nil pointer [None]; [uint64] and [int64] wrap where
    the code lets them ([wrap_u64], [wrap_i64]).  Times are nanoseconds.  An
    environment answers the n-th call with a function of n, so a theorem for
    every environment covers every behaviour of the node, the clock, the signer,
    the callback and the store's failures, before or after the commit.  A
    runtime panic is a value.

    Fuel is used where recursion is not structural, with enough of it: the
    regular-expression matcher has the length of the text ([replace_all_fuel]);
    [persistUniqueAttempt] has the source's own limit [maxHashCollisionResigns];
    retry loops have the configured number of attempts; [big_bytes] has the bit
    length.  [WaitTxCompleted] polls until it is cancelled, and is run for a given
    number of ticks.  The cache's eviction ([Frankfurter.evict]) has the size of
    the cache; [Merkl.list_pages] the source's limit of pages; a client's attempts
    their configured number.  A session's generation wraps at 2^64, which the
    theorems on it exclude by the number of attempts made.

    ** Assumptions

    Code outside the repository is a class: [GoEthereum], [Abi], [PayloadCodec],
    [PgCodec], [PgSchema], [Kms], [HttpEnv], [Env], with laws that state its
    documented behaviour ([GoEthereumLaws]: printing is injective, conversion to
    256 bits is modulo 2^256 and panics on a magnitude beyond; [AbiLaws], [AbiPackLaws]: values decode at the types asked and encode
    injectively; [PayloadCodecLaws]: so do authorizations as JSON;
    [PgCodecLaws]: what is encoded decodes to itself, and an address is its 20
    bytes; [PgSchemaLaws]: the three columns a write may leave out default to an
    empty value; [ActionCodecLaws]: a MessagePack value shows where it ends, and the
    package's own actions are encoded to one;
    [SignerLaws]: a signed transaction has the nonce it was built with and
    recovers to its signer; [NodeLaws]: a pending nonce is a [uint64] below its
    maximum; [StoreErrors]: an infrastructure failure is not one of the package's
    own sentinels).  So are JSON's syntax ([JsonText], [JsonStream], [GethJson],
    [JsonBody], with [JsonErrors] for the texts of its errors and [TimeJson] for
    its dates), the parts of URLs ([UrlText], [UrlQuery], [UrlParse]), dates as text ([TimeText]),
    hexadecimal as go-ethereum reads it ([GethHex]), elliptic-curve keys, their
    encodings and a minting's nonce, clock and signature ([EcKeys], [KeyFormats],
    [Minting]), Unicode beyond ASCII
    ([UnicodeTables], [LowerLaws]), addresses as text ([HexAddress],
    [HexAddressLaws]), MessagePack ([ActionCodec]), typed-data hashing
    ([AuthLibrary]), reflection on ABI values ([AbiReflect], [AbiRoundTrip]),
    building a request ([HttpLibrary]), files ([FileEnv]), transactions and keys
    to be signed with ([BindLibrary]), RPC clients, keys and durations in a
    configuration ([ConfigLibrary]).  The order in which a map is walked is the
    argument [map_order].  The theorem on the database's reads supposes that its
    text collation compares bytes ([PgContract.pg_reads_refine]), as the order of
    ids in the contract does.  The classes that witnessed theorems use have instances
    in [Toy], [ToyCodec] or the witness files.

    ** Where the providers differ from each other

    The PostgreSQL provider orders due notifications by creation as well, [Limit]
    of zero selects nothing where the in-memory one does not limit, an id that
    exists is an error where the in-memory one replaces, columns left out because
    the value is nil keep what they held, and an insertion with an operation key
    and no payload hash stores the row yet reports a conflict.  The manager calls
    neither with such arguments.

    ** Not modelled

    Logging and tracing.  Deadlines: a context is its error when asked.  The
    errgroups that run chains and notifications in parallel: their members act on
    distinct lanes and rows, and run in sequence here.  Transport failures inside
    the PostgreSQL provider, which [World.Env] injects around every store call.
    The set-up of AWS clients and of cookie jars, and what a wrapped transport
    does; the clock of rate limiters, whose wait is an answer.  A repeated key of a JSON object is
    decoded afresh, where [encoding/json] would merge into the first.  Generated
    mocks and bindings, the simulated chain of the tests, and the health checks
    that only ask their context. *)
From stdpp Require Export base tactics numbers list gmap strings option sorting fin_maps pretty.
From Stdlib Require Export ZArith Lia ZifyBool Wf_nat.

#[export] Set Primitive Projections.
#[export] Set Default Goal Selector "!".

Declare Scope go_scope.
Delimit Scope go_scope with go.

(** ** Hint databases of the development *)

Create HintDb go_cmp.
Create HintDb go_str.
Create HintDb go_step.
Create HintDb go_run.
Create HintDb go_partner.
Create Rewrite HintDb go_err.

(** ** Fallible results: Go's [(T, error)] pair read as a sum *)

Inductive result (E A : Type) : Type :=
| Ok (a : A)
| Err (e : E).
Arguments Ok {E A} a.
Arguments Err {E A} e.

Definition is_ok {E A} (r : result E A) : bool :=
  match r with Ok _ => true | Err _ => false end.

Definition ok_of {E A} (r : result E A) : option A :=
  match r with Ok a => Some a | Err _ => None end.

Definition result_bind {E A B} (r : result E A) (k : A -> result E B) : result E B :=
  match r with Ok a => k a | Err e => Err e end.

Definition result_map {E A B} (f : A -> B) (r : result E A) : result E B :=
  match r with Ok a => Ok (f a) | Err e => Err e end.

Notation "'let?' x ':=' r 'in' k" := (result_bind r (fun x => k))
  (at level 10, x pattern, r at level 100, k at level 200) : go_scope.

Lemma result_bind_Ok {E A B} (r : result E A) (k : A -> result E B) b :
  result_bind r k = Ok b <-> exists a, r = Ok a /\ k a = Ok b.
Proof. destruct r; simpl; split; [eauto|intros (? & [= ->] & ?); done|done|intros (? & ? & ?); done]. Qed.

Lemma result_bind_assoc {E A B C} (r : result E A) (f : A -> result E B) (g : B -> result E C) :
  result_bind (result_bind r f) g = result_bind r (fun a => result_bind (f a) g).
Proof. by destruct r. Qed.

(** ** The order in which Go walks a map: any, and another each time *)

Record map_order := {
  walk : forall {V}, gmap string V -> list (string * V);
  walk_perm V (m : gmap string V) : walk m ≡ₚ map_to_list m;
}.

Lemma walk_elem (o : map_order) {V} (m : gmap string V) k v : (k, v) ∈ walk o m <-> m !! k = Some v.
Proof. by rewrite (walk_perm o), elem_of_map_to_list. Qed.

Definition some_order : map_order := {| walk V := map_to_list; walk_perm V m := reflexivity _ |}.

(** ** Machine integers *)

Definition u64_modulus : Z := 2 ^ 64.
Definition max_u64 : Z := u64_modulus - 1.

(** Go's [uint64] arithmetic keeps the low 64 bits. *)
Definition wrap_u64 (z : Z) : Z := z mod u64_modulus.

(** Go's [int64] arithmetic keeps the low 64 bits in two's complement. *)
Definition wrap_i64 (z : Z) : Z := (z + 2 ^ 63) mod u64_modulus - 2 ^ 63.

Definition is_u64 (z : Z) : Prop := (0 <= z < u64_modulus)%Z.
Definition is_i64 (z : Z) : Prop := (- 2 ^ 63 <= z < 2 ^ 63)%Z.

#[export] Instance is_u64_dec z : Decision (is_u64 z).
Proof. unfold is_u64. apply _. Defined.
#[export] Instance is_i64_dec z : Decision (is_i64 z).
Proof. unfold is_i64. apply _. Defined.

Lemma wrap_u64_small z : is_u64 z -> wrap_u64 z = z.
Proof. intros H. by apply Z.mod_small. Qed.

Lemma wrap_u64_range z : is_u64 (wrap_u64 z).
Proof. by apply Z.mod_pos_bound. Qed.

Lemma wrap_i64_small z : is_i64 z -> wrap_i64 z = z.
Proof. unfold is_i64, wrap_i64, u64_modulus. intros H. rewrite Z.mod_small; lia. Qed.

Lemma wrap_i64_inj a b : is_u64 a -> is_u64 b -> wrap_i64 a = wrap_i64 b -> a = b.
Proof.
  unfold is_u64, wrap_i64, u64_modulus. intros Ha Hb H. Z.to_euclidean_division_equations. lia.
Qed.

Lemma wrap_i64_range z : is_i64 (wrap_i64 z).
Proof.
  unfold is_i64, wrap_i64, u64_modulus.
  pose proof (Z.mod_pos_bound (z + 2 ^ 63) (2 ^ 64) ltac:(done)). lia.
Qed.

(** Concatenating bit fields is adding them. *)
Lemma lor_shiftl_add a b n : (0 <= n)%Z -> (0 <= b < 2 ^ n)%Z -> Z.lor (Z.shiftl a n) b = (a * 2 ^ n + b)%Z.
Proof.
  intros Hn Hb. rewrite <- Z.shiftl_mul_pow2 by done. rewrite <- Z.add_lor_land.
  assert (Z.land (Z.shiftl a n) b = 0)%Z as ->; [|lia].
  apply Z.bits_inj'. intros k Hk. rewrite Z.land_spec, Z.bits_0.
  destruct (Z.ltb_spec k n); [by rewrite Z.shiftl_spec_low|].
  replace (Z.testbit b k) with false; [by rewrite andb_false_r|].
  symmetry. rewrite <- (Z.mod_small b (2 ^ n)) by lia. by apply Z.mod_pow2_bits_high.
Qed.

(** ** Three-way comparators, as [slices.SortStableFunc] takes them *)

(** [cmp.Or]: the first comparison that is not a tie. *)
Definition cmp_or (c d : comparison) : comparison :=
  match c with Eq => d | _ => c end.

(** The law [slices.SortStableFunc] asks of its argument: a strict weak order. *)
Class WeakCmp {A} (cmp : A -> A -> comparison) : Prop := {
  cmp_flip x y : cmp y x = CompOpp (cmp x y);
  cmp_trans x y z : cmp x y <> Gt -> cmp y z <> Gt -> cmp x z <> Gt;
}.
Arguments cmp_flip {A} cmp {_} x y.
Arguments cmp_trans {A} cmp {_} x y z.

Section cmp_theory.
  Context {A : Type} (cmp : A -> A -> comparison) `{!WeakCmp cmp}.

Lemma cmp_refl x : cmp x x = Eq.
  Proof. pose proof (cmp_flip cmp x x) as H. by destruct (cmp x x). Qed.

Lemma cmp_total x y : cmp x y <> Gt \/ cmp y x <> Gt.
  Proof. rewrite (cmp_flip cmp x y). destruct (cmp x y); auto. Qed.

Lemma cmp_Eq_sym x y : cmp x y = Eq -> cmp y x = Eq.
  Proof. intros H. by rewrite (cmp_flip cmp), H. Qed.

Lemma cmp_not_Lt x y : cmp x y <> Lt <-> cmp y x <> Gt.
  Proof. rewrite (cmp_flip cmp x y). destruct (cmp x y); naive_solver. Qed.

Lemma cmp_le_antisym x y : cmp x y <> Gt -> cmp y x <> Gt -> cmp x y = Eq.
  Proof. rewrite (cmp_flip cmp x y). destruct (cmp x y); naive_solver. Qed.

Lemma cmp_Eq_l x y z : cmp x y = Eq -> cmp x z = cmp y z.
  Proof.
    intros E. pose proof (cmp_Eq_sym x y E) as E'.
    destruct (cmp x z) eqn:Hx, (cmp y z) eqn:Hy; try done; exfalso.
    - assert (cmp z x <> Gt) as H1 by (rewrite (cmp_flip cmp x z), Hx; done).
      pose proof (cmp_trans cmp z x y H1 ltac:(congruence)) as H.
      rewrite (cmp_flip cmp y z), Hy in H. done.
    - apply (cmp_trans cmp y x z); congruence.
    - assert (cmp z y <> Gt) as H1 by (rewrite (cmp_flip cmp y z), Hy; done).
      pose proof (cmp_trans cmp z y x H1 ltac:(congruence)) as H.
      rewrite (cmp_flip cmp x z), Hx in H. done.
    - apply (cmp_trans cmp y x z); congruence.
    - apply (cmp_trans cmp x y z); congruence.
    - apply (cmp_trans cmp x y z); congruence.
  Qed.

Lemma cmp_Eq_r x y z : cmp x y = Eq -> cmp z x = cmp z y.
  Proof. intros E. rewrite (cmp_flip cmp x z), (cmp_flip cmp y z). by rewrite (cmp_Eq_l x y z E). Qed.
End cmp_theory.

#[export] Instance WeakCmp_Z : WeakCmp Z.compare.
Proof.
  split; [intros; apply Z.compare_antisym|].
  intros x y z.
  change ((x ?= y) <> Gt)%Z with (x <= y)%Z; change ((y ?= z) <> Gt)%Z with (y <= z)%Z;
    change ((x ?= z) <> Gt)%Z with (x <= z)%Z; lia.
Qed.

(** Comparing a projection of the rows. *)
Definition cmp_on {A B} (f : A -> B) (cmp : B -> B -> comparison) (x y : A) : comparison :=
  cmp (f x) (f y).

#[export] Instance WeakCmp_on {A B} (f : A -> B) cmp `{!WeakCmp cmp} : WeakCmp (cmp_on f cmp).
Proof.
  split; unfold cmp_on; intros *; [apply (cmp_flip cmp)|apply (cmp_trans cmp)].
Qed.

(** Tie-breaking with a second comparator keeps the law. *)
#[export] Instance WeakCmp_or {A} (c d : A -> A -> comparison) `{!WeakCmp c, !WeakCmp d} :
  WeakCmp (fun x y => cmp_or (c x y) (d x y)).
Proof.
  split.
  - intros x y. rewrite (cmp_flip c x y), (cmp_flip d x y). by destruct (c x y).
  - intros x y z Hxy Hyz.
    destruct (c x y) eqn:E1; [|clear Hxy|done].
    + rewrite (cmp_Eq_l c x y z E1). destruct (c y z) eqn:E2; simpl in *; try done.
      by apply (cmp_trans d x y z).
    + destruct (c y z) eqn:E2; [|clear Hyz|done].
      * rewrite <- (cmp_Eq_r c y z x E2), E1. done.
      * destruct (c x z) eqn:E3; [|done|]; exfalso.
        -- rewrite (cmp_Eq_l c x z y E3) in E1. by rewrite (cmp_flip c y z), E2 in E1.
        -- apply (cmp_trans c x y z); congruence.
Qed.

(** [ASC NULLS LAST]: present values first, ties among absent ones. *)
Definition cmp_nulls_last {A} (cmp : A -> A -> comparison) (x y : option A) : comparison :=
  match x, y with
  | None, None => Eq
  | None, Some _ => Gt
  | Some _, None => Lt
  | Some a, Some b => cmp a b
  end.

#[export] Instance WeakCmp_nulls_last {A} (cmp : A -> A -> comparison) `{!WeakCmp cmp} :
  WeakCmp (cmp_nulls_last cmp).
Proof.
  split; [intros [x|] [y|]; simpl; try done; apply (cmp_flip cmp)|].
  intros [x|] [y|] [z|]; simpl; try congruence. apply (cmp_trans cmp).
Qed.

(** [strings.Compare]: bytewise lexicographic. *)
Lemma ascii_compare_N (a b : Ascii.ascii) : Ascii.compare a b = N.compare (Ascii.N_of_ascii a) (Ascii.N_of_ascii b).
Proof. done. Qed.

#[export] Instance WeakCmp_string : WeakCmp String.compare.
Proof.
  split; [intros x y; apply String.compare_antisym|].
  induction x as [|a x IH]; intros [|b y] [|c z]; simpl; intros H1 H2; try congruence.
  revert H1 H2; rewrite !ascii_compare_N.
  generalize (Ascii.N_of_ascii a) (Ascii.N_of_ascii b) (Ascii.N_of_ascii c); intros p q r.
  destruct (N.compare_spec p q), (N.compare_spec q r), (N.compare_spec p r);
    try lia; try congruence; eauto.
Qed.

Lemma string_compare_Eq s t : String.compare s t = Eq -> s = t.
Proof. apply String.compare_eq_iff. Qed.

#[export] Hint Resolve WeakCmp_Z WeakCmp_string WeakCmp_on WeakCmp_or WeakCmp_nulls_last : go_cmp.

(** ** [slices.SortStableFunc] *)

Section stable_sort.
  Context {A : Type} (cmp : A -> A -> comparison).

Definition cmp_le (x y : A) : Prop := cmp x y <> Gt.

Fixpoint insert_stable (x : A) (l : list A) : list A :=
    match l with
    | [] => [x]
    | y :: l' => match cmp x y with Gt => y :: insert_stable x l' | _ => x :: y :: l' end
    end.

Definition sort_stable (l : list A) : list A := foldr insert_stable [] l.

Lemma insert_stable_perm x l : insert_stable x l ≡ₚ x :: l.
  Proof.
    induction l as [|y l IH]; simpl; [done|].
    destruct (cmp x y); [done..|]. rewrite IH. by constructor.
  Qed.

Lemma sort_stable_perm l : sort_stable l ≡ₚ l.
  Proof. induction l as [|x l IH]; simpl; [done|]. by rewrite insert_stable_perm, IH. Qed.

Lemma sort_stable_elem x l : x ∈ sort_stable l <-> x ∈ l.
  Proof. by rewrite sort_stable_perm. Qed.

Lemma sort_stable_length l : length (sort_stable l) = length l.
  Proof. by rewrite sort_stable_perm. Qed.

  Context `{!WeakCmp cmp}.

Lemma insert_stable_sorted x l :
    StronglySorted cmp_le l -> StronglySorted cmp_le (insert_stable x l).
  Proof.
    induction 1 as [|y l Hl IH Hy]; simpl; [repeat constructor|].
    destruct (cmp x y) eqn:E.
    1,2: constructor; [by constructor|]; constructor; [unfold cmp_le; congruence|];
      eapply Forall_impl; [exact Hy|]; intros z Hz; apply (cmp_trans cmp x y z); congruence.
    constructor; [done|]. rewrite insert_stable_perm. constructor; [|done].
    unfold cmp_le. by rewrite (cmp_flip cmp x y), E.
  Qed.

Lemma sort_stable_sorted l : StronglySorted cmp_le (sort_stable l).
  Proof. induction l; simpl; [constructor|]. by apply insert_stable_sorted. Qed.

  (** Elements the comparator ties keep their input order: the filtered
      subsequence of any tie class is unchanged. *)
Lemma insert_stable_filter x z l :
    StronglySorted cmp_le l ->
    filter (fun y => cmp z y = Eq) (insert_stable x l) = filter (fun y => cmp z y = Eq) (x :: l).
  Proof.
    induction 1 as [|y l Hl IH Hy]; simpl; [done|].
    destruct (cmp x y) eqn:E; [done..|].
    rewrite (filter_cons _ y). rewrite IH. rewrite !filter_cons.
    destruct (decide (cmp z x = Eq)) as [Hx|], (decide (cmp z y = Eq)) as [Hy'|]; try done.
    rewrite (cmp_Eq_l cmp x z y) in E; [congruence|]. by apply (cmp_Eq_sym cmp).
  Qed.

Lemma sort_stable_filter z l :
    filter (fun y => cmp z y = Eq) (sort_stable l) = filter (fun y => cmp z y = Eq) l.
  Proof.
    induction l as [|x l IH]; simpl; [done|].
    rewrite insert_stable_filter by apply sort_stable_sorted.
    rewrite !filter_cons, IH. done.
  Qed.

  (** When ties only happen between equal elements the sorted order is unique,
      whatever order the input came in. *)
Lemma sort_stable_unique l1 l2 :
    (forall x y, x ∈ l1 -> y ∈ l1 -> cmp x y = Eq -> x = y) ->
    l1 ≡ₚ l2 -> sort_stable l1 = sort_stable l2.
  Proof.
    intros Hanti Hp.
    assert (sort_stable l1 ≡ₚ sort_stable l2) as Hs by by rewrite !sort_stable_perm.
    assert (forall x y, x ∈ sort_stable l1 -> y ∈ sort_stable l1 -> cmp x y = Eq -> x = y) as Ha.
    { intros x y. rewrite !sort_stable_elem. apply Hanti. }
    pose proof (sort_stable_sorted l1) as S1. pose proof (sort_stable_sorted l2) as S2.
    revert Hs Ha S1 S2. clear Hanti Hp. generalize (sort_stable l1) (sort_stable l2).
    induction l as [|x l IH]; intros [|y l'] Hs Ha S1 S2;
      [done|by apply Permutation_length in Hs..|].
    assert (x = y) as ->.
    { apply Ha; [left|rewrite Hs; left|].
      apply StronglySorted_inv in S1 as [_ F1]. apply StronglySorted_inv in S2 as [_ F2].
      apply (cmp_le_antisym cmp).
      - assert (y ∈ x :: l) as [->|Hy]%elem_of_cons by (rewrite Hs; apply list_elem_of_here).
        + by rewrite cmp_refl.
        + rewrite Forall_forall in F1. by apply F1.
      - assert (x ∈ y :: l') as [->|Hx]%elem_of_cons by (rewrite <- Hs; apply list_elem_of_here).
        + by rewrite cmp_refl.
        + rewrite Forall_forall in F2. by apply F2. }
    f_equal. apply IH.
    - by apply Permutation_cons_inv in Hs.
    - intros u v Hu Hv. apply Ha; by right.
    - by apply StronglySorted_inv in S1 as [? _].
    - by apply StronglySorted_inv in S2 as [? _].
  Qed.
End stable_sort.

(** Filtering respects permutations. *)
#[export] Instance List_filter_Permutation {A} (f : A -> bool) :
  Proper ((≡ₚ@{A}) ==> (≡ₚ)) (List.filter f).
Proof.
  intros l l' P. induction P as [|x l l' P IH|x y l|l1 l2 l3 _ IH1 _ IH2]; simpl; [done| | |by etrans].
  - destruct (f x); [by constructor|done].
  - destruct (f x), (f y); try done. constructor.
Qed.

Lemma List_filter_none {A} (f : A -> bool) l : (forall x, x ∈ l -> f x = false) -> List.filter f l = [].
Proof.
  intros H. induction l as [|x l IH]; [done|]. cbn [List.filter]. rewrite H by by left.
  apply IH. intros y Hy. apply H. by right.
Qed.

(** ** Lists related element by element *)

Section related.
Context {A B : Type} (R : A -> B -> Prop).

Lemma Forall2_filter (f : A -> bool) (g : B -> bool) l k :
  (forall x y, R x y -> f x = g y) -> Forall2 R l k -> Forall2 R (List.filter f l) (List.filter g k).
Proof.
  intros H F. induction F as [|x y l k Hxy F IH]; simpl; [constructor|]. rewrite (H x y Hxy).
  destruct (g y); [by constructor|done].
Qed.

Lemma Forall2_insert_stable cmpA cmpB x y l k :
  (forall x y x' y', R x y -> R x' y' -> cmpA x x' = cmpB y y') -> R x y -> Forall2 R l k ->
  Forall2 R (insert_stable cmpA x l) (insert_stable cmpB y k).
Proof.
  intros H Hxy F. induction F as [|x' y' l k Hx F IH]; simpl; [by repeat constructor|].
  rewrite (H x y x' y' Hxy Hx). destruct (cmpB y y'); by repeat constructor.
Qed.

(** Sorting by keys that agree keeps the lists related. *)
Lemma Forall2_sort_stable cmpA cmpB l k :
  (forall x y x' y', R x y -> R x' y' -> cmpA x x' = cmpB y y') -> Forall2 R l k ->
  Forall2 R (sort_stable cmpA l) (sort_stable cmpB k).
Proof. intros H F. induction F as [|x y l k Hxy F IH]; simpl; [constructor|]. by apply Forall2_insert_stable. Qed.
End related.
