(* ===== verification/GoStrings.v ===== *)
(** * Go strings

    A Go string is an immutable sequence of bytes: here Rocq's [string], one
    [ascii] per byte.  The file holds what the sources use of Go's [strings] and
    [unicode/utf8] packages: slicing, search, prefix tests, trimming, the UTF-8
    decoder's notion of a well-formed rune, and [strings.ToValidUTF8] with an
    empty replacement. *)
From S2P Require Export Prelude.

#[global] Arguments String.append !_ _ : simpl nomatch.

Abbreviation slen := String.length.

(** ** Slicing: [s[:n]] and [s[n:]] *)

Fixpoint stake (n : nat) (s : string) : string :=
  match n, s with
  | S n', String c s' => String c (stake n' s')
  | _, _ => ""
  end.

Fixpoint sdrop (n : nat) (s : string) : string :=
  match n, s with
  | S n', String _ s' => sdrop n' s'
  | _, _ => s
  end.

Lemma slen_app s t : slen (s +:+ t) = slen s + slen t.
Proof. induction s as [|c s IH]; simpl; [done|]. rewrite IH. lia. Qed.

Lemma sapp_assoc s t u : (s +:+ t) +:+ u = s +:+ (t +:+ u).
Proof. induction s as [|c s IH]; simpl; [done|]. by rewrite IH. Qed.

Lemma sapp_nil_r s : s +:+ "" = s.
Proof. induction s as [|c s IH]; simpl; [done|]. by rewrite IH. Qed.

Lemma sapp_inj_len (s s' t t' : string) :
  slen s = slen s' -> s +:+ t = s' +:+ t' -> s = s' /\ t = t'.
Proof.
  revert s'; induction s as [|c s IH]; intros [|c' s'] Hl E; simpl in *; try done.
  injection E as -> E. destruct (IH s' ltac:(lia) E) as [-> ->]. done.
Qed.

Lemma stake_sdrop n s : stake n s +:+ sdrop n s = s.
Proof. revert s; induction n as [|n IH]; intros [|c s]; simpl; try done. by rewrite IH. Qed.

Lemma slen_stake n s : slen (stake n s) = n `min` slen s.
Proof. revert s; induction n as [|n IH]; intros [|c s]; simpl; try done. by rewrite IH. Qed.

Lemma slen_sdrop n s : slen (sdrop n s) = slen s - n.
Proof. revert s; induction n as [|n IH]; intros [|c s]; simpl; try done. Qed.

Lemma stake_ge n s : slen s <= n -> stake n s = s.
Proof. revert s; induction n as [|n IH]; intros [|c s]; simpl; intros; try done; [lia|]. f_equal. apply IH; lia. Qed.

Lemma stake_app_l n s t : n <= slen s -> stake n (s +:+ t) = stake n s.
Proof. revert s; induction n as [|n IH]; intros [|c s]; simpl; intros; try done; [lia|]. f_equal. apply IH; lia. Qed.

Lemma sdrop_app s t : sdrop (slen s) (s +:+ t) = t.
Proof. by induction s. Qed.

Lemma stake_app s t : stake (slen s) (s +:+ t) = s.
Proof. induction s as [|c s IH]; simpl; [done|]. by rewrite IH. Qed.

Lemma sdrop_sdrop m n s : sdrop m (sdrop n s) = sdrop (n + m) s.
Proof. revert s; induction n as [|n IH]; intros [|c s]; simpl; [done..|by destruct m|apply IH]. Qed.

Lemma slen_zero s : slen s = 0 -> s = "".
Proof. by destruct s. Qed.

(** The byte [s[n]]. *)
Definition sbyte (n : nat) (s : string) : option Ascii.ascii := String.get n s.

(** ** Search *)

Fixpoint HasPrefix (s p : string) : bool :=
  match p, s with
  | "", _ => true
  | String c p', String d s' => Ascii.eqb c d && HasPrefix s' p'
  | _, "" => false
  end.

(** [strings.Index]: the first occurrence of [p]; [None] stands for -1. *)
Fixpoint Index (s p : string) : option nat :=
  if HasPrefix s p then Some 0
  else match s with
       | "" => None
       | String _ s' => S <$> Index s' p
       end.

Definition Contains (s p : string) : bool :=
  match Index s p with Some _ => true | None => false end.

Lemma HasPrefix_spec s p : HasPrefix s p = true <-> exists t, s = p +:+ t.
Proof.
  revert s; induction p as [|c p IH]; intros s; simpl.
  - split; [by exists s|by destruct s].
  - destruct s as [|d s]; simpl; [split; [done|intros [t ?]; done]|].
    rewrite andb_true_iff, Ascii.eqb_eq, IH. split.
    + intros [-> [t ->]]. by exists t.
    + intros [t [= -> ->]]. split; [done|]. by exists t.
Qed.

Lemma HasPrefix_split s p : HasPrefix s p = true -> slen p <= slen s /\ s = p +:+ sdrop (slen p) s.
Proof. intros [t ->]%HasPrefix_spec. rewrite slen_app, sdrop_app. split; [lia|done]. Qed.

Lemma Index_unfold s p :
  Index s p = if HasPrefix s p then Some 0
              else match s with "" => None | String _ s' => S <$> Index s' p end.
Proof. by destruct s. Qed.

Lemma Index_spec s p n :
  Index s p = Some n -> n + slen p <= slen s /\ s = stake n s +:+ (p +:+ sdrop (n + slen p) s).
Proof.
  revert n; induction s as [|c s IH]; intros n; rewrite Index_unfold;
    destruct (HasPrefix _ p) eqn:E; try done.
  1,2: by intros [= <-]; apply HasPrefix_split.
  destruct (Index s p) as [m|] eqn:E'; [|done]. intros [= <-].
  destruct (IH m eq_refl) as [H1 H2]. simpl. split; [lia|]. by f_equal.
Qed.

Lemma Index_lt s p n : Index s p = Some n -> n + slen p <= slen s.
Proof. intros H. apply (Index_spec _ _ _ H). Qed.

(** [strings.Repeat]. *)
Fixpoint Repeat (s : string) (n : nat) : string :=
  match n with 0 => "" | S n' => s +:+ Repeat s n' end.

Lemma slen_Repeat s n : slen (Repeat s n) = n * slen s.
Proof. induction n; simpl; rewrite ?slen_app; lia. Qed.

(** Every byte satisfies a test. *)
Fixpoint sforall (f : Ascii.ascii -> bool) (s : string) : bool :=
  match s with "" => true | String c s' => f c && sforall f s' end.

Lemma sforall_app f s t : sforall f (s +:+ t) = sforall f s && sforall f t.
Proof. induction s; simpl; [done|]. by rewrite IHs, andb_assoc. Qed.

(** ** Bytes and UTF-8 *)

Definition byte_N (c : Ascii.ascii) : N := Ascii.N_of_ascii c.

Definition byte_in (lo hi : N) (c : Ascii.ascii) : bool := (lo <=? byte_N c)%N && (byte_N c <=? hi)%N.

(** [utf8.RuneStart]: [b&0xC0 != 0x80]. *)
Definition RuneStart (c : Ascii.ascii) : bool := negb (N.land (byte_N c) 192 =? 128)%N.

Definition is_cont (c : Ascii.ascii) : bool := byte_in 128 191 c.

(** The second byte accepted after a three- or four-byte leader (Go's
    [acceptRanges]). *)
Definition accept3 (c d : Ascii.ascii) : bool :=
  (byte_in 224 224 c && byte_in 160 191 d) || (byte_in 225 236 c && is_cont d) ||
  (byte_in 237 237 c && byte_in 128 159 d) || (byte_in 238 239 c && is_cont d).

Definition accept4 (c d : Ascii.ascii) : bool :=
  (byte_in 240 240 c && byte_in 144 191 d) || (byte_in 241 243 c && is_cont d) ||
  (byte_in 244 244 c && byte_in 128 143 d).

Definition is_ascii7 (c : Ascii.ascii) : bool := byte_in 0 127 c.

Definition rune1 (s : string) : bool :=
  match s with String a _ => is_ascii7 a | _ => false end.
Definition rune2 (s : string) : bool :=
  match s with String a (String b _) => byte_in 194 223 a && is_cont b | _ => false end.
Definition rune3 (s : string) : bool :=
  match s with String a (String b (String c _)) => accept3 a b && is_cont c | _ => false end.
Definition rune4 (s : string) : bool :=
  match s with String a (String b (String c (String d _))) => accept4 a b && is_cont c && is_cont d | _ => false end.

(** [strings.ToValidUTF8(s, "")]: drop every byte that does not belong to a
    well-formed rune. *)
Fixpoint ToValidUTF8 (s : string) : string :=
  match s with
  | "" => ""
  | String a s1 =>
      if rune1 s then String a (ToValidUTF8 s1)
      else if rune2 s then
        match s1 with String b s2 => String a (String b (ToValidUTF8 s2)) | _ => "" end
      else if rune3 s then
        match s1 with
        | String b (String c s3) => String a (String b (String c (ToValidUTF8 s3)))
        | _ => "" end
      else if rune4 s then
        match s1 with
        | String b (String c (String d s4)) => String a (String b (String c (String d (ToValidUTF8 s4))))
        | _ => "" end
      else ToValidUTF8 s1
  end.

(** Well-formed UTF-8. *)
Inductive Utf8 : string -> Prop :=
| Utf8_nil : Utf8 ""
| Utf8_1 a s : is_ascii7 a -> Utf8 s -> Utf8 (String a s)
| Utf8_2 a b s : byte_in 194 223 a -> is_cont b -> Utf8 s -> Utf8 (String a (String b s))
| Utf8_3 a b c s : accept3 a b -> is_cont c -> Utf8 s -> Utf8 (String a (String b (String c s)))
| Utf8_4 a b c d s : accept4 a b -> is_cont c -> is_cont d -> Utf8 s ->
    Utf8 (String a (String b (String c (String d s)))).
#[export] Hint Constructors Utf8 : go_str.

Ltac bytes := unfold accept3, accept4, is_cont, is_ascii7, byte_in, Is_true in *; lia.

Lemma is_cont_not_start c : is_cont c = true -> RuneStart c = false.
Proof. destruct c as [[] [] [] [] [] [] [] []]; vm_compute; congruence. Qed.

Lemma start_or_cont c : RuneStart c = false -> is_cont c = true.
Proof. destruct c as [[] [] [] [] [] [] [] []]; vm_compute; congruence. Qed.

Lemma is_ascii7_start c : is_ascii7 c = true -> RuneStart c = true.
Proof. destruct c as [[] [] [] [] [] [] [] []]; vm_compute; congruence. Qed.

Lemma accept3_cont a b : accept3 a b = true -> is_cont b = true /\ is_ascii7 a = false /\ byte_in 194 223 a = false.
Proof. intros H. repeat split; bytes. Qed.

Lemma accept4_cont a b :
  accept4 a b = true ->
  is_cont b = true /\ is_ascii7 a = false /\ byte_in 194 223 a = false /\ forall c, accept3 a c = false.
Proof. intros H. repeat split; intros; bytes. Qed.

Lemma lead2 a : byte_in 194 223 a = true -> is_ascii7 a = false.
Proof. intros; bytes. Qed.

Ltac utf8_split :=
  repeat match goal with
  | H : (_ && _)%bool = true |- _ => apply andb_true_iff in H as [? ?]
  end.

(** Case analysis along the decoder: what the next rune is, and what remains. *)
Lemma ToValidUTF8_cases (P : string -> string -> Prop) :
  P "" "" ->
  (forall a s, is_ascii7 a -> P s (ToValidUTF8 s) -> P (String a s) (String a (ToValidUTF8 s))) ->
  (forall a b s, byte_in 194 223 a -> is_cont b -> P s (ToValidUTF8 s) ->
    P (String a (String b s)) (String a (String b (ToValidUTF8 s)))) ->
  (forall a b c s, accept3 a b -> is_cont c -> P s (ToValidUTF8 s) ->
    P (String a (String b (String c s))) (String a (String b (String c (ToValidUTF8 s))))) ->
  (forall a b c d s, accept4 a b -> is_cont c -> is_cont d -> P s (ToValidUTF8 s) ->
    P (String a (String b (String c (String d s)))) (String a (String b (String c (String d (ToValidUTF8 s)))))) ->
  (forall a s, P s (ToValidUTF8 s) -> P (String a s) (ToValidUTF8 s)) ->
  forall s, P s (ToValidUTF8 s).
Proof.
  intros P0 P1 P2 P3 P4 Pd s.
  induction s as [s IH] using (induction_ltof1 _ slen). unfold ltof in IH.
  destruct s as [|a s]; [done|].
  change (ToValidUTF8 (String a s)) with
    (if rune1 (String a s) then String a (ToValidUTF8 s)
     else if rune2 (String a s) then
       match s with String b s2 => String a (String b (ToValidUTF8 s2)) | _ => "" end
     else if rune3 (String a s) then
       match s with
       | String b (String c s3) => String a (String b (String c (ToValidUTF8 s3))) | _ => "" end
     else if rune4 (String a s) then
       match s with
       | String b (String c (String d s4)) => String a (String b (String c (String d (ToValidUTF8 s4))))
       | _ => "" end
     else ToValidUTF8 s).
  destruct (rune1 (String a s)) eqn:E1.
  { apply P1; [by apply Is_true_true|]. apply IH; simpl; lia. }
  destruct (rune2 (String a s)) eqn:E2.
  { destruct s as [|b s]; [done|]. simpl in E2. utf8_split.
    apply P2; [by apply Is_true_true..|]. apply IH; simpl; lia. }
  destruct (rune3 (String a s)) eqn:E3.
  { destruct s as [|b [|c s]]; [done..|]. simpl in E3. utf8_split.
    apply P3; [by apply Is_true_true..|]. apply IH; simpl; lia. }
  destruct (rune4 (String a s)) eqn:E4.
  { destruct s as [|b [|c [|d s]]]; [done..|]. simpl in E4. utf8_split.
    apply P4; [by apply Is_true_true..|]. apply IH; simpl; lia. }
  apply Pd, IH; simpl; lia.
Qed.

Lemma ToValidUTF8_valid s : Utf8 (ToValidUTF8 s).
Proof. apply (ToValidUTF8_cases (fun _ v => Utf8 v)); auto with go_str. Qed.

Lemma slen_ToValidUTF8 s : slen (ToValidUTF8 s) <= slen s.
Proof. apply (ToValidUTF8_cases (fun s v => slen v <= slen s)); simpl; intros; lia. Qed.

Lemma ToValidUTF8_id s : Utf8 s -> ToValidUTF8 s = s.
Proof.
  induction 1 as [|a s H1 Hs IH|a b s H1 H2 Hs IH|a b c s H1 H2 Hs IH|a b c d s H1 H2 H3 Hs IH];
    simpl; [done|..];
    repeat match goal with H : Is_true _ |- _ => apply Is_true_true in H end.
  - by rewrite H1, IH.
  - by rewrite (lead2 a), H1, H2, IH.
  - destruct (accept3_cont _ _ H1) as (? & -> & ->). simpl. by rewrite H1, H2, IH.
  - destruct (accept4_cont _ _ H1) as (? & -> & -> & E). simpl. by rewrite E, H1, H2, H3, IH.
Qed.

Lemma ToValidUTF8_idemp s : ToValidUTF8 (ToValidUTF8 s) = ToValidUTF8 s.
Proof. apply ToValidUTF8_id, ToValidUTF8_valid. Qed.

Lemma Utf8_app s t : Utf8 s -> Utf8 t -> Utf8 (s +:+ t).
Proof. induction 1; simpl; auto with go_str. Qed.
#[export] Hint Resolve ToValidUTF8_valid Utf8_app : go_str.

(** A byte offset that does not split a rune. *)
Definition at_boundary (n : nat) (s : string) : bool :=
  match sbyte n s with Some c => RuneStart c | None => true end.

Lemma Utf8_cut n s :
  Utf8 s -> at_boundary n s = true -> Utf8 (stake n s) /\ Utf8 (sdrop n s).
Proof.
  unfold at_boundary, sbyte. intros Hs; revert n.
  induction Hs as [|a s H1 Hs IH|a b s H1 H2 Hs IH|a b c s H1 H2 Hs IH|a b c d s H1 H2 H3 Hs IH]; intros n Hn;
    repeat match goal with H : Is_true (is_cont _) |- _ => apply Is_true_true in H end.
  - destruct n; simpl; auto with go_str.
  - destruct n as [|n]; simpl in *; [auto with go_str|]. destruct (IH n Hn). auto with go_str.
  - destruct n as [|[|n]]; simpl in *; [auto with go_str| |].
    + rewrite is_cont_not_start in Hn; done.
    + destruct (IH n Hn). split; [|done]. apply Utf8_2; [done|by apply Is_true_true|done].
  - assert (is_cont b = true) as Hb by (apply Is_true_true in H1; apply (accept3_cont _ _ H1)).
    destruct n as [|[|[|n]]]; simpl in *; [split; auto using Is_true_true_2 with go_str| | |].
    1,2: rewrite is_cont_not_start in Hn; done.
    destruct (IH n Hn). split; auto using Is_true_true_2 with go_str.
  - assert (is_cont b = true) as Hb by (apply Is_true_true in H1; apply (accept4_cont _ _ H1)).
    destruct n as [|[|[|[|n]]]]; simpl in *; [split; auto using Is_true_true_2 with go_str| | | |].
    1,2,3: rewrite is_cont_not_start in Hn; done.
    destruct (IH n Hn). split; auto using Is_true_true_2 with go_str.
Qed.

(** [strings.Split(s, sep)] for a one-byte separator. *)
Fixpoint Split (c : Ascii.ascii) (s : string) : list string :=
  match s with
  | "" => [""]
  | String d s' =>
      if Ascii.eqb c d then "" :: Split c s'
      else match Split c s' with [] => [String d ""] | part :: rest => String d part :: rest end
  end.
