(* ===== verification/Decimal.v ===== *)
(** * Decimal text

    Go's base-10 conversions of integers ([big.Int.String], [SetString(s, 10)])
    and the trimming helpers of package [strings] the amount parsers use. *)
From Stdlib Require Import Ascii.
From S2P Require Export GoStrings.
Local Open Scope Z_scope.

(** ** Digits *)

Definition is_digit (c : Ascii.ascii) : bool := byte_in 48 57 c.
Definition digit_val (c : Ascii.ascii) : Z := Z.of_N (byte_N c) - 48.

Fixpoint digits_acc (acc : Z) (s : string) : Z :=
  match s with "" => acc | String c s' => digits_acc (acc * 10 + digit_val c) s' end.

Definition digits_value (s : string) : Z := digits_acc 0 s.

Definition all_digits (s : string) : bool := sforall is_digit s.

(** [new(big.Int).SetString(s, 10)]: an optional sign and at least one digit. *)
Definition SetString10 (s : string) : option Z :=
  let number s := if negb (String.eqb s "") && all_digits s then Some (digits_value s) else None in
  match s with
  | String c s' =>
      if Ascii.eqb c "-"%char then Z.opp <$> number s'
      else if Ascii.eqb c "+"%char then number s' else number s
  | "" => None
  end.

(** [value.String()] of a [*big.Int]. *)
Definition big_String (z : Z) : string := pretty z.

(** ** Trimming *)

Fixpoint trim_right (f : Ascii.ascii -> bool) (s : string) : string :=
  match s with
  | "" => ""
  | String c s' => let r := trim_right f s' in if f c && String.eqb r "" then "" else String c r
  end.

(** The number of bytes of the white-space rune [s] begins with, 0 if none. *)
Definition space_len (s : string) : nat :=
  match s with
  | String a s1 =>
      if byte_in 9 13 a || byte_in 32 32 a then 1
      else match s1 with
           | String b s2 =>
               if byte_in 194 194 a && (byte_in 133 133 b || byte_in 160 160 b) then 2
               else match s2 with
                    | String c _ =>
                        if (byte_in 225 225 a && byte_in 154 154 b && byte_in 128 128 c) ||
                           (byte_in 226 226 a && byte_in 128 128 b &&
                              (byte_in 128 138 c || byte_in 168 169 c || byte_in 175 175 c)) ||
                           (byte_in 226 226 a && byte_in 129 129 b && byte_in 159 159 c) ||
                           (byte_in 227 227 a && byte_in 128 128 b && byte_in 128 128 c) then 3 else 0
                    | "" => 0
                    end
           | "" => 0
           end
  | "" => 0
  end%nat.

(** Dropping leading white-space runes; [skip] bytes of one are still to go. *)
Fixpoint trim_left_space (skip : nat) (s : string) : string :=
  match s with
  | "" => ""
  | String _ s' =>
      match skip with
      | S k => trim_left_space k s'
      | O => match space_len s with O => s | S k => trim_left_space k s' end
      end
  end.

Fixpoint all_space (skip : nat) (s : string) : bool :=
  match s with
  | "" => (skip =? 0)%nat
  | String _ s' =>
      match skip with
      | S k => all_space k s'
      | O => match space_len s with O => false | S k => all_space k s' end
      end
  end.

Fixpoint trim_right_space (s : string) : string :=
  match s with
  | "" => ""
  | String c s' => if all_space 0 s then "" else String c (trim_right_space s')
  end.

(** [strings.TrimSpace]. *)
Definition TrimSpace (s : string) : string := trim_right_space (trim_left_space 0 s).

(** [strings.Cut(s, sep)]: before, after, and whether [sep] was found. *)
Definition Cut (s sep : string) : string * string * bool :=
  match Index s sep with
  | Some i => (stake i s, sdrop (i + slen sep) s, true)
  | None => (s, "", false)
  end.

(** ** Values of digit strings *)

Lemma digits_acc_shift a s : digits_acc a s = a * 10 ^ Z.of_nat (slen s) + digits_value s.
Proof.
  unfold digits_value. revert a. induction s as [|c s IH]; intros a; cbn [digits_acc slen].
  - simpl. lia.
  - rewrite (IH (a * 10 + _)), (IH (0 * 10 + _)), Nat2Z.inj_succ, Z.pow_succ_r by lia. lia.
Qed.

Lemma digits_value_app s t : digits_value (s +:+ t) = digits_value s * 10 ^ Z.of_nat (slen t) + digits_value t.
Proof.
  unfold digits_value. generalize 0 at 1 2. induction s as [|c s IH]; intros a; simpl; [apply digits_acc_shift|apply IH].
Qed.

Lemma digits_value_cons c s : digits_value (String c s) = digit_val c * 10 ^ Z.of_nat (slen s) + digits_value s.
Proof. unfold digits_value at 1. cbn [digits_acc]. rewrite digits_acc_shift. lia. Qed.

Lemma digits_value_zeros n : digits_value (Repeat "0" n) = 0.
Proof.
  induction n as [|n IH]; [done|]. cbn [Repeat]. rewrite digits_value_app, IH.
  replace (digits_value "0") with 0 by reflexivity. lia.
Qed.

Lemma digits_value_bounds s : all_digits s = true -> 0 <= digits_value s < 10 ^ Z.of_nat (slen s).
Proof.
  induction s as [|c s IH]; [done|]. unfold all_digits. cbn [sforall]. intros [Hc Hs]%andb_true_iff.
  rewrite digits_value_cons. specialize (IH Hs). cbn [slen]. rewrite Nat2Z.inj_succ, Z.pow_succ_r by lia.
  unfold is_digit, byte_in, digit_val in *. nia.
Qed.

Lemma all_digits_app s t : all_digits (s +:+ t) = all_digits s && all_digits t.
Proof. apply sforall_app. Qed.

Lemma all_digits_zeros n : all_digits (Repeat "0" n) = true.
Proof. induction n; [done|]. cbn [Repeat]. by rewrite all_digits_app, IHn. Qed.

(** ** The text of an integer *)

Lemma pretty_char_digit x : (x < 10)%N -> is_digit (pretty_N_char x) = true /\ digit_val (pretty_N_char x) = Z.of_N x.
Proof.
  intros H. assert (x = 0 \/ x = 1 \/ x = 2 \/ x = 3 \/ x = 4 \/ x = 5 \/ x = 6 \/ x = 7 \/ x = 8 \/ x = 9)%N as Hx by lia.
  repeat destruct Hx as [->|Hx]; try (by vm_compute). subst. by vm_compute.
Qed.

Lemma pretty_go_spec x s : all_digits s = true ->
  all_digits (pretty_N_go x s) = true /\
  digits_value (pretty_N_go x s) = Z.of_N x * 10 ^ Z.of_nat (slen s) + digits_value s.
Proof.
  revert s. induction (N.lt_wf_0 x) as [x _ IH]; intros s Hs.
  destruct (decide (x = 0%N)) as [->|Hx]; [rewrite pretty_N_go_0; split; [done|lia]|].
  rewrite pretty_N_go_step by lia.
  destruct (pretty_char_digit (x mod 10)%N) as [Hd Hv]; [by apply N.mod_lt|].
  destruct (IH (x `div` 10)%N) with (s := String (pretty_N_char (x `mod` 10)) s) as [H1 H2];
    [by apply N.div_lt; lia|unfold all_digits in *; cbn [sforall]; by rewrite Hd, Hs|].
  split; [done|]. rewrite H2, digits_value_cons, Hv. cbn [slen].
  rewrite Nat2Z.inj_succ, Z.pow_succ_r by lia. pose proof (N.div_mod x 10 ltac:(done)). nia.
Qed.

Lemma pretty_N_spec (x : N) :
  all_digits (pretty x) = true /\ digits_value (pretty x) = Z.of_N x /\ pretty x <> "".
Proof.
  unfold pretty, pretty_N. case_decide as Hx; [subst; by vm_compute|].
  destruct (pretty_go_spec x "" eq_refl) as [H1 H2]. split; [done|]. rewrite H2.
  replace (digits_value "") with 0 by reflexivity. simpl. split; [lia|]. intros E. rewrite E in H2.
  replace (digits_value "") with 0 in H2 by reflexivity. simpl in H2. lia.
Qed.

Lemma big_String_nonneg z : 0 <= z -> big_String z = pretty (Z.to_N z).
Proof. by destruct z. Qed.

Lemma big_String_spec z : 0 <= z ->
  all_digits (big_String z) = true /\ digits_value (big_String z) = z /\ big_String z <> "".
Proof.
  intros Hz. rewrite big_String_nonneg by done. destruct (pretty_N_spec (Z.to_N z)) as (H1 & H2 & H3).
  split; [done|]. split; [lia|done].
Qed.

Lemma is_digit_not_sign c : is_digit c = true -> Ascii.eqb c "-"%char = false /\ Ascii.eqb c "+"%char = false.
Proof. destruct c as [[] [] [] [] [] [] [] []]; vm_compute; first [discriminate|done]. Qed.

Lemma SetString10_digits s : s <> "" -> all_digits s = true -> SetString10 s = Some (digits_value s).
Proof.
  intros Hne Hd. unfold SetString10. destruct s as [|c s]; [done|].
  pose proof Hd as Hd'. simpl in Hd'. apply andb_true_iff in Hd' as [Hc _].
  destruct (is_digit_not_sign c Hc) as [-> ->]. by rewrite Hd.
Qed.

(** [SetString] reads back what [String] prints. *)
Lemma SetString10_String z : SetString10 (big_String z) = Some z.
Proof.
  destruct (decide (0 <= z)) as [Hz|Hz].
  - destruct (big_String_spec z Hz) as (H1 & H2 & H3). by rewrite SetString10_digits, H2.
  - destruct z as [|p|p]; [lia|lia|]. change (big_String (Zneg p)) with (String "-" (big_String (Zpos p))).
    destruct (big_String_spec (Zpos p)) as (H1 & H2 & H3); [lia|]. unfold SetString10. apply String.eqb_neq in H3.
    revert H1 H2 H3. generalize (big_String (Zpos p)) as t. intros t H1 H2 H3. simpl. by rewrite H3, H1, H2.
Qed.

(** The text of a positive number has as many digits as it needs. *)
Lemma pretty_go_len x s : (0 < x)%N ->
  exists u, pretty_N_go x s = u +:+ s /\ (0 < slen u)%nat /\ 10 ^ (Z.of_nat (slen u) - 1) <= Z.of_N x.
Proof.
  revert s. induction (N.lt_wf_0 x) as [x _ IH]; intros s Hx. rewrite pretty_N_go_step by done.
  destruct (decide (x < 10)%N) as [H|H].
  - rewrite N.div_small, pretty_N_go_0 by done. exists (String (pretty_N_char (x mod 10)) ""). simpl. split; [done|]. lia.
  - destruct (IH (x `div` 10)%N) with (s := String (pretty_N_char (x mod 10)) s) as (u & Hu & Hl & Hp);
      [by apply N.div_lt; lia|apply N.div_str_pos; lia|].
    exists (u +:+ String (pretty_N_char (x mod 10)) ""). rewrite Hu, sapp_assoc, slen_app. split; [done|]. simpl.
    split; [lia|]. replace (Z.of_nat (slen u + 1) - 1) with (Z.succ (Z.of_nat (slen u) - 1)) by lia.
    rewrite Z.pow_succ_r by lia. rewrite N2Z.inj_div in Hp. pose proof (Z.mul_div_le (Z.of_N x) 10 ltac:(lia)). lia.
Qed.

Lemma big_String_len z : 0 < z -> (0 < slen (big_String z))%nat /\ 10 ^ (Z.of_nat (slen (big_String z)) - 1) <= z.
Proof.
  intros Hz. rewrite big_String_nonneg by lia. unfold pretty, pretty_N. case_decide; [lia|].
  destruct (pretty_go_len (Z.to_N z) "" ltac:(lia)) as (u & -> & H1 & H2). rewrite sapp_nil_r. split; [done|lia].
Qed.

(** No leading zero. *)
Lemma big_String_canonical z : 0 < z -> HasPrefix (big_String z) "0" = false.
Proof.
  intros Hz. destruct (big_String_spec z ltac:(lia)) as (H1 & H2 & _). destruct (big_String_len z Hz) as [_ H4].
  destruct (HasPrefix (big_String z) "0") eqn:E; [|done]. exfalso. apply HasPrefix_spec in E as [t E]. rewrite E in *.
  rewrite all_digits_app in H1. apply andb_true_iff in H1 as [_ Ht]. rewrite digits_value_app in H2.
  change (digits_value "0") with 0 in H2. rewrite slen_app in H4.
  change (slen "0" + slen t)%nat with (S (slen t)) in H4. rewrite Nat2Z.inj_succ in H4.
  replace (Z.succ (Z.of_nat (slen t)) - 1) with (Z.of_nat (slen t)) in H4 by lia.
  pose proof (digits_value_bounds t Ht). lia.
Qed.

(** ** Trimming text without white space *)

(** A printable ASCII byte other than the space. *)
Definition plain (c : Ascii.ascii) : bool := byte_in 33 126 c.

Lemma plain_space c s : plain c = true -> space_len (String c s) = 0%nat.
Proof.
  unfold plain, byte_in. intros H. unfold space_len, byte_in.
  repeat match goal with |- context [(?x <=? byte_N c)%N] => destruct (N.leb_spec x (byte_N c)); try lia
                       | |- context [(byte_N c <=? ?x)%N] => destruct (N.leb_spec (byte_N c) x); try lia end;
    simpl; by repeat case_match.
Qed.

Lemma TrimSpace_plain s : sforall plain s = true -> TrimSpace s = s.
Proof.
  intros H. unfold TrimSpace. assert (trim_left_space 0 s = s) as ->.
  { destruct s as [|c s]; [done|]. simpl in H. apply andb_true_iff in H as [H _].
    cbn [trim_left_space]. by rewrite plain_space. }
  induction s as [|c s IH]; [done|]. simpl in H. apply andb_true_iff in H as [Hc Hs].
  cbn [trim_right_space all_space]. rewrite plain_space by done. by rewrite IH.
Qed.

Lemma all_space_cons k c s : all_space k (String c s) =
  match k with
  | S k => all_space k s
  | O => match space_len (String c s) with O => false | S k => all_space k s end
  end.
Proof. done. Qed.

Lemma space_len_app s t : space_len s <> 0%nat -> space_len (s +:+ t) = space_len s.
Proof.
 intros H. destruct s as [|a s]; [done|]. unfold space_len in *. cbn [String.append].
  destruct (byte_in 9 13 a || byte_in 32 32 a); [done|]. destruct s as [|b s]; [done|]. cbn [String.append].
  destruct (byte_in 194 194 a && _); [done|]. by destruct s as [|c s].
Qed.

Lemma all_space_app k s t : all_space k s = true -> all_space 0 t = true -> all_space k (s +:+ t) = true.
Proof.
  revert k. induction s as [|c s IH]; intros k Hs Ht; [by apply Nat.eqb_eq in Hs as ->|].
  change (String c s +:+ t) with (String c (s +:+ t)). rewrite all_space_cons in Hs |- *. destruct k as [|k]; [|by apply IH].
  destruct (space_len (String c s)) as [|n] eqn:E; [done|].
  change (String c (s +:+ t)) with (String c s +:+ t). rewrite space_len_app by (by rewrite E). rewrite E. by apply IH.
Qed.

Lemma trim_right_space_split s : exists t, s = trim_right_space s +:+ t /\ all_space 0 t = true.
Proof.
  induction s as [|c s IH]; [by exists ""|]. cbn [trim_right_space]. destruct (all_space 0 (String c s)) eqn:E; [by exists (String c s)|].
  destruct IH as (t & H & Ht). exists t. split; [|done]. simpl. by rewrite <- H.
Qed.

Lemma trim_right_space_idem s : trim_right_space (trim_right_space s) = trim_right_space s.
Proof.
  induction s as [|c s IH]; [done|]. cbn [trim_right_space]. destruct (all_space 0 (String c s)) eqn:E; [done|].
  cbn [trim_right_space]. rewrite IH. destruct (all_space 0 (String c (trim_right_space s))) eqn:E'; [|done].
  destruct (trim_right_space_split s) as (t & H & Ht). pose proof (all_space_app 0 _ t E' Ht) as Hall. simpl in Hall.
  rewrite <- H in Hall. simpl in E. congruence.
Qed.

Lemma trim_left_space_starts k s : space_len (trim_left_space k s) = 0%nat.
Proof.
  revert k. induction s as [|c s IH]; intros k; [done|]. cbn [trim_left_space].
  destruct k as [|k]; [|done]. by destruct (space_len (String c s)) eqn:E.
Qed.

Lemma trim_left_space_id s : space_len s = 0%nat -> trim_left_space 0 s = s.
Proof. destruct s as [|c s]; [done|]. cbn [trim_left_space]. by intros ->. Qed.

Lemma TrimSpace_idem s : TrimSpace (TrimSpace s) = TrimSpace s.
Proof.
  unfold TrimSpace at 1. rewrite trim_left_space_id; [unfold TrimSpace; apply trim_right_space_idem|].
  unfold TrimSpace. pose proof (trim_left_space_starts 0 s) as H. destruct (trim_right_space_split (trim_left_space 0 s)) as (t & E & _).
  destruct (decide (space_len (trim_right_space (trim_left_space 0 s)) = 0%nat)) as [|Hn]; [done|].
  rewrite E, space_len_app in H by done. done.
Qed.

Lemma digit_plain c : is_digit c = true -> plain c = true.
Proof. unfold is_digit, plain, byte_in. lia. Qed.

Lemma sforall_impl (f g : Ascii.ascii -> bool) s : (forall c, f c = true -> g c = true) -> sforall f s = true -> sforall g s = true.
Proof. intros H. induction s as [|c s IH]; simpl; [done|]. intros [? ?]%andb_true_iff. rewrite H, IH; done. Qed.

Lemma digits_plain s : all_digits s = true -> sforall plain s = true.
Proof. apply sforall_impl, digit_plain. Qed.

(** Trailing zeros dropped and put back. *)
Lemma trim_right_zeros s : trim_right (Ascii.eqb "0"%char) s +:+ Repeat "0" (slen s - slen (trim_right (Ascii.eqb "0"%char) s)) = s /\
  (slen (trim_right (Ascii.eqb "0"%char) s) <= slen s)%nat.
Proof.
  induction s as [|c s [IH IHl]]; [done|]. cbn [trim_right]. cbv zeta.
  destruct (Ascii.eqb_spec "0"%char c) as [<-|Hc]; simpl.
  - destruct (String.eqb_spec (trim_right (Ascii.eqb "0"%char) s) "") as [E|E]; simpl.
    + rewrite E in IH. simpl in IH. rewrite Nat.sub_0_r in IH. split; [by rewrite IH|lia].
    + split; [by rewrite IH|lia].
  - split; [by rewrite IH|lia].
Qed.

(** The first point of a number whose whole part is digits. *)
Lemma digit_not_point c s : is_digit c = true -> HasPrefix (String c s) "." = false.
Proof. destruct c as [[] [] [] [] [] [] [] []]; vm_compute; first [discriminate|done]. Qed.

Lemma digit_no_sign c s : is_digit c = true ->
  HasPrefix (String c s) "-" = false /\ HasPrefix (String c s) "+" = false.
Proof. destruct c as [[] [] [] [] [] [] [] []]; vm_compute; first [discriminate|done]. Qed.

Lemma Index_digits s t : all_digits s = true -> Index (s +:+ String "." t) "." = Some (slen s).
Proof.
  induction s as [|c s IH]; [by destruct t|]. intros [Hc Hs]%andb_true_iff.
  change (String c s +:+ String "." t) with (String c (s +:+ String "." t)).
  by rewrite Index_unfold, digit_not_point, IH.
Qed.

Lemma Index_no_point s : all_digits s = true -> Index s "." = None.
Proof.
  induction s as [|c s IH]; [done|]. intros [Hc Hs]%andb_true_iff.
  by rewrite Index_unfold, digit_not_point, IH.
Qed.

Lemma Cut_digits s t : all_digits s = true -> Cut (s +:+ String "." t) "." = (s, t, true).
Proof.
  intros H. unfold Cut. rewrite Index_digits by done. rewrite stake_app. do 2 f_equal.
  simpl. rewrite <- (sdrop_sdrop 1 (slen s)), sdrop_app. done.
Qed.

Lemma Cut_no_point s : all_digits s = true -> Cut s "." = (s, "", false).
Proof. intros H. unfold Cut. by rewrite Index_no_point. Qed.

(** ** Letter case

    [strings.ToLower], [ToUpper] and [EqualFold].  ASCII text is mapped byte by
    byte, as package [strings] does; the Unicode tables are a parameter. *)

(** What the sources take from Go's Unicode tables, for a string that is not pure
    ASCII, and the quoting of printable text. *)
Class UnicodeTables := {
  unicode_ToLower : string -> string;
  unicode_ToUpper : string -> string;
  unicode_EqualFold : string -> string -> bool;
  strconv_Quote : string -> string;      (* what [%q] prints *)
}.

Fixpoint map_string (f : Ascii.ascii -> Ascii.ascii) (s : string) : string :=
  match s with "" => "" | String c s' => String (f c) (map_string f s') end.

Definition ascii_lower (c : Ascii.ascii) : Ascii.ascii := if byte_in 65 90 c then ascii_of_N (byte_N c + 32) else c.
Definition ascii_upper (c : Ascii.ascii) : Ascii.ascii := if byte_in 97 122 c then ascii_of_N (byte_N c - 32) else c.

Section case.
Context `{UnicodeTables}.

Definition ToLower (s : string) : string :=
  if sforall is_ascii7 s then map_string ascii_lower s else unicode_ToLower s.

Definition ToUpper (s : string) : string :=
  if sforall is_ascii7 s then map_string ascii_upper s else unicode_ToUpper s.

Definition EqualFold (s t : string) : bool :=
  if sforall is_ascii7 s && sforall is_ascii7 t then String.eqb (map_string ascii_lower s) (map_string ascii_lower t)
  else unicode_EqualFold s t.

End case.
