(* ===== verification/Calendar.v ===== *)
(** * Calendar dates of package [time]

    UTC dates of the proleptic Gregorian calendar: an instant is its nanoseconds
    since the Unix epoch, a date is its midnight.  [Format] and [Parse] for the
    layouts the sources use. *)
From Stdlib Require Import Ascii.
From S2P Require Export Decimal.
Local Open Scope Z_scope.

Definition nanosPerSecond : Z := 1000000000.
Definition nanosPerDay : Z := 86400 * nanosPerSecond.

(** [time.Time{}], the first of January of the year 1. *)
Definition zeroTime : Z := -62135596800 * nanosPerSecond.
Definition IsZero (t : Z) : bool := t =? zeroTime.

(** [t.Sub(u)] saturates. *)
Definition maxDuration : Z := 2 ^ 63 - 1.
Definition minDuration : Z := - 2 ^ 63.
Definition Sub (t u : Z) : Z := Z.max minDuration (Z.min maxDuration (t - u)).

(** ** Civil dates of a day number *)

Record civil := mkCivil { Year : Z; Month : Z; Day : Z }.

(** Years are counted from March in eras of 400 years. *)
Definition year_of_era (doe : Z) : Z := (doe - doe / 1460 + doe / 36524 - doe / 146096) / 365.
Definition day_of_year (doe : Z) : Z := let yoe := year_of_era doe in doe - (365 * yoe + yoe / 4 - yoe / 100).
Definition month_index (doy : Z) : Z := (5 * doy + 2) / 153.

Definition civil_of_days (days : Z) : civil :=
  let z := days + 719468 in
  let era := z / 146097 in
  let doe := z mod 146097 in
  let doy := day_of_year doe in
  let mp := month_index doy in
  let month := if mp <? 10 then mp + 3 else mp - 9 in
  mkCivil (year_of_era doe + era * 400 + (if month <=? 2 then 1 else 0)) month (doy - (153 * mp + 2) / 5 + 1).

Definition days_of_civil (c : civil) : Z :=
  let y := Year c - (if Month c <=? 2 then 1 else 0) in
  let yoe := y mod 400 in
  let mp := if 2 <? Month c then Month c - 3 else Month c + 9 in
  let doy := (153 * mp + 2) / 5 + Day c - 1 in
  y / 400 * 146097 + (yoe * 365 + yoe / 4 - yoe / 100 + doy) - 719468.

Definition is_leap (y : Z) : bool := (y mod 4 =? 0) && (negb (y mod 100 =? 0) || (y mod 400 =? 0)).
Definition daysIn (month year : Z) : Z :=
  if month =? 2 then (if is_leap year then 29 else 28)
  else if existsb (Z.eqb month) [4; 6; 9; 11] then 30 else 31.

(** ** Dates as instants *)

Definition day_number (t : Z) : Z := t / nanosPerDay.
Definition midnight (days : Z) : Z := days * nanosPerDay.
Definition civil_of (t : Z) : civil := civil_of_days (day_number t).
Definition is_date (t : Z) : Prop := exists d, t = midnight d.

(** [time.Date(c.Year(), c.Month(), c.Day(), 0, 0, 0, 0, time.UTC)] *)
Definition date_of_civil (c : civil) : Z := midnight (days_of_civil c).

(** [appendInt(b, x, width)] *)
Definition pad (width : nat) (x : Z) : string :=
  let s := big_String (Z.abs x) in
  (if x <? 0 then "-" else "") +:+ Repeat "0" (width - slen s) +:+ s.

(** [t.Format(time.DateOnly)] and [t.Format("2006-01")] *)
Definition FormatMonth (t : Z) : string := let c := civil_of t in pad 4 (Year c) +:+ "-" +:+ pad 2 (Month c).
Definition FormatDate (t : Z) : string := FormatMonth t +:+ "-" +:+ pad 2 (Day (civil_of t)).

(** [time.Parse(time.DateOnly, s)] *)
Definition ParseDate (s : string) : option Z :=
  let y := stake 4 s in let m := stake 2 (sdrop 5 s) in let d := stake 2 (sdrop 8 s) in
  if (slen s =? 10)%nat && all_digits y && String.eqb (stake 1 (sdrop 4 s)) "-" && all_digits m &&
     String.eqb (stake 1 (sdrop 7 s)) "-" && all_digits d
  then
    let c := mkCivil (digits_value y) (digits_value m) (digits_value d) in
    if (1 <=? Month c) && (Month c <=? 12) && (1 <=? Day c) && (Day c <=? daysIn (Month c) (Year c))
    then Some (date_of_civil c) else None
  else None.

(** ** Dates and day numbers *)

Lemma nanosPerDay_pos : 0 < nanosPerDay.
Proof. done. Qed.

Lemma day_number_midnight d : day_number (midnight d) = d.
Proof. unfold day_number, midnight. by apply Z.div_mul. Qed.

Lemma midnight_day_number t : midnight (day_number t) <= t < midnight (day_number t) + nanosPerDay.
Proof. unfold midnight, day_number. pose proof (Z.div_mod t nanosPerDay ltac:(done)). pose proof (Z.mod_pos_bound t nanosPerDay ltac:(done)). lia. Qed.

Lemma midnight_inj a b : midnight a = midnight b -> a = b.
Proof. unfold midnight. pose proof nanosPerDay_pos. nia. Qed.

(** The year found starts at or before the day, which is within it. *)
Lemma doe_bounds doe : 0 <= doe < 146097 -> 0 <= year_of_era doe < 400 /\ 0 <= day_of_year doe < 366.
Proof.
  intros H. unfold day_of_year, year_of_era. cbv zeta.
  Z.to_euclidean_division_equations. lia.
Qed.

Lemma month_index_bounds doy : 0 <= doy < 366 -> 0 <= month_index doy <= 11.
Proof. unfold month_index. intros H. Z.to_euclidean_division_equations. lia. Qed.

Lemma civil_bounds days : 1 <= Month (civil_of_days days) <= 12 /\ 1 <= Day (civil_of_days days) <= 31.
Proof.
  unfold civil_of_days. cbv zeta. cbn [Month Day].
  destruct (doe_bounds ((days + 719468) mod 146097)) as [_ Hd]; [by apply Z.mod_pos_bound|].
  set (doy := day_of_year _) in *. pose proof (month_index_bounds doy Hd) as Hm. split; [destruct (Z.ltb_spec (month_index doy) 10); lia|].
  unfold month_index in *. Z.to_euclidean_division_equations. lia.
Qed.

(** A date determines its day. *)
Lemma days_of_civil_of_days days : days_of_civil (civil_of_days days) = days.
Proof.
  unfold days_of_civil, civil_of_days. cbv zeta. cbn [Year Month Day].
  assert (Hz : days + 719468 = (days + 719468) / 146097 * 146097 + (days + 719468) mod 146097)
    by (pose proof (Z.div_mod (days + 719468) 146097 ltac:(done)); lia).
  set (era := (days + 719468) / 146097) in *. set (doe := (days + 719468) mod 146097) in *.
  destruct (doe_bounds doe) as [Hy Hd]; [by apply Z.mod_pos_bound|]. pose proof (month_index_bounds _ Hd) as Hm.
  assert (E : day_of_year doe = doe - (365 * year_of_era doe + year_of_era doe / 4 - year_of_era doe / 100)) by done.
  set (yoe := year_of_era doe) in *. set (doy := day_of_year doe) in *. set (mp := month_index doy) in *.
  set (m := if mp <? 10 then mp + 3 else mp - 9).
  replace (yoe + era * 400 + (if m <=? 2 then 1 else 0) - (if m <=? 2 then 1 else 0)) with (yoe + era * 400) by lia.
  replace (if 2 <? m then m - 3 else m + 9) with mp by (unfold m; destruct (Z.ltb_spec mp 10); case_match; lia).
  rewrite Z.mod_add, Z.mod_small, Z.div_add, Z.div_small by lia. lia.
Qed.

Lemma civil_of_days_inj a b : civil_of_days a = civil_of_days b -> a = b.
Proof. intros E. by rewrite <- (days_of_civil_of_days a), <- (days_of_civil_of_days b), E. Qed.

Example civil_epoch : civil_of_days 0 = mkCivil 1970 1 1.
Proof. reflexivity. Qed.
Example civil_leap : civil_of_days 11016 = mkCivil 2000 2 29 /\ days_of_civil (mkCivil 2000 3 1) = 11017.
Proof. split; reflexivity. Qed.
Example civil_zero : civil_of zeroTime = mkCivil 1 1 1.
Proof. reflexivity. Qed.

(** ** Text *)

Lemma pad_nonneg width x : 0 <= x ->
  all_digits (pad width x) = true /\ digits_value (pad width x) = x /\ (0 < x < 10 ^ Z.of_nat width -> slen (pad width x) = width).
Proof.
  intros Hx. unfold pad. rewrite (proj2 (Z.ltb_ge x 0)), Z.abs_eq by done. destruct (big_String_spec x Hx) as (H1 & H2 & _).
  change (("" +:+ Repeat "0" (width - slen (big_String x)) +:+ big_String x)) with (Repeat "0" (width - slen (big_String x)) +:+ big_String x).
  split; [by rewrite all_digits_app, all_digits_zeros, H1|]. split; [rewrite digits_value_app, digits_value_zeros, H2; lia|].
  intros Hlt. destruct (big_String_len x) as [_ H3]; [lia|]. rewrite slen_app, slen_Repeat. change (slen "0") with 1%nat.
  enough (slen (big_String x) <= width)%nat by lia. apply Nat2Z.inj_le.
  destruct (Z.le_gt_cases (Z.of_nat (slen (big_String x))) (Z.of_nat width)); [done|].
  assert (10 ^ Z.of_nat width <= 10 ^ (Z.of_nat (slen (big_String x)) - 1)) by (apply Z.pow_le_mono_r; lia). lia.
Qed.

Lemma pad_inj width x y : pad width x = pad width y -> x = y.
Proof.
  assert (Hneg : forall z, z < 0 -> pad width z = String "-" (pad width (- z))).
  { intros z Hz. unfold pad. rewrite (proj2 (Z.ltb_lt z 0)), (proj2 (Z.ltb_ge (- z) 0)), Z.abs_opp by lia. done. }
  assert (Hsign : forall z w, z < 0 -> 0 <= w -> pad width z <> pad width w).
  { intros z w Hz Hw E. rewrite Hneg in E by done. destruct (pad_nonneg width w Hw) as [Hd _]. rewrite <- E in Hd. done. }
  destruct (Z.lt_ge_cases x 0), (Z.lt_ge_cases y 0); intros E.
  - rewrite (Hneg x), (Hneg y) in E by done. apply (f_equal (sdrop 1)) in E. cbn [sdrop] in E. apply (f_equal digits_value) in E.
    destruct (pad_nonneg width (- x)) as (_ & Hx & _), (pad_nonneg width (- y)) as (_ & Hy & _); lia.
  - by destruct (Hsign x y).
  - by destruct (Hsign y x).
  - apply (f_equal digits_value) in E. destruct (pad_nonneg width x) as (_ & Hx & _), (pad_nonneg width y) as (_ & Hy & _); lia.
Qed.

(** Equal text whose ends are equally long splits alike. *)
Lemma sapp_inj_end (s s' t t' : string) : slen t = slen t' -> s +:+ t = s' +:+ t' -> s = s' /\ t = t'.
Proof.
  intros Hl E. apply sapp_inj_len; [|done]. apply (f_equal slen) in E. rewrite !slen_app in E. lia.
Qed.

Lemma pad2_len x : 1 <= x <= 31 -> slen (pad 2 x) = 2%nat.
Proof. intros H. apply pad_nonneg; lia. Qed.

Lemma FormatMonth_inj s t : FormatMonth s = FormatMonth t ->
  Year (civil_of s) = Year (civil_of t) /\ Month (civil_of s) = Month (civil_of t).
Proof.
  unfold FormatMonth. cbv zeta. destruct (civil_bounds (day_number s)) as [Hs _], (civil_bounds (day_number t)) as [Ht _].
  intros [E1%pad_inj E2]%sapp_inj_end; [|rewrite !slen_app; unfold civil_of; rewrite !pad2_len by lia; done].
  by apply sapp_inj_len in E2 as [_ E2%pad_inj].
Qed.

Lemma FormatDate_day s t : FormatDate s = FormatDate t -> day_number s = day_number t.
Proof.
  unfold FormatDate. destruct (civil_bounds (day_number s)) as [_ Hs], (civil_bounds (day_number t)) as [_ Ht].
  intros [[Ey Em]%FormatMonth_inj E2]%sapp_inj_end; [|rewrite !slen_app; unfold civil_of; rewrite !pad2_len by lia; done].
  apply sapp_inj_len in E2 as [_ E2%pad_inj]; [|done]. apply civil_of_days_inj. unfold civil_of in *.
  destruct (civil_of_days (day_number s)), (civil_of_days (day_number t)). simpl in *. by subst.
Qed.

Lemma FormatDate_inj s t : is_date s -> is_date t -> FormatDate s = FormatDate t -> s = t.
Proof. intros [a ->] [b ->] E%FormatDate_day. rewrite !day_number_midnight in E. by subst. Qed.

(** The text has digits and dashes only. *)
Definition date_char (c : Ascii.ascii) : bool := is_digit c || Ascii.eqb c "-"%char.

Lemma pad_chars width x : sforall date_char (pad width x) = true.
Proof.
  unfold pad. rewrite !sforall_app. destruct (big_String_spec (Z.abs x)) as (Hd & _ & _); [lia|].
  assert (Hz : forall n, sforall date_char (Repeat "0" n) = true) by (induction n; done). rewrite Hz.
  assert (Hs : sforall date_char (big_String (Z.abs x)) = true).
  { refine (sforall_impl is_digit date_char _ _ Hd). intros c Hc. unfold date_char. by rewrite Hc. }
  rewrite Hs. by destruct (x <? 0).
Qed.

Lemma FormatDate_chars t : sforall date_char (FormatDate t) = true.
Proof. unfold FormatDate, FormatMonth. by rewrite !sforall_app, !pad_chars. Qed.


(** ** Durations *)

(** The fraction [v / 10^digits], without trailing zeros ([fmtFrac]). *)
Definition duration_fraction (digits : nat) (v : Z) : string :=
  if v =? 0 then "" else "." +:+ trim_right (Ascii.eqb "0"%char) (pad digits v).

(** [d.String()] *)
Definition duration_String (d : Z) : string :=
  let u := Z.abs d in
  let text :=
    if u =? 0 then "0s"
    else if u <? 1000 then pretty u +:+ "ns"
    else if u <? 1000000 then pretty (u / 1000) +:+ duration_fraction 3 (u mod 1000) +:+ "µs"
    else if u <? nanosPerSecond then pretty (u / 1000000) +:+ duration_fraction 6 (u mod 1000000) +:+ "ms"
    else
      let seconds := u / nanosPerSecond in
      let minutes := seconds / 60 in
      let s := pretty (seconds mod 60) +:+ duration_fraction 9 (u mod nanosPerSecond) +:+ "s" in
      if 0 <? minutes / 60 then pretty (minutes / 60) +:+ "h" +:+ pretty (minutes mod 60) +:+ "m" +:+ s
      else if 0 <? minutes then pretty minutes +:+ "m" +:+ s else s in
  if d <? 0 then "-" +:+ text else text.

Example duration_texts : map duration_String [0; 999; 1500; 3 * nanosPerSecond; 5430500000000; -90000000000] =
  ["0s"; "999ns"; "1.5µs"; "3s"; "1h30m30.5s"; "-1m30s"].
Proof. vm_compute. reflexivity. Qed.
