(* ===== verification/Numbers.v ===== *)
(** * Decimal text of numbers, and 64-bit floats

    The grammar of a decimal number with an optional fraction and exponent, and
    [strconv.ParseFloat] of it: the correctly rounded binary64 value.  A float is
    the Standard Library's [spec_float]. *)
From Stdlib Require Import Ascii SpecFloat.
From S2P Require Export Decimal.
Local Open Scope Z_scope.

(** ** Grammar *)

(** The digits a text begins with, and the rest. *)
Fixpoint span_digits (s : string) : string * string :=
  match s with
  | String c s' => if is_digit c then let '(d, r) := span_digits s' in (String c d, r) else ("", s)
  | "" => ("", "")
  end.

(** Past the digits a text begins with, and whether there is one. *)
Fixpoint skip_digits (s : string) : string := match s with String c s' => if is_digit c then skip_digits s' else s | "" => "" end.
Definition starts_digit (s : string) : bool := match s with String c _ => is_digit c | "" => false end.

Definition cut_sign (s : string) : bool * string :=
  match s with String c s' => if Ascii.eqb c "-"%char then (true, s') else (false, s) | "" => (false, "") end.

(** A fraction, if a point follows: at least one digit after it. *)
Definition fraction (s : string) : option (string * string) :=
  match s with
  | String c s' => if Ascii.eqb c "."%char then let '(f, r) := span_digits s' in if String.eqb f "" then None else Some (f, r) else Some ("", s)
  | "" => Some ("", "")
  end.

(** An exponent, if [e] or [E] follows: an optional sign and at least one digit. *)
Definition exponent (s : string) : option (Z * string) :=
  match s with
  | String c s' =>
      if Ascii.eqb c "e"%char || Ascii.eqb c "E"%char then
        let '(negative, s') :=
          match s' with
          | String d s'' => if Ascii.eqb d "-"%char then (true, s'') else if Ascii.eqb d "+"%char then (false, s'') else (false, s')
          | "" => (false, s')
          end in
        let '(e, r) := span_digits s' in
        if String.eqb e "" then None else Some ((if (negative : bool) then - digits_value e else digits_value e), r)
      else Some (0, s)
  | "" => Some (0, "")
  end.

(** Sign, mantissa and power of ten of a decimal number. *)
Record decimal := mkDecimal { negative : bool; mantissa : Z; power : Z }.

Definition decimal_of (s : string) : option decimal :=
  let '(neg, s) := cut_sign s in
  let '(i, s) := span_digits s in
  if String.eqb i "" then None
  else
    '(f, s) ← fraction s;
    '(e, s) ← exponent s;
    if String.eqb s "" then Some (mkDecimal neg (digits_value (i +:+ f)) (e - Z.of_nat (slen f))) else None.

(** [strconv.ParseUint(s, 10, bits)] *)
Definition ParseUint (bits : Z) (s : string) : option Z :=
  if negb (String.eqb s "") && all_digits s && (digits_value s <? 2 ^ bits) then Some (digits_value s) else None.

(** ** Binary64 *)

Abbreviation float64 := spec_float.

(** The float nearest to a decimal, ties to even. *)
Definition round_decimal (d : decimal) : float64 :=
  match mantissa d with
  | Zpos m =>
      if 0 <=? power d then
        match Zpos m * 10 ^ power d with
        | Zpos n => binary_round 53 1024 (negative d) n 0
        | _ => S754_nan
        end
      else
        let '(q, e, l) := SFdiv_core_binary 53 1024 (Zpos m) 0 (10 ^ (- power d)) 0 in
        binary_round_aux 53 1024 (negative d) q e l
  | _ => S754_zero (negative d)
  end.

(** [strconv.ParseFloat(s, 64)] of a decimal number; [None] is an error, out of
    range included. *)
Definition ParseFloat (s : string) : option float64 :=
  d ← decimal_of s;
  match round_decimal d with S754_infinity _ | S754_nan => None | f => Some f end.

Definition IsNaN (f : float64) : bool := match f with S754_nan => true | _ => false end.
Definition IsInf (f : float64) : bool := match f with S754_infinity _ => true | _ => false end.
Definition float_zero : float64 := S754_zero false.
Definition float_one : float64 := S754_finite false 4503599627370496 (-52).

Example parse_one : ParseFloat "1.0" = Some float_one /\ ParseFloat "10e-1" = Some float_one.
Proof. split; reflexivity. Qed.
Example parse_tenth : ParseFloat "0.1" = Some (S754_finite false 7205759403792794 (-56)).
Proof. reflexivity. Qed.
Example parse_range : ParseFloat "1e309" = None /\ ParseFloat "1e-400" = Some float_zero.
Proof. split; vm_compute; reflexivity. Qed.

(** ** Facts *)

Lemma span_digits_spec s : let '(d, r) := span_digits s in s = d +:+ r /\ all_digits d = true.
Proof.
  induction s as [|c s IH]; [done|]. cbn [span_digits]. destruct (is_digit c) eqn:E; [|done].
  destruct (span_digits s) as [d r]. destruct IH as [-> Hd]. split; [done|]. unfold all_digits in *. cbn [sforall]. by rewrite E.
Qed.

Lemma skip_digits_span s : skip_digits s = snd (span_digits s) /\ starts_digit s = negb (String.eqb (fst (span_digits s)) "").
Proof.
  induction s as [|c s [IH1 IH2]]; [done|]. cbn [skip_digits span_digits starts_digit]. destruct (is_digit c); [|done].
  destruct (span_digits s) as [d r]. by rewrite IH1.
Qed.

(** ** Shortest decimals

    [strconv.FormatFloat(f, 'f', -1, 64)]: of the decimals with the fewest digits
    that read back as the float, the one nearest to it.  Its value is an integer
    and a power of ten. *)

(** A positive float as a fraction, and the fraction in units of a power of ten. *)
Definition float_ratio (m : positive) (e : Z) : Z * Z := (Zpos m * 2 ^ Z.max 0 e, 2 ^ Z.max 0 (- e)).
Definition in_units (r : Z * Z) (p : Z) : Z * Z := (r.1 * 10 ^ Z.max 0 (- p), r.2 * 10 ^ Z.max 0 p).
Definition reads_as (f : float64) (n p : Z) : bool := SFeqb (round_decimal (mkDecimal false n p)) f.
(** To the nearest integer, ties to even. *)
Definition nearest (num den : Z) : Z :=
  let q := num / den in
  let r := num mod den in
  if 2 * r <? den then q else if den <? 2 * r then q + 1 else if Z.even q then q else q + 1.

Fixpoint shortest_loop (k : nat) (f : float64) (r : Z * Z) (p : Z) : Z * Z :=
  let '(num, den) := in_units r p in
  let down := num / den in
  match k with
  | O => (down, p)
  | S k =>
      let okdown := reads_as f down p in
      let okup := negb (num mod den =? 0) && reads_as f (down + 1) p in
      if okdown && okup then (nearest num den, p)
      else if okdown then (down, p)
      else if okup then (down + 1, p)
      else shortest_loop k f r (p - 1)
  end.

(** From the first digit of the integer part down to the last one of the exact
    value; [None] is not a number, or infinite. *)
Definition shortest (f : float64) : option (Z * Z) :=
  match f with
  | S754_zero _ => Some (0, 0)
  | S754_finite sign m e =>
      let r := float_ratio m e in
      let p := Z.of_nat (slen (pretty (r.1 / r.2))) - 1 in
      let '(n, p) := shortest_loop (Z.to_nat (p - Z.min 0 e)) (S754_finite false m e) r p in
      Some (if sign then - n else n, p)
  | _ => None
  end.

(** A decimal truncated to an integer. *)
Definition trunc_decimal (n p : Z) : Z := if 0 <=? p then n * 10 ^ p else Z.quot n (10 ^ (- p)).

(** [fmt.Sprintf("%f", f)] of a finite float: six digits after the point. *)
Definition fixed6 (f : float64) : option string :=
  let text n := let s := pretty n in
    let s := if (slen s <? 7)%nat then Repeat "0" (7 - slen s) +:+ s else s in
    stake (slen s - 6) s +:+ "." +:+ sdrop (slen s - 6) s in
  match f with
  | S754_zero sign => Some ((if sign then "-" else "") +:+ text 0)
  | S754_finite sign m e =>
      let r := float_ratio m e in Some ((if sign then "-" else "") +:+ text (nearest (r.1 * 10 ^ 6) r.2))
  | _ => None
  end.

Example shortest_tenth : shortest (S754_finite false 7205759403792794 (-56)) = Some (1, -1) /\ shortest float_one = Some (1, 0).
Proof. split; vm_compute; reflexivity. Qed.
Example shortest_smallest : shortest (S754_finite true 1 (-1074)) = Some (-5, -324).
Proof. vm_compute. reflexivity. Qed.
Example fixed6_half : fixed6 (S754_finite true 4503599627370496 (-53)) = Some "-0.500000".
Proof. vm_compute. reflexivity. Qed.
