(* ===== verification/Query.v ===== *)
(** * Query strings of package [net/url]

    [url.Values] with its canonical encoding, and percent-encoding of a query
    component and of a path segment, and what a query sets. *)
From Stdlib Require Import Ascii.
From S2P Require Export Decimal.
Local Open Scope Z_scope.

(** ** Escaping *)

(** Letters, digits and the four marks are never escaped. *)
Definition unreserved (c : Ascii.ascii) : bool :=
  byte_in 97 122 c || byte_in 65 90 c || is_digit c || existsb (Ascii.eqb c) ["-"; "_"; "."; "~"]%char.

(** What a path segment may hold besides. *)
Definition segment_char (c : Ascii.ascii) : bool := unreserved c || existsb (Ascii.eqb c) ["$"; "&"; "+"; ":"; "="; "@"]%char.

Definition hex_upper (n : N) : Ascii.ascii := ascii_of_N (if (n <? 10)%N then 48 + n else 55 + n).

Definition percent (c : Ascii.ascii) (rest : string) : string :=
  String "%" (String (hex_upper (byte_N c / 16)) (String (hex_upper (byte_N c mod 16)) rest)).

Fixpoint QueryEscape (s : string) : string :=
  match s with
  | "" => ""
  | String c s' =>
      if unreserved c then String c (QueryEscape s')
      else if Ascii.eqb c " "%char then String "+" (QueryEscape s')
      else percent c (QueryEscape s')
  end.

Fixpoint PathEscape (s : string) : string :=
  match s with
  | "" => ""
  | String c s' => if segment_char c then String c (PathEscape s') else percent c (PathEscape s')
  end.

(** ** Values *)

Abbreviation Values := (gmap string (list string)).

Definition values_Set (key value : string) (v : Values) : Values := <[key := [value]]> v.
Definition values_Add (key value : string) (v : Values) : Values := <[key := default [] (v !! key) ++ [value]]> v.

(** [strings.Join] *)
Fixpoint strings_Join (sep : string) (l : list string) : string :=
  match l with [] => "" | [s] => s | s :: l => s +:+ sep +:+ strings_Join sep l end.

Definition pair_text (kv : string * string) : string := QueryEscape kv.1 +:+ "=" +:+ QueryEscape kv.2.

(** The pairs in the order of the encoding: by key, then as added. *)
Definition value_pairs (v : Values) : list (string * string) :=
  kv ← sort_stable (cmp_on fst String.compare) (map_to_list v); (fun x => (kv.1, x)) <$> kv.2.

(** [v.Encode()] *)
Definition Encode (v : Values) : string := strings_Join "&" (pair_text <$> value_pairs v).

(** ** What a query sets *)

(** A query that sets these keys, those that have a value, and no other. *)
Definition sets (l : list (string * option string)) (q : Values) : Prop :=
  forall key, q !! key = match List.find (fun kv => String.eqb key kv.1) l with Some (_, Some v) => Some [v] | _ => None end.
Definition unless (b : bool) (v : string) : option string := if b then None else Some v.
Definition given (s : string) (v : string) : option string := unless (String.eqb s "") v.

(** Queries built by [Set] on an empty one. *)
Lemma sets_nil : sets [] ∅.
Proof. intros key. apply lookup_empty. Qed.

Lemma sets_Set key v l q : sets l q -> sets ((key, Some v) :: l) (values_Set key v q).
Proof.
  intros H k. unfold values_Set. cbn [List.find fst]. destruct (String.eqb_spec k key) as [->|Hne]; [apply lookup_insert_eq|].
  by rewrite lookup_insert_ne by congruence.
Qed.

Lemma sets_unless key b v l q : List.find (fun kv => String.eqb key kv.1) l = None -> sets l q ->
  sets ((key, unless b v) :: l) (if b then q else values_Set key v q).
Proof.
  intros Hk H. destruct b; [|by apply sets_Set]. intros k. rewrite (H k). cbn [List.find fst].
  destruct (String.eqb_spec k key) as [->|]; [by rewrite Hk|done].
Qed.

Lemma sets_given key s v l q : List.find (fun kv => String.eqb key kv.1) l = None -> sets l q ->
  sets ((key, given s v) :: l) (if String.eqb s "" then q else values_Set key v q).
Proof. apply sets_unless. Qed.

(** ** Escaping is injective *)

Definition hex_upper_value (c : Ascii.ascii) : N := if is_digit c then byte_N c - 48 else byte_N c - 55.

Fixpoint QueryUnescape (s : string) : string :=
  match s with
  | String c s' =>
      if Ascii.eqb c "%"%char then
        match s' with
        | String a (String b r) => String (ascii_of_N (16 * hex_upper_value a + hex_upper_value b)) (QueryUnescape r)
        | _ => ""
        end
      else if Ascii.eqb c "+"%char then String " " (QueryUnescape s') else String c (QueryUnescape s')
  | "" => ""
  end.

Lemma byte_N_bound c : (byte_N c < 256)%N.
Proof. destruct c as [[] [] [] [] [] [] [] []]; done. Qed.

Lemma hex_upper_value_upper n : (n < 16)%N -> hex_upper_value (hex_upper n) = n.
Proof.
  intros H. unfold hex_upper, hex_upper_value, is_digit, byte_in, byte_N.
  destruct (N.ltb_spec n 10); rewrite N_ascii_embedding by lia; case_match; lia.
Qed.

Lemma unescape_percent c r : QueryUnescape (percent c r) = String c (QueryUnescape r).
Proof.
  unfold percent. cbn [QueryUnescape]. change (Ascii.eqb "%" "%")%char with true. cbv iota.
  pose proof (byte_N_bound c). rewrite !hex_upper_value_upper by (apply N.Div0.div_lt_upper_bound || apply N.mod_lt; lia).
  rewrite <- N.div_mod by done. unfold byte_N. by rewrite ascii_N_embedding.
Qed.

Lemma unreserved_plain c : unreserved c = true -> Ascii.eqb c "%"%char = false /\ Ascii.eqb c "+"%char = false /\
  Ascii.eqb c "="%char = false /\ Ascii.eqb c "&"%char = false.
Proof. destruct c as [[] [] [] [] [] [] [] []]; vm_compute; first [discriminate|done]. Qed.

Lemma QueryUnescape_Escape s : QueryUnescape (QueryEscape s) = s.
Proof.
  induction s as [|c s IH]; [done|]. cbn [QueryEscape]. destruct (unreserved c) eqn:E.
  - destruct (unreserved_plain c E) as (H1 & H2 & _). cbn [QueryUnescape]. by rewrite H1, H2, IH.
  - destruct (Ascii.eqb_spec c " ") as [->|]; [cbn [QueryUnescape]; by rewrite IH|]. by rewrite unescape_percent, IH.
Qed.

Lemma QueryEscape_inj s t : QueryEscape s = QueryEscape t -> s = t.
Proof. intros E. by rewrite <- (QueryUnescape_Escape s), <- (QueryUnescape_Escape t), E. Qed.

(** ** Encoding is injective on the pairs *)

Definition avoids (c : Ascii.ascii) (s : string) : bool := sforall (fun d => negb (Ascii.eqb d c)) s.

Lemma avoids_app c s t : avoids c (s +:+ t) = avoids c s && avoids c t.
Proof. apply sforall_app. Qed.

Lemma hex_upper_mark n c : (n < 16)%N -> c = "="%char \/ c = "&"%char -> Ascii.eqb (hex_upper n) c = false.
Proof.
  intros H Hc. destruct (Ascii.eqb_spec (hex_upper n) c) as [E|]; [|done]. apply (f_equal N_of_ascii) in E.
  unfold hex_upper in E. rewrite N_ascii_embedding in E by (case_match; lia). destruct Hc as [->| ->]; cbn in E; case_match; lia.
Qed.

Lemma QueryEscape_avoids s c : c = "="%char \/ c = "&"%char -> avoids c (QueryEscape s) = true.
Proof.
  intros Hc. induction s as [|d s IH]; [done|]. unfold avoids in *. cbn [QueryEscape]. destruct (unreserved d) eqn:E.
  - destruct (unreserved_plain d E) as (_ & _ & H1 & H2). cbn [sforall]. rewrite IH, andb_true_r. destruct Hc as [->| ->]; by rewrite ?H1, ?H2.
  - destruct (Ascii.eqb d " "); [cbn [sforall]; rewrite IH; by destruct Hc as [->| ->]|].
    unfold percent. pose proof (byte_N_bound d). cbn [sforall]. rewrite IH.
    rewrite !hex_upper_mark by (done || apply N.Div0.div_lt_upper_bound || apply N.mod_lt; lia). by destruct Hc as [->| ->].
Qed.

(** Splitting at the first separator. *)
Lemma split_inj c s s' t t' : avoids c s = true -> avoids c s' = true -> s +:+ String c t = s' +:+ String c t' -> s = s' /\ t = t'.
Proof.
  revert s'. induction s as [|d s IH]; intros [|d' s'] Hs Hs' E; cbn in E; unfold avoids in *; cbn [sforall] in *.
  - by injection E as ->.
  - injection E as <- _. by rewrite Ascii.eqb_refl in Hs'.
  - injection E as -> _. by rewrite Ascii.eqb_refl in Hs.
  - injection E as -> E. apply andb_true_iff in Hs as [_ Hs], Hs' as [_ Hs']. by destruct (IH s' Hs Hs' E) as [-> ->].
Qed.

Lemma pair_text_avoids kv : avoids "&" (pair_text kv) = true /\ pair_text kv <> "".
Proof.
  unfold pair_text. rewrite !avoids_app, !QueryEscape_avoids by auto. split; [done|]. by destruct (QueryEscape kv.1).
Qed.

Lemma pair_text_inj kv kw : pair_text kv = pair_text kw -> kv = kw.
Proof.
  destruct kv as [k x], kw as [l y]. unfold pair_text. cbn [fst snd]. intros E.
  apply (split_inj "="%char (QueryEscape k) (QueryEscape l)) in E as [E1%QueryEscape_inj E2%QueryEscape_inj]; [by subst|apply QueryEscape_avoids; auto..].
Qed.

Lemma join_pairs_inj l k : strings_Join "&" (pair_text <$> l) = strings_Join "&" (pair_text <$> k) -> l = k.
Proof.
  assert (Hne : forall kv m, strings_Join "&" (pair_text <$> kv :: m) <> "").
  { intros kv m. destruct (pair_text_avoids kv) as [_ H]. rewrite fmap_cons. cbn [strings_Join]. destruct (pair_text <$> m); [done|].
    by destruct (pair_text kv). }
  assert (Hone : forall kv kw m, pair_text kv <> pair_text kw +:+ "&" +:+ m).
  { intros kv kw m E. destruct (pair_text_avoids kv) as [H _]. rewrite E, !avoids_app, andb_false_r in H. done. }
  revert k. induction l as [|kv l IH]; intros [|kw k] E; [done|by destruct (Hne kw k)|by destruct (Hne kv l)|].
  destruct l as [|kv' l], k as [|kw' k]; cbn [fmap list_fmap strings_Join] in E.
  - by apply pair_text_inj in E as ->.
  - by destruct (Hone kv kw (strings_Join "&" (pair_text <$> kw' :: k))).
  - symmetry in E. by destruct (Hone kw kv (strings_Join "&" (pair_text <$> kv' :: l))).
  - apply (split_inj "&"%char) in E as [->%pair_text_inj E]; [|by apply pair_text_avoids..]. f_equal. by apply IH.
Qed.

(** An encoded query shows its pairs, in order. *)
Lemma Encode_inj v w : Encode v = Encode w -> value_pairs v = value_pairs w.
Proof. apply join_pairs_inj. Qed.

Lemma value_pairs_elem v key x : (key, x) ∈ value_pairs v <-> exists l, v !! key = Some l /\ x ∈ l.
Proof.
  unfold value_pairs. rewrite list_elem_of_bind. setoid_rewrite list_elem_of_fmap. split.
  - intros ([k l] & (y & [= -> ->] & Hy) & Hm). apply sort_stable_elem, elem_of_map_to_list in Hm. by exists l.
  - intros (l & Hl & Hx). exists (key, l). split; [by exists x|]. by apply sort_stable_elem, elem_of_map_to_list.
Qed.

(** ** Path segments *)

Fixpoint PathUnescape (s : string) : string :=
  match s with
  | String c s' =>
      if Ascii.eqb c "%"%char then
        match s' with
        | String a (String b r) => String (ascii_of_N (16 * hex_upper_value a + hex_upper_value b)) (PathUnescape r)
        | _ => ""
        end
      else String c (PathUnescape s')
  | "" => ""
  end.

Lemma path_unescape_percent c r : PathUnescape (percent c r) = String c (PathUnescape r).
Proof.
  unfold percent. cbn [PathUnescape]. change (Ascii.eqb "%" "%")%char with true. cbv iota.
  pose proof (byte_N_bound c). rewrite !hex_upper_value_upper by (apply N.Div0.div_lt_upper_bound || apply N.mod_lt; lia).
  rewrite <- N.div_mod by done. unfold byte_N. by rewrite ascii_N_embedding.
Qed.

Lemma segment_char_plain c : segment_char c = true -> Ascii.eqb c "%"%char = false /\ Ascii.eqb c "/"%char = false.
Proof. destruct c as [[] [] [] [] [] [] [] []]; vm_compute; first [discriminate|done]. Qed.

Lemma PathUnescape_Escape s : PathUnescape (PathEscape s) = s.
Proof.
  induction s as [|c s IH]; [done|]. cbn [PathEscape]. destruct (segment_char c) eqn:E.
  - destruct (segment_char_plain c E) as (H & _). cbn [PathUnescape]. by rewrite H, IH.
  - by rewrite path_unescape_percent, IH.
Qed.

Lemma PathEscape_inj s t : PathEscape s = PathEscape t -> s = t.
Proof. intros E. by rewrite <- (PathUnescape_Escape s), <- (PathUnescape_Escape t), E. Qed.

Lemma hex_upper_slash n : (n < 16)%N -> Ascii.eqb (hex_upper n) "/"%char = false.
Proof.
  intros H. destruct (Ascii.eqb_spec (hex_upper n) "/") as [E|]; [|done]. apply (f_equal N_of_ascii) in E.
  unfold hex_upper in E. rewrite N_ascii_embedding in E by (case_match; lia). cbn in E; case_match; lia.
Qed.

(** A segment ends where it is written to end. *)
Lemma PathEscape_avoids s : avoids "/" (PathEscape s) = true.
Proof.
  induction s as [|d s IH]; [done|]. unfold avoids in *. cbn [PathEscape]. destruct (segment_char d) eqn:E.
  - destruct (segment_char_plain d E) as (_ & H). cbn [sforall]. by rewrite IH, H.
  - unfold percent. pose proof (byte_N_bound d). cbn [sforall]. rewrite IH.
    by rewrite !hex_upper_slash by (apply N.Div0.div_lt_upper_bound || apply N.mod_lt; lia).
Qed.

(** The encoding of one repeated key. *)
Lemma value_pairs_singleton key l : value_pairs {[key := l]} = (fun x => (key, x)) <$> l.
Proof.
  unfold value_pairs. rewrite map_to_list_singleton. unfold sort_stable. cbn [foldr insert_stable mbind list_bind fst snd]. apply app_nil_r.
Qed.
