(* ===== verification/Filter.v ===== *)
(** * Slice and map helpers (utils/filter/filter.go)

    A nil slice is [None] where the source tells it from an empty one; the order
    in which Go walks a map is an argument. *)
From S2P Require Export Prelude.
Local Open Scope Z_scope.

Section slices.
Context {T : Type}.

Fixpoint Filter (test : T -> bool) (ss : list T) : list T :=
  match ss with [] => [] | s :: ss => if test s then s :: Filter test ss else Filter test ss end.

Context `{!EqDecision T}.

Fixpoint Contains (ss : list T) (s : T) : bool :=
  match ss with [] => false | v :: ss => if bool_decide (v = s) then true else Contains ss s end.

Fixpoint same_elements (a b : list T) : bool :=
  match a, b with v :: a, w :: b => if bool_decide (v = w) then same_elements a b else false | _, _ => true end.

Definition IsEqual (a b : option (list T)) : bool :=
  match a, b with
  | None, None => true
  | Some a, Some b => if negb (length a =? length b)%nat then false else same_elements a b
  | _, _ => false
  end.

(** The loop of [Unique]: [set] holds what was seen. *)
Fixpoint unique_loop (set : list T) (ss : list T) : list T :=
  match ss with
  | [] => []
  | s :: ss => if bool_decide (s ∈ set) then unique_loop set ss else s :: unique_loop (s :: set) ss
  end.
Definition Unique (ss : list T) : list T := unique_loop [] ss.

(** [for i := 0; i < len(ss); i += size] *)
Fixpoint chunk_loop (fuel : nat) (ss : list T) (size i : nat) : list (list T) :=
  match fuel with
  | O => []
  | S fuel =>
      if (i <? length ss)%nat
      then take (Nat.min (i + size) (length ss) - i) (drop i ss) :: chunk_loop fuel ss size (i + size)
      else []
  end.

Definition Chunk (ss : list T) (size : Z) : list (list T) :=
  if (length ss =? 0)%nat then []
  else chunk_loop (S (length ss)) ss (if size <=? 0 then length ss else Z.to_nat size) 0.

End slices.

(** The loop of [IsExactlyOneBooleanTrue]: it stops at the second true. *)
Fixpoint boolean_loop (areAnyTrue areTwoTrue : bool) (boolAry : list bool) : bool * bool :=
  match boolAry with
  | [] => (areAnyTrue, areTwoTrue)
  | b :: rest => if areTwoTrue then (areAnyTrue, areTwoTrue) else boolean_loop (areAnyTrue || b) (areAnyTrue && b) rest
  end.

Definition IsExactlyOneBooleanTrue (boolAry : list bool) : bool :=
  let '(areAnyTrue, areTwoTrue) := boolean_loop false false boolAry in
  if areAnyTrue then negb areTwoTrue else true.

(** [Keys] of a map whose entries are walked in the given order. *)
Definition Keys {K V} (entries : list (K * V)) : list K := fst <$> entries.
Definition SortedKeys {K V} (cmp : K -> K -> comparison) (entries : list (K * V)) : list K := sort_stable cmp (Keys entries).

(** ** What they compute *)

Lemma Filter_spec {T} test (ss : list T) : Filter test ss = List.filter test ss.
Proof. induction ss as [|s ss IH]; [done|]. simpl. by rewrite IH. Qed.

Lemma Contains_spec `{!EqDecision T} (ss : list T) s : Contains ss s = true <-> s ∈ ss.
Proof.
  induction ss as [|v ss IH]; simpl; [split; [done|by intros ?%elem_of_nil]|]. rewrite elem_of_cons.
  case_bool_decide; [by subst; split; auto|]. rewrite IH. split; [auto|by intros [->|]].
Qed.

Lemma IsEqual_spec `{!EqDecision T} (a b : option (list T)) : IsEqual a b = true <-> a = b.
Proof.
  destruct a as [a|], b as [b|]; cbn [IsEqual]; [|by split..].
  trans (a = b); [|split; congruence]. destruct (Nat.eqb_spec (length a) (length b)) as [E|E]; cbn [negb]; [|by split; intros ?; subst].
  revert b E. induction a as [|v a IH]; intros [|w b] E; simplify_eq/=; [done|].
  case_bool_decide as Hv; [rewrite (IH b) by done; subst; split; congruence|split; congruence].
Qed.

(** The second true is found. *)
Lemma IsExactlyOneBooleanTrue_spec l : IsExactlyOneBooleanTrue l = true <-> (length (List.filter id l) <= 1)%nat.
Proof.
  unfold IsExactlyOneBooleanTrue.
  assert (H2 : forall l any, boolean_loop any true l = (any, true)) by (by intros [|? ?] ?).
  assert (H1 : forall l, boolean_loop true false l = (true, negb (length (List.filter id l) =? 0)%nat)).
  { induction l0 as [|[] l0 IH]; [done|simpl; by rewrite H2|exact IH]. }
  induction l as [|[] l IH]; [simpl; split; [lia|done]| |exact IH].
  cbn [boolean_loop orb andb]. rewrite H1. simpl. destruct (length (List.filter id l)); simpl; split; lia || done.
Qed.

Lemma unique_loop_spec `{!EqDecision T} (ss : list T) : forall set,
  NoDup (unique_loop set ss) /\ (forall x, x ∈ unique_loop set ss <-> x ∈ ss /\ x ∉ set) /\ unique_loop set ss `sublist_of` ss.
Proof.
  induction ss as [|s ss IH]; intros set; simpl.
  { split; [constructor|]. split; [|constructor]. intros x. split; [by intros ?%elem_of_nil|by intros [?%elem_of_nil _]]. }
  case_bool_decide as Hs.
  - destruct (IH set) as (H1 & H2 & H3). split; [done|]. split; [|by constructor]. intros x. rewrite H2, elem_of_cons. naive_solver.
  - destruct (IH (s :: set)) as (H1 & H2 & H3). split; [|split].
    + constructor; [|done]. rewrite H2, elem_of_cons. naive_solver.
    + intros x. rewrite elem_of_cons, H2, !elem_of_cons. destruct (decide (x = s)); naive_solver.
    + by constructor.
Qed.

(** The elements once each, in the order of their first occurrence. *)
Lemma Unique_spec `{!EqDecision T} (ss : list T) :
  NoDup (Unique ss) /\ (forall x, x ∈ Unique ss <-> x ∈ ss) /\ Unique ss `sublist_of` ss.
Proof.
  destruct (unique_loop_spec ss []) as (H1 & H2 & H3). split; [done|]. split; [|done].
  intros x. rewrite H2. split; [by intros []|]. intros H. split; [done|by intros ?%elem_of_nil].
Qed.

Lemma SortedKeys_spec {K V} (cmp : K -> K -> comparison) `{!WeakCmp cmp} (entries : list (K * V)) :
  SortedKeys cmp entries ≡ₚ fst <$> entries /\ StronglySorted (cmp_le cmp) (SortedKeys cmp entries).
Proof. split; [apply sort_stable_perm|by apply sort_stable_sorted]. Qed.

Lemma chunk_loop_spec {T} (ss : list T) size : (0 < size)%nat -> forall fuel i, (length ss - i < fuel)%nat ->
  let chunks := chunk_loop fuel ss size i in
  concat chunks = drop i ss /\ Forall (fun c => 0 < length c <= size)%nat chunks /\
  (forall k c, chunks !! k = Some c -> (S k < length chunks)%nat -> length c = size).
Proof.
  intros Hs fuel. induction fuel as [|fuel IH]; intros i Hf; [lia|]. cbv zeta. cbn [chunk_loop].
  destruct (Nat.ltb_spec i (length ss)) as [Hi|Hi]; [|by rewrite drop_ge by done].
  destruct (IH (i + size)%nat ltac:(lia)) as (H1 & H2 & H3). cbv zeta in *.
  assert (Hl : length (take (Nat.min (i + size) (length ss) - i) (drop i ss)) = (Nat.min (i + size) (length ss) - i)%nat)
    by (rewrite length_take, length_drop; lia).
  split; [|split].
  - cbn [concat]. rewrite H1. destruct (Nat.le_gt_cases (i + size) (length ss)) as [H|H].
    + rewrite Nat.min_l, Nat.add_sub_swap, Nat.sub_diag by lia. rewrite <- drop_drop. cbn [Nat.add]. by rewrite take_drop.
    + rewrite Nat.min_r, (drop_ge ss (i + size)), app_nil_r by lia. apply take_ge. rewrite length_drop. lia.
  - constructor; [rewrite Hl; lia|done].
  - intros [|k] c Hc Hk; cbn [lookup list_lookup length] in *; [|apply (H3 k c); [done|lia]].
    injection Hc as <-. rewrite Hl. enough (i + size <= length ss)%nat by lia.
    destruct (Nat.le_gt_cases (i + size) (length ss)) as [|H]; [done|]. exfalso.
    rewrite (drop_ge ss (i + size)) in H1 by lia. destruct (chunk_loop fuel ss size (i + size)) as [|c l]; [simpl in Hk; lia|].
    apply Forall_cons in H2 as [Hc _]. destruct c; [simpl in Hc; lia|done].
Qed.

(** [Chunk] splits: the chunks in order make up the slice, none is empty or
    longer than the size, and all but the last have exactly the size; a size
    that is not positive asks for one chunk. *)
Theorem Chunk_spec {T} (ss : list T) size :
  let n := if size <=? 0 then length ss else Z.to_nat size in
  concat (Chunk ss size) = ss /\ Forall (fun c => 0 < length c <= n)%nat (Chunk ss size) /\
  (forall k c, Chunk ss size !! k = Some c -> (S k < length (Chunk ss size))%nat -> length c = n).
Proof.
  cbv zeta. unfold Chunk. destruct (Nat.eqb_spec (length ss) 0) as [E|E]; [by destruct ss|].
  apply chunk_loop_spec; [|lia]. destruct (Z.leb_spec size 0); lia.
Qed.
