(* ===== verification/Units.v ===== *)
(** * Token amounts (utils/units/units.go)

    Base-unit integers and their decimal text.  A [*big.Int] is an unbounded
    integer, nil is [None]; a number of decimals is a [nat].  A float becomes a
    rational through its shortest decimal. *)
From Stdlib Require Import Ascii SpecFloat.
From S2P Require Export Decimal Numbers.
Local Open Scope Z_scope.

Definition BpsBase : Z := 10000.

Definition Pow10 (decimals : nat) : Z := 10 ^ Z.of_nat decimals.

Definition Format (amount : option Z) (decimals : nat) : string :=
  match amount with
  | None => "0"
  | Some amount =>
      let s := big_String (Z.abs amount) in
      let sign := if amount <? 0 then "-" else "" in
      if (decimals =? 0)%nat then sign +:+ s
      else
        let s := Repeat "0" (decimals + 1 - slen s) +:+ s in
        let whole := stake (slen s - decimals) s in
        let frac := trim_right (Ascii.eqb "0"%char) (sdrop (slen s - decimals) s) in
        if String.eqb frac "" then sign +:+ whole else sign +:+ whole +:+ "." +:+ frac
  end.

(** Why [Parse] refuses a text; the text is what follows the sign. *)
Inductive ParseError :=
| ParseEmpty (value : string)
| ParseDecimals (value : string) (decimals : nat)
| ParseDigit (value : string).

Definition split_sign (value : string) : bool * string :=
  if HasPrefix value "-" then (true, sdrop 1 value)
  else if HasPrefix value "+" then (false, sdrop 1 value)
  else (false, value).

Definition Parse (value : string) (decimals : nat) : result ParseError Z :=
  let '(negative, value) := split_sign (TrimSpace value) in
  let '(whole, frac, _) := Cut value "." in
  if String.eqb whole "" && String.eqb frac "" then Err (ParseEmpty value)
  else if (decimals <? slen frac)%nat then Err (ParseDecimals value decimals)
  else
    let digits := whole +:+ frac +:+ Repeat "0" (decimals - slen frac) in
    if negb (all_digits digits) then Err (ParseDigit value)
    else
      let out := digits_value digits in
      Ok (if (negative : bool) then - out else out).

Definition Rescale (amount : option Z) (fromDecimals toDecimals : nat) : Z :=
  match amount with
  | None => 0
  | Some amount =>
      if (fromDecimals <? toDecimals)%nat then amount * Pow10 (toDecimals - fromDecimals)
      else if (toDecimals <? fromDecimals)%nat then Z.quot amount (Pow10 (fromDecimals - toDecimals))
      else amount
  end.

Definition ApplySlippageBps (amount : option Z) (slippageBps : Z) : Z :=
  match amount with
  | None => 0
  | Some amount =>
      if (amount =? 0) || (slippageBps <? 0) || (BpsBase <? slippageBps) then 0
      else Z.quot (amount * (BpsBase - slippageBps)) BpsBase
  end.

Definition MulBpsCeil (amount : option Z) (bps : Z) : Z :=
  match amount with
  | None => 0
  | Some amount =>
      if (amount <=? 0) || (bps =? 0) then 0
      else if BpsBase <? bps then amount
      else Z.quot (amount * bps + (BpsBase - 1)) BpsBase
  end.

(** [ToRat]: the numerator and the denominator it is given. *)
Definition ToRat (amount : option Z) (decimals : nat) : Z * Z :=
  match amount with None => (0, 1) | Some amount => (amount, Pow10 decimals) end.

(** The nearest float, ties to even, infinite out of range. *)
Definition ToFloat (amount : option Z) (decimals : nat) : float64 :=
  match amount with
  | None | Some 0 => float_zero
  | Some amount => round_decimal (mkDecimal (amount <? 0) (Z.abs amount) (- Z.of_nat decimals))
  end.

Definition FromFloat (amount : float64) (decimals : nat) : option Z :=
  '(n, p) ← shortest amount; Some (trunc_decimal n (p + Z.of_nat decimals)).

(** [amount * (1 + percent / 100)], the percentage being [n * 10 ^ p]. *)
Definition ScaleByPercent (amount : option Z) (percent : float64) : Z :=
  match amount with
  | None => 0
  | Some amount =>
      match shortest percent with
      | None => 0
      | Some (n, p) =>
          let den := 100 * 10 ^ Z.max 0 (- p) in
          Z.quot (amount * (den + n * 10 ^ Z.max 0 p)) den
      end
  end.

(** ** Text *)

Lemma Pow10_pos d : 0 < Pow10 d.
Proof. unfold Pow10. lia. Qed.

Lemma Pow10_add d e : Pow10 (d + e) = Pow10 d * Pow10 e.
Proof. unfold Pow10. by rewrite Nat2Z.inj_add, Z.pow_add_r by lia. Qed.

Lemma digits_split_sign s : s <> "" -> all_digits s = true -> forall t, split_sign (s +:+ t) = (false, s +:+ t).
Proof.
  destruct s as [|c s]; [done|]. intros _ [Hc _]%andb_true_iff t. unfold split_sign.
  change (String c s +:+ t) with (String c (s +:+ t)). destruct (digit_no_sign c (s +:+ t) Hc) as [H1 H2].
  by rewrite H1, H2.
Qed.

Lemma split_sign_minus s : split_sign (String "-" s) = (true, s).
Proof. unfold split_sign. replace (HasPrefix (String "-" s) "-") with true by by destruct s. done. Qed.

Lemma split_sign_plain s : s <> "" -> all_digits s = true -> split_sign s = (false, s).
Proof. intros H1 H2. pose proof (digits_split_sign s H1 H2 "") as H. by rewrite sapp_nil_r in H. Qed.

(** The padded digits of [Format]: the whole part, the fraction and what was
    trimmed off it. *)
Lemma Format_digits s d : all_digits s = true -> (d < slen s)%nat ->
  let whole := stake (slen s - d) s in
  let frac := trim_right (Ascii.eqb "0"%char) (sdrop (slen s - d) s) in
  whole <> "" /\ all_digits whole = true /\ all_digits frac = true /\ (slen frac <= d)%nat /\
  whole +:+ frac +:+ Repeat "0" (d - slen frac) = s.
Proof.
  intros Hs Hl whole frac. pose proof (stake_sdrop (slen s - d) s) as E. fold whole in E.
  destruct (trim_right_zeros (sdrop (slen s - d) s)) as [T1 T2]. fold frac in T1, T2.
  rewrite slen_sdrop in T1, T2. replace (slen s - (slen s - d))%nat with d in * by lia.
  rewrite <- E, all_digits_app, andb_true_iff in Hs. destruct Hs as [Hw Hf].
  rewrite <- T1, all_digits_app, andb_true_iff in Hf. destruct Hf as [Hf _].
  split_and!; [|done|done|done|by rewrite T1].
  intros E0. assert (slen whole = slen s - d)%nat as El by (unfold whole; rewrite slen_stake; lia).
  rewrite E0 in El. simpl in El. lia.
Qed.

(** Reading a sign-free decimal text. *)
Lemma Parse_digits (negative : bool) whole frac d :
  whole <> "" -> all_digits whole = true -> all_digits frac = true -> (slen frac <= d)%nat ->
  let sign := if negative then "-" else "" in
  let text := if String.eqb frac "" then sign +:+ whole else sign +:+ whole +:+ "." +:+ frac in
  let out := digits_value (whole +:+ frac +:+ Repeat "0" (d - slen frac)) in
  Parse text d = Ok (if negative then - out else out).
Proof.
  intros Hne Hw Hf Hl sign text out. unfold Parse.
  assert (TrimSpace text = text) as ->.
  { apply TrimSpace_plain. unfold text, sign. destruct (String.eqb frac ""), negative;
      rewrite ?sforall_app, ?(digits_plain _ Hw), ?(digits_plain _ Hf); done. }
  assert (split_sign text = (negative, if String.eqb frac "" then whole else whole +:+ "." +:+ frac)) as ->.
  { unfold text, sign. destruct negative.
    - destruct (String.eqb frac ""); apply split_sign_minus.
    - destruct (String.eqb frac ""); [by apply split_sign_plain|by apply (digits_split_sign whole)]. }
  assert (Cut (if String.eqb frac "" then whole else whole +:+ "." +:+ frac) "." =
          (whole, frac, negb (String.eqb frac ""))) as ->.
  { destruct (String.eqb_spec frac "") as [->|_]; [by apply Cut_no_point|]. simpl. by apply Cut_digits. }
  apply String.eqb_neq in Hne. rewrite Hne. simpl.
  destruct (Nat.ltb_spec d (slen frac)); [lia|].
  by rewrite !all_digits_app, Hw, Hf, all_digits_zeros.
Qed.

(** C22: Formatting an amount and parsing the text back gives the amount, for
    every integer, negative ones included, and every number of decimals. *)
Theorem Parse_Format amount decimals : Parse (Format (Some amount) decimals) decimals = Ok amount.
Proof.
  unfold Format. destruct (big_String_spec (Z.abs amount) ltac:(lia)) as (H1 & H2 & H3).
  set (s := big_String (Z.abs amount)) in *.
  assert (Habs : (if amount <? 0 then - Z.abs amount else Z.abs amount) = amount) by (destruct (amount <? 0) eqn:?; lia).
  destruct (Nat.eqb_spec decimals 0) as [->|Hd].
  - pose proof (Parse_digits (amount <? 0) s "" 0 H3 H1 eq_refl ltac:(simpl; lia)) as HP. cbv zeta in HP. simpl in HP.
    rewrite sapp_nil_r, H2, Habs in HP. exact HP.
  - set (p := Repeat "0" _ +:+ s).
    assert (Hp : all_digits p = true) by by (unfold p; rewrite all_digits_app, all_digits_zeros).
    assert (Hv : digits_value p = Z.abs amount) by (unfold p; rewrite digits_value_app, digits_value_zeros; lia).
    assert (Hl : (decimals < slen p)%nat) by (unfold p; rewrite slen_app, slen_Repeat; simpl; lia).
    destruct (Format_digits p decimals Hp Hl) as (F1 & F2 & F3 & F4 & F5).
    pose proof (Parse_digits (amount <? 0) _ _ decimals F1 F2 F3 F4) as HP. cbv zeta in HP, F5.
    rewrite F5, Hv, Habs in HP. exact HP.
Qed.

(** Parsing never rounds. A text accepted at some precision is accepted at
    every larger one, and the amount is the same amount rescaled. *)
Theorem Parse_finer value d d' a (Hd : (d <= d')%nat) (Hp : Parse value d = Ok a) :
  Parse value d' = Ok (Rescale (Some a) d d').
Proof.
  revert Hp. unfold Parse. destruct (split_sign (TrimSpace value)) as [negative v].
  destruct (Cut v ".") as [[whole frac] b]. destruct (String.eqb whole "" && String.eqb frac ""); [done|].
  destruct (Nat.ltb_spec d (slen frac)) as [|Hf]; [done|]. destruct (Nat.ltb_spec d' (slen frac)) as [|_]; [lia|].
  rewrite !all_digits_app, !all_digits_zeros, !andb_true_r.
  destruct (all_digits whole && all_digits frac); simpl; [|done]. intros [= <-]. f_equal.
  assert (E : digits_value (whole +:+ frac +:+ Repeat "0" (d' - slen frac)) =
              digits_value (whole +:+ frac +:+ Repeat "0" (d - slen frac)) * Pow10 (d' - d)).
  { unfold Pow10. rewrite !digits_value_app, !slen_app, !slen_Repeat, !digits_value_zeros. simpl slen.
    replace (d' - slen frac)%nat with ((d - slen frac) + (d' - d))%nat by lia.
    rewrite !Nat.mul_1_r, !Nat2Z.inj_add, !Z.pow_add_r by lia. ring. }
  rewrite E. destruct (Nat.ltb_spec d d') as [|H].
  - destruct negative; lia.
  - replace (d' <? d)%nat with false by lia. replace (d' - d)%nat with 0%nat by lia.
    change (Pow10 0) with 1. destruct negative; lia.
Qed.

(** ** Precision and basis points *)

(** Widening a precision and narrowing it back is the identity; narrowing
    truncates toward zero and loses less than one unit of the coarser precision. *)
Theorem Rescale_spec a d d' (Hd : (d <= d')%nat) :
  Rescale (Some (Rescale (Some a) d d')) d' d = a /\
  let coarse := Rescale (Some a) d' d in
  Z.abs (a - Rescale (Some coarse) d d') < Pow10 (d' - d) /\ Z.abs (Rescale (Some coarse) d d') <= Z.abs a.
Proof.
  unfold Rescale. pose proof (Pow10_pos (d' - d)) as Hp.
  destruct (Nat.ltb_spec d d') as [H|H]; destruct (Nat.ltb_spec d' d) as [H'|H']; try lia.
  split; [by rewrite Z.quot_mul by lia|]. cbv zeta.
  pose proof (Z.quot_rem' a (Pow10 (d' - d))) as E. pose proof (Z.rem_bound_abs a (Pow10 (d' - d)) ltac:(lia)).
  split; [nia|]. pose proof (Z.quot_abs a (Pow10 (d' - d)) ltac:(lia)).
  pose proof (Z.mul_quot_le (Z.abs a) (Pow10 (d' - d)) ltac:(lia) ltac:(lia)).
  rewrite Z.abs_mul, <- Z.quot_abs by lia. rewrite (Z.abs_eq (Pow10 _)) by lia. lia.
Qed.

(** Charging a fee in basis points, rounded up, and keeping the rest after
    the same number of basis points, rounded down, splits an amount exactly. *)
Theorem bps_split a bps (Ha : 0 <= a) (Hb : 0 <= bps <= BpsBase) :
  MulBpsCeil (Some a) bps + ApplySlippageBps (Some a) bps = a /\
  0 <= ApplySlippageBps (Some a) bps /\
  a * bps <= MulBpsCeil (Some a) bps * BpsBase < a * bps + BpsBase.
Proof.
  unfold MulBpsCeil, ApplySlippageBps, BpsBase in *.
  replace (bps <? 0) with false by lia. replace (10000 <? bps) with false by lia. rewrite orb_false_r, orb_false_r.
  destruct (Z.eqb_spec a 0) as [->|Hn]; [simpl; lia|]. replace (a <=? 0) with false by lia. simpl.
  destruct (Z.eqb_spec bps 0) as [->|Hbn].
  - replace (a * (10000 - 0)) with (a * 10000) by lia. rewrite Z.quot_mul by lia. lia.
  - rewrite !Z.quot_div_nonneg by nia. change (10000 - 1) with 9999.
    replace (a * (10000 - bps)) with (10000 * a - a * bps) by ring. set (x := a * bps).
    assert (Hx : 0 <= x <= 10000 * a) by (unfold x; nia).
    pose proof (Z.div_mod (x + 9999) 10000 ltac:(lia)). pose proof (Z.mod_pos_bound (x + 9999) 10000 ltac:(lia)).
    pose proof (Z.div_mod (10000 * a - x) 10000 ltac:(lia)). pose proof (Z.mod_pos_bound (10000 * a - x) 10000 ltac:(lia)).
    lia.
Qed.

(** A negative amount is truncated toward zero, not rounded down. *)
Lemma slippage_truncates : ApplySlippageBps (Some (-1)) 1 = 0 /\ (-1 * (BpsBase - 1)) / BpsBase = -1.
Proof. split; reflexivity. Qed.

(** ** Percentages *)

Lemma in_units_pos r p : 0 <= r.1 -> 0 < r.2 -> 0 <= (in_units r p).1 /\ 0 < (in_units r p).2.
Proof. unfold in_units. cbn [fst snd]. lia. Qed.

(** The decimal chosen is one of the two around the float. *)
Lemma shortest_loop_units k f r p : 0 <= r.1 -> 0 < r.2 ->
  let '(n, q) := shortest_loop k f r p in
  q <= p /\ 0 <= n /\ (n - 1) * (in_units r q).2 < (in_units r q).1.
Proof.
  intros Hn Hd. revert p. induction k as [|k IH]; intros p; cbn [shortest_loop];
    pose proof (in_units_pos r p Hn Hd) as [H1 H2]; destruct (in_units r p) as [num den] eqn:E; cbn [fst snd] in H1, H2;
    pose proof (Z.div_mod num den ltac:(lia)) as Hdm; pose proof (Z.mod_pos_bound num den H2) as Hm; pose proof (Z.div_pos num den H1 H2) as Hq.
  - rewrite E. cbn [fst snd]. nia.
  - destruct (Z.eqb_spec (num mod den) 0) as [Hz|Hz]; cbn [negb andb]; rewrite ?andb_false_r.
    + destruct (reads_as f (num / den) p); [rewrite E; cbn [fst snd]; nia|].
      specialize (IH (p - 1)). destruct (shortest_loop k f r (p - 1)) as [n q]. lia.
    + destruct (reads_as f (num / den) p), (reads_as f (num / den + 1) p); cbn [andb].
      * rewrite E. cbn [fst snd]. unfold nearest. repeat case_match; nia.
      * rewrite E. cbn [fst snd]. nia.
      * rewrite E. cbn [fst snd]. nia.
      * specialize (IH (p - 1)). destruct (shortest_loop k f r (p - 1)) as [n q]. lia.
Qed.

(** The float's absolute value is at most [bound]. *)
Definition float_within (f : float64) (bound : Z) : bool :=
  match f with
  | S754_zero _ => true
  | S754_finite _ m e => let r := float_ratio m e in r.1 <=? bound * r.2
  | _ => false
  end.
Definition negative_float (f : float64) : bool := match f with S754_zero _ => true | S754_finite sign _ _ => sign | _ => false end.

Lemma pretty_small n : 0 <= n <= 100 -> (slen (pretty n) <= 3)%nat.
Proof.
  intros H. assert (A : forallb (fun i => slen (pretty (Z.of_nat i)) <=? 3)%nat (seq 0 101) = true) by (vm_compute; reflexivity).
  rewrite forallb_forall in A. apply Nat.leb_le. rewrite <- (Z2Nat.id n) by lia. apply A, in_seq. lia.
Qed.

(** A percentage of at most 100 is one of at most 100 in decimal. *)
Lemma shortest_within f : float_within f 100 = true ->
  exists n p, shortest f = Some (n, p) /\ Z.abs n * 10 ^ Z.max 0 p <= 100 * 10 ^ Z.max 0 (- p) /\ (negative_float f = true -> n <= 0).
Proof.
  destruct f as [s|s| |s m e]; try done; cbn [float_within shortest negative_float].
  { intros _. exists 0, 0. split; [done|]. cbn. lia. }
  intros Hw%Z.leb_le. set (r := float_ratio m e) in *.
  assert (Hr : 0 <= r.1 /\ 0 < r.2) by (unfold r, float_ratio; cbn [fst snd]; lia). destruct Hr as [H1 H2].
  set (p0 := Z.of_nat (slen (pretty (r.1 / r.2))) - 1).
  assert (Hp : p0 <= 2).
  { assert (0 <= r.1 / r.2 <= 100) by (split; [by apply Z.div_pos|apply Z.div_le_upper_bound; lia]). pose proof (pretty_small (r.1 / r.2)). unfold p0. lia. }
  pose proof (shortest_loop_units (Z.to_nat (p0 - Z.min 0 e)) (S754_finite false m e) r p0 H1 H2) as Hs.
  destruct (shortest_loop _ _ r p0) as [n q]. destruct Hs as (Hq & Hn & Hlt). exists (if s then - n else n), q. split; [done|].
  split; [|intros ->; lia]. replace (Z.abs (if s then - n else n)) with n by (destruct s; lia).
  unfold in_units in Hlt. cbn [fst snd] in Hlt.
  destruct (Z.le_gt_cases q 0) as [Hq0|Hq0].
  - replace (Z.max 0 q) with 0 in * by lia. rewrite Z.pow_0_r, !Z.mul_1_r in *. nia.
  - replace (Z.max 0 (- q)) with 0 in * by lia. rewrite Z.pow_0_r, !Z.mul_1_r in *. assert (q = 1 \/ q = 2) as [-> | ->] by lia.
    + change (10 ^ Z.max 0 1) with 10 in *. nia.
    + change (10 ^ Z.max 0 2) with 100 in *. nia.
Qed.

(** Taking a percentage between 0 and 100 off a nonnegative amount leaves a part of it, whatever float the percentage is. *)
Lemma percent_off amount percent : 0 <= amount -> float_within percent 100 = true -> negative_float percent = true ->
  0 <= ScaleByPercent (Some amount) percent <= amount.
Proof.
  intros Ha Hw Hs. destruct (shortest_within percent Hw) as (n & p & E & Hb & Hn). specialize (Hn Hs).
  unfold ScaleByPercent. rewrite E. set (x := 10 ^ Z.max 0 p) in *. set (y := 10 ^ Z.max 0 (- p)) in *.
  assert (0 < y) by (unfold y; lia). assert (0 < x) by (unfold x; lia). rewrite Z.abs_neq in Hb by lia.
  rewrite Z.quot_div_nonneg by nia. split; [apply Z.div_pos; nia|apply Z.div_le_upper_bound; nia].
Qed.

(** Taking a percentage between 0 and 100 off a nonnegative amount leaves a
    part of it, whatever float the percentage is. *)
Theorem ScaleByPercent_bounds amount percent (Ha : 0 <= amount) (Hw : float_within percent 100 = true) (Hs : negative_float percent = true) :
  0 <= ScaleByPercent (Some amount) percent <= amount.
Proof. by apply percent_off. Qed.
