(* ===== verification/Errors.v ===== *)
(** * Go errors as values

    An [error] is observed through its text, through [errors.Is] against the
    sentinels the sources name, and through [errors.As] against the interfaces
    [classifyBroadcastError] and [rpcErrorSummary] probe.  A [GoError] carries
    exactly those observations; wrapping with [%w] keeps them and replaces the
    text, as [fmt.Errorf] does.  A nil error is [None]. *)
From S2P Require Export GoStrings.

(** The five sentinels of a partner's API, for each partner. *)
Inductive Partner := Coinbase_ | Transak_ | Robinhood_ | Snapshotd_ | Axiom_.
#[export] Instance Partner_eq_dec : EqDecision Partner.
Proof. solve_decision. Defined.
Inductive ApiKind := Unauthorized | RateLimited | NotFound_ | BadRequest | Upstream.
#[export] Instance ApiKind_eq_dec : EqDecision ApiKind.
Proof. solve_decision. Defined.

(** The sentinel values the sources compare with [errors.Is]. *)
Inductive Sentinel :=
| ErrIdempotencyConflict
| ErrAttemptHashConflict
| ErrStaleTransaction
| errTransactionUnprocessable
| errLaneAwaitingNodeNonce
| errLaneStateChanged
| ErrUnsignedTransactionExpired
| ErrNoRows            (* database/sql *)
| NotFound             (* go-ethereum: "not found" *)
| ContextCanceled      (* context *)
| DeadlineExceeded     (* context *)
| ErrMalformedSignature | ErrActionTooLarge | ErrMalformedEnvelope | ErrInvalidAddress | ErrRateLimited   (* hyperliquid *)
| ErrRateUnavailable   (* frankfurter *)
| ErrPolymarketRateLimited | ErrTradingDisabled | ErrCredentialsMissing | ErrOrderNotFound   (* polymarket *)
| EOF                  (* io *)
| ErrTickerNotFound    (* sec *)
| PartnerError (partner : Partner) (kind : ApiKind)
| ErrInvalidAPIKeySecret   (* coinbase *)
| ErrInvalidResponse   (* snapshotd *)
| ErrTokenNotFound | ErrUnsupportedChain   (* axiom, defillama *)
| ErrInvalidAddr | ErrInvalidDataType.     (* confighooks *)

#[export] Instance Sentinel_eq_dec : EqDecision Sentinel.
Proof. solve_decision. Defined.

Record GoError := mkGoError {
  Error : string;                      (* err.Error() *)
  wraps : list Sentinel;               (* sentinels reachable by Unwrap *)
  as_rpc : option (Z * string);        (* rpc.Error: ErrorCode() and Error() *)
  as_http : option Z;                  (* rpc.HTTPError: StatusCode *)
  as_url : option string;              (* *url.Error: Op *)
  as_net : option bool;                (* net.Error: Timeout() *)
  dynamic_type : string;               (* what %T prints *)
}.

(** [errors.Is(err, s)]. *)
Definition Is (err : GoError) (s : Sentinel) : bool := bool_decide (s ∈ wraps err).

(** [errors.New(text)] and [fmt.Errorf] without [%w]. *)
Definition errors_New (text : string) : GoError :=
  {| Error := text; wraps := []; as_rpc := None; as_http := None; as_url := None; as_net := None;
     dynamic_type := "*errors.errorString" |}.

(** A package-level sentinel with its own text. *)
Definition sentinel (s : Sentinel) (text : string) : GoError :=
  {| Error := text; wraps := [s]; as_rpc := None; as_http := None; as_url := None; as_net := None;
     dynamic_type := "*errors.errorString" |}.

(** [fmt.Errorf("<pre>%w<post>", err)]. *)
Definition Errorf_w (pre : string) (err : GoError) (post : string) : GoError :=
  {| Error := pre +:+ Error err +:+ post; wraps := wraps err; as_rpc := as_rpc err;
     as_http := as_http err; as_url := as_url err; as_net := as_net err;
     dynamic_type := "*fmt.wrapError" |}.

Definition first_some {A} (x y : option A) : option A :=
  match x with Some _ => x | None => y end.

(** [fmt.Errorf("<pre>%w<mid>%w<post>", e1, e2)]: both trees are searched, the
    first one first. *)
Definition Errorf_ww (pre : string) (e1 : GoError) (mid : string) (e2 : GoError) (post : string) : GoError :=
  {| Error := pre +:+ Error e1 +:+ mid +:+ Error e2 +:+ post;
     wraps := wraps e1 ++ wraps e2;
     as_rpc := first_some (as_rpc e1) (as_rpc e2); as_http := first_some (as_http e1) (as_http e2);
     as_url := first_some (as_url e1) (as_url e2); as_net := first_some (as_net e1) (as_net e2);
     dynamic_type := "*fmt.wrapErrors" |}.

Lemma Is_Errorf_w pre err post s : Is (Errorf_w pre err post) s = Is err s.
Proof. done. Qed.

Lemma Is_Errorf_ww pre e1 mid e2 post s : Is (Errorf_ww pre e1 mid e2 post) s = Is e1 s || Is e2 s.
Proof.
  unfold Is; simpl. apply eq_true_iff_eq. rewrite orb_true_iff, !bool_decide_eq_true.
  apply elem_of_app.
Qed.

Lemma Is_New t s : Is (errors_New t) s = false.
Proof. apply bool_decide_eq_false. apply not_elem_of_nil. Qed.

Lemma Is_sentinel s t s' : Is (sentinel s t) s' = bool_decide (s' = s).
Proof. apply bool_decide_ext. simpl. apply list_elem_of_singleton. Qed.

#[export] Hint Rewrite Is_Errorf_w Is_Errorf_ww Is_New Is_sentinel : go_err.

(** ** The sentinels and their texts *)

Definition ErrIdempotencyConflict_v := sentinel ErrIdempotencyConflict
  "transaction operation key already exists with a different payload".
Definition ErrAttemptHashConflict_v := sentinel ErrAttemptHashConflict
  "signed transaction hash already belongs to another transaction".
Definition ErrStaleTransaction_v := sentinel ErrStaleTransaction "transaction state changed before update".
Definition errTransactionUnprocessable_v := sentinel errTransactionUnprocessable "transaction cannot be advanced".
Definition errLaneAwaitingNodeNonce_v := sentinel errLaneAwaitingNodeNonce "transaction lane is awaiting node nonce".
Definition errLaneStateChanged_v := sentinel errLaneStateChanged "transaction lane state changed".
Definition ErrMalformedSignature_v := sentinel ErrMalformedSignature "hyperliquid: malformed action signature".
Definition ErrActionTooLarge_v := sentinel ErrActionTooLarge "hyperliquid: encoded action is too large".
Definition ErrMalformedEnvelope_v := sentinel ErrMalformedEnvelope "hyperliquid: malformed signed envelope".
Definition ErrInvalidAddress_v := sentinel ErrInvalidAddress "hyperliquid: invalid address".
Definition ErrRateLimited_v := sentinel ErrRateLimited "hyperliquid: rate limited by upstream".
Definition ErrRateUnavailable_v := sentinel ErrRateUnavailable "frankfurter rate unavailable".
Definition ErrTradingDisabled_v := sentinel ErrTradingDisabled "polymarket: new order submission is disabled".
Definition ErrCredentialsMissing_v := sentinel ErrCredentialsMissing "polymarket: API-signer credentials are unavailable".
Definition ErrOrderNotFound_v := sentinel ErrOrderNotFound "polymarket: order not found".
Definition ErrTickerNotFound_v := sentinel ErrTickerNotFound "sec ticker not found".
Definition ErrInvalidAPIKeySecret_v := sentinel ErrInvalidAPIKeySecret "coinbase invalid api key secret".
Definition api_kind_text (kind : ApiKind) : string :=
  match kind with
  | Unauthorized => "unauthorized" | RateLimited => "rate limited" | NotFound_ => "not found" | BadRequest => "bad request"
  | Upstream => "upstream error"
  end.
Definition partner_text (partner : Partner) : string :=
  match partner with Coinbase_ => "coinbase " | Transak_ => "transak " | Robinhood_ => "robinhood " | Snapshotd_ => "snapshotd " | Axiom_ => "" end.
Definition PartnerError_v (partner : Partner) (kind : ApiKind) : GoError :=
  sentinel (PartnerError partner kind) (partner_text partner +:+ api_kind_text kind).
Definition ErrInvalidResponse_v := sentinel ErrInvalidResponse "snapshotd invalid response".
Definition ErrTokenNotFound_v := sentinel ErrTokenNotFound "token not found".
Definition ErrUnsupportedChain_v := sentinel ErrUnsupportedChain "unsupported chain".
Definition ErrInvalidAddr_v := sentinel ErrInvalidAddr "invalid address".
Definition ErrInvalidDataType_v := sentinel ErrInvalidDataType "invalid data type".
Definition EOF_v := sentinel EOF "EOF".
Definition ErrNoRows_v := sentinel ErrNoRows "sql: no rows in result set".

(** [AttemptHashConflictError]. *)
Definition AttemptHashConflictError (hash ownerTransactionID : string) : GoError :=
  Errorf_w "" ErrAttemptHashConflict_v
    (": hash " +:+ hash +:+ " belongs to transaction " +:+ ownerTransactionID).

(** ** What a call ends with: a value, an error, or a panic *)

Inductive outcome (A : Type) :=
| Val (a : A)
| Fail (e : GoError)
| Panic (why : string).
Arguments Val {A} a.
Arguments Fail {A} e.
Arguments Panic {A} why.

Definition obind {A B} (c : outcome A) (k : A -> outcome B) : outcome B :=
  match c with Val a => k a | Fail e => Fail e | Panic p => Panic p end.

(** [if err != nil { return f(err) }] *)
Definition owrap {A} (f : GoError -> GoError) (r : result GoError A) : outcome A :=
  match r with Ok a => Val a | Err e => Fail (f e) end.

Notation "'let^' x ':=' c 'in' k" := (obind c (fun x => k))
  (at level 10, x pattern, c at level 100, k at level 200) : go_scope.
