(* ===== verification/HyperCore.v ===== *)
(** * HyperCore amounts (providers/hyperliquid/hypercore)

    The conversions between EVM token units, HyperCore wei and USD of
    [scaling.go] and [corewriter.go].  A [*big.Rat] is a canonical rational
    ([Qc]), nil is [None]; [int8] and [uint64] values are integers. *)
From Stdlib Require Import QArith Qcanon.
From S2P Require Export Units Errors.
Local Open Scope Z_scope.

Definition maxCoreWei : Z := max_u64.
Definition NtlDecimals : nat := 6.

(** [%s] of a [*big.Int]. *)
Definition show_bigint (v : option Z) : string := match v with Some v => pretty v | None => "<nil>" end.

(** ** Scaling *)

Definition evmToCoreWei (evmAmount : option Z) (evmExtraWeiDecimals : Z) : result GoError (Z * Z) :=
  match evmAmount with
  | None => Err (errors_New "evm amount must be a non-negative integer, got <nil>")
  | Some amount =>
      if amount <? 0 then Err (errors_New ("evm amount must be a non-negative integer, got " +:+ pretty amount))
      else
        let '(core, remainder) :=
          if 0 <=? evmExtraWeiDecimals
          then (Z.quot amount (Pow10 (Z.to_nat evmExtraWeiDecimals)), Z.rem amount (Pow10 (Z.to_nat evmExtraWeiDecimals)))
          else (amount * Pow10 (Z.to_nat (- evmExtraWeiDecimals)), 0) in
        if maxCoreWei <? core
        then Err (errors_New ("core wei amount " +:+ pretty core +:+ " exceeds the uint64 bound HyperCore enforces"))
        else Ok (core, remainder)
  end.

Definition EvmToCoreWei (evmAmount : option Z) (evmExtraWeiDecimals : Z) : result GoError Z :=
  match evmToCoreWei evmAmount evmExtraWeiDecimals with
  | Err e => Err e
  | Ok (coreWei, remainder) =>
      if negb (remainder =? 0)
      then Err (errors_New ("evm amount " +:+ show_bigint evmAmount +:+
                  " does not convert exactly to core wei with extra decimals " +:+ pretty evmExtraWeiDecimals +:+
                  ": remainder " +:+ pretty remainder))
      else Ok coreWei
  end.

Definition EvmToCoreWeiFloor (evmAmount : option Z) (evmExtraWeiDecimals : Z) : result GoError (Z * Z) :=
  evmToCoreWei evmAmount evmExtraWeiDecimals.

(** [remainder.Uint64()] keeps the low 64 bits. *)
Definition coreWeiToEvm (coreWei evmExtraWeiDecimals : Z) : Z * Z :=
  if 0 <=? evmExtraWeiDecimals then (coreWei * Pow10 (Z.to_nat evmExtraWeiDecimals), 0)
  else (Z.quot coreWei (Pow10 (Z.to_nat (- evmExtraWeiDecimals))),
        wrap_u64 (Z.rem coreWei (Pow10 (Z.to_nat (- evmExtraWeiDecimals))))).

Definition CoreWeiToEvm (coreWei evmExtraWeiDecimals : Z) : result GoError Z :=
  let '(evm, remainder) := coreWeiToEvm coreWei evmExtraWeiDecimals in
  if negb (remainder =? 0)
  then Err (errors_New ("core wei amount " +:+ pretty coreWei +:+
              " does not convert exactly to evm units with extra decimals " +:+ pretty evmExtraWeiDecimals +:+
              ": remainder " +:+ pretty remainder))
  else Ok evm.

Definition CoreWeiToEvmFloor (coreWei evmExtraWeiDecimals : Z) : Z * Z := coreWeiToEvm coreWei evmExtraWeiDecimals.

(** ** USD *)

(** [new(big.Rat).SetFrac(num, den)] for a positive [den]. *)
Definition SetFrac (num den : Z) : Qc := Q2Qc (num # Z.to_pos den).

Definition rat_String (q : Qc) : string := pretty (Qnum (this q)) +:+ "/" +:+ pretty (Zpos (Qden (this q))).

(** [q.FloatString(prec)]: rounded half away from zero. *)
Definition FloatString (q : Qc) (prec : nat) : string :=
  let num := Z.abs (Qnum (this q)) in
  let den := Zpos (Qden (this q)) in
  let sign := if Qnum (this q) <? 0 then "-" else "" in
  if den =? 1 then
    sign +:+ pretty num +:+ (if (prec =? 0)%nat then "" else "." +:+ Repeat "0" prec)
  else
    let scaled := (num mod den) * Pow10 prec in
    let r := scaled / den + (if den <=? 2 * (scaled mod den) then 1 else 0) in
    let '(whole, r) := if Pow10 prec <=? r then (num / den + 1, r - Pow10 prec) else (num / den, r) in
    let digits := pretty r in
    sign +:+ pretty whole +:+ (if (prec =? 0)%nat then "" else "." +:+ Repeat "0" (prec - slen digits) +:+ digits).

Definition ntlScale : Z := Pow10 NtlDecimals.

Definition UsdToNtl (usd : option Qc) : result GoError Z :=
  match usd with
  | None => Err (errors_New "usd amount must be positive, got <nil>")
  | Some usd =>
      if Qnum (this usd) <=? 0 then Err (errors_New ("usd amount must be positive, got " +:+ rat_String usd))
      else
        let scaled := (usd * SetFrac ntlScale 1)%Qc in
        if negb (Pos.eqb (Qden (this scaled)) 1)
        then Err (errors_New ("usd amount " +:+ FloatString usd 8 +:+ " does not convert exactly to ntl (1e" +:+
                    pretty NtlDecimals +:+ ") units"))
        else
          let num := Qnum (this scaled) in
          if negb (bool_decide (is_u64 num))
          then Err (errors_New ("ntl amount " +:+ pretty num +:+ " exceeds the uint64 bound"))
          else Ok num
  end.

Definition NtlToUsd (ntl : Z) : Qc := SetFrac ntl ntlScale.
Definition UsdFromScaled (scaled : Z) : Qc := SetFrac scaled ntlScale.
Definition CoreWeiToAmount (coreWei weiDecimals : Z) : Qc := SetFrac coreWei (Pow10 (Z.to_nat weiDecimals)).

(** ** Theorems *)

Definition is_i8 (z : Z) : Prop := -128 <= z < 128.

(** C36: Depositing and withdrawing agree. An EVM amount converts to core wei
    exactly when the core wei convert back exactly to that amount; the core wei
    fit in a [uint64]. *)
Theorem EvmToCoreWei_exact amount e coreWei :
  EvmToCoreWei (Some amount) e = Ok coreWei <->
  0 <= amount /\ is_u64 coreWei /\ CoreWeiToEvm coreWei e = Ok amount.
Proof.
  unfold EvmToCoreWei, evmToCoreWei, CoreWeiToEvm, coreWeiToEvm, maxCoreWei, max_u64, is_u64.
  destruct (Z.ltb_spec amount 0) as [Hn|Hn]; [split; [done|lia]|].
  destruct (Z.leb_spec 0 e) as [He|He]; simpl; pose proof (Pow10_pos (Z.to_nat e)) as Hp;
    pose proof (Pow10_pos (Z.to_nat (- e))) as Hp'.
  - set (p := Pow10 (Z.to_nat e)) in *.
    pose proof (Z.quot_rem' amount p) as E. pose proof (Z.rem_bound_pos amount p ltac:(lia) ltac:(lia)) as B.
    destruct (Z.ltb_spec (u64_modulus - 1) (Z.quot amount p)) as [H|H].
    + split; [done|]. intros (_ & Hc & [= <-]). rewrite Z.quot_mul in H by lia. lia.
    + destruct (Z.eqb_spec (Z.rem amount p) 0) as [R|R]; simpl.
      * pose proof (Z.quot_pos amount p ltac:(lia) ltac:(lia)). split.
        -- intros [= <-]. split; [done|]. split; [lia|]. f_equal. lia.
        -- intros (_ & Hc & [= <-]). by rewrite Z.quot_mul by lia.
      * split; [done|]. intros (_ & Hc & [= <-]). by rewrite Z.rem_mul in R by lia.
  - set (p := Pow10 (Z.to_nat (- e))) in *.
    destruct (Z.ltb_spec (u64_modulus - 1) (amount * p)) as [H|H].
    + split; [done|]. intros (_ & Hc & E). destruct (Z.eqb_spec (wrap_u64 (Z.rem coreWei p)) 0) as [R|R]; [|done].
      injection E as <-. pose proof (Z.mul_quot_le coreWei p ltac:(lia) ltac:(lia)). lia.
    + split.
      * intros [= <-]. rewrite Z.rem_mul, Z.quot_mul by lia. simpl. split; [done|]. split; [nia|done].
      * intros (_ & Hc & E). pose proof (Z.quot_rem' coreWei p) as Eq.
        pose proof (Z.rem_bound_pos coreWei p ltac:(lia) ltac:(lia)) as B.
        pose proof (Z.mul_quot_le coreWei p ltac:(lia) ltac:(lia)) as Q.
        pose proof (Z.quot_pos coreWei p ltac:(lia) ltac:(lia)).
        rewrite wrap_u64_small in E by (unfold is_u64; nia).
        destruct (Z.eqb_spec (Z.rem coreWei p) 0) as [R|R]; [|done]. injection E as <-. f_equal. lia.
Qed.

(** The flooring deposit loses nothing: the core wei it credits, converted
    back, plus the remainder it reports, are the amount deposited, and the
    remainder is below one core wei. *)
Theorem EvmToCoreWeiFloor_conserves amount e coreWei remainder
    (H : EvmToCoreWeiFloor (Some amount) e = Ok (coreWei, remainder)) :
  is_u64 coreWei /\ 0 <= remainder < Pow10 (Z.to_nat e) /\
  CoreWeiToEvmFloor coreWei e = (amount - remainder, 0).
Proof.
  revert H. unfold EvmToCoreWeiFloor, evmToCoreWei, CoreWeiToEvmFloor, coreWeiToEvm, maxCoreWei, max_u64, is_u64.
  destruct (Z.ltb_spec amount 0) as [Hn|Hn]; [done|].
  pose proof (Pow10_pos (Z.to_nat e)) as Hp. pose proof (Pow10_pos (Z.to_nat (- e))) as Hp'.
  destruct (Z.leb_spec 0 e) as [He|He].
  - set (p := Pow10 (Z.to_nat e)) in *. pose proof (Z.quot_rem' amount p) as E.
    pose proof (Z.rem_bound_pos amount p ltac:(lia) ltac:(lia)) as B. pose proof (Z.quot_pos amount p ltac:(lia) ltac:(lia)).
    destruct (Z.ltb_spec (u64_modulus - 1) (Z.quot amount p)); [done|]. intros [= <- <-].
    split; [lia|]. split; [done|]. f_equal. lia.
  - destruct (Z.ltb_spec (u64_modulus - 1) (amount * Pow10 (Z.to_nat (- e)))); [done|]. intros [= <- <-].
    rewrite Z.rem_mul, Z.quot_mul by lia. split; [nia|]. split; [lia|]. f_equal. lia.
Qed.

(** The integers among the rationals. *)
Lemma SetFrac_mul n d : 0 < d -> (SetFrac n d * SetFrac d 1)%Qc = SetFrac n 1.
Proof.
  intros Hd. unfold SetFrac. apply Qc_is_canon. simpl. rewrite !Qred_correct.
  destruct d as [|d|d]; [lia| |lia]. unfold Qeq; simpl. lia.
Qed.

Lemma SetFrac_int n : this (SetFrac n 1) = n # 1.
Proof. unfold SetFrac. simpl. apply (Qred_identity (n # 1)). simpl. apply Z.gcd_1_r. Qed.

Lemma SetFrac_sign n d : 0 < n -> 0 < d -> 0 < Qnum (this (SetFrac n d)).
Proof.
  intros Hn Hd. unfold SetFrac. simpl. pose proof (Qred_correct (n # Z.to_pos d)) as E. unfold Qeq in E. simpl in E.
  destruct (Qred (n # Z.to_pos d)) as [a b]. simpl in *. nia.
Qed.

(** USD and ntl round trip: every positive [uint64] number of ntl becomes a
    USD amount that converts back to exactly that number. *)
Theorem UsdToNtl_NtlToUsd ntl (H : 0 < ntl < u64_modulus) : UsdToNtl (Some (NtlToUsd ntl)) = Ok ntl.
Proof.
  unfold UsdToNtl, NtlToUsd. pose proof (SetFrac_sign ntl ntlScale ltac:(lia) ltac:(done)) as Hs.
  destruct (Z.leb_spec (Qnum (this (SetFrac ntl ntlScale))) 0); [lia|].
  rewrite SetFrac_mul by done. rewrite SetFrac_int. simpl.
  rewrite bool_decide_eq_true_2 by (unfold is_u64; lia). done.
Qed.

(** A USD amount converts to ntl only exactly: the result is a positive
    [uint64] whose USD value is the amount itself. *)
Theorem UsdToNtl_exact usd ntl (H : UsdToNtl (Some usd) = Ok ntl) :
  0 < ntl < u64_modulus /\ NtlToUsd ntl = usd.
Proof.
  revert H. unfold UsdToNtl. destruct (Z.leb_spec (Qnum (this usd)) 0) as [|Hpos]; [done|].
  destruct (Pos.eqb_spec (Qden (this (usd * SetFrac ntlScale 1)%Qc)) 1) as [Hd|]; [|done]. simpl negb. cbv iota.
  case_bool_decide as Hu; [|done]. simpl. intros [= Hn].
  assert (E : (this usd * (ntlScale # 1) == ntl # 1)%Q).
  { assert (this (usd * SetFrac ntlScale 1)%Qc = ntl # 1) as E.
    { change (Qnum (this (usd * SetFrac ntlScale 1)%Qc) = ntl) in Hn. revert Hd Hn.
      destruct (this (usd * SetFrac ntlScale 1)%Qc) as [a b]. simpl. by intros -> ->. }
    assert (this (usd * SetFrac ntlScale 1)%Qc == this usd * (ntlScale # 1))%Q as E'.
    { simpl. rewrite !Qred_correct. reflexivity. }
    by rewrite <- E', E. }
  unfold Qeq in E. cbn -[Z.mul ntlScale] in E.
  assert (Qnum (this usd) * ntlScale = ntl * Zpos (Qden (this usd))) as E2 by lia. clear E.
  assert (Hs : 0 < ntlScale) by done. split.
  { assert (0 < ntl) by (apply (Zmult_lt_0_reg_r (Zpos (Qden (this usd)))); nia).
    unfold is_u64 in Hu. rewrite Hn in Hu. lia. }
  unfold NtlToUsd, SetFrac. apply Qc_is_canon. cbn [this Q2Qc]. rewrite Qred_correct. unfold Qeq. cbn [Qnum Qden].
  change (Zpos (Z.to_pos ntlScale)) with ntlScale. lia.
Qed.
