(* ===== verification/Messages.v ===== *)
(** * Durable transaction messages (evm/txmngr/txmngr.go)

    [tx.Msg] is a bounded UTF-8 column.  The helpers that build it trim on rune
    boundaries, keep both ends of a provider message, and reserve half of the
    bound for later reconciliation evidence. *)
From S2P Require Export Errors.
Local Open Scope Z_scope.

Definition maxTransactionMessageBytes : Z := 512.
Definition maxReconciliationPrimaryBytes : Z := maxTransactionMessageBytes / 2.
Definition reconciliationSeparator : string := "; reconciliation: ".
Definition messageOmissionMarker : string := "...".

Definition zlen (s : string) : Z := Z.of_nat (slen s).

(** [s[n:]] and [s[:n]] for a Go [int] index in range. *)
Definition slice_from (n : Z) (s : string) : string := sdrop (Z.to_nat n) s.
Definition slice_to (n : Z) (s : string) : string := stake (Z.to_nat n) s.

(** The loop of [messageTail]: advance to the next rune start. *)
Fixpoint skip_to_rune (s : string) : string :=
  match s with
  | "" => ""
  | String c s' => if RuneStart c then s else skip_to_rune s'
  end.

Definition messageTail (message : string) (maxBytes : Z) : string :=
  let message := ToValidUTF8 message in
  if zlen message <=? maxBytes then message
  else skip_to_rune (slice_from (zlen message - maxBytes) message).

(** The loop of [messageHeadAndTail]: move [headEnd] back to a rune start. *)
Fixpoint head_boundary (headEnd : nat) (message : string) : nat :=
  match headEnd with
  | O => O
  | S n => if at_boundary headEnd message then headEnd else head_boundary n message
  end.

Definition messageHeadAndTail (message : string) (maxBytes : Z) : string :=
  let message := ToValidUTF8 message in
  if maxBytes <=? 0 then ""
  else if zlen message <=? maxBytes then message
  else if maxBytes <=? zlen messageOmissionMarker then messageTail message maxBytes
  else
    let contentBytes := maxBytes - zlen messageOmissionMarker in
    let tailBytes := contentBytes / 2 in
    let headEnd := head_boundary (Z.to_nat (contentBytes - tailBytes)) message in
    stake headEnd message +:+ messageOmissionMarker +:+ messageTail message tailBytes.

Definition transactionMessageTail (message : string) : string :=
  messageTail message maxTransactionMessageBytes.

(** [hash] is [hash.Hex()]. *)
Definition broadcastAttemptReason (hash detail : string) : string :=
  let prefix := "broadcast attempt " +:+ hash +:+ ": " in
  let detailBytes := maxReconciliationPrimaryBytes - zlen prefix in
  if detailBytes <=? 0 then messageHeadAndTail prefix maxReconciliationPrimaryBytes
  else prefix +:+ messageHeadAndTail detail detailBytes.

Definition appendReconciliationError (message : string) (err : option GoError) : string :=
  let message := ToValidUTF8 message in
  match err with
  | None => transactionMessageTail message
  | Some err =>
      let detail := ToValidUTF8 (Error err) in
      if String.eqb message "" then transactionMessageTail detail
      else
        let combined := message +:+ reconciliationSeparator +:+ detail in
        if zlen combined <=? maxTransactionMessageBytes then combined
        else
          let primaryEnd :=
            match Index message reconciliationSeparator with
            | Some n => Z.of_nat n
            | None => zlen message
            end in
          let primary := messageHeadAndTail (slice_to primaryEnd message) maxReconciliationPrimaryBytes in
          let tailBytes := maxTransactionMessageBytes - zlen primary - zlen reconciliationSeparator in
          if tailBytes <=? 0 then transactionMessageTail combined
          else
            let history := slice_from (primaryEnd + zlen reconciliationSeparator) combined in
            primary +:+ reconciliationSeparator +:+ messageTail history tailBytes
  end.

(** ** Bounds and well-formedness *)

Lemma zlen_app s t : zlen (s +:+ t) = zlen s + zlen t.
Proof. unfold zlen. rewrite slen_app. lia. Qed.

Lemma skip_to_rune_sdrop s : exists n, skip_to_rune s = sdrop n s /\ at_boundary n s = true.
Proof.
  induction s as [|c s (n & E & Hb)]; simpl; [by exists O|].
  destruct (RuneStart c) eqn:Hc; [exists O; unfold at_boundary; by simpl|].
  exists (S n). by rewrite E.
Qed.

Lemma sbyte_sdrop m n s : sbyte m (sdrop n s) = sbyte (n + m)%nat s.
Proof.
  unfold sbyte. revert s; induction n as [|n IH]; intros [|c s]; simpl; done.
Qed.

Lemma at_boundary_sdrop m n s : at_boundary m (sdrop n s) = at_boundary (n + m)%nat s.
Proof. unfold at_boundary. by rewrite sbyte_sdrop. Qed.

Lemma skip_to_rune_len s : (slen (skip_to_rune s) <= slen s)%nat.
Proof. destruct (skip_to_rune_sdrop s) as (n & -> & _). rewrite slen_sdrop. lia. Qed.

Lemma skip_to_rune_valid n s : Utf8 s -> Utf8 (skip_to_rune (sdrop n s)).
Proof.
  intros H. destruct (skip_to_rune_sdrop (sdrop n s)) as (m & -> & Hb).
  rewrite at_boundary_sdrop in Hb. rewrite sdrop_sdrop. by apply Utf8_cut.
Qed.

Lemma messageTail_valid m n : Utf8 (messageTail m n).
Proof.
  unfold messageTail, slice_from. case_match; [auto with go_str|].
  apply skip_to_rune_valid. auto with go_str.
Qed.

Lemma messageTail_len m n : 0 <= n -> zlen (messageTail m n) <= n.
Proof.
  intros Hn. unfold messageTail, slice_from. case_match; [lia|].
  unfold zlen in *. pose proof (skip_to_rune_len (sdrop (Z.to_nat (Z.of_nat (slen (ToValidUTF8 m)) - n)) (ToValidUTF8 m))) as H'.
  rewrite slen_sdrop in H'. lia.
Qed.

Lemma messageTail_short m n : zlen (ToValidUTF8 m) <= n -> messageTail m n = ToValidUTF8 m.
Proof. intros H. unfold messageTail. case_match; [done|lia]. Qed.

(** The tail is a suffix of the sanitised message. *)
Lemma messageTail_suffix m n : exists k, messageTail m n = sdrop k (ToValidUTF8 m).
Proof.
  unfold messageTail, slice_from. case_match; [by exists O|].
  destruct (skip_to_rune_sdrop (sdrop (Z.to_nat (zlen (ToValidUTF8 m) - n)) (ToValidUTF8 m))) as (k & -> & _).
  rewrite sdrop_sdrop. eauto.
Qed.

Lemma head_boundary_le n s : (head_boundary n s <= n)%nat.
Proof. induction n as [|n IH]; simpl; [lia|]. destruct (at_boundary (S n) s); lia. Qed.

Lemma head_boundary_spec n s : head_boundary n s = O \/ at_boundary (head_boundary n s) s = true.
Proof. induction n as [|n IH]; cbn [head_boundary]; [auto|]. destruct (at_boundary (S n) s) eqn:E; auto. Qed.

Lemma head_boundary_valid n s : Utf8 s -> Utf8 (stake (head_boundary n s) s).
Proof.
  intros H. destruct (head_boundary_spec n s) as [->|Hb]; [constructor|]. by apply Utf8_cut.
Qed.

Lemma Utf8_ascii s : sforall is_ascii7 s = true -> Utf8 s.
Proof. induction s as [|c s IH]; simpl; [constructor|]. intros [? ?]%andb_true_iff. constructor; auto using Is_true_true_2. Qed.

Lemma marker_valid : Utf8 messageOmissionMarker.
Proof. by apply Utf8_ascii. Qed.
Lemma separator_valid : Utf8 reconciliationSeparator.
Proof. by apply Utf8_ascii. Qed.
#[export] Hint Resolve messageTail_valid head_boundary_valid marker_valid separator_valid : go_str.

Lemma messageHeadAndTail_valid m n : Utf8 (messageHeadAndTail m n).
Proof. unfold messageHeadAndTail. repeat case_match; auto 6 with go_str. Qed.
#[export] Hint Resolve messageHeadAndTail_valid : go_str.

Lemma messageHeadAndTail_len m n : 0 <= n -> zlen (messageHeadAndTail m n) <= n.
Proof.
  intros Hn. unfold messageHeadAndTail. case_match; [unfold zlen; simpl; lia|].
  case_match; [lia|]. case_match; [by apply messageTail_len|].
  rewrite !zlen_app. set (c := n - zlen messageOmissionMarker) in *.
  assert (0 <= c / 2 <= c) as Hc by (split; [apply Z.div_pos|apply Z.div_le_upper_bound]; lia).
  pose proof (messageTail_len (ToValidUTF8 m) (c / 2) (proj1 Hc)).
  assert (zlen (stake (head_boundary (Z.to_nat (c - c / 2)) (ToValidUTF8 m)) (ToValidUTF8 m)) <= c - c / 2).
  { unfold zlen. rewrite slen_stake. pose proof (head_boundary_le (Z.to_nat (c - c / 2)) (ToValidUTF8 m)). lia. }
  lia.
Qed.

(** ** The message column is always bounded and well-formed *)

Lemma transactionMessageTail_bounds m :
  zlen (transactionMessageTail m) <= maxTransactionMessageBytes /\ Utf8 (transactionMessageTail m).
Proof. split; [by apply messageTail_len|apply messageTail_valid]. Qed.

Lemma appendReconciliationError_valid m e : Utf8 (appendReconciliationError m e).
Proof.
  unfold appendReconciliationError, transactionMessageTail.
  repeat case_match; auto 6 with go_str.
Qed.

Lemma appendReconciliationError_len m e :
  zlen (appendReconciliationError m e) <= maxTransactionMessageBytes.
Proof.
  unfold appendReconciliationError, transactionMessageTail.
  destruct e as [e|]; [|by apply messageTail_len].
  case_match; [by apply messageTail_len|]. case_match; [lia|].
  match goal with |- context [messageHeadAndTail ?a ?b] =>
    pose proof (messageHeadAndTail_len a b ltac:(done)) as Hp; set (p := messageHeadAndTail a b) in * end.
  case_match; [by apply messageTail_len|].
  rewrite !zlen_app. match goal with |- context [messageTail ?a ?b] =>
    pose proof (messageTail_len a b ltac:(lia)) end. lia.
Qed.

Lemma broadcastAttemptReason_len h d : zlen (broadcastAttemptReason h d) <= maxReconciliationPrimaryBytes.
Proof.
  unfold broadcastAttemptReason. case_match; [by apply messageHeadAndTail_len|].
  rewrite !zlen_app in *.
  match goal with |- context [messageHeadAndTail ?a ?b] =>
    pose proof (messageHeadAndTail_len a b ltac:(lia)) end. lia.
Qed.

Lemma broadcastAttemptReason_valid h d : Utf8 h -> Utf8 (broadcastAttemptReason h d).
Proof.
  intros H. unfold broadcastAttemptReason. case_match; [auto with go_str|].
  repeat apply Utf8_app; auto with go_str; by apply Utf8_ascii.
Qed.
