(* ===== verification/Regex.v ===== *)
(** * The fragment of Go's [regexp] the redaction patterns use

    Classes, sequence, ordered alternation, greedy [?] and [+], and the ASCII
    word boundary [\b], with leftmost-first matching and [ReplaceAllString] over
    the left-to-right, non-overlapping matches.  A position carries the byte
    before it, which is all [\b] looks at.

    Patterns are over bytes.  A negated class matches each byte of a multi-byte
    rune in turn, which under [+] consumes the same text as matching the rune. *)
From Stdlib Require Import Ascii.
From S2P Require Export Errors.

Inductive regex :=
| RClass (f : Ascii.ascii -> bool)
| REmpty
| RSeq (r1 r2 : regex)
| RAlt (r1 r2 : regex)
| ROpt (r : regex)
| RPlus (r : regex)
| RWordB.

Definition pos : Type := option Ascii.ascii * string.

Definition is_word (c : Ascii.ascii) : bool :=
  byte_in 48 57 c || byte_in 65 90 c || byte_in 97 122 c || byte_in 95 95 c.

Definition word_boundary (p : pos) : bool :=
  let before := match fst p with Some c => is_word c | None => false end in
  let after := match snd p with String c _ => is_word c | "" => false end in
  xorb before after.

(** Backtracking matcher in continuation-passing style.  [fuel] bounds the
    iterations of one [+]; the length of the text is enough, since every
    iteration of the patterns below consumes a byte. *)
Fixpoint rmatch (fuel : nat) (r : regex) (p : pos) (k : pos -> option pos) : option pos :=
  match r with
  | RClass f =>
      match snd p with
      | String c s => if f c then k (Some c, s) else None
      | "" => None
      end
  | REmpty => k p
  | RSeq r1 r2 => rmatch fuel r1 p (fun p' => rmatch fuel r2 p' k)
  | RAlt r1 r2 => match rmatch fuel r1 p k with Some q => Some q | None => rmatch fuel r2 p k end
  | ROpt r1 => match rmatch fuel r1 p k with Some q => Some q | None => k p end
  | RPlus r1 =>
      (fix plus (n : nat) (p : pos) : option pos :=
         match n with
         | O => None
         | S n' => rmatch fuel r1 p (fun p' => match plus n' p' with Some q => Some q | None => k p' end)
         end) (S fuel) p
  | RWordB => if word_boundary p then k p else None
  end.

Definition match_at (r : regex) (p : pos) : option pos := rmatch (slen (snd p)) r p Some.

(** [re.ReplaceAllString(s, repl)], [repl] without [$] references.  A match that
    does not advance is skipped over; no pattern here matches the empty text. *)
Fixpoint replace_all_from (fuel : nat) (r : regex) (repl : string) (p : pos) : string :=
  match fuel with
  | O => snd p
  | S fuel' =>
      match snd p with
      | "" => ""
      | String c s =>
          match match_at r p with
          | Some q => if slen (snd q) <? slen (snd p) then repl +:+ replace_all_from fuel' r repl q
                      else String c (replace_all_from fuel' r repl (Some c, s))
          | None => String c (replace_all_from fuel' r repl (Some c, s))
          end
      end
  end.

Definition ReplaceAllString (r : regex) (s repl : string) : string :=
  replace_all_from (slen s) r repl (None, s).

(** ** Building patterns *)

Definition RChar (c : Ascii.ascii) : regex := RClass (Ascii.eqb c).

Fixpoint RLit (s : string) : regex :=
  match s with "" => REmpty | String c s' => RSeq (RChar c) (RLit s') end.

(** The bytes of U+017F and U+212A, which [(?i)] folds with [s] and [k]. *)
Definition long_s : regex := RSeq (RChar "197"%char) (RChar "191"%char).
Definition kelvin : regex := RSeq (RChar "226"%char) (RSeq (RChar "132"%char) (RChar "170"%char)).

Definition lower_ascii (c : Ascii.ascii) : Ascii.ascii :=
  if byte_in 65 90 c then Ascii.ascii_of_N (byte_N c + 32) else c.

(** A lower-case ASCII letter or symbol under [(?i)]. *)
Definition RCharFold (c : Ascii.ascii) : regex :=
  let base := RClass (fun d => Ascii.eqb c (lower_ascii d)) in
  if Ascii.eqb c "s"%char then RAlt base long_s
  else if Ascii.eqb c "k"%char then RAlt base kelvin
  else base.

Fixpoint RLitFold (s : string) : regex :=
  match s with "" => REmpty | String c s' => RSeq (RCharFold c) (RLitFold s') end.

Definition is_space (c : Ascii.ascii) : bool :=
  byte_in 9 10 c || byte_in 12 13 c || byte_in 32 32 c.
Definition is_alnum (c : Ascii.ascii) : bool :=
  byte_in 48 57 c || byte_in 65 90 c || byte_in 97 122 c.
Definition one_of (s : string) (c : Ascii.ascii) : bool := negb (sforall (fun d => negb (Ascii.eqb c d)) s).

(** ** Matching and replacing only ever moves forward *)

Lemma replace_all_fuel r repl n p :
  slen (snd p) <= n -> replace_all_from n r repl p = replace_all_from (slen (snd p)) r repl p.
Proof.
  revert p. induction (lt_wf n) as [n _ IH]; intros [b s] Hn; simpl in Hn.
  destruct s as [|c s]; [by destruct n|].
  destruct n as [|n]; [simpl in Hn; lia|]. simpl in Hn |- *.
  destruct (match_at r (b, String c s)) as [[b' s']|]; simpl.
  - destruct (slen s' <? S (slen s)) eqn:E; [|f_equal; apply IH; simpl; lia].
    f_equal. rewrite (IH n) by (simpl; lia). symmetry.
    destruct (decide (slen s = n)) as [->|]; [by apply IH; simpl; lia|].
    apply (IH (slen s)); simpl; lia.
  - f_equal. apply IH; simpl; lia.
Qed.
