(* ===== verification/RpcErrors.v ===== *)
(** * Classifying and redacting node errors (evm/txmngr/txmngr.go)

    The broadcast taxonomy ([classifyBroadcastError] and its predicates) and the
    redaction that keeps endpoints and credentials out of durable messages. *)
From Stdlib Require Import Ascii.
From S2P Require Export Regex Decimal.
Local Open Scope Z_scope.

Section classify.
Context `{UnicodeTables}.

Definition containsAny (err : option GoError) (needles : list string) : bool :=
  match err with
  | None => false
  | Some err => let message := ToLower (Error err) in existsb (Contains message) needles
  end.

Inductive broadcastErrorDisposition :=
| broadcastAmbiguous
| broadcastAlreadyKnown
| broadcastNonceConsumed
| broadcastFeeRejected
| broadcastTransactionRejectedRetryable
| broadcastTransactionRejectedPermanent.

#[export] Instance disposition_eq_dec : EqDecision broadcastErrorDisposition.
Proof. solve_decision. Defined.

Definition rpcErrorCode (err : option GoError) : Z :=
  match err with
  | Some err => match as_rpc err with Some (code, _) => code | None => 0 end
  | None => 0
  end.

Definition feePolicyRejectionMessages : list string :=
  ["replacement transaction underpriced"; "replacement underpriced"; "transaction underpriced";
   "fee too low to replace"; "max fee per gas less than block base fee";
   "max fee per gas below block base fee"; "fee cap less than block base fee";
   "fee cap below base fee"]%string.

Definition permanentRejectionMessages : list string :=
  ["gas limit too high"; "exceeds block gas limit"; "tx gas limit exceeds"; "intrinsic gas too low";
   "intrinsic gas exceeds gas limit"; "gas uint64 overflow";
   "invalid sender"; "sender not an eoa"; "invalid transaction signature"; "invalid signature";
   "invalid chain id"; "only replay-protected";
   "unsupported transaction type"; "transaction type not supported"; "max initcode size exceeded";
   "initcode size exceeded";
   "max priority fee per gas higher than max fee per gas";
   "max priority fee per gas exceeds max fee per gas"; "tip above fee cap"]%string.

Definition zmem (z : Z) (l : list Z) : bool := existsb (Z.eqb z) l.

Definition isNonceTooLowError (err : option GoError) : bool :=
  let code := rpcErrorCode err in
  (code =? 1) || (code =? -38010) || containsAny err ["nonce too low"%string].

Definition isAlreadyKnownError (err : option GoError) : bool :=
  (rpcErrorCode err =? 1000) ||
  (negb (containsAny err ["unknown transaction"%string]) &&
   containsAny err ["already known"%string; "known transaction"%string]).

Definition isFeePolicyRejectionError (err : option GoError) : bool :=
  let code := rpcErrorCode err in
  (code =? 802) || (code =? 806) || containsAny err feePolicyRejectionMessages.

Definition retryableRejectionCodes : list Z :=
  [2; 809; -38011; -38014; -38026; -32700; -32600; -32601; -32004; -32006].

Definition isRetryableTransactionRejectionError (err : option GoError) : bool :=
  let code := rpcErrorCode err in
  zmem code retryableRejectionCodes ||
  containsAny err ["nonce too high"; "insufficient funds"; "transaction pool is full"; "txpool is full"]%string.

Definition permanentRejectionCodes : list Z :=
  [3; 4; 800; 801; 803; 804; 805; 807; 808; 1001; -38013; -38015; -38024; -38025; -32602].

Definition isPermanentTransactionRejectionError (err : option GoError) : bool :=
  if isAlreadyKnownError err || isNonceTooLowError err || isFeePolicyRejectionError err ||
     isRetryableTransactionRejectionError err then false
  else
    match err with
    | None => false
    | Some e =>
        match as_rpc e with
        | None => false
        | Some (code, _) =>
            if zmem code permanentRejectionCodes then true
            else containsAny err permanentRejectionMessages
        end
    end.

Definition classifyBroadcastError (err : option GoError) : broadcastErrorDisposition :=
  match err with
  | None => broadcastAmbiguous
  | Some _ =>
      if isAlreadyKnownError err then broadcastAlreadyKnown
      else if isNonceTooLowError err then broadcastNonceConsumed
      else if isFeePolicyRejectionError err then broadcastFeeRejected
      else if isRetryableTransactionRejectionError err then broadcastTransactionRejectedRetryable
      else if isPermanentTransactionRejectionError err then broadcastTransactionRejectedPermanent
      else broadcastAmbiguous
  end.

End classify.

(** ** Redaction *)

(** The URL pattern: [(?i)(?:https?|wss?)://] followed by one or more characters
    that are not white space, quotes or angle brackets. *)
Definition dquote : Ascii.ascii := "034"%char.
Definition rpcURLPattern : regex :=
  RSeq (RAlt (RSeq (RLitFold "http") (ROpt (RCharFold "s"%char))) (RSeq (RLitFold "ws") (ROpt (RCharFold "s"%char))))
       (RSeq (RLit "://")
             (RPlus (RClass (fun c => negb (is_space c || Ascii.eqb c dquote || one_of "'<>" c))))).

(** [(?i)\bbearer\s+[a-z0-9._~+/=-]+] *)
Definition bearerPattern : regex :=
  RSeq RWordB (RSeq (RLitFold "bearer") (RSeq (RPlus (RClass is_space))
    (RPlus (RAlt (RClass (fun c => is_alnum c || one_of "._~+/=-" c)) (RAlt long_s kelvin))))).

(** [\beyJ[a-zA-Z0-9_-]+\.[a-zA-Z0-9_-]+\.[a-zA-Z0-9_-]+\b] *)
Definition jwt_part : regex := RPlus (RClass (fun c => is_alnum c || one_of "_-" c)).
Definition jwtPattern : regex :=
  RSeq RWordB (RSeq (RLit "eyJ") (RSeq jwt_part (RSeq (RChar "."%char) (RSeq jwt_part
    (RSeq (RChar "."%char) (RSeq jwt_part RWordB)))))).

Definition redactRPCText (message : string) : string :=
  let message := ReplaceAllString rpcURLPattern message "<redacted-rpc-url>" in
  let message := ReplaceAllString bearerPattern message "Bearer <redacted>" in
  ReplaceAllString jwtPattern message "<redacted-jwt>".

Definition rpcErrorSummary (err : option GoError) : string :=
  match err with
  | None => ""
  | Some e =>
      match as_rpc e with
      | Some (code, text) => "rpc error " +:+ pretty code +:+ ": " +:+ redactRPCText text
      | None =>
          match as_http e with
          | Some status => "rpc HTTP status " +:+ pretty status
          | None =>
              if Is e DeadlineExceeded then "rpc transport timeout"
              else if Is e ContextCanceled then "rpc transport cancelled"
              else
                match as_url e with
                | Some op => "rpc transport " +:+ op +:+ " failed"
                | None =>
                    match as_net e with
                    | Some true => "rpc transport timeout"
                    | _ => "rpc transport error (" +:+ dynamic_type e +:+ ")"
                    end
                end
          end
      end
  end.

Definition redactedRPCError (operation : string) (err : GoError) : GoError :=
  if Is err ContextCanceled || Is err DeadlineExceeded then Errorf_w (operation +:+ ": ") err ""
  else errors_New (operation +:+ ": " +:+ rpcErrorSummary (Some err)).

Example redact_url :
  redactRPCText "Post https://user:pw@rpc.example/v1?k=1 failed: Bearer abc.DEF-1 x"
  = "Post <redacted-rpc-url> failed: Bearer <redacted> x".
Proof. vm_compute. reflexivity. Qed.

Example redact_jwt : redactRPCText "token eyJhbGci.eyJzdWIi.SflKxw-_ end" = "token <redacted-jwt> end".
Proof. vm_compute. reflexivity. Qed.
