(* ===== verification/Backoff.v ===== *)
(** * Exponential backoff (pkg/backoff/backoff.go)

    The action is the environment's: its [i]-th call answers an error, or none,
    and whether to retry.  A run returns the error, the waits it slept and the
    number of calls it made.  Waits double as [int64] nanoseconds. *)
From S2P Require Export Errors.
Local Open Scope Z_scope.

Record run := mkRun { run_err : option GoError; run_waits : list Z; run_calls : nat }.

(** [wait *= 2] *)
Definition double_wait (wait : Z) : Z := wrap_i64 (wait * 2).

(** One more call, and one more wait, before [r]. *)
Definition after_wait (wait : Z) (r : run) : run :=
  {| run_err := run_err r; run_waits := wait :: run_waits r; run_calls := S (run_calls r) |}.

Section backoff.
Variable action : nat -> option GoError * bool.
(* ctx.Err() when the wait after the i-th call was cut short *)
Variable cancelled : nat -> option GoError.

(** The loop: [left] calls are left, the next one is the [i]-th; [err] is the
    variable the loop assigns. *)
Fixpoint with_context (left i : nat) (wait : Z) (err : option GoError) : run :=
  match left with
  | O => {| run_err := err; run_waits := []; run_calls := 0 |}
  | S left' =>
      match action i with
      | (None, _) => {| run_err := None; run_waits := []; run_calls := 1 |}
      | (Some e, retry) =>
          if negb retry then {| run_err := Some e; run_waits := []; run_calls := 1 |}
          else
            match left' with
            | O => {| run_err := Some e; run_waits := []; run_calls := 1 |}
            | S _ =>
                match cancelled i with
                | Some c => {| run_err := Some (Errorf_ww "" c ": " e ""); run_waits := []; run_calls := 1 |}
                | None => after_wait wait (with_context left' (S i) (double_wait wait) (Some e))
                end
            end
      end
  end.

Definition ExponentialWithContext (max : nat) (wait : Z) : run := with_context max 0 wait None.
End backoff.

(** [Exponential] sleeps instead of selecting: it cannot be cut short. *)
Definition Exponential (action : nat -> option GoError * bool) (max : nat) (wait : Z) : run :=
  with_context action (fun _ => None) max 0 wait None.

(** ** Specification *)

Section spec.
Variable action : nat -> option GoError * bool.
Variable cancelled : nat -> option GoError.

(** Call [j] failed, asked for a retry, and the wait after it ran its course. *)
Definition retried (j : nat) : Prop := exists e, action j = (Some e, true) /\ cancelled j = None.

(** How the last call, the [k]-th of at most [max], ends the run. *)
Inductive ends (max k : nat) : option GoError -> Prop :=
| ends_ok retry : action k = (None, retry) -> ends max k None
| ends_final e : action k = (Some e, false) -> ends max k (Some e)
| ends_exhausted e : action k = (Some e, true) -> S k = max -> ends max k (Some e)
| ends_cancelled e c : action k = (Some e, true) -> (S k < max)%nat -> cancelled k = Some c ->
    ends max k (Some (Errorf_ww "" c ": " e "")).

Fixpoint doubling (wait : Z) (n : nat) : list Z :=
  match n with O => [] | S n => wait :: doubling (double_wait wait) n end.

Lemma with_context_spec left i wait err : (0 < left)%nat ->
  exists k, (k < left)%nat /\ (forall j, (j < k)%nat -> retried (i + j)) /\
    ends (i + left) (i + k) (run_err (with_context action cancelled left i wait err)) /\
    run_calls (with_context action cancelled left i wait err) = S k /\
    run_waits (with_context action cancelled left i wait err) = doubling wait k.
Proof.
  revert i wait err. induction left as [|left IH]; intros i wait err H; [lia|]. cbn [with_context].
  destruct (action i) as [[e|] retry] eqn:Ea.
  2: { exists 0%nat. rewrite Nat.add_0_r. split_and!; [lia|lia|by econstructor|done..]. }
  destruct retry; simpl.
  2: { exists 0%nat. rewrite Nat.add_0_r. split_and!; [lia|lia|by apply ends_final|done..]. }
  destruct left as [|left].
  { exists 0%nat. rewrite Nat.add_0_r. split_and!; [lia|lia|apply ends_exhausted; [done|lia]|done..]. }
  destruct (cancelled i) as [c|] eqn:Ec.
  { exists 0%nat. rewrite Nat.add_0_r. split_and!; [lia|lia|apply ends_cancelled; [done|lia|done]|done..]. }
  destruct (IH (S i) (double_wait wait) (Some e) ltac:(lia)) as (k & Hk & Hr & He & Hc & Hw).
  exists (S k). split_and!; [lia| | | |].
  - intros [|j] Hj; [rewrite Nat.add_0_r; by exists e|]. replace (i + S j)%nat with (S i + j)%nat by lia. apply Hr. lia.
  - replace (i + S k)%nat with (S i + k)%nat by lia. replace (i + S (S left))%nat with (S i + S left)%nat by lia. exact He.
  - unfold after_wait. cbn [run_calls]. by rewrite Hc.
  - unfold after_wait. cbn [run_waits doubling]. by rewrite Hw.
Qed.

(** C40: The retry loop calls the action at least once and at most [max] times; it
    stops at the first success, at the first error that is not to be retried, at
    a cancelled wait, or when the calls are used up, and it sleeps exactly
    between two calls, each wait twice the one before. *)
Theorem ExponentialWithContext_spec max wait (Hmax : (0 < max)%nat) :
  let r := ExponentialWithContext action cancelled max wait in
  exists k, (k < max)%nat /\ (forall j, (j < k)%nat -> retried j) /\ ends max k (run_err r) /\
    run_calls r = S k /\ run_waits r = doubling wait k.
Proof. exact (with_context_spec max 0 wait None Hmax). Qed.

(** With no calls allowed the loop reports success without calling anything. *)
Lemma ExponentialWithContext_zero wait :
  ExponentialWithContext action cancelled 0 wait = {| run_err := None; run_waits := []; run_calls := 0 |}.
Proof. done. Qed.
End spec.

(** Doubling is exact as long as the waits fit in an [int64]. *)
Lemma doubling_lookup wait n j : 0 <= wait -> wait * 2 ^ Z.of_nat n < 2 ^ 63 -> (j < n)%nat ->
  doubling wait n !! j = Some (wait * 2 ^ Z.of_nat j).
Proof.
  revert wait j. induction n as [|n IH]; intros wait j Hw Hb Hj; [lia|].
  rewrite Nat2Z.inj_succ, Z.pow_succ_r in Hb by lia.
  destruct j as [|j]; cbn [doubling lookup list_lookup]; [f_equal; simpl; lia|].
  assert (double_wait wait = wait * 2) as ->.
  { apply wrap_i64_small. unfold is_i64. pose proof (Z.pow_pos_nonneg 2 (Z.of_nat n)). nia. }
  rewrite IH; [|lia|lia|lia]. f_equal. rewrite Nat2Z.inj_succ, Z.pow_succ_r by lia. lia.
Qed.
