(* ===== verification/HttpClient.v ===== *)
(** * The HTTP client (pkg/http_client/http.go)

    The builder, the retrying transport, status errors, [Retry-After] and the
    size-limited response body.  The base transport, the rate limiter, the clock
    and the cancellation of the caller's context are the environment's
    ([HttpEnv]): the answer to the [i]-th attempt is arbitrary. *)
From Stdlib Require Import Ascii.
From S2P Require Export Backoff Decimal.
Local Open Scope Z_scope.

Definition Second : Z := 1000000000.
Definition maxRetries : Z := 3.
Definition retryTimeout : Z := 2 * Second.
Definition defaultClientTimeout : Z := 60 * Second.
Definition defaultMaxRetryAfter : Z := 30 * Second.
Definition maxErrorBodyBytes : nat := 65536.
#[global] Arguments maxErrorBodyBytes : simpl never.

(** ** Errors *)

Inductive HttpError :=
| statusError (statusCode : Z) (body : string) (retryAfter : Z)
| bodyReadError (statusCode : Z) (err : string)
| rateLimited (err : HttpError)          (* "%w: %w", ErrRateLimited *)
| unauthorized (err : HttpError)         (* "%w: %w", ErrUnauthorized *)
| requestFailed (err : string)           (* "request failed: %w" *)
| limiterFailed (err : string)           (* "waiting for rate limiter: %w" *)
| contextDone (ctxErr : string) (last : HttpError).

Fixpoint http_Error (e : HttpError) : string :=
  match e with
  | statusError code body _ =>
      "request failed with status " +:+ pretty code +:+ ", error: " +:+
        (if String.eqb body "" then "request failed, no response" else body)
  | bodyReadError code err =>
      "request failed with status " +:+ pretty code +:+ ", error: failed to read response body, error: " +:+ err
  | rateLimited e => "request failed, rate limit exceeded: " +:+ http_Error e
  | unauthorized e => "request failed, unauthorized: " +:+ http_Error e
  | requestFailed err => "request failed: " +:+ err
  | limiterFailed err => "waiting for rate limiter: " +:+ err
  | contextDone c e => c +:+ ": " +:+ http_Error e
  end.

(** [errors.As(err, &statusErr)] *)
Fixpoint as_status (e : HttpError) : option (Z * string * Z) :=
  match e with
  | statusError code body after => Some (code, body, after)
  | rateLimited e | unauthorized e | contextDone _ e => as_status e
  | bodyReadError _ _ | requestFailed _ | limiterFailed _ => None
  end.

Definition ResponseStatus (e : HttpError) : Z * string * bool :=
  match as_status e with Some (code, body, _) => (code, body, true) | None => (0, "", false) end.

Definition RetryAfter (e : HttpError) : Z * bool :=
  match as_status e with
  | Some (_, _, after) => if 0 <? after then (after, true) else (0, false)
  | None => (0, false)
  end.

Definition retryAfterOf (e : HttpError) : Z := fst (RetryAfter e).

(** ** Headers *)

(** [textproto]'s token bytes. *)
Definition token_byte (c : Ascii.ascii) : bool :=
  byte_in 33 33 c || byte_in 35 39 c || byte_in 42 43 c || byte_in 45 46 c || is_digit c ||
  byte_in 65 90 c || byte_in 94 122 c || byte_in 124 124 c || byte_in 126 126 c.

Definition upper (c : Ascii.ascii) : Ascii.ascii :=
  if byte_in 97 122 c then ascii_of_N (byte_N c - 32) else c.
Definition lower (c : Ascii.ascii) : Ascii.ascii :=
  if byte_in 65 90 c then ascii_of_N (byte_N c + 32) else c.

Fixpoint canonical_from (start : bool) (s : string) : string :=
  match s with
  | "" => ""
  | String c s' => String (if start then upper c else lower c) (canonical_from (Ascii.eqb c "-"%char) s')
  end.

(** [http.CanonicalHeaderKey] *)
Definition CanonicalHeaderKey (s : string) : string := if sforall token_byte s then canonical_from true s else s.

Abbreviation Header := (gmap string (list string)).

Definition header_Set (key value : string) (h : Header) : Header := <[CanonicalHeaderKey key := [value]]> h.

Definition header_Get (key : string) (h : Header) : string :=
  match h !! CanonicalHeaderKey key with Some (v :: _) => v | _ => "" end.

(** ** The builder *)

Record clientBuilder := mkBuilder {
  authKey : string; authValue : string; headers : option Header; timeout : option Z; attemptTimeout : Z;
  b_maxRetries : option Z; retryDelay : option Z; b_maxRetryAfter : option Z; noRedirect : bool;
  maxResponseBytes : Z; limiter : bool;
}.

Definition NewClientBuilder : clientBuilder :=
  {| authKey := ""; authValue := ""; headers := None; timeout := None; attemptTimeout := 0; b_maxRetries := None;
     retryDelay := None; b_maxRetryAfter := None; noRedirect := false; maxResponseBytes := 0; limiter := false |}.

Definition SetAuth (key value : string) (b : clientBuilder) : clientBuilder :=
  {| authKey := key; authValue := value; headers := headers b; timeout := timeout b;
     attemptTimeout := attemptTimeout b; b_maxRetries := b_maxRetries b; retryDelay := retryDelay b;
     b_maxRetryAfter := b_maxRetryAfter b; noRedirect := noRedirect b; maxResponseBytes := maxResponseBytes b;
     limiter := limiter b |}.

Definition SetHeader (key value : string) (b : clientBuilder) : clientBuilder :=
  {| authKey := authKey b; authValue := authValue b; headers := Some (header_Set key value (default ∅ (headers b)));
     timeout := timeout b; attemptTimeout := attemptTimeout b; b_maxRetries := b_maxRetries b;
     retryDelay := retryDelay b; b_maxRetryAfter := b_maxRetryAfter b; noRedirect := noRedirect b;
     maxResponseBytes := maxResponseBytes b; limiter := limiter b |}.

Definition SetUserAgent (userAgent : string) (b : clientBuilder) : clientBuilder := SetHeader "User-Agent" userAgent b.

Definition SetRetry (retries delay : Z) (b : clientBuilder) : clientBuilder :=
  {| authKey := authKey b; authValue := authValue b; headers := headers b; timeout := timeout b;
     attemptTimeout := attemptTimeout b; b_maxRetries := Some retries; retryDelay := Some delay;
     b_maxRetryAfter := b_maxRetryAfter b; noRedirect := noRedirect b; maxResponseBytes := maxResponseBytes b;
     limiter := limiter b |}.

Definition SetTimeout (d : Z) (b : clientBuilder) : clientBuilder :=
  {| authKey := authKey b; authValue := authValue b; headers := headers b; timeout := Some d;
     attemptTimeout := attemptTimeout b; b_maxRetries := b_maxRetries b; retryDelay := retryDelay b;
     b_maxRetryAfter := b_maxRetryAfter b; noRedirect := noRedirect b;
     maxResponseBytes := maxResponseBytes b; limiter := limiter b |}.

Definition SetAttemptTimeout (d : Z) (b : clientBuilder) : clientBuilder :=
  {| authKey := authKey b; authValue := authValue b; headers := headers b; timeout := timeout b;
     attemptTimeout := d; b_maxRetries := b_maxRetries b; retryDelay := retryDelay b;
     b_maxRetryAfter := b_maxRetryAfter b; noRedirect := noRedirect b;
     maxResponseBytes := maxResponseBytes b; limiter := limiter b |}.

Definition SetMaxRetryAfter (max : Z) (b : clientBuilder) : clientBuilder :=
  {| authKey := authKey b; authValue := authValue b; headers := headers b; timeout := timeout b;
     attemptTimeout := attemptTimeout b; b_maxRetries := b_maxRetries b; retryDelay := retryDelay b;
     b_maxRetryAfter := Some max; noRedirect := noRedirect b; maxResponseBytes := maxResponseBytes b;
     limiter := limiter b |}.

Definition SetNoRedirect (b : clientBuilder) : clientBuilder :=
  {| authKey := authKey b; authValue := authValue b; headers := headers b; timeout := timeout b;
     attemptTimeout := attemptTimeout b; b_maxRetries := b_maxRetries b; retryDelay := retryDelay b;
     b_maxRetryAfter := b_maxRetryAfter b; noRedirect := true; maxResponseBytes := maxResponseBytes b;
     limiter := limiter b |}.

Definition SetMaxResponseBytes (max : Z) (b : clientBuilder) : clientBuilder :=
  {| authKey := authKey b; authValue := authValue b; headers := headers b; timeout := timeout b;
     attemptTimeout := attemptTimeout b; b_maxRetries := b_maxRetries b; retryDelay := retryDelay b;
     b_maxRetryAfter := b_maxRetryAfter b; noRedirect := noRedirect b; maxResponseBytes := max;
     limiter := limiter b |}.

(** The limiter itself is the environment's; a nil one is none. *)
Definition SetRateLimiter (set : bool) (b : clientBuilder) : clientBuilder :=
  {| authKey := authKey b; authValue := authValue b; headers := headers b; timeout := timeout b;
     attemptTimeout := attemptTimeout b; b_maxRetries := b_maxRetries b; retryDelay := retryDelay b;
     b_maxRetryAfter := b_maxRetryAfter b; noRedirect := noRedirect b;
     maxResponseBytes := maxResponseBytes b; limiter := set |}.

(** The transport [BuildClient] configures, and the client's timeout. *)
Record Transport := mkTransport {
  MaxRetries : Z; RetryDelay : Z; MaxRetryAfter : Z; AttemptTimeout : Z; AuthHeaderKey : string;
  AuthHeaderVal : string; Headers : Header; NoRedirect : bool; MaxResponseBytes : Z; RateLimiter : bool;
}.

(** [*b.maxRetries + 1] is a [uint] sum. *)
Definition BuildClient (b : clientBuilder) : Transport * Z :=
  ({| MaxRetries := match b_maxRetries b with Some n => wrap_u64 (n + 1) | None => maxRetries end;
      RetryDelay := default retryTimeout (retryDelay b); MaxRetryAfter := default defaultMaxRetryAfter (b_maxRetryAfter b);
      AttemptTimeout := attemptTimeout b; AuthHeaderKey := authKey b; AuthHeaderVal := authValue b;
      Headers := default ∅ (headers b); NoRedirect := noRedirect b; MaxResponseBytes := maxResponseBytes b;
      RateLimiter := limiter b |},
   default defaultClientTimeout (timeout b)).

(** ** Retry-After *)

(** [strconv.Atoi] on a 64-bit platform. *)
Definition Atoi (s : string) : option Z :=
  match SetString10 s with
  | Some z => if bool_decide (is_i64 z) then Some z else None
  | None => None
  end.

Section retry_after.
(* http.ParseTime *)
Variable ParseTime : string -> option Z.

Definition parseRetryAfter (value : string) (now : Z) : Z :=
  let value := TrimSpace value in
  if String.eqb value "" then 0
  else
    match Atoi value with
    | Some seconds => if seconds <=? 0 then 0 else wrap_i64 (seconds * Second)
    | None =>
        match ParseTime value with
        | Some at_ => if 0 <? at_ - now then Z.min (at_ - now) (2 ^ 63 - 1) else 0   (* Sub saturates *)
        | None => 0
        end
    end.
End retry_after.

(** ** One attempt *)

(** A response: the bytes of the body, and the error its stream ends with
    instead of end-of-file, if any. *)
Record Response := mkResponse {
  StatusCode : Z; resp_Header : Header; Body : string; body_err : option string; close_err : option string;
}.

Record Request := mkRequest { req_Header : Header }.

Class HttpEnv := {
  env_limiter : nat -> option string;                         (* RateLimiter.Wait *)
  env_exchange : nat -> Request -> result string Response;    (* BaseTransport.RoundTrip *)
  env_parent_done : nat -> bool;                              (* req.Context().Err() != nil after it *)
  env_cancelled : nat -> option string;                       (* the wait after it was cut short *)
  env_clock : nat -> Z;
  http_ParseTime : string -> option Z;
}.

Section transport.
Context `{HE : HttpEnv}.

(** [io.ReadAll(io.LimitReader(body, maxErrorBodyBytes))] *)
Definition limited_body (resp : Response) : string * option string :=
  if (maxErrorBodyBytes <=? slen (Body resp))%nat then (stake maxErrorBodyBytes (Body resp), None)
  else (Body resp, body_err resp).

Definition newStatusError (resp : Response) (now : Z) : HttpError :=
  let '(body, err) := limited_body resp in
  match (match err with Some e => Some e | None => close_err resp end) with
  | Some err => bodyReadError (StatusCode resp) err
  | None => statusError (StatusCode resp) body
              (parseRetryAfter http_ParseTime (header_Get "Retry-After" (resp_Header resp)) now)
  end.

(** The headers of one attempt. *)
Definition attempt_request (t : Transport) (req : Request) : Request :=
  let h := Headers t ∪ req_Header req in
  {| req_Header := if negb (String.eqb (AuthHeaderKey t) "") && negb (String.eqb (AuthHeaderVal t) "")
                   then header_Set (AuthHeaderKey t) (AuthHeaderVal t) h else h |}.

(** The [i]-th attempt: the response, or the error, whether to retry, and the
    server's delay. *)
Definition attempt (t : Transport) (req : Request) (i : nat) : result (HttpError * bool * Z) Response :=
  match (if RateLimiter t then env_limiter i else None) with
  | Some e => Err (limiterFailed e, false, 0)
  | None =>
      match env_exchange i (attempt_request t req) with
      | Err e => Err (requestFailed e, negb (env_parent_done i), 0)
      | Ok resp =>
          let code := StatusCode resp in
          if (200 <=? code) && (code <? 300) then Ok resp
          else
            let statusErr := newStatusError resp (env_clock i) in
            if code =? 429 then Err (rateLimited statusErr, true, retryAfterOf statusErr)
            else if (code =? 401) || (code =? 403) then Err (unauthorized statusErr, false, 0)
            else if code =? 400 then Err (statusErr, false, 0)
            else if NoRedirect t && (code <? 400) then Err (statusErr, false, 0)
            else Err (statusErr, true, retryAfterOf statusErr)
      end
  end.

(** ** The retry loop *)

(** Attempts made, delays slept, and what the caller gets. *)
Record exchange := mkExchange { ex_attempts : nat; ex_delays : list Z; ex_result : result HttpError Response }.

Definition stop_with (r : result HttpError Response) : exchange :=
  {| ex_attempts := 1; ex_delays := []; ex_result := r |}.

(** The delay before the next attempt, or [None] when the server asks for more
    than the cap. *)
Definition retry_delay (t : Transport) (wait retryAfter : Z) : option Z :=
  if (0 <? retryAfter) && (0 <? MaxRetryAfter t) then
    if MaxRetryAfter t <? retryAfter then None else Some (Z.max wait retryAfter)
  else Some wait.

Fixpoint round_trip (t : Transport) (req : Request) (left i : nat) (wait : Z) (lastErr : option HttpError) : exchange :=
  match left with
  | O => {| ex_attempts := 0; ex_delays := [];
            ex_result := match lastErr with Some e => Err e | None => Err (requestFailed "") end |}
  | S left' =>
      match attempt t req i with
      | Ok resp => stop_with (Ok resp)
      | Err (err, retry, retryAfter) =>
          if negb retry || (left' =? 0)%nat then stop_with (Err err)
          else
            match retry_delay t wait retryAfter with
            | None => stop_with (Err err)
            | Some delay =>
                match env_cancelled i with
                | Some c => stop_with (Err (contextDone c err))
                | None =>
                    let r := round_trip t req left' (S i) (double_wait wait) (Some err) in
                    {| ex_attempts := S (ex_attempts r); ex_delays := delay :: ex_delays r; ex_result := ex_result r |}
                end
            end
      end
  end.

Definition RoundTrip (t : Transport) (req : Request) : exchange :=
  round_trip t req (Z.to_nat (Z.max (MaxRetries t) 1)) 0 (RetryDelay t) None.

(** *** What the loop guarantees *)

(** Attempt [j] failed and the loop went on, after [delay]. *)
Definition goes_on (t : Transport) (req : Request) (wait : Z) (j : nat) (delay : Z) : Prop :=
  exists err retryAfter, attempt t req j = Err (err, true, retryAfter) /\
    retry_delay t wait retryAfter = Some delay /\ env_cancelled j = None.

(** How attempt [k], of at most [n], ends the exchange. *)
Inductive ends_with (t : Transport) (req : Request) (wait : Z) (n k : nat) : result HttpError Response -> Prop :=
| e_success resp : attempt t req k = Ok resp -> ends_with t req wait n k (Ok resp)
| e_final err after : attempt t req k = Err (err, false, after) -> ends_with t req wait n k (Err err)
| e_exhausted err after : attempt t req k = Err (err, true, after) -> S k = n -> ends_with t req wait n k (Err err)
| e_too_long err after : attempt t req k = Err (err, true, after) -> 0 < MaxRetryAfter t < after ->
    ends_with t req wait n k (Err err)
| e_cancelled err after c : attempt t req k = Err (err, true, after) -> env_cancelled k = Some c ->
    ends_with t req wait n k (Err (contextDone c err)).

(** The wait the loop holds before its [j]-th retry. *)
Fixpoint nth_wait (wait : Z) (j : nat) : Z := match j with O => wait | S j => nth_wait (double_wait wait) j end.

Lemma retry_delay_None t wait after : retry_delay t wait after = None -> 0 < MaxRetryAfter t < after.
Proof. unfold retry_delay. destruct (0 <? after) eqn:?, (0 <? MaxRetryAfter t) eqn:?; simpl; try done. case_match; [lia|done]. Qed.

Lemma round_trip_spec t req left i wait last : (0 < left)%nat ->
  let r := round_trip t req left i wait last in
  exists k, (k < left)%nat /\ ex_attempts r = S k /\ length (ex_delays r) = k /\
    (forall j, (j < k)%nat -> exists d, ex_delays r !! j = Some d /\ goes_on t req (nth_wait wait j) (i + j) d) /\
    ends_with t req (nth_wait wait k) (i + left) (i + k) (ex_result r).
Proof.
  revert i wait last. induction left as [|left IH]; intros i wait last H; [lia|]. cbn [round_trip].
  assert (Hstop : forall res, ends_with t req wait (i + S left) i res ->
    exists k, (k < S left)%nat /\ ex_attempts (stop_with res) = S k /\ length (ex_delays (stop_with res)) = k /\
      (forall j, (j < k)%nat -> exists d, ex_delays (stop_with res) !! j = Some d /\ goes_on t req (nth_wait wait j) (i + j) d) /\
      ends_with t req (nth_wait wait k) (i + S left) (i + k) (ex_result (stop_with res))).
  { intros res He. exists 0%nat. rewrite Nat.add_0_r. split_and!; [lia|done|done|lia|exact He]. }
  destruct (attempt t req i) as [resp|[[err retry] after]] eqn:Ea; [by apply Hstop, e_success|].
  destruct retry; [|by eapply Hstop, e_final].
  destruct (Nat.eqb_spec left 0) as [->|Hl]; simpl; [eapply Hstop, e_exhausted; [done|lia]|].
  destruct (retry_delay t wait after) as [d|] eqn:Ed; [|eapply Hstop, e_too_long; [done|by eapply retry_delay_None]].
  destruct (env_cancelled i) as [c|] eqn:Ec; [by eapply Hstop, e_cancelled|].
  destruct (IH (S i) (double_wait wait) (Some err) ltac:(lia)) as (k & Hk & Ha & Hd & Hg & He).
  exists (S k). cbn [ex_attempts ex_delays ex_result]. split_and!; [lia|by rewrite Ha|simpl; by rewrite Hd| |].
  - intros [|j] Hj; simpl.
    + exists d. rewrite Nat.add_0_r. split; [done|]. by exists err, after.
    + destruct (Hg j ltac:(lia)) as (d' & Hd' & Hj'). exists d'. split; [done|].
      by replace (i + S j)%nat with (S i + j)%nat by lia.
  - cbn [nth_wait]. by replace (i + S k)%nat with (S i + k)%nat by lia; replace (i + S left)%nat with (S i + left)%nat by lia.
Qed.

(** C29: The transport tries at least once and at most [MaxRetries] times. Every
    attempt but the last failed retryably without the caller's context ending,
    each delay is the doubled wait or the server's longer one, and the last
    attempt succeeded, failed for good, used up the attempts, was asked to wait
    past the cap, or was cancelled; what the caller gets is its outcome. *)
Theorem RoundTrip_spec t req :
  let r := RoundTrip t req in
  let n := Z.to_nat (Z.max (MaxRetries t) 1) in
  exists k, (k < n)%nat /\ ex_attempts r = S k /\ length (ex_delays r) = k /\
    (forall j, (j < k)%nat -> exists d, ex_delays r !! j = Some d /\ goes_on t req (nth_wait (RetryDelay t) j) j d) /\
    ends_with t req (nth_wait (RetryDelay t) k) n k (ex_result r).
Proof. apply (round_trip_spec t req (Z.to_nat (Z.max (MaxRetries t) 1)) 0 (RetryDelay t) None). lia. Qed.

(** Only a 2xx response reaches the caller; whatever else the server answers
    becomes an error, and one that reports the status it answered unless its
    body could not be read. Bad requests, missing or refused credentials and,
    when they are not followed, redirects are never retried; a rate limit always
    may be. *)
Theorem attempt_status t req i resp (Hl : (if RateLimiter t then env_limiter i else None) = None)
    (Hx : env_exchange i (attempt_request t req) = Ok resp) :
  match attempt t req i with
  | Ok resp' => resp' = resp /\ 200 <= StatusCode resp < 300
  | Err (err, retry, after) =>
      ~ (200 <= StatusCode resp < 300) /\
      (snd (ResponseStatus err) = true -> fst (fst (ResponseStatus err)) = StatusCode resp) /\
      (snd (limited_body resp) = None -> close_err resp = None -> snd (ResponseStatus err) = true) /\
      (StatusCode resp ∈ [400; 401; 403] -> retry = false) /\
      (NoRedirect t = true -> 300 <= StatusCode resp < 400 -> retry = false) /\
      (StatusCode resp = 429 -> retry = true) /\
      (retry = false -> after = 0)
  end.
Proof.
  unfold attempt. rewrite Hl, Hx. cbv zeta. clear Hl Hx.
  destruct ((200 <=? StatusCode resp) && (StatusCode resp <? 300)) eqn:E2; [split; [done|lia]|].
  set (se := newStatusError resp (env_clock i)).
  assert (H1 : snd (ResponseStatus se) = true -> fst (fst (ResponseStatus se)) = StatusCode resp).
  { unfold se, newStatusError. destruct (limited_body resp) as [b [e|]]; [done|]. by destruct (close_err resp). }
  assert (H2 : snd (limited_body resp) = None -> close_err resp = None -> snd (ResponseStatus se) = true).
  { unfold se, newStatusError. destruct (limited_body resp) as [b e]. cbn [snd]. by intros -> ->. }
  clearbody se. revert H2. generalize (limited_body resp). intros body H2.
  assert (Hin : forall b, (StatusCode resp ∈ [400; 401; 403] -> b = false) <->
            (StatusCode resp = 400 \/ StatusCode resp = 401 \/ StatusCode resp = 403 -> b = false)).
  { intros b. by rewrite !elem_of_cons, elem_of_nil; naive_solver. }
  destruct (Z.eqb_spec (StatusCode resp) 429) as [E|N1].
  { split_and!; try done; try apply Hin; lia. }
  destruct ((StatusCode resp =? 401) || (StatusCode resp =? 403)) eqn:E1; [split_and!; try done; lia|].
  destruct (Z.eqb_spec (StatusCode resp) 400); [split_and!; try done; lia|].
  destruct (NoRedirect t && (StatusCode resp <? 400)) eqn:E3; split_and!; try done; try apply Hin; try lia.
Qed.
End transport.

(** A [Retry-After] of whole seconds is honoured exactly as long as it fits
    in a [Duration] (about 292 years), and is never negative there. *)
Theorem parseRetryAfter_seconds ParseTime n now (Hn : 0 < n <= 9223372036) :
  parseRetryAfter ParseTime (pretty n) now = n * Second.
Proof.
  unfold parseRetryAfter. destruct (big_String_spec n ltac:(lia)) as (H1 & H2 & H3). unfold big_String in *.
  rewrite TrimSpace_plain by by apply digits_plain. apply String.eqb_neq in H3. rewrite H3.
  unfold Atoi. pose proof (SetString10_String n) as E. unfold big_String in E. rewrite E.
  rewrite bool_decide_eq_true_2 by (unfold is_i64; lia). replace (n <=? 0) with false by lia.
  apply wrap_i64_small. unfold is_i64, Second. lia.
Qed.

(** Beyond that range the product wraps: about 584 years come out as less than a
    third of a second. *)
Lemma parseRetryAfter_wraps ParseTime now : parseRetryAfter ParseTime "18446744074" now = 290448384.
Proof. vm_compute. reflexivity. Qed.
