(* ===== verification/Ethereum.v ===== *)
(** * The interface of go-ethereum the sources rely on

    Addresses, hashes, signed transactions, receipts and authorizations are
    opaque: only the observations the sources make of them appear, as operations
    of the class [GoEthereum].  [GoEthereumLaws] holds the documented behaviour
    the theorems use.  Times are nanoseconds since Go's zero time and durations
    are nanoseconds. *)
From S2P Require Export RpcErrors.
Local Open Scope Z_scope.

Abbreviation Time := Z (only parsing).
Abbreviation Duration := Z (only parsing).

Definition time_zero : Time := 0.
Definition Nanosecond : Duration := 1.
Definition Second : Duration := 1000000000.
Definition Minute : Duration := 60 * Second.

Class GoEthereum := {
  Address : Type;
  Hash : Type;
  SignedTx : Type;             (* *types.Transaction, non-nil *)
  Receipt : Type;              (* *types.Receipt, non-nil *)
  Authorization : Type;        (* types.SetCodeAuthorization *)
  Address_eq_dec :: EqDecision Address;
  Hash_eq_dec :: EqDecision Hash;
  address_zero : Address;      (* common.Address{} *)
  Address_Hex : Address -> string;
  Hash_Hex : Hash -> string;
  geth_Hash : SignedTx -> Hash;
  geth_Nonce : SignedTx -> Z;
  geth_Type : SignedTx -> Z;
  geth_GasPrice : SignedTx -> Z;
  geth_GasTipCap : SignedTx -> Z;
  geth_GasFeeCap : SignedTx -> Z;
  geth_ChainId : SignedTx -> option Z;
  (* types.Sender(types.LatestSignerForChainID(chainID), tx) *)
  geth_Sender : option Z -> SignedTx -> result GoError Address;
  receipt_TxHash : Receipt -> Hash;
  receipt_Status : Receipt -> Z;
  (* uint256.MustFromBig of an integer that is not nil; [None] when it panics,
     which it does where 256 bits overflow *)
  MustFromBig : Z -> option Z;
}.

Class GoEthereumLaws (E : GoEthereum) : Prop := {
  Address_Hex_inj a b : Address_Hex a = Address_Hex b -> a = b;
  Address_Hex_len a : slen (Address_Hex a) = 42%nat;
  Hash_Hex_inj h k : Hash_Hex h = Hash_Hex k -> h = k;
  Hash_Hex_ascii h : sforall is_ascii7 (Hash_Hex h) = true;
  (* the 256 bits hold the magnitude, and a negative number in two's complement *)
  MustFromBig_wraps v : Z.abs v < 2 ^ 256 -> MustFromBig v = Some (v mod 2 ^ 256);
  MustFromBig_overflows v : 2 ^ 256 <= Z.abs v -> MustFromBig v = None;
}.

Definition ReceiptStatusFailed : Z := 0.
Definition ReceiptStatusSuccessful : Z := 1.

(** What the sources pass to [types.NewTx]. *)
Inductive TxData `{GoEthereum} :=
| SetCodeTx (To : Address) (Nonce GasTipCap GasFeeCap Gas : Z) (Data : list Byte.byte) (Value : Z)
    (AuthList : list Authorization)
| LegacyTx (To : Address) (Nonce : Z) (GasPrice : option Z) (Gas : Z) (Data : list Byte.byte) (Value : Z).

Definition txdata_nonce `{GoEthereum} (d : TxData) : Z :=
  match d with
  | SetCodeTx _ n _ _ _ _ _ _ => n
  | LegacyTx _ n _ _ _ _ => n
  end.

(** [*bind.TransactOpts], non-nil: the account and its signing function. *)
Record TransactOpts `{GoEthereum} := mkOpts {
  From : Address;
  Signer : Address -> TxData -> result GoError SignedTx;
}.
