(* ===== verification/Bytes.v ===== *)
(** * Bytes and hexadecimal

    Byte strings as lists of bytes: big-endian integers ([math/big]) and
    lower-case hexadecimal ([encoding/hex]). *)
From Stdlib Require Import Ascii Strings.Byte.
From S2P Require Export Errors.
Local Open Scope Z_scope.

Abbreviation bytes := (list Byte.byte) (only parsing).

#[export] Instance byte_eq_dec : EqDecision Byte.byte.
Proof. exact Byte.byte_eq_dec. Defined.

Definition byte_int (b : Byte.byte) : Z := Z.of_N (Byte.to_N b).

(** ** Big-endian bytes *)

(** [new(big.Int).SetBytes(b)] *)
Definition SetBytes (b : bytes) : Z := fold_left (fun acc c => acc * 256 + byte_int c) b 0.

Definition byte_of (z : Z) : Byte.byte := match Byte.of_N (Z.to_N (z mod 256)) with Some b => b | None => x00 end.

Fixpoint big_bytes (fuel : nat) (z : Z) (acc : bytes) : bytes :=
  match fuel with
  | O => acc
  | S fuel => if z =? 0 then acc else big_bytes fuel (z / 256) (byte_of z :: acc)
  end.

(** [z.Bytes()]: the absolute value, without leading zeros. *)
Definition Bytes (z : Z) : bytes := big_bytes (S (Z.to_nat (Z.log2 (Z.abs z)))) (Z.abs z) [].

(** [hex.EncodeToString] *)
Definition hex_digit (n : Z) : Ascii.ascii := ascii_of_N (Z.to_N (if n <? 10 then 48 + n else 87 + n)).
Fixpoint EncodeToString (b : bytes) : string :=
  match b with
  | [] => ""
  | c :: rest => String (hex_digit (byte_int c / 16)) (String (hex_digit (byte_int c mod 16)) (EncodeToString rest))
  end.

(** ** Byte lemmas *)

Lemma SetBytes_from acc b : fold_left (fun acc c => acc * 256 + byte_int c) b acc = acc * 256 ^ Z.of_nat (length b) + SetBytes b.
Proof.
  unfold SetBytes. revert acc. induction b as [|c b IH]; intros acc; [simpl; lia|]. cbn [fold_left length].
  rewrite (IH (acc * 256 + _)), (IH (0 * 256 + _)), Nat2Z.inj_succ, Z.pow_succ_r by lia. lia.
Qed.

Lemma SetBytes_cons c b : SetBytes (c :: b) = byte_int c * 256 ^ Z.of_nat (length b) + SetBytes b.
Proof. unfold SetBytes at 1. cbn [fold_left]. rewrite SetBytes_from. lia. Qed.

Lemma SetBytes_app a b : SetBytes (a ++ b) = SetBytes a * 256 ^ Z.of_nat (length b) + SetBytes b.
Proof. unfold SetBytes at 1. rewrite fold_left_app. apply SetBytes_from. Qed.

Lemma byte_int_bounds c : 0 <= byte_int c < 256.
Proof. unfold byte_int. pose proof (Byte.to_N_bounded c). lia. Qed.

Lemma SetBytes_bounds b : 0 <= SetBytes b < 256 ^ Z.of_nat (length b).
Proof.
  induction b as [|c b IH]; [by vm_compute|]. rewrite SetBytes_cons. cbn [length].
  rewrite Nat2Z.inj_succ, Z.pow_succ_r by lia. pose proof (byte_int_bounds c). nia.
Qed.

Lemma byte_of_spec z : byte_int (byte_of z) = z mod 256.
Proof.
  unfold byte_of. pose proof (Z.mod_pos_bound z 256 ltac:(lia)). destruct (Byte.of_N (Z.to_N (z mod 256))) as [b|] eqn:E.
  - apply Byte.to_of_N in E. unfold byte_int. lia.
  - apply Byte.of_N_None_iff in E. lia.
Qed.

Lemma big_bytes_spec fuel z acc : 0 <= z < 2 ^ Z.of_nat fuel ->
  SetBytes (big_bytes fuel z acc) = z * 256 ^ Z.of_nat (length acc) + SetBytes acc.
Proof.
  revert z acc. induction fuel as [|fuel IH]; intros z acc Hz; cbn [big_bytes].
  - simpl in Hz. replace z with 0 by lia. lia.
  - destruct (Z.eqb_spec z 0) as [->|Hn]; [lia|]. rewrite Nat2Z.inj_succ, Z.pow_succ_r in Hz by lia.
    rewrite IH by (split; [apply Z.div_pos; lia|apply Z.div_lt_upper_bound; lia]).
    rewrite SetBytes_cons, byte_of_spec. cbn [length]. rewrite Nat2Z.inj_succ, Z.pow_succ_r by lia.
    pose proof (Z.div_mod z 256 ltac:(lia)). nia.
Qed.

Lemma SetBytes_Bytes z : 0 <= z -> SetBytes (Bytes z) = z.
Proof.
  intros Hz. unfold Bytes. rewrite Z.abs_eq by done. rewrite big_bytes_spec; [simpl; unfold SetBytes; simpl; lia|].
  split; [done|]. destruct (decide (z = 0)) as [->|]; [done|]. rewrite Nat2Z.inj_succ, Z2Nat.id by apply Z.log2_nonneg.
  apply Z.log2_spec. lia.
Qed.

Lemma SetBytes_zeros n : SetBytes (replicate n x00) = 0.
Proof. induction n; [done|]. cbn [replicate]. rewrite SetBytes_cons. change (byte_int x00) with 0. lia. Qed.

(** The eight bytes of a 64-bit integer, the most significant first. *)
Lemma SetBytes_64 z : 0 <= z < 2 ^ 64 ->
  SetBytes (map byte_of [Z.shiftr z 56; Z.shiftr z 48; Z.shiftr z 40; Z.shiftr z 32; Z.shiftr z 24; Z.shiftr z 16; Z.shiftr z 8; z]) = z.
Proof.
  intros Hz. unfold SetBytes. cbn [map fold_left]. rewrite !byte_of_spec, !Z.shiftr_div_pow2 by lia.
  change (2 ^ 8) with 256. change (2 ^ 16) with (256 * 256). change (2 ^ 24) with (256 * 256 * 256).
  change (2 ^ 32) with (256 * 256 * 256 * 256). change (2 ^ 40) with (256 * 256 * 256 * 256 * 256).
  change (2 ^ 48) with (256 * 256 * 256 * 256 * 256 * 256). change (2 ^ 56) with (256 * 256 * 256 * 256 * 256 * 256 * 256).
  rewrite <- !Z.div_div by lia. change (2 ^ 64) with 18446744073709551616 in Hz.
  Z.to_euclidean_division_equations. lia.
Qed.

Lemma byte_int_inj c d : byte_int c = byte_int d -> c = d.
Proof.
  unfold byte_int. intros E%N2Z.inj. pose proof (Byte.of_to_N c) as H. rewrite E, Byte.of_to_N in H. congruence.
Qed.

(** Byte strings of one length are told apart by their value. *)
Lemma SetBytes_inj a b : length a = length b -> SetBytes a = SetBytes b -> a = b.
Proof.
  revert b. induction a as [|c a IH]; intros [|d b] Hl E; [done..|]. injection Hl as Hl. rewrite !SetBytes_cons, Hl in E.
  pose proof (SetBytes_bounds a) as Ba. pose proof (SetBytes_bounds b) as Bb. rewrite Hl in Ba.
  set (m := 256 ^ Z.of_nat (length b)) in *.
  assert (byte_int c = byte_int d) as Ec%byte_int_inj by nia. subst d. f_equal. apply IH; [done|lia].
Qed.

Lemma hex_digit_inj a b : 0 <= a < 16 -> 0 <= b < 16 -> hex_digit a = hex_digit b -> a = b.
Proof.
  intros Ha Hb E. unfold hex_digit in E. apply (f_equal N_of_ascii) in E.
  rewrite !N_ascii_embedding in E by (repeat case_match; lia). repeat case_match; lia.
Qed.

Lemma EncodeToString_inj a b : EncodeToString a = EncodeToString b -> a = b.
Proof.
  revert b. induction a as [|c a IH]; intros [|d b]; cbn [EncodeToString]; [done|done|done|].
  intros E. injection E as E1 E2 E3. f_equal; [|by apply IH].
  pose proof (byte_int_bounds c). pose proof (byte_int_bounds d).
  apply hex_digit_inj in E1; [|split; [apply Z.div_pos; lia|apply Z.div_lt_upper_bound; lia]..].
  apply hex_digit_inj in E2; [|apply Z.mod_pos_bound; lia..].
  assert (byte_int c = byte_int d) as Ecd.
  { pose proof (Z.div_mod (byte_int c) 16 ltac:(lia)). pose proof (Z.div_mod (byte_int d) 16 ltac:(lia)). lia. }
  by apply byte_int_inj.
Qed.

(** ** Hexadecimal input *)

(** [encoding/hex]: the value of a digit of either case. *)
Definition hex_value (c : Ascii.ascii) : option Z :=
  let n := Z.of_N (N_of_ascii c) in
  if (48 <=? n) && (n <=? 57) then Some (n - 48)
  else if (97 <=? n) && (n <=? 102) then Some (n - 87)
  else if (65 <=? n) && (n <=? 70) then Some (n - 55)
  else None.

(** [hex.DecodeString], on its success. *)
Fixpoint DecodeString (s : string) : option bytes :=
  match s with
  | "" => Some []
  | String a (String b rest) =>
      x ← hex_value a; y ← hex_value b; out ← DecodeString rest; Some (byte_of (16 * x + y) :: out)
  | String _ "" => None
  end.

Lemma hex_value_digit n : 0 <= n < 16 -> hex_value (hex_digit n) = Some n.
Proof.
  intros Hn. assert (Hall : forallb (fun k => bool_decide (hex_value (hex_digit (Z.of_nat k)) = Some (Z.of_nat k))) (seq 0 16) = true)
    by (vm_compute; reflexivity).
  rewrite forallb_forall in Hall. specialize (Hall (Z.to_nat n)). rewrite Z2Nat.id in Hall by lia.
  eapply bool_decide_eq_true_1, Hall, in_seq. lia.
Qed.

Lemma byte_of_int c : byte_of (byte_int c) = c.
Proof.
  unfold byte_of, byte_int. rewrite Z.mod_small by (pose proof (Byte.to_N_bounded c); lia).
  by rewrite N2Z.id, Byte.of_to_N.
Qed.

Lemma DecodeString_EncodeToString b : DecodeString (EncodeToString b) = Some b.
Proof.
  induction b as [|c b IH]; [done|]. cbn [EncodeToString DecodeString]. pose proof (byte_int_bounds c).
  rewrite !hex_value_digit by (first [split; [apply Z.div_pos; lia|apply Z.div_lt_upper_bound; lia] | apply Z.mod_pos_bound; lia]).
  cbn [mbind option_bind]. rewrite IH. cbn [mbind option_bind]. do 2 f_equal.
  rewrite <- Z.div_mod by lia. apply byte_of_int.
Qed.

Lemma slen_EncodeToString b : slen (EncodeToString b) = (2 * length b)%nat.
Proof. induction b as [|c b IH]; [done|]. cbn [EncodeToString slen length]. rewrite IH. lia. Qed.

(** [common.IsHexAddress] of go-ethereum. *)
Class HexAddress := { IsHexAddress : string -> bool }.
