(* ===== verification/Base64.v ===== *)
(** * Base64, URL alphabet (encoding/base64)

    The padded and the raw encoding, decoding as the standard library does it
    (line breaks skipped, unused trailing bits ignored), and the round trip. *)
From Stdlib Require Import Ascii Strings.Byte.
From S2P Require Export Bytes.
Local Open Scope Z_scope.

(** ** Digits *)

Definition b64_digit (n : Z) : Ascii.ascii :=
  ascii_of_N (Z.to_N (if n <? 26 then 65 + n else if n <? 52 then 71 + n else if n <? 62 then n - 4 else if n =? 62 then 45 else 95)).

Definition b64_value (c : Ascii.ascii) : option Z :=
  let n := Z.of_N (byte_N c) in
  if byte_in 65 90 c then Some (n - 65) else if byte_in 97 122 c then Some (n - 71)
  else if byte_in 48 57 c then Some (n + 4) else if byte_in 45 45 c then Some 62 else if byte_in 95 95 c then Some 63 else None.

Lemma b64_value_digit n : 0 <= n < 64 -> b64_value (b64_digit n) = Some n.
Proof.
  intros H. assert (Hall : forallb (fun k => bool_decide (b64_value (b64_digit (Z.of_nat k)) = Some (Z.of_nat k))) (seq 0 64) = true) by (vm_compute; reflexivity).
  rewrite forallb_forall in Hall. specialize (Hall (Z.to_nat n)). rewrite Z2Nat.id in Hall by lia.
  apply bool_decide_eq_true in Hall; [done|]. apply in_seq. lia.
Qed.

(** A digit is neither padding nor a line break. *)
Definition b64_plain (c : Ascii.ascii) : bool := negb (Ascii.eqb c "="%char) && negb (byte_in 10 10 c) && negb (byte_in 13 13 c).

Lemma b64_value_plain c n : b64_value c = Some n -> b64_plain c = true.
Proof. destruct c as [[] [] [] [] [] [] [] []]; vm_compute; congruence. Qed.

(** ** Encoding *)

Definition group (a b c : Byte.byte) : Z := byte_int a * 65536 + byte_int b * 256 + byte_int c.
Definition sextet (i : Z) (n : Z) : Ascii.ascii := b64_digit (n / 2 ^ (18 - 6 * i) mod 64).

(** [EncodeToString] of [base64.URLEncoding], and of [RawURLEncoding]. *)
Fixpoint b64_encode (padded : bool) (data : bytes) : string :=
  match data with
  | [] => ""
  | [a] => let n := group a x00 x00 in String (sextet 0 n) (String (sextet 1 n) (if padded then "==" else ""))
  | [a; b] => let n := group a b x00 in String (sextet 0 n) (String (sextet 1 n) (String (sextet 2 n) (if padded then "=" else "")))
  | a :: b :: c :: rest =>
      let n := group a b c in
      String (sextet 0 n) (String (sextet 1 n) (String (sextet 2 n) (String (sextet 3 n) (b64_encode padded rest))))
  end.

(** ** Decoding *)

Fixpoint skip_breaks (s : string) : string :=
  match s with "" => "" | String c s => if byte_in 10 10 c || byte_in 13 13 c then skip_breaks s else String c (skip_breaks s) end.

Definition two (a b : Z) : bytes := [byte_of ((a * 64 + b) / 16)].
Definition three (a b c : Z) : bytes := let n := (a * 64 + b) * 64 + c in [byte_of (n / 1024); byte_of (n / 4)].
Definition four (a b c d : Z) : bytes :=
  let n := ((a * 64 + b) * 64 + c) * 64 + d in [byte_of (n / 65536); byte_of (n / 256); byte_of n].

Fixpoint decode_groups (padded : bool) (s : string) : option bytes :=
  match s with
  | "" => Some []
  | String c0 (String c1 s2) =>
      a ← b64_value c0; b ← b64_value c1;
      match s2 with
      | "" => if padded then None else Some (two a b)
      | String c2 s3 =>
          match b64_value c2 with
          | None => if padded && Ascii.eqb c2 "="%char && String.eqb s3 "=" then Some (two a b) else None
          | Some c =>
              match s3 with
              | "" => if padded then None else Some (three a b c)
              | String c3 s4 =>
                  match b64_value c3 with
                  | None => if padded && Ascii.eqb c3 "="%char && String.eqb s4 "" then Some (three a b c) else None
                  | Some d => rest ← decode_groups padded s4; Some (four a b c d ++ rest)
                  end
              end
          end
      end
  | String _ "" => None
  end.

(** [DecodeString] *)
Definition b64_decode (padded : bool) (s : string) : option bytes := decode_groups padded (skip_breaks s).

(** ** The round trip *)

Lemma sextet_value i n : b64_value (sextet i n) = Some (n / 2 ^ (18 - 6 * i) mod 64).
Proof. apply b64_value_digit. apply Z.mod_pos_bound. lia. Qed.

Lemma byte_of_eq z c : z mod 256 = byte_int c -> byte_of z = c.
Proof. intros H. rewrite <- (byte_of_int c). unfold byte_of. rewrite H. by rewrite (Z.mod_small _ _ (byte_int_bounds c)). Qed.

Ltac sextets := rewrite !sextet_value; cbn [mbind option_bind];
  change (b64_value "="%char) with (@None Z);
  change (true && Ascii.eqb "=" "=" && String.eqb "=" "=") with true;
  change (true && Ascii.eqb "=" "=" && String.eqb "" "") with true; cbv iota beta;
  change (2 ^ (18 - 6 * 0)) with 262144; change (2 ^ (18 - 6 * 1)) with 4096;
  change (2 ^ (18 - 6 * 2)) with 64; change (2 ^ (18 - 6 * 3)) with 1; unfold group.

Ltac bytes_bounds := repeat match goal with c : Byte.byte |- _ =>
    lazymatch goal with H : 0 <= byte_int c < 256 |- _ => fail | _ => pose proof (byte_int_bounds c) end end.

Lemma skip_breaks_plain s : sforall (fun c => negb (byte_in 10 10 c) && negb (byte_in 13 13 c)) s = true -> skip_breaks s = s.
Proof.
  induction s as [|c s IH]; [done|]. cbn [sforall skip_breaks]. intros [[H1 H2]%andb_true_iff H]%andb_true_iff.
  apply negb_true_iff in H1, H2. rewrite H1, H2. cbn [orb]. by rewrite IH.
Qed.

Lemma sextet_no_break i n : negb (byte_in 10 10 (sextet i n)) && negb (byte_in 13 13 (sextet i n)) = true.
Proof.
  pose proof (b64_value_plain _ _ (sextet_value i n)) as H. unfold b64_plain in H. utf8_split. by apply andb_true_iff.
Qed.

(** Three bytes at a time. *)
Lemma bytes_ind3 (P : bytes -> Prop) : P [] -> (forall a, P [a]) -> (forall a b, P [a; b]) ->
  (forall a b c l, P l -> P (a :: b :: c :: l)) -> forall l, P l.
Proof.
  intros H0 H1 H2 H3. assert (H : forall n l, (length l <= n)%nat -> P l).
  { induction n as [|n IH]; intros [|a [|b [|c l]]]; cbn [length]; intros Hn; auto; try lia. apply H3, IH. lia. }
  intros l. by apply (H (length l)).
Qed.

Lemma encode_no_breaks padded data : skip_breaks (b64_encode padded data) = b64_encode padded data.
Proof.
  apply skip_breaks_plain. induction data as [|a|a b|a b c l IH] using bytes_ind3; [done|..]; cbn [b64_encode sforall];
    rewrite !sextet_no_break; [by destruct padded..|]. exact IH.
Qed.

Theorem b64_decode_encode padded data : b64_decode padded (b64_encode padded data) = Some data.
Proof.
  unfold b64_decode. rewrite encode_no_breaks.
  induction data as [|a|a b|a b c l IH] using bytes_ind3; [done|..]; cbn [b64_encode].
  - destruct padded; cbn [decode_groups]; sextets.
    all: (f_equal; unfold two; f_equal; apply byte_of_eq; bytes_bounds; change (byte_int x00) with 0 in *; Z.div_mod_to_equations; lia).
  - destruct padded; cbn [decode_groups]; sextets.
    all: f_equal; unfold three; repeat f_equal; apply byte_of_eq; bytes_bounds; change (byte_int x00) with 0 in *; Z.div_mod_to_equations; lia.
  - cbn [decode_groups]. sextets. rewrite IH. cbn [mbind option_bind]. unfold four. cbn [app].
    bytes_bounds. f_equal. f_equal; [apply byte_of_eq; Z.div_mod_to_equations; lia|f_equal; [apply byte_of_eq; Z.div_mod_to_equations; lia|f_equal; apply byte_of_eq; Z.div_mod_to_equations; lia]].
Qed.
