(* ===== verification/Sha256.v ===== *)
(** * SHA-256 and HMAC (crypto/sha256, crypto/hmac)

    The hash of FIPS 180-4 over 32-bit words, and the keyed hash of RFC 2104,
    both executable, with published test vectors. *)
From Stdlib Require Import Ascii Strings.Byte.
From S2P Require Export Bytes.
Local Open Scope Z_scope.

Definition word (z : Z) : Z := z mod 2 ^ 32.
Definition rotr (n x : Z) : Z := Z.lor (Z.shiftr x n) (word (Z.shiftl x (32 - n))).
Definition not32 (x : Z) : Z := 2 ^ 32 - 1 - x.

(** The constants of the standard, as it defines them: the first 32 bits of the
    fractional parts of the cube roots of the first 64 primes, and of the square
    roots of the first eight. *)
Definition is_prime (n : nat) : bool := forallb (fun d => negb (n mod d =? 0)%nat) (seq 2 (n - 2)).
Definition primes : list Z := Z.of_nat <$> List.filter is_prime (seq 2 310).

Fixpoint cube_root (bits : nat) (r n : Z) : Z :=
  match bits with
  | O => r
  | S bits => let t := r + 2 ^ Z.of_nat bits in cube_root bits (if t ^ 3 <=? n then t else r) n
  end.
Definition cube_fraction (p : Z) : Z := word (cube_root 40 0 (p * 2 ^ 96)).
Definition square_fraction (p : Z) : Z := word (Z.sqrt (p * 2 ^ 64)).

Definition K256 : list Z := Eval vm_compute in cube_fraction <$> primes.

(** The eight working variables. *)
Record state256 := mkState { sa : Z; sb : Z; sc : Z; sd : Z; se : Z; sf : Z; sg : Z; sh : Z }.
Definition H256 : state256 := Eval vm_compute in
  mkState (square_fraction 2) (square_fraction 3) (square_fraction 5) (square_fraction 7)
    (square_fraction 11) (square_fraction 13) (square_fraction 17) (square_fraction 19).

Definition xor3 (x y z : Z) : Z := Z.lxor x (Z.lxor y z).
Definition big_sigma0 (x : Z) : Z := xor3 (rotr 2 x) (rotr 13 x) (rotr 22 x).
Definition big_sigma1 (x : Z) : Z := xor3 (rotr 6 x) (rotr 11 x) (rotr 25 x).
Definition sigma0 (x : Z) : Z := xor3 (rotr 7 x) (rotr 18 x) (Z.shiftr x 3).
Definition sigma1 (x : Z) : Z := xor3 (rotr 17 x) (rotr 19 x) (Z.shiftr x 10).
Definition choice (x y z : Z) : Z := Z.lxor (Z.land x y) (Z.land (not32 x) z).
Definition majority (x y z : Z) : Z := xor3 (Z.land x y) (Z.land x z) (Z.land y z).

(** The message schedule: sixteen words, then each from four before it. The
    window is the last sixteen, oldest first. *)
Fixpoint schedule (fuel : nat) (window : list Z) : list Z :=
  match fuel with
  | O => []
  | S fuel =>
      let at_ i := nth i window 0 in
      let next := word (sigma1 (at_ 14%nat) + at_ 9%nat + sigma0 (at_ 1%nat) + at_ 0%nat) in
      at_ 0%nat :: schedule fuel (drop 1 window ++ [next])
  end.

Definition round (s : state256) (kw : Z * Z) : state256 :=
  let t1 := sh s + big_sigma1 (se s) + choice (se s) (sf s) (sg s) + kw.1 + kw.2 in
  let t2 := big_sigma0 (sa s) + majority (sa s) (sb s) (sc s) in
  mkState (word (t1 + t2)) (sa s) (sb s) (sc s) (word (sd s + t1)) (se s) (sf s) (sg s).

Definition add_state (s t : state256) : state256 :=
  mkState (word (sa s + sa t)) (word (sb s + sb t)) (word (sc s + sc t)) (word (sd s + sd t))
          (word (se s + se t)) (word (sf s + sf t)) (word (sg s + sg t)) (word (sh s + sh t)).

Definition block (s : state256) (words : list Z) : state256 :=
  add_state s (foldl round s (zip K256 (schedule 64 words))).

(** The bytes of an integer, most significant first, to a width. *)
Definition be_bytes (width : nat) (z : Z) : bytes :=
  map (fun i => byte_of (Z.shiftr z (8 * Z.of_nat (width - 1 - i)))) (seq 0 width).

(** Chunks of [n] elements. *)
Fixpoint groups {A} (fuel n : nat) (l : list A) : list (list A) :=
  match fuel, l with
  | S fuel, _ :: _ => take n l :: groups fuel n (drop n l)
  | _, _ => []
  end.

Definition pad_message (m : bytes) : bytes :=
  let len := length m in
  m ++ [x80] ++ replicate ((119 - len mod 64) mod 64) x00 ++ be_bytes 8 (8 * Z.of_nat len).

Definition sha256 (m : bytes) : bytes :=
  let p := pad_message m in
  let blocks := groups (length p) 64 p in
  let s := foldl (fun s b => block s (map SetBytes (groups 16 4 b))) H256 blocks in
  concat (map (be_bytes 4) [sa s; sb s; sc s; sd s; se s; sf s; sg s; sh s]).

(** [hmac.New(sha256.New, key)], written once, and its sum. *)
Definition xor_byte (n : Z) (b : Byte.byte) : Byte.byte := byte_of (Z.lxor n (byte_int b)).
Definition hmac_sha256 (key message : bytes) : bytes :=
  let key := if (64 <? length key)%nat then sha256 key else key in
  let key := key ++ replicate (64 - length key) x00 in
  sha256 (map (xor_byte 0x5c) key ++ sha256 (map (xor_byte 0x36) key ++ message)).

Definition bytes_of (s : string) : bytes := String.list_byte_of_string s.

Example sha256_abc : EncodeToString (sha256 (bytes_of "abc")) = "ba7816bf8f01cfea414140de5dae2223b00361a396177a9cb410ff61f20015ad".
Proof. vm_compute. reflexivity. Qed.

(** RFC 4231, test case 2. *)
Example hmac_jefe : EncodeToString (hmac_sha256 (bytes_of "Jefe") (bytes_of "what do ya want for nothing?")) =
  "5bdcc146bf60754e6a042426089575c75a003f089d2739839dec58b964ec3843".
Proof. vm_compute. reflexivity. Qed.

Lemma length_be_bytes width z : length (be_bytes width z) = width.
Proof. unfold be_bytes. by rewrite length_map, length_seq. Qed.

Lemma length_sha256 m : length (sha256 m) = 32%nat.
Proof. unfold sha256. cbv zeta. cbn [map concat]. by rewrite !length_app, !length_be_bytes. Qed.
