(* ===== verification/AddressText.v ===== *)
(** * Address text (utils/address)

    EVM addresses as map keys: trimmed, in lower case, with their prefix. *)
From Stdlib Require Import Ascii.
From S2P Require Export Decimal Filter Bytes.
Local Open Scope Z_scope.

Definition is_hex_digit (c : Ascii.ascii) : bool := match hex_value c with Some _ => true | None => false end.
Definition hex_digits40 (s : string) : bool := (slen s =? 40)%nat && sforall is_hex_digit s.

(** Forty digits, after a prefix or without one. *)
Class HexAddressLaws `{HexAddress} : Prop := {
  IsHexAddress_spec s :
    IsHexAddress s = hex_digits40 (if HasPrefix s "0x" || HasPrefix s "0X" then sdrop 2 s else s);
}.

Definition lower_case (c : Ascii.ascii) : bool := negb (byte_in 65 90 c).

(** Lower-case text has no upper-case letter. *)
Class LowerLaws `{UnicodeTables} : Prop := { unicode_ToLower_lower s : sforall lower_case (unicode_ToLower s) = true }.

Section address.
Context `{U : UnicodeTables} `{HA : HexAddress}.

Definition Normalize (raw : string) : string :=
  let addr := ToLower (TrimSpace raw) in
  let addr := if (slen addr =? 40)%nat && negb (HasPrefix addr "0x") then "0x" +:+ addr else addr in
  if negb (IsHexAddress addr) then "" else addr.

(** The loop of [NormalizeAll]: [seen] holds what was kept. *)
Fixpoint normalize_loop (seen : gset string) (raw : list string) : list string :=
  match raw with
  | [] => []
  | r :: raw =>
      let addr := Normalize r in
      if String.eqb addr "" then normalize_loop seen raw
      else if bool_decide (addr ∈ seen) then normalize_loop seen raw
      else addr :: normalize_loop ({[addr]} ∪ seen) raw
  end.
Definition NormalizeAll (raw : list string) : list string := normalize_loop ∅ raw.

Definition Equal (a b : string) : bool :=
  let na := Normalize a in negb (String.eqb na "") && String.eqb na (Normalize b).

(** ** What normalization gives *)

Context {HL : HexAddressLaws} {LL : LowerLaws}.

(** The one spelling of an address. *)
Definition canonical (s : string) : bool := HasPrefix s "0x" && hex_digits40 (sdrop 2 s) && sforall lower_case s.

Lemma ToLower_lower s : sforall lower_case (ToLower s) = true.
Proof.
  unfold ToLower. destruct (sforall is_ascii7 s); [|apply unicode_ToLower_lower]. induction s as [|c s IH]; [done|].
  cbn [map_string sforall]. rewrite IH, andb_true_r. by destruct c as [[] [] [] [] [] [] [] []].
Qed.

Lemma HasPrefix_app p t : HasPrefix (p +:+ t) p = true.
Proof. apply HasPrefix_spec. by exists t. Qed.

Lemma Normalize_canonical raw : Normalize raw = "" \/ canonical (Normalize raw) = true.
Proof.
  unfold Normalize. cbv zeta. pose proof (ToLower_lower (TrimSpace raw)) as Hl. set (addr := ToLower (TrimSpace raw)) in *.
  rewrite IsHexAddress_spec. destruct ((slen addr =? 40)%nat && negb (HasPrefix addr "0x")) eqn:E.
  - rewrite HasPrefix_app. cbn [orb]. change (sdrop 2 ("0x" +:+ addr)) with addr.
    destruct (hex_digits40 addr) eqn:Eh; cbn [negb]; [right|by left]. unfold canonical. rewrite HasPrefix_app.
    change (sdrop 2 ("0x" +:+ addr)) with addr. by rewrite Eh, sforall_app, Hl.
  - assert (HX : HasPrefix addr "0X" = false).
    { destruct (HasPrefix addr "0X") eqn:Ex; [|done]. apply HasPrefix_spec in Ex as [t Ex]. rewrite Ex, sforall_app in Hl. done. }
    rewrite HX, orb_false_r. destruct (HasPrefix addr "0x") eqn:Ep.
    + destruct (hex_digits40 (sdrop 2 addr)) eqn:Eh; cbn [negb]; [right|by left]. unfold canonical. by rewrite Ep, Eh, Hl.
    + destruct (hex_digits40 addr) eqn:Eh; [|by left]. unfold hex_digits40 in Eh. apply andb_true_iff in Eh as [Eh _].
      rewrite Eh in E. done.
Qed.

Lemma map_lower_id s : sforall lower_case s = true -> map_string ascii_lower s = s.
Proof.
  induction s as [|c s IH]; [done|]. cbn [sforall map_string]. intros [Hc Hs]%andb_true_iff. rewrite IH by done. f_equal.
  unfold lower_case in Hc. apply negb_true_iff in Hc. unfold ascii_lower. by rewrite Hc.
Qed.

Lemma hex_digit_plain c : is_hex_digit c = true -> plain c = true /\ is_ascii7 c = true.
Proof. destruct c as [[] [] [] [] [] [] [] []]; vm_compute; done. Qed.

(** A canonical address is its own normal form. *)
Lemma Normalize_id s : canonical s = true -> Normalize s = s.
Proof.
  intros Hc. pose proof Hc as [[Hp Hh]%andb_true_iff Hl]%andb_true_iff. apply HasPrefix_spec in Hp as [t ->].
  change (sdrop 2 ("0x" +:+ t)) with t in Hh. apply andb_true_iff in Hh as [Hlen Hhex]. apply Nat.eqb_eq in Hlen.
  assert (Hplain : sforall plain ("0x" +:+ t) = true).
  { rewrite sforall_app. cbn. eapply sforall_impl; [|exact Hhex]. intros c H. by apply hex_digit_plain. }
  assert (Hascii : sforall is_ascii7 ("0x" +:+ t) = true).
  { rewrite sforall_app. cbn. eapply sforall_impl; [|exact Hhex]. intros c H. by apply hex_digit_plain. }
  assert (Hlower : ToLower (TrimSpace ("0x" +:+ t)) = "0x" +:+ t).
  { rewrite TrimSpace_plain by done. unfold ToLower. rewrite Hascii. by apply map_lower_id. }
  unfold Normalize. cbv zeta. rewrite Hlower, HasPrefix_app, andb_false_r, IsHexAddress_spec, HasPrefix_app. cbn [orb].
  change (sdrop 2 ("0x" +:+ t)) with t. unfold hex_digits40. by rewrite Hlen, Nat.eqb_refl, Hhex.
Qed.

Lemma Normalize_idem raw : Normalize (Normalize raw) = Normalize raw.
Proof.
  destruct (Normalize_canonical raw) as [->|H]; [|by apply Normalize_id].
  unfold Normalize. cbv zeta. change (TrimSpace "") with "". change (ToLower "") with "". cbn [Nat.eqb slen andb]. by rewrite IsHexAddress_spec.
Qed.

(** ** Lists of addresses *)

Definition nonempty (s : string) : bool := negb (String.eqb s "").

Lemma normalize_loop_unique (kept : list string) seen raw : (forall x, x ∈ seen <-> x ∈ kept) ->
  normalize_loop seen raw = unique_loop kept (List.filter nonempty (map Normalize raw)).
Proof.
  revert kept seen. induction raw as [|r raw IH]; intros kept seen H; [done|]. cbn [normalize_loop map List.filter]. unfold nonempty at 1.
  destruct (String.eqb_spec (Normalize r) "") as [_|_]; cbn [negb]; [by apply IH|]. cbn [unique_loop].
  rewrite (bool_decide_ext _ _ (H (Normalize r))). case_bool_decide as Hk; [by apply IH|]. f_equal. apply IH. intros x.
  rewrite elem_of_union, elem_of_singleton, elem_of_cons, H. done.
Qed.

(** A list of distinct canonical addresses is kept. *)
Lemma normalize_loop_id seen l : NoDup l -> (forall a, a ∈ l -> canonical a = true /\ a ∉ seen) -> normalize_loop seen l = l.
Proof.
  revert seen. induction l as [|a l IH]; intros seen N Hl; [done|]. apply NoDup_cons in N as [Ha N]. cbn [normalize_loop].
  destruct (Hl a) as [Hc Hs]; [left|]. rewrite (Normalize_id a Hc). destruct (String.eqb_spec a "") as [->|_]; [done|].
  rewrite bool_decide_eq_false_2 by done. f_equal. apply IH; [done|]. intros b Hb. split; [by apply Hl; right|].
  rewrite elem_of_union, elem_of_singleton. intros [->|Hx]; [done|]. by apply (Hl b); [right|].
Qed.

(** Normalizing a list keeps each valid address once, in its one spelling, where it first occurs; doing so again changes
    nothing.  Two texts are equal exactly when they are the same valid address. *)
Theorem NormalizeAll_canonical raw :
  NormalizeAll raw = Unique (List.filter nonempty (map Normalize raw)) /\
  Forall (fun a => canonical a = true) (NormalizeAll raw) /\ NoDup (NormalizeAll raw) /\
  (forall a, a ∈ NormalizeAll raw <-> canonical a = true /\ exists r, r ∈ raw /\ Normalize r = a) /\
  NormalizeAll (NormalizeAll raw) = NormalizeAll raw /\
  (forall a b, Equal a b = true <-> canonical (Normalize a) = true /\ Normalize a = Normalize b).
Proof.
  assert (E : forall l, NormalizeAll l = Unique (List.filter nonempty (map Normalize l))).
  { intros l. apply normalize_loop_unique. intros x. set_solver. }
  assert (Hin : forall l a, a ∈ NormalizeAll l <-> canonical a = true /\ exists r, r ∈ l /\ Normalize r = a).
  { intros l a. destruct (Unique_spec (List.filter nonempty (map Normalize l))) as (_ & H & _).
    rewrite E, H, list_elem_of_In, filter_In, in_map_iff. setoid_rewrite <- list_elem_of_In. unfold nonempty. split.
    - intros [(r & <- & Hr) Hne]. split; [|by exists r]. destruct (Normalize_canonical r) as [Hn|]; [by rewrite Hn in Hne|done].
    - intros [Hc (r & Hr & <-)]. split; [by exists r|]. destruct (String.eqb_spec (Normalize r) "") as [Hn|]; [by rewrite Hn in Hc|done]. }
  assert (Hnd : forall l, NoDup (NormalizeAll l)) by (intros l; rewrite E; apply Unique_spec).
  split; [apply E|]. split; [apply Forall_forall; intros a Ha; by apply Hin in Ha as [? _]|]. split; [apply Hnd|]. split; [apply Hin|]. split.
  - apply normalize_loop_id; [apply Hnd|]. intros a Ha. apply Hin in Ha as [Hc _]. split; [|set_solver]. exact Hc.
  - intros a b. unfold Equal. destruct (Normalize_canonical a) as [Hn|Hn].
    + rewrite Hn. split; [done|]. by intros [? _].
    + split; [by intros [_ Hab%String.eqb_eq]%andb_true_iff|]. intros [_ <-]. rewrite String.eqb_refl, andb_true_r.
      destruct (String.eqb_spec (Normalize a) "") as [Hb|]; [by rewrite Hb in Hn|done].
Qed.
End address.
