(* ===== verification/Abi.v ===== *)
(** * The ABI codec and the hash function of go-ethereum

    [abi.Arguments.Pack] and [Unpack], the byte conversions of package [common]
    and Keccak-256, as the sources call them.  A decoded [any] is a tagged value. *)
From Stdlib Require Import Ascii Strings.Byte.
From S2P Require Export Ethereum Bytes.
Local Open Scope Z_scope.
Local Open Scope go_scope.

Inductive AbiType :=
| T_uint8 | T_uint32 | T_uint64 | T_uint256 | T_bool | T_address | T_bytes32 | T_string | T_bytes | T_int8 | T_int64
| T_tuple (fields : list AbiType) | T_slice (t : AbiType).

Inductive AbiValue `{GoEthereum} :=
| V_uint8 (v : Z)
| V_uint32 (v : Z)
| V_uint64 (v : Z)
| V_uint256 (v : Z)            (* *big.Int *)
| V_bool (v : bool)
| V_address (v : Address)
| V_bytes32 (v : Hash)
| V_string (v : string)
| V_bytes (v : bytes)
| V_int8 (v : Z)
| V_int64 (v : Z)
| V_tuple (fields : list AbiValue)        (* a struct *)
| V_slice (elements : list AbiValue).

(** What [%T] prints of a decoded value. *)
Definition type_name `{GoEthereum} (v : AbiValue) : string :=
  match v with
  | V_uint8 _ => "uint8" | V_uint32 _ => "uint32" | V_uint64 _ => "uint64" | V_uint256 _ => "*big.Int"
  | V_bool _ => "bool" | V_address _ => "common.Address" | V_bytes32 _ => "[32]uint8" | V_string _ => "string" | V_bytes _ => "[]uint8"
  | V_int8 _ => "int8" | V_int64 _ => "int64" | V_tuple _ => "struct" | V_slice _ => "[]struct"
  end.

Fixpoint has_type `{GoEthereum} (v : AbiValue) (t : AbiType) : Prop :=
  match v, t with
  | V_uint8 _, T_uint8 | V_uint32 _, T_uint32 | V_uint64 _, T_uint64 | V_uint256 _, T_uint256
  | V_bool _, T_bool | V_address _, T_address | V_bytes32 _, T_bytes32 | V_string _, T_string | V_bytes _, T_bytes
  | V_int8 _, T_int8 | V_int64 _, T_int64 => True
  | V_tuple vs, T_tuple ts =>
      (fix fields vs ts := match vs, ts with
       | [], [] => True
       | v :: vs, t :: ts => has_type v t /\ fields vs ts
       | _, _ => False
       end) vs ts
  | V_slice vs, T_slice t => (fix elements vs := match vs with [] => True | v :: vs => has_type v t /\ elements vs end) vs
  | _, _ => False
  end.

(** [abi.Arguments] and the byte conversions of package [common]. *)
Class Abi `{GoEthereum} := {
  Unpack : list AbiType -> bytes -> result GoError (list AbiValue);
  Pack : list AbiType -> list AbiValue -> result GoError bytes;
  HexToAddress : string -> Address;
  BytesToAddress : bytes -> Address;
  Keccak256Hash : bytes -> Hash;
  Hash_Bytes : Hash -> bytes;
  hash_zero : Hash;                         (* common.Hash{} *)
}.

Class AbiLaws `{Abi} : Prop := {
  Unpack_typed tys data vs : Unpack tys data = Ok vs -> Forall2 has_type vs tys;
}.

(** A value in the range of its Solidity type; structs and arrays are left out. *)
Definition fits `{GoEthereum} (v : AbiValue) (t : AbiType) : Prop :=
  match v, t with
  | V_uint8 n, T_uint8 => 0 <= n < 2 ^ 8
  | V_uint32 n, T_uint32 => 0 <= n < 2 ^ 32
  | V_uint64 n, T_uint64 => 0 <= n < 2 ^ 64
  | V_uint256 n, T_uint256 => 0 <= n < 2 ^ 256
  | V_bool _, T_bool | V_address _, T_address | V_bytes32 _, T_bytes32 | V_string _, T_string | V_bytes _, T_bytes => True
  | _, _ => False
  end.

(** The standard encoding is injective, and a hash is its 32 bytes. *)
Class AbiPackLaws `{Abi} : Prop := {
  Pack_inj tys vs vs' data : Forall2 fits vs tys -> Forall2 fits vs' tys ->
    Pack tys vs = Ok data -> Pack tys vs' = Ok data -> vs = vs';
  Hash_Bytes_inj h k : Hash_Bytes h = Hash_Bytes k -> h = k;
  Hash_Bytes_len h : length (Hash_Bytes h) = 32%nat;
}.

(** Two given texts are different and have one hash. *)
Definition collide `{Abi} (x y : bytes) : Prop := x <> y /\ Keccak256Hash x = Keccak256Hash y.

Lemma collide_or_equal `{Abi} x y : Keccak256Hash x = Keccak256Hash y -> x = y \/ collide x y.
Proof. intros E. destruct (decide (x = y)); [by left|by right]. Qed.

(** ** Calldata of ABI methods (utils/abi_encoder.go, utils/pointer.go)

    Encoding and decoding of a method's arguments behind its selector, of one
    output, and the helpers for types.  A runtime panic is [None]. *)

(** *** pointer.go *)

Definition Ptr {T} (value : T) : option T := Some value.
Definition Deref {T} (zero : T) (p : option T) : T := match p with None => zero | Some v => v end.
Definition ValueOr {T} (p : option T) (fallback : T) : T := match p with None => fallback | Some v => v end.

(** What the sources use of [abi.Method]. *)
Record Method := mkMethod { mt_Name : string; mt_ID : bytes; mt_Inputs : list AbiType; mt_Outputs : list AbiType }.

(** [abi.NewType] of a name, and [abi.ConvertType] into a pointer of a type:
    [None] when it panics, and the pointer it gives. *)
Class AbiReflect `{GoEthereum} := {
  NewType : string -> result GoError AbiType;
  ConvertBigInt : AbiValue -> option (option Z);
  ConvertAddress : AbiValue -> option Address;
}.

(** The bytes of [%x]. *)
Definition hex_text (b : bytes) : string := EncodeToString b.

Fixpoint bytes_prefix (data p : bytes) {struct p} : bool :=
  match p, data with
  | [], _ => true
  | x :: p, y :: data => bool_decide (x = y) && bytes_prefix data p
  | _ :: _, [] => false
  end.

Section methods.
Context `{G : GoEthereum} `{AB : !Abi} `{AR : !AbiReflect}.

Definition EncodeABI (types : list AbiType) (values : list AbiValue) : result GoError bytes :=
  match types, values with
  | [], [] => Ok []
  | _, _ => match Pack types values with Ok encodedData => Ok encodedData | Err e => Err (Errorf_w "error encoding data: " e "") end
  end.

Definition EncodeABIMethodCall (method : Method) (values : list AbiValue) : result GoError bytes :=
  match EncodeABI (mt_Inputs method) values with
  | Err e => Err (Errorf_w ("encoding ABI method " +:+ mt_Name method +:+ " inputs: ") e "")
  | Ok encoded => Ok (mt_ID method ++ encoded)
  end.

Definition DecodeABIMethodCall (method : Method) (data : bytes) : result GoError (list AbiValue) :=
  if negb (bytes_prefix data (mt_ID method)) then
    Err (errors_New ("calldata = " +:+ hex_text data +:+ ", want " +:+ mt_Name method +:+ " selector " +:+ hex_text (mt_ID method)))
  else
    match Unpack (mt_Inputs method) (drop (length (mt_ID method)) data) with
    | Err e => Err (Errorf_w ("unpacking " +:+ mt_Name method +:+ " inputs: ") e "")
    | Ok inputs => Ok inputs
    end.

Definition ABIMethodByName (Methods : gmap string Method) (name : string) : result GoError Method :=
  match Methods !! name with Some method => Ok method | None => Err (errors_New ("ABI method " +:+ name +:+ " not found")) end.

(** The type argument of [DecodeABIOutput]. *)
Inductive OutType := O_BigInt | O_Address | O_Other (name : string).

Definition unexpected_type (method : Method) (value : AbiValue) (outputIndex : Z) : GoError :=
  errors_New (mt_Name method +:+ " returned unexpected type " +:+ type_name value +:+ " at output index " +:+ pretty outputIndex).

Definition DecodeABIOutput (T : OutType) (method : Method) (data : bytes) (outputIndex : Z) : option (result GoError AbiValue) :=
  match Unpack (mt_Outputs method) data with
  | Err e => Some (Err (Errorf_w ("unpacking " +:+ mt_Name method +:+ ": ") e ""))
  | Ok values =>
      if (outputIndex <? 0) || (Z.of_nat (length values) <=? outputIndex) then
        Some (Err (errors_New (mt_Name method +:+ " returned " +:+ pretty (length values) +:+ " values, output index " +:+
          pretty outputIndex +:+ " out of range")))
      else
        match values !! Z.to_nat outputIndex with
        | None => None
        | Some value =>
            match T with
            | O_BigInt =>
                match ConvertBigInt value with
                | None => None
                | Some None => Some (Err (unexpected_type method value outputIndex))
                | Some (Some v) => Some (Ok (V_uint256 v))
                end
            | O_Address => match ConvertAddress value with None => None | Some a => Some (Ok (V_address a)) end
            | O_Other name =>
                Some (Err (errors_New (mt_Name method +:+ " output index " +:+ pretty outputIndex +:+ " does not support decode type " +:+ name)))
            end
        end
  end.

(** ** Types by name *)

Definition MustABIType (name : string) : option AbiType := match NewType name with Ok t => Some t | Err _ => None end.

Definition Uint8Type := MustABIType "uint8".
Definition Uint256Type := MustABIType "uint256".
Definition Uint256ArrayType := MustABIType "uint256[]".
Definition Uint48Type := MustABIType "uint48".
Definition Uint24Type := MustABIType "uint24".
Definition Uint32Type := MustABIType "uint32".
Definition Uint64Type := MustABIType "uint64".
Definition Int64Type := MustABIType "int64".
Definition Uint160Type := MustABIType "uint160".
Definition Uint64ArrayType := MustABIType "uint64[]".
Definition AddressType := MustABIType "address".
Definition AddressArrayType := MustABIType "address[]".
Definition StringType := MustABIType "string".
Definition Bytes32Type := MustABIType "bytes32".
Definition BytesType := MustABIType "bytes".
Definition Bytes32ArrayType := MustABIType "bytes32[]".
Definition BoolType := MustABIType "bool".

(** ** Round trip *)

(** What is encoded decodes to itself, and a decoded value converts to the
    pointer of its own type. *)
Class AbiRoundTrip : Prop := {
  Unpack_Pack tys vs data : Forall2 fits vs tys -> Pack tys vs = Ok data -> Unpack tys data = Ok vs;
  Unpack_empty : Unpack [] [] = Ok [];
}.

Context {RT : AbiRoundTrip}.

Lemma bytes_prefix_app p t : bytes_prefix (p ++ t) p = true.
Proof. induction p as [|x p IH]; [done|]. cbn. by rewrite bool_decide_eq_true_2, IH. Qed.

Lemma EncodeABI_decodes tys vs data : Forall2 fits vs tys -> EncodeABI tys vs = Ok data -> Unpack tys data = Ok vs.
Proof.
  intros F. unfold EncodeABI. destruct tys as [|t tys].
  - inversion F; subst. intros [= <-]. apply Unpack_empty.
  - inversion F; subst. destruct (Pack _ _) eqn:E; [|done]. intros [= <-]. by eapply Unpack_Pack.
Qed.

(** Decoding the calldata of a call gives its arguments back, and calldata with another selector is refused. *)
Theorem DecodeABIMethodCall_encoded method values data :
  Forall2 fits values (mt_Inputs method) -> EncodeABIMethodCall method values = Ok data ->
  DecodeABIMethodCall method data = Ok values /\
  (forall other, bytes_prefix data (mt_ID other) = false -> is_ok (DecodeABIMethodCall other data) = false).
Proof.
  intros F. unfold EncodeABIMethodCall. destruct (EncodeABI _ _) as [encoded|e] eqn:E; [|done]. intros [= <-].
  unfold DecodeABIMethodCall. rewrite bytes_prefix_app, drop_app_length. cbn [negb].
  rewrite (EncodeABI_decodes _ _ _ F E). split; [done|]. intros other Ho. by rewrite Ho.
Qed.
End methods.
