(* ===== verification/CoreWriter.v ===== *)
(** * CoreWriter evidence (providers/hyperliquid/hypercore/corewriter_evidence.go)

    Decoding the actions a CoreWriter contract logged.  A failed type
    assertion on a decoded value panics. *)
From Stdlib Require Import Ascii Strings.Byte.
From S2P Require Export Abi.
Local Open Scope Z_scope.
Local Open Scope go_scope.

Section corewriter.
Context `{G : GoEthereum} `{AB : !Abi}.

Definition CoreWriterEncodingVersion : Byte.byte := x01.
Definition ActionUsdClassTransfer : Z := 7.
Definition ActionAddApiWallet : Z := 9.
Definition ActionApproveBuilderFee : Z := 12.
Definition ActionSendAsset : Z := 13.

Definition CoreWriterAddress : Address := HexToAddress "0x3333333333333333333333333333333333333333".
Definition CoreWriterRawActionTopic : Hash := Keccak256Hash (String.list_byte_of_string "RawAction(address,bytes)").

Definition coreWriterRawActionData : list AbiType := [T_bytes].
Definition usdClassTransferData : list AbiType := [T_uint64; T_bool].
Definition addAPIWalletData : list AbiType := [T_address; T_string].
Definition approveBuilderFeeData : list AbiType := [T_uint64; T_address].
Definition sendAssetData : list AbiType := [T_address; T_address; T_uint32; T_uint32; T_uint64; T_uint64].

Inductive CoreWriterAction :=
| USDClassTransferAction (Ntl : Z) (ToPerp : bool)
| AddAPIWalletAction (Agent : Address) (Name : string)
| ApproveBuilderFeeAction (MaxFeeRate : Z) (Builder : Address)
| SendAssetAction (Destination Subaccount : Address) (SourceDex DestinationDex Token Wei : Z)
| UnknownCoreWriterAction (ID : Z) (Payload : bytes).

Definition CoreWriterActionID (a : CoreWriterAction) : Z :=
  match a with
  | USDClassTransferAction _ _ => ActionUsdClassTransfer
  | AddAPIWalletAction _ _ => ActionAddApiWallet
  | ApproveBuilderFeeAction _ _ => ActionApproveBuilderFee
  | SendAssetAction _ _ _ _ _ _ => ActionSendAsset
  | UnknownCoreWriterAction id _ => id
  end.

(** [v.(T)] *)
Definition as_uint32 (v : option AbiValue) : outcome Z :=
  match v with Some (V_uint32 v) => Val v | _ => Panic "interface conversion" end.
Definition as_uint64 (v : option AbiValue) : outcome Z :=
  match v with Some (V_uint64 v) => Val v | _ => Panic "interface conversion" end.
Definition as_bool (v : option AbiValue) : outcome bool :=
  match v with Some (V_bool v) => Val v | _ => Panic "interface conversion" end.
Definition as_address (v : option AbiValue) : outcome Address :=
  match v with Some (V_address v) => Val v | _ => Panic "interface conversion" end.
Definition as_string (v : option AbiValue) : outcome string :=
  match v with Some (V_string v) => Val v | _ => Panic "interface conversion" end.

Definition unpackCanonicalAction (actionID : Z) (arguments : list AbiType) (payload : bytes) : outcome (list AbiValue) :=
  let^ values := owrap (fun e => Errorf_w ("decoding CoreWriter action " +:+ pretty actionID +:+ " payload: ") e "")
                   (Unpack arguments payload) in
  let^ repacked := owrap (fun e => Errorf_w ("re-encoding CoreWriter action " +:+ pretty actionID +:+ " payload: ") e "")
                     (Pack arguments values) in
  if negb (bool_decide (repacked = payload))
  then Fail (errors_New ("CoreWriter action " +:+ pretty actionID +:+ " payload is not canonical ABI encoding"))
  else Val values.

(** [uint32(raw[1])<<16 | uint32(raw[2])<<8 | uint32(raw[3])] *)
Definition action_id (b1 b2 b3 : Byte.byte) : Z :=
  Z.lor (Z.lor (Z.shiftl (byte_int b1) 16) (Z.shiftl (byte_int b2) 8)) (byte_int b3).

Definition decode_payload (actionID : Z) (payload : bytes) : outcome CoreWriterAction :=
  if actionID =? ActionUsdClassTransfer then
    let^ values := unpackCanonicalAction actionID usdClassTransferData payload in
    let^ ntl := as_uint64 (values !! 0%nat) in
    let^ toPerp := as_bool (values !! 1%nat) in
    Val (USDClassTransferAction ntl toPerp)
  else if actionID =? ActionAddApiWallet then
    let^ values := unpackCanonicalAction actionID addAPIWalletData payload in
    let^ agent := as_address (values !! 0%nat) in
    let^ name := as_string (values !! 1%nat) in
    Val (AddAPIWalletAction agent name)
  else if actionID =? ActionApproveBuilderFee then
    let^ values := unpackCanonicalAction actionID approveBuilderFeeData payload in
    let^ rate := as_uint64 (values !! 0%nat) in
    let^ builder := as_address (values !! 1%nat) in
    Val (ApproveBuilderFeeAction rate builder)
  else if actionID =? ActionSendAsset then
    let^ values := unpackCanonicalAction actionID sendAssetData payload in
    let^ destination := as_address (values !! 0%nat) in
    let^ subaccount := as_address (values !! 1%nat) in
    let^ sourceDex := as_uint32 (values !! 2%nat) in
    let^ destinationDex := as_uint32 (values !! 3%nat) in
    let^ token := as_uint64 (values !! 4%nat) in
    let^ wei := as_uint64 (values !! 5%nat) in
    Val (SendAssetAction destination subaccount sourceDex destinationDex token wei)
  else Val (UnknownCoreWriterAction actionID payload).

Definition DecodeCoreWriterAction (raw : bytes) : outcome CoreWriterAction :=
  match raw with
  | b0 :: b1 :: b2 :: b3 :: payload =>
      if negb (bool_decide (b0 = CoreWriterEncodingVersion))
      then Fail (errors_New ("unsupported CoreWriter encoding version " +:+ pretty (byte_int b0)))
      else decode_payload (action_id b1 b2 b3) payload
  | _ => Fail (errors_New ("CoreWriter action is " +:+ pretty (length raw) +:+ " bytes; need at least the 4-byte header"))
  end.

(** ** Logs and receipts *)

Record Log := mkLog {
  lg_Address : Address; lg_Topics : list Hash; lg_Data : bytes; lg_BlockNumber : Z; lg_TxHash : Hash;
  lg_BlockHash : Hash; lg_Index : Z; lg_Removed : bool;
}.

Record DecodedCoreWriterAction := mkDecoded {
  User : Address; Version : Byte.byte; ActionID : Z; RawAction : bytes; Action : CoreWriterAction;
  TransactionHash : Hash; BlockHash : Hash; BlockNumber : Z; LogIndex : Z;
}.

(** [log.Data] as one canonical [bytes] argument. *)
Definition raw_action (data : bytes) : outcome bytes :=
  let^ values := owrap (fun e => Errorf_w "decoding CoreWriter RawAction event data: " e "")
                   (Unpack coreWriterRawActionData data) in
  match values with
  | [V_bytes raw] =>
      let^ repacked := owrap (fun e => Errorf_w "re-encoding CoreWriter RawAction event data: " e "")
                         (Pack coreWriterRawActionData [V_bytes raw]) in
      if negb (bool_decide (repacked = data))
      then Fail (errors_New "CoreWriter RawAction event data is not canonical ABI encoding")
      else Val raw
  | [v] => Fail (errors_New ("CoreWriter RawAction event data has type " +:+ type_name v +:+ "; want []byte"))
  | _ => Fail (errors_New ("CoreWriter RawAction event decoded to " +:+ pretty (length values) +:+ " values; want 1"))
  end.

Definition DecodeCoreWriterRawActionLog (log : option Log) : outcome DecodedCoreWriterAction :=
  match log with
  | None => Fail (errors_New "CoreWriter log is nil")
  | Some log =>
      if negb (bool_decide (lg_Address log = CoreWriterAddress)) then
        Fail (errors_New ("log address " +:+ Address_Hex (lg_Address log) +:+ " is not CoreWriter " +:+
                Address_Hex CoreWriterAddress))
      else if lg_Removed log then Fail (errors_New ("CoreWriter log " +:+ pretty (lg_Index log) +:+ " was removed"))
      else
        match lg_Topics log with
        | [topic; user] =>
            if negb (bool_decide (topic = CoreWriterRawActionTopic)) then
              Fail (errors_New ("CoreWriter log topic " +:+ Hash_Hex topic +:+ " is not RawAction " +:+
                      Hash_Hex CoreWriterRawActionTopic))
            else if negb (bool_decide (take 12 (Hash_Bytes user) = replicate 12 x00)) then
              Fail (errors_New "CoreWriter RawAction user topic is not a canonical address")
            else
              let^ raw := raw_action (lg_Data log) in
              let^ action := DecodeCoreWriterAction raw in
              Val {| User := BytesToAddress (drop 12 (Hash_Bytes user)); Version := default x00 (raw !! 0%nat);
                     ActionID := CoreWriterActionID action; RawAction := raw; Action := action;
                     TransactionHash := lg_TxHash log; BlockHash := lg_BlockHash log;
                     BlockNumber := lg_BlockNumber log; LogIndex := lg_Index log |}
        | topics => Fail (errors_New ("CoreWriter RawAction log has " +:+ pretty (length topics) +:+ " topics; want 2"))
        end
  end.

Record EvmReceipt := mkReceipt {
  rc_Status : Z; rc_TxHash : Hash; rc_BlockHash : Hash; rc_BlockNumber : option Z; rc_Logs : list (option Log);
}.

Definition is_core_log (log : option Log) : bool :=
  match log with Some log => bool_decide (lg_Address log = CoreWriterAddress) | None => false end.

(** One CoreWriter log of a receipt: its evidence, or the error to collect. *)
Definition receipt_action (receipt : EvmReceipt) (blockNumber : Z) (log : Log) :
    outcome (result GoError DecodedCoreWriterAction) :=
  if negb (bool_decide (lg_TxHash log = hash_zero)) && negb (bool_decide (lg_TxHash log = rc_TxHash receipt)) then
    Val (Err (errors_New ("CoreWriter log " +:+ pretty (lg_Index log) +:+ " transaction hash " +:+ Hash_Hex (lg_TxHash log) +:+
                " does not match receipt " +:+ Hash_Hex (rc_TxHash receipt))))
  else if negb (lg_BlockNumber log =? 0) && negb (blockNumber =? lg_BlockNumber log) then
    Val (Err (errors_New ("CoreWriter log " +:+ pretty (lg_Index log) +:+ " block " +:+ pretty (lg_BlockNumber log) +:+
                " does not match receipt block " +:+ pretty blockNumber)))
  else if negb (bool_decide (lg_BlockHash log = hash_zero)) && negb (bool_decide (rc_BlockHash receipt = hash_zero)) &&
          negb (bool_decide (lg_BlockHash log = rc_BlockHash receipt)) then
    Val (Err (errors_New ("CoreWriter log " +:+ pretty (lg_Index log) +:+ " block hash " +:+ Hash_Hex (lg_BlockHash log) +:+
                " does not match receipt " +:+ Hash_Hex (rc_BlockHash receipt))))
  else
    match DecodeCoreWriterRawActionLog (Some log) with
    | Panic p => Panic p
    | Fail e => Val (Err (Errorf_w ("decoding CoreWriter log " +:+ pretty (lg_Index log) +:+ ": ") e ""))
    | Val d =>
        Val (Ok {| User := User d; Version := Version d; ActionID := ActionID d; RawAction := RawAction d;
                   Action := Action d;
                   TransactionHash := if bool_decide (TransactionHash d = hash_zero) then rc_TxHash receipt else TransactionHash d;
                   BlockHash := if bool_decide (BlockHash d = hash_zero) then rc_BlockHash receipt else BlockHash d;
                   BlockNumber := if BlockNumber d =? 0 then blockNumber else BlockNumber d;
                   LogIndex := LogIndex d |})
    end.

Fixpoint collect (receipt : EvmReceipt) (blockNumber : Z) (logs : list (option Log)) :
    outcome (list DecodedCoreWriterAction * list GoError) :=
  match logs with
  | [] => Val ([], [])
  | log :: rest =>
      match (if is_core_log log then log else None) with
      | None => collect receipt blockNumber rest
      | Some log =>
          let^ r := receipt_action receipt blockNumber log in
          let^ more := collect receipt blockNumber rest in
          let '(actions, errs) := more in
          Val (match r with Ok d => (d :: actions, errs) | Err e => (actions, e :: errs) end)
      end
  end.

(** [errors.Join]: nil when every error is nil, else the texts on their lines. *)
Definition Join (errs : list GoError) : option GoError :=
  match errs with
  | [] => None
  | e :: rest => Some (fold_left (fun acc e => Errorf_ww "" acc (String "010"%char "") e "") rest (Errorf_w "" e ""))
  end.

(** The evidence and the joined error; [Fail] when the receipt itself is refused. *)
Definition DecodeCoreWriterRawActions (receipt : option EvmReceipt) :
    outcome (list DecodedCoreWriterAction * option GoError) :=
  match receipt with
  | None => Fail (errors_New "receipt is nil")
  | Some receipt =>
      if negb (rc_Status receipt =? ReceiptStatusSuccessful) then
        Fail (errors_New ("receipt " +:+ Hash_Hex (rc_TxHash receipt) +:+ " did not succeed"))
      else if negb (existsb is_core_log (rc_Logs receipt)) then Val ([], None)
      else if bool_decide (rc_TxHash receipt = hash_zero) then
        Fail (errors_New "successful receipt has no transaction hash")
      else
        match rc_BlockNumber receipt with
        | None => Fail (errors_New ("successful receipt " +:+ Hash_Hex (rc_TxHash receipt) +:+ " has no block number"))
        | Some blockNumber =>
            if negb (bool_decide (is_u64 blockNumber)) then
              Fail (errors_New ("successful receipt " +:+ Hash_Hex (rc_TxHash receipt) +:+ " has invalid block number " +:+
                      pretty blockNumber))
            else
              let^ r := collect receipt blockNumber (rc_Logs receipt) in
              let '(actions, errs) := r in Val (actions, Join errs)
        end
  end.

(** ** Decoding is canonical *)

Lemma obind_Val {X Y} (c : outcome X) (k : X -> outcome Y) y :
  obind c k = Val y <-> exists x, c = Val x /\ k x = Val y.
Proof. destruct c; simpl; (split; [first [done|solve [eauto]]|]); intros (z & E & ?); congruence. Qed.

Lemma unpackCanonical_spec id tys p vs : unpackCanonicalAction id tys p = Val vs -> Unpack tys p = Ok vs /\ Pack tys vs = Ok p.
Proof.
  unfold unpackCanonicalAction. destruct (Unpack tys p) as [vs'|]; [|done]. simpl.
  destruct (Pack tys vs') as [q|] eqn:E; [|done]. simpl. case_bool_decide as H; [|done]. simpl. intros [= <-]. by subst.
Qed.

Lemma as_uint32_Val v x : as_uint32 v = Val x -> v = Some (V_uint32 x).
Proof. destruct v as [[]|]; simpl; congruence. Qed.
Lemma as_uint64_Val v x : as_uint64 v = Val x -> v = Some (V_uint64 x).
Proof. destruct v as [[]|]; simpl; congruence. Qed.
Lemma as_bool_Val v x : as_bool v = Val x -> v = Some (V_bool x).
Proof. destruct v as [[]|]; simpl; congruence. Qed.
Lemma as_address_Val v x : as_address v = Val x -> v = Some (V_address x).
Proof. destruct v as [[]|]; simpl; congruence. Qed.
Lemma as_string_Val v x : as_string v = Val x -> v = Some (V_string x).
Proof. destruct v as [[]|]; simpl; congruence. Qed.

(** What an action was unpacked from. *)
Definition action_values (a : CoreWriterAction) : option (list AbiType * list AbiValue) :=
  match a with
  | USDClassTransferAction n p => Some (usdClassTransferData, [V_uint64 n; V_bool p])
  | AddAPIWalletAction ag n => Some (addAPIWalletData, [V_address ag; V_string n])
  | ApproveBuilderFeeAction r b => Some (approveBuilderFeeData, [V_uint64 r; V_address b])
  | SendAssetAction d s sd dd t w =>
      Some (sendAssetData, [V_address d; V_address s; V_uint32 sd; V_uint32 dd; V_uint64 t; V_uint64 w])
  | UnknownCoreWriterAction _ _ => None
  end.

Ltac inv_outcome := repeat match goal with
  | H : obind _ _ = Val _ |- _ => apply obind_Val in H as (? & ? & ?)
  | H : Val _ = Val _ |- _ => injection H as <-
  | H : as_uint32 _ = Val _ |- _ => apply as_uint32_Val in H
  | H : as_uint64 _ = Val _ |- _ => apply as_uint64_Val in H
  | H : as_bool _ = Val _ |- _ => apply as_bool_Val in H
  | H : as_address _ = Val _ |- _ => apply as_address_Val in H
  | H : as_string _ = Val _ |- _ => apply as_string_Val in H
  | H : unpackCanonicalAction _ _ _ = Val _ |- _ => apply unpackCanonical_spec in H as [? ?]
  end.

(** A list of known length with every entry known. *)
Ltac list_eq :=
  unfold usdClassTransferData, addAPIWalletData, approveBuilderFeeData, sendAssetData in *;
  repeat match goal with
  | F : Forall2 has_type _ (_ :: _) |- _ => apply Forall2_cons_inv_r in F as (? & ? & ? & ? & ?)
  | F : Forall2 has_type _ [] |- _ => apply Forall2_nil_inv_r in F
  end; subst.

Lemma decode_payload_spec `{AL : !AbiLaws} id p a : decode_payload id p = Val a ->
  CoreWriterActionID a = id /\
  match action_values a with
  | Some (tys, vs) => Pack tys vs = Ok p
  | None => a = UnknownCoreWriterAction id p
  end.
Proof.
  unfold decode_payload.
  destruct (Z.eqb_spec id ActionUsdClassTransfer) as [->|]; [|destruct (Z.eqb_spec id ActionAddApiWallet) as [->|];
    [|destruct (Z.eqb_spec id ActionApproveBuilderFee) as [->|]; [|destruct (Z.eqb_spec id ActionSendAsset) as [->|]]]];
    intros H; inv_outcome; [| | | |done];
    (split; [done|]);
    match goal with H : Unpack _ _ = Ok _ |- _ => apply Unpack_typed in H end; list_eq; simpl in *; simplify_eq; done.
Qed.

Lemma byte_int_range b : 0 <= byte_int b < 256.
Proof. unfold byte_int. pose proof (Byte.to_N_bounded b). lia. Qed.

Lemma action_id_sum b1 b2 b3 : action_id b1 b2 b3 = byte_int b1 * 65536 + byte_int b2 * 256 + byte_int b3.
Proof.
  unfold action_id. pose proof (byte_int_range b1). pose proof (byte_int_range b2). pose proof (byte_int_range b3).
  replace (Z.shiftl (byte_int b1) 16) with (Z.shiftl (Z.shiftl (byte_int b1) 8) 8) by by rewrite Z.shiftl_shiftl.
  rewrite <- Z.shiftl_lor, lor_shiftl_add by lia. rewrite lor_shiftl_add by lia. lia.
Qed.

Lemma action_id_inj b1 b2 b3 c1 c2 c3 : action_id b1 b2 b3 = action_id c1 c2 c3 -> b1 = c1 /\ b2 = c2 /\ b3 = c3.
Proof.
  rewrite !action_id_sum. intros E.
  pose proof (byte_int_range b1). pose proof (byte_int_range b2). pose proof (byte_int_range b3).
  pose proof (byte_int_range c1). pose proof (byte_int_range c2). pose proof (byte_int_range c3).
  split_and!; apply byte_int_inj; lia.
Qed.

(** C30: Decoding loses nothing: two byte strings that decode to the same action
    are the same byte string, known and unknown action ids alike. *)
Theorem DecodeCoreWriterAction_injective `{AL : !AbiLaws} raw raw' a
    (H : DecodeCoreWriterAction raw = Val a) (H' : DecodeCoreWriterAction raw' = Val a) : raw = raw'.
Proof.
  assert (E : forall r, DecodeCoreWriterAction r = Val a -> exists b1 b2 b3 p,
    r = CoreWriterEncodingVersion :: b1 :: b2 :: b3 :: p /\ decode_payload (action_id b1 b2 b3) p = Val a).
  { intros [|b0 [|b1 [|b2 [|b3 p]]]]; try done. unfold DecodeCoreWriterAction. case_bool_decide as Hb; [|done]. simpl.
    intros Hd. subst b0. by exists b1, b2, b3, p. }
  destruct (E _ H) as (b1 & b2 & b3 & p & -> & [Hi Hp]%decode_payload_spec).
  destruct (E _ H') as (c1 & c2 & c3 & q & -> & [Hj Hq]%decode_payload_spec).
  assert (Hid : action_id b1 b2 b3 = action_id c1 c2 c3) by congruence.
  assert (p = q) as ->. { destruct (action_values a) as [[tys vs]|]; congruence. }
  by destruct (action_id_inj _ _ _ _ _ _ Hid) as (-> & -> & ->).
Qed.

(** ** Evidence of a receipt *)

(** The log [d] is evidence of, when its receipt is [receipt]. *)
Definition evidence_of (receipt : EvmReceipt) (blockNumber : Z) (log : Log) (d : DecodedCoreWriterAction) : Prop :=
  lg_Address log = CoreWriterAddress /\ lg_Removed log = false /\ LogIndex d = lg_Index log /\
  TransactionHash d = rc_TxHash receipt /\ BlockNumber d = blockNumber /\
  (rc_BlockHash receipt <> hash_zero -> BlockHash d = rc_BlockHash receipt) /\
  raw_action (lg_Data log) = Val (RawAction d) /\ DecodeCoreWriterAction (RawAction d) = Val (Action d).

Lemma log_evidence log d : DecodeCoreWriterRawActionLog (Some log) = Val d ->
  lg_Address log = CoreWriterAddress /\ lg_Removed log = false /\ LogIndex d = lg_Index log /\
  TransactionHash d = lg_TxHash log /\ BlockNumber d = lg_BlockNumber log /\ BlockHash d = lg_BlockHash log /\
  raw_action (lg_Data log) = Val (RawAction d) /\ DecodeCoreWriterAction (RawAction d) = Val (Action d).
Proof.
  unfold DecodeCoreWriterRawActionLog. case_bool_decide as Ha; [|done]. simpl. destruct (lg_Removed log); [done|].
  destruct (lg_Topics log) as [|topic [|user [|]]]; try done. case_bool_decide; [|done]. simpl. case_bool_decide; [|done].
  simpl. intros Hv. inv_outcome. done.
Qed.

(** A value that may be absent, filled in when it is not contradicted. *)
Lemma filled_in (x y z : Hash) :
  negb (bool_decide (x = z)) && negb (bool_decide (x = y)) = false -> (if bool_decide (x = z) then y else x) = y.
Proof. intros E. destruct (bool_decide (x = z)); [done|]. simpl in E. by destruct (decide (x = y)) as [|H]; [|rewrite bool_decide_eq_false_2 in E]. Qed.

Lemma receipt_action_spec receipt bn log d : receipt_action receipt bn log = Val (Ok d) -> evidence_of receipt bn log d.
Proof.
  unfold receipt_action.
  destruct (negb (bool_decide (lg_TxHash log = hash_zero)) && _) eqn:E1; [done|].
  destruct (negb (lg_BlockNumber log =? 0) && _) eqn:E2; [done|].
  destruct (negb (bool_decide (lg_BlockHash log = hash_zero)) && _ && _) eqn:E3; [done|].
  destruct (DecodeCoreWriterRawActionLog (Some log)) as [d0|e|p] eqn:Hd; [|done..]. intros [= <-].
  apply log_evidence in Hd as (H1 & H2 & H3 & H4 & H5 & H6 & H7 & H8).
  unfold evidence_of. simpl. rewrite H4, H5, H6. split_and!; try done.
  - by apply filled_in.
  - destruct (Z.eqb_spec (lg_BlockNumber log) 0); [done|]. simpl in E2. lia.
  - intros Hr. rewrite (bool_decide_eq_false_2 _ Hr), andb_true_r in E3. by apply filled_in.
Qed.

(** The CoreWriter logs, in order. *)
Definition core_logs (logs : list (option Log)) : list Log :=
  omap (fun log => if is_core_log log then log else None) logs.

Lemma collect_spec receipt bn logs actions errs : collect receipt bn logs = Val (actions, errs) ->
  exists verdicts, Forall2 (fun log r => receipt_action receipt bn log = Val r) (core_logs logs) verdicts /\
    actions = omap (fun r => match r with Ok d => Some d | Err _ => None end) verdicts /\
    errs = omap (fun r => match r with Ok _ => None | Err e => Some e end) verdicts.
Proof.
  revert actions errs. induction logs as [|log logs IH]; intros actions errs; cbn [collect].
  { intros [= <- <-]. exists []. by repeat split. }
  unfold core_logs. cbn [omap list_omap]. destruct (if is_core_log log then log else None) as [l|]; [|apply IH].
  intros (r & Hr & H)%obind_Val. apply obind_Val in H as ([acts es] & Hc & H).
  destruct (IH _ _ Hc) as (vs & HF & -> & ->). exists (r :: vs). split; [by constructor|].
  destruct r; injection H as <- <-; done.
Qed.

Lemma omap_ok_Forall2 {X Y E} (P : X -> Y -> Prop) (l : list X) (vs : list (result E Y)) :
  Forall2 (fun x r => forall d, r = Ok d -> P x d) l vs ->
  exists l', sublist l' l /\ Forall2 P l' (omap (fun r => match r with Ok d => Some d | Err _ => None end) vs) /\
    (omap (fun r => match r with Ok _ => None | Err e => Some e end) vs = [] -> l' = l).
Proof.
  induction 1 as [|x r l vs Hx HF IH]; [by exists []|]. destruct IH as (l' & Hs & HF' & He). destruct r as [d|e]; simpl.
  - exists (x :: l'). split; [by constructor|]. split; [constructor; [by apply Hx|done]|]. intros E0. by rewrite (He E0).
  - exists l'. split; [by constructor|]. split; [done|]. discriminate.
Qed.

(** C39: The evidence of a receipt is sound, in order and complete: each action
    comes from a CoreWriter log of a successful receipt that was not removed and
    carries the transaction, block number and (when known) block hash of that
    receipt; without an error, every CoreWriter log of the receipt has its
    action. *)
Theorem DecodeCoreWriterRawActions_sound receipt actions err
    (H : DecodeCoreWriterRawActions (Some receipt) = Val (actions, err)) :
  rc_Status receipt = ReceiptStatusSuccessful /\
  exists logs, sublist logs (core_logs (rc_Logs receipt)) /\
    Forall2 (evidence_of receipt (default 0 (rc_BlockNumber receipt))) logs actions /\
    (err = None -> logs = core_logs (rc_Logs receipt)).
Proof.
  revert H. unfold DecodeCoreWriterRawActions. destruct (Z.eqb_spec (rc_Status receipt) ReceiptStatusSuccessful); [|done].
  simpl. destruct (existsb is_core_log (rc_Logs receipt)) eqn:Hex; simpl.
  2: { intros [= <- <-]. split; [done|]. exists []. assert (core_logs (rc_Logs receipt) = []) as ->; [|done].
       induction (rc_Logs receipt) as [|log logs IH]; [done|]. simpl in Hex. apply orb_false_iff in Hex as [Hl Hex].
       unfold core_logs. simpl. rewrite Hl. by apply IH. }
  case_bool_decide; [done|]. destruct (rc_BlockNumber receipt) as [bn|]; [|done]. case_bool_decide; [|done]. simpl.
  intros ([acts errs] & Hc & [= <- <-])%obind_Val. split; [done|].
  destruct (collect_spec _ _ _ _ _ Hc) as (vs & HF & -> & ->).
  destruct (omap_ok_Forall2 (evidence_of receipt bn) (core_logs (rc_Logs receipt)) vs) as (l' & Hs & HF' & He).
  { eapply Forall2_impl; [exact HF|]. intros log r Hr d ->. by apply receipt_action_spec. }
  exists l'. split; [done|]. split; [done|]. intros Hj. apply He.
  by destruct (omap (fun r => match r with Ok _ => None | Err e => Some e end) vs).
Qed.

(** Decoding never panics when the codec returns values of the types asked:
    an adversarial log can produce an error but not a failed type assertion. *)
Theorem DecodeCoreWriterAction_total `{AL : !AbiLaws} raw : forall why, DecodeCoreWriterAction raw <> Panic why.
Proof.
  assert (U : forall id tys p k, (forall vs, Forall2 has_type vs tys -> forall why, k vs <> Panic why) ->
    forall why : string, obind (unpackCanonicalAction id tys p) k <> @Panic CoreWriterAction why).
  { intros id tys p k Hk why. unfold unpackCanonicalAction. destruct (Unpack tys p) as [vs|] eqn:E; [|done]. simpl.
    destruct (Pack tys vs); [|done]. simpl. case_bool_decide; [|done]. simpl. by apply Hk, (Unpack_typed _ p). }
  intros why. destruct raw as [|b0 [|b1 [|b2 [|b3 p]]]]; try done. unfold DecodeCoreWriterAction.
  case_bool_decide; [|done]. simpl. unfold decode_payload.
  repeat case_match; try done; apply U; clear why; intros vs HF why; list_eq; simpl in *;
    repeat match goal with H : has_type ?v _ |- _ => destruct v; try done; clear H end; done.
Qed.
End corewriter.
