(* ===== verification/Precompiles.v ===== *)
(** * HyperCore precompiles (providers/hyperliquid/hypercore/precompiles.go, multicall.go)

    Reads of HyperCore state through an EVM caller: one precompile, or two in one
    Multicall3 execution.  The caller and the context are arguments; a failed
    type assertion or conversion of a decoded value panics. *)
From Stdlib Require Import Ascii Strings.Byte.
From S2P Require Export CoreWriter.
Local Open Scope Z_scope.
Local Open Scope go_scope.

(** What the readers are given: the context's error, and the EVM caller's answer
    to a call of an address, if there is a caller. *)
Record EthCaller `{GoEthereum} := mkCaller {
  ctx_Err : option GoError;
  CallContract : option (Address -> bytes -> result GoError bytes);
}.

Record SpotBalance := { Total : Z; Hold : Z; EntryNtl : Z }.
Record AccountMarginSummary := { AccountValue : Z; MarginUsed : Z; NtlPos : Z; RawUsd : Z }.
Record TokenInfo `{GoEthereum} := {
  ti_Name : string; Spots : list Z; DeployerTradingFeeShare : Z; Deployer : Address; EvmContract : Address;
  SzDecimals : Z; WeiDecimals : Z; EvmExtraWeiDecimals : Z;
}.
Record MarginAndSpot := { ms_Margin : AccountMarginSummary; ms_Spot : SpotBalance }.
Record PerpSnapshot := { ps_Margin : AccountMarginSummary; ps_Withdrawable : Z }.

Section precompiles.
Context `{G : GoEthereum} `{AB : !Abi}.

Definition SpotBalancePrecompile : Address := HexToAddress "0x0000000000000000000000000000000000000801".
Definition WithdrawablePrecompile : Address := HexToAddress "0x0000000000000000000000000000000000000803".
Definition TokenInfoPrecompile : Address := HexToAddress "0x000000000000000000000000000000000000080C".
Definition AccountMarginSummaryPrecompile : Address := HexToAddress "0x000000000000000000000000000000000000080F".
Definition CoreUserExistsPrecompile : Address := HexToAddress "0x0000000000000000000000000000000000000810".
Definition Multicall3Address : Address := HexToAddress "0xcA11bde05977b3631167028862bE2a173976CA11".

Definition spotBalanceInputs : list AbiType := [T_address; T_uint64].
Definition accountMarginInputs : list AbiType := [T_uint32; T_address].
Definition accountMarginOutputs : list AbiType := [T_int64; T_uint64; T_uint64; T_int64].
Definition addressInputs : list AbiType := [T_address].
Definition uint64Outputs : list AbiType := [T_uint64].
Definition boolOutputs : list AbiType := [T_bool].
Definition spotBalanceOutputs : list AbiType := [T_uint64; T_uint64; T_uint64].
Definition tokenInfoInputs : list AbiType := [T_uint32].
Definition tokenInfoOutputs : list AbiType :=
  [T_tuple [T_string; T_slice T_uint64; T_uint64; T_address; T_address; T_uint8; T_uint8; T_int8]].
Definition aggregate3Selector : bytes :=
  take 4 (Hash_Bytes (Keccak256Hash (String.list_byte_of_string "aggregate3((address,bool,bytes)[])"))).
Definition aggregate3Inputs : list AbiType := [T_slice (T_tuple [T_address; T_bool; T_bytes])].
Definition aggregate3Outputs : list AbiType := [T_slice (T_tuple [T_bool; T_bytes])].

Definition as_int64 (v : option AbiValue) : outcome Z :=
  match v with Some (V_int64 v) => Val v | _ => Panic "interface conversion" end.

(** ** Calls *)

Definition unpackCanonical (name : string) (args : list AbiType) (out : bytes) (size : nat) : result GoError (list AbiValue) :=
  if (0 <? size)%nat && negb (length out =? size)%nat then
    Err (errors_New ("hypercore: decoding " +:+ name +:+ " output: got " +:+ pretty (length out) +:+ " bytes, want " +:+ pretty size))
  else
    match Unpack args out with
    | Err e => Err (Errorf_w ("hypercore: decoding " +:+ name +:+ " output: ") e "")
    | Ok values =>
        match Pack args values with
        | Err e => Err (Errorf_w ("hypercore: validating " +:+ name +:+ " output: ") e "")
        | Ok canonical =>
            if bool_decide (canonical = out) then Ok values
            else Err (errors_New ("hypercore: decoding " +:+ name +:+ " output: noncanonical ABI encoding"))
        end
    end.

Definition callLatest (caller : EthCaller) (name : string) (target : Address) (input : bytes) : result GoError bytes :=
  match ctx_Err caller with
  | Some e => Err (Errorf_w ("hypercore: calling " +:+ name +:+ ": ") e "")
  | None =>
      match CallContract caller with
      | None => Err (errors_New ("hypercore: calling " +:+ name +:+ ": EVM caller is required"))
      | Some call =>
          match call target input with
          | Err e => Err (Errorf_w ("hypercore: calling " +:+ name +:+ ": ") e "")
          | Ok out => Ok out
          end
      end
  end.

(** [args.Pack(values...)] for the input of [name]. *)
Definition pack_input (name : string) (args : list AbiType) (values : list AbiValue) : result GoError bytes :=
  match Pack args values with
  | Err e => Err (Errorf_w ("hypercore: packing " +:+ name +:+ " input: ") e "")
  | Ok input => Ok input
  end.

Definition readPrecompile (caller : EthCaller) (name : string) (target : Address) (args : list AbiType) (values : list AbiValue) :
    result GoError bytes :=
  let? input := pack_input name args values in callLatest caller name target input.

(** [if err != nil { return err }] *)
Definition ok {A} (r : result GoError A) : outcome A := match r with Ok a => Val a | Err e => Fail e end.

Definition decodeSpotBalance (out : bytes) : outcome SpotBalance :=
  let^ values := ok (unpackCanonical "spotBalance" spotBalanceOutputs out 96) in
  let^ total := as_uint64 (values !! 0%nat) in
  let^ hold := as_uint64 (values !! 1%nat) in
  let^ entry := as_uint64 (values !! 2%nat) in
  Val {| Total := total; Hold := hold; EntryNtl := entry |}.

Definition decodeAccountMarginSummary (out : bytes) : outcome AccountMarginSummary :=
  let^ values := ok (unpackCanonical "accountMarginSummary" accountMarginOutputs out 128) in
  let^ value := as_int64 (values !! 0%nat) in
  let^ used := as_uint64 (values !! 1%nat) in
  let^ pos := as_uint64 (values !! 2%nat) in
  let^ raw := as_int64 (values !! 3%nat) in
  Val {| AccountValue := value; MarginUsed := used; NtlPos := pos; RawUsd := raw |}.

Definition decodeWithdrawable (out : bytes) : outcome Z :=
  let^ values := ok (unpackCanonical "withdrawable" uint64Outputs out 32) in as_uint64 (values !! 0%nat).

Definition ReadSpotBalance (caller : EthCaller) (user : Address) (token : Z) : outcome SpotBalance :=
  let^ out := ok (readPrecompile caller "spotBalance" SpotBalancePrecompile spotBalanceInputs [V_address user; V_uint64 token]) in
  decodeSpotBalance out.

Definition ReadAccountMarginSummary (caller : EthCaller) (dex : Z) (user : Address) : outcome AccountMarginSummary :=
  let^ out := ok (readPrecompile caller "accountMarginSummary" AccountMarginSummaryPrecompile accountMarginInputs
                    [V_uint32 dex; V_address user]) in
  decodeAccountMarginSummary out.

Definition ReadWithdrawable (caller : EthCaller) (user : Address) : outcome Z :=
  let^ out := ok (readPrecompile caller "withdrawable" WithdrawablePrecompile addressInputs [V_address user]) in
  decodeWithdrawable out.

Definition ReadCoreUserExists (caller : EthCaller) (user : Address) : outcome bool :=
  let^ out := ok (readPrecompile caller "coreUserExists" CoreUserExistsPrecompile addressInputs [V_address user]) in
  let^ values := ok (unpackCanonical "coreUserExists" boolOutputs out 32) in
  as_bool (values !! 0%nat).

(** [abi.ConvertType] of a decoded struct. *)
Definition uint64_of (v : AbiValue) : option Z := match v with V_uint64 n => Some n | _ => None end.
Definition as_token_info (v : option AbiValue) : outcome TokenInfo :=
  match v with
  | Some (V_tuple [V_string name; V_slice spots; V_uint64 share; V_address deployer; V_address evm; V_uint8 sz; V_uint8 wei; V_int8 extra]) =>
      match mapM uint64_of spots with
      | Some spots => Val {| ti_Name := name; Spots := spots; DeployerTradingFeeShare := share; Deployer := deployer; EvmContract := evm;
                             SzDecimals := sz; WeiDecimals := wei; EvmExtraWeiDecimals := extra |}
      | None => Panic "abi: cannot convert"
      end
  | _ => Panic "abi: cannot convert"
  end.

Definition ReadTokenInfo (caller : EthCaller) (token : Z) : outcome TokenInfo :=
  let^ out := ok (readPrecompile caller "tokenInfo" TokenInfoPrecompile tokenInfoInputs [V_uint32 token]) in
  let^ values := ok (unpackCanonical "tokenInfo" tokenInfoOutputs out 0) in
  as_token_info (values !! 0%nat).

(** ** Two reads in one execution *)

Definition as_result (v : AbiValue) : option (bool * bytes) :=
  match v with V_tuple [V_bool success; V_bytes data] => Some (success, data) | _ => None end.
Definition as_results (v : option AbiValue) : outcome (list (bool * bytes)) :=
  match v with
  | Some (V_slice vs) => match mapM as_result vs with Some rs => Val rs | None => Panic "abi: cannot convert" end
  | _ => Panic "abi: cannot convert"
  end.

(** [multicallCall] with failure allowed. *)
Definition multicall (target : Address) (data : bytes) : AbiValue := V_tuple [V_address target; V_bool true; V_bytes data].

Definition failed_subcall {A} (name : string) : outcome A :=
  Fail (errors_New ("hypercore: " +:+ name +:+ " subcall failed inside aggregate3")).

Definition readMarginPair (caller : EthCaller) (dex : Z) (user : Address) (secondName : string) (secondTarget : Address)
    (secondInput : bytes) : outcome (AccountMarginSummary * bytes) :=
  let^ marginInput := ok (pack_input "accountMarginSummary" accountMarginInputs [V_uint32 dex; V_address user]) in
  let^ input := ok (pack_input "aggregate3" aggregate3Inputs
                      [V_slice [multicall AccountMarginSummaryPrecompile marginInput; multicall secondTarget secondInput]]) in
  let^ out := ok (callLatest caller "aggregate3" Multicall3Address (aggregate3Selector ++ input)) in
  let^ values := ok (unpackCanonical "aggregate3" aggregate3Outputs out 0) in
  let^ results := as_results (values !! 0%nat) in
  match results with
  | [(first, marginData); (second, secondData)] =>
      if negb first then failed_subcall "accountMarginSummary"
      else if negb second then failed_subcall secondName
      else let^ margin := decodeAccountMarginSummary marginData in Val (margin, secondData)
  | _ => Fail (errors_New ("hypercore: aggregate3 returned " +:+ pretty (length results) +:+ " results, want 2"))
  end.

Definition ReadMarginAndSpot (caller : EthCaller) (dex : Z) (user : Address) (token : Z) : outcome MarginAndSpot :=
  let^ secondInput := ok (pack_input "spotBalance" spotBalanceInputs [V_address user; V_uint64 token]) in
  let^ (margin, second) := readMarginPair caller dex user "spotBalance" SpotBalancePrecompile secondInput in
  let^ spot := decodeSpotBalance second in
  Val {| ms_Margin := margin; ms_Spot := spot |}.

Definition ReadPerpSnapshot (caller : EthCaller) (dex : Z) (user : Address) : outcome PerpSnapshot :=
  let^ secondInput := ok (pack_input "withdrawable" addressInputs [V_address user]) in
  let^ (margin, second) := readMarginPair caller dex user "withdrawable" WithdrawablePrecompile secondInput in
  let^ withdrawable := decodeWithdrawable second in
  Val {| ps_Margin := margin; ps_Withdrawable := withdrawable |}.

End precompiles.

(** ** What a read proves *)

Section exact.
Context `{G : GoEthereum} `{AB : !Abi} `{AL : !AbiLaws}.

Lemma ok_Val {A} (r : result GoError A) a : ok r = Val a <-> r = Ok a.
Proof. destruct r; simpl; split; congruence. Qed.

Lemma unpackCanonical_Ok name args out size values : unpackCanonical name args out size = Ok values <->
  (size = 0%nat \/ length out = size) /\ Unpack args out = Ok values /\ Pack args values = Ok out.
Proof.
  unfold unpackCanonical. destruct (Nat.ltb_spec 0 size), (Nat.eqb_spec (length out) size) as [E|E]; cbn [andb negb].
  2: { split; [done|]. intros [[]]; lia. }
  all: destruct (Unpack args out) as [vs|]; [|split; [done|by intros (_ & ? & _)]].
  all: destruct (Pack args vs) as [c|] eqn:Ep; [|split; [done|intros (_ & [= <-] & ?); congruence]].
  all: case_bool_decide as Hc; [|split; [done|intros (_ & [= <-] & Hp); rewrite Ep in Hp; by injection Hp]].
  all: split; [intros [= <-]; rewrite Ep, Hc; split; [lia|done]|by intros (_ & ? & _)].
Qed.

(** Values of the types asked, and how a sequence of assertions reads them. *)
Lemma typed_uint64 v : has_type v T_uint64 -> exists n, v = V_uint64 n.
Proof. destruct v; try done. by eauto. Qed.
Lemma typed_int64 v : has_type v T_int64 -> exists n, v = V_int64 n.
Proof. destruct v; try done. by eauto. Qed.

Definition spot_values (b : SpotBalance) : list AbiValue := [V_uint64 (Total b); V_uint64 (Hold b); V_uint64 (EntryNtl b)].
Definition margin_values (s : AccountMarginSummary) : list AbiValue :=
  [V_int64 (AccountValue s); V_uint64 (MarginUsed s); V_uint64 (NtlPos s); V_int64 (RawUsd s)].

(** [out] is the canonical encoding of [values], of [size] bytes. *)
Definition encodes (args : list AbiType) (size : nat) (values : list AbiValue) (out : bytes) : Prop :=
  (size = 0%nat \/ length out = size) /\ Unpack args out = Ok values /\ Pack args values = Ok out.

Lemma decodeSpotBalance_exact out b : decodeSpotBalance out = Val b <-> encodes spotBalanceOutputs 96 (spot_values b) out.
Proof.
  unfold decodeSpotBalance, encodes. rewrite <- (unpackCanonical_Ok "spotBalance").
  destruct (unpackCanonical _ _ _ _) as [vs|] eqn:E; [|done]. cbn [ok obind].
  apply unpackCanonical_Ok in E as (_ & E%Unpack_typed & _). unfold spotBalanceOutputs in E.
  do 3 (apply Forall2_cons_inv_r in E as (? & ? & (? & ->)%typed_uint64 & E & ->)). apply Forall2_nil_inv_r in E as ->.
  cbn. unfold spot_values. split; [by intros [= <-]|intros [= -> -> ->]; by destruct b].
Qed.

Lemma decodeAccountMarginSummary_exact out s :
  decodeAccountMarginSummary out = Val s <-> encodes accountMarginOutputs 128 (margin_values s) out.
Proof.
  unfold decodeAccountMarginSummary, encodes. rewrite <- (unpackCanonical_Ok "accountMarginSummary").
  destruct (unpackCanonical _ _ _ _) as [vs|] eqn:E; [|done]. cbn [ok obind].
  apply unpackCanonical_Ok in E as (_ & E%Unpack_typed & _). unfold accountMarginOutputs in E.
  apply Forall2_cons_inv_r in E as (? & ? & (? & ->)%typed_int64 & E & ->).
  do 2 (apply Forall2_cons_inv_r in E as (? & ? & (? & ->)%typed_uint64 & E & ->)).
  apply Forall2_cons_inv_r in E as (? & ? & (? & ->)%typed_int64 & E & ->). apply Forall2_nil_inv_r in E as ->.
  cbn. unfold margin_values. split; [by intros [= <-]|intros [= -> -> -> ->]; by destruct s].
Qed.


Lemma typed_slice vs t : has_type (V_slice vs) (T_slice t) -> Forall (fun v => has_type v t) vs.
Proof. induction vs as [|v vs IH]; simpl; [constructor|]. intros [H1 H2]. constructor; [done|by apply IH]. Qed.

Lemma typed_result v : has_type v (T_tuple [T_bool; T_bytes]) -> exists success data, v = V_tuple [V_bool success; V_bytes data].
Proof. destruct v as [| | | | | | | | | | |vs|]; try done. destruct vs as [|[] [|[] []]]; simpl; try tauto. eauto. Qed.

(** Results decoded as the ABI type says convert, and nothing else is read from them. *)
Lemma as_results_typed vs : Forall (fun v => has_type v (T_tuple [T_bool; T_bytes])) vs ->
  exists rs, mapM as_result vs = Some rs /\ vs = (fun r => V_tuple [V_bool r.1; V_bytes r.2]) <$> rs.
Proof.
  induction 1 as [|v vs (success & data & ->)%typed_result _ (rs & Hrs & ->)]; [by exists []|].
  exists ((success, data) :: rs). simpl. by rewrite Hrs.
Qed.

Definition pair_values (first second : bytes) : list AbiValue :=
  [V_slice [V_tuple [V_bool true; V_bytes first]; V_tuple [V_bool true; V_bytes second]]].

(** The one call of the pair: who is called, with which bytes, and its answer. *)
Definition pair_called (caller : EthCaller) (dex : Z) (user : Address) (target : Address) (secondInput out : bytes) : Prop :=
  ctx_Err caller = None /\ exists call marginInput input,
    CallContract caller = Some call /\
    Pack accountMarginInputs [V_uint32 dex; V_address user] = Ok marginInput /\
    Pack aggregate3Inputs [V_slice [multicall AccountMarginSummaryPrecompile marginInput; multicall target secondInput]] = Ok input /\
    call Multicall3Address (aggregate3Selector ++ input) = Ok out.

Lemma pack_input_Ok name args values input : pack_input name args values = Ok input <-> Pack args values = Ok input.
Proof. unfold pack_input. by destruct (Pack args values). Qed.

Lemma callLatest_Ok caller name target input out : callLatest caller name target input = Ok out <->
  ctx_Err caller = None /\ exists call, CallContract caller = Some call /\ call target input = Ok out.
Proof.
  unfold callLatest. destruct (ctx_Err caller); [split; [done|by intros []]|].
  destruct (CallContract caller) as [call|]; [|split; [done|by intros (_ & ? & ? & _)]].
  split; [intros H; split; [done|]; exists call; by destruct (call target input)|].
  intros (_ & ? & [= <-] & ->). done.
Qed.

Lemma readMarginPair_exact caller dex user name target secondInput margin second :
  readMarginPair caller dex user name target secondInput = Val (margin, second) <->
  exists out first, pair_called caller dex user target secondInput out /\
    encodes aggregate3Outputs 0 (pair_values first second) out /\ encodes accountMarginOutputs 128 (margin_values margin) first.
Proof.
  unfold readMarginPair, pair_called, encodes at 1. split.
  - intros (mi & Hmi%ok_Val%pack_input_Ok & (input & Hi%ok_Val%pack_input_Ok & (out & Ho%ok_Val%callLatest_Ok & H)%obind_Val)%obind_Val)%obind_Val.
    apply obind_Val in H as (values & (_ & Hu & Hp)%ok_Val%unpackCanonical_Ok & H).
    pose proof (Unpack_typed _ _ _ Hu) as Ht. unfold aggregate3Outputs in Ht.
    apply Forall2_cons_inv_r in Ht as (v & ? & Hv & Ht & ->). apply Forall2_nil_inv_r in Ht as ->.
    destruct v as [| | | | | | | | | | | |vs]; try done. apply typed_slice, as_results_typed in Hv as (rs & Hrs & ->).
    cbn [lookup list_lookup as_results] in H. rewrite Hrs in H. cbn [obind] in H.
    destruct rs as [|[[] first] [|[[] sec] [|]]]; try done. cbn [negb] in H.
    apply obind_Val in H as (m & Hm%decodeAccountMarginSummary_exact & [= -> ->]).
    exists out, first. destruct Ho as (Hc & call & ? & ?). split; [split; [done|by exists call, mi, input]|].
    split; [split; [by left|done]|done].
  - intros (out & first & (Hc & call & mi & input & Hcall & Hmi & Hi & Ho) & (_ & Hu & Hp) & Hm).
    repeat setoid_rewrite obind_Val. exists mi. split; [by apply ok_Val, pack_input_Ok|].
    exists input. split; [by apply ok_Val, pack_input_Ok|]. exists out. split; [by apply ok_Val, callLatest_Ok; eauto|].
    eexists. split; [apply ok_Val, unpackCanonical_Ok; split; [by left|done]|].
    eexists. split; [reflexivity|]. cbn [negb]. apply obind_Val. exists margin. split; [by apply decodeAccountMarginSummary_exact|done].
Qed.

(** C34: a margin-and-spot read yields a result exactly when its one call, to
    Multicall3 with both precompile calls packed, answered the canonical encoding
    of two successful results, whose data are the canonical encodings of the
    margin summary and of the spot balance returned; nothing is read separately
    and nothing is lost. *)
Theorem ReadMarginAndSpot_exact caller dex user token r :
  ReadMarginAndSpot caller dex user token = Val r <->
  exists spotInput out margin spot,
    Pack spotBalanceInputs [V_address user; V_uint64 token] = Ok spotInput /\
    pair_called caller dex user SpotBalancePrecompile spotInput out /\
    encodes aggregate3Outputs 0 (pair_values margin spot) out /\
    encodes accountMarginOutputs 128 (margin_values (ms_Margin r)) margin /\
    encodes spotBalanceOutputs 96 (spot_values (ms_Spot r)) spot.
Proof.
  unfold ReadMarginAndSpot. rewrite obind_Val. setoid_rewrite ok_Val. setoid_rewrite pack_input_Ok. split.
  - intros (si & Hsi & ([m s] & (out & first & Hc & Ho & Hm)%readMarginPair_exact & H)%obind_Val).
    apply obind_Val in H as (spot & Hs%decodeSpotBalance_exact & [= <-]). by exists si, out, first, s.
  - intros (si & out & first & s & Hsi & Hc & Ho & Hm & Hs). exists si. split; [done|]. apply obind_Val.
    exists (ms_Margin r, s). split; [apply readMarginPair_exact; by exists out, first|].
    apply obind_Val. exists (ms_Spot r). split; [by apply decodeSpotBalance_exact|by destruct r].
Qed.

End exact.
