(* ===== verification/HyperAction.v ===== *)
(** * Signed Hyperliquid actions (providers/hyperliquid/action.go, exchange.go, info.go)

    The typed actions, the connection id that binds an action to its nonce,
    vault and expiry, the agent digest, and the signed envelope on the wire.
    MessagePack, Keccak-256 and the curve are parameters; a JSON value the
    envelope carries is its text. *)
From Stdlib Require Import Ascii Strings.Byte.
From S2P Require Export Decimal Abi.
Local Open Scope Z_scope.
Local Open Scope go_scope.

(** ** Addresses *)

Definition is_hex (c : Ascii.ascii) : bool := match hex_value c with Some _ => true | None => false end.

(** [^0x[0-9a-fA-F]{40}$] *)
Definition addressPattern (s : string) : bool := HasPrefix s "0x" && (slen s =? 42)%nat && sforall is_hex (sdrop 2 s).

(** [strings.ToLower] of ASCII text. *)
Fixpoint ToLower_ascii (s : string) : string :=
  match s with
  | "" => ""
  | String c s => String (if byte_in 65 90 c then ascii_of_N (byte_N c + 32) else c) (ToLower_ascii s)
  end.

Section normalize.
Context `{U : UnicodeTables}.

Definition NormalizeAddress (address : string) : result GoError string :=
  let trimmed := TrimSpace address in
  if addressPattern trimmed then Ok (ToLower_ascii trimmed)
  else Err (Errorf_w "" ErrInvalidAddress_v (": " +:+ strconv_Quote address)).

End normalize.

(** ** Actions *)

Record TriggerOrderType := { IsMarket : bool; TriggerPrice : string; TPSL : string }.
Record OrderType := { OLimit : option string (* Tif *); OTrigger : option TriggerOrderType }.
Record OrderWire := {
  Asset : Z; IsBuy : bool; LimitPrice : string; WSize : string; ReduceOnly : bool; WOrderType : OrderType; Cloid : string;
}.
Record OrderAction := { oa_Type : string; Orders : list OrderWire; Grouping : string }.
Record CancelByCloidWire := { c_Asset : Z; c_Cloid : string }.
Record CancelByCloidAction := { ca_Type : string; Cancels : list CancelByCloidWire }.

Definition NewOrderAction (order : OrderWire) : OrderAction := {| oa_Type := "order"; Orders := [order]; Grouping := "na" |}.
Definition NewCancelByCloidAction (cancel : CancelByCloidWire) : CancelByCloidAction :=
  {| ca_Type := "cancelByCloid"; Cancels := [cancel] |}.

(** An action is [any]: one of the package's or the caller's own. *)
Inductive Action (X : Type) := AOrder (a : OrderAction) | ACancel (a : CancelByCloidAction) | AOther (x : X).
Arguments AOrder {X} a.
Arguments ACancel {X} a.
Arguments AOther {X} x.

(** MessagePack with compact numbers, and go-ethereum's curve. *)
Class ActionCodec `{GoEthereum} := {
  OtherAction : Type;
  msgpack_Encode : Action OtherAction -> result GoError bytes;
  msgpack_value : bytes -> Prop;       (* one complete MessagePack value *)
  Address_Bytes : Address -> bytes;
  SigToAddress : bytes -> bytes -> result GoError Address;   (* crypto.SigToPub, then PubkeyToAddress *)
}.

(** A MessagePack value shows where it ends, and the package's own actions are
    encoded to one (a caller's action may encode itself to anything); an address is
    its twenty bytes, and its text is read without regard to case. *)
Definition own_action {X} (a : Action X) : Prop := match a with AOther _ => False | _ => True end.
Class ActionCodecLaws `{Abi} `{!ActionCodec} : Prop := {
  msgpack_ends x y u v : msgpack_value x -> msgpack_value y -> x ++ u = y ++ v -> x = y;
  msgpack_own a x : own_action a -> msgpack_Encode a = Ok x -> msgpack_value x;
  Address_Bytes_inj a b : Address_Bytes a = Address_Bytes b -> a = b;
  Address_Bytes_len a : length (Address_Bytes a) = 20%nat;
  HexToAddress_lower s : addressPattern s = true -> HexToAddress (ToLower_ascii s) = HexToAddress s;
}.

Definition text_bytes (s : string) : bytes := String.list_byte_of_string s.

(** [binary.BigEndian.AppendUint64] of what is appended. *)
Definition be64 (z : Z) : bytes :=
  map byte_of [Z.shiftr z 56; Z.shiftr z 48; Z.shiftr z 40; Z.shiftr z 32; Z.shiftr z 24; Z.shiftr z 16; Z.shiftr z 8; z].

Definition LeftPadBytes (b : bytes) (n : nat) : bytes := replicate (n - length b) x00 ++ b.

Definition SignatureLength : nat := 65.
Definition agentChainID : Z := 1337.
Definition agentPrimaryType : string := "Agent(string source,bytes32 connectionId)".
Definition eip712DomainType : string := "EIP712Domain(string name,string version,uint256 chainId,address verifyingContract)".
Definition agentDomainName : string := "Exchange".
Definition agentDomainVersion : string := "1".
Definition SigningSourceMainnet : string := "a".
Definition SigningSourceTestnet : string := "b".

Section actions.
Context `{U : UnicodeTables} `{AB : Abi} `{AC : !ActionCodec}.

(** The last positive limit wins; a nil option is [None]. *)
Definition WithActionEncodingLimit (maxBytes : Z) (cfg : Z) : Z := if 0 <? maxBytes then maxBytes else cfg.
Definition encoding_limit (opts : list (option Z)) : Z :=
  foldl (fun cfg opt => match opt with Some n => WithActionEncodingLimit n cfg | None => cfg end) 0 opts.

Definition EncodeAction (action : Action OtherAction) (opts : list (option Z)) : result GoError bytes :=
  match msgpack_Encode action with
  | Err e => Err (Errorf_w "hyperliquid: encoding action: " e "")
  | Ok encoded =>
      let maxBytes := encoding_limit opts in
      if (0 <? maxBytes) && (maxBytes <? Z.of_nat (length encoded)) then Err ErrActionTooLarge_v else Ok encoded
  end.

(** The vault's part of the preimage. *)
Definition vault_bytes (vaultAddress : string) : result GoError bytes :=
  let vault := TrimSpace vaultAddress in
  if String.eqb vault "" then Ok [x00]
  else match NormalizeAddress vault with
       | Err _ => Err ErrInvalidAddress_v
       | Ok _ => Ok (x01 :: Address_Bytes (HexToAddress vault))
       end.

Definition expiry_bytes (expiresAfter : option Z) : result GoError bytes :=
  match expiresAfter with
  | None => Ok []
  | Some t => if t <=? 0 then Err (errors_New "hyperliquid: expiresAfter must be positive") else Ok (x00 :: be64 t)
  end.

Definition ConnectionID (action : Action OtherAction) (nonce : Z) (vaultAddress : string) (expiresAfter : option Z)
    (opts : list (option Z)) : result GoError Hash :=
  let? encoded := EncodeAction action opts in
  if nonce <? 0 then Err (errors_New "hyperliquid: action nonce cannot be negative")
  else
    let? vault := vault_bytes vaultAddress in
    let? expiry := expiry_bytes expiresAfter in
    Ok (Keccak256Hash ((encoded ++ be64 nonce) ++ vault ++ expiry)).

Definition Keccak (b : bytes) : bytes := Hash_Bytes (Keccak256Hash b).

Definition agent_domain : bytes :=
  Keccak (Keccak (text_bytes eip712DomainType) ++ Keccak (text_bytes agentDomainName) ++ Keccak (text_bytes agentDomainVersion) ++
    LeftPadBytes (Bytes agentChainID) 32 ++ LeftPadBytes (Address_Bytes address_zero) 32).

Definition AgentDigest (connectionID : Hash) (source : string) : result GoError bytes :=
  if negb (String.eqb source SigningSourceMainnet) && negb (String.eqb source SigningSourceTestnet)
  then Err (errors_New ("hyperliquid: unsupported signing source " +:+ strconv_Quote source))
  else
    let structHash := Keccak (Keccak (text_bytes agentPrimaryType) ++ Keccak (text_bytes source) ++ Hash_Bytes connectionID) in
    Ok (Keccak ([x19; x01] ++ agent_domain ++ structHash)).

(** The recovery id as 0 or 1. *)
Definition recovery_id (v : Byte.byte) : option Byte.byte :=
  match v with x1b | x00 => Some x00 | x1c | x01 => Some x01 | _ => None end.

Definition RecoverActionSigner (digest signature : bytes) : result GoError string :=
  if negb (length signature =? SignatureLength)%nat then Err ErrMalformedSignature_v
  else
    match signature !! 64%nat with
    | None => Err ErrMalformedSignature_v
    | Some v =>
        match recovery_id v with
        | None => Err ErrMalformedSignature_v
        | Some v =>
            match SigToAddress digest (take 64 signature ++ [v]) with
            | Err err => Err (Errorf_w "" ErrMalformedSignature_v (": " +:+ Error err))
            | Ok address => Ok (ToLower_ascii (Address_Hex address))
            end
        end
    end.

Definition VerifyActionSignature (action : Action OtherAction) (nonce : Z) (vaultAddress : string) (expiresAfter : option Z)
    (source : string) (signature : bytes) (opts : list (option Z)) : result GoError string :=
  let? connectionID := ConnectionID action nonce vaultAddress expiresAfter opts in
  let? digest := AgentDigest connectionID source in
  RecoverActionSigner digest signature.

(** ** The envelope *)

Record SignedEnvelope := {
  e_Action : string; e_Nonce : Z; e_Signature : bytes; e_VaultAddress : string; e_ExpiresAfter : option Z;
}.
Record ExchangeSignature := { sig_R : string; sig_S : string; sig_V : Z }.
Record ExchangeRequest := {
  r_Action : string; r_Nonce : Z; r_Signature : ExchangeSignature; r_VaultAddress : option string; r_ExpiresAfter : option Z;
}.

Definition DecodeSignatureScalar (raw : string) : result GoError bytes :=
  if negb (HasPrefix raw "0x") || (slen raw <? 3)%nat || (66 <? slen raw)%nat then Err ErrMalformedSignature_v
  else match DecodeString (Repeat "0" (66 - slen raw) +:+ sdrop 2 raw) with
       | Some out => Ok out
       | None => Err ErrMalformedSignature_v
       end.

(** From the strictly decoded request; [None] when decoding it failed, or
    something followed it. *)
Definition DecodeEnvelope (request : option ExchangeRequest) : result GoError SignedEnvelope :=
  match request with
  | None => Err ErrMalformedEnvelope_v
  | Some request =>
      if (r_Nonce request <? 0) || (slen (r_Action request) =? 0)%nat ||
         match r_ExpiresAfter request with Some t => t <=? 0 | None => false end
      then Err ErrMalformedEnvelope_v
      else
        match DecodeSignatureScalar (sig_R (r_Signature request)) with
        | Err _ => Err ErrMalformedEnvelope_v
        | Ok r =>
            match DecodeSignatureScalar (sig_S (r_Signature request)) with
            | Err _ => Err ErrMalformedEnvelope_v
            | Ok s =>
                let v := sig_V (r_Signature request) in
                if negb (v =? 0) && negb (v =? 1) && negb (v =? 27) && negb (v =? 28) then Err ErrMalformedEnvelope_v
                else Ok {| e_Action := r_Action request; e_Nonce := r_Nonce request; e_ExpiresAfter := r_ExpiresAfter request;
                           e_Signature := (r ++ s) ++ [byte_of v]; e_VaultAddress := default "" (r_VaultAddress request) |}
            end
        end
  end.

Definition NewExchangeRequest (envelope : SignedEnvelope) : result GoError ExchangeRequest :=
  if negb (length (e_Signature envelope) =? SignatureLength)%nat then Err ErrMalformedSignature_v
  else if (slen (e_Action envelope) =? 0)%nat then Err (errors_New "hyperliquid: action is required")
  else
    let recovery := byte_int (default x00 (e_Signature envelope !! 64%nat)) in
    let? recovery := if (recovery =? 0) || (recovery =? 1) then Ok (recovery + 27)
                     else if (recovery =? 27) || (recovery =? 28) then Ok recovery
                     else Err ErrMalformedSignature_v in
    let request vault :=
      {| r_Action := e_Action envelope; r_Nonce := e_Nonce envelope; r_ExpiresAfter := e_ExpiresAfter envelope;
         r_Signature := {| sig_R := "0x" +:+ EncodeToString (take 32 (e_Signature envelope));
                           sig_S := "0x" +:+ EncodeToString (take 32 (drop 32 (e_Signature envelope))); sig_V := recovery |};
         r_VaultAddress := vault |} in
    let vault := TrimSpace (e_VaultAddress envelope) in
    if String.eqb vault "" then Ok (request None)
    else match NormalizeAddress vault with
         | Err _ => Err ErrInvalidAddress_v
         | Ok normalized => Ok (request (Some normalized))
         end.

End actions.

(** ** Facts about the parts *)

Lemma be64_len z : length (be64 z) = 8%nat.
Proof. done. Qed.

Lemma be64_value z : 0 <= z < 2 ^ 64 -> SetBytes (be64 z) = z.
Proof. apply SetBytes_64. Qed.

Lemma be64_inj a b : 0 <= a < 2 ^ 64 -> 0 <= b < 2 ^ 64 -> be64 a = be64 b -> a = b.
Proof. intros Ha Hb E. by rewrite <- (be64_value a Ha), <- (be64_value b Hb), E. Qed.

Lemma text_bytes_inj s t : text_bytes s = text_bytes t -> s = t.
Proof.
  intros E%(f_equal String.string_of_list_byte). unfold text_bytes in E. by rewrite !String.string_of_list_byte_of_string in E.
Qed.

Lemma HasPrefix_cons2 s : HasPrefix s "0x" = true -> exists t, s = String "0" (String "x" t).
Proof. intros [t ->]%HasPrefix_spec. by exists t. Qed.

Lemma hex_plain c : is_hex c = true -> plain c = true.
Proof. unfold is_hex, hex_value, plain, byte_in, byte_N. repeat case_match; intros; try done; lia. Qed.

Lemma addressPattern_plain s : addressPattern s = true -> sforall plain s = true.
Proof.
  unfold addressPattern. intros [[(t & ->)%HasPrefix_cons2 _]%andb_true_iff H]%andb_true_iff. cbn [sdrop] in H. cbn [sforall].
  rewrite (sforall_impl _ _ _ hex_plain H). done.
Qed.

Lemma lower_hex c : is_hex c = true -> is_hex (if byte_in 65 90 c then ascii_of_N (byte_N c + 32) else c) = true.
Proof.
  destruct (byte_in 65 90 c) eqn:E; [|done]. unfold is_hex, hex_value, byte_in, byte_N in *. intros H.
  rewrite N_ascii_embedding by lia. repeat case_match; lia || done.
Qed.

Lemma ToLower_ascii_len s : slen (ToLower_ascii s) = slen s.
Proof. induction s as [|c s IH]; [done|]. simpl. by rewrite IH. Qed.

Lemma ToLower_ascii_hex s : sforall is_hex s = true -> sforall is_hex (ToLower_ascii s) = true.
Proof. induction s as [|c s IH]; [done|]. cbn [ToLower_ascii sforall]. intros [Hc Hs]%andb_true_iff. by rewrite lower_hex, IH. Qed.

Lemma addressPattern_lower s : addressPattern s = true -> addressPattern (ToLower_ascii s) = true.
Proof.
  unfold addressPattern. intros [[(t & ->)%HasPrefix_cons2 Hl]%andb_true_iff H]%andb_true_iff. cbn [sdrop] in H.
  rewrite ToLower_ascii_len, Hl. cbn [ToLower_ascii]. change (if byte_in 65 90 "0"%char then _ else "0"%char) with "0"%char.
  change (if byte_in 65 90 "x"%char then _ else "x"%char) with "x"%char. cbn [sdrop HasPrefix]. rewrite ToLower_ascii_hex by done. by destruct (ToLower_ascii t).
Qed.

Lemma NormalizeAddress_trimmed `{UnicodeTables} s n : NormalizeAddress (TrimSpace s) = Ok n ->
  addressPattern (TrimSpace s) = true /\ n = ToLower_ascii (TrimSpace s) /\ TrimSpace n = n /\ addressPattern n = true.
Proof.
  unfold NormalizeAddress. rewrite TrimSpace_idem. destruct (addressPattern _) eqn:E; [|done]. intros [= <-].
  split; [done|]. split; [done|]. pose proof (addressPattern_lower _ E) as E'. split; [|done].
  apply TrimSpace_plain. by apply addressPattern_plain.
Qed.

(** ** What a digest binds *)

Section binding.
Context `{U : UnicodeTables} `{G : GoEthereum} `{AB : !Abi} `{AC : !ActionCodec} `{AL : !ActionCodecLaws} `{PL : !AbiPackLaws}.

(** The account a vault text names. *)
Definition vault_account (vaultAddress : string) : option Address :=
  let vault := TrimSpace vaultAddress in if String.eqb vault "" then None else Some (HexToAddress vault).

Lemma vault_bytes_inv v b : vault_bytes v = Ok b ->
  b = match vault_account v with None => [x00] | Some a => x01 :: Address_Bytes a end.
Proof.
  unfold vault_bytes, vault_account. destruct (String.eqb _ _); [by intros [= <-]|].
  destruct (NormalizeAddress _); [by intros [= <-]|done].
Qed.

Lemma expiry_bytes_inv e b : expiry_bytes e = Ok b ->
  b = match e with None => [] | Some t => x00 :: be64 t end /\ forall t, e = Some t -> 0 < t.
Proof.
  unfold expiry_bytes. destruct e as [t|]; [|by intros [= <-]]. destruct (Z.leb_spec t 0); [done|].
  intros [= <-]. split; [done|]. by intros ? [= <-].
Qed.

Lemma ConnectionID_inv action nonce vault expiry opts h : ConnectionID action nonce vault expiry opts = Ok h ->
  exists encoded, msgpack_Encode action = Ok encoded /\ 0 <= nonce /\ (forall t, expiry = Some t -> 0 < t) /\
    h = Keccak256Hash (encoded ++ be64 nonce ++
          match vault_account vault with None => [x00] | Some a => x01 :: Address_Bytes a end ++
          match expiry with None => [] | Some t => x00 :: be64 t end).
Proof.
  unfold ConnectionID. intros (enc & He & H)%result_bind_Ok. destruct (Z.ltb_spec nonce 0); [done|].
  apply result_bind_Ok in H as (v & Hv%vault_bytes_inv & H). apply result_bind_Ok in H as (e & [-> Hp]%expiry_bytes_inv & [= <-]).
  exists enc. unfold EncodeAction in He. destruct (msgpack_Encode action) as [x|]; [|done].
  destruct ((0 <? _) && _); [done|]. injection He as <-. split; [done|]. split; [done|]. split; [done|].
  by rewrite <- app_assoc, Hv.
Qed.

(** The parts after the action are told apart. *)
Lemma preimage_tail n v e n' v' e' : 0 <= n < 2 ^ 64 -> 0 <= n' < 2 ^ 64 ->
  (forall t, e = Some t -> 0 < t < 2 ^ 64) -> (forall t, e' = Some t -> 0 < t < 2 ^ 64) ->
  be64 n ++ match v with None => [x00] | Some a => x01 :: Address_Bytes a end ++ match e with None => [] | Some t => x00 :: be64 t end =
  be64 n' ++ match v' with None => [x00] | Some a => x01 :: Address_Bytes a end ++ match e' with None => [] | Some t => x00 :: be64 t end ->
  n = n' /\ v = v' /\ e = e'.
Proof.
  intros Hn Hn' He He' H. apply app_inj_1 in H as [H1%be64_inj H]; [|done..].
  assert (Hv : v = v' /\ match e with None => [] | Some t => x00 :: be64 t end = match e' with None => [] | Some t => x00 :: be64 t end).
  { destruct v as [a|], v' as [a'|]; cbn [app] in H; injection H as H; [|done..].
    apply app_inj_1 in H as [->%Address_Bytes_inj H]; [done|by rewrite !Address_Bytes_len]. }
  destruct Hv as [-> Hv]. split; [done|]. split; [done|].
  destruct e as [t|], e' as [t'|]; [|done|done|done]. f_equal. specialize (He t eq_refl). specialize (He' t' eq_refl).
  apply (f_equal (@tl _)) in Hv. apply be64_inj; [lia|lia|exact Hv].
Qed.

(** What the venue hashes: the connection's preimage, the struct of the agent with
    the connection's hash, and the typed message under the exchange's domain. *)
Definition connection_preimage (action : bytes) (nonce : Z) (vault : option Address) (expiry : option Z) : bytes :=
  action ++ be64 nonce ++ match vault with None => [x00] | Some a => x01 :: Address_Bytes a end ++
  match expiry with None => [] | Some t => x00 :: be64 t end.
Definition agent_struct (source : string) (connection : bytes) : bytes :=
  Keccak (text_bytes "Agent(string source,bytes32 connectionId)") ++ Keccak (text_bytes source) ++ Keccak connection.
Definition exchange_domain : bytes :=
  Keccak (text_bytes "EIP712Domain(string name,string version,uint256 chainId,address verifyingContract)") ++
  Keccak (text_bytes "Exchange") ++ Keccak (text_bytes "1") ++ (replicate 30 x00 ++ [x05; x39]) ++ LeftPadBytes (Address_Bytes address_zero) 32.
Definition typed_message (struct : bytes) : bytes := [x19; x01] ++ Keccak exchange_domain ++ Keccak struct.

Lemma Keccak_or_equal x y : Keccak x = Keccak y -> x = y \/ collide x y.
Proof. intros H%Hash_Bytes_inj. by apply collide_or_equal. Qed.

Lemma Keccak_length b : length (Keccak b) = 32%nat.
Proof. apply Hash_Bytes_len. Qed.

Lemma digest_of a n v e src opts id digest : ConnectionID a n v e opts = Ok id -> AgentDigest id src = Ok digest ->
  exists x, msgpack_Encode a = Ok x /\ 0 <= n /\ (forall t, e = Some t -> 0 < t) /\
    digest = Keccak (typed_message (agent_struct src (connection_preimage x n (vault_account v) e))).
Proof.
  intros (x & Hx & Hn & Hp & ->)%ConnectionID_inv. unfold AgentDigest. destruct (negb _ && negb _); [done|]. intros [= <-].
  by exists x.
Qed.

(** Messages with one hash are of one source and one connection, or collide. *)
Lemma typed_message_binds src src' p p' :
  Keccak (typed_message (agent_struct src p)) = Keccak (typed_message (agent_struct src' p')) ->
  (src = src' /\ p = p') \/ collide p p' \/ collide (text_bytes src) (text_bytes src') \/
  collide (agent_struct src p) (agent_struct src' p') \/
  collide (typed_message (agent_struct src p)) (typed_message (agent_struct src' p')).
Proof.
  intros [E|?]%Keccak_or_equal; [|by do 4 right]. unfold typed_message in E. do 2 apply app_inv_head in E.
  apply Keccak_or_equal in E as [E|?]; [|by do 3 right; left]. unfold agent_struct in E. apply app_inv_head in E.
  apply app_inj_1 in E as [Es Ep]; [|by rewrite !Keccak_length].
  apply Keccak_or_equal in Es as [->%text_bytes_inj|?]; [|by do 2 right; left].
  apply Keccak_or_equal in Ep as [->|?]; [by left|by right; left].
Qed.

(** C31: A verified signature binds the whole request. The digest of a request is
    the hash of the venue's typed message over the action's bytes, the nonce, the
    vault's account, the expiry and the source. If two requests whose actions are
    encoded to MessagePack values (the package's own always are) lead to the same
    digest, they agree on the bytes of the action, on the nonce, on the vault's
    account (none, or the same address however it is written), on the expiry
    (absent or the same) and on the source, or else Keccak-256 collides on what was
    hashed for the two: their preimages, their sources, their structs or their
    messages. *)
Theorem action_digest_binds a n v e src opts a' n' v' e' src' opts' id id' digest
    (Ha : forall x, msgpack_Encode a = Ok x -> msgpack_value x) (Ha' : forall x, msgpack_Encode a' = Ok x -> msgpack_value x)
    (Hn : n < 2 ^ 63) (Hn' : n' < 2 ^ 63) (He : forall t, e = Some t -> t < 2 ^ 63) (He' : forall t, e' = Some t -> t < 2 ^ 63)
    (H : ConnectionID a n v e opts = Ok id) (D : AgentDigest id src = Ok digest)
    (H' : ConnectionID a' n' v' e' opts' = Ok id') (D' : AgentDigest id' src' = Ok digest) :
  exists x x', msgpack_Encode a = Ok x /\ msgpack_Encode a' = Ok x' /\
    let p := connection_preimage x n (vault_account v) e in
    let p' := connection_preimage x' n' (vault_account v') e' in
    digest = Keccak (typed_message (agent_struct src p)) /\
    ((x = x' /\ n = n' /\ vault_account v = vault_account v' /\ e = e' /\ src = src') \/
     collide p p' \/ collide (text_bytes src) (text_bytes src') \/ collide (agent_struct src p) (agent_struct src' p') \/
     collide (typed_message (agent_struct src p)) (typed_message (agent_struct src' p'))).
Proof.
  destruct (digest_of _ _ _ _ _ _ _ _ H D) as (x & Hx & Hn0 & Hp & Ed).
  destruct (digest_of _ _ _ _ _ _ _ _ H' D') as (x' & Hx' & Hn0' & Hp' & Ed').
  exists x, x'. split; [done|]. split; [done|]. cbv zeta. split; [done|].
  rewrite Ed in Ed'. apply typed_message_binds in Ed' as [[-> E]|C]; [|by right]. left. unfold connection_preimage in E.
  pose proof (msgpack_ends _ _ _ _ (Ha x Hx) (Ha' x' Hx') E) as ->. split; [done|].
  apply app_inv_head in E. apply preimage_tail in E as (-> & -> & ->); [done|lia|lia| |].
  - intros t Ht. specialize (Hp t Ht). specialize (He t Ht). lia.
  - intros t Ht. specialize (Hp' t Ht). specialize (He' t Ht). lia.
Qed.

(** ** The wire keeps what was signed *)

Lemma DecodeSignatureScalar_word b : length b = 32%nat -> DecodeSignatureScalar ("0x" +:+ EncodeToString b) = Ok b.
Proof.
  intros Hb. unfold DecodeSignatureScalar. assert (Hl : slen ("0x" +:+ EncodeToString b) = 66%nat)
    by (rewrite slen_app, slen_EncodeToString, Hb; done).
  rewrite Hl. change (HasPrefix ("0x" +:+ EncodeToString b) "0x") with (HasPrefix (EncodeToString b) "").
  replace (HasPrefix (EncodeToString b) "") with true by (by destruct (EncodeToString b)). cbn [negb orb Nat.ltb Nat.leb Nat.sub Repeat].
  change (sdrop 2 ("0x" +:+ EncodeToString b)) with (EncodeToString b). simpl String.append. by rewrite DecodeString_EncodeToString.
Qed.

Lemma recovery_normal v k : byte_int v = k -> k = 0 \/ k = 1 \/ k = 27 \/ k = 28 ->
  recovery_id (byte_of (if (k =? 0) || (k =? 1) then k + 27 else k)) = recovery_id v /\
  let k' := if (k =? 0) || (k =? 1) then k + 27 else k in k' = 27 \/ k' = 28.
Proof.
  intros <- [E|[E|[E|E]]]; pose proof (byte_of_int v) as Hv; rewrite E in *; rewrite <- Hv; vm_compute; auto.
Qed.

Lemma split_signature (sig : bytes) : length sig = SignatureLength ->
  exists r s v, sig = (r ++ s) ++ [v] /\ length r = 32%nat /\ length s = 32%nat /\
    take 32 sig = r /\ take 32 (drop 32 sig) = s /\ sig !! 64%nat = Some v.
Proof.
  intros Hl. destruct (sig !! 64%nat) as [v|] eqn:Ev; [|apply lookup_ge_None in Ev; unfold SignatureLength in Hl; lia].
  exists (take 32 sig), (take 32 (drop 32 sig)), v. split_and!; try done.
  - rewrite <- (take_drop 32 sig) at 1. rewrite <- (take_drop 32 (drop 32 sig)) at 1. rewrite drop_drop, <- app_assoc. do 2 f_equal.
    change (32 + 32)%nat with 64%nat. rewrite (drop_S _ _ _ Ev). rewrite drop_ge; [done|]. unfold SignatureLength in Hl. lia.
  - rewrite length_take. unfold SignatureLength in Hl. lia.
  - rewrite length_take, length_drop. unfold SignatureLength in Hl. lia.
Qed.

Lemma RecoverActionSigner_normal digest (r s : bytes) v w : length (r ++ s) = 64%nat -> recovery_id v = recovery_id w ->
  RecoverActionSigner digest ((r ++ s) ++ [v]) = RecoverActionSigner digest ((r ++ s) ++ [w]).
Proof.
  intros Hl E. unfold RecoverActionSigner. rewrite (length_app (r ++ s) [v]), (length_app (r ++ s) [w]), Hl. cbn [length]. rewrite !lookup_app_r by lia.
  rewrite Hl. cbn [lookup list_lookup Nat.sub]. rewrite E. by rewrite !take_app_length' by done.
Qed.

Lemma vault_bytes_normal vault n : NormalizeAddress (TrimSpace vault) = Ok n -> vault_bytes n = vault_bytes vault.
Proof.
  intros H. pose proof H as (Hp & -> & Ht & Hn)%NormalizeAddress_trimmed. unfold vault_bytes. rewrite Ht, H.
  unfold NormalizeAddress at 1. rewrite Ht, Hn, HexToAddress_lower by done.
  assert (Hne : forall s, addressPattern s = true -> String.eqb s "" = false) by (by intros []).
  by rewrite !Hne.
Qed.

(** The wire keeps what was signed. A request built from an envelope decodes
    to an envelope with the same action, nonce, expiry and signature scalars,
    and whatever action the text stands for, its signature verifies for the same
    signer, or fails the same way, as the original envelope's. *)
Theorem envelope_roundtrip envelope request (H : NewExchangeRequest envelope = Ok request)
    (Hn : 0 <= e_Nonce envelope) (He : forall t, e_ExpiresAfter envelope = Some t -> 0 < t) :
  exists decoded, DecodeEnvelope (Some request) = Ok decoded /\
    e_Action decoded = e_Action envelope /\ e_Nonce decoded = e_Nonce envelope /\ e_ExpiresAfter decoded = e_ExpiresAfter envelope /\
    take 64 (e_Signature decoded) = take 64 (e_Signature envelope) /\
    forall action source opts,
      VerifyActionSignature action (e_Nonce decoded) (e_VaultAddress decoded) (e_ExpiresAfter decoded) source (e_Signature decoded) opts =
      VerifyActionSignature action (e_Nonce envelope) (e_VaultAddress envelope) (e_ExpiresAfter envelope) source (e_Signature envelope) opts.
Proof.
  unfold NewExchangeRequest in H. destruct (Nat.eqb_spec (length (e_Signature envelope)) SignatureLength) as [Hl|]; [cbn [negb] in H|done].
  destruct (slen (e_Action envelope) =? 0)%nat eqn:Ea; [done|].
  destruct (split_signature _ Hl) as (r & s & v & Hsig & Hr & Hs & Er & Es & Ev). rewrite Er, Es, Ev in H. change (default x00 (Some v)) with v in H.
  assert (Hrs : length (r ++ s) = 64%nat) by (rewrite length_app, Hr, Hs; done).
  apply result_bind_Ok in H as (k & Hk & H).
  assert (Hv : let k0 := byte_int v in (k0 = 0 \/ k0 = 1 \/ k0 = 27 \/ k0 = 28) /\ k = if (k0 =? 0) || (k0 =? 1) then k0 + 27 else k0).
  { cbv zeta. destruct ((byte_int v =? 0) || (byte_int v =? 1)) eqn:E; [injection Hk as <-; split; [|done]; lia|].
    destruct ((byte_int v =? 27) || (byte_int v =? 28)) eqn:E'; [injection Hk as <-; split; [|done]; lia|done]. }
  destruct Hv as [Hv0 ->]. destruct (recovery_normal v _ eq_refl Hv0) as [Hrec Hk']. cbv zeta in Hk'.
  set (k := if (byte_int v =? 0) || (byte_int v =? 1) then byte_int v + 27 else byte_int v) in *.
  assert (Hvault : exists vault, request = {| r_Action := e_Action envelope; r_Nonce := e_Nonce envelope;
        r_ExpiresAfter := e_ExpiresAfter envelope; r_VaultAddress := vault;
        r_Signature := {| sig_R := "0x" +:+ EncodeToString r; sig_S := "0x" +:+ EncodeToString s; sig_V := k |} |} /\
      vault_bytes (default "" vault) = vault_bytes (e_VaultAddress envelope)).
  { destruct (String.eqb (TrimSpace (e_VaultAddress envelope)) "") eqn:Et.
    - injection H as <-. exists None. split; [done|]. unfold vault_bytes. by rewrite Et.
    - destruct (NormalizeAddress _) as [n|] eqn:En; [|done]. injection H as <-. exists (Some n). split; [done|].
      by apply vault_bytes_normal. }
  destruct Hvault as (vault & -> & Hvb). unfold DecodeEnvelope. cbn [r_Action r_Nonce r_ExpiresAfter r_Signature r_VaultAddress sig_R sig_S sig_V].
  rewrite Ea, !DecodeSignatureScalar_word by done.
  replace (e_Nonce envelope <? 0) with false by lia. cbn [orb].
  replace (match e_ExpiresAfter envelope with Some t => t <=? 0 | None => false end) with false
    by (destruct (e_ExpiresAfter envelope) as [t|]; [specialize (He t eq_refl); lia|done]).
  replace (negb (k =? 0) && negb (k =? 1) && negb (k =? 27) && negb (k =? 28)) with false by lia.
  eexists. split; [reflexivity|]. cbn [e_Action e_Nonce e_ExpiresAfter e_Signature e_VaultAddress].
  split; [done|]. split; [done|]. split; [done|]. split; [by rewrite Hsig, !take_app_length' by done|].
  intros action source opts. unfold VerifyActionSignature, ConnectionID. rewrite Hvb, Hsig.
  destruct (EncodeAction action opts); [|done]. cbn [result_bind]. destruct (_ <? 0); [done|].
  destruct (vault_bytes (e_VaultAddress envelope)) as [vb|e]; [|reflexivity]. cbn [result_bind]. destruct (expiry_bytes _); [|done]. cbn [result_bind].
  destruct (AgentDigest _ _); [|done]. cbn [result_bind]. by apply RecoverActionSigner_normal.
Qed.

End binding.
