(* ===== verification/Json.v ===== *)
(** * JSON values as package [encoding/json] stores them

    A decoded document as a tree, and how [json.Unmarshal] fills the fields of a
    struct: an object's keys match a field exactly or up to case, each match is
    stored in order, null leaves a plain field as it is and clears a pointer, and
    a value of the wrong kind is an error.  The text of that error is a
    parameter.  Numbers keep their text. *)
From Stdlib Require Import Ascii SpecFloat.
From S2P Require Export Errors Numbers.
Local Open Scope Z_scope.
Local Open Scope go_scope.

#[warnings="-register-all"]
Inductive json :=
| JNull
| JBool (b : bool)
| JNumber (text : string)
| JString (s : string)
| JArray (l : list json)
| JObject (fields : list (string * json)).

(** What [*json.UnmarshalTypeError] prints for a value and a Go type. *)
Class JsonErrors := { unmarshal_error : json -> string -> GoError }.

(** The syntax: the value a text holds, or what is wrong with it. *)
Class JsonText := { json_parse : string -> result GoError json }.

(** [json.Decoder.Decode] on a buffer: the next value and what is left, or what
    is wrong; [None] is the end of the text. *)
Class JsonStream := { json_next : string -> option (result GoError (json * string)) }.

(** [json.Decoder.Decode] of a stream that holds these bytes and then ends, or
    fails. *)
Class JsonBody := { json_decode : string -> option GoError -> result GoError json }.

(** A field name, folded: ASCII letters in upper case, and the two other runes
    that fold to one. *)
Fixpoint foldName (s : string) : string :=
  match s with
  | "" => ""
  | String a rest =>
      if byte_in 97 122 a then String (Ascii.ascii_of_N (byte_N a - 32)) (foldName rest)
      else
        match rest with
        | String b rest2 =>
            if byte_in 197 197 a && byte_in 191 191 b then String "S"%char (foldName rest2)
            else
              match rest2 with
              | String c rest3 =>
                  if byte_in 226 226 a && byte_in 132 132 b && byte_in 170 170 c then String "K"%char (foldName rest3)
                  else String a (foldName rest)
              | "" => String a (foldName rest)
              end
        | "" => String a (foldName rest)
        end
  end.

(** The values of an object a struct field with this name receives. *)
Definition matches (name : string) (fields : list (string * json)) : list json :=
  map snd (List.filter (fun kv => String.eqb (foldName (fst kv)) (foldName name)) fields).

Section decode.
Context `{JE : JsonErrors}.

Definition decoder (A : Type) : Type := A -> json -> result GoError A.

(** [json.Unmarshal(data, &v)] for a struct, seen from one of its fields. *)
Definition field {A} (d : decoder A) (zero : A) (name : string) (data : json) : result GoError A :=
  match data with
  | JNull => Ok zero
  | JObject fields => foldl (fun r v => let? old := r in d old v) (Ok zero) (matches name fields)
  | v => Err (unmarshal_error v "struct")
  end.

Definition d_string : decoder string := fun old v =>
  match v with JNull => Ok old | JString s => Ok s | v => Err (unmarshal_error v "string") end.

Definition d_bool : decoder bool := fun old v =>
  match v with JNull => Ok old | JBool b => Ok b | v => Err (unmarshal_error v "bool") end.

(** [strconv.ParseInt] and [ParseUint] of a JSON number. *)
Definition d_int (bits : Z) (type : string) : decoder Z := fun old v =>
  match v with
  | JNull => Ok old
  | JNumber text =>
      match SetString10 text with
      | Some n => if (- 2 ^ (bits - 1) <=? n) && (n <? 2 ^ (bits - 1)) then Ok n else Err (unmarshal_error v type)
      | None => Err (unmarshal_error v type)
      end
  | v => Err (unmarshal_error v type)
  end.

Definition d_uint (bits : Z) (type : string) : decoder Z := fun old v =>
  match v with
  | JNull => Ok old
  | JNumber text =>
      if negb (String.eqb text "") && all_digits text && (digits_value text <? 2 ^ bits) then Ok (digits_value text)
      else Err (unmarshal_error v type)
  | v => Err (unmarshal_error v type)
  end.

(** A pointer: null clears it. *)
Definition d_pointer {A} (d : decoder A) (zero : A) : decoder (option A) := fun old v =>
  match v with
  | JNull => Ok None
  | v => let? x := d (default zero old) v in Ok (Some x)
  end.

(** A type with its own [UnmarshalJSON]. *)
Definition d_custom {A} (u : json -> result GoError A) : decoder A := fun _ v => u v.

(** [json.RawMessage]; [None] is the empty one, of a field that is absent. *)
Definition d_raw : decoder (option json) := fun _ v => Ok (Some v).

(** A slice; null makes it nil. *)
Fixpoint each {A} (u : json -> result GoError A) (l : list json) : result GoError (list A) :=
  match l with
  | [] => Ok []
  | v :: l => let? x := u v in let? xs := each u l in Ok (x :: xs)
  end.

Definition d_slice {A} (u : json -> result GoError A) : decoder (option (list A)) := fun _ v =>
  match v with
  | JNull => Ok None
  | JArray l => let? xs := each u l in Ok (Some xs)
  | v => Err (unmarshal_error v "slice")
  end.

(** [json.Unmarshal] into a fresh [map[string]json.RawMessage]: the last value
    of a key. *)
Definition as_object (data : json) : result GoError (gmap string json) :=
  match data with
  | JNull => Ok ∅
  | JObject fields => Ok (foldl (fun m kv => <[fst kv := snd kv]> m) ∅ fields)
  | v => Err (unmarshal_error v "map[string]json.RawMessage")
  end.

Definition is_null (v : json) : bool := match v with JNull => true | _ => false end.

End decode.

Lemma each_Forall2 {A} (u : json -> result GoError A) l xs : each u l = Ok xs -> Forall2 (fun v x => u v = Ok x) l xs.
Proof.
  revert xs. induction l as [|v l IH]; intros xs H; simpl in H; [by injection H as <-|].
  apply result_bind_Ok in H as (x & Hx & H). apply result_bind_Ok in H as (ys & Hys & [= <-]). constructor; auto.
Qed.

(** A decoder that ignores what it replaces keeps the last match. *)
Lemma field_last `{JsonErrors} {A} (u : json -> result GoError A) zero name data x :
  field (fun _ v => u v) zero name data = Ok x ->
  match data with
  | JObject fields => match last (matches name fields) with Some v => u v = Ok x | None => x = zero end
  | _ => data = JNull /\ x = zero
  end.
Proof.
  destruct data as [| | | | |fields]; cbn [field]; try done; [by intros [= <-]|].
  generalize (matches name fields) as l. intros l. destruct l as [|v l _] using rev_ind; [by intros [= <-]|].
  rewrite foldl_app, last_snoc. cbn [foldl]. by destruct (foldl _ _ _).
Qed.

(** ** JSON text, as [json.Marshal] writes it

    Strings with HTML escaping on, bytes that are no rune replaced, and objects
    in the order of the struct's fields. *)

Definition hex_lower (n : N) : Ascii.ascii := ascii_of_N (if (n <? 10)%N then 48 + n else 87 + n).

(** [\u00XX] for a control character or one of [<], [>] and [&]. *)
Definition u_escape (c : Ascii.ascii) (rest : string) : string :=
  "\u00" +:+ String (hex_lower (byte_N c / 16)) (String (hex_lower (byte_N c mod 16)) rest).

Definition backslash : Ascii.ascii := "092"%char.
Definition short_escape (c : Ascii.ascii) : option Ascii.ascii :=
  if byte_in 34 34 c || byte_in 92 92 c then Some c
  else if byte_in 8 8 c then Some "b"%char else if byte_in 12 12 c then Some "f"%char
  else if byte_in 10 10 c then Some "n"%char else if byte_in 13 13 c then Some "r"%char
  else if byte_in 9 9 c then Some "t"%char else None.

Definition escape1 (c : Ascii.ascii) (rest : string) : string :=
  match short_escape c with
  | Some e => String backslash (String e rest)
  | None => if byte_in 0 31 c || byte_in 60 60 c || byte_in 62 62 c || byte_in 38 38 c then u_escape c rest else String c rest
  end.

Fixpoint json_escape (s : string) : string :=
  match s with
  | "" => ""
  | String a s1 =>
      if rune1 s then escape1 a (json_escape s1)
      else if rune2 s then match s1 with String b s2 => String a (String b (json_escape s2)) | _ => "" end
      else if rune3 s then
        match s1 with
        | String b (String c s3) =>
            if byte_in 226 226 a && byte_in 128 128 b && byte_in 168 169 c
            then "\u202" +:+ String (hex_lower (byte_N c mod 16)) (json_escape s3)
            else String a (String b (String c (json_escape s3)))
        | _ => "" end
      else if rune4 s then
        match s1 with
        | String b (String c (String d s4)) => String a (String b (String c (String d (json_escape s4))))
        | _ => "" end
      else "\ufffd" +:+ json_escape s1
  end.

Definition json_quote (s : string) : string := String "034" (json_escape s) +:+ String "034" "".

(** Texts with commas between. *)
Fixpoint commas (l : list string) : string :=
  match l with [] => "" | [x] => x | x :: l => x +:+ "," +:+ commas l end.

Fixpoint json_Marshal (v : json) : string :=
  match v with
  | JNull => "null"
  | JBool b => if b then "true" else "false"
  | JNumber text => text
  | JString s => json_quote s
  | JArray l => "[" +:+ commas (map json_Marshal l) +:+ "]"
  | JObject fields => "{" +:+ commas (map (fun kv => json_quote (fst kv) +:+ ":" +:+ json_Marshal (snd kv)) fields) +:+ "}"
  end.

(** ** Decoders of Go types

    Floats, [json.Number], slices and maps, over the trees of [Json]. *)

(** The grammar of a JSON number ([isValidNumber]). *)
Definition isValidNumber (s : string) : bool :=
  let s := if HasPrefix s "-" then sdrop 1 s else s in
  if negb (starts_digit s) then false
  else
    let s := if HasPrefix s "0" then sdrop 1 s else skip_digits s in
    let s := if HasPrefix s "." && starts_digit (sdrop 1 s) then skip_digits (sdrop 1 s) else s in
    if (2 <=? slen s)%nat && (HasPrefix s "e" || HasPrefix s "E") then
      let t := sdrop 1 s in
      if HasPrefix t "+" || HasPrefix t "-" then starts_digit (sdrop 1 t) && String.eqb (skip_digits (sdrop 1 t)) ""
      else String.eqb (skip_digits t) ""
    else String.eqb s "".

(** [time.Time.UnmarshalJSON], as nanoseconds. *)
Class TimeJson := { Time_UnmarshalJSON : json -> result GoError Z }.

Section decode.
Context `{JE : JsonErrors}.

Definition d_float64 : decoder float64 := fun old v =>
  match v with
  | JNull => Ok old
  | JNumber text => match ParseFloat text with Some f => Ok f | None => Err (unmarshal_error v "float64") end
  | v => Err (unmarshal_error v "float64")
  end.

(** [json.Number] *)
Definition d_number : decoder string := fun old v =>
  match v with
  | JNull => Ok old
  | JNumber text => Ok text
  | JString s => if isValidNumber s then Ok s else Err (unmarshal_error v "json.Number")
  | v => Err (unmarshal_error v "json.Number")
  end.

(** A slice, nil read as empty. *)
Definition d_list {A} (u : json -> result GoError A) : decoder (list A) := fun _ v =>
  let? l := d_slice u None v in Ok (default [] l).
Definition strings : decoder (list string) := d_list (d_string "").

(** A map: null clears it, and keys add up; [u] decodes a fresh element. *)
Definition d_map {A} (u : json -> result GoError A) (type : string) : decoder (gmap string A) := fun old v =>
  match v with
  | JNull => Ok ∅
  | JObject fields => foldl (fun r kv => let? m := r in let? s := u kv.2 in Ok (<[kv.1 := s]> m)) (Ok old) fields
  | v => Err (unmarshal_error v type)
  end.

(** Fields of common types. *)
Definition f_string (name : string) (raw : json) : result GoError string := field d_string "" name raw.
Definition f_int (name : string) (raw : json) : result GoError Z := field (d_int 64 "int") 0 name raw.
Definition f_int64 (name : string) (raw : json) : result GoError Z := field (d_int 64 "int64") 0 name raw.
Definition f_uint (bits : Z) (type name : string) (raw : json) : result GoError Z := field (d_uint bits type) 0 name raw.
Definition f_float (name : string) (raw : json) : result GoError float64 := field d_float64 float_zero name raw.
Definition f_list {A} (u : json -> result GoError A) (name : string) (raw : json) : result GoError (list A) := field (d_list u) [] name raw.
Definition f_bool (name : string) (raw : json) : result GoError bool := field d_bool false name raw.
Definition f_number (name : string) (raw : json) : result GoError string := field d_number "" name raw.
(** A nested struct: null leaves it as it is. *)
Definition f_struct {A} (u : json -> result GoError A) (name : string) (raw : json) : result GoError A :=
  let? zero := u JNull in field (fun old v => match v with JNull => Ok old | v => u v end) zero name raw.

(** A pointer to a time, and a time: null clears the one and leaves the other as
    it is. *)
Context `{TJ : TimeJson}.

Definition d_time : decoder (option Z) := fun _ v =>
  match v with JNull => Ok None | v => let? t := Time_UnmarshalJSON v in Ok (Some t) end.

Definition d_timestamp : decoder Z := fun old v => match v with JNull => Ok old | v => Time_UnmarshalJSON v end.

(** [json.NewDecoder(bytes.NewReader(text)).Decode(&out)]: the first value. *)
Context `{JS : JsonStream}.
Definition decode_first {A} (u : json -> result GoError A) (text : string) : result GoError A :=
  match json_next text with None => Err EOF_v | Some (Err e) => Err e | Some (Ok (v, _)) => u v end.
End decode.
