(* ===== verification/Webhook.v ===== *)
(** * Webhook verification (providers/dynamic)

    A webhook's body is decoded only once its signature, an HMAC-SHA256 in
    hexadecimal, is the one of the exact bytes under the secret. *)
From Stdlib Require Import Ascii.
From S2P Require Export Json Sha256 Calendar.
Local Open Scope Z_scope.
Local Open Scope go_scope.

Definition SignatureHeader : string := "x-dynamic-signature-256".
Definition ErrInvalidWebhookPayload : GoError := errors_New "invalid Dynamic webhook payload".
Definition invalid_signature : GoError := errors_New "invalid Dynamic webhook signature".

(** [Data] is None where the body had no such field. *)
Record WebhookEvent := mkEvent { EventID : string; EventName : string; EnvironmentID : string; Timestamp : Z; Data : option json }.
Record Session := mkSession { ss_ID : string; ss_RevokedAt : option Z }.

Section webhook.
Context `{JE : JsonErrors} `{JT : JsonText} `{TJ : TimeJson}.

Definition decode_session (raw : json) : result GoError Session :=
  let? id := field d_string "" "id" raw in
  let? revokedAt := field d_time None "revokedAt" raw in
  Ok (mkSession id revokedAt).

Definition decode_event (raw : json) : result GoError WebhookEvent :=
  let? id := field d_string "" "eventId" raw in
  let? name := field d_string "" "eventName" raw in
  let? environment := field d_string "" "environmentId" raw in
  let? timestamp := field d_timestamp zeroTime "timestamp" raw in
  let? data := field d_raw None "data" raw in
  Ok (mkEvent id name environment timestamp data).

(** [json.Unmarshal(body, &event)] *)
Definition unmarshal_event (body : string) : result GoError WebhookEvent := let? v := json_parse body in decode_event v.

Definition VerifyWebhook (body signature secret : string) : result GoError WebhookEvent :=
  if String.eqb secret "" || negb (HasPrefix signature "sha256=") then Err invalid_signature
  else
    match DecodeString (sdrop (slen "sha256=") signature) with
    | None => Err invalid_signature
    | Some provided =>
        if negb (length provided =? 32)%nat then Err invalid_signature
        else if negb (bool_decide (provided = hmac_sha256 (bytes_of secret) (bytes_of body))) then Err invalid_signature
        else match unmarshal_event body with Ok event => Ok event | Err _ => Err ErrInvalidWebhookPayload end
    end.

(** ** Only signed bytes are decoded *)

Definition signs (secret body signature : string) : Prop :=
  exists digits, signature = "sha256=" +:+ digits /\ DecodeString digits = Some (hmac_sha256 (bytes_of secret) (bytes_of body)).

Lemma VerifyWebhook_signed body signature secret : secret <> "" -> signs secret body signature ->
  VerifyWebhook body signature secret = match unmarshal_event body with Ok event => Ok event | Err _ => Err ErrInvalidWebhookPayload end.
Proof.
  intros Hs (digits & -> & Hd). unfold VerifyWebhook. destruct (String.eqb_spec secret ""); [done|].
  assert (HasPrefix ("sha256=" +:+ digits) "sha256=" = true) as -> by (apply HasPrefix_spec; by exists digits). cbn [orb negb].
  change (sdrop (slen "sha256=") ("sha256=" +:+ digits)) with digits. rewrite Hd.
  unfold hmac_sha256 at 1. rewrite length_sha256, Nat.eqb_refl. by rewrite bool_decide_eq_true_2.
Qed.

(** C39: With a secret and a signature that is the HMAC-SHA256 of the exact bytes of
    the body, in hexadecimal of either case, a webhook is what the body decodes to,
    or the error for an invalid payload when it does not decode; with no secret or
    any other signature it is the one error for an invalid signature, whatever the
    body holds. *)
Theorem VerifyWebhook_authentic body signature secret :
  (secret <> "" -> signs secret body signature ->
    VerifyWebhook body signature secret = match unmarshal_event body with Ok event => Ok event | Err _ => Err ErrInvalidWebhookPayload end) /\
  (~ (secret <> "" /\ signs secret body signature) -> VerifyWebhook body signature secret = Err invalid_signature) /\
  (signs secret body ("sha256=" +:+ EncodeToString (hmac_sha256 (bytes_of secret) (bytes_of body)))).
Proof.
  split; [apply VerifyWebhook_signed|]. split.
  - intros Hn. unfold VerifyWebhook. destruct (String.eqb_spec secret "") as [|Hs]; [done|]. cbn [orb].
    destruct (HasPrefix signature "sha256=") eqn:Ep; [|done]. apply HasPrefix_spec in Ep as [digits ->]. cbn [negb].
    change (sdrop (slen "sha256=") ("sha256=" +:+ digits)) with digits. destruct (DecodeString digits) as [provided|] eqn:Ed; [|done].
    destruct (length provided =? 32)%nat; [|done]. cbn [negb]. case_bool_decide as Heq; [|done]. exfalso. apply Hn. split; [done|].
    exists digits. by rewrite <- Heq.
  - eexists. split; [done|]. apply DecodeString_EncodeToString.
Qed.
End webhook.
