(* ===== verification/HttpJson.v ===== *)
(** * Requests and JSON responses (pkg/http_client)

    The request helpers of [Client] (http.go) and the generic JSON helpers
    (json.go), over anything that does requests. *)
From S2P Require Export HttpClient Json Errors.
Local Open Scope Z_scope.
Local Open Scope go_scope.

Definition ContentTypeJSON : string := "application/json".

(** A request as the helpers build it. *)
Record OutRequest := mkOut { or_Method : string; or_URL : string; or_Header : Header; or_Body : string }.

(** What a helper fails with: its own error, or one of the client's. *)
Inductive JsonError := J_text (e : GoError) | J_http (e : HttpError).
Definition json_ResponseStatus (e : JsonError) : Z * string * bool := match e with J_http e => ResponseStatus e | J_text _ => (0, "", false) end.

(** [http.NewRequestWithContext]: the error for a method and a URL, if any. *)
Class HttpLibrary := { NewRequest : string -> string -> option GoError }.

Section helpers.
Context `{HE : HttpEnv} `{HL : HttpLibrary} `{JB : JsonBody}.

(** [Doer]: what does a request; and the clock. *)
Variable Do : OutRequest -> result HttpError Response.
Variable now : Z.

Definition send (req : OutRequest) : result JsonError Response := match Do req with Ok resp => Ok resp | Err e => Err (J_http e) end.

Definition GetWithContext (url : string) : result JsonError Response :=
  match NewRequest "GET" url with
  | Some err => Err (J_text (Errorf_w "creating GET request: " err ""))
  | None => send (mkOut "GET" url ∅ "")
  end.
Definition Get (url : string) := GetWithContext url.

Definition PostWithContext (url contentType body : string) : result JsonError Response :=
  match NewRequest "POST" url with
  | Some err => Err (J_text (Errorf_w "creating POST request: " err ""))
  | None => send (mkOut "POST" url (header_Set "Content-Type" contentType ∅) body)
  end.
Definition Post (url contentType body : string) := PostWithContext url contentType body.

(** A payload is the value [json.Marshal] sees, or its error. *)
Definition PostJSONWithContext (url : string) (payload : result GoError json) : result JsonError Response :=
  match payload with
  | Err err => Err (J_text (Errorf_w "marshalling JSON request body: " err ""))
  | Ok v => PostWithContext url ContentTypeJSON (json_Marshal v)
  end.
Definition Client_PostJSON (url : string) (payload : result GoError json) := PostJSONWithContext url payload.

Section typed.
Context {T : Type} (decode : json -> result GoError T).

Definition DecodeJSON (resp : Response) : result JsonError T :=
  if (StatusCode resp <? 200) || (300 <=? StatusCode resp) then Err (J_http (newStatusError resp now))
  else
    match (let? v := json_decode (Body resp) (errors_New <$> body_err resp) in decode v) with
    | Err err => Err (J_text (Errorf_w "decoding JSON response: " err ""))
    | Ok out => Ok out
    end.

Definition DoJSON (req : OutRequest) : result JsonError T :=
  match send req with Err err => Err err | Ok resp => DecodeJSON resp end.

Definition GetJSON (url : string) : result JsonError T :=
  match NewRequest "GET" url with
  | Some err => Err (J_text (Errorf_w "creating GET request: " err ""))
  | None => DoJSON (mkOut "GET" url (header_Set "Accept" ContentTypeJSON ∅) "")
  end.

Definition PostJSON (url : string) (payload : result GoError json) : result JsonError T :=
  match payload with
  | Err err => Err (J_text (Errorf_w "marshalling JSON request body: " err ""))
  | Ok v =>
      match NewRequest "POST" url with
      | Some err => Err (J_text (Errorf_w "creating POST request: " err ""))
      | None =>
          DoJSON (mkOut "POST" url (header_Set "Accept" ContentTypeJSON (header_Set "Content-Type" ContentTypeJSON ∅)) (json_Marshal v))
      end
  end.

(** A value comes only out of a 2xx response; any other status is readable with
    [ResponseStatus] when its body can be read. *)
Lemma DecodeJSON_spec resp :
  match DecodeJSON resp with
  | Ok out => 200 <= StatusCode resp < 300 /\ exists v, json_decode (Body resp) (errors_New <$> body_err resp) = Ok v /\ decode v = Ok out
  | Err e =>
      (~ 200 <= StatusCode resp < 300 -> body_err resp = None -> close_err resp = None ->
       exists body, json_ResponseStatus e = (StatusCode resp, body, true)) /\
      (200 <= StatusCode resp < 300 -> snd (json_ResponseStatus e) = false)
  end.
Proof.
  unfold DecodeJSON. destruct ((StatusCode resp <? 200) || (300 <=? StatusCode resp)) eqn:E.
  - split; [|lia]. intros _ Hb Hc. cbn [json_ResponseStatus]. unfold newStatusError.
    assert (snd (limited_body resp) = None) as Hl by (unfold limited_body; by destruct (_ <=? _)%nat).
    destruct (limited_body resp) as [body err]. cbn [snd] in Hl. subst err. rewrite Hc. by eexists.
  - destruct (json_decode _ _) as [v|e] eqn:Ed; cbn [result_bind]; [|split; [lia|done]].
    destruct (decode v) as [out|e] eqn:Ev; [|split; [lia|done]]. split; [lia|]. by exists v.
Qed.
End typed.
End helpers.

(** The comment on [DoJSON] says that non-2xx responses become errors readable with
    [ResponseStatus]; one whose body cannot be read does not. *)
Lemma unreadable_status `{HttpEnv} `{JsonBody} now : forall resp, StatusCode resp = 500 -> Body resp = "" -> body_err resp = Some "reset" ->
  exists e, DecodeJSON (T := unit) now (fun _ => Ok tt) resp = Err e /\ json_ResponseStatus e = (0, "", false).
Proof.
  intros resp Hs Hb He. unfold DecodeJSON. rewrite Hs. cbn [Z.ltb Z.leb orb]. eexists. split; [done|]. cbn [json_ResponseStatus].
  unfold newStatusError, limited_body. rewrite Hb, He. by vm_compute.
Qed.

(** ** The size-limited response body (pkg/http_client/http.go)

    [responseBody.Read] over an arbitrary reader: the underlying reader may
    return any part of what is left, and may report end-of-file together with
    the last bytes or on the next call. *)

Inductive IoErr := EOF | ErrResponseTooLarge.

(** How the underlying reader answers one call: how many bytes it is willing to
    hand out, and whether it reports the end early. *)
Record answer := mkAnswer { ask : nat; eager : bool }.

(** [b.ReadCloser.Read(p)] with [len(p) = plen], [rest] still in the stream. *)
Definition under_read (a : answer) (plen : nat) (rest : string) : string * option IoErr * string :=
  let n := ((Nat.max 1 (ask a) `min` plen) `min` slen rest)%nat in
  let rest' := sdrop n rest in
  (stake n rest,
   if String.eqb rest' "" && (String.eqb rest "" || eager a) then Some EOF else None,
   rest').

Record responseBody := mkBody { remaining : Z; limited : bool; stream : string }.

(** [p = p[:b.remaining]] when [p] is longer. *)
Definition Read (a : answer) (plen : nat) (b : responseBody) : string * option IoErr * responseBody :=
  if negb (limited b) then
    let '(out, err, rest) := under_read a plen (stream b) in
    (out, err, {| remaining := remaining b; limited := limited b; stream := rest |})
  else if remaining b <=? 0 then
    let '(probe, err, rest) := under_read a 1 (stream b) in
    ("", if (0 <? slen probe)%nat then Some ErrResponseTooLarge else err,
     {| remaining := remaining b; limited := limited b; stream := rest |})
  else
    let plen := if remaining b <? Z.of_nat plen then Z.to_nat (remaining b) else plen in
    let '(out, err, rest) := under_read a plen (stream b) in
    (out, err, {| remaining := remaining b - Z.of_nat (slen out); limited := limited b; stream := rest |}).

(** The body [attempt] hands out. *)
Definition body_of (max : Z) (body : string) : responseBody :=
  {| remaining := max; limited := 0 <? max; stream := body |}.

(** A caller reading with one buffer after another until an error. *)
Fixpoint read_all (calls : list (nat * answer)) (b : responseBody) : string * option IoErr :=
  match calls with
  | [] => ("", None)
  | (plen, a) :: rest =>
      let '(out, err, b') := Read a plen b in
      match err with
      | Some e => (out, Some e)
      | None => let '(more, err) := read_all rest b' in (out +:+ more, err)
      end
  end.

Lemma under_read_spec a plen rest out err rest' : under_read a plen rest = (out, err, rest') ->
  rest = out +:+ rest' /\ (slen out <= plen)%nat /\ (err = Some EOF \/ err = None) /\
  (err = Some EOF -> rest' = "") /\ (rest = "" -> err = Some EOF) /\
  ((0 < plen)%nat -> rest <> "" -> (0 < slen out)%nat).
Proof.
  unfold under_read. intros [= <- <- <-]. rewrite stake_sdrop, slen_stake. split; [done|]. split; [lia|].
  destruct (String.eqb_spec (sdrop ((Nat.max 1 (ask a) `min` plen) `min` slen rest) rest) "") as [E|E]; simpl.
  - split; [destruct (_ || _); auto|]. split; [done|]. split; [by intros ->|].
    intros Hp Hr. destruct rest; [done|]. simpl. lia.
  - split; [auto|]. split; [done|]. split; [intros ->; simpl in E; by destruct ((Nat.max 1 (ask a) `min` plen) `min` 0)%nat|].
    intros Hp Hr. destruct rest; [done|]. simpl. lia.
Qed.

(** What reading can have returned so far of [body] under the limit [max]. *)
Lemma read_all_spec calls max body : 0 <= max ->
  let '(out, err) := read_all calls {| remaining := max; limited := true; stream := body |} in
  exists tail, body = out +:+ tail /\ Z.of_nat (slen out) <= max /\
    match err with
    | Some EOF => tail = ""
    | Some ErrResponseTooLarge => Z.of_nat (slen out) = max /\ max < Z.of_nat (slen body)
    | None => True
    end.
Proof.
  revert max body. induction calls as [|[plen a] calls IH]; intros max body Hm; cbn [read_all].
  { exists body. simpl. repeat split; lia. }
  unfold Read. cbn [limited remaining stream negb].
  destruct (Z.leb_spec max 0) as [Hz|Hz].
  - destruct (under_read a 1 body) as [[out err] rest] eqn:E.
    apply under_read_spec in E as (-> & Hl & He & Heof & Hnil & Hpos).
    destruct (Nat.ltb_spec 0 (slen out)) as [Ho|Ho].
    { exists (out +:+ rest). rewrite slen_app. simpl. split; [done|]. lia. }
    assert (out = "") as -> by (apply slen_zero; lia). simpl in *.
    destruct err as [e|].
    + destruct He as [[= ->]|]; [|done]. exists rest. split; [done|]. split; [simpl; lia|]. by apply Heof.
    + specialize (IH max rest Hm). destruct (read_all calls _) as [more err]. exact IH.
  - set (plen' := if max <? Z.of_nat plen then Z.to_nat max else plen).
    assert (Hp : Z.of_nat plen' <= max) by (unfold plen'; case_match; lia).
    destruct (under_read a plen' body) as [[out err] rest] eqn:E.
    apply under_read_spec in E as (-> & Hl & He & Heof & Hnil & Hpos).
    destruct err as [e|].
    + destruct He as [[= ->]|]; [|done]. exists rest. split; [done|]. split; [lia|]. by apply Heof.
    + specialize (IH (max - Z.of_nat (slen out)) rest ltac:(lia)). destruct (read_all calls _) as [more err].
      destruct IH as (tail & -> & Hlen & Herr). exists tail. rewrite sapp_assoc. split; [done|].
      rewrite slen_app, Nat2Z.inj_add. split; [lia|]. destruct err as [[]|]; [done| |done].
      rewrite !slen_app, !Nat2Z.inj_add in *. lia.
Qed.

(** C37: A limited body never yields more than the limit, and never a wrong byte:
    however the buffers are sized and the network splits the data, what is read
    is a prefix of the body; end-of-file is reported only after the whole body,
    which then fits, and the size error only when the body is larger, after
    exactly the limit. *)
Theorem responseBody_limit calls max body (Hmax : 0 < max) :
  let '(out, err) := read_all calls (body_of max body) in
  exists tail, body = out +:+ tail /\ Z.of_nat (slen out) <= max /\
    match err with
    | Some EOF => out = body /\ Z.of_nat (slen body) <= max
    | Some ErrResponseTooLarge => Z.of_nat (slen out) = max /\ max < Z.of_nat (slen body)
    | None => True
    end.
Proof.
  unfold body_of. replace (0 <? max) with true by lia. pose proof (read_all_spec calls max body ltac:(lia)) as H.
  destruct (read_all calls _) as [out err]. destruct H as (tail & -> & Hl & He). exists tail.
  split; [done|]. split; [done|]. destruct err as [[]|]; [|done..]. subst tail. by rewrite sapp_nil_r.
Qed.

(** A read makes progress: with a non-empty buffer it returns bytes or an error. *)
Lemma Read_progress a plen b : (0 < plen)%nat ->
  let '(out, err, b') := Read a plen b in
  (exists e, err = Some e) \/ ((0 < slen out)%nat /\ (slen (stream b') < slen (stream b))%nat).
Proof.
  intros Hp. unfold Read.
  assert (H : forall n, (0 < n)%nat -> let '(out, err, rest) := under_read a n (stream b) in
    (exists e, err = Some e) \/ ((0 < slen out)%nat /\ (slen rest < slen (stream b))%nat)).
  { intros n Hn. destruct (under_read a n (stream b)) as [[out err] rest] eqn:E.
    apply under_read_spec in E as (E & _ & _ & _ & Hnil & Hpos).
    destruct (decide (stream b = "")) as [Es|Es]; [left; rewrite Hnil by done; eauto|]. right. specialize (Hpos Hn Es).
    split; [done|]. rewrite E, slen_app. lia. }
  destruct (limited b); cbn [negb].
  - destruct (Z.leb_spec (remaining b) 0) as [Hz|Hz].
    + specialize (H 1%nat ltac:(lia)). destruct (under_read a 1 (stream b)) as [[out err] rest].
      left. destruct (Nat.ltb_spec 0 (slen out)); [by eexists|]. destruct H as [H|[H _]]; [done|lia].
    + specialize (H (if remaining b <? Z.of_nat plen then Z.to_nat (remaining b) else plen) ltac:(case_match; lia)).
      by destruct (under_read a _ (stream b)) as [[out err] rest].
  - specialize (H plen Hp). by destruct (under_read a plen (stream b)) as [[out err] rest].
Qed.

(** Reading terminates: a caller that keeps calling with non-empty buffers,
    as often as the body has bytes and once more, has reached end-of-file or the
    size error. *)
Theorem read_all_terminates calls b (Hpos : Forall (fun c => (0 < fst c)%nat) calls)
    (Hlen : (slen (stream b) < length calls)%nat) : exists e, snd (read_all calls b) = Some e.
Proof.
  revert b Hlen. induction Hpos as [|[plen a] calls Hp Hpos IH]; intros b Hlen; simpl in Hlen; [lia|].
  cbn [read_all]. pose proof (Read_progress a plen b Hp) as H. destruct (Read a plen b) as [[out err] b'].
  destruct err as [e|]; [by exists e|]. destruct H as [[e He]|[_ H]]; [done|].
  destruct (IH b' ltac:(lia)) as [e He]. destruct (read_all calls b') as [more err]. by exists e.
Qed.
