(* ===== verification/FileLoader.v ===== *)
(** * Loading files and decoding configuration (utils/fileloader, evm/confighooks)

    Local files and S3 objects named s3://bucket/key|region.  The file system,
    the S3 client and URL parsing are parameters.  The hooks that decode
    configured values into addresses, keys, durations and verified clients; a
    type assertion that fails panics. *)
From Stdlib Require Import Ascii.
From S2P Require Export GoStrings Errors Abi.
Local Open Scope Z_scope.
Local Open Scope go_scope.

Definition TrimPrefix (s p : string) : string := if HasPrefix s p then sdrop (slen p) s else s.

(** What a read may do: an object is its content, or the error its stream ends
    with. *)
Class FileEnv := {
  url_HostPath : string -> result GoError (string * string);        (* url.Parse: Host and Path *)
  S3Client : Type;
  newS3Client : string -> result GoError S3Client;
  GetObject : S3Client -> string -> string -> result GoError (result GoError string);
  ReadFile : string -> result GoError string;
}.

Section loader.
Context `{FE : FileEnv}.

Definition ParseS3URI (s3URI : string) : result GoError (string * string) :=
  if negb (HasPrefix s3URI "s3://") then Err (errors_New "invalid S3 URI: must start with 's3://'")
  else
    match url_HostPath s3URI with
    | Err err => Err (Errorf_w "failed to parse S3 URI: " err "")
    | Ok (bucket, path) =>
        let key := TrimPrefix path "/" in
        if String.eqb bucket "" || String.eqb key "" then Err (errors_New "invalid S3 URI: must include bucket and key") else Ok (bucket, key)
    end.

Definition DownloadFileFromS3 (path : string) : result GoError string :=
  match Split "|"%char path with
  | [uri; region] =>
      if String.eqb region "" then Err (errors_New "region is required")
      else
        match newS3Client region with
        | Err err => Err (Errorf_w "failed to create S3 client: " err "")
        | Ok client =>
            match ParseS3URI uri with
            | Err err => Err (Errorf_w "failed to parse S3 URI: " err "")
            | Ok (bucket, key) =>
                match GetObject client bucket key with
                | Err err => Err (Errorf_w ("failed to get object " +:+ key +:+ " from bucket " +:+ bucket +:+ ": ") err "")
                | Ok (Err err) => Err (Errorf_w "failed to read object body: " err "")
                | Ok (Ok content) => Ok content
                end
            end
        end
  | _ => Err (errors_New ("invalid path: " +:+ path +:+ " should be in the format path|region"))
  end.

Definition LoadFile (path : string) : result GoError string :=
  if HasPrefix path "s3://" then DownloadFileFromS3 path
  else match ReadFile path with Err err => Err (Errorf_w "failed to read file: " err "") | Ok content => Ok content end.

(** What is loaded is a local file, or the object its path names, with every part
    present. *)
Lemma LoadFile_spec path content : LoadFile path = Ok content ->
  (HasPrefix path "s3://" = false /\ ReadFile path = Ok content) \/
  exists uri region client bucket key, Split "|"%char path = [uri; region] /\ region <> "" /\ newS3Client region = Ok client /\
    bucket <> "" /\ key <> "" /\ ParseS3URI uri = Ok (bucket, key) /\ GetObject client bucket key = Ok (Ok content).
Proof.
  unfold LoadFile. destruct (HasPrefix path "s3://"); [|destruct (ReadFile path); [|done]; intros [= ->]; by left].
  unfold DownloadFileFromS3. destruct (Split _ path) as [|uri [|region [|]]] eqn:Es; try done. intros H. right.
  destruct (String.eqb_spec region ""); [done|]. destruct (newS3Client region) as [client|] eqn:Ec; [|done].
  destruct (ParseS3URI uri) as [[bucket key]|] eqn:Ep; [|done]. destruct (GetObject client bucket key) as [[c|]|] eqn:Eg; try done.
  injection H as ->. exists uri, region, client, bucket, key. split_and!; try done.
  - intros ->. unfold ParseS3URI in Ep. repeat case_match; simplify_eq/=.
  - intros ->. unfold ParseS3URI in Ep. destruct (negb _); [done|]. destruct (url_HostPath uri) as [[b p]|]; [|done]. cbv zeta in Ep.
    destruct (String.eqb_spec b ""), (String.eqb_spec (TrimPrefix p "/") ""); cbn [orb] in Ep; congruence.
Qed.
End loader.

(** ** Configuration hooks (evm/confighooks/hooks.go) *)

(** [time.ParseDuration], [crypto.HexToECDSA] and an RPC client: how it is dialled by default, and its two checks. *)
Class ConfigLibrary := {
  ParseDuration : string -> result GoError Z;
  ConfigKey : Type;
  config_HexToECDSA : string -> result GoError ConfigKey;
  EthClient : Type;
  DialContext : string -> result GoError EthClient;
  SubscribeNewHead : EthClient -> option GoError;
  client_ChainID : EthClient -> option GoError;
}.

(** What a map or an interface holds: a [string], or a value of another kind and type. *)
Inductive scalar := SString (s : string) | SOther (kind type : string).
(** An element of a slice, by its kind: an interface, a string (of any named type), or another. *)
Inductive element := EInterface (content : scalar) | EString (s : string) | EOther (kind : string).

Section hooks.
Context `{G : GoEthereum} `{AB : !Abi} `{HA : HexAddress} `{CL : !ConfigLibrary}.

(** A value by its dynamic type: [string], a named string type, slices, maps, other
    types; and what the hooks make. *)
Inductive config_data :=
| D_string (s : string)
| D_named (type s : string)
| D_slice (type : string) (elements : list element)
| D_map (type : string) (string_keys : bool) (entries : list (string * scalar))
| D_other (kind type : string)
| D_nil
| D_address (a : Address)
| D_addresses (l : list Address)
| D_address_map (m : gmap string Address)
| D_client (c : EthClient)
| D_key (k : ConfigKey)
| D_duration (d : Z).

Inductive config_target := To_Address | To_Addresses | To_AddressMap | To_Client | To_PrivateKey | To_Duration | To_other.
#[local] Instance config_target_eq_dec : EqDecision config_target.
Proof. solve_decision. Defined.

(** [reflect.TypeOf(data).Kind()] and [%T]. *)
Definition data_kind (v : config_data) : string :=
  match v with
  | D_string _ | D_named _ _ => "string" | D_slice _ _ | D_addresses _ => "slice" | D_map _ _ _ | D_address_map _ => "map"
  | D_other kind _ => kind | D_nil => "invalid" | D_address _ => "array" | D_client _ | D_key _ => "ptr" | D_duration _ => "int64"
  end.
Definition data_type (v : config_data) : string :=
  match v with
  | D_string _ => "string" | D_named type _ | D_slice type _ | D_map type _ _ | D_other _ type => type
  | D_nil => "<nil>" | D_address _ => "common.Address" | D_addresses _ => "[]common.Address" | D_address_map _ => "map[string]common.Address"
  | D_client _ => "*ethclient.Client" | D_key _ => "*ecdsa.PrivateKey" | D_duration _ => "time.Duration"
  end.

(** [data.(string)] *)
Definition assert_string (v : config_data) : outcome string :=
  match v with D_string s => Val s | v => Panic ("interface conversion: interface {} is " +:+ data_type v +:+ ", not string") end.
Definition is_string_kind (v : config_data) : bool := String.eqb (data_kind v) "string".

(** A hook is called with the type of its value. *)
Definition hook : Type := config_target -> config_data -> outcome config_data.

Definition PrivateKeyHook : hook := fun t data =>
  if negb (bool_decide (t = To_PrivateKey)) then Val data
  else if negb (is_string_kind data) then Fail (Errorf_w ("expected=string, acutal=" +:+ data_kind data +:+ ": ") ErrInvalidDataType_v "")
  else
    let^ s := assert_string data in
    owrap (fun e => Errorf_w "failed to init keypair: " e "") (let? pk := config_HexToECDSA s in Ok (D_key pk)).

Definition AddressHook : hook := fun t data =>
  match t, data with
  | To_Address, D_string addrStr =>
      if negb (IsHexAddress addrStr) then
        Fail (Errorf_w ("invalid address string '" +:+ addrStr +:+ "' for target common.Address: ") ErrInvalidAddr_v "")
      else Val (D_address (HexToAddress addrStr))
  | _, _ => Val data
  end.

Definition element_text (i : nat) (e : element) : outcome string :=
  match e with
  | EInterface (SString s) | EString s => Val s
  | EInterface (SOther kind _) =>
      Fail (Errorf_w ("element " +:+ pretty (Z.of_nat i) +:+ " in slice is an interface but not a string (kind: " +:+ kind +:+ "): ") ErrInvalidDataType_v "")
  | EOther kind =>
      Fail (Errorf_w ("element " +:+ pretty (Z.of_nat i) +:+ " in slice is not a string or interface{} (kind: " +:+ kind +:+ "): ") ErrInvalidDataType_v "")
  end.
Fixpoint slice_loop (i : nat) (elements : list element) : outcome (list Address) :=
  match elements with
  | [] => Val []
  | e :: elements =>
      let^ addrStr := element_text i e in
      if negb (IsHexAddress addrStr) then
        Fail (Errorf_w ("element " +:+ pretty (Z.of_nat i) +:+ " ('" +:+ addrStr +:+ "') is not a valid hex address: ") ErrInvalidAddr_v "")
      else let^ rest := slice_loop (S i) elements in Val (HexToAddress addrStr :: rest)
  end.
(** [reflect.Value.Index] over a slice. *)
Definition slice_elements (v : config_data) : option (list element) :=
  match v with D_slice _ elements => Some elements | D_addresses l => Some ((fun _ => EOther "array") <$> l) | _ => None end.
Definition AddressSliceHook : hook := fun t data =>
  if negb (bool_decide (t = To_Addresses)) then Val data
  else match slice_elements data with
       | Some elements => let^ l := slice_loop 0 elements in Val (D_addresses l)
       | None => Fail (Errorf_w ("expected slice input, got " +:+ data_type data +:+ ": ") ErrInvalidDataType_v "")
       end.

(** A map as it is walked, with whether its keys are strings. *)
Definition map_entries (v : config_data) : option (bool * list (string * scalar)) :=
  match v with
  | D_map _ string_keys entries => Some (string_keys, entries)
  | D_address_map m => Some (true, (fun kv => (kv.1, SOther "array" "common.Address")) <$> map_to_list m)
  | _ => None
  end.
Fixpoint map_texts (entries : list (string * scalar)) : outcome (gmap string string) :=
  match entries with
  | [] => Val ∅
  | (key, SString s) :: entries => let^ m := map_texts entries in Val (<[key := s]> m)
  | (key, SOther _ type) :: _ => Fail (errors_New ("value for key " +:+ key +:+ " is not a string (type: " +:+ type +:+ ")"))
  end.
Fixpoint map_addresses (entries : list (string * string)) : outcome (gmap string Address) :=
  match entries with
  | [] => Val ∅
  | (k, v) :: entries =>
      if negb (IsHexAddress v) then Fail (errors_New ("invalid address for key " +:+ k +:+ ": " +:+ v))
      else let^ m := map_addresses entries in Val (<[k := HexToAddress v]> m)
  end.

(** The order in which the copied map is walked. *)
Variable order : gmap string string -> list (string * string).

Definition AddressMapHook : hook := fun t data =>
  if negb (bool_decide (t = To_AddressMap)) then Val data
  else match map_entries data with
       | None => Fail (Errorf_w ("expected map input, got " +:+ data_type data +:+ ": ") ErrInvalidDataType_v "")
       | Some (string_keys, entries) =>
           if negb string_keys then Fail (errors_New "map keys must be strings")
           else
             let^ sourceMap := map_texts entries in
             let^ result := map_addresses (order sourceMap) in
             Val (D_address_map result)
       end.

Definition DecodeTimeDurationHook : hook := fun t data =>
  if is_string_kind data && bool_decide (t = To_Duration) then
    let^ s := assert_string data in owrap id (let? d := ParseDuration s in Ok (D_duration d))
  else Val data.

(** *** Clients *)

(** What becomes of a client, and of its subscription. *)
Inductive client_event := Dialled (endpoint : string) | Unsubscribed | ClientClosed.
Definition client_hook : Type := config_target -> config_data -> outcome config_data * list client_event.
Definition quiet (h : hook) : client_hook := fun t data => (h t data, []).

(** [ClientConfig.Dial], nil for the default; the context is what the calls answer. *)
Definition NewEthClientHook (Dial : option (string -> result GoError EthClient)) : client_hook := fun t data =>
  let dial := default DialContext Dial in
  if negb (bool_decide (t = To_Client)) then (Val data, [])
  else if negb (is_string_kind data) then (Fail ErrInvalidDataType_v, [])
  else
    match assert_string data with
    | Fail e => (Fail e, [])
    | Panic why => (Panic why, [])
    | Val endpoint =>
        if String.eqb endpoint "" then (Val D_nil, [])
        else
          match dial endpoint with
          | Err e => (Fail (Errorf_w "failed to dial connection: " e ""), [Dialled endpoint])
          | Ok client =>
              if HasPrefix endpoint "wss://" then
                match SubscribeNewHead client with
                | Some e => (Fail (Errorf_w "failed to create subscription: " e ""), [Dialled endpoint; ClientClosed])
                | None => (Val (D_client client), [Dialled endpoint; Unsubscribed])
                end
              else
                match client_ChainID client with
                | Some e => (Fail (Errorf_w "failed to get chain ID: " e ""), [Dialled endpoint; ClientClosed])
                | None => (Val (D_client client), [Dialled endpoint])
                end
          end
    end.

(** [mapstructure.ComposeDecodeHookFunc], and its documentation: the hooks run in
    order, each on the result of the one before, until one fails; nothing is said
    of a hook that makes no value. *)
Variable ComposeDecodeHookFunc : list client_hook -> client_hook.
Record compose_law : Prop := {
  compose_nil t data : ComposeDecodeHookFunc [] t data = (Val data, []);
  compose_cons h hs t data : data <> D_nil -> (h t data).1 <> Val D_nil -> ComposeDecodeHookFunc (h :: hs) t data =
    match h t data with
    | (Val data, events) => let '(r, events') := ComposeDecodeHookFunc hs t data in (r, events ++ events')
    | failed => failed
    end;
}.

Definition CfgHooks (Dial : option (string -> result GoError EthClient)) : client_hook :=
  ComposeDecodeHookFunc [quiet AddressHook; quiet AddressSliceHook; NewEthClientHook Dial; quiet PrivateKeyHook;
    quiet DecodeTimeDurationHook; quiet AddressMapHook].

(** The hook of a target. *)
Definition hook_of (Dial : option (string -> result GoError EthClient)) (t : config_target) : client_hook :=
  match t with
  | To_Address => quiet AddressHook | To_Addresses => quiet AddressSliceHook | To_AddressMap => quiet AddressMapHook
  | To_Client => NewEthClientHook Dial | To_PrivateKey => quiet PrivateKeyHook | To_Duration => quiet DecodeTimeDurationHook
  | To_other => quiet (fun _ => Val)
  end.

(** Every other hook leaves the value alone. *)
Lemma hooks_pass Dial t t' data : t <> t' -> hook_of Dial t t' data = (Val data, []).
Proof. by destruct t, t'; cbn; unfold quiet, DecodeTimeDurationHook; try destruct (is_string_kind data); destruct data. Qed.

Lemma compose_targets Dial t ts data : compose_law -> NoDup ts -> data <> D_nil -> (hook_of Dial t t data).1 <> Val D_nil ->
  ComposeDecodeHookFunc (hook_of Dial <$> ts) t data = if bool_decide (t ∈ ts) then hook_of Dial t t data else (Val data, []).
Proof.
  intros L. revert data. induction ts as [|t' ts IH]; intros data Hnd Hdata Hnil.
  { rewrite bool_decide_eq_false_2 by (by intros ?%elem_of_nil). apply (compose_nil L). }
  apply NoDup_cons in Hnd as [Hn Hnd]. cbn [fmap list_fmap]. destruct (decide (t = t')) as [<-|Ht].
  - rewrite bool_decide_eq_true_2 by set_solver. rewrite (compose_cons L) by done.
    destruct (hook_of Dial t t data) as [[data'| |] events] eqn:Hd; [|done|done]. cbn [fst] in Hnil.
    assert (Hpass : forall us, t ∉ us -> ComposeDecodeHookFunc (hook_of Dial <$> us) t data' = (Val data', [])).
    { induction us as [|u us IHu]; intros Hu; [apply (compose_nil L)|]. cbn [fmap list_fmap].
      assert (Hup : hook_of Dial u t data' = (Val data', [])) by (apply hooks_pass; set_solver).
      rewrite (compose_cons L); [|congruence|by rewrite Hup]. rewrite Hup, IHu by set_solver. done. }
    rewrite Hpass by done. by rewrite app_nil_r.
  - assert (Hp : hook_of Dial t' t data = (Val data, [])) by (apply hooks_pass; congruence).
    rewrite (compose_cons L); [|done|rewrite Hp; cbn; congruence]. rewrite Hp, IH by done.
    rewrite (bool_decide_ext (t ∈ t' :: ts) (t ∈ ts)) by (rewrite elem_of_cons; tauto).
    case_bool_decide; [by destruct (hook_of Dial t t data)|done].
Qed.

(** The hooks together do what the hook of the target does, whatever their order. *)
Lemma CfgHooks_target Dial t data : compose_law -> data <> D_nil -> (hook_of Dial t t data).1 <> Val D_nil ->
  CfgHooks Dial t data = hook_of Dial t t data.
Proof.
  intros L Hdata Hnil. trans (ComposeDecodeHookFunc (hook_of Dial <$> [To_Address; To_Addresses; To_Client; To_PrivateKey; To_Duration; To_AddressMap]) t data); [done|].
  rewrite compose_targets by (done || by apply (bool_decide_eq_true_1 _); vm_compute). by destruct t.
Qed.

Lemma slice_loop_Val elements : forall i l, slice_loop i elements = Val l -> exists texts,
  Forall2 (fun e s => e = EString s \/ e = EInterface (SString s)) elements texts /\ Forall (fun s => IsHexAddress s = true) texts /\
  l = HexToAddress <$> texts.
Proof.
  induction elements as [|e elements IH]; intros i l H; cbn [slice_loop] in H.
  - injection H as <-. by exists [].
  - destruct (element_text i e) as [s| |] eqn:Es; [|done|done]. cbn [obind] in H. destruct (IsHexAddress s) eqn:Hs; [|done]. cbn [negb] in H.
    destruct (slice_loop (S i) elements) as [rest| |] eqn:Hr; [|done|done]. injection H as <-.
    destruct (IH _ _ Hr) as (texts & H1 & H2 & ->). exists (s :: texts). split; [|by split; [constructor|]]. constructor; [|done].
    destruct e as [[|]| |]; cbn in Es; try done; injection Es as ->; auto.
Qed.

(** A string of a named type passes the check of its kind and fails the assertion of its type. *)
Lemma named_string_panics Dial type s :
  let why := "interface conversion: interface {} is " +:+ type +:+ ", not string" in
  PrivateKeyHook To_PrivateKey (D_named type s) = Panic why /\ DecodeTimeDurationHook To_Duration (D_named type s) = Panic why /\
  NewEthClientHook Dial To_Client (D_named type s) = (Panic why, []).
Proof. done. Qed.

(** Addresses come of valid text only. *)
Lemma AddressSliceHook_valid data l : AddressSliceHook To_Addresses data = Val (D_addresses l) -> exists elements texts,
  slice_elements data = Some elements /\ Forall2 (fun e s => e = EString s \/ e = EInterface (SString s)) elements texts /\
  Forall (fun s => IsHexAddress s = true) texts /\ l = HexToAddress <$> texts.
Proof.
  unfold AddressSliceHook. cbn [negb bool_decide]. rewrite bool_decide_eq_true_2 by done. cbn [negb].
  destruct (slice_elements data) as [elements|] eqn:He; [|done]. destruct (slice_loop 0 elements) as [l'| |] eqn:Hl; [|done|done].
  intros [= <-]. destruct (slice_loop_Val _ _ _ Hl) as (texts & H). by exists elements, texts.
Qed.

(** A client that is dialled is given back, or closed with an error: never both and never neither. *)
Lemma NewEthClientHook_closes Dial data :
  let '(r, events) := NewEthClientHook Dial To_Client data in
  (ClientClosed ∈ events <-> exists e endpoint client, r = Fail e /\ Dialled endpoint ∈ events /\ default DialContext Dial endpoint = Ok client) /\
  (forall client, r = Val (D_client client) -> exists endpoint, data = D_string endpoint /\ default DialContext Dial endpoint = Ok client /\
    ClientClosed ∉ events /\ (if HasPrefix endpoint "wss://" then SubscribeNewHead client = None else client_ChainID client = None)).
Proof.
  unfold NewEthClientHook. rewrite bool_decide_eq_true_2 by done. cbn [negb].
  destruct (is_string_kind data); cbn [negb]; [|split; [set_solver|done]].
  destruct (assert_string data) as [s| |] eqn:Hs; [|split; [set_solver|done]..].
  destruct (String.eqb s ""); [split; [set_solver|done]|].
  destruct (default DialContext Dial s) as [client|e] eqn:Hd.
  2: { split; [|done]. split; [set_solver|]. intros (e' & x & client & _ & Hx & Hc). rewrite list_elem_of_singleton in Hx. injection Hx as ->. congruence. }
  assert (Hdata : data = D_string s) by (destruct data; cbn in Hs; congruence).
  destruct (HasPrefix s "wss://") eqn:Hp.
  - destruct (SubscribeNewHead client) eqn:Hsub.
    + split; [|done]. split; [|set_solver]. intros _. exists (Errorf_w "failed to create subscription: " g ""), s, client. split_and!; [done|set_solver|done].
    + split; [set_solver|]. intros c [= <-]. exists s. rewrite Hp. split_and!; [done|done|set_solver|done].
  - destruct (client_ChainID client) eqn:Hsub.
    + split; [|done]. split; [|set_solver]. intros _. exists (Errorf_w "failed to get chain ID: " g ""), s, client. split_and!; [done|set_solver|done].
    + split; [set_solver|]. intros c [= <-]. exists s. rewrite Hp. split_and!; [done|done|set_solver|done].
Qed.
End hooks.
