(* ===== verification/Exchange.v ===== *)
(** * Exchanges: responses, and runs of requests

    A body is its bytes and the error reading past them gives, if any. *)
From S2P Require Import HttpClient.
From S2P Require Export GoStrings Errors.
Local Open Scope Z_scope.

Record HttpResponse := mkResponse {
  hr_Status : Z;
  hr_Header : string -> string;      (* resp.Header.Get *)
  hr_Body : string;
  hr_BodyErr : option GoError;
}.
Definition hr_Date (resp : HttpResponse) : string := hr_Header resp "Date".

(** [io.ReadAll(io.LimitReader(body, n))]. *)
Definition ReadAll (n : Z) (resp : HttpResponse) : result GoError string :=
  if n <=? Z.of_nat (slen (hr_Body resp)) then Ok (stake (Z.to_nat n) (hr_Body resp))
  else match hr_BodyErr resp with Some e => Err e | None => Ok (hr_Body resp) end.

Definition success (status : Z) : bool := negb ((status <? 200) || (300 <=? status)).

(** A body within the limit is read whole, and a longer one is noticed. *)
Lemma ReadAll_limit limit resp raw : 0 <= limit -> ReadAll (limit + 1) resp = Ok raw ->
  (Z.of_nat (slen raw) <= limit /\ raw = hr_Body resp /\ hr_BodyErr resp = None) \/
  (limit < Z.of_nat (slen raw) /\ limit < Z.of_nat (slen (hr_Body resp))).
Proof.
  intros Hl. unfold ReadAll. destruct (Z.leb_spec (limit + 1) (Z.of_nat (slen (hr_Body resp)))) as [H|H].
  - intros [= <-]. right. rewrite slen_stake. lia.
  - destruct (hr_BodyErr resp); [done|]. intros [= <-]. left. split; [lia|done].
Qed.

(** ** Runs of requests

    A client's run threads the requests made so far; what the n-th one meets is
    the n-th [reply]: the wait for the rate limiter, the building of the request,
    the exchange, and the clock then. *)

Record reply := mkReply { r_Limiter : option GoError; r_NewRequest : option GoError; r_Do : result GoError HttpResponse; r_Now : Z }.
Record Request := mkRequest { rq_Method : string; rq_URL : string; rq_Header : Header; rq_Body : string }.

Section run.
Context {E : Type}.

Definition Run (A : Type) : Type := list Request -> result E A * list Request.

Definition ret {A} (a : A) : Run A := fun log => (Ok a, log).
Definition fail {A} (e : E) : Run A := fun log => (Err e, log).
Definition then_ {A B} (m : Run A) (k : A -> Run B) : Run B := fun log =>
  match m log with (Ok a, log) => k a log | (Err e, log) => (Err e, log) end.
Definition on_error {A} (f : E -> E) (m : Run A) : Run A := fun log => match m log with (Err e, log) => (Err (f e), log) | ok => ok end.
Definition finish {A B} (m : Run A) (k : A -> result E B) : Run B := fun log => match m log with (Ok a, log) => (k a, log) | (Err e, log) => (Err e, log) end.
Definition of_result {A} (r : result E A) : Run A := fun log => (r, log).

(** A request is logged, and read out of the reply it meets. *)
Definition exchange (answers : nat -> reply) (req : Request) (read : reply -> result E HttpResponse) : Run HttpResponse := fun log =>
  (read (answers (length log)), log ++ [req]).

(** *** What a run leaves in the log *)

(** The requests [m] makes satisfy [P], and it keeps what was logged. *)
Definition makes {A} (P : Request -> Prop) (m : Run A) : Prop := forall log, exists l, (m log).2 = log ++ l /\ Forall P l.
(** It makes [n] of them at most. *)
Definition bounded {A} (n : nat) (m : Run A) : Prop := forall log, (length (m log).2 <= length log + n)%nat.

Lemma makes_ret {A} P (a : A) : makes P (ret a).
Proof. intros log. exists []. by rewrite app_nil_r. Qed.

Lemma makes_fail {A} P e : makes P (fail (A := A) e).
Proof. intros log. exists []. by rewrite app_nil_r. Qed.

Lemma makes_of_result {A} P (r : result E A) : makes P (of_result r).
Proof. intros log. exists []. by rewrite app_nil_r. Qed.

Lemma makes_then {A B} P (m : Run A) (k : A -> Run B) : makes P m -> (forall a, makes P (k a)) -> makes P (then_ m k).
Proof.
  intros Hm Hk log. unfold then_. destruct (Hm log) as (l & E1 & F). destruct (m log) as [[a|e] log1]; cbn in E1; subst log1.
  - destruct (Hk a (log ++ l)) as (l' & -> & F'). exists (l ++ l'). rewrite app_assoc. split; [done|by apply Forall_app].
  - by exists l.
Qed.

Lemma makes_on_error {A} P f (m : Run A) : makes P m -> makes P (on_error f m).
Proof. intros Hm log. destruct (Hm log) as (l & E1 & F). unfold on_error. exists l. by destruct (m log) as [[a|e] log1]. Qed.

Lemma makes_finish {A B} P (m : Run A) (k : A -> result E B) : makes P m -> makes P (finish m k).
Proof. intros Hm log. destruct (Hm log) as (l & E1 & F). unfold finish. exists l. by destruct (m log) as [[a|e] log1]. Qed.

Lemma makes_exchange P answers req read : P req -> makes P (exchange answers req read).
Proof. intros H log. exists [req]. split; [done|by apply Forall_singleton]. Qed.

Lemma on_error_Ok {A} f (m : Run A) log a log' : on_error f m log = (Ok a, log') -> m log = (Ok a, log').
Proof. unfold on_error. by destruct (m log) as [[b|e] l]. Qed.

Lemma finish_Ok {A B} (m : Run A) (k : A -> result E B) log b log' : finish m k log = (Ok b, log') -> exists a, m log = (Ok a, log') /\ k a = Ok b.
Proof. unfold finish. destruct (m log) as [[a|e] l]; [|done]. intros [= E1 ->]. by exists a. Qed.

Lemma then_Ok {A B} (m : Run A) (k : A -> Run B) log b log' : then_ m k log = (Ok b, log') -> exists a log1, m log = (Ok a, log1) /\ k a log1 = (Ok b, log').
Proof. unfold then_. destruct (m log) as [[a|e] l]; [|done]. intros H. by exists a, l. Qed.
End run.
Arguments Run : clear implicits.

#[export] Hint Resolve makes_ret makes_fail makes_of_result makes_then makes_on_error makes_finish makes_exchange : go_run.
