(* ===== verification/HyperClient.v ===== *)
(** * Hyperliquid's HTTP calls (providers/hyperliquid/info.go, exchange.go)

    One attempt of an info read and of a signed exchange write.  What the
    standard library answers along the way (encoding, request construction, the
    context, the round trip, the body) is the argument [attempt_env]; a body is its
    bytes and the error reading past them gives, if any. *)
From S2P Require Export Decimal Exchange.
Local Open Scope Z_scope.

Inductive ErrorKind := ErrorEncode | ErrorRequest | ErrorTransport | ErrorDecode | ErrorDispatch.
#[export] Instance ErrorKind_eq_dec : EqDecision ErrorKind.
Proof. solve_decision. Defined.

Inductive PostError := RequestError (Kind : ErrorKind) (Err : GoError) | HTTPError (StatusCode : Z) (Body : string) | RateLimited.

(** The error as a [GoError]: what it prints and wraps. *)
Definition post_error (e : PostError) : GoError :=
  match e with
  | RequestError _ err => Errorf_w "" err ""
  | HTTPError status body => errors_New ("hyperliquid: unexpected status " +:+ pretty status +:+ ": " +:+ body)
  | RateLimited => ErrRateLimited_v
  end.

(** What the caller learns of the attempt. *)
Record Response := mkAttempt { Dispatched : bool; StatusCode : Z; Date : string }.

Record attempt_env := mkEnv {
  a_Marshal : result GoError string;
  a_NewRequest : option GoError;
  a_CtxBefore : option GoError;
  a_BeforeDispatch : option GoError;     (* None when there is no callback, or it agrees *)
  a_Do : result GoError HttpResponse;
  a_CtxAfter : option GoError;
}.

Definition StatusTooManyRequests : Z := 429.
Definition MainnetInfoURL : string := "https://api.hyperliquid.xyz/info".
Definition MainnetExchangeURL : string := "https://api.hyperliquid.xyz/exchange".

(** The endpoint, whether an HTTP client was injected, and the response limit. *)
Record Client := mkClient { endpoint : string; injected : bool; responseLimit : Z }.

(** [WithResponseLimit] and [WithExchangeResponseLimit]; a nil option is [None]. *)
Definition WithResponseLimit (limit : Z) (c : Client) : Client :=
  if 0 <? limit then mkClient (endpoint c) (injected c) limit else c.
Definition new_client (mainnet url : string) (client : bool) (opts : list (option (Client -> Client))) : Client :=
  foldl (fun c opt => match opt with Some opt => opt c | None => c end)
    (mkClient (if String.eqb url "" then mainnet else url) client (Z.shiftl 4 20)) opts.
Definition NewInfoClient := new_client MainnetInfoURL.
Definition NewExchangeClient := new_client MainnetExchangeURL.

Section post.
Context {X : Type} (unmarshal : string -> result GoError X).

(** [InfoClient.Post]; [None] is a nil client. *)
Definition InfoPost (c : option Client) (env : attempt_env) : Response * result PostError X :=
  let none := mkAttempt false 0 "" in
  match a_Marshal env with
  | Err e => (none, Err (RequestError ErrorEncode (Errorf_w "hyperliquid: request encoding failed: " e "")))
  | Ok _ =>
      match c with
      | None => (none, Err (RequestError ErrorRequest (errors_New "hyperliquid: info client is not configured")))
      | Some c =>
          match a_NewRequest env with
          | Some e => (none, Err (RequestError ErrorRequest (Errorf_w "hyperliquid: request construction failed: " e "")))
          | None =>
              match a_Do env with
              | Err e => (mkAttempt true 0 "", Err (RequestError ErrorTransport (Errorf_w "hyperliquid: info request: " e "")))
              | Ok resp =>
                  let result := mkAttempt true (hr_Status resp) (hr_Date resp) in
                  if hr_Status resp =? StatusTooManyRequests then (result, Err RateLimited)
                  else if negb (success (hr_Status resp)) then
                    (result, Err (HTTPError (hr_Status resp)
                       match ReadAll 512 resp with Ok raw => TrimSpace raw | Err _ => "" end))
                  else
                    match ReadAll (responseLimit c + 1) resp with
                    | Err e => (result, Err (RequestError ErrorDecode (Errorf_w "hyperliquid: reading info response: " e "")))
                    | Ok raw =>
                        if responseLimit c <? Z.of_nat (slen raw) then
                          (result, Err (RequestError ErrorDecode
                             (errors_New ("hyperliquid: response exceeds " +:+ pretty (responseLimit c) +:+ " bytes"))))
                        else
                          match unmarshal raw with
                          | Err e => (result, Err (RequestError ErrorDecode (Errorf_w "hyperliquid: response decoding failed: " e "")))
                          | Ok x => (result, Ok x)
                          end
                    end
              end
          end
      end
  end.

(** [err != nil || int64(len(raw)) > c.responseLimit || json.Unmarshal(raw, out) != nil] *)
Definition decoded (c : Client) (resp : HttpResponse) : option X :=
  match ReadAll (responseLimit c + 1) resp with
  | Ok raw => if responseLimit c <? Z.of_nat (slen raw) then None else ok_of (unmarshal raw)
  | Err _ => None
  end.

(** [ExchangeClient.Post]. *)
Definition ExchangePost (c : option Client) (env : attempt_env) : Response * result PostError X :=
  let none := mkAttempt false 0 "" in
  match c with
  | None => (none, Err (RequestError ErrorRequest (errors_New "hyperliquid: exchange client is not configured")))
  | Some c =>
      match a_Marshal env with
      | Err _ => (none, Err (RequestError ErrorEncode (errors_New "hyperliquid: exchange request encoding failed")))
      | Ok _ =>
          match a_NewRequest env with
          | Some _ => (none, Err (RequestError ErrorRequest (errors_New "hyperliquid: exchange request construction failed")))
          | None =>
              match a_CtxBefore env with
              | Some e => (none, Err (RequestError ErrorRequest
                            (Errorf_w "hyperliquid: exchange request canceled before dispatch: " e "")))
              | None =>
                  match a_BeforeDispatch env with
                  | Some e => (none, Err (RequestError ErrorDispatch e))
                  | None =>
                      match a_Do env with
                      | Err _ =>
                          (mkAttempt true 0 "", Err (RequestError ErrorTransport
                             match a_CtxAfter env with
                             | Some e => Errorf_w "hyperliquid: exchange transport failed: " e ""
                             | None => errors_New "hyperliquid: exchange transport failed"
                             end))
                      | Ok resp =>
                          let result := mkAttempt true (hr_Status resp) (hr_Date resp) in
                          if hr_Status resp =? StatusTooManyRequests then (result, Err RateLimited)
                          else if negb (success (hr_Status resp)) then (result, Err (HTTPError (hr_Status resp) ""))
                          else
                            match decoded c resp with
                            | None => (result, Err (RequestError ErrorDecode (errors_New "hyperliquid: exchange response decoding failed")))
                            | Some x => (result, Ok x)
                            end
                      end
                  end
              end
          end
      end
  end.

End post.

(** ** What a limit and a verdict guarantee *)

(** Two attempts a caller must not tell apart: the same verdicts at every step,
    whatever the library's errors and the provider's text say. *)
Definition same_verdicts {X} (unmarshal : string -> result GoError X) (c : Client) (e e' : attempt_env) : Prop :=
  (is_Some (ok_of (a_Marshal e)) <-> is_Some (ok_of (a_Marshal e'))) /\
  (is_Some (a_NewRequest e) <-> is_Some (a_NewRequest e')) /\
  a_CtxBefore e = a_CtxBefore e' /\ a_BeforeDispatch e = a_BeforeDispatch e' /\ a_CtxAfter e = a_CtxAfter e' /\
  match a_Do e, a_Do e' with
  | Err _, Err _ => True
  | Ok r, Ok r' =>
      hr_Status r = hr_Status r' /\ hr_Date r = hr_Date r' /\
      decoded unmarshal c r = decoded unmarshal c r'
  | _, _ => False
  end.

(** Signed writes are discreet: what the caller is told (the attempt, the result
    or the error) depends on the verdicts and on the caller's own context and
    refusal, never on the text of a library error, of the transport's error, which
    names the endpoint, or of the provider's body. *)
Theorem exchange_post_discreet {X} (unmarshal : string -> result GoError X) c e e' :
  same_verdicts unmarshal c e e' -> ExchangePost unmarshal (Some c) e = ExchangePost unmarshal (Some c) e'.
Proof.
  intros (H1 & H2 & H3 & H4 & H5 & H6). unfold ExchangePost. rewrite H3, H4, H5.
  destruct (a_Marshal e), (a_Marshal e'); simpl in H1; try done; try (destruct H1 as [H1 H1']; by destruct (H1 ltac:(done)) || by destruct (H1' ltac:(done))).
  destruct (a_NewRequest e), (a_NewRequest e'); try done; try (destruct H2 as [H2 H2']; by destruct (H2 ltac:(done)) || by destruct (H2' ltac:(done))).
  destruct (a_CtxBefore e'); [done|]. destruct (a_BeforeDispatch e'); [done|].
  destruct (a_Do e) as [r|], (a_Do e') as [r'|]; try done. destruct H6 as (<- & <- & Hb).
  destruct (_ =? _); [done|]. destruct (negb _); [done|].
  by rewrite Hb.
Qed.
