(* ===== verification/Explorer.v ===== *)
(** * The Hyperliquid L1 explorer (providers/hyperliquid/explorer.go)

    Decoding of explorer transactions and blocks, and the checks a response must
    pass before it is evidence.  The transport's answer to a request is a
    parameter of each query; the JSON of addresses and hashes is go-ethereum's. *)
From stdpp Require Import gmap.
From Stdlib Require Import Ascii.
From S2P Require Export Json Abi HyperAction HyperClient.
Local Open Scope Z_scope.
Local Open Scope go_scope.

Class GethJson `{GoEthereum} := {
  Address_UnmarshalJSON : json -> result GoError Address;
  Hash_UnmarshalJSON : json -> result GoError Hash;
}.

(** ** Actions *)

Definition l1ActionUSDClassTransfer : string := "SystemUsdClassTransferAction".
Definition l1ActionApproveAgent : string := "approveAgent".
Definition l1ActionApproveBuilderFee : string := "SystemApproveBuilderFeeAction".
Definition l1ActionSendAsset : string := "SystemSendAssetAction".

Inductive L1Action `{GoEthereum} :=
| L1USDClassTransferAction (Type_ : string) (Ntl : Z) (ToPerp : bool)
| L1ApproveAgentAction (Type_ SignatureChainID HyperliquidChain : string) (AgentAddress : Address) (AgentName : string) (Nonce : Z)
| L1ApproveBuilderFeeAction (Type_ : string) (MaxFeeRate : Z) (Builder : Address)
| L1SendAssetAction (Type_ : string) (Destination : Address) (FromSubAccount : option Address)
    (SourceDexOrSpot DestinationDexOrSpot : option Z) (Token Wei : Z)
| UnknownL1Action (Type_ : string) (Raw : json).

Definition L1ActionType `{GoEthereum} (a : L1Action) : string :=
  match a with
  | L1USDClassTransferAction t _ _ | L1ApproveAgentAction t _ _ _ _ _ | L1ApproveBuilderFeeAction t _ _
  | L1SendAssetAction t _ _ _ _ _ _ | UnknownL1Action t _ => t
  end.

Record L1Transaction `{GoEthereum} := {
  l_Time : Z; l_User : Address; l_Action : L1Action; l_Block : Z; l_Hash : Hash; l_Error : option string;
}.

Record L1BlockDetails `{GoEthereum} := {
  b_BlockTime : Z; b_Hash : Hash; b_Height : Z; b_NumTransactions : Z; b_Transactions : option (list L1Transaction);
}.

Section explorer.
Context `{G : GoEthereum} `{AB : !Abi} `{JE : JsonErrors} `{GJ : !GethJson} `{U : UnicodeTables}.

(** ** evidence_json.go *)

Definition require_in (nonnull : bool) (object : gmap string json) (name : string) : option GoError :=
  match object !! name with
  | None => Some (errors_New ("required field " +:+ strconv_Quote name +:+ " is missing"))
  | Some v => if nonnull && is_null v then Some (errors_New ("required field " +:+ strconv_Quote name +:+ " is null")) else None
  end.

Fixpoint first_error {A} (f : A -> option GoError) (l : list A) : option GoError :=
  match l with [] => None | x :: l => match f x with Some e => Some e | None => first_error f l end end.

Definition require_fields (nonnull : bool) (data : json) (fields : list string) : result GoError unit :=
  match as_object data with
  | Err e => Err (Errorf_w "decoding JSON object: " e "")
  | Ok object => match first_error (require_in nonnull object) fields with Some e => Err e | None => Ok tt end
  end.

Definition requireJSONObjectFields (data : json) (fields : list string) : result GoError unit := require_fields false data fields.
Definition requireNonNullJSONObjectFields (data : json) (fields : list string) : result GoError unit := require_fields true data fields.

(** ** Decoding *)

Definition d_uint64 := d_uint 64 "uint64".
Definition d_uint32 := d_uint 32 "uint32".
Definition d_int64 := d_int 64 "int64".

Definition decode_target (type : string) (data : json) : result GoError L1Action :=
  let? t := field d_string "" "type" data in
  if String.eqb type l1ActionUSDClassTransfer then
    let? ntl := field d_uint64 0 "ntl" data in
    let? toPerp := field d_bool false "toPerp" data in
    Ok (L1USDClassTransferAction t ntl toPerp)
  else if String.eqb type l1ActionApproveAgent then
    let? chain := field d_string "" "signatureChainId" data in
    let? hchain := field d_string "" "hyperliquidChain" data in
    let? agent := field (d_custom Address_UnmarshalJSON) address_zero "agentAddress" data in
    let? name := field d_string "" "agentName" data in
    let? nonce := field d_uint64 0 "nonce" data in
    Ok (L1ApproveAgentAction t chain hchain agent name nonce)
  else if String.eqb type l1ActionApproveBuilderFee then
    let? rate := field d_uint64 0 "maxFeeRate" data in
    let? builder := field (d_custom Address_UnmarshalJSON) address_zero "builder" data in
    Ok (L1ApproveBuilderFeeAction t rate builder)
  else
    let? destination := field (d_custom Address_UnmarshalJSON) address_zero "destination" data in
    let? sub := field (d_pointer (d_custom Address_UnmarshalJSON) address_zero) None "fromSubAccount" data in
    let? source := field (d_pointer d_uint32 0) None "sourceDexOrSpot" data in
    let? dest := field (d_pointer d_uint32 0) None "destinationDexOrSpot" data in
    let? token := field d_uint64 0 "token" data in
    let? wei := field d_uint64 0 "wei" data in
    Ok (L1SendAssetAction t destination sub source dest token wei).

(** The fields a known action must have; [None] is an unknown one. *)
Definition required_fields (type : string) : option (list string * list string) :=
  if String.eqb type l1ActionUSDClassTransfer then Some (["ntl"; "toPerp"], [])
  else if String.eqb type l1ActionApproveAgent then
    Some (["signatureChainId"; "hyperliquidChain"; "agentAddress"; "agentName"; "nonce"], [])
  else if String.eqb type l1ActionApproveBuilderFee then Some (["maxFeeRate"; "builder"], [])
  else if String.eqb type l1ActionSendAsset then
    Some (["destination"; "token"; "wei"], ["fromSubAccount"; "sourceDexOrSpot"; "destinationDexOrSpot"])
  else None.

Definition wrap_json {A} (pre : string) (r : result GoError A) : result GoError A :=
  match r with Ok x => Ok x | Err e => Err (Errorf_w pre e "") end.

Definition decodeL1Action (data : json) : result GoError L1Action :=
  let? type := wrap_json "decoding L1 action type: " (field d_string "" "type" data) in
  if String.eqb type "" then Err (errors_New "L1 action type is empty")
  else
    match required_fields type with
    | None => Ok (UnknownL1Action type data)
    | Some (nonnull, present) =>
        let? _ := requireNonNullJSONObjectFields data nonnull in
        let? _ := match present with [] => Ok tt | _ => requireJSONObjectFields data present end in
        wrap_json ("decoding " +:+ type +:+ " L1 action: ") (decode_target type data)
    end.

Definition absent_or_null (v : option json) : bool := match v with None => true | Some v => is_null v end.

(** The JSON struct a transaction arrives in. *)
Record tx_wire := mkTxWire {
  w_Time : option Z; w_User : option Address; w_Action : option json; w_Block : option Z; w_Hash : option Hash; w_Error : option json;
}.

Definition decode_tx_wire (data : json) : result GoError tx_wire :=
  let? time := field (d_pointer d_int64 0) None "time" data in
  let? user := field (d_pointer (d_custom Address_UnmarshalJSON) address_zero) None "user" data in
  let? action := field d_raw None "action" data in
  let? block := field (d_pointer d_uint64 0) None "block" data in
  let? hash := field (d_pointer (d_custom Hash_UnmarshalJSON) hash_zero) None "hash" data in
  let? error := field d_raw None "error" data in
  Ok (mkTxWire time user action block hash error).

Definition L1Transaction_UnmarshalJSON (data : json) : result GoError L1Transaction :=
  let? wire := wrap_json "decoding L1 transaction: " (decode_tx_wire data) in
  match w_Time wire with
  | None => Err (errors_New "L1 transaction has no time")
  | Some time =>
  if time <? 0 then Err (errors_New ("L1 transaction time must be non-negative, got " +:+ pretty time))
  else
  match w_User wire, w_Block wire with
  | None, _ => Err (errors_New "L1 transaction has no user")
  | _, None => Err (errors_New "L1 transaction has no block")
  | Some user, Some block =>
  match w_Hash wire with
  | None => Err (errors_New "L1 transaction has no hash")
  | Some hash =>
  if bool_decide (hash = hash_zero) then Err (errors_New "L1 transaction has no hash")
  else
  match w_Action wire with
  | None | Some JNull => Err (errors_New ("L1 transaction " +:+ Hash_Hex hash +:+ " has no action"))
  | Some action =>
  match w_Error wire with
  | None => Err (errors_New ("L1 transaction " +:+ Hash_Hex hash +:+ " has no error result"))
  | Some error =>
      let? action := wrap_json ("decoding L1 transaction " +:+ Hash_Hex hash +:+ " action: ") (decodeL1Action action) in
      let? message :=
        if is_null error then Ok None
        else let? text := wrap_json ("decoding L1 transaction " +:+ Hash_Hex hash +:+ " error result: ") (d_string "" error) in
             Ok (Some text) in
      Ok {| l_Time := time; l_User := user; l_Action := action; l_Block := block; l_Hash := hash; l_Error := message |}
  end end end end end.

(** ** Blocks *)

Definition block_text (b : L1BlockDetails) : string := "L1 block " +:+ pretty (b_Height b).

(** One transaction of the block, given the hashes before it. *)
Definition check_transaction (b : L1BlockDetails) (seen : list Hash) (index : nat) (transaction : L1Transaction) : option GoError :=
  let at_ := block_text b +:+ " transaction " +:+ pretty (Z.of_nat index) in
  if bool_decide (l_Hash transaction = hash_zero) then Some (errors_New (at_ +:+ " has no hash"))
  else if negb (l_Block transaction =? b_Height b) then
    Some (errors_New (at_ +:+ " reports block " +:+ pretty (l_Block transaction)))
  else if negb (l_Time transaction =? b_BlockTime b) then
    Some (errors_New (at_ +:+ " reports time " +:+ pretty (l_Time transaction) +:+ "; blockTime is " +:+ pretty (b_BlockTime b)))
  else if bool_decide (l_Hash transaction ∈ seen) then
    Some (errors_New (block_text b +:+ " repeats transaction " +:+ Hash_Hex (l_Hash transaction)))
  else None.

Fixpoint check_transactions (b : L1BlockDetails) (seen : list Hash) (index : nat) (l : list L1Transaction) : option GoError :=
  match l with
  | [] => None
  | transaction :: l =>
      match check_transaction b seen index transaction with
      | Some e => Some e
      | None => check_transactions b (l_Hash transaction :: seen) (S index) l
      end
  end.

Definition Validate (b : option L1BlockDetails) : option GoError :=
  match b with
  | None => Some (errors_New "L1 block details are nil")
  | Some b =>
      if b_BlockTime b <? 0 then Some (errors_New "L1 block has invalid blockTime")
      else if bool_decide (b_Hash b = hash_zero) then Some (errors_New "L1 block has no hash")
      else
        match b_Transactions b with
        | None => Some (errors_New (block_text b +:+ " has no transaction list"))
        | Some transactions =>
            if negb (Z.of_nat (length transactions) =? b_NumTransactions b) then
              Some (errors_New (block_text b +:+ " contains " +:+ pretty (Z.of_nat (length transactions)) +:+
                " transactions; numTxs is " +:+ pretty (b_NumTransactions b)))
            else check_transactions b [] 0 transactions
        end
  end.

Definition L1BlockDetails_UnmarshalJSON (data : json) : result GoError L1BlockDetails :=
  let? (blockTime, hash, height, numTxs, txs) := wrap_json "decoding L1 block details: "
    (let? blockTime := field (d_pointer d_int64 0) None "blockTime" data in
     let? hash := field (d_pointer (d_custom Hash_UnmarshalJSON) hash_zero) None "hash" data in
     let? height := field (d_pointer d_uint64 0) None "height" data in
     let? numTxs := field (d_pointer d_uint64 0) None "numTxs" data in
     let? txs := field d_raw None "txs" data in
     Ok (blockTime, hash, height, numTxs, txs)) in
  match blockTime with
  | None => Err (errors_New "L1 block has invalid blockTime")
  | Some time =>
  if time <? 0 then Err (errors_New "L1 block has invalid blockTime")
  else
  match hash with
  | None => Err (errors_New "L1 block has no hash")
  | Some hash =>
  if bool_decide (hash = hash_zero) then Err (errors_New "L1 block has no hash")
  else
  match height with
  | None => Err (errors_New "L1 block has no height")
  | Some height =>
  match numTxs with
  | None => Err (errors_New ("L1 block " +:+ pretty height +:+ " has no numTxs"))
  | Some numTxs =>
  match txs with
  | None | Some JNull => Err (errors_New ("L1 block " +:+ pretty height +:+ " has no transaction list"))
  | Some txs =>
      let? transactions := wrap_json ("decoding L1 block " +:+ pretty height +:+ " transactions: ")
        (d_slice L1Transaction_UnmarshalJSON None txs) in
      let candidate := {| b_BlockTime := time; b_Hash := hash; b_Height := height; b_NumTransactions := numTxs;
                          b_Transactions := transactions |} in
      match Validate (Some candidate) with Some e => Err e | None => Ok candidate end
  end end end end end.

(** ** Queries *)

Definition validateL1ExplorerResponseType (got want message : string) : option GoError :=
  if String.eqb got "error" then
    Some (errors_New ("Hyperliquid L1 Explorer error: " +:+ (if String.eqb message "" then "unknown error" else message)))
  else if negb (String.eqb got want) then
    Some (errors_New ("L1 Explorer response type is " +:+ strconv_Quote got +:+ "; want " +:+ strconv_Quote want))
  else None.

(** A pointer to a type with its own [UnmarshalJSON]. *)
Definition d_object {A} (u : json -> result GoError A) : decoder (option A) := fun _ v =>
  match v with JNull => Ok None | v => let? x := u v in Ok (Some x) end.

(** The envelope of a response: its type, its message and one field. *)
Definition envelope {A} (d : decoder A) (zero : A) (name : string) (data : json) : result GoError (string * string * A) :=
  let? type := field d_string "" "type" data in
  let? message := field d_string "" "message" data in
  let? x := field d zero name data in
  Ok (type, message, x).

(** [L1ExplorerClient.post]: the answer of the info transport, whose body is
    decoded to an envelope. *)
Definition post {A} (requestType : string) (answer : result PostError json) (d : decoder A) (zero : A) (name : string) :
    result GoError (string * string * A) :=
  let answered :=
    match answer with
    | Err err => Err err
    | Ok data =>
        match envelope d zero name data with
        | Ok x => Ok x
        | Err e => Err (RequestError ErrorDecode (Errorf_w "hyperliquid: response decoding failed: " e ""))
        end
    end in
  match answered with
  | Ok x => Ok x
  | Err (RequestError ErrorDecode e) => Err (Errorf_w ("decoding " +:+ requestType +:+ " response: ") e "")
  | Err err => Err (Errorf_w ("posting " +:+ requestType +:+ " request: ") (post_error err) "")
  end.

Definition UserDetails (answer : result PostError json) (user : Address) : result GoError (list L1Transaction) :=
  let? (type, message, txs) := wrap_json ("querying L1 Explorer user details for " +:+ Address_Hex user +:+ ": ")
    (post "userDetails" answer (d_slice L1Transaction_UnmarshalJSON) None "txs") in
  match validateL1ExplorerResponseType type "userDetails" message with
  | Some e => Err e
  | None =>
      let txs := default [] txs in
      match List.find (fun t => negb (bool_decide (l_User t = user))) txs with
      | Some t => Err (errors_New ("L1 Explorer userDetails transaction " +:+ Hash_Hex (l_Hash t) +:+ " belongs to " +:+
                    Address_Hex (l_User t) +:+ ", want " +:+ Address_Hex user))
      | None => Ok txs
      end
  end.

Definition TxDetails (answer : result PostError json) (hash : Hash) : result GoError L1Transaction :=
  let? (type, message, tx) := wrap_json ("querying L1 Explorer transaction " +:+ Hash_Hex hash +:+ ": ")
    (post "txDetails" answer (d_object L1Transaction_UnmarshalJSON) None "tx") in
  match validateL1ExplorerResponseType type "txDetails" message with
  | Some e => Err e
  | None =>
      match tx with
      | None => Err (errors_New ("L1 Explorer txDetails response for " +:+ Hash_Hex hash +:+ " has no transaction"))
      | Some tx =>
          if negb (bool_decide (l_Hash tx = hash)) then
            Err (errors_New ("L1 Explorer returned transaction " +:+ Hash_Hex (l_Hash tx) +:+ " for requested hash " +:+ Hash_Hex hash))
          else Ok tx
      end
  end.

Definition BlockDetails (answer : result PostError json) (height : Z) : result GoError L1BlockDetails :=
  let? (type, message, block) := wrap_json ("querying L1 Explorer block " +:+ pretty height +:+ ": ")
    (post "blockDetails" answer (d_object L1BlockDetails_UnmarshalJSON) None "blockDetails") in
  match validateL1ExplorerResponseType type "blockDetails" message with
  | Some e => Err e
  | None =>
      match block with
      | None => Err (errors_New ("L1 Explorer blockDetails response for " +:+ pretty height +:+ " has no block"))
      | Some block =>
          if negb (b_Height block =? height) then
            Err (errors_New ("L1 Explorer returned block " +:+ pretty (b_Height block) +:+ " for requested height " +:+ pretty height))
          else Ok block
      end
  end.

End explorer.

(** ** Evidence is sound *)

Section soundness.
Context `{G : GoEthereum} `{AB : !Abi} `{JE : JsonErrors} `{GJ : !GethJson} `{U : UnicodeTables}.

(** A complete block: its own fields, and its transactions against them. *)
Definition consistent (b : L1BlockDetails) (transactions : list L1Transaction) : Prop :=
  0 <= b_BlockTime b /\ b_Hash b <> hash_zero /\ b_Transactions b = Some transactions /\
  Z.of_nat (length transactions) = b_NumTransactions b /\ NoDup (map l_Hash transactions) /\
  forall t, t ∈ transactions -> l_Hash t <> hash_zero /\ l_Block t = b_Height b /\ l_Time t = b_BlockTime b.

Lemma check_transaction_None b seen index t : check_transaction b seen index t = None <->
  l_Hash t <> hash_zero /\ l_Block t = b_Height b /\ l_Time t = b_BlockTime b /\ l_Hash t ∉ seen.
Proof.
  unfold check_transaction. cbv zeta. case_bool_decide as H1; [split; [done|by intros (? & _)]|].
  destruct (Z.eqb_spec (l_Block t) (b_Height b)) as [E2|E2]; cbn [negb]; [|split; [done|by intros (_ & ? & _)]].
  destruct (Z.eqb_spec (l_Time t) (b_BlockTime b)) as [E3|E3]; cbn [negb]; [|split; [done|by intros (_ & _ & ? & _)]].
  case_bool_decide as H4; split; [done|by intros (_ & _ & _ & ?)|by intros _|done].
Qed.

Lemma check_transactions_None b l : forall seen index, check_transactions b seen index l = None <->
  NoDup (map l_Hash l) /\ (forall t, t ∈ l -> l_Hash t <> hash_zero /\ l_Block t = b_Height b /\ l_Time t = b_BlockTime b /\ l_Hash t ∉ seen).
Proof.
  induction l as [|t l IH]; intros seen index; cbn [check_transactions map].
  { split; [|done]. intros _. split; [constructor|]. intros t Ht. by apply elem_of_nil in Ht. }
  destruct (check_transaction b seen index t) as [e|] eqn:E.
  - split; [done|]. intros [_ H]. assert (Hn : check_transaction b seen index t = None) by (apply check_transaction_None, H; left). congruence.
  - apply check_transaction_None in E as (E1 & E2 & E3 & E4). rewrite IH, NoDup_cons. split.
    + intros [Hd H]. split; [split; [|done]|].
      * rewrite list_elem_of_In, in_map_iff. intros (u & Eu & Hu%list_elem_of_In). destruct (H u Hu) as (_ & _ & _ & Hn).
        apply Hn, elem_of_cons. left. exact Eu.
      * intros u [->|Hu]%elem_of_cons; [done|]. destruct (H u Hu) as (? & ? & ? & Hn). split_and!; try done. intros Hs. apply Hn. by right.
    + intros [[Hn Hd] H]. split; [done|]. intros u Hu. destruct (H u ltac:(by right)) as (? & ? & ? & ?). split_and!; try done.
      intros [Eu|]%elem_of_cons; [|done]. apply Hn. rewrite list_elem_of_In, in_map_iff. exists u. split; [done|by apply list_elem_of_In].
Qed.

(** [Validate] accepts exactly the complete, consistent blocks. *)
Lemma Validate_spec b : Validate (Some b) = None <-> exists transactions, consistent b transactions.
Proof.
  cbn [Validate]. unfold consistent. destruct (Z.ltb_spec (b_BlockTime b) 0) as [H1|H1]; [split; [done|intros (l & ? & _); lia]|].
  case_bool_decide as H2; [split; [done|by intros (l & _ & ? & _)]|].
  destruct (b_Transactions b) as [l|]; [|split; [done|by intros (l & _ & _ & ? & _)]].
  destruct (Z.eqb_spec (Z.of_nat (length l)) (b_NumTransactions b)) as [H3|H3]; cbn [negb];
    [|split; [done|intros (l' & _ & _ & [= ->] & ? & _); done]].
  rewrite check_transactions_None. split.
  - intros [Hd H]. exists l. split_and!; try done. intros t Ht. by destruct (H t Ht) as (? & ? & ? & _).
  - intros (l' & _ & _ & [= <-] & _ & Hd & H). split; [done|]. intros t Ht. destruct (H t Ht) as (? & ? & ?). split_and!; try done.
    intros Hn. by apply elem_of_nil in Hn.
Qed.

(** The value of an object's field. *)
Definition member (name : string) (data v : json) : Prop := exists fields, data = JObject fields /\ last (matches name fields) = Some v.

Lemma field_object {A} (u : json -> result GoError A) name data x :
  field (d_object u) None name data = Ok (Some x) -> exists v, member name data v /\ u v = Ok x.
Proof.
  intros H%(field_last (fun v => match v with JNull => Ok None | v => let? x := u v in Ok (Some x) end)).
  destruct data as [| | | | |fields]; try (by destruct H). destruct (last (matches name fields)) as [v|] eqn:E; [|done].
  exists v. split; [by exists fields|]. destruct v; try done; apply result_bind_Ok in H as (y & Hy & [= <-]); done.
Qed.

Lemma field_raw name data v : field d_raw None name data = Ok (Some v) -> member name data v.
Proof.
  intros H%(field_last (fun v => Ok (Some v))). destruct data as [| | | | |fields]; try (by destruct H).
  destruct (last (matches name fields)) as [w|] eqn:E; [|done]. injection H as ->. by exists fields.
Qed.

Lemma wrap_json_Ok {A} pre (r : result GoError A) x : wrap_json pre r = Ok x -> r = Ok x.
Proof. by destruct r. Qed.

Lemma UnmarshalJSON_block data b : L1BlockDetails_UnmarshalJSON data = Ok b ->
  exists transactions elements, consistent b transactions /\ member "txs" data (JArray elements) /\
    Forall2 (fun v t => L1Transaction_UnmarshalJSON v = Ok t) elements transactions.
Proof.
  unfold L1BlockDetails_UnmarshalJSON. intros ([[[[[time|] hash] height] numTxs] txs] & Hw%wrap_json_Ok & H)%result_bind_Ok; [|done].
  do 5 (apply result_bind_Ok in Hw as (? & ? & Hw)). injection Hw as -> -> -> -> ->.
  destruct (Z.ltb_spec time 0); [done|]. destruct hash as [hash|]; [|done]. case_bool_decide; [done|].
  destruct height as [height|]; [|done]. destruct numTxs as [numTxs|]; [|done]. destruct txs as [v|]; [|done].
  assert (Hraw : member "txs" data v) by (by apply field_raw).
  assert (Hn : v <> JNull) by (by intros ->).
  assert (H' : (let? transactions := wrap_json ("decoding L1 block " +:+ pretty height +:+ " transactions: ")
       (d_slice L1Transaction_UnmarshalJSON None v) in
     let candidate := {| b_BlockTime := time; b_Hash := hash; b_Height := height; b_NumTransactions := numTxs; b_Transactions := transactions |} in
     match Validate (Some candidate) with Some e => Err e | None => Ok candidate end) = Ok b) by (by destruct v).
  clear H. apply result_bind_Ok in H' as (l & Hl%wrap_json_Ok & H). cbv zeta in H. destruct (Validate _) eqn:Ev; [done|]. injection H as <-.
  apply Validate_spec in Ev as (ts & Hc). exists ts. destruct v as [| | | |elements|]; try done. cbn [d_slice] in Hl.
  apply result_bind_Ok in Hl as (xs & Hx%each_Forall2 & [= <-]). exists elements. split; [done|]. split; [done|].
  destruct Hc as (_ & _ & [= <-] & _). done.
Qed.

Lemma post_Ok {A} requestType answer (d : decoder A) zero name r : post requestType answer d zero name = Ok r ->
  exists data, answer = Ok data /\ field d zero name data = Ok (snd r).
Proof.
  unfold post. destruct answer as [data|err]; [|by destruct err as [[]| |]]. destruct (envelope d zero name data) as [x|] eqn:E; [|done].
  intros [= <-]. unfold envelope in E. exists data. split; [done|].
  apply result_bind_Ok in E as (? & _ & E). apply result_bind_Ok in E as (? & _ & E). apply result_bind_Ok in E as (y & Hy & [= <-]). done.
Qed.

(** C32: What the explorer client accepts is evidence. A block is the requested
    one and complete: its transactions are exactly the elements of the
    response's list, in order, as many as announced, with distinct non-zero
    hashes, all reporting the block's height and time. A transaction has the
    requested hash, and those of an account belong to it. *)
Theorem explorer_sound answer :
  (forall height b, BlockDetails answer height = Ok b ->
     b_Height b = height /\ exists data v transactions elements, answer = Ok data /\ member "blockDetails" data v /\
       member "txs" v (JArray elements) /\ consistent b transactions /\
       Forall2 (fun v t => L1Transaction_UnmarshalJSON v = Ok t) elements transactions) /\
  (forall hash t, TxDetails answer hash = Ok t ->
     l_Hash t = hash /\ exists data v, answer = Ok data /\ member "tx" data v /\ L1Transaction_UnmarshalJSON v = Ok t) /\
  (forall user l, UserDetails answer user = Ok l -> forall t, t ∈ l -> l_User t = user).
Proof.
  split; [|split].
  - intros height b. unfold BlockDetails. intros ([[type message] block] & Hw%wrap_json_Ok%post_Ok & H)%result_bind_Ok.
    destruct Hw as (data & -> & Hf). cbn [snd] in Hf. destruct (validateL1ExplorerResponseType _ _ _); [done|].
    destruct block as [b'|]; [|done]. destruct (Z.eqb_spec (b_Height b') height) as [Eh|]; [|done]. injection H as <-. split; [done|].
    apply field_object in Hf as (v & Hm & (ts & es & Hc & Ht & HF)%UnmarshalJSON_block). by exists data, v, ts, es.
  - intros hash t. unfold TxDetails. intros ([[type message] tx] & Hw%wrap_json_Ok%post_Ok & H)%result_bind_Ok.
    destruct Hw as (data & -> & Hf). cbn [snd] in Hf. destruct (validateL1ExplorerResponseType _ _ _); [done|].
    destruct tx as [t'|]; [|done]. case_bool_decide as Eh; [|done]. injection H as <-. split; [done|].
    apply field_object in Hf as (v & Hm & Hu). by exists data, v.
  - intros user l. unfold UserDetails. intros ([[type message] txs] & _ & H)%result_bind_Ok.
    destruct (validateL1ExplorerResponseType _ _ _); [done|]. destruct (List.find _ _) eqn:E; [done|]. injection H as <-.
    intros t Ht%list_elem_of_In. pose proof (List.find_none _ _ E t Ht) as Hn. cbn in Hn. by apply negb_false_iff, bool_decide_eq_true in Hn.
Qed.

End soundness.
