(* ===== verification/Ledger.v ===== *)
(** * Hyperliquid's amounts, ledger and reads (providers/hyperliquid/amount.go, ledger.go, info.go, types.go)

    Decimal text as exact rationals, the union of ledger updates decoded by its
    discriminator, and the typed queries of the info client over one attempt. *)
From Stdlib Require Import Ascii QArith Qreduction Qpower.
From S2P Require Export Numbers Explorer.
Local Open Scope Z_scope.
Local Open Scope go_scope.

(** ** Amounts *)

Definition digits_then (s : string) (k : string -> bool) : bool := if starts_digit s then k (skip_digits s) else false.

Definition isDecimalNumber (value : string) : bool :=
  if String.eqb value "" then false
  else
    let rest := if HasPrefix value "-" then sdrop 1 value else value in
    digits_then rest (fun rest =>
    let exponent_part (rest : string) :=
      if HasPrefix rest "e" || HasPrefix rest "E" then
        let rest := sdrop 1 rest in
        let rest := if HasPrefix rest "+" || HasPrefix rest "-" then sdrop 1 rest else rest in
        digits_then rest (fun rest => String.eqb rest "")
      else String.eqb rest "" in
    if HasPrefix rest "." then digits_then (sdrop 1 rest) exponent_part else exponent_part rest).

(** A value of a decimal, in lowest terms. *)
Definition decimal_rat (d : decimal) : Q :=
  let m := if negative d then - mantissa d else mantissa d in
  if 0 <=? power d then inject_Z (m * 10 ^ power d) else Qred (m # Z.to_pos (10 ^ (- power d))).

(** [new(big.Rat).SetString(s)] of a decimal number: an exponent that is no
    [int64] is refused, and so is a power of ten beyond a million unless the
    mantissa is zero. *)
Definition rat_SetString (s : string) : option Q :=
  d ← decimal_of s;
  '(_, s) ← Some (cut_sign s);
  '(f, s) ← fraction (skip_digits s);
  '(e, _) ← exponent s;
  if negb (bool_decide (is_i64 e)) then None
  else if mantissa d =? 0 then Some (inject_Z 0)
  else if 1000000 <? Z.abs (power d) then None
  else Some (decimal_rat d).

Section amounts.
Context `{U : UnicodeTables}.

Definition invalid_amount (s : string) : GoError := errors_New ("invalid decimal amount " +:+ strconv_Quote s).

Definition ParseAmount (s : string) : result GoError Q :=
  if negb (isDecimalNumber s) then Err (invalid_amount s)
  else match rat_SetString s with Some amount => Ok amount | None => Err (invalid_amount s) end.

(** ** Decimals of the API *)

(** A [Decimal] is its text. *)
Definition Decimal_Rat (d : string) : result GoError Q := ParseAmount d.

Definition decodeDecimalText (v : json) : result GoError string :=
  match v with
  | JString value => Ok value
  | JNumber text => Ok text
  | _ => Err (errors_New "decoding numeric HyperCore decimal: expected one JSON number")
  end.

Definition Decimal_UnmarshalJSON (v : json) : result GoError string :=
  let? value := decodeDecimalText v in
  let? _ := ParseAmount value in
  Ok value.

Definition decimalWireText_UnmarshalJSON (v : json) : result GoError string := if is_null v then Ok "" else decodeDecimalText v.
End amounts.

(** ** Ledger updates *)

Definition LedgerDeltaDeposit : string := "deposit".
Definition LedgerDeltaWithdraw : string := "withdraw".
Definition LedgerDeltaInternalTransfer : string := "internalTransfer".
Definition LedgerDeltaSubAccountTransfer : string := "subAccountTransfer".
Definition LedgerDeltaLiquidation : string := "liquidation".
Definition LedgerDeltaVaultCreate : string := "vaultCreate".
Definition LedgerDeltaVaultDeposit : string := "vaultDeposit".
Definition LedgerDeltaVaultDistribution : string := "vaultDistribution".
Definition LedgerDeltaVaultWithdraw : string := "vaultWithdraw".
Definition LedgerDeltaVaultLeaderCommission : string := "vaultLeaderCommission".
Definition LedgerDeltaSpotTransfer : string := "spotTransfer".
Definition LedgerDeltaAccountClassTransfer : string := "accountClassTransfer".
Definition LedgerDeltaSpotGenesis : string := "spotGenesis".
Definition LedgerDeltaRewardsClaim : string := "rewardsClaim".
Definition LedgerDeltaSend : string := "send".
Definition LedgerDeltaAccountActivationGas : string := "accountActivationGas".
Definition LedgerDeltaCStakingTransfer : string := "cStakingTransfer".

Section ledger.
Context `{U : UnicodeTables} `{G : GoEthereum} `{AB : !Abi} `{JE : JsonErrors} `{GJ : !GethJson}.

Record LiquidatedPosition := mkLiquidated { lp_Coin : string; lp_Szi : string }.

Inductive NonFundingLedgerDelta :=
| DepositLedgerDelta (Type_ USDC : string)
| WithdrawLedgerDelta (Type_ USDC : string) (Nonce : Z) (Fee : string)
| InternalTransferLedgerDelta (Type_ USDC : string) (User Destination : Address) (Fee : string)
| SubAccountTransferLedgerDelta (Type_ USDC : string) (User Destination : Address)
| LiquidationLedgerDelta (Type_ AccountValue LeverageType : string) (LiquidatedPositions : list LiquidatedPosition)
| VaultLedgerDelta (Type_ : string) (Vault : Address) (USDC : string)
| VaultWithdrawalLedgerDelta (Type_ : string) (Vault User : Address) (RequestedUSD Commission ClosingCost Basis NetWithdrawnUSD : string)
| VaultLeaderCommissionLedgerDelta (Type_ : string) (User : Address) (USDC : string)
| SpotTransferLedgerDelta (Type_ Token Amount USDCValue : string) (User Destination : Address) (Fee : string)
| SendLedgerDelta (Type_ : string) (User Destination : Address) (SourceDex DestinationDex Token Amount USDCValue Fee NativeTokenFee : string) (Nonce : Z) (FeeToken : string)
| AccountClassTransferLedgerDelta (Type_ USDC : string) (ToPerp : bool)
| SpotGenesisLedgerDelta (Type_ Token Amount : string)
| RewardsClaimLedgerDelta (Type_ Amount : string)
| UnknownLedgerDelta (Type_ : string) (Raw : json).

(** [LedgerDeltaKind]; a nil delta is [None]. *)
Definition LedgerDeltaKind (delta : option NonFundingLedgerDelta) : string :=
  match delta with
  | None => ""
  | Some (DepositLedgerDelta t _ | WithdrawLedgerDelta t _ _ _ | InternalTransferLedgerDelta t _ _ _ _ | SubAccountTransferLedgerDelta t _ _ _
      | LiquidationLedgerDelta t _ _ _ | VaultLedgerDelta t _ _ | VaultWithdrawalLedgerDelta t _ _ _ _ _ _ _ | VaultLeaderCommissionLedgerDelta t _ _
      | SpotTransferLedgerDelta t _ _ _ _ _ _ | SendLedgerDelta t _ _ _ _ _ _ _ _ _ _ _ | AccountClassTransferLedgerDelta t _ _
      | SpotGenesisLedgerDelta t _ _ | RewardsClaimLedgerDelta t _ | UnknownLedgerDelta t _) => t
  end.

(** The variants a discriminator selects. *)
Inductive variant :=
| V_Deposit | V_Withdraw | V_InternalTransfer | V_SubAccountTransfer | V_Liquidation | V_Vault | V_VaultWithdrawal | V_VaultLeaderCommission
| V_SpotTransfer | V_Send | V_AccountClassTransfer | V_SpotGenesis | V_RewardsClaim.

Definition variant_of (type : string) : option variant :=
  let named x := String.eqb type x in
  if named LedgerDeltaDeposit then Some V_Deposit
  else if named LedgerDeltaWithdraw then Some V_Withdraw
  else if named LedgerDeltaInternalTransfer then Some V_InternalTransfer
  else if named LedgerDeltaSubAccountTransfer then Some V_SubAccountTransfer
  else if named LedgerDeltaLiquidation then Some V_Liquidation
  else if named LedgerDeltaVaultCreate || named LedgerDeltaVaultDeposit || named LedgerDeltaVaultDistribution then Some V_Vault
  else if named LedgerDeltaVaultWithdraw then Some V_VaultWithdrawal
  else if named LedgerDeltaVaultLeaderCommission then Some V_VaultLeaderCommission
  else if named LedgerDeltaSpotTransfer then Some V_SpotTransfer
  else if named LedgerDeltaSend then Some V_Send
  else if named LedgerDeltaAccountClassTransfer then Some V_AccountClassTransfer
  else if named LedgerDeltaSpotGenesis then Some V_SpotGenesis
  else if named LedgerDeltaRewardsClaim then Some V_RewardsClaim
  else None.

Definition send_fields : list string :=
  ["user"; "destination"; "sourceDex"; "destinationDex"; "token"; "amount"; "usdcValue"; "fee"; "nativeTokenFee"; "nonce"; "feeToken"].
Definition class_transfer_fields : list string := ["usdc"; "toPerp"].

(** Fields of a document by their types. *)
Definition f_string (name : string) (raw : json) : result GoError string := field d_string "" name raw.
Definition f_decimal (name : string) (raw : json) : result GoError string := field (d_custom Decimal_UnmarshalJSON) "" name raw.
Definition f_address (name : string) (raw : json) : result GoError Address := field (d_custom Address_UnmarshalJSON) address_zero name raw.
Definition f_uint64 (name : string) (raw : json) : result GoError Z := field d_uint64 0 name raw.

Definition decode_position (raw : json) : result GoError LiquidatedPosition :=
  let? coin := f_string "coin" raw in
  let? szi := f_decimal "szi" raw in
  Ok (mkLiquidated coin szi).

Definition decode_variant (v : variant) (raw : json) : result GoError NonFundingLedgerDelta :=
  let? t := f_string "type" raw in
  match v with
  | V_Deposit => let? usdc := f_decimal "usdc" raw in Ok (DepositLedgerDelta t usdc)
  | V_Withdraw =>
      let? usdc := f_decimal "usdc" raw in
      let? nonce := f_uint64 "nonce" raw in
      let? fee := f_decimal "fee" raw in
      Ok (WithdrawLedgerDelta t usdc nonce fee)
  | V_InternalTransfer =>
      let? usdc := f_decimal "usdc" raw in
      let? user := f_address "user" raw in
      let? destination := f_address "destination" raw in
      let? fee := f_decimal "fee" raw in
      Ok (InternalTransferLedgerDelta t usdc user destination fee)
  | V_SubAccountTransfer =>
      let? usdc := f_decimal "usdc" raw in
      let? user := f_address "user" raw in
      let? destination := f_address "destination" raw in
      Ok (SubAccountTransferLedgerDelta t usdc user destination)
  | V_Liquidation =>
      let? value := f_decimal "accountValue" raw in
      let? leverage := f_string "leverageType" raw in
      let? positions := field (d_slice decode_position) None "liquidatedPositions" raw in
      Ok (LiquidationLedgerDelta t value leverage (default [] positions))
  | V_Vault =>
      let? vault := f_address "vault" raw in
      let? usdc := f_decimal "usdc" raw in
      Ok (VaultLedgerDelta t vault usdc)
  | V_VaultWithdrawal =>
      let? vault := f_address "vault" raw in
      let? user := f_address "user" raw in
      let? requested := f_decimal "requestedUsd" raw in
      let? commission := f_decimal "commission" raw in
      let? closing := f_decimal "closingCost" raw in
      let? basis := f_decimal "basis" raw in
      let? net := f_decimal "netWithdrawnUsd" raw in
      Ok (VaultWithdrawalLedgerDelta t vault user requested commission closing basis net)
  | V_VaultLeaderCommission =>
      let? user := f_address "user" raw in
      let? usdc := f_decimal "usdc" raw in
      Ok (VaultLeaderCommissionLedgerDelta t user usdc)
  | V_SpotTransfer =>
      let? token := f_string "token" raw in
      let? amount := f_decimal "amount" raw in
      let? value := f_decimal "usdcValue" raw in
      let? user := f_address "user" raw in
      let? destination := f_address "destination" raw in
      let? fee := f_decimal "fee" raw in
      Ok (SpotTransferLedgerDelta t token amount value user destination fee)
  | V_Send =>
      let? user := f_address "user" raw in
      let? destination := f_address "destination" raw in
      let? source := f_string "sourceDex" raw in
      let? dest := f_string "destinationDex" raw in
      let? token := f_string "token" raw in
      let? amount := f_decimal "amount" raw in
      let? value := f_decimal "usdcValue" raw in
      let? fee := f_decimal "fee" raw in
      let? native := f_decimal "nativeTokenFee" raw in
      let? nonce := f_uint64 "nonce" raw in
      let? feeToken := f_string "feeToken" raw in
      Ok (SendLedgerDelta t user destination source dest token amount value fee native nonce feeToken)
  | V_AccountClassTransfer =>
      let? usdc := f_decimal "usdc" raw in
      let? toPerp := field d_bool false "toPerp" raw in
      Ok (AccountClassTransferLedgerDelta t usdc toPerp)
  | V_SpotGenesis =>
      let? token := f_string "token" raw in
      let? amount := f_decimal "amount" raw in
      Ok (SpotGenesisLedgerDelta t token amount)
  | V_RewardsClaim => let? amount := f_decimal "amount" raw in Ok (RewardsClaimLedgerDelta t amount)
  end.

(** The fields a variant must have, not null. *)
Definition required (v : variant) : list string :=
  match v with V_Send => send_fields | V_AccountClassTransfer => class_transfer_fields | _ => [] end.

Definition DecodeLedgerDelta (data : json) : result GoError NonFundingLedgerDelta :=
  match f_string "type" data with
  | Err e => Err (Errorf_w "decoding ledger delta type: " e "")
  | Ok type =>
      if String.eqb type "" then Err (errors_New "ledger delta type is empty")
      else
        match variant_of type with
        | None => Ok (UnknownLedgerDelta type data)
        | Some v =>
            let? _ := match required v with [] => Ok tt | l => requireNonNullJSONObjectFields data l end in
            match decode_variant v data with
            | Ok delta => Ok delta
            | Err e => Err (Errorf_w ("decoding " +:+ type +:+ " ledger delta: ") e "")
            end
        end
  end.
End ledger.

(** ** The decimal grammar *)

Lemma digits_then_span s k : digits_then s k = let '(d, r) := span_digits s in if String.eqb d "" then false else k r.
Proof.
  unfold digits_then. destruct (skip_digits_span s) as [H1 H2]. rewrite H1, H2. destruct (span_digits s) as [d r]. cbn [fst snd].
  by destruct (String.eqb d "").
Qed.

(** The exponent, and the end. *)
Definition exponent_ends (s : string) : bool := match exponent s with Some (_, r) => String.eqb r "" | None => false end.

Lemma HasPrefix_one s c : HasPrefix s (String c "") = match s with String d _ => Ascii.eqb d c | "" => false end.
Proof. destruct s as [|d s]; [done|]. cbn [HasPrefix]. destruct (Ascii.eqb_spec d c), (Ascii.eqb_spec c d); congruence || (by destruct s). Qed.

Lemma exponent_part_spec rest :
  (if HasPrefix rest "e" || HasPrefix rest "E" then
     let rest := sdrop 1 rest in
     let rest := if HasPrefix rest "+" || HasPrefix rest "-" then sdrop 1 rest else rest in
     digits_then rest (fun rest => String.eqb rest "")
   else String.eqb rest "") = exponent_ends rest.
Proof.
  unfold exponent_ends. rewrite !HasPrefix_one. destruct rest as [|c rest]; [done|]. cbn [exponent sdrop].
  destruct (Ascii.eqb c "e"%char || Ascii.eqb c "E"%char); [|done]. cbv zeta. rewrite digits_then_span.
  destruct rest as [|d rest]; [done|].
  destruct (Ascii.eqb_spec d "-"%char) as [->|]; [change (Ascii.eqb "-" "+") with false; cbn [orb sdrop]|destruct (Ascii.eqb_spec d "+"%char) as [->|]; cbn [orb sdrop]].
  all: lazymatch goal with |- context [span_digits ?x] => destruct (span_digits x) as [e r] end; by destruct (String.eqb e "").
Qed.

Lemma isDecimalNumber_grammar s : isDecimalNumber s = true <-> is_Some (decimal_of s).
Proof.
  assert (E : isDecimalNumber s = match decimal_of s with Some _ => true | None => false end).
  2: { rewrite E. destruct (decimal_of s); split; try done; by intros [? ?]. }
  unfold isDecimalNumber, decimal_of. destruct (String.eqb_spec s "") as [->|Hne]; [done|]. cbv zeta.
  assert (Hs : cut_sign s = (HasPrefix s "-", if HasPrefix s "-" then sdrop 1 s else s)).
  { rewrite HasPrefix_one. destruct s as [|c s]; [done|]. cbn [cut_sign sdrop]. by destruct (Ascii.eqb c "-"%char). }
  rewrite Hs. clear Hs. generalize (if HasPrefix s "-" then sdrop 1 s else s) as t. intros t. rewrite digits_then_span.
  destruct (span_digits t) as [i r]. destruct (String.eqb i ""); [done|].
  rewrite HasPrefix_one. destruct r as [|c r]; [by vm_compute|]. cbn [fraction sdrop]. destruct (Ascii.eqb c "."%char).
  - rewrite digits_then_span. destruct (span_digits r) as [f r']. destruct (String.eqb f ""); [done|]. cbn [mbind option_bind].
    rewrite exponent_part_spec. unfold exponent_ends. destruct (exponent r') as [[e r'']|]; [|done]. cbn [mbind option_bind]. by destruct (String.eqb r'' "").
  - cbn [mbind option_bind]. rewrite exponent_part_spec. unfold exponent_ends. destruct (exponent (String c r)) as [[e r'']|]; [|done].
    cbn [mbind option_bind]. by destruct (String.eqb r'' "").
Qed.

(** ** Amounts are exact *)

(** The number a decimal denotes. *)
Definition decimal_value (d : decimal) : Q :=
  (inject_Z (if negative d then - mantissa d else mantissa d) * Qpower (inject_Z 10) (power d))%Q.

Lemma decimal_rat_value d : (decimal_rat d == decimal_value d)%Q.
Proof.
  unfold decimal_rat, decimal_value. cbv zeta. generalize (if negative d then - mantissa d else mantissa d) as m. intros m.
  destruct (Z.leb_spec 0 (power d)) as [H|H].
  - rewrite inject_Z_mult. by rewrite Zpower_Qpower by done.
  - rewrite Qred_correct. replace (power d) with (- (- power d)) at 2 by lia. rewrite Qpower_opp, <- Zpower_Qpower by lia.
    set (k := 10 ^ (- power d)). assert (Hk : 0 < k) by (apply Z.pow_pos_nonneg; lia).
    unfold Qeq, Qmult, Qinv, inject_Z. cbn [Qnum Qden]. destruct k as [|k|k]; try lia. cbn [Z.to_pos Qnum Qden]. lia.
Qed.

Lemma span_digits_len s : (slen (fst (span_digits s)) + slen (snd (span_digits s)) = slen s)%nat.
Proof. pose proof (span_digits_spec s) as H. destruct (span_digits s) as [d r]. destruct H as [-> _]. cbn [fst snd]. by rewrite slen_app. Qed.

Section amount_theorems.
Context `{U : UnicodeTables}.

Lemma rat_parts s d : decimal_of s = Some d ->
  exists f r e r', fraction (skip_digits (cut_sign s).2) = Some (f, r) /\ exponent r = Some (e, r') /\ power d = e - Z.of_nat (slen f) /\ (slen f <= slen s)%nat.
Proof.
  unfold decimal_of. destruct (cut_sign s) as [neg t] eqn:Ec. cbn [snd]. destruct (skip_digits_span t) as [-> _].
  pose proof (span_digits_len t) as Hl. destruct (span_digits t) as [i r]. cbn [fst snd] in *. destruct (String.eqb i ""); [done|].
  destruct (fraction r) as [[f r1]|] eqn:Ef; [|done]. cbn [mbind option_bind]. destruct (exponent r1) as [[e r2]|] eqn:Ee; [|done].
  cbn [mbind option_bind]. destruct (String.eqb r2 ""); [|done]. intros [= <-]. exists f, r1, e, r2. split; [done|]. split; [done|]. split; [done|].
  assert (Ht : (slen t <= slen s)%nat).
  { destruct s as [|c s]; [by injection Ec as _ <-|]. cbn [cut_sign] in Ec. destruct (Ascii.eqb c "-"%char); injection Ec as _ <-; cbn; lia. }
  assert (Hf : (slen f <= slen r)%nat); [|lia].
  destruct r as [|c r]; [injection Ef as <- _; cbn; lia|]. cbn [fraction] in Ef. destruct (Ascii.eqb c "."%char); [|injection Ef as <- _; cbn; lia].
  pose proof (span_digits_len r) as Hr. destruct (span_digits r) as [f' r']. cbn [fst snd] in Hr. destruct (String.eqb f' ""); [done|].
  injection Ef as <- _. cbn. lia.
Qed.

(** An amount is exactly the decimal its text denotes, and the text is refused
    only when it is no decimal number or its power of ten is beyond a million. *)
Theorem ParseAmount_exact s (Hs : Z.of_nat (slen s) < 2 ^ 62) :
  match ParseAmount s with
  | Ok q => exists d, decimal_of s = Some d /\ (q == decimal_value d)%Q
  | Err e => e = invalid_amount s /\ (decimal_of s = None \/ exists d, decimal_of s = Some d /\ 1000000 < Z.abs (power d))
  end.
Proof.
  unfold ParseAmount. destruct (isDecimalNumber s) eqn:E.
  2: { split; [done|]. left. destruct (decimal_of s) eqn:Ed; [|done]. rewrite (proj2 (isDecimalNumber_grammar s)) in E by (by eexists). done. }
  apply isDecimalNumber_grammar in E as [d Hd]. cbn [negb]. destruct (rat_parts s d Hd) as (f & r & e & r' & Hf & He & Hp & Hl).
  unfold rat_SetString. rewrite Hd. cbn [mbind option_bind]. destruct (cut_sign s) as [neg t] eqn:Ec. cbn [snd] in Hf. rewrite Hf. cbn [mbind option_bind].
  rewrite He. cbn [mbind option_bind]. case_bool_decide as Hi; cbn [negb].
  - destruct (Z.eqb_spec (mantissa d) 0) as [H0|H0].
    + exists d. split; [done|]. unfold decimal_value. rewrite H0. destruct (negative d); by rewrite Qmult_0_l.
    + destruct (Z.ltb_spec 1000000 (Z.abs (power d))) as [Hb|Hb]; [split; [done|]; right; by exists d|].
      exists d. split; [done|]. apply decimal_rat_value.
  - split; [done|]. right. exists d. split; [done|]. unfold is_i64 in Hi. lia.
Qed.
End amount_theorems.

(** ** Decoded updates are well typed *)

Section typed.
Context `{U : UnicodeTables} `{G : GoEthereum} `{AB : !Abi} `{JE : JsonErrors} `{GJ : !GethJson}.

Definition shape (delta : NonFundingLedgerDelta) : option variant :=
  match delta with
  | DepositLedgerDelta _ _ => Some V_Deposit | WithdrawLedgerDelta _ _ _ _ => Some V_Withdraw
  | InternalTransferLedgerDelta _ _ _ _ _ => Some V_InternalTransfer | SubAccountTransferLedgerDelta _ _ _ _ => Some V_SubAccountTransfer
  | LiquidationLedgerDelta _ _ _ _ => Some V_Liquidation | VaultLedgerDelta _ _ _ => Some V_Vault
  | VaultWithdrawalLedgerDelta _ _ _ _ _ _ _ _ => Some V_VaultWithdrawal | VaultLeaderCommissionLedgerDelta _ _ _ => Some V_VaultLeaderCommission
  | SpotTransferLedgerDelta _ _ _ _ _ _ _ => Some V_SpotTransfer | SendLedgerDelta _ _ _ _ _ _ _ _ _ _ _ _ => Some V_Send
  | AccountClassTransferLedgerDelta _ _ _ => Some V_AccountClassTransfer | SpotGenesisLedgerDelta _ _ _ => Some V_SpotGenesis
  | RewardsClaimLedgerDelta _ _ => Some V_RewardsClaim | UnknownLedgerDelta _ _ => None
  end.

(** The decimals of an update, and its nonce. *)
Definition decimals (delta : NonFundingLedgerDelta) : list string :=
  match delta with
  | DepositLedgerDelta _ usdc => [usdc] | WithdrawLedgerDelta _ usdc _ fee => [usdc; fee]
  | InternalTransferLedgerDelta _ usdc _ _ fee => [usdc; fee] | SubAccountTransferLedgerDelta _ usdc _ _ => [usdc]
  | LiquidationLedgerDelta _ value _ positions => value :: map lp_Szi positions | VaultLedgerDelta _ _ usdc => [usdc]
  | VaultWithdrawalLedgerDelta _ _ _ a b c d e => [a; b; c; d; e] | VaultLeaderCommissionLedgerDelta _ _ usdc => [usdc]
  | SpotTransferLedgerDelta _ _ a b _ _ fee => [a; b; fee] | SendLedgerDelta _ _ _ _ _ _ a b c d _ _ => [a; b; c; d]
  | AccountClassTransferLedgerDelta _ usdc _ => [usdc] | SpotGenesisLedgerDelta _ _ a => [a]
  | RewardsClaimLedgerDelta _ a => [a] | UnknownLedgerDelta _ _ => []
  end.
Definition nonces (delta : NonFundingLedgerDelta) : list Z :=
  match delta with WithdrawLedgerDelta _ _ n _ => [n] | SendLedgerDelta _ _ _ _ _ _ _ _ _ _ n _ => [n] | _ => [] end.

(** An exact amount; or nothing, of a field left out. *)
Definition amount_text (s : string) : Prop := exists q, ParseAmount s = Ok q.
Definition decimal_text (s : string) : Prop := s = "" \/ amount_text s.

Lemma Decimal_amount v x : Decimal_UnmarshalJSON v = Ok x -> amount_text x.
Proof. intros (y & _ & H)%result_bind_Ok. apply result_bind_Ok in H as (q & Hq & [= <-]). by exists q. Qed.

Lemma f_decimal_text name raw x : f_decimal name raw = Ok x -> decimal_text x.
Proof.
  intros H%field_last. destruct raw as [| | | | |fields]; try (destruct H as [_ ->]; by left).
  destruct (last (matches name fields)); [right; by eapply Decimal_amount|by left].
Qed.

Lemma matches_lookup name v fields : foldl (fun (m : gmap string json) kv => <[fst kv := snd kv]> m) ∅ fields !! name = Some v -> matches name fields <> [].
Proof.
  induction fields as [|[k w] fields IH] using rev_ind; [done|]. rewrite foldl_app. cbn [foldl fst snd].
  unfold matches in *. rewrite List.filter_app, map_app. intros H E. apply app_eq_nil in E as [E1 E2].
  rewrite lookup_insert_Some in H. destruct H as [[-> _]|[_ H]]; [|by apply IH].
  cbn [List.filter fst] in E2. by rewrite String.eqb_refl in E2.
Qed.

Lemma f_decimal_present data l name x : requireNonNullJSONObjectFields data l = Ok tt -> name ∈ l -> f_decimal name data = Ok x -> amount_text x.
Proof.
  unfold requireNonNullJSONObjectFields, require_fields. destruct (as_object data) as [object|] eqn:Eo; [|done].
  intros Hf Hin H%field_last. assert (Hreq : require_in true object name = None).
  { revert Hf. clear -Hin. induction l as [|y l IH]; [by apply elem_of_nil in Hin|]. cbn [first_error].
    destruct (require_in true object y) eqn:E; [done|]. apply elem_of_cons in Hin as [->|Hin]; [done|by apply IH]. }
  unfold require_in in Hreq. destruct (object !! name) as [v|] eqn:Ev; [|done].
  destruct data as [| | | | |fields]; try done; [by injection Eo as <-|]. injection Eo as <-.
  apply matches_lookup in Ev. destruct (matches name fields) as [|w ws] eqn:Em using rev_ind; [done|]. rewrite last_snoc in H. by eapply Decimal_amount.
Qed.

Lemma f_uint64_range name raw n : f_uint64 name raw = Ok n -> 0 <= n < 2 ^ 64.
Proof.
  unfold f_uint64, field. destruct raw as [| | | | |fields]; try done; [by intros [= <-]|].
  assert (Hstep : forall old v m, 0 <= old < 2 ^ 64 -> d_uint64 old v = Ok m -> 0 <= m < 2 ^ 64).
  { intros old v m Hold. destruct v as [| |text| | |]; try done; [by intros [= <-]|]. cbn [d_uint64 d_uint].
    unfold d_uint64, d_uint. destruct (negb (String.eqb text "") && all_digits text && _) eqn:E; [|done]. intros [= <-].
    apply andb_true_iff in E as [E H]. apply andb_true_iff in E as [_ E]. pose proof (digits_value_bounds text E). lia. }
  assert (H0 : forall (r0 : result GoError Z), (forall m, r0 = Ok m -> 0 <= m < 2 ^ 64) -> forall l,
    foldl (fun r v => let? old := r in d_uint64 old v) r0 l = Ok n -> 0 <= n < 2 ^ 64).
  { intros r0 H l. revert r0 H. induction l as [|v l IH]; intros r0 H; cbn [foldl]; [apply H|]. apply IH.
    intros m (old & Ho & Hm)%result_bind_Ok. eapply Hstep; [by apply H|done]. }
  apply H0. intros m [= <-]. lia.
Qed.

Lemma positions_text raw l : field (d_slice decode_position) None "liquidatedPositions" raw = Ok l ->
  Forall decimal_text (map lp_Szi (default [] l)).
Proof.
  intros H%(field_last (fun v => d_slice decode_position None v)). destruct raw as [| | | | |fields]; try (destruct H as [_ ->]; constructor).
  destruct (last (matches _ fields)) as [v|]; [|subst; constructor]. destruct v as [| | | |elements|]; try done; [injection H as <-; constructor|].
  cbn [d_slice] in H. apply result_bind_Ok in H as (xs & Hx%each_Forall2 & [= <-]). cbn [default]. clear -Hx.
  induction Hx as [|v x vs xs H _ IH]; [constructor|]. constructor; [|done].
  apply result_bind_Ok in H as (coin & _ & H). apply result_bind_Ok in H as (szi & Hs & [= <-]). by eapply f_decimal_text.
Qed.

Ltac open_binds := repeat match goal with
  | H : result_bind _ _ = Ok _ |- _ => apply result_bind_Ok in H as (? & ? & H)
  | H : Ok _ = Ok _ |- _ => injection H as <-
  end.

Ltac all_elements := repeat first [apply Forall_nil_2 | apply Forall_cons_2].

(** What decoding a variant gives: its own shape and discriminator, with typed
    fields. *)
Lemma decode_variant_typed v raw delta : decode_variant v raw = Ok delta ->
  f_string "type" raw = Ok (LedgerDeltaKind (Some delta)) /\ shape delta = Some v /\
  Forall decimal_text (decimals delta) /\ Forall (fun n => 0 <= n < 2 ^ 64) (nonces delta).
Proof.
  unfold decode_variant. intros H. apply result_bind_Ok in H as (t & Ht & H).
  destruct v; open_binds; cbn [LedgerDeltaKind shape decimals nonces]; (split; [exact Ht|split; [done|]]);
    split; all_elements; first [by eapply f_uint64_range | by eapply f_decimal_text | by eapply positions_text].
Qed.

Lemma decode_variant_present v raw delta : decode_variant v raw = Ok delta -> requireNonNullJSONObjectFields raw (required v) = Ok tt ->
  required v <> [] -> Forall amount_text (decimals delta).
Proof.
  unfold decode_variant. intros H Hr Hne. apply result_bind_Ok in H as (t & Ht & H). destruct v; try done; open_binds; cbn [decimals];
    all_elements; (eapply f_decimal_present; [exact Hr| |eassumption]); cbn; set_solver.
Qed.

(** C36: A ledger update is decoded as the variant its discriminator names, or kept
    as it came when it names none; the variant carries that discriminator; every
    amount in it is an exact decimal or was left out, and none may be left out of
    a send or a class transfer; nonces are 64-bit. *)
Theorem DecodeLedgerDelta_typed data :
  match DecodeLedgerDelta data with
  | Ok delta =>
      let kind := LedgerDeltaKind (Some delta) in
      kind <> "" /\ f_string "type" data = Ok kind /\ shape delta = variant_of kind /\
      (variant_of kind = None -> delta = UnknownLedgerDelta kind data) /\
      Forall decimal_text (decimals delta) /\ Forall (fun n => 0 <= n < 2 ^ 64) (nonces delta) /\
      (shape delta = Some V_Send \/ shape delta = Some V_AccountClassTransfer -> Forall amount_text (decimals delta))
  | Err _ => True
  end.
Proof.
  unfold DecodeLedgerDelta. destruct (f_string "type" data) as [type|] eqn:Et; [|done].
  destruct (String.eqb_spec type "") as [|Hne]; [done|]. destruct (variant_of type) as [v|] eqn:Ev.
  2: { cbv zeta. cbn [LedgerDeltaKind shape decimals nonces]. rewrite Ev. do 4 (split; [done|]). split; [constructor|]. split; [constructor|]. by intros [?|?]. }
  destruct (match required v with [] => Ok tt | _ :: _ => _ end) as [[]|] eqn:Er; [|done]. cbn [result_bind].
  destruct (decode_variant v data) as [delta|] eqn:Ed; [|done]. pose proof Ed as (Hk & Hs & Hd & Hn)%decode_variant_typed.
  cbv zeta. assert (Hkind : LedgerDeltaKind (Some delta) = type) by congruence. rewrite Hkind, Ev. split; [done|]. split; [done|]. split; [done|]. split; [done|]. split; [done|]. split; [done|].
  rewrite Hs. intros H. eapply decode_variant_present; [exact Ed| |by destruct H as [[= ->]|[= ->]]].
  by destruct H as [[= ->]|[= ->]].
Qed.
End typed.

(** ** The reads of the info client (info.go, types.go) *)

Section info.
Context `{U : UnicodeTables} `{G : GoEthereum} `{AB : !Abi} `{JE : JsonErrors} `{GJ : !GethJson} `{JT : JsonText}.

Record MarginSummary := mkMarginSummary { ms_AccountValue : string; ms_TotalNtlPos : string; ms_TotalRawUsd : string; ms_TotalMarginUsed : string }.
Record HyperPosition := mkHyperPosition {
  hp_Coin : string; hp_Szi : string; hp_EntryPx : option string; hp_PositionValue : string; hp_UnrealizedPnl : string; hp_MarginUsed : string;
  hp_LiquidationPx : option string }.
Record AssetPosition := mkAssetPosition { ap_Type : string; ap_Position : HyperPosition }.
Record PerpState := mkPerpState {
  ps_MarginSummary : MarginSummary; ps_CrossMarginSummary : MarginSummary; ps_CrossMaintenanceMarginUsed : string; ps_Withdrawable : string;
  ps_AssetPositions : list AssetPosition; ps_Time : Z }.
Record SpotStateBalance := mkStateBalance { sb_Coin : string; sb_Token : Z; sb_Hold : string; sb_Total : string; sb_EntryNtl : string }.
Record ExtraAgent := mkExtraAgent { ea_Address : Address; ea_Name : string; ea_ValidUntil : Z }.
Record RawExtraAgent := mkRawExtraAgent { ra_Address : string; ra_Name : string; ra_ValidUntil : Z }.
Record PerpMarket := mkPerpMarket { pm_Name : string; pm_SizeDecimals : Z; pm_Delisted : bool; pm_MaxLeverage : Z; pm_OnlyIsolated : bool }.
Record UserRateLimit := mkUserRateLimit { ur_Cap : option Z; ur_Used : option Z; ur_CumVlm : string }.
Record OrderStatusOrder := mkStatusOrder { oo_OrderID : Z; oo_Cloid : string }.
Record OrderStatusEntry := mkStatusEntry { oe_Order : OrderStatusOrder; oe_Status : string; oe_StatusTimestamp : Z }.
Record OrderStatusResponse := mkStatusResponse { os_Status : string; os_Order : option OrderStatusEntry; os_Raw : json }.
Record SpotToken := mkSpotToken { stk_Name : string; stk_Index : Z; stk_SzDecimals : Z; stk_WeiDecimals : Z; stk_EvmContract : option (string * Z) }.
Record SpotPair := mkSpotPair { sp_Name : string; sp_Tokens : list Z; sp_Index : Z; sp_IsCanonical : bool }.
Record SpotMeta := mkSpotMeta { sm_Tokens : list SpotToken; sm_Universe : list SpotPair }.
Record SpotAssetCtx := mkSpotAssetCtx { sc_DayNtlVlm : string; sc_MarkPx : option string; sc_MidPx : option string; sc_PrevDayPx : option string }.
(** [Raw] is nil in a value that was never decoded. *)
Record LedgerDelta := mkLedgerDelta {
  ld_Type : string; ld_Usdc : string; ld_UsdcValue : string; ld_Fee : string; ld_User : string; ld_Destination : string; ld_Token : string;
  ld_Amount : string; ld_Vault : string; ld_Raw : option json }.
Record LedgerUpdate := mkLedgerUpdate { lu_Delta : LedgerDelta; lu_Time : Z; lu_Hash : string; lu_Raw : json }.

Definition f_text_pointer (name : string) (raw : json) : result GoError (option string) := field (d_pointer d_string "") None name raw.
Definition f_wire (name : string) (raw : json) : result GoError string := field (d_custom decimalWireText_UnmarshalJSON) "" name raw.
Definition f_int32 (name : string) (raw : json) : result GoError Z := field (d_int 32 "int32") 0 name raw.

Definition decode_margin_summary (raw : json) : result GoError MarginSummary :=
  let? value := f_string "accountValue" raw in
  let? ntl := f_string "totalNtlPos" raw in
  let? usd := f_string "totalRawUsd" raw in
  let? used := f_string "totalMarginUsed" raw in
  Ok (mkMarginSummary value ntl usd used).

Definition decode_hyper_position (raw : json) : result GoError HyperPosition :=
  let? coin := f_string "coin" raw in
  let? szi := f_string "szi" raw in
  let? entryPx := f_text_pointer "entryPx" raw in
  let? value := f_string "positionValue" raw in
  let? pnl := f_string "unrealizedPnl" raw in
  let? used := f_string "marginUsed" raw in
  let? liquidationPx := f_text_pointer "liquidationPx" raw in
  Ok (mkHyperPosition coin szi entryPx value pnl used liquidationPx).

Definition decode_asset_position (raw : json) : result GoError AssetPosition :=
  let? type := f_string "type" raw in
  let? position := f_struct decode_hyper_position "position" raw in
  Ok (mkAssetPosition type position).

Definition decode_perp_state (raw : json) : result GoError PerpState :=
  let? summary := f_struct decode_margin_summary "marginSummary" raw in
  let? cross := f_struct decode_margin_summary "crossMarginSummary" raw in
  let? maintenance := f_string "crossMaintenanceMarginUsed" raw in
  let? withdrawable := f_string "withdrawable" raw in
  let? positions := f_list decode_asset_position "assetPositions" raw in
  let? time := f_int64 "time" raw in
  Ok (mkPerpState summary cross maintenance withdrawable positions time).

Definition decode_state_balance (raw : json) : result GoError SpotStateBalance :=
  let? coin := f_string "coin" raw in
  let? token := f_int64 "token" raw in
  let? hold := f_string "hold" raw in
  let? total := f_string "total" raw in
  let? entryNtl := f_string "entryNtl" raw in
  Ok (mkStateBalance coin token hold total entryNtl).

Definition decode_extra_agent (raw : json) : result GoError ExtraAgent :=
  let? address := f_address "address" raw in
  let? name := f_string "name" raw in
  let? validUntil := f_int64 "validUntil" raw in
  Ok (mkExtraAgent address name validUntil).
Definition decode_raw_agent (raw : json) : result GoError RawExtraAgent :=
  let? address := f_string "address" raw in
  let? name := f_string "name" raw in
  let? validUntil := f_int64 "validUntil" raw in
  Ok (mkRawExtraAgent address name validUntil).

Definition decode_perp_market (raw : json) : result GoError PerpMarket :=
  let? name := f_string "name" raw in
  let? decimals := f_int "szDecimals" raw in
  let? delisted := f_bool "isDelisted" raw in
  let? leverage := f_int "maxLeverage" raw in
  let? isolated := f_bool "onlyIsolated" raw in
  Ok (mkPerpMarket name decimals delisted leverage isolated).

(** A missing counter is not zero. *)
Definition UserRateLimit_UnmarshalJSON (data : json) : result GoError UserRateLimit :=
  let? cap := field (d_pointer d_int64 0) None "nRequestsCap" data in
  let? used := field (d_pointer d_int64 0) None "nRequestsUsed" data in
  let? cumVlm := f_wire "cumVlm" data in
  Ok (mkUserRateLimit cap used cumVlm).

Definition decode_status_order (raw : json) : result GoError OrderStatusOrder :=
  let? oid := f_uint64 "oid" raw in
  let? cloid := f_string "cloid" raw in
  Ok (mkStatusOrder oid cloid).
Definition decode_status_entry (raw : json) : result GoError OrderStatusEntry :=
  let? order := f_struct decode_status_order "order" raw in
  let? status := f_string "status" raw in
  let? timestamp := f_int64 "statusTimestamp" raw in
  Ok (mkStatusEntry order status timestamp).
Definition OrderStatusResponse_UnmarshalJSON (data : json) : result GoError OrderStatusResponse :=
  let? status := f_string "status" data in
  let? order := field (d_object decode_status_entry) None "order" data in
  Ok (mkStatusResponse status order data).

Definition decode_evm_contract (raw : json) : result GoError (string * Z) :=
  let? address := f_string "address" raw in
  let? extra := f_int32 "evm_extra_wei_decimals" raw in
  Ok (address, extra).
Definition decode_spot_token (raw : json) : result GoError SpotToken :=
  let? name := f_string "name" raw in
  let? index := f_int64 "index" raw in
  let? szDecimals := f_int32 "szDecimals" raw in
  let? weiDecimals := f_int32 "weiDecimals" raw in
  let? contract := field (d_object decode_evm_contract) None "evmContract" raw in
  Ok (mkSpotToken name index szDecimals weiDecimals contract).
Definition decode_spot_pair (raw : json) : result GoError SpotPair :=
  let? name := f_string "name" raw in
  let? tokens := f_list (d_int64 0) "tokens" raw in
  let? index := f_int64 "index" raw in
  let? canonical := f_bool "isCanonical" raw in
  Ok (mkSpotPair name tokens index canonical).
Definition decode_spot_meta (raw : json) : result GoError SpotMeta :=
  let? tokens := f_list decode_spot_token "tokens" raw in
  let? universe := f_list decode_spot_pair "universe" raw in
  Ok (mkSpotMeta tokens universe).
Definition decode_asset_ctx (raw : json) : result GoError SpotAssetCtx :=
  let? volume := f_string "dayNtlVlm" raw in
  let? mark := f_text_pointer "markPx" raw in
  let? mid := f_text_pointer "midPx" raw in
  let? prev := f_text_pointer "prevDayPx" raw in
  Ok (mkSpotAssetCtx volume mark mid prev).

Definition LedgerDelta_UnmarshalJSON (data : json) : result GoError LedgerDelta :=
  let? type := f_string "type" data in
  let? usdc := f_wire "usdc" data in
  let? usdcValue := f_wire "usdcValue" data in
  let? fee := f_wire "fee" data in
  let? user := f_string "user" data in
  let? destination := f_string "destination" data in
  let? token := f_string "token" data in
  let? amount := f_wire "amount" data in
  let? vault := f_string "vault" data in
  Ok (mkLedgerDelta type usdc usdcValue fee user destination token amount vault (Some data)).
Definition LedgerUpdate_UnmarshalJSON (data : json) : result GoError LedgerUpdate :=
  let? delta := field (d_custom LedgerDelta_UnmarshalJSON) (mkLedgerDelta "" "" "" "" "" "" "" "" "" None) "delta" data in
  let? time := f_int64 "time" data in
  let? hash := f_string "hash" data in
  Ok (mkLedgerUpdate delta time hash data).

(** *** Queries *)

Variable c : option Client.
Variable env : attempt_env.     (* its encoding is of the payload, below *)

Definition with_Marshal (body : result GoError string) : attempt_env :=
  mkEnv body (a_NewRequest env) (a_CtxBefore env) (a_BeforeDispatch env) (a_Do env) (a_CtxAfter env).

(** The attempt of a payload, which [json.Marshal] writes unless it cannot, and its answer. *)
Definition info_query {A} (what : string) (payload : result GoError json) (decode : json -> result GoError A) : result GoError A :=
  let body := let? v := payload in Ok (json_Marshal v) in
  match (InfoPost (fun raw => let? v := json_parse raw in decode v) c (with_Marshal body)).2 with
  | Err e => Err (Errorf_w ("hyperliquid: " +:+ what +:+ ": ") (post_error e) "")
  | Ok x => Ok x
  end.

(** [strings.ToLower(user.Hex())] *)
Definition user_text (user : Address) : string := ToLower (Address_Hex user).
Definition user_payload (kind : string) (user : Address) : json := JObject [("type", JString kind); ("user", JString (user_text user))].
Definition userRequest {A} (kind : string) (user : Address) (decode : json -> result GoError A) : result GoError A :=
  info_query kind (Ok (user_payload kind user)) decode.

Definition ClearinghouseState (user : Address) : result GoError PerpState := userRequest "clearinghouseState" user decode_perp_state.
Definition SpotClearinghouseState (user : Address) : result GoError (list SpotStateBalance) :=
  userRequest "spotClearinghouseState" user (f_list decode_state_balance "balances").
Definition ExtraAgents (user : Address) : result GoError (list ExtraAgent) := userRequest "extraAgents" user (d_list decode_extra_agent []).
Definition RawExtraAgents (user : Address) : result GoError (list RawExtraAgent) := userRequest "extraAgents" user (d_list decode_raw_agent []).
Definition PerpMeta : result GoError (list PerpMarket) :=
  info_query "meta" (Ok (JObject [("type", JString "meta")])) (f_list decode_perp_market "universe").
Definition UserRateLimit_ (user : Address) : result GoError UserRateLimit := userRequest "userRateLimit" user UserRateLimit_UnmarshalJSON.

(** The order id is any value: its JSON, or why it has none. *)
Definition OrderStatus (user : Address) (oid : result GoError json) : result GoError OrderStatusResponse :=
  info_query "orderStatus"
    (let? oid := oid in Ok (JObject [("oid", oid); ("type", JString "orderStatus"); ("user", JString (user_text user))]))
    OrderStatusResponse_UnmarshalJSON.

Definition ledger_payload (user : Address) (startTime : Z) (endTime : option Z) : json :=
  JObject ([("type", JString "userNonFundingLedgerUpdates"); ("user", JString (user_text user)); ("startTime", JNumber (pretty startTime))] ++
           match endTime with Some t => [("endTime", JNumber (pretty t))] | None => [] end).
Definition NonFundingLedgerUpdatesPage (user : Address) (startTime : Z) (endTime : option Z) : result GoError (list LedgerUpdate) :=
  info_query "userNonFundingLedgerUpdates" (Ok (ledger_payload user startTime endTime)) (d_list LedgerUpdate_UnmarshalJSON []).
Definition NonFundingLedgerUpdates (user : Address) (startTime : Z) : result GoError (list LedgerUpdate) :=
  NonFundingLedgerUpdatesPage user startTime None.

Definition DecodeSpotMetaAndAssetCtxs (raw : list json) : result GoError (SpotMeta * list SpotAssetCtx) :=
  match raw with
  | [meta; contexts] =>
      match decode_spot_meta meta with
      | Err e => Err (Errorf_w "hyperliquid: decoding spot meta: " e "")
      | Ok meta =>
          match d_list decode_asset_ctx [] contexts with
          | Err e => Err (Errorf_w "hyperliquid: decoding spot asset contexts: " e "")
          | Ok contexts => Ok (meta, contexts)
          end
      end
  | _ => Err (errors_New ("hyperliquid: spotMetaAndAssetCtxs returned " +:+ pretty (Z.of_nat (length raw)) +:+ " elements, want 2"))
  end.
Definition SpotMetaAndAssetCtxs : result GoError (SpotMeta * list SpotAssetCtx) :=
  let? raw := info_query "spotMetaAndAssetCtxs" (Ok (JObject [("type", JString "spotMetaAndAssetCtxs")])) (d_list (fun v => Ok v) []) in
  DecodeSpotMetaAndAssetCtxs raw.

(** What a query returns is all of the body of a 2xx answer no longer than the
    client's limit, decoded; an answer of 429 is the rate limit's sentinel. *)
Lemma info_query_spec {A} what payload (decode : json -> result GoError A) :
  match info_query what payload decode with
  | Ok x => exists client resp v, c = Some client /\ a_Do env = Ok resp /\ success (hr_Status resp) = true /\
      json_parse (hr_Body resp) = Ok v /\ decode v = Ok x /\ (0 <= responseLimit client -> Z.of_nat (slen (hr_Body resp)) <= responseLimit client)
  | Err e => forall client resp v, c = Some client -> payload = Ok v -> a_NewRequest env = None -> a_Do env = Ok resp -> hr_Status resp = 429 ->
      e = Errorf_w ("hyperliquid: " +:+ what +:+ ": ") ErrRateLimited_v ""
  end.
Proof.
  unfold info_query, InfoPost, with_Marshal. cbn [a_Marshal a_NewRequest a_Do]. destruct payload as [v0|e0]; cbn [result_bind]; [|by intros].
  destruct c as [client|]; [|by intros]. destruct (a_NewRequest env); [by intros|]. destruct (a_Do env) as [resp|e]; [|by intros].
  cbv zeta. unfold StatusTooManyRequests. destruct (Z.eqb_spec (hr_Status resp) 429) as [Hs|Hs].
  { cbn. by intros. }
  destruct (success (hr_Status resp)) eqn:Hok; cbn [negb]; [|cbn; by intros ? ? ? _ _ _ [= <-]].
  destruct (ReadAll _ resp) as [raw|e] eqn:Hr; [|cbn; by intros ? ? ? _ _ _ [= <-]].
  destruct (Z.ltb_spec (responseLimit client) (Z.of_nat (slen raw))) as [Hl|Hl]; [cbn; by intros ? ? ? _ _ _ [= <-]|].
  destruct (json_parse raw) as [v|e] eqn:Hv; [|cbn; by intros ? ? ? _ _ _ [= <-]]. cbn [result_bind].
  destruct (decode v) as [x|e] eqn:Hd; [|cbn; by intros ? ? ? _ _ _ [= <-]]. cbn [snd].
  assert (Hraw : raw = hr_Body resp).
  { destruct (decide (0 <= responseLimit client)) as [Hn|Hn]; [apply ReadAll_limit in Hr as [(_ & -> & _)|[? _]]; [done|lia|done]|].
    exfalso. lia. }
  subst raw. exists client, resp, v. split_and!; try done.
Qed.

End info.
