(* ===== verification/Frankfurter.v ===== *)
(** * The exchange-rate client (providers/frankfurter)

    A cache of daily rates shared by concurrent [GetRate] calls.  Every call is a
    goroutine with a program counter; a step is one critical section under
    [cacheMu], one use of the fetch gate, or one request.  What a step is told
    from outside (the clock, the context, the order of map iterations, the
    answer to a request) is its [answer]; between two steps of a call any other
    call may step. *)
From Stdlib Require Import Ascii SpecFloat.
From S2P Require Export Json Exchange Numbers Calendar Decimal Query Filter.
Local Open Scope Z_scope.
Local Open Scope go_scope.

Definition defaultBaseURL : string := "https://api.frankfurter.dev".
Definition ratesPath : string := "/v2/rates".
Definition defaultMaxStaleness : Z := 72 * 3600 * nanosPerSecond.
Definition defaultFailureTTL : Z := 300 * nanosPerSecond.
Definition defaultMaxCachedDays : nat := 450.
#[global] Arguments defaultMaxCachedDays : simpl never.
Definition maxResponseBody : Z := Z.shiftl 4 20.
Definition maxErrorResponse : Z := Z.shiftl 1 10.

Record RateRequest := { Base : string; Quote : string; EffectiveAt : Z }.
Record Rate := mkRate { r_Date : Z; r_Base : string; r_Quote : string; r_Value : float64; r_Stale : bool }.

(** [Rate{}] *)
Definition zeroRate : Rate := mkRate zeroTime "" "" float_zero false.
Definition set_Stale (r : Rate) : Rate := mkRate (r_Date r) (r_Base r) (r_Quote r) (r_Value r) true.

(** The fields options set, and those that change. *)
Record config := mkConfig { baseURL : string; quotes : list string; maxStaleness : Z; failureTTL : Z; maxCacheDays : nat }.
Record cache := mkCache {
  ratesByDate : gmap string (gmap string Rate);
  cacheStoredAt : gmap string Z;
  cacheSequence : Z;
  failuresByMonth : gmap string (GoError * Z);      (* the error, and retryAfter *)
}.
Definition empty_cache : cache := mkCache ∅ ∅ 0 ∅.

(** The answer to one request. *)
Record reply := mkReply {
  a_Limiter : option GoError;
  a_NewRequest : option GoError;
  a_Do : result GoError HttpResponse;
}.

Section frankfurter.
Context `{U : UnicodeTables} `{JE : JsonErrors} `{JT : JsonText}.

Definition normalizeCurrency (value : string) : string := ToUpper (TrimSpace value).

(** ** Options *)

Definition Option : Type := config -> config.
Definition WithQuotes (l : list string) : Option := fun c =>
  let normalized := Filter (fun q => negb (String.eqb q "")) (normalizeCurrency <$> l) in
  mkConfig (baseURL c) (Unique normalized) (maxStaleness c) (failureTTL c) (maxCacheDays c).
Definition WithMaxStaleness (d : Z) : Option := fun c => mkConfig (baseURL c) (quotes c) d (failureTTL c) (maxCacheDays c).
Definition WithFailureTTL (ttl : Z) : Option := fun c => mkConfig (baseURL c) (quotes c) (maxStaleness c) ttl (maxCacheDays c).
Definition WithBaseURL (url : string) : Option := fun c =>
  let url := trim_right (Ascii.eqb "/"%char) (TrimSpace url) in
  if String.eqb url "" then c else mkConfig url (quotes c) (maxStaleness c) (failureTTL c) (maxCacheDays c).

(** A nil option is [None]. *)
Definition New (opts : list (option Option)) : config :=
  let c := foldl (fun c opt => match opt with Some opt => opt c | None => c end)
    (mkConfig defaultBaseURL [] defaultMaxStaleness defaultFailureTTL defaultMaxCachedDays) opts in
  mkConfig (baseURL c) (quotes c) (Z.max (maxStaleness c) 0) (Z.max (failureTTL c) 0) (maxCacheDays c).

(** ** Dates and keys *)

Definition dateUTC (value : Z) : Z := date_of_civil (civil_of value).

Definition effective_date (now effectiveAt : Z) : Z :=
  let today := dateUTC now in
  if IsZero effectiveAt then today
  else let effectiveDate := dateUTC effectiveAt in if today <? effectiveDate then today else effectiveDate.

Definition cacheDateKey (base : string) (date : Z) : string := base +:+ "|" +:+ FormatDate date.
Definition cacheMonthKey (base : string) (date : Z) : string := base +:+ "|" +:+ FormatMonth date.

Definition parseCacheDateKey (key : string) : option (string * Z) :=
  let '(base, dateValue, found) := Cut key "|" in
  if negb found then None else date ← ParseDate dateValue; Some (base, date).

Definition positiveFinite (value : float64) : bool := SFltb float_zero value && negb (IsNaN value) && negb (IsInf value).

(** The first day of the month, and the day before the next month's. *)
Definition month_start (date : Z) : Z := let c := civil_of date in date_of_civil (mkCivil (Year c) (Month c) 1).
Definition month_end (date : Z) : Z :=
  let c := civil_of date in
  let next := if Month c =? 12 then mkCivil (Year c + 1) 1 1 else mkCivil (Year c) (Month c + 1) 1 in
  midnight (days_of_civil next - 1).

(** ** Decoding a response *)

Record rateRow := mkRow { row_Date : string; row_Base : string; row_Quote : string; row_Rate : float64 }.

Definition decode_row (raw : json) : result GoError rateRow :=
  let? date := field d_string "" "date" raw in
  let? base := field d_string "" "base" raw in
  let? quote := field d_string "" "quote" raw in
  let? rate := field d_float64 float_zero "rate" raw in
  Ok (mkRow date base quote rate).

(** One row of the loop: the rates so far and the pairs seen. *)
Definition decode_step (expectedBase : string) (from to : Z) (acc : gmap string (gmap string Rate) * gset string) (raw : json) :
    gmap string (gmap string Rate) * gset string :=
  let '(rates, seen) := acc in
  match decode_row raw with
  | Err _ => acc
  | Ok row =>
      match ParseDate (TrimSpace (row_Date row)) with
      | None => acc
      | Some rowDate =>
          if (rowDate <? from) || (to <? rowDate) then acc
          else
            let base := normalizeCurrency (row_Base row) in
            if negb (String.eqb base expectedBase) then acc
            else
              let quote := normalizeCurrency (row_Quote row) in
              if String.eqb quote "" then acc
              else
                let dateKey := cacheDateKey base rowDate in
                let pairKey := dateKey +:+ "|" +:+ quote in
                if bool_decide (pairKey ∈ seen) then (alter (delete quote) dateKey rates, seen)
                else
                  let seen := {[pairKey]} ∪ seen in
                  if negb (positiveFinite (row_Rate row)) then (rates, seen)
                  else (<[dateKey := <[quote := mkRate rowDate base quote (row_Rate row) false]> (default ∅ (rates !! dateKey))]> rates, seen)
      end
  end.

Definition decodeRates (body : string) (expectedBase : string) (from to : Z) : result GoError (gmap string (gmap string Rate)) :=
  match json_parse body with
  | Err e => Err (Errorf_w "decode response: " e "")
  | Ok data =>
      match d_slice (fun raw => Ok raw) None data with
      | Err e => Err (Errorf_w "decode response: " e "")
      | Ok None | Ok (Some []) => Err (errors_New "response contains no rates")
      | Ok (Some rows) => Ok (fst (foldl (decode_step expectedBase from to) (∅, ∅) rows))
      end
  end.

(** ** The request *)

Definition month_query (c : config) (base : string) (now effectiveDate : Z) : Values :=
  let today := dateUTC now in
  let monthEnd := if today <? month_end effectiveDate then today else month_end effectiveDate in
  let query := values_Set "base" base ∅ in
  let query := values_Set "from" (FormatDate (month_start effectiveDate)) query in
  let query := values_Set "to" (FormatDate monthEnd) query in
  match quotes c with [] => query | l => values_Set "quotes" (strings_Join "," l) query end.

Definition http_error (status : Z) (body : string) : GoError :=
  errors_New (if String.eqb body "" then "frankfurter status " +:+ pretty status
              else "frankfurter status " +:+ pretty status +:+ ": " +:+ body).

Definition getBody (r : reply) : result GoError string :=
  match a_Limiter r with
  | Some e => Err (Errorf_w "rate limit wait: " e "")
  | None =>
      match a_NewRequest r with
      | Some e => Err (Errorf_w "build request: " e "")
      | None =>
          match a_Do r with
          | Err e => Err (Errorf_w "request failed: " e "")
          | Ok resp =>
              if negb (success (hr_Status resp)) then
                let raw := stake (Z.to_nat maxErrorResponse) (hr_Body resp) in
                Err (http_error (hr_Status resp) (TrimSpace raw))
              else
                match ReadAll (maxResponseBody + 1) resp with
                | Err e => Err (Errorf_w "read response: " e "")
                | Ok body =>
                    if maxResponseBody <? Z.of_nat (slen body)
                    then Err (errors_New ("response exceeds " +:+ pretty maxResponseBody +:+ " bytes"))
                    else Ok body
                end
          end
      end
  end.

(** [fetchMonth] up to the rates it stores. *)
Definition fetch_rates (c : config) (base : string) (effectiveDate now : Z) (get : string -> reply) :
    result GoError (gmap string (gmap string Rate)) :=
  let monthStart := month_start effectiveDate in
  let today := dateUTC now in
  let monthEnd := if today <? month_end effectiveDate then today else month_end effectiveDate in
  let? body := getBody (get (baseURL c +:+ ratesPath +:+ "?" +:+ Encode (month_query c base now effectiveDate))) in
  decodeRates body base (monthStart - maxStaleness c) monthEnd.

(** ** Operations under [cacheMu] *)

Definition cachedRate (s : cache) (base : string) (effectiveDate : Z) (quote : string) : option Rate :=
  rates ← ratesByDate s !! cacheDateKey base effectiveDate; rates !! quote.

(** One key of the loop: [selected] is the zero rate until one is found. *)
Definition stale_step (c : config) (base : string) (effectiveDate : Z) (quote : string) (selected : Rate)
    (entry : string * gmap string Rate) : Rate :=
  match parseCacheDateKey entry.1 with
  | None => selected
  | Some (keyBase, _) =>
      if negb (String.eqb keyBase base) then selected
      else
        match entry.2 !! quote with
        | None => selected
        | Some candidate =>
            if negb (r_Date candidate <? effectiveDate) || (maxStaleness c <? Sub effectiveDate (r_Date candidate)) then selected
            else if IsZero (r_Date selected) || (r_Date selected <? r_Date candidate) then candidate else selected
        end
  end.

Definition cachedStaleRate (c : config) (o : map_order) (s : cache) (base : string) (effectiveDate : Z) (quote : string) : option Rate :=
  if maxStaleness c <=? 0 then None
  else
    let selected := foldl (stale_step c base effectiveDate quote) zeroRate (walk o (ratesByDate s)) in
    if IsZero (r_Date selected) then None else Some (set_Stale selected).

Definition set_failures (f : gmap string (GoError * Z)) (s : cache) : cache :=
  mkCache (ratesByDate s) (cacheStoredAt s) (cacheSequence s) f.

Definition cachedFailure (c : config) (now : Z) (base : string) (effectiveDate : Z) (s : cache) : option GoError * cache :=
  if failureTTL c <=? 0 then (None, s)
  else
    let key := cacheMonthKey base effectiveDate in
    match failuresByMonth s !! key with
    | None => (None, s)
    | Some (err, retryAfter) =>
        if negb (now <? retryAfter) then (None, set_failures (delete key (failuresByMonth s)) s) else (Some err, s)
    end.

Definition storeFailure (c : config) (now : Z) (base : string) (effectiveDate : Z) (err : GoError) (s : cache) : cache :=
  if failureTTL c <=? 0 then s
  else
    let kept := filter (fun kv => now <? snd (snd kv) = true) (failuresByMonth s) in
    set_failures (<[cacheMonthKey base effectiveDate := (err, now + failureTTL c)]> kept) s.

Definition clearFailure (base : string) (effectiveDate : Z) (s : cache) : cache :=
  set_failures (delete (cacheMonthKey base effectiveDate) (failuresByMonth s)) s.

Definition store_day (s : cache) (entry : string * gmap string Rate) : cache :=
  let cachedRates := default ∅ (ratesByDate s !! entry.1) in
  let sequence := wrap_u64 (cacheSequence s + 1) in
  mkCache (<[entry.1 := entry.2 ∪ cachedRates]> (ratesByDate s)) (<[entry.1 := sequence]> (cacheStoredAt s)) sequence (failuresByMonth s).

(** The key with the least sequence, in the order the map is walked. *)
Definition oldest_step (oldest : string * Z) (entry : string * Z) : string * Z :=
  if String.eqb oldest.1 "" || (entry.2 <? oldest.2) then entry else oldest.
Definition oldest_key (o : map_order) (s : cache) : string := fst (foldl oldest_step ("", 0) (walk o (cacheStoredAt s))).

(** [for len(c.ratesByDate) > c.maxCacheDays]: fuel for the loop. *)
Fixpoint evict (c : config) (o : map_order) (fuel : nat) (s : cache) : cache :=
  match fuel with
  | O => s
  | S fuel =>
      if (maxCacheDays c <? size (ratesByDate s))%nat then
        let key := oldest_key o s in
        evict c o fuel (mkCache (delete key (ratesByDate s)) (delete key (cacheStoredAt s)) (cacheSequence s) (failuresByMonth s))
      else s
  end.

Definition storeRates (c : config) (o : map_order) (rates : gmap string (gmap string Rate)) (s : cache) : cache :=
  let s := foldl store_day s (walk o rates) in evict c o (size (ratesByDate s)) s.

Definition storeFallback (c : config) (o : map_order) (base : string) (effectiveDate : Z) (rate : Rate) (s : cache) : cache :=
  storeRates c o {[cacheDateKey base effectiveDate := {[r_Quote rate := set_Stale rate]}]} s.

(** ** [GetRate] *)

(** A normalized request. *)
Record query := mkQuery { q_base : string; q_quote : string; q_date : Z }.

(** What a step is told: the clock, the context's error, whether a [select] takes
    the [ctx.Done] case, how maps are walked, and the answer to a request. *)
Record answer := mkAnswer {
  a_now : Z; a_Err : option GoError; a_Done : option GoError; a_walk : map_order; a_get : string -> reply;
}.

Inductive point :=
| PStart (req : RateRequest)
| PCached (q : query) (gate : bool)
| PFailure (q : query) (gate : bool)
| PGate (q : query)
| PFetch (q : query)
| PStoreRates (q : query) (rates : gmap string (gmap string Rate))
| PClear (q : query)
| PStoreFailure (q : query) (err : GoError)
| PStale (q : query) (cause : GoError) (gate : bool)
| PAfter (q : query)
| PStaleAfter (q : query)
| PFallback (q : query) (rate : Rate) (gate : bool)
| PDone (q : option query) (r : result GoError Rate).

(** Whether a call holds the fetch gate. *)
Definition holds (p : point) : bool :=
  match p with
  | PCached _ gate | PFailure _ gate | PStale _ _ gate | PFallback _ _ gate => gate
  | PFetch _ | PStoreRates _ _ | PClear _ | PStoreFailure _ _ | PAfter _ | PStaleAfter _ => true
  | PStart _ | PGate _ | PDone _ _ => false
  end.

Definition pair_name (q : query) : string := q_base q +:+ "/" +:+ q_quote q.

Definition unavailable (q : query) (cause : GoError) : GoError :=
  Errorf_ww "" ErrRateUnavailable_v (": " +:+ pair_name q +:+ " for " +:+ FormatDate (q_date q) +:+ ": ") cause "".

(** [GetRate] before it looks at the cache. *)
Definition start (c : config) (now : Z) (req : RateRequest) : point :=
  let base := normalizeCurrency (Base req) in
  let quote := normalizeCurrency (Quote req) in
  if String.eqb base "" || String.eqb quote "" then
    PDone None (Err (Errorf_w "" ErrRateUnavailable_v ": base and quote currencies are required"))
  else
    let q := mkQuery base quote (effective_date now (EffectiveAt req)) in
    if String.eqb base quote then PDone (Some q) (Ok (mkRate (q_date q) base quote float_one false))
    else if (0 <? length (quotes c))%nat && negb (Contains (quotes c) quote) then
      PDone (Some q) (Err (Errorf_w "" ErrRateUnavailable_v (": quote " +:+ quote +:+ " is outside the configured batch")))
    else PCached q false.

(** One step of a call: the cache, and where the call goes; [None] is blocked. *)
Definition step (c : config) (a : answer) (gate_free : bool) (s : cache) (p : point) : option (cache * point) :=
  match p with
  | PStart req => Some (s, start c (a_now a) req)
  | PCached q gate =>
      Some (s, match cachedRate s (q_base q) (q_date q) (q_quote q) with
               | Some rate => PDone (Some q) (Ok rate)
               | None => PFailure q gate
               end)
  | PFailure q gate =>
      let '(failure, s) := cachedFailure c (a_now a) (q_base q) (q_date q) s in
      Some (s, match failure with
               | Some err => PStale q err gate
               | None => if gate then PFetch q else PGate q
               end)
  | PGate q =>
      match a_Done a with
      | Some err => Some (s, PDone (Some q) (Err err))
      | None => if gate_free then Some (s, PCached q true) else None
      end
  | PFetch q =>
      Some (s, match fetch_rates c (q_base q) (q_date q) (a_now a) (a_get a) with
               | Ok rates => PStoreRates q rates
               | Err err => match a_Err a with None => PStoreFailure q err | Some _ => PStale q err true end
               end)
  | PStoreRates q rates => Some (storeRates c (a_walk a) rates s, PClear q)
  | PClear q => Some (clearFailure (q_base q) (q_date q) s, PAfter q)
  | PStoreFailure q err => Some (storeFailure c (a_now a) (q_base q) (q_date q) err s, PStale q err true)
  | PStale q cause gate =>
      Some (s, match cachedStaleRate c (a_walk a) s (q_base q) (q_date q) (q_quote q) with
               | Some rate => PFallback q rate gate
               | None => PDone (Some q) (Err (unavailable q cause))
               end)
  | PAfter q =>
      Some (s, match cachedRate s (q_base q) (q_date q) (q_quote q) with
               | Some rate => PDone (Some q) (Ok rate)
               | None => PStaleAfter q
               end)
  | PStaleAfter q =>
      Some (s, match cachedStaleRate c (a_walk a) s (q_base q) (q_date q) (q_quote q) with
               | Some rate => PFallback q rate true
               | None => PDone (Some q) (Err (Errorf_w "" ErrRateUnavailable_v
                           (": response has no " +:+ pair_name q +:+ " rate for " +:+ FormatDate (q_date q))))
               end)
  | PFallback q rate gate => Some (storeFallback c (a_walk a) (q_base q) (q_date q) rate s, PDone (Some q) (Ok rate))
  | PDone _ _ => None
  end.

(** A call under way, and the client with its calls; the gate is free when no
    call holds it. *)
Record call := mkCall { c_req : RateRequest; c_at : point }.
Record system := mkSystem { sys_cache : cache; calls : list call }.
Definition holds_gate (k : call) : bool := holds (c_at k).
Definition gate_free (y : system) : bool := negb (existsb holds_gate (calls y)).

Inductive sys_step (c : config) : system -> system -> Prop :=
| Call y req : sys_step c y (mkSystem (sys_cache y) (calls y ++ [mkCall req (PStart req)]))
| Move y i req p a s p' : calls y !! i = Some (mkCall req p) -> step c a (gate_free y) (sys_cache y) p = Some (s, p') ->
    sys_step c y (mkSystem s (<[i := mkCall req p']> (calls y))).

Inductive reachable (c : config) : system -> Prop :=
| R_new : reachable c (mkSystem empty_cache [])
| R_step y y' : reachable c y -> sys_step c y y' -> reachable c y'.

End frankfurter.
