(* ===== verification/FrankfurterSafety.v ===== *)
(** * What [GetRate] guarantees

    The invariant of the rate cache and of every call under way, and the theorems
    on answers, cache size and the fetch gate. *)
From Stdlib Require Import Ascii SpecFloat.
From S2P Require Export Frankfurter.
Local Open Scope Z_scope.
Local Open Scope go_scope.

(** ** Dates *)

Lemma date_of_civil_is_date c : is_date (date_of_civil c).
Proof. by eexists. Qed.

Lemma dateUTC_day v : dateUTC v = midnight (day_number v).
Proof. unfold dateUTC, date_of_civil, civil_of. by rewrite days_of_civil_of_days. Qed.

Lemma dateUTC_is_date v : is_date (dateUTC v).
Proof. apply date_of_civil_is_date. Qed.

(** The effective date is the date asked for, and never after today's. *)
Lemma effective_date_spec now at_ : is_date (effective_date now at_) /\ effective_date now at_ <= now /\
  (effective_date now at_ = dateUTC now \/ effective_date now at_ = dateUTC at_ /\ at_ <> zeroTime).
Proof.
  unfold effective_date. pose proof (midnight_day_number now) as Hn. rewrite <- dateUTC_day in Hn.
  destruct (IsZero at_) eqn:Ez; [split; [apply dateUTC_is_date|]; split; [lia|by left]|].
  destruct (Z.ltb_spec (dateUTC now) (dateUTC at_)); (split; [apply dateUTC_is_date|]); (split; [lia|]); [by left|right].
  split; [done|]. unfold IsZero in Ez. lia.
Qed.

Lemma ParseDate_is_date s t : ParseDate s = Some t -> is_date t.
Proof. unfold ParseDate. repeat case_match; intros [= <-]. apply date_of_civil_is_date. Qed.

(** ** Keys *)

Lemma ParseDate_chars s t : ParseDate s = Some t -> sforall date_char s = true.
Proof.
  unfold ParseDate. destruct (_ && _) eqn:E; [|done]. intros _. rewrite !andb_true_iff in E.
  destruct E as [[[[[El Ey] E1] Em] E2] Ed]. apply Nat.eqb_eq in El. apply String.eqb_eq in E1, E2.
  assert (Hs : s = stake 4 s +:+ "-" +:+ stake 2 (sdrop 5 s) +:+ "-" +:+ stake 2 (sdrop 8 s)).
  { rewrite <- E1 at 1. rewrite <- E2 at 1. rewrite <- (stake_sdrop 4 s) at 1. f_equal.
    rewrite <- (stake_sdrop 1 (sdrop 4 s)) at 1. f_equal. rewrite sdrop_sdrop. cbn [Nat.add].
    rewrite <- (stake_sdrop 2 (sdrop 5 s)) at 1. f_equal. rewrite sdrop_sdrop. cbn [Nat.add].
    rewrite <- (stake_sdrop 1 (sdrop 7 s)) at 1. f_equal. rewrite sdrop_sdrop. cbn [Nat.add].
    symmetry. apply stake_ge. rewrite slen_sdrop. lia. }
  assert (Hd : forall u, all_digits u = true -> sforall date_char u = true).
  { intros u Hu. refine (sforall_impl is_digit date_char _ _ Hu). intros c Hc. unfold date_char. by rewrite Hc. }
  rewrite Hs, !sforall_app, (Hd _ Ey), (Hd _ Em), (Hd _ Ed). done.
Qed.

Lemma date_char_bar s : sforall date_char s = true -> avoids "|" s = true.
Proof. apply sforall_impl. intros c. destruct (Ascii.eqb_spec c "|") as [->|]; done. Qed.

(** Splitting at the last separator. *)
Lemma split_last_inj c s s' t t' : avoids c t = true -> avoids c t' = true -> s +:+ String c t = s' +:+ String c t' -> s = s' /\ t = t'.
Proof.
  revert s'. induction s as [|d s IH]; intros [|d' s'] Ht Ht' E; cbn in E.
  - by injection E as ->.
  - injection E as <- ->. rewrite avoids_app in Ht. unfold avoids in Ht. cbn [sforall] in Ht.
    rewrite Ascii.eqb_refl, andb_false_r in Ht. done.
  - injection E as -> <-. rewrite avoids_app in Ht'. unfold avoids in Ht'. cbn [sforall] in Ht'.
    rewrite Ascii.eqb_refl, andb_false_r in Ht'. done.
  - injection E as -> E. by destruct (IH s' Ht Ht' E) as [-> ->].
Qed.

Lemma cacheDateKey_inj base base' date date' : is_date date -> is_date date' -> cacheDateKey base date = cacheDateKey base' date' ->
  base = base' /\ date = date'.
Proof.
  intros H H' [Eb Ed]%split_last_inj; [|apply date_char_bar, FormatDate_chars..]. split; [done|by apply FormatDate_inj].
Qed.

Lemma parseCacheDateKey_base base date keyBase d : parseCacheDateKey (cacheDateKey base date) = Some (keyBase, d) -> keyBase = base.
Proof.
  unfold parseCacheDateKey, Cut. destruct (Index _ _) as [i|] eqn:Ei; [|done]. cbn [negb]. intros (t & Ht & [= <- <-])%bind_Some.
  apply Index_spec in Ei as [_ E]. symmetry in E. unfold cacheDateKey in E at 2.
  apply split_last_inj in E as [E _]; [done|by eapply date_char_bar, ParseDate_chars|apply date_char_bar, FormatDate_chars].
Qed.

(** ** The invariant *)

Section safety.
Context `{U : UnicodeTables} `{JE : JsonErrors} `{JT : JsonText}.
Variable c : config.

(** A rate the cache may hold for a base, a date and a quote. *)
Definition rate_ok (base : string) (date : Z) (quote : string) (r : Rate) : Prop :=
  r_Base r = base /\ r_Quote r = quote /\ positiveFinite (r_Value r) = true /\ is_date (r_Date r) /\
  if r_Stale r then r_Date r < date /\ Sub date (r_Date r) <= maxStaleness c else r_Date r = date.

Definition day_ok (key : string) (m : gmap string Rate) : Prop :=
  exists base date, is_date date /\ key = cacheDateKey base date /\ forall quote r, m !! quote = Some r -> rate_ok base date quote r.
Definition days_ok (rates : gmap string (gmap string Rate)) : Prop := map_Forall day_ok rates.

Definition cache_ok (s : cache) : Prop :=
  days_ok (ratesByDate s) /\ dom (ratesByDate s) = dom (cacheStoredAt s) /\ (size (ratesByDate s) <= maxCacheDays c)%nat.

(** A query comes from its request, at some reading of the clock. *)
Definition query_of (req : RateRequest) (q : query) : Prop :=
  q_base q = normalizeCurrency (Base req) /\ q_quote q = normalizeCurrency (Quote req) /\
  exists now, q_date q = effective_date now (EffectiveAt req).

(** What a call may return. *)
Definition answer_ok (q : query) (r : Rate) : Prop :=
  rate_ok (q_base q) (q_date q) (q_quote q) r \/ q_base q = q_quote q /\ r = mkRate (q_date q) (q_base q) (q_quote q) float_one false.

Definition call_ok (k : call) : Prop :=
  match c_at k with
  | PStart req => req = c_req k
  | PCached q _ | PFailure q _ | PGate q | PFetch q | PClear q | PStoreFailure q _ | PStale q _ _ | PAfter q | PStaleAfter q =>
      query_of (c_req k) q
  | PStoreRates q rates => query_of (c_req k) q /\ days_ok rates
  | PFallback q r _ => query_of (c_req k) q /\ rate_ok (q_base q) (q_date q) (q_quote q) r /\ r_Stale r = true
  | PDone (Some q) (Ok r) => query_of (c_req k) q /\ answer_ok q r
  | PDone (Some q) (Err _) => query_of (c_req k) q
  | PDone None r => is_ok r = false
  end.

Lemma query_date req q : query_of req q -> is_date (q_date q).
Proof. intros (_ & _ & now & ->). apply effective_date_spec. Qed.

(** ** Reading *)

Lemma cachedRate_ok s base date quote r : days_ok (ratesByDate s) -> is_date date -> cachedRate s base date quote = Some r ->
  rate_ok base date quote r.
Proof.
  intros Hs Hd (m & Hm & Hr)%bind_Some. destruct (Hs _ _ Hm) as (base' & date' & Hd' & Hk & Hall).
  apply cacheDateKey_inj in Hk as [<- <-]; [|done..]. by apply Hall.
Qed.

(** The rate found so far is the zero rate or a candidate of the key's base. *)
Lemma stale_step_ok base date quote selected entry :
  let ok r := IsZero (r_Date r) = true \/ rate_ok base date quote (set_Stale r) in
  day_ok entry.1 entry.2 -> ok selected -> ok (stale_step c base date quote selected entry).
Proof.
  cbv zeta. destruct entry as [key m]. cbn [fst snd]. intros (base' & date' & Hd & -> & Hall) Hs. unfold stale_step. cbn [fst snd].
  destruct (parseCacheDateKey _) as [[keyBase d]|] eqn:Ek; [|done]. apply parseCacheDateKey_base in Ek as ->.
  destruct (String.eqb_spec base' base) as [->|]; cbn [negb]; [|done].
  destruct (m !! quote) as [r|] eqn:Er; [|done]. destruct (Hall _ _ Er) as (H1 & H2 & H3 & H4 & _).
  destruct (Z.ltb_spec (r_Date r) date), (Z.ltb_spec (maxStaleness c) (Sub date (r_Date r))); cbn [negb orb]; try done.
  destruct (_ || _); [|done]. right. by split_and!.
Qed.

Lemma cachedStaleRate_ok o s base date quote r : days_ok (ratesByDate s) -> cachedStaleRate c o s base date quote = Some r ->
  rate_ok base date quote r /\ r_Stale r = true.
Proof.
  intros Hs. unfold cachedStaleRate. destruct (maxStaleness c <=? 0); [done|].
  assert (H : forall l r0, (forall e, e ∈ l -> day_ok e.1 e.2) -> IsZero (r_Date r0) = true \/ rate_ok base date quote (set_Stale r0) ->
    IsZero (r_Date (foldl (stale_step c base date quote) r0 l)) = true \/ rate_ok base date quote (set_Stale (foldl (stale_step c base date quote) r0 l))).
  { induction l as [|e l IH]; intros r0 Hl H0; [done|]. cbn [foldl]. apply IH; [intros e' He'; apply Hl; by right|].
    apply stale_step_ok; [apply Hl; by left|done]. }
  specialize (H (walk o (ratesByDate s)) zeroRate). destruct (IsZero (r_Date (foldl _ _ _))) eqn:Ez; [done|]. intros [= <-].
  destruct H as [H|H]; [|by left|congruence|done].
  intros [key m] He%walk_elem. by apply Hs.
Qed.

(** ** Writing *)

Lemma day_ok_sub key m m' : day_ok key m -> (forall quote r, m' !! quote = Some r -> m !! quote = Some r) -> day_ok key m'.
Proof. intros (base & date & Hd & Hk & Hall) H. exists base, date. split; [done|]. split; [done|]. intros quote r Hr. by apply Hall, H. Qed.

Lemma day_ok_insert base date quote r m : is_date date -> day_ok (cacheDateKey base date) m -> rate_ok base date quote r ->
  day_ok (cacheDateKey base date) (<[quote := r]> m).
Proof.
  intros Hd (base' & date' & Hd' & Hk & Hall) Hr. apply cacheDateKey_inj in Hk as [<- <-]; [|done..].
  exists base, date. split; [done|]. split; [done|]. intros quote' r'. rewrite lookup_insert_Some. intros [[<- <-]|[_ H]]; auto.
Qed.

Lemma day_ok_empty base date : is_date date -> day_ok (cacheDateKey base date) ∅.
Proof. intros Hd. exists base, date. split; [done|]. split; [done|]. by intros quote r ?%lookup_empty_Some. Qed.

Lemma days_ok_default rates base date : days_ok rates -> is_date date ->
  day_ok (cacheDateKey base date) (default ∅ (rates !! cacheDateKey base date)).
Proof. intros Hr Hd. destruct (rates !! _) eqn:E; [by apply Hr|by apply day_ok_empty]. Qed.

Lemma decode_step_ok base from to acc raw : days_ok (fst acc) -> days_ok (fst (decode_step base from to acc raw)).
Proof.
  destruct acc as [rates seen]. cbn [fst]. intros Hr. unfold decode_step. destruct (decode_row raw) as [row|]; [|done].
  destruct (ParseDate _) as [date|] eqn:Ed; [|done]. apply ParseDate_is_date in Ed. destruct (_ || _); [done|].
  destruct (String.eqb_spec (normalizeCurrency (row_Base row)) base) as [Eb|]; cbn [negb]; [|done]. rewrite Eb.
  destruct (String.eqb _ ""); [done|]. cbv zeta. case_bool_decide.
  - cbn [fst]. intros key m Hm. destruct (decide (cacheDateKey base date = key)) as [<-|Hne]; [|rewrite lookup_alter_ne in Hm by done; by apply Hr].
    rewrite lookup_alter, decide_True in Hm by done. apply fmap_Some in Hm as (m' & Hm' & ->).
    apply (day_ok_sub _ m'); [by apply Hr|]. by intros quote r [_ ?]%lookup_delete_Some.
  - destruct (positiveFinite (row_Rate row)) eqn:Ep; cbn [negb fst]; [|done].
    apply map_Forall_insert_2; [|done]. apply day_ok_insert; [done|by apply days_ok_default|]. by split_and!.
Qed.

Lemma decodeRates_ok body base from to rates : decodeRates body base from to = Ok rates -> days_ok rates.
Proof.
  unfold decodeRates. destruct (json_parse body) as [data|]; [|done]. destruct (d_slice _ None data) as [[[|row rows]|]|]; try done.
  intros [= <-].
  assert (H : forall l acc, days_ok (fst acc) -> days_ok (fst (foldl (decode_step base from to) acc l))).
  { induction l as [|raw l IH]; intros acc Ha; [done|]. by apply IH, decode_step_ok. }
  apply (H (row :: rows) (∅, ∅)). apply map_Forall_empty.
Qed.

Lemma fetch_rates_ok base date now get rates : fetch_rates c base date now get = Ok rates -> days_ok rates.
Proof. unfold fetch_rates. cbv zeta. intros (body & _ & H)%result_bind_Ok. by eapply decodeRates_ok. Qed.

(** Both maps have the same keys throughout; the days stay what they should be. *)
Definition dom_ok (s : cache) : Prop := days_ok (ratesByDate s) /\ dom (ratesByDate s) = dom (cacheStoredAt s).

Lemma store_day_ok s entry : day_ok entry.1 entry.2 -> dom_ok s -> dom_ok (store_day s entry).
Proof.
  destruct entry as [key m]. cbn [fst snd]. intros Hm [Hs Hd]. split.
  - unfold store_day. cbn [ratesByDate fst snd]. apply map_Forall_insert_2; [|done].
    destruct Hm as (base & date & Hdt & -> & Hall). exists base, date. split; [done|]. split; [done|]. intros quote r.
    rewrite lookup_union_Some_raw. intros [H|[_ H]]; [by apply Hall|].
    destruct (days_ok_default _ base date Hs Hdt) as (base' & date' & Hdt' & Hk & Hall').
    apply cacheDateKey_inj in Hk as [<- <-]; [|done..]. by apply Hall'.
  - unfold store_day. cbn [ratesByDate cacheStoredAt fst snd]. by rewrite !dom_insert_L, Hd.
Qed.

(** An entry of the map is chosen, whatever the order. *)
Lemma oldest_key_elem o s : cacheStoredAt s <> ∅ -> oldest_key o s ∈ dom (cacheStoredAt s).
Proof.
  intros Hne. unfold oldest_key.
  assert (H : forall l e, exists e', e' ∈ e :: l /\ foldl oldest_step e l = e').
  { induction l as [|e' l IH]; intros e; [exists e; split; [left|done]|]. cbn [foldl].
    destruct (IH (oldest_step e e')) as (x & Hx & E). exists x. split; [|done]. unfold oldest_step in Hx.
    apply elem_of_cons in Hx as [->|Hx]; [destruct (_ || _); [right; left|left]|right; by right]. }
  destruct (walk o (cacheStoredAt s)) as [|[k n] l] eqn:E.
  - exfalso. apply Hne, map_eq. intros k. destruct (cacheStoredAt s !! k) as [n|] eqn:Ek; [|by rewrite lookup_empty].
    apply (walk_elem o) in Ek. rewrite E in Ek. by apply elem_of_nil in Ek.
  - cbn [foldl]. change (oldest_step ("", 0) (k, n)) with (k, n). destruct (H l (k, n)) as ([k' n'] & Hx & ->).
    rewrite <- E in Hx. apply walk_elem in Hx. cbn [fst]. by eapply elem_of_dom_2.
Qed.

(** The loop makes room: every round removes a key, so [size] rounds are enough. *)
Lemma evict_ok o : forall fuel s, (size (ratesByDate s) <= fuel + maxCacheDays c)%nat -> dom_ok s -> cache_ok (evict c o fuel s).
Proof.
  induction fuel as [|fuel IH]; intros s Hf [Hs Hd]; cbn [evict]; [by split_and!|].
  destruct (Nat.ltb_spec (maxCacheDays c) (size (ratesByDate s))) as [Hlt|Hle]; [|by split_and!].
  set (key := oldest_key o s).
  assert (Hk : key ∈ dom (ratesByDate s)).
  { rewrite Hd. apply oldest_key_elem. intros E. rewrite E, dom_empty_L in Hd.
    apply dom_empty_inv_L in Hd. rewrite Hd, map_size_empty in Hlt. lia. }
  apply elem_of_dom in Hk as [m Hm]. apply IH; [|split].
  - cbn [ratesByDate]. rewrite map_size_delete_Some by by eexists. lia.
  - cbn [ratesByDate]. by apply map_Forall_delete.
  - cbn [ratesByDate cacheStoredAt]. by rewrite !dom_delete_L, Hd.
Qed.

Lemma storeRates_ok o rates s : days_ok rates -> cache_ok s -> cache_ok (storeRates c o rates s).
Proof.
  intros Hr (Hs & Hd & _). unfold storeRates. apply evict_ok; [lia|].
  assert (H : forall l s, (forall e, e ∈ l -> day_ok e.1 e.2) -> dom_ok s -> dom_ok (foldl store_day s l)).
  { induction l as [|e l IH]; intros s' Hl Hs'; [done|]. apply IH; [intros e' He'; apply Hl; by right|].
    apply store_day_ok; [apply Hl; by left|done]. }
  apply H; [|done]. intros [k m] He%walk_elem. by apply Hr.
Qed.

Lemma storeFallback_ok o base date r s : is_date date -> rate_ok base date (r_Quote r) r -> r_Stale r = true -> cache_ok s ->
  cache_ok (storeFallback c o base date r s).
Proof.
  intros Hd Hr Es Hs. apply storeRates_ok; [|done]. apply map_Forall_singleton. exists base, date. split; [done|]. split; [done|].
  intros quote r'. rewrite lookup_singleton_Some. intros [<- <-]. destruct Hr as (H1 & _ & H3 & H4 & H5). by rewrite Es in H5; split_and!.
Qed.

(** ** Every step keeps it *)

Lemma start_ok req now : call_ok (mkCall req (start c now req)).
Proof.
  unfold start. destruct (_ || _); [done|].
  assert (Hq : query_of req (mkQuery (normalizeCurrency (Base req)) (normalizeCurrency (Quote req)) (effective_date now (EffectiveAt req))))
    by (split; [done|]; split; [done|by exists now]).
  destruct (String.eqb_spec (normalizeCurrency (Base req)) (normalizeCurrency (Quote req))) as [E|_];
    [split; [done|]; right; by split|].
  destruct (_ && _); exact Hq.
Qed.

Lemma set_failures_ok f s : cache_ok s -> cache_ok (set_failures f s).
Proof. done. Qed.

Lemma step_ok a free s req p s' p' : cache_ok s -> call_ok (mkCall req p) -> step c a free s p = Some (s', p') ->
  cache_ok s' /\ call_ok (mkCall req p').
Proof.
  intros Hs Hp. pose proof Hs as (Hdays & _). destruct p; cbn [step]; unfold call_ok in Hp; cbn [c_at c_req] in Hp; try (intros [= <- <-]).
  - split; [done|]. rewrite Hp. apply start_ok.
  - split; [done|]. destruct (cachedRate _ _ _ _) eqn:E; [|exact Hp].
    split; [exact Hp|]. left. eapply cachedRate_ok; [done|by eapply query_date|exact E].
  - unfold cachedFailure. destruct (failureTTL c <=? 0); [|destruct (failuresByMonth s !! _) as [[err after]|]; [destruct (_ <? after)|]];
      cbn [negb]; intros [= <- <-]; (split; [done|]); try (by destruct gate); exact Hp.
  - destruct (a_Done a); [intros [= <- <-]; split; [done|exact Hp]|]. destruct free; [|done]. intros [= <- <-]. split; [done|exact Hp].
  - split; [done|]. destruct (fetch_rates _ _ _ _ _) as [rates|err] eqn:E; [split; [exact Hp|by eapply fetch_rates_ok]|by destruct (a_Err a)].
  - destruct Hp as [Hq Hr]. split; [by apply storeRates_ok|exact Hq].
  - split; [done|exact Hp].
  - split; [|exact Hp]. unfold storeFailure. by destruct (_ <=? 0).
  - split; [done|]. destruct (cachedStaleRate _ _ _ _ _ _) eqn:E; [|exact Hp]. apply cachedStaleRate_ok in E as [? ?]; [|done]. by split_and!.
  - split; [done|]. destruct (cachedRate _ _ _ _) eqn:E; [|exact Hp].
    split; [exact Hp|]. left. eapply cachedRate_ok; [done|by eapply query_date|exact E].
  - split; [done|]. destruct (cachedStaleRate _ _ _ _ _ _) eqn:E; [|exact Hp]. apply cachedStaleRate_ok in E as [? ?]; [|done]. by split_and!.
  - destruct Hp as (Hq & Hr & Es). split; [|split; [done|by left]].
    apply storeFallback_ok; [by eapply query_date| |done..]. destruct Hr as (H1 & H2 & H3). by rewrite H2.
Qed.

(** A call that moves takes the gate only when it is free. *)
Lemma step_gate a free s p s' p' : step c a free s p = Some (s', p') -> holds p' = true -> holds p = true \/ free = true.
Proof.
  destruct p; cbn [step holds]; try (intros [= <- <-]); try by auto.
  - unfold start. repeat case_match; done.
  - destruct (cachedRate _ _ _ _); cbn [holds]; naive_solver.
  - unfold cachedFailure. repeat case_match; intros [= <- <-]; cbn [holds] in *; simplify_eq; naive_solver.
  - destruct (a_Done a); [by intros [= <- <-]|]. destruct free; naive_solver.
  - destruct (cachedStaleRate _ _ _ _ _ _); cbn [holds]; naive_solver.
Qed.

Definition holders (y : system) : nat := length (List.filter holds_gate (calls y)).

Lemma holders_insert (l : list call) i k k' : l !! i = Some k ->
  (length (List.filter holds_gate (<[i := k']> l)) + (if holds_gate k then 1 else 0) =
   length (List.filter holds_gate l) + (if holds_gate k' then 1 else 0))%nat.
Proof.
  revert i. induction l as [|x l IH]; intros [|i] E; simplify_eq/=.
  - destruct (holds_gate k), (holds_gate k'); simpl; lia.
  - specialize (IH i E). destruct (holds_gate x); simpl; lia.
Qed.

Lemma gate_free_holders y : gate_free y = true -> holders y = 0%nat.
Proof.
  unfold gate_free, holders. intros H. apply negb_true_iff in H. induction (calls y) as [|k l IH]; [done|]. cbn [existsb] in H.
  apply orb_false_iff in H as [Hk H]. cbn [List.filter]. rewrite Hk. by apply IH.
Qed.

Definition system_ok (y : system) : Prop :=
  cache_ok (sys_cache y) /\ Forall call_ok (calls y) /\ (holders y <= 1)%nat.

Lemma reachable_ok y : reachable c y -> system_ok y.
Proof.
  induction 1 as [|y y' _ (Hs & Hc & Hh) Hstep].
  { split; [|split; [exact (List.Forall_nil call_ok)|cbn; lia]]. split; [apply map_Forall_empty|]. split; [done|]. cbn. rewrite map_size_empty. lia. }
  destruct Hstep as [y req|y i req p a s p' Hi E].
  - split; [done|]. split; [by apply Forall_app; split; [|repeat constructor]|]. unfold holders. cbn [calls].
    rewrite List.filter_app, length_app. cbn. unfold holders in Hh. lia.
  - pose proof (Forall_lookup_1 _ _ _ _ Hc Hi) as Hp. destruct (step_ok _ _ _ _ _ _ _ Hs Hp E) as [Hs' Hp']. split; [done|].
    split; [by apply Forall_insert|]. unfold holders. cbn [calls]. pose proof (holders_insert _ _ _ (mkCall req p') Hi) as Hn.
    unfold holds_gate in Hn at 2 4. cbn [c_at] in Hn. unfold holders in Hh.
    destruct (holds p') eqn:Ep'; [|destruct (holds p); lia]. destruct (holds p) eqn:Ep; [lia|].
    destruct (step_gate _ _ _ _ _ _ E Ep') as [?|Ef]; [congruence|]. apply gate_free_holders in Ef. unfold holders in Ef. lia.
Qed.

(** C15: However many calls run at once and however they interleave: a call that
    returns a rate returns one for its own base, quote and date, positive and
    finite, and marked stale exactly when it is an earlier day's rate, which is
    then within the staleness limit; the cache never outgrows its bound; and at
    most one call at a time holds the fetch gate, so at most one request is
    under way. *)
Theorem GetRate_sound y : reachable c y ->
  (forall i req q r, calls y !! i = Some (mkCall req (PDone (Some q) (Ok r))) -> query_of req q /\ answer_ok q r) /\
  (forall i req r, calls y !! i <> Some (mkCall req (PDone None (Ok r)))) /\
  (size (ratesByDate (sys_cache y)) <= maxCacheDays c)%nat /\ (holders y <= 1)%nat.
Proof.
  intros ((_ & _ & Hsize) & Hc & Hh)%reachable_ok. split; [|split; [|done]].
  - intros i req q r Hi. exact (Forall_lookup_1 _ _ _ _ Hc Hi).
  - intros i req r Hi. by pose proof (Forall_lookup_1 _ _ _ _ Hc Hi) as H.
Qed.

(** ** Eviction spares what was just stored *)

Lemma oldest_key_least o s key n : cacheStoredAt s !! "" = None -> cacheStoredAt s !! key = Some n ->
  exists m, cacheStoredAt s !! oldest_key o s = Some m /\ m <= n.
Proof.
  intros He Hk. unfold oldest_key.
  assert (H : forall l e, (forall x, x ∈ e :: l -> x.1 <> "") ->
    foldl oldest_step e l ∈ e :: l /\ forall x, x ∈ e :: l -> (foldl oldest_step e l).2 <= x.2).
  { induction l as [|e' l IH]; intros e Hne; [split; [left|intros x ->%list_elem_of_singleton; cbn; lia]|]. cbn [foldl].
    assert (Hs : oldest_step e e' ∈ [e; e'] /\ (oldest_step e e').2 <= e.2 /\ (oldest_step e e').2 <= e'.2).
    { unfold oldest_step. rewrite (proj2 (String.eqb_neq e.1 "")) by (apply Hne; left). cbn [orb].
      destruct (Z.ltb_spec e'.2 e.2); (split; [|lia]); [right; left|left]. }
    destruct Hs as (Hin & H1 & H2). destruct (IH (oldest_step e e')) as [Hx Hle].
    { intros x [->|Hx]%elem_of_cons; apply Hne; [|right; by right]. apply elem_of_cons in Hin as [->|Hin]; [left|]. apply list_elem_of_singleton in Hin as ->. right; left. }
    split.
    - apply elem_of_cons in Hx as [->|Hx]; [|right; by right]. apply elem_of_cons in Hin as [->|Hin]; [left|]. apply list_elem_of_singleton in Hin as ->. right; left.
    - pose proof (Hle (oldest_step e e') ltac:(left)). intros x Hx'. apply elem_of_cons in Hx' as [->|Hx']; [lia|].
      apply elem_of_cons in Hx' as [->|Hx']; [lia|]. apply Hle. by right. }
  destruct (walk o (cacheStoredAt s)) as [|e l] eqn:E.
  { apply (walk_elem o) in Hk. rewrite E in Hk. by apply elem_of_nil in Hk. }
  cbn [foldl]. change (oldest_step ("", 0) e) with e.
  assert (Hw : forall k m, (k, m) ∈ e :: l <-> cacheStoredAt s !! k = Some m) by (intros k m; rewrite <- E; apply walk_elem).
  destruct (H l e) as [Hin Hle]; [intros [k m] Hx%Hw; cbn; intros ->; congruence|].
  destruct (foldl oldest_step e l) as [k m] eqn:Ef. exists m. apply Hw in Hin. split; [done|].
  apply Hw in Hk. by apply (Hle (key, n)).
Qed.

(** The keys of [rates] are the ones stored last, and hold what [rates] holds. *)
Definition newest (rates : gmap string (gmap string Rate)) (mark : Z) (s : cache) : Prop :=
  dom (ratesByDate s) = dom (cacheStoredAt s) /\ cacheStoredAt s !! "" = None /\
  (forall key n, cacheStoredAt s !! key = Some n -> (is_Some (rates !! key) <-> mark < n)) /\
  (forall key m, rates !! key = Some m -> exists m', ratesByDate s !! key = Some m' /\ m ⊆ m').

Lemma evict_newest o rates mark : (size rates <= maxCacheDays c)%nat -> forall fuel s, newest rates mark s ->
  newest rates mark (evict c o fuel s).
Proof.
  intros Hr. induction fuel as [|fuel IH]; intros s Hn; cbn [evict]; [done|].
  destruct (Nat.ltb_spec (maxCacheDays c) (size (ratesByDate s))) as [Hlt|]; [|done]. cbv zeta. apply IH.
  destruct Hn as (Hd & He & Hmark & Hin).
  assert (Hold : exists key n, cacheStoredAt s !! key = Some n /\ n <= mark).
  { destruct (set_choose_or_empty (dom (cacheStoredAt s) ∖ dom rates)) as [(key & ([n Hn]%elem_of_dom & Hnot)%elem_of_difference)|Hsub].
    2: { exfalso. assert (Hsub' : dom (cacheStoredAt s) ⊆ dom rates) by set_solver.
      apply subseteq_size in Hsub'. rewrite <- Hd, !size_dom in Hsub'. lia. }
    - exists key, n. split; [done|].
      rewrite not_elem_of_dom in Hnot. destruct (Z.le_gt_cases n mark) as [|Hgt]; [done|]. exfalso.
      destruct (proj2 (Hmark _ _ Hn) Hgt) as [? ?]. congruence. }
  destruct Hold as (key & n & Hk & Hle). destruct (oldest_key_least o s key n He Hk) as (m & Hm & Hle').
  assert (Hnot : rates !! oldest_key o s = None).
  { apply eq_None_not_Some. intros Hs. apply (Hmark _ _ Hm) in Hs. lia. }
  split; [|split; [|split]]; cbn [ratesByDate cacheStoredAt].
  - by rewrite !dom_delete_L, Hd.
  - by rewrite lookup_delete_None; right.
  - intros k x [_ Hx]%lookup_delete_Some. by apply Hmark.
  - intros k x Hx. destruct (Hin _ _ Hx) as (m' & Hm' & Hsub). exists m'. split; [|done]. rewrite lookup_delete_ne; [done|]. congruence.
Qed.

Lemma store_days_newest o rates s : rates !! "" = None -> dom (ratesByDate s) = dom (cacheStoredAt s) -> cacheStoredAt s !! "" = None ->
  (forall key n, cacheStoredAt s !! key = Some n -> n <= cacheSequence s) -> 0 <= cacheSequence s ->
  cacheSequence s + Z.of_nat (size rates) < 2 ^ 64 ->
  newest rates (cacheSequence s) (foldl store_day s (walk o rates)).
Proof.
  intros Her Hd He Hle H0 Hmax.
  assert (H : forall l done_ s', (forall k m, (k, m) ∈ l -> rates !! k = Some m) -> NoDup (fst <$> l) ->
      (forall k m, done_ !! k = Some m -> rates !! k = Some m) -> (forall k, is_Some (done_ !! k) -> k ∉ fst <$> l) ->
      cacheSequence s <= cacheSequence s' -> cacheSequence s' + Z.of_nat (length l) < 2 ^ 64 ->
      newest done_ (cacheSequence s) s' -> newest (list_to_map l ∪ done_) (cacheSequence s) (foldl store_day s' l)).
  { induction l as [|[k m] l IH]; intros done_ s' Hl Hnd Hdone Hfresh Hseq Hlen Hn; [by rewrite list_to_map_nil, (left_id_L ∅ (∪))|].
    cbn [foldl]. rewrite list_to_map_cons. cbn [fmap list_fmap fst] in Hnd. apply NoDup_cons in Hnd as [Hk Hnd].
    assert (Hdk : done_ !! k = None) by (apply eq_None_not_Some; intros Hs; apply (Hfresh _ Hs); left).
    replace (<[k := m]> (list_to_map l) ∪ done_) with (list_to_map l ∪ <[k := m]> done_).
    2: { rewrite <- insert_union_r, insert_union_l; [done|]. by apply not_elem_of_list_to_map_1. }
    cbn [length] in Hlen. assert (Hw : wrap_u64 (cacheSequence s' + 1) = cacheSequence s' + 1) by (apply wrap_u64_small; unfold is_u64, u64_modulus; lia).
    destruct Hn as (Hn1 & Hn2 & Hn3 & Hn4). apply IH.
    - intros k' m' Hin. apply Hl. by right.
    - done.
    - intros k' m'. rewrite lookup_insert_Some. intros [[<- <-]|[_ Hx]]; [apply Hl; left|by apply Hdone].
    - intros k' Hs. destruct (decide (k' = k)) as [->|Hne]; [done|]. rewrite lookup_insert_ne in Hs by done.
      intros Hx. apply (Hfresh _ Hs). by right.
    - unfold store_day. cbn [cacheSequence]. lia.
    - unfold store_day. cbn [cacheSequence]. lia.
    - unfold store_day. cbn [fst snd]. rewrite Hw. split; [|split; [|split]]; cbn [ratesByDate cacheStoredAt].
      + by rewrite !dom_insert_L, Hn1.
      + rewrite lookup_insert_ne; [done|]. intros ->. specialize (Hl "" m ltac:(left)). congruence.
      + intros k' n. rewrite !lookup_insert_Some. intros [[<- <-]|[Hne Hx]].
        * rewrite lookup_insert_eq. split; [lia|by eexists].
        * rewrite lookup_insert_ne by done. by apply Hn3.
      + intros k' m'. rewrite lookup_insert_Some. intros [[<- <-]|[Hne Hx]].
        * eexists. split; [apply lookup_insert_eq|]. apply map_union_subseteq_l.
        * rewrite lookup_insert_ne by done. by apply Hn4. }
  specialize (H (walk o rates) ∅ s). rewrite (right_id_L ∅ (∪)) in H.
  assert (Hw : list_to_map (walk o rates) = rates).
  { rewrite <- (list_to_map_to_list rates) at 2. apply list_to_map_proper; [|apply walk_perm]. rewrite (walk_perm o). apply NoDup_fst_map_to_list. }
  rewrite Hw in H. apply H.
  - intros k m Hin. by apply (walk_elem o) in Hin.
  - rewrite (walk_perm o). apply NoDup_fst_map_to_list.
  - by intros k m ?%lookup_empty_Some.
  - intros k [? ?%lookup_empty_Some]. done.
  - lia.
  - rewrite (walk_perm o), length_map_to_list. lia.
  - split; [done|]. split; [done|]. split; [|by intros k m ?%lookup_empty_Some].
    intros k n Hk. apply Hle in Hk. split; [intros [? ?%lookup_empty_Some]; done|lia].
Qed.

(** A batch that fits is in the cache, whole, once it is stored: the loop evicts
    the days stored before it. *)
Theorem storeRates_keeps o rates s key m :
  rates !! "" = None -> dom (ratesByDate s) = dom (cacheStoredAt s) -> cacheStoredAt s !! "" = None ->
  (forall k n, cacheStoredAt s !! k = Some n -> n <= cacheSequence s) -> 0 <= cacheSequence s ->
  cacheSequence s + Z.of_nat (size rates) < 2 ^ 64 -> (size rates <= maxCacheDays c)%nat ->
  rates !! key = Some m -> exists m', ratesByDate (storeRates c o rates s) !! key = Some m' /\ m ⊆ m'.
Proof.
  intros H1 H2 H3 H4 H5 H6 H7 Hm. pose proof (store_days_newest o rates s H1 H2 H3 H4 H5 H6) as Hn.
  unfold storeRates. destruct (evict_newest o rates _ H7 (size (ratesByDate (foldl store_day s (walk o rates)))) _ Hn) as (_ & _ & _ & H). by apply H.
Qed.

End safety.
