(* ===== verification/Polymarket.v ===== *)
(** * Polymarket orders (utils/polymarket)

    The market types of [constants.go] and the signed orders of [order.go]:
    building, validating and hashing an order, and the fixed-point parsers. *)
From Stdlib Require Import Ascii Strings.Byte.
From S2P Require Export Abi Units.
Local Open Scope Z_scope.
Local Open Scope go_scope.

(** ** Markets *)

Definition PolygonChainID : Z := 137.
Definition StandardExchangeAddress : string := "0xe111180000d2663c0091e4f400237545b87b996b".
Definition NegRiskExchangeAddress : string := "0xe2222d279d744050d28e00520010520000310f59".

(** A [MarketType] is a string; the two supported ones. *)
Definition MarketTypeStandard : string := "STANDARD".
Definition MarketTypeNegRisk : string := "NEG_RISK".

Section markets.
Context `{U : UnicodeTables}.

Definition unsupported_market (value : string) : GoError :=
  errors_New ("polymarket: unsupported market type " +:+ strconv_Quote value).

Definition ParseMarketType (value : string) : result GoError string :=
  if String.eqb value MarketTypeStandard || String.eqb value MarketTypeNegRisk then Ok value
  else Err (unsupported_market value).

Definition ExchangeAddress (marketType : string) : result GoError string :=
  if String.eqb marketType MarketTypeStandard then Ok StandardExchangeAddress
  else if String.eqb marketType MarketTypeNegRisk then Ok NegRiskExchangeAddress
  else Err (unsupported_market marketType).

Definition IsNegRisk (marketType : string) : result GoError bool :=
  if String.eqb marketType MarketTypeStandard then Ok false
  else if String.eqb marketType MarketTypeNegRisk then Ok true
  else Err (unsupported_market marketType).

Definition Exchange `{AB : Abi} (marketType : string) : result GoError Address :=
  if String.eqb marketType MarketTypeStandard then Ok (HexToAddress StandardExchangeAddress)
  else if String.eqb marketType MarketTypeNegRisk then Ok (HexToAddress NegRiskExchangeAddress)
  else Err (unsupported_market marketType).
End markets.

(** ** Amounts *)

Definition OrderSignatureTypePoly1271 : Z := 3.
Definition OrderDomainName : string := "Polymarket CTF Exchange".
Definition OrderDomainVersion : string := "2".
Definition OrderPriceScaleE6 : Z := 1000000.
Definition OrderSizeGridE6 : Z := 10000.
Definition MaxSafeOrderSalt : Z := 2 ^ 53 - 1.
Definition maxUint256DecimalDigits : nat := 78.
Definition OrderSideBuy : Z := 0.
Definition OrderSideSell : Z := 1.

(** [v.BitLen()]: the bits of the absolute value. *)
Definition BitLen (v : Z) : Z := if v =? 0 then 0 else Z.log2 (Z.abs v) + 1.

Definition err_side := errors_New "polymarket: side must be BUY or SELL".
Definition err_price_size := errors_New "polymarket: price and size must be positive and bounded".
Definition err_uint256 := errors_New "polymarket: normalized amounts exceed uint256".

(** [big.Int.Div] is Euclidean: floor for a positive divisor. *)
Definition NormalizeOrderAmounts (side priceE6 : Z) (sizeE6 : option Z) : result GoError (Z * Z) :=
  if negb (side =? OrderSideBuy) && negb (side =? OrderSideSell) then Err err_side
  else
    match sizeE6 with
    | None => Err err_price_size
    | Some size =>
        if (priceE6 =? 0) || (OrderPriceScaleE6 <=? priceE6) || (size <=? 0) || (256 <? BitLen size) then
          Err err_price_size
        else
          let product := priceE6 * size in
          if side =? OrderSideBuy then
            let maker := (product + (OrderPriceScaleE6 - 1)) / OrderPriceScaleE6 in
            if 256 <? BitLen maker then Err err_uint256 else Ok (maker, size)
          else
            let taker := product / OrderPriceScaleE6 in
            if (taker <=? 0) || (256 <? BitLen taker) then Err err_uint256 else Ok (size, taker)
    end.

Definition SupportedTickSizeE6 (tickSizeE6 : Z) : bool :=
  existsb (Z.eqb tickSizeE6) [100000; 10000; 5000; 2500; 1000; 100].

Definition IsCanonicalUint256 (raw : string) (allowZero : bool) : bool :=
  if String.eqb raw "" || (maxUint256DecimalDigits <? slen raw)%nat || negb (String.eqb (TrimSpace raw) raw) ||
     ((1 <? slen raw)%nat && HasPrefix raw "0") then false
  else
    match SetString10 raw with
    | None => false
    | Some value => if (value <? 0) || (256 <? BitLen value) then false else allowZero || (0 <? value)
    end.

(** [strings.ContainsAny(s, "eE+")] *)
Definition has_exponent_or_plus (s : string) : bool :=
  negb (sforall (fun c => negb (byte_in 101 101 c || byte_in 69 69 c || byte_in 43 43 c)) s).

Definition ParseFixedPoint (raw : string) (decimals : Z) : result GoError Z :=
  if (decimals <? 0) || (256 <? decimals) || String.eqb raw "" ||
     (Z.of_nat maxUint256DecimalDigits + decimals + 1 <? Z.of_nat (slen raw)) ||
     negb (String.eqb (TrimSpace raw) raw) || has_exponent_or_plus raw then
    Err (errors_New "decimal must be canonical fixed point")
  else
    let go whole fraction :=
      if negb (all_digits (whole +:+ fraction)) then Err (errors_New "decimal contains non-digits")
      else
        match SetString10 (whole +:+ fraction +:+ Repeat "0" (Z.to_nat decimals - slen fraction)) with
        | None => Err (errors_New "decimal is invalid")
        | Some value => if 256 <? BitLen value then Err (errors_New "decimal exceeds uint256 bounds") else Ok value
        end in
    match Split "."%char raw with
    | [whole] =>
        if String.eqb whole "" then Err (errors_New "decimal is malformed")
        else if (1 <? slen whole)%nat && HasPrefix whole "0" then Err (errors_New "decimal has leading zeroes")
        else go whole ""
    | [whole; fraction] =>
        if String.eqb whole "" then Err (errors_New "decimal is malformed")
        else if (1 <? slen whole)%nat && HasPrefix whole "0" then Err (errors_New "decimal has leading zeroes")
        else if String.eqb fraction "" || (decimals <? Z.of_nat (slen fraction)) then
          Err (errors_New "decimal precision exceeds scale")
        else go whole fraction
    | _ => Err (errors_New "decimal is malformed")
    end.

Definition parseUint256 (raw : string) : result GoError Z :=
  match SetString10 raw with
  | Some value =>
      if (value <=? 0) || (256 <? BitLen value) then Err (errors_New "polymarket: order amount field is invalid")
      else Ok value
  | None => Err (errors_New "polymarket: order amount field is invalid")
  end.

Definition DecimalToE6 (raw : string) : result GoError Z :=
  match ParseFixedPoint raw 6 with
  | Ok value => if (value <? 0) || negb (bool_decide (is_u64 value)) then Err (errors_New "decimal is outside uint64 e6 bounds") else Ok value
  | Err _ => Err (errors_New "decimal is outside uint64 e6 bounds")
  end.

(** ** Orders *)

Section orders.
Context `{U : UnicodeTables} `{G : GoEthereum} `{AB : !Abi}.

Record Order := mkOrder {
  Salt : Z; Maker : Address; OSigner : Address; TokenID : string; MakerAmount : string; TakerAmount : string;
  Side : Z; SignatureType : Z; Timestamp : Z; Metadata : Hash; Builder : Hash;
}.

Record BuildOrderInput := mkInput {
  i_Salt : Z; i_Maker : Address; i_Signer : Address; i_TokenID : option Z; i_PriceE6 : Z; i_SizeE6 : option Z;
  i_TickSizeE6 : Z; i_Side : Z; i_SignatureType : Z; i_Timestamp : Z; i_Metadata : Hash; i_Builder : Hash;
}.

(** [v == nil || v.Sign() <= 0 || v.BitLen() > 256] *)
Definition not_positive_uint256 (v : option Z) : bool :=
  match v with None => true | Some v => (v <=? 0) || (256 <? BitLen v) end.

(** [Validate]: the first error, or none. *)
Definition Validate (o : Order) : option GoError :=
  if bool_decide (Maker o = address_zero) || bool_decide (OSigner o = address_zero) then
    Some (errors_New "polymarket: maker and signer are required")
  else if MaxSafeOrderSalt <? Salt o then Some (errors_New "polymarket: salt exceeds Number.MAX_SAFE_INTEGER")
  else if negb (IsCanonicalUint256 (TokenID o) false) || negb (IsCanonicalUint256 (MakerAmount o) false) ||
          negb (IsCanonicalUint256 (TakerAmount o) false) then
    Some (errors_New "polymarket: order amount field is invalid")
  else if negb (Side o =? OrderSideBuy) && negb (Side o =? OrderSideSell) then
    Some (errors_New "polymarket: side is invalid")
  else if negb (SignatureType o =? OrderSignatureTypePoly1271) then
    Some (errors_New "polymarket: signature type must be POLY_1271")
  else if (Timestamp o =? 0) || (2 ^ 63 - 1 <? Timestamp o) then Some (errors_New "polymarket: timestamp is invalid")
  else None.

Definition BuildOrder (input : BuildOrderInput) : result GoError Order :=
  if bool_decide (i_Maker input = address_zero) || bool_decide (i_Signer input = address_zero) then
    Err (errors_New "polymarket: maker and signer are required")
  else if not_positive_uint256 (i_TokenID input) then
    Err (errors_New "polymarket: token_id must be a positive uint256")
  else if (i_PriceE6 input =? 0) || (OrderPriceScaleE6 <=? i_PriceE6 input) then
    Err (errors_New "polymarket: price_e6 must be between 1 and 999999")
  else if not_positive_uint256 (i_SizeE6 input) then
    Err (errors_New "polymarket: size_e6 must be a positive uint256")
  else if negb (default 0 (i_SizeE6 input) mod OrderSizeGridE6 =? 0) then
    Err (errors_New "polymarket: size_e6 must use at most two decimal places")
  else if negb (SupportedTickSizeE6 (i_TickSizeE6 input)) || negb (i_PriceE6 input mod i_TickSizeE6 input =? 0) then
    Err (errors_New ("polymarket: price_e6 " +:+ pretty (i_PriceE6 input) +:+ " is not on supported tick-size grid " +:+
           pretty (i_TickSizeE6 input)))
  else if negb (i_Side input =? OrderSideBuy) && negb (i_Side input =? OrderSideSell) then Err err_side
  else if negb (i_SignatureType input =? OrderSignatureTypePoly1271) then
    Err (errors_New "polymarket: signature type must be POLY_1271")
  else if MaxSafeOrderSalt <? i_Salt input then Err (errors_New "polymarket: salt exceeds Number.MAX_SAFE_INTEGER")
  else if (i_Timestamp input =? 0) || (2 ^ 63 - 1 <? i_Timestamp input) then
    Err (errors_New "polymarket: timestamp is invalid")
  else
    let? (makerAmount, takerAmount) := NormalizeOrderAmounts (i_Side input) (i_PriceE6 input) (i_SizeE6 input) in
    let order :=
      {| Salt := i_Salt input; Maker := i_Maker input; OSigner := i_Signer input;
         TokenID := big_String (default 0 (i_TokenID input)); MakerAmount := big_String makerAmount;
         TakerAmount := big_String takerAmount; Side := i_Side input; SignatureType := i_SignatureType input;
         Timestamp := i_Timestamp input; Metadata := i_Metadata input; Builder := i_Builder input |} in
    match Validate order with Some err => Err err | None => Ok order end.

Definition keccak_text (s : string) : Hash := Keccak256Hash (String.list_byte_of_string s).

Definition orderTypeHash : Hash := keccak_text
  "Order(uint256 salt,address maker,address signer,uint256 tokenId,uint256 makerAmount,uint256 takerAmount,uint8 side,uint8 signatureType,uint256 timestamp,bytes32 metadata,bytes32 builder)".
Definition domainTypeHash : Hash := keccak_text
  "EIP712Domain(string name,string version,uint256 chainId,address verifyingContract)".
Definition orderProtocolName : Hash := keccak_text OrderDomainName.
Definition orderProtocolV2 : Hash := keccak_text OrderDomainVersion.

Definition domain_types : list AbiType := [T_bytes32; T_bytes32; T_bytes32; T_uint256; T_address].
Definition order_types : list AbiType :=
  [T_bytes32; T_uint256; T_address; T_address; T_uint256; T_uint256; T_uint256; T_uint8; T_uint8; T_uint256;
   T_bytes32; T_bytes32].

Definition domain_values (exchange : Address) : list AbiValue :=
  [V_bytes32 domainTypeHash; V_bytes32 orderProtocolName; V_bytes32 orderProtocolV2; V_uint256 PolygonChainID;
   V_address exchange].

Definition order_values (o : Order) (tokenID makerAmount takerAmount : Z) : list AbiValue :=
  [V_bytes32 orderTypeHash; V_uint256 (Salt o); V_address (Maker o); V_address (OSigner o); V_uint256 tokenID;
   V_uint256 makerAmount; V_uint256 takerAmount; V_uint8 (Side o); V_uint8 (SignatureType o); V_uint256 (Timestamp o);
   V_bytes32 (Metadata o); V_bytes32 (Builder o)].

Definition wrap_error {X} (pre : string) (r : result GoError X) : result GoError X :=
  match r with Ok x => Ok x | Err e => Err (Errorf_w pre e "") end.

Definition Order_Hash (o : Order) (marketType : string) : result GoError Hash :=
  match Validate o with
  | Some err => Err err
  | None =>
      let? exchange := Exchange marketType in
      let? domainEncoded := wrap_error "polymarket: encoding EIP-712 domain: " (Pack domain_types (domain_values exchange)) in
      let? tokenID := parseUint256 (TokenID o) in
      let? makerAmount := parseUint256 (MakerAmount o) in
      let? takerAmount := parseUint256 (TakerAmount o) in
      let? orderEncoded := wrap_error "polymarket: encoding EIP-712 order: "
                             (Pack order_types (order_values o tokenID makerAmount takerAmount)) in
      Ok (Keccak256Hash ([x19; x01] ++ Hash_Bytes (Keccak256Hash domainEncoded) ++ Hash_Bytes (Keccak256Hash orderEncoded)))
  end.
End orders.

(** ** Amount theorems *)

Lemma BitLen_256 v : 0 <= v -> (256 <? BitLen v) = negb (v <? 2 ^ 256).
Proof.
  intros Hv. unfold BitLen. destruct (Z.eqb_spec v 0) as [->|Hn]; [reflexivity|]. rewrite Z.abs_eq by lia.
  pose proof (Z.log2_lt_pow2 v 256 ltac:(lia)) as H. destruct (Z.ltb_spec v (2 ^ 256)); simpl; lia.
Qed.

(** The printed text of a positive uint256 is canonical. *)
Lemma canonical_big_String v : 0 < v < 2 ^ 256 -> IsCanonicalUint256 (big_String v) false = true.
Proof.
  intros Hv. unfold IsCanonicalUint256. destruct (big_String_spec v ltac:(lia)) as (H1 & H2 & H3).
  destruct (big_String_len v ltac:(lia)) as [H4 H5]. apply String.eqb_neq in H3. rewrite H3. simpl.
  assert (Hl : (slen (big_String v) <= 78)%nat).
  { destruct (Nat.le_gt_cases (slen (big_String v)) 78) as [|Hgt]; [done|]. exfalso.
    assert (10 ^ 78 <= 10 ^ (Z.of_nat (slen (big_String v)) - 1)) by (apply Z.pow_le_mono_r; lia).
    assert (2 ^ 256 < 10 ^ 78) by (vm_compute; reflexivity). lia. }
  unfold maxUint256DecimalDigits. destruct (Nat.ltb_spec 78 (slen (big_String v))); [lia|].
  rewrite TrimSpace_plain by by apply digits_plain. rewrite String.eqb_refl. simpl.
  rewrite big_String_canonical, andb_false_r by lia. rewrite SetString10_String, BitLen_256 by lia.
  destruct (v <? 0) eqn:?, (v <? 2 ^ 256) eqn:?; simpl; lia.
Qed.

Definition in_range_price (p : Z) : Prop := 0 < p < OrderPriceScaleE6.
Definition is_side (side : Z) : Prop := side = OrderSideBuy \/ side = OrderSideSell.

(** The signed amounts never favour the counterparty by more than a unit and
    never round the wrong way: a buyer pays the product rounded up for exactly
    the size, a seller gives exactly the size for the product rounded down; both
    amounts are positive 256-bit integers, and a sale worth less than one unit is
    refused. *)
Theorem NormalizeOrderAmounts_spec side p size
    (Hs : is_side side) (Hp : in_range_price p) (Hz : 0 < size < 2 ^ 256) :
  match NormalizeOrderAmounts side p (Some size) with
  | Ok (maker, taker) =>
      0 < maker < 2 ^ 256 /\ 0 < taker < 2 ^ 256 /\
      if side =? OrderSideBuy
      then taker = size /\ maker <= size /\ (maker - 1) * OrderPriceScaleE6 < p * size <= maker * OrderPriceScaleE6
      else maker = size /\ taker * OrderPriceScaleE6 <= p * size < (taker + 1) * OrderPriceScaleE6
  | Err _ => side = OrderSideSell /\ p * size < OrderPriceScaleE6
  end.
Proof.
  unfold in_range_price, NormalizeOrderAmounts, OrderPriceScaleE6 in *.
  rewrite !BitLen_256 by (try apply Z.div_pos; nia).
  set (x := p * size). assert (Hx : 0 < x < 1000000 * size) by (unfold x; nia).
  pose proof (Z.div_mod (x + 999999) 1000000 ltac:(lia)). pose proof (Z.mod_pos_bound (x + 999999) 1000000 ltac:(lia)).
  pose proof (Z.div_mod x 1000000 ltac:(lia)). pose proof (Z.mod_pos_bound x 1000000 ltac:(lia)).
  change (1000000 - 1) with 999999.
  destruct Hs as [-> | ->]; simpl; destruct (Z.eqb_spec p 0), (Z.leb_spec 1000000 p), (Z.leb_spec size 0),
    (Z.ltb_spec size (2 ^ 256)); simpl; try lia.
  - destruct (Z.ltb_spec ((x + 999999) / 1000000) (2 ^ 256)); simpl; lia.
  - destruct (Z.leb_spec (x / 1000000) 0), (Z.ltb_spec (x / 1000000) (2 ^ 256)); simpl; lia.
Qed.

Section order_theory.
Context `{U : UnicodeTables} `{G : GoEthereum} `{AB : !Abi}.

(** What [BuildOrder] asks of its input. *)
Record valid_input (i : BuildOrderInput) (token size : Z) : Prop := {
  vi_maker : i_Maker i <> address_zero;
  vi_signer : i_Signer i <> address_zero;
  vi_token : i_TokenID i = Some token;
  vi_token_range : 0 < token < 2 ^ 256;
  vi_price : in_range_price (i_PriceE6 i);
  vi_size : i_SizeE6 i = Some size;
  vi_size_range : 0 < size < 2 ^ 256;
  vi_grid : size mod OrderSizeGridE6 = 0;
  vi_tick : SupportedTickSizeE6 (i_TickSizeE6 i) = true;
  vi_on_tick : i_PriceE6 i mod i_TickSizeE6 i = 0;
  vi_side : is_side (i_Side i);
  vi_type : i_SignatureType i = OrderSignatureTypePoly1271;
  vi_salt : i_Salt i <= MaxSafeOrderSalt;
  vi_time : 0 < i_Timestamp i < 2 ^ 63;
}.

Lemma not_positive_uint256_false v : not_positive_uint256 v = false <-> exists n, v = Some n /\ 0 < n < 2 ^ 256.
Proof.
  destruct v as [n|]; simpl; [|split; [done|intros (? & ? & _); done]]. split.
  - intros [H1 H2]%orb_false_iff. exists n. split; [done|]. rewrite BitLen_256 in H2 by lia.
    destruct (Z.ltb_spec n (2 ^ 256)); simpl in H2; lia.
  - intros (m & [= <-] & H). rewrite BitLen_256 by lia. destruct (Z.ltb_spec n (2 ^ 256)); simpl; lia.
Qed.

(** A price on a supported tick times a size on the grid is worth a unit. *)
Lemma tick_price p tick : 0 < p -> SupportedTickSizeE6 tick = true -> p mod tick = 0 -> 100 <= p.
Proof.
  unfold SupportedTickSizeE6. simpl. intros Hp Ht Hm.
  assert (0 < tick /\ 100 <= tick) as [H1 H2] by lia.
  pose proof (Z.div_mod p tick ltac:(lia)). assert (0 < p / tick) by nia. nia.
Qed.

(** C23: A build succeeds exactly on valid inputs, and never fails late: once the
    inputs are on the price and size grids the amounts are representable and the
    order passes its own validation. *)
Theorem BuildOrder_complete i (Hprice : 0 <= i_PriceE6 i) (Htime : 0 <= i_Timestamp i) :
  (forall token size, valid_input i token size -> exists o, BuildOrder i = Ok o) /\
  (forall o, BuildOrder i = Ok o -> exists token size maker taker, valid_input i token size /\
     NormalizeOrderAmounts (i_Side i) (i_PriceE6 i) (Some size) = Ok (maker, taker) /\ Validate o = None /\
     Maker o = i_Maker i /\ OSigner o = i_Signer i /\ Side o = i_Side i /\
     SetString10 (TokenID o) = Some token /\ SetString10 (MakerAmount o) = Some maker /\
     SetString10 (TakerAmount o) = Some taker).
Proof.
  unfold BuildOrder. split.
  - intros token size V. destruct V.
    rewrite (bool_decide_eq_false_2 _ vi_maker0), (bool_decide_eq_false_2 _ vi_signer0). simpl.
    assert (Ht : not_positive_uint256 (i_TokenID i) = false) by (apply not_positive_uint256_false; eauto).
    assert (Hz : not_positive_uint256 (i_SizeE6 i) = false) by (apply not_positive_uint256_false; eauto).
    rewrite Ht, Hz, vi_size0, vi_token0. simpl. unfold in_range_price, is_side in *.
    replace (i_PriceE6 i =? 0) with false by lia. replace (OrderPriceScaleE6 <=? i_PriceE6 i) with false by lia.
    rewrite vi_grid0, vi_tick0, vi_on_tick0, vi_type0. simpl.
    replace (negb (i_Side i =? OrderSideBuy) && negb (i_Side i =? OrderSideSell)) with false by lia.
    replace (MaxSafeOrderSalt <? i_Salt i) with false by lia.
    replace ((i_Timestamp i =? 0) || (2 ^ 63 - 1 <? i_Timestamp i)) with false by lia.
    pose proof (NormalizeOrderAmounts_spec (i_Side i) (i_PriceE6 i) size ltac:(done) ltac:(done) ltac:(done)) as N.
    destruct (NormalizeOrderAmounts (i_Side i) (i_PriceE6 i) (Some size)) as [[maker taker]|e]; simpl.
    + destruct N as (Hm & Hk & _).
      unfold Validate; simpl. rewrite (bool_decide_eq_false_2 _ vi_maker0), (bool_decide_eq_false_2 _ vi_signer0).
      rewrite !canonical_big_String by done. simpl.
      replace (negb (i_Side i =? OrderSideBuy) && negb (i_Side i =? OrderSideSell)) with false by lia.
      replace (MaxSafeOrderSalt <? i_Salt i) with false by lia.
      replace ((i_Timestamp i =? 0) || (2 ^ 63 - 1 <? i_Timestamp i)) with false by lia. simpl. by eexists.
    + exfalso. pose proof (tick_price (i_PriceE6 i) _ ltac:(lia) vi_tick0 vi_on_tick0). unfold OrderPriceScaleE6, OrderSizeGridE6 in *.
      pose proof (Z.div_mod size 10000 ltac:(lia)). assert (10000 <= size) by lia. nia.
  - intros o H.
    destruct (bool_decide (i_Maker i = address_zero) || _) eqn:E1; [done|].
    apply orb_false_iff in E1 as [E1%bool_decide_eq_false E2%bool_decide_eq_false].
    destruct (not_positive_uint256 (i_TokenID i)) eqn:E3; [done|].
    apply not_positive_uint256_false in E3 as (token & Et & Rt).
    destruct ((i_PriceE6 i =? 0) || _) eqn:E4; [done|].
    destruct (not_positive_uint256 (i_SizeE6 i)) eqn:E5; [done|].
    apply not_positive_uint256_false in E5 as (size & Es & Rs). rewrite Es, Et in *. simpl in H.
    destruct (Z.eqb_spec (size mod OrderSizeGridE6) 0) as [E6|]; [|done]. simpl in H.
    destruct (SupportedTickSizeE6 (i_TickSizeE6 i)) eqn:E7; [|done]. simpl in H.
    destruct (Z.eqb_spec (i_PriceE6 i mod i_TickSizeE6 i) 0) as [E8|]; [|done]. simpl in H.
    destruct (negb (i_Side i =? OrderSideBuy) && _) eqn:E9; [done|].
    destruct (Z.eqb_spec (i_SignatureType i) OrderSignatureTypePoly1271) as [E10|]; [|done]. simpl in H.
    destruct (MaxSafeOrderSalt <? i_Salt i) eqn:E11; [done|].
    destruct ((i_Timestamp i =? 0) || _) eqn:E12; [done|].
    destruct (NormalizeOrderAmounts (i_Side i) (i_PriceE6 i) (Some size)) as [[maker taker]|e] eqn:EN; [|done]. simpl in H.
    destruct (Validate _) as [err|] eqn:EV; [done|]. injection H as <-.
    exists token, size, maker, taker. unfold in_range_price, is_side.
    split; [by split; try done; unfold in_range_price, is_side; lia|]. rewrite EV. simpl. rewrite !SetString10_String. done.
Qed.
(** *** The signed digest *)

Lemma parseUint256_spec raw v : parseUint256 raw = Ok v -> SetString10 raw = Some v /\ 0 < v < 2 ^ 256.
Proof.
  unfold parseUint256. destruct (SetString10 raw) as [n|]; [|done].
  destruct ((n <=? 0) || (256 <? BitLen n)) eqn:E; [done|]. intros [= <-]. split; [done|].
  apply orb_false_iff in E as [E1 E2]. rewrite BitLen_256 in E2 by lia. destruct (Z.ltb_spec n (2 ^ 256)); simpl in E2; lia.
Qed.

Lemma wrap_error_Ok {X} pre (r : result GoError X) x : wrap_error pre r = Ok x -> r = Ok x.
Proof. destruct r; simpl; congruence. Qed.

Context `{PL : !AbiPackLaws}.

(** What an order's digest was computed from. *)
Lemma Order_Hash_inv o mt h : 0 <= Salt o -> 0 <= Timestamp o -> Order_Hash o mt = Ok h ->
  exists exchange t m k dom enc, Exchange mt = Ok exchange /\
    SetString10 (TokenID o) = Some t /\ SetString10 (MakerAmount o) = Some m /\ SetString10 (TakerAmount o) = Some k /\
    Forall2 fits (order_values o t m k) order_types /\
    Pack domain_types (domain_values exchange) = Ok dom /\ Pack order_types (order_values o t m k) = Ok enc /\
    h = Keccak256Hash ([x19; x01] ++ Hash_Bytes (Keccak256Hash dom) ++ Hash_Bytes (Keccak256Hash enc)).
Proof.
  intros Hs Ht. unfold Order_Hash. destruct (Validate o) eqn:V; [done|].
  intros (ex & E1 & H)%result_bind_Ok. apply result_bind_Ok in H as (dom & E2%wrap_error_Ok & H).
  apply result_bind_Ok in H as (t & [E3 R3]%parseUint256_spec & H).
  apply result_bind_Ok in H as (m & [E4 R4]%parseUint256_spec & H).
  apply result_bind_Ok in H as (k & [E5 R5]%parseUint256_spec & H).
  apply result_bind_Ok in H as (enc & E6%wrap_error_Ok & [= <-]).
  exists ex, t, m, k, dom, enc. split_and!; try done.
  unfold Validate in V. repeat (case_match; [done|]).
  unfold order_values, order_types, MaxSafeOrderSalt, OrderSideBuy, OrderSideSell, OrderSignatureTypePoly1271 in *.
  repeat apply Forall2_cons_2; try done; simpl; lia.
Qed.

Lemma Forall2_domain ex : Forall2 fits (domain_values ex) domain_types.
Proof. unfold domain_values, domain_types, PolygonChainID. repeat apply Forall2_cons_2; try done; simpl; lia. Qed.

(** The encodings of the domain and of the order that are hashed, and the message
    of their hashes. *)
Definition encoded (o : Order) (mt : string) (dom enc : bytes) : Prop :=
  exists exchange t m k, Exchange mt = Ok exchange /\
    SetString10 (TokenID o) = Some t /\ SetString10 (MakerAmount o) = Some m /\ SetString10 (TakerAmount o) = Some k /\
    Pack domain_types (domain_values exchange) = Ok dom /\ Pack order_types (order_values o t m k) = Ok enc.
Definition order_message (dom enc : bytes) : bytes := [x19; x01] ++ Hash_Bytes (Keccak256Hash dom) ++ Hash_Bytes (Keccak256Hash enc).

(** A digest binds the order: two orders with the same EIP-712 digest agree
    on the exchange and on every signed field (amounts and token as numbers), or
    Keccak-256 collides on their domains, their encodings or their messages. *)
Theorem Order_Hash_binds o o' mt mt' h (Hs : 0 <= Salt o) (Ht : 0 <= Timestamp o) (Hs' : 0 <= Salt o') (Ht' : 0 <= Timestamp o')
    (H : Order_Hash o mt = Ok h) (H' : Order_Hash o' mt' = Ok h) :
  exists dom enc dom' enc', encoded o mt dom enc /\ encoded o' mt' dom' enc' /\ h = Keccak256Hash (order_message dom enc) /\
  ((Exchange mt = Exchange mt' /\ Salt o = Salt o' /\ Maker o = Maker o' /\ OSigner o = OSigner o' /\
   SetString10 (TokenID o) = SetString10 (TokenID o') /\ SetString10 (MakerAmount o) = SetString10 (MakerAmount o') /\
   SetString10 (TakerAmount o) = SetString10 (TakerAmount o') /\ Side o = Side o' /\
   Timestamp o = Timestamp o' /\ Metadata o = Metadata o' /\ Builder o = Builder o') \/
  collide dom dom' \/ collide enc enc' \/ collide (order_message dom enc) (order_message dom' enc')).
Proof.
  destruct (Order_Hash_inv o mt h Hs Ht H) as (ex & t & m & k & dom & enc & E1 & E2 & E3 & E4 & F & P1 & P2 & Eh).
  destruct (Order_Hash_inv o' mt' h Hs' Ht' H') as (ex' & t' & m' & k' & dom' & enc' & E1' & E2' & E3' & E4' & F' & P1' & P2' & Eh').
  exists dom, enc, dom', enc'. split; [by exists ex, t, m, k|]. split; [by exists ex', t', m', k'|]. split; [done|].
  destruct (collide_or_equal _ _ (eq_trans (eq_sym Eh) Eh')) as [E|]; [|by right; right; right].
  injection E as E. apply app_inj_1 in E as [Ed%Hash_Bytes_inj Ee%Hash_Bytes_inj]; [|by rewrite !Hash_Bytes_len].
  destruct (collide_or_equal _ _ Ed) as [<-|]; [|by right; left].
  destruct (collide_or_equal _ _ Ee) as [<-|]; [|by right; right; left]. left.
  pose proof (Pack_inj _ _ _ _ (Forall2_domain ex) (Forall2_domain ex') P1 P1') as Hd. injection Hd as <-.
  pose proof (Pack_inj _ _ _ _ F F' P2 P2') as Ho. injection Ho as ?????. by split_and!; congruence.
Qed.
End order_theory.

(** ** Fixed-point text *)

(** A sign is accepted where a canonical number should have none. *)
Lemma IsCanonicalUint256_sign : IsCanonicalUint256 "+5" false = true /\ IsCanonicalUint256 "-0" true = true.
Proof. split; vm_compute; reflexivity. Qed.

Lemma Split_no_point s : sforall (fun c => negb (Ascii.eqb "."%char c)) s = true -> Split "."%char s = [s].
Proof.
  induction s as [|c s IH]; [done|]. cbn [sforall Split]. intros [Hc Hs]%andb_true_iff.
  apply negb_true_iff in Hc. by rewrite Hc, IH.
Qed.

Lemma Split_app_point s t : sforall (fun c => negb (Ascii.eqb "."%char c)) s = true ->
  Split "."%char (s +:+ String "." t) = s :: Split "."%char t.
Proof.
  induction s as [|c s IH]; [done|]. cbn [sforall]. intros [Hc Hs]%andb_true_iff. apply negb_true_iff in Hc.
  change (String c s +:+ String "." t) with (String c (s +:+ String "." t)). cbn [Split]. by rewrite Hc, IH.
Qed.

Lemma Split_join s : match Split "."%char s with
  | [] => False
  | [a] => s = a /\ sforall (fun c => negb (Ascii.eqb "."%char c)) a = true
  | a :: rest => exists t, s = a +:+ String "." t /\ Split "."%char t = rest /\ sforall (fun c => negb (Ascii.eqb "."%char c)) a = true
  end.
Proof.
  induction s as [|c s IH]; [done|]. cbn [Split]. destruct (Ascii.eqb_spec "."%char c) as [<-|Hc].
  - destruct (Split "."%char s) as [|a rest] eqn:E; [done|]. by exists s.
  - apply Ascii.eqb_neq in Hc. destruct (Split "."%char s) as [|a [|b rest]]; [done| |].
    + destruct IH as [-> H]. split; [done|]. cbn [sforall]. by rewrite Hc, H.
    + destruct IH as (t & -> & Ht & H). exists t. split; [done|]. split; [done|]. cbn [sforall]. by rewrite Hc, H.
Qed.

Lemma digits_no_point s : all_digits s = true -> sforall (fun c => negb (Ascii.eqb "."%char c)) s = true.
Proof.
  apply sforall_impl. intros c. destruct c as [[] [] [] [] [] [] [] []]; vm_compute; first [discriminate|done].
Qed.

(** The strict parser agrees with the general one: whatever text
    [ParseFixedPoint] accepts, [units.Parse] reads as the same amount, and it is
    an unsigned 256-bit integer. *)
Theorem ParseFixedPoint_agrees raw decimals v (H : ParseFixedPoint raw decimals = Ok v) :
  Parse raw (Z.to_nat decimals) = Ok v /\ 0 <= v < 2 ^ 256.
Proof.
  revert H. unfold ParseFixedPoint.
  destruct ((decimals <? 0) || _ || _ || _ || _ || has_exponent_or_plus raw) eqn:G; [done|].
  assert (Hd : 0 <= decimals) by lia. clear G.
  assert (Hgo : forall whole fraction, raw = (if String.eqb fraction "" then whole else whole +:+ "." +:+ fraction) ->
     whole <> "" -> (slen fraction <= Z.to_nat decimals)%nat ->
    (if negb (all_digits (whole +:+ fraction)) then Err (errors_New "decimal contains non-digits")
     else match SetString10 (whole +:+ fraction +:+ Repeat "0" (Z.to_nat decimals - slen fraction)) with
          | None => Err (errors_New "decimal is invalid")
          | Some value => if 256 <? BitLen value then Err (errors_New "decimal exceeds uint256 bounds") else Ok value
          end) = Ok v -> Parse raw (Z.to_nat decimals) = Ok v /\ 0 <= v < 2 ^ 256).
  { intros whole fraction -> Hne Hl. rewrite all_digits_app. destruct (all_digits whole) eqn:Hw; [|done].
    destruct (all_digits fraction) eqn:Hf; [|done]. simpl.
    set (t := whole +:+ fraction +:+ _).
    assert (Ht : all_digits t = true) by by unfold t; rewrite !all_digits_app, Hw, Hf, all_digits_zeros.
    rewrite SetString10_digits; [|by unfold t; destruct whole|done].
    pose proof (digits_value_bounds t Ht) as B. rewrite BitLen_256 by lia.
    destruct (Z.ltb_spec (digits_value t) (2 ^ 256)); [|done]. simpl. intros [= <-]. split; [|lia].
    exact (Parse_digits false whole fraction (Z.to_nat decimals) Hne Hw Hf Hl). }
  pose proof (Split_join raw) as J. destruct (Split "."%char raw) as [|whole [|fraction [|]]]; [done| | |done].
  - destruct J as [J _]. destruct (String.eqb_spec whole ""); [done|]. destruct ((1 <? slen whole)%nat && _); [done|].
    by apply (Hgo whole ""); [..|simpl; lia].
  - destruct J as (t & J & E & _). pose proof (Split_join t) as Jt. rewrite E in Jt. destruct Jt as [-> _].
    destruct (String.eqb_spec whole ""); [done|]. destruct ((1 <? slen whole)%nat && _); [done|].
    destruct (String.eqb_spec fraction "") as [|Hfr]; [done|]. simpl.
    destruct (decimals <? Z.of_nat (slen fraction)) eqn:?; [done|]. apply Hgo; [|done|lia].
    apply String.eqb_neq in Hfr. by rewrite Hfr.
Qed.
