(* ===== verification/PolymarketTypes.v ===== *)
(** * The CLOB's data (providers/polymarket/types.go)

    Requests and responses of the Polymarket CLOB: the records, how a JSON
    document fills them, and their [Validate] methods, in the order the code
    checks.  [AcceptingOrdersAt] goes through [time.Time]'s own decoder.  A book
    is decoded afresh, also where a document repeats the key. *)
From Stdlib Require Import Ascii.
From S2P Require Export Json Polymarket.
Local Open Scope Z_scope.
Local Open Scope go_scope.

(** ** Lexical checks *)

Definition hex_char (c : Ascii.ascii) : bool := byte_in 48 57 c || byte_in 97 102 c || byte_in 65 70 c.
Definition isHex (value : string) : bool := sforall hex_char value && negb (String.eqb value "").

(** [strings.Trim(value, "0") != ""] *)
Definition not_all_zeros (value : string) : bool := negb (sforall (Ascii.eqb "0"%char) value).

Definition isAddress (value : string) : bool :=
  if negb (slen value =? 42)%nat || negb (HasPrefix value "0x") then false
  else isHex (sdrop 2 value) && not_all_zeros (sdrop 2 value).

Definition isHash (value : string) : bool :=
  (slen value =? 66)%nat && HasPrefix value "0x" && isHex (sdrop 2 value) && not_all_zeros (sdrop 2 value).

Definition isHexBytes (value : string) (minimum maximum : nat) : bool :=
  (2 + minimum * 2 <=? slen value)%nat && (slen value <=? 2 + maximum * 2)%nat && (slen value mod 2 =? 0)%nat &&
  HasPrefix value "0x" && isHex (sdrop 2 value).

(** [strings.ContainsAny(s, chars)] for ASCII characters. *)
Definition line_break (c : Ascii.ascii) : bool := byte_in 13 13 c || byte_in 10 10 c.

Definition order_id_char (c : Ascii.ascii) : bool :=
  byte_in 65 90 c || byte_in 97 122 c || byte_in 48 57 c || byte_in 46 46 c || byte_in 95 95 c || byte_in 58 58 c || byte_in 45 45 c.
Definition orderIDPattern (s : string) : bool := sforall order_id_char s && (1 <=? slen s)%nat && (slen s <=? 256)%nat.

Definition kib (n : nat) : nat := (n * 1024)%nat.
#[global] Arguments kib : simpl never.

Section types.
Context `{U : UnicodeTables}.

Definition validateCursor (cursor : string) : option GoError :=
  if (512 <? slen cursor)%nat || negb (String.eqb (TrimSpace cursor) cursor) || negb (sforall (fun c => negb (line_break c)) cursor)
  then Some (errors_New "polymarket: cursor is invalid") else None.

Definition validateOrderID (orderID : string) : option GoError :=
  if negb (orderIDPattern orderID) then Some (errors_New "polymarket: order ID is invalid") else None.

(** ** Balance and allowance *)

Definition BalanceAllowanceCollateral : string := "COLLATERAL".
Definition BalanceAllowanceConditional : string := "CONDITIONAL".
Definition OrderTypeGTC : string := "GTC".
Definition OrderTypeGTD : string := "GTD".
Definition OrderTypeFOK : string := "FOK".
Definition OrderTypeFAK : string := "FAK".

Record BalanceAllowanceUpdate := mkAllowance { u_AssetType : string; u_TokenID : string }.

Definition validate_allowance (u : BalanceAllowanceUpdate) : option GoError :=
  if String.eqb (u_AssetType u) BalanceAllowanceCollateral then
    if negb (String.eqb (u_TokenID u) "") then Some (errors_New "polymarket: collateral allowance update must not include token_id") else None
  else if String.eqb (u_AssetType u) BalanceAllowanceConditional then
    if negb (IsCanonicalUint256 (u_TokenID u) false) then Some (errors_New "polymarket: conditional allowance update requires token_id") else None
  else Some (errors_New "polymarket: balance allowance asset type is invalid").

(** ** Books, tokens and markets *)

Record BookLevel := mkLevel { l_Price : string; l_Size : string }.
Record OrderBook := mkBook {
  ob_Market : string; ob_AssetID : string; ob_Timestamp : string; ob_Bids : list BookLevel; ob_Asks : list BookLevel;
  ob_MinimumOrder : string; ob_NegRisk : bool; ob_TickSize : string; ob_LastTradePrice : string; ob_Hash : string;
}.
Record Token := mkToken { t_TokenID : string; t_Outcome : string; t_Price : string; t_Winner : bool; t_Book : option OrderBook }.
Record Market := mkMarket {
  m_EnableOrderBook : bool; m_Active : bool; m_Closed : bool; m_Archived : bool; m_AcceptingOrders : bool;
  m_AcceptingOrdersAt : option Z; m_MinimumOrderSize : string; m_MinimumTickSize : string; m_ConditionID : string;
  m_QuestionID : string; m_Question : string; m_Description : string; m_Slug : string; m_EndDate : string;
  m_NegRisk : bool; m_NegRiskMarketID : string; m_NegRiskRequestID : string; m_Icon : string; m_Image : string;
  m_Tokens : list Token; m_Tags : list string;
}.
Record MarketPage := mkPage { mp_Data : list Market; mp_NextCursor : string; mp_Limit : Z; mp_Count : Z }.

Definition validate_level (l : BookLevel) : option GoError :=
  match ParseFixedPoint (l_Price l) 6 with
  | Ok price =>
      if (price <=? 0) || (1000000 <=? price) then Some (errors_New "price is invalid")
      else
        match ParseFixedPoint (l_Size l) 6 with
        | Ok size => if size <=? 0 then Some (errors_New "size is invalid") else None
        | Err _ => Some (errors_New "size is invalid")
        end
  | Err _ => Some (errors_New "price is invalid")
  end.

(** The first element that fails, with its position in the error. *)
Fixpoint first_invalid {A} (name : string) (check : A -> option GoError) (index : nat) (l : list A) : option GoError :=
  match l with
  | [] => None
  | x :: l =>
      match check x with
      | Some err => Some (Errorf_w (name +:+ " " +:+ pretty index +:+ ": ") err "")
      | None => first_invalid name check (S index) l
      end
  end.

Definition validate_book (tokenID : string) (b : OrderBook) : option GoError :=
  if negb (isHash (ob_Market b)) || negb (String.eqb (ob_AssetID b) tokenID) then Some (errors_New "book market or asset_id is invalid")
  else if (20000 <? Z.of_nat (length (ob_Bids b))) || (20000 <? Z.of_nat (length (ob_Asks b))) then Some (errors_New "book depth exceeds bounds")
  else
    match first_invalid "bid" validate_level 0 (ob_Bids b) with
    | Some err => Some err
    | None => first_invalid "ask" validate_level 0 (ob_Asks b)
    end.

Definition validate_token (t : Token) : option GoError :=
  if negb (IsCanonicalUint256 (t_TokenID t) false) then Some (errors_New "token_id is invalid")
  else if String.eqb (TrimSpace (t_Outcome t)) "" || (1024 <? slen (t_Outcome t))%nat then Some (errors_New "outcome is invalid")
  else
    match ParseFixedPoint (t_Price t) 6 with
    | Ok price => if (price <? 0) || (1000000 <? price) then Some (errors_New "price is outside [0,1]") else None
    | Err _ => Some (errors_New "price is outside [0,1]")
    end.

(** The loop that validates each element and refuses a second one with its key. *)
Fixpoint first_invalid_or_duplicate {A} (name duplicate : string) (check : A -> option GoError) (key : A -> string)
    (seen : gset string) (index : nat) (l : list A) : option GoError :=
  match l with
  | [] => None
  | x :: l =>
      match check x with
      | Some err => Some (Errorf_w (name +:+ " " +:+ pretty index +:+ ": ") err "")
      | None =>
          if bool_decide (key x ∈ seen) then Some (errors_New (name +:+ " " +:+ pretty index +:+ " duplicates " +:+ duplicate))
          else first_invalid_or_duplicate name duplicate check key ({[key x]} ∪ seen) (S index) l
      end
  end.

Definition validate_market (m : Market) : option GoError :=
  if negb (isHash (m_ConditionID m)) then Some (errors_New "condition_id is invalid")
  else if String.eqb (TrimSpace (m_Question m)) "" || (kib 16 <? slen (m_Question m))%nat then Some (errors_New "question is invalid")
  else if (kib 256 <? slen (m_Description m))%nat || (1024 <? slen (m_Slug m))%nat || (kib 4 <? slen (m_Icon m))%nat || (kib 4 <? slen (m_Image m))%nat then
    Some (errors_New "market text field exceeds bounds")
  else
    match DecimalToE6 (m_MinimumTickSize m) with
    | Err err => Some (Errorf_w "minimum_tick_size: " err "")
    | Ok _ =>
        match DecimalToE6 (m_MinimumOrderSize m) with
        | Err err => Some (Errorf_w "minimum_order_size: " err "")
        | Ok _ =>
            if (length (m_Tokens m) =? 0)%nat || (64 <? length (m_Tokens m))%nat then
              Some (errors_New "tokens must contain between 1 and 64 entries")
            else first_invalid_or_duplicate "token" "token_id" validate_token t_TokenID ∅ 0 (m_Tokens m)
        end
    end.

Definition TickSizeE6 (m : Market) : result GoError Z := DecimalToE6 (m_MinimumTickSize m).
Definition MinimumOrderSizeE6 (m : Market) : result GoError Z := ParseFixedPoint (m_MinimumOrderSize m) 6.
Definition ContainsToken (m : Market) (tokenID : string) : bool := existsb (fun t => String.eqb (t_TokenID t) tokenID) (m_Tokens m).

Definition market_key (m : Market) : string := ToLower (m_ConditionID m).
Definition validate_page (p : MarketPage) : option GoError :=
  if 2000 <? Z.of_nat (length (mp_Data p)) then Some (errors_New "market page exceeds 2000 entries")
  else
    match validateCursor (mp_NextCursor p) with
    | Some err => Some err
    | None => first_invalid_or_duplicate "market" "condition_id" validate_market market_key ∅ 0 (mp_Data p)
    end.
End types.

(** ** Orders on the wire *)

Record SignedOrder `{GoEthereum} := mkSigned { so_Order : Order; so_Signature : string; so_Expiration : Z; so_OrderType : string; so_PostOnly : bool }.
Arguments mkSigned {_} _ _ _ _ _.

Record OrderPlacement := mkPlacement {
  p_Success : bool; p_ErrorMessage : string; p_OrderID : string; p_Status : string; p_TransactionHashes : list string;
  p_TradeIDs : list string; p_MakingAmount : string; p_TakingAmount : string;
}.
Record OpenOrderFilter := mkFilter { f_ConditionID : string; f_TokenID : string; f_OrderID : string; f_NextCursor : string }.
Record OpenOrder := mkOpenOrder {
  oo_ID : string; oo_Status : string; oo_Owner : string; oo_MakerAddress : string; oo_Market : string; oo_AssetID : string;
  oo_Side : string; oo_OriginalSize : string; oo_SizeMatched : string; oo_Price : string; oo_AssociateTrades : list string;
  oo_CreatedAt : Z; oo_Expiration : string; oo_OrderType : string;
}.
Record OpenOrderPage := mkOrderPage { op_Data : list OpenOrder; op_NextCursor : string; op_Limit : Z; op_Count : Z }.
Record CancelResult := mkCancel { c_Canceled : list string; c_NotCanceled : gmap string string }.

Section wire.
Context `{U : UnicodeTables} `{G : GoEthereum} `{AB : !Abi}.

Definition validate_signed (o : SignedOrder) : option GoError :=
  match Validate (so_Order o) with
  | Some err => Some err
  | None =>
      if negb (isHexBytes (so_Signature o) 1 (kib 128)) then Some (errors_New "polymarket: order signature is invalid")
      else
        let post_only :=
          if so_PostOnly o && negb (String.eqb (so_OrderType o) OrderTypeGTC) && negb (String.eqb (so_OrderType o) OrderTypeGTD)
          then Some (errors_New "polymarket: post-only requires GTC or GTD") else None in
        if String.eqb (so_OrderType o) OrderTypeGTD then
          if (so_Expiration o =? 0) || (2 ^ 63 - 1 <? so_Expiration o) then Some (errors_New "polymarket: GTD expiration is invalid") else post_only
        else if String.eqb (so_OrderType o) OrderTypeGTC || String.eqb (so_OrderType o) OrderTypeFOK || String.eqb (so_OrderType o) OrderTypeFAK then
          if negb (so_Expiration o =? 0) then Some (errors_New "polymarket: expiration is only valid for GTD") else post_only
        else Some (errors_New "polymarket: order type is invalid")
  end.

(** [createOrderPayload], as the document [json.Marshal] writes. *)
Definition payload (o : SignedOrder) (owner : string) : json :=
  let order := so_Order o in
  let side := if Side order =? OrderSideSell then "SELL" else "BUY" in
  JObject [
    ("order", JObject [
      ("salt", JNumber (pretty (Salt order)));
      ("maker", JString (ToLower (Address_Hex (Maker order))));
      ("signer", JString (ToLower (Address_Hex (OSigner order))));
      ("tokenId", JString (TokenID order));
      ("makerAmount", JString (MakerAmount order));
      ("takerAmount", JString (TakerAmount order));
      ("side", JString side);
      ("expiration", JString (pretty (so_Expiration o)));
      ("signatureType", JNumber (pretty (SignatureType order)));
      ("timestamp", JString (pretty (Timestamp order)));
      ("metadata", JString (Hash_Hex (Metadata order)));
      ("builder", JString (Hash_Hex (Builder order)));
      ("signature", JString (so_Signature o))]);
    ("owner", JString owner);
    ("orderType", JString (so_OrderType o));
    ("deferExec", JBool false);
    ("postOnly", JBool (so_PostOnly o))].

Definition cancel_payload (orderID : string) : json := JObject [("orderID", JString orderID)].

Definition validate_placement (p : OrderPlacement) : option GoError :=
  if negb (p_Success p) || match validateOrderID (p_OrderID p) with Some _ => true | None => false end then
    Some (errors_New "placement did not return a successful order ID")
  else if (kib 16 <? slen (p_ErrorMessage p))%nat || (128 <? slen (p_Status p))%nat || (256 <? length (p_TransactionHashes p))%nat ||
          (256 <? length (p_TradeIDs p))%nat then
    Some (errors_New "placement response exceeds bounds")
  else None.

Definition validate_filter (f : OpenOrderFilter) : option GoError :=
  if negb (String.eqb (f_ConditionID f) "") && negb (isHash (f_ConditionID f)) then Some (errors_New "polymarket: market filter is invalid")
  else if negb (String.eqb (f_TokenID f) "") && negb (IsCanonicalUint256 (f_TokenID f) false) then Some (errors_New "polymarket: asset filter is invalid")
  else
    match (if negb (String.eqb (f_OrderID f) "") then validateOrderID (f_OrderID f) else None) with
    | Some err => Some err
    | None => validateCursor (f_NextCursor f)
    end.

Definition validate_open_order (maker : string) (o : OpenOrder) : option GoError :=
  if match validateOrderID (oo_ID o) with Some _ => true | None => false end then Some (errors_New "order id is invalid")
  else if negb (isAddress (oo_MakerAddress o)) || (negb (String.eqb maker "") && negb (EqualFold (oo_MakerAddress o) maker)) then
    Some (errors_New "maker address mismatch")
  else if negb (isHash (oo_Market o)) || negb (IsCanonicalUint256 (oo_AssetID o) false) then Some (errors_New "market or asset id is invalid")
  else if negb (String.eqb (oo_Side o) "BUY") && negb (String.eqb (oo_Side o) "SELL") then Some (errors_New "side is invalid")
  else if (128 <? slen (oo_Status o))%nat || (256 <? length (oo_AssociateTrades o))%nat then Some (errors_New "order response exceeds bounds")
  else None.

Definition validate_order_page (maker : string) (p : OpenOrderPage) : option GoError :=
  if 2000 <? Z.of_nat (length (op_Data p)) then Some (errors_New "open-order page exceeds bounds")
  else
    match validateCursor (op_NextCursor p) with
    | Some err => Some err
    | None => first_invalid "open order" (validate_open_order maker) 0 (op_Data p)
    end.

(** The loop over the cancelled orders: [None] is that it goes through. *)
Fixpoint find_canceled (orderID : string) (l : list string) : option (option GoError) :=
  match l with
  | [] => None
  | canceled :: l =>
      match validateOrderID canceled with
      | Some _ => Some (Some (errors_New "cancellation response has invalid order id"))
      | None => if String.eqb canceled orderID then Some None else find_canceled orderID l
      end
  end.

Definition validate_cancel (orderID : string) (r : CancelResult) : option GoError :=
  if (256 <? length (c_Canceled r))%nat || (256 <? size (c_NotCanceled r))%nat then Some (errors_New "cancellation response exceeds bounds")
  else
    match find_canceled orderID (c_Canceled r) with
    | Some outcome => outcome
    | None =>
        match c_NotCanceled r !! orderID with
        | Some _ => None
        | None => Some (errors_New "cancellation response does not mention requested order")
        end
    end.
End wire.

(** ** Decoding *)

Section decode.
Context `{JE : JsonErrors} `{TJ : TimeJson}.

Definition decode_level (raw : json) : result GoError BookLevel :=
  let? price := field d_string "" "price" raw in
  let? size := field d_string "" "size" raw in
  Ok (mkLevel price size).

Definition decode_book (raw : json) : result GoError OrderBook :=
  let? market := field d_string "" "market" raw in
  let? asset := field d_string "" "asset_id" raw in
  let? timestamp := field d_string "" "timestamp" raw in
  let? bids := field (d_list decode_level) [] "bids" raw in
  let? asks := field (d_list decode_level) [] "asks" raw in
  let? minimum := field d_string "" "min_order_size" raw in
  let? negRisk := field d_bool false "neg_risk" raw in
  let? tick := field d_string "" "tick_size" raw in
  let? last := field d_string "" "last_trade_price" raw in
  let? hash := field d_string "" "hash" raw in
  Ok (mkBook market asset timestamp bids asks minimum negRisk tick last hash).

Definition d_book : decoder (option OrderBook) := fun _ v =>
  match v with JNull => Ok None | v => let? b := decode_book v in Ok (Some b) end.

Definition decode_token (raw : json) : result GoError Token :=
  let? id := field d_string "" "token_id" raw in
  let? outcome := field d_string "" "outcome" raw in
  let? price := field d_number "" "price" raw in
  let? winner := field d_bool false "winner" raw in
  let? book := field d_book None "book" raw in
  Ok (mkToken id outcome price winner book).

Definition decode_market (raw : json) : result GoError Market :=
  let? enable := field d_bool false "enable_order_book" raw in
  let? active := field d_bool false "active" raw in
  let? closed := field d_bool false "closed" raw in
  let? archived := field d_bool false "archived" raw in
  let? accepting := field d_bool false "accepting_orders" raw in
  let? acceptingAt := field d_time None "accepting_order_timestamp" raw in
  let? minSize := field d_number "" "minimum_order_size" raw in
  let? minTick := field d_number "" "minimum_tick_size" raw in
  let? condition := field d_string "" "condition_id" raw in
  let? questionID := field d_string "" "question_id" raw in
  let? question := field d_string "" "question" raw in
  let? description := field d_string "" "description" raw in
  let? slug := field d_string "" "market_slug" raw in
  let? endDate := field d_string "" "end_date_iso" raw in
  let? negRisk := field d_bool false "neg_risk" raw in
  let? negMarket := field d_string "" "neg_risk_market_id" raw in
  let? negRequest := field d_string "" "neg_risk_request_id" raw in
  let? icon := field d_string "" "icon" raw in
  let? image := field d_string "" "image" raw in
  let? tokens := field (d_list decode_token) [] "tokens" raw in
  let? tags := field strings [] "tags" raw in
  Ok (mkMarket enable active closed archived accepting acceptingAt minSize minTick condition questionID question description
        slug endDate negRisk negMarket negRequest icon image tokens tags).

Definition decode_page (raw : json) : result GoError MarketPage :=
  let? data := field (d_list decode_market) [] "data" raw in
  let? cursor := field d_string "" "next_cursor" raw in
  let? limit := field (d_int 64 "int") 0 "limit" raw in
  let? count := field (d_int 64 "int") 0 "count" raw in
  Ok (mkPage data cursor limit count).

Definition decode_placement (raw : json) : result GoError OrderPlacement :=
  let? success := field d_bool false "success" raw in
  let? message := field d_string "" "errorMsg" raw in
  let? orderID := field d_string "" "orderID" raw in
  let? status := field d_string "" "status" raw in
  let? hashes := field strings [] "transactionsHashes" raw in
  let? trades := field strings [] "tradeIDs" raw in
  let? making := field d_string "" "makingAmount" raw in
  let? taking := field d_string "" "takingAmount" raw in
  Ok (mkPlacement success message orderID status hashes trades making taking).

Definition decode_open_order (raw : json) : result GoError OpenOrder :=
  let? id := field d_string "" "id" raw in
  let? status := field d_string "" "status" raw in
  let? owner := field d_string "" "owner" raw in
  let? maker := field d_string "" "maker_address" raw in
  let? market := field d_string "" "market" raw in
  let? asset := field d_string "" "asset_id" raw in
  let? side := field d_string "" "side" raw in
  let? original := field d_string "" "original_size" raw in
  let? matched := field d_string "" "size_matched" raw in
  let? price := field d_string "" "price" raw in
  let? trades := field strings [] "associate_trades" raw in
  let? created := field (d_int 64 "int64") 0 "created_at" raw in
  let? expiration := field d_string "" "expiration" raw in
  let? orderType := field d_string "" "order_type" raw in
  Ok (mkOpenOrder id status owner maker market asset side original matched price trades created expiration orderType).

Definition decode_order_page (raw : json) : result GoError OpenOrderPage :=
  let? data := field (d_list decode_open_order) [] "data" raw in
  let? cursor := field d_string "" "next_cursor" raw in
  let? limit := field (d_int 64 "int") 0 "limit" raw in
  let? count := field (d_int 64 "int") 0 "count" raw in
  Ok (mkOrderPage data cursor limit count).

Definition decode_cancel (raw : json) : result GoError CancelResult :=
  let? canceled := field strings [] "canceled" raw in
  let? notCanceled := field (d_map (d_string "") "map[string]string") ∅ "not_canceled" raw in
  Ok (mkCancel canceled notCanceled).
End decode.
