(* ===== verification/PolymarketAuth.v ===== *)
(** * L1 authentication (utils/polymarket/auth.go)

    The EIP-712 payload a wallet signs for API credentials and the check of its
    signature.  Hashing typed data and recovering a key are go-ethereum's. *)
From Stdlib Require Import Ascii Strings.Byte.
From S2P Require Export Polymarket Json.
Local Open Scope Z_scope.
Local Open Scope go_scope.

Definition AuthDomainName : string := "ClobAuthDomain".
Definition AuthDomainVersion : string := "1".
Definition AuthMessage : string := "This message attests that I control the given wallet".

(** The message of [AuthPayload]; its types and domain are constant. *)
Record AuthPayload := mkAuthPayload { ap_address : string; ap_timestamp : string; ap_nonce : string; ap_message : string }.

Class AuthLibrary `{GoEthereum} := {
  auth_address :: HexAddress;
  TypedDataAndHash : AuthPayload -> result GoError bytes;
  hexutil_Decode : string -> result GoError bytes;
  ValidateSignatureValues : Z -> Z -> Z -> bool -> bool;
  SigToAddress : bytes -> bytes -> result GoError Address;     (* crypto.SigToPub, then PubkeyToAddress *)
}.

Section auth.
Context `{U : UnicodeTables} `{G : GoEthereum} `{AB : !Abi} `{AL : !AuthLibrary}.

Definition typed_field (name type : string) : json := JObject [("name", JString name); ("type", JString type)].

(** [MarshalJSON]; maps are written in the order of their keys. *)
Definition AuthPayload_MarshalJSON (p : AuthPayload) : string :=
  json_Marshal (JObject [
    ("types", JObject [
      ("ClobAuth", JArray [typed_field "address" "address"; typed_field "timestamp" "string"; typed_field "nonce" "uint256"; typed_field "message" "string"]);
      ("EIP712Domain", JArray [typed_field "name" "string"; typed_field "version" "string"; typed_field "chainId" "uint256"])]);
    ("primaryType", JString "ClobAuth");
    ("domain", JObject [("chainId", JString "0x89"); ("name", JString AuthDomainName); ("version", JString AuthDomainVersion)]);
    ("message", JObject [("address", JString (ap_address p)); ("message", JString (ap_message p)); ("nonce", JString (ap_nonce p)); ("timestamp", JString (ap_timestamp p))])]).

Definition AuthTypedData (address : string) (timestamp nonce : Z) : result GoError AuthPayload :=
  if negb (IsHexAddress address) || bool_decide (HexToAddress address = address_zero) || (timestamp <=? 0) then
    Err (errors_New "polymarket: invalid authentication identity or timestamp")
  else Ok (mkAuthPayload (ToLower address) (pretty timestamp) (pretty nonce) AuthMessage).


(** The last byte, 27 or 28 brought to 0 or 1. *)
Definition recovery_byte (v : Byte.byte) : Byte.byte := if 27 <=? byte_int v then byte_of (byte_int v - 27) else v.

Definition VerifyAuthSignature (address : string) (timestamp nonce : Z) (signature : string) : option GoError :=
  match AuthTypedData address timestamp nonce with
  | Err err => Some err
  | Ok data =>
      match TypedDataAndHash data with
      | Err _ => Some (errors_New "polymarket: invalid authentication payload")
      | Ok digest =>
          match hexutil_Decode signature with
          | Err _ => Some (errors_New "polymarket: invalid authentication signature")
          | Ok sig =>
              if negb (length sig =? 65)%nat then Some (errors_New "polymarket: invalid authentication signature")
              else
                let v := recovery_byte (List.last sig x00) in
                let sig := take 64 sig ++ [v] in
                if negb (ValidateSignatureValues (byte_int v) (SetBytes (take 32 sig)) (SetBytes (take 32 (drop 32 sig))) true) then
                  Some (errors_New "polymarket: invalid authentication signature")
                else
                  match SigToAddress digest sig with
                  | Err _ => Some (errors_New "polymarket: authentication signer mismatch")
                  | Ok a => if bool_decide (a = HexToAddress address) then None else Some (errors_New "polymarket: authentication signer mismatch")
                  end
          end
      end
  end.
End auth.
