(* ===== verification/PolymarketClient.v ===== *)
(** * The CLOB client (providers/polymarket/client.go, auth.go)

    Every operation over the HTTP attempts it makes.  A run threads the number
    of the next attempt and the requests sent so far; what an attempt meets (the
    clock, the round trip, the context) is the answer to it.  Request URLs and
    the text of a response are read by the standard library's parsers. *)
From Stdlib Require Import Ascii Strings.Byte.
From S2P Require Import HttpClient.
From S2P Require Export PolymarketTypes PolymarketAuth Base64 Sha256 Exchange Query Calendar.
Local Open Scope Z_scope.
Local Open Scope go_scope.

Definition DefaultCLOBURL : string := "https://clob.polymarket.com".
Definition defaultTimeout : Z := 10 * nanosPerSecond.
Definition maxPublicBodyBytes : Z := Z.shiftl 8 20.
Definition maxPrivateBodyBytes : Z := Z.shiftl 2 20.
Definition maxErrorBodyBytes : Z := Z.shiftl 8 10.
Definition maxRequestBodyBytes : Z := Z.shiftl 1 20.
Definition maxTransientAttempts : nat := 2.

(** [url.URL], as far as it is read, and its text. *)
Record Url := mkUrl { Scheme : string; Host : string; has_User : bool; Path : string; RawQuery : string; Fragment : string }.
Class UrlText := {
  url_Parse : string -> result GoError Url;
  url_String : Url -> string;
  http_date : string -> option Z;      (* http.ParseTime *)
}.

(** ** Errors *)

Record HTTPError := mkHTTPError { he_StatusCode : Z; he_Body : string; he_RetryAfter : Z }.

(** An error, and the [*HTTPError] that [errors.As] finds in it. *)
Record ClientError := mkErr { ce_err : GoError; ce_http : option HTTPError }.
Definition plain_err (e : GoError) : ClientError := mkErr e None.

(** [HTTPError.Error] and [HTTPError.Is]. *)
Definition HTTPError_Error (e : option HTTPError) : string :=
  match e with
  | None => "polymarket: upstream request failed"
  | Some e =>
      if 0 <? he_RetryAfter e
      then "polymarket: upstream status " +:+ pretty (he_StatusCode e) +:+ " (retry after " +:+ duration_String (he_RetryAfter e) +:+ ")"
      else "polymarket: upstream status " +:+ pretty (he_StatusCode e)
  end.
Definition HTTPError_Is (e : option HTTPError) (target : Sentinel) : bool :=
  bool_decide (target = ErrPolymarketRateLimited) && match e with Some e => he_StatusCode e =? 429 | None => false end.

Definition http_err (e : HTTPError) : ClientError :=
  mkErr {| Error := HTTPError_Error (Some e); wraps := if HTTPError_Is (Some e) ErrPolymarketRateLimited then [ErrPolymarketRateLimited] else [];
           as_rpc := None; as_http := None; as_url := None; as_net := None; dynamic_type := "*polymarket.HTTPError" |} (Some e).

(** [fmt.Errorf("<pre>%w", err)] *)
Definition wrap_client (pre : string) (e : ClientError) : ClientError := mkErr (Errorf_w pre (ce_err e) "") (ce_http e).

Definition IsDefinitiveSubmissionRejection (e : ClientError) : bool :=
  match ce_http e with
  | Some h => (400 <=? he_StatusCode h) && (he_StatusCode h <? 500) && negb (he_StatusCode h =? 408)
  | None => false
  end.

Definition isTransientStatus (status : Z) : bool := (status =? 429) || (500 <=? status).

(** ** Credentials *)

Record Credentials := mkCredentials { cr_Address : string; cr_APIKey : string; cr_APISecret : string; cr_Passphrase : string }.
Definition Credentials_String (_ : Credentials) : string := "[redacted polymarket credentials]".
Definition Credentials_MarshalJSON (_ : Credentials) : string := json_quote "[redacted polymarket credentials]".

(** [decodeURLBase64]: canonical with padding, or without. *)
Definition decodeURLBase64 (value : string) : option bytes :=
  match b64_decode true value with
  | Some decoded => if String.eqb (b64_encode true decoded) value then Some decoded else
      match b64_decode false value with
      | Some decoded => if String.eqb (b64_encode false decoded) value then Some decoded else None
      | None => None
      end
  | None =>
      match b64_decode false value with
      | Some decoded => if String.eqb (b64_encode false decoded) value then Some decoded else None
      | None => None
      end
  end.

Section client.
Context `{U : UnicodeTables} `{G : GoEthereum} `{AB : !Abi} `{AL : !AuthLibrary} `{JE : JsonErrors} `{JS : JsonStream} `{JT : JsonText} `{TJ : TimeJson} `{UT : UrlText}.

Definition validate_credentials (c : Credentials) : option GoError :=
  if negb (isAddress (cr_Address c)) then Some (errors_New "polymarket: credential address is invalid")
  else if String.eqb (TrimSpace (cr_APIKey c)) "" || (256 <? slen (cr_APIKey c))%nat then Some (errors_New "polymarket: API key is invalid")
  else if String.eqb (TrimSpace (cr_Passphrase c)) "" || (256 <? slen (cr_Passphrase c))%nat then Some (errors_New "polymarket: passphrase is invalid")
  else if String.eqb (TrimSpace (cr_APISecret c)) "" || (512 <? slen (cr_APISecret c))%nat then Some (errors_New "polymarket: API secret is invalid")
  else match decodeURLBase64 (cr_APISecret c) with Some _ => None | None => Some (errors_New "polymarket: API secret is not canonical URL-safe base64") end.

(** ** The client and its options *)

Record client := mkClient { baseURL : string; http_Timeout : Z; orderSubmissionEnabled : bool }.

(** An injected HTTP client is its timeout; [g_clock] is that a clock is set. *)
Record clientConfig := mkClientConfig {
  g_baseURL : string; g_httpClient : option Z; g_timeout : Z; g_timeoutConfigured : bool; g_orderSubmissionEnabled : bool; g_clock : bool;
}.
Definition Option : Type := clientConfig -> clientConfig.
Definition WithBaseURL (url : string) : Option := fun g =>
  mkClientConfig (trim_right (Ascii.eqb "/"%char) (TrimSpace url)) (g_httpClient g) (g_timeout g) (g_timeoutConfigured g) (g_orderSubmissionEnabled g) (g_clock g).
Definition WithHTTPClient (httpClient : option Z) : Option := fun g =>
  match httpClient with
  | None => g
  | Some _ => mkClientConfig (g_baseURL g) httpClient (g_timeout g) (g_timeoutConfigured g) (g_orderSubmissionEnabled g) (g_clock g)
  end.
Definition WithTimeout (timeout : Z) : Option := fun g =>
  mkClientConfig (g_baseURL g) (g_httpClient g) timeout true (g_orderSubmissionEnabled g) (g_clock g).
Definition WithOrderSubmissionEnabled (enabled : bool) : Option := fun g =>
  mkClientConfig (g_baseURL g) (g_httpClient g) (g_timeout g) (g_timeoutConfigured g) enabled (g_clock g).
Definition withClock (set : bool) : Option := fun g =>
  mkClientConfig (g_baseURL g) (g_httpClient g) (g_timeout g) (g_timeoutConfigured g) (g_orderSubmissionEnabled g) set.

Definition https_origin (u : Url) : bool :=
  String.eqb (Scheme u) "https" && negb (String.eqb (Host u) "") && negb (has_User u) && String.eqb (Path u) "" &&
  String.eqb (RawQuery u) "" && String.eqb (Fragment u) "".

Definition New (options : list (option Option)) : result GoError client :=
  let g := foldl (fun g o => match o with Some o => o g | None => g end)
    (mkClientConfig DefaultCLOBURL None defaultTimeout false false true) options in
  let base := if String.eqb (g_baseURL g) "" then DefaultCLOBURL else g_baseURL g in
  match url_Parse base with
  | Err _ => Err (errors_New "polymarket: CLOB URL must be an absolute HTTPS origin")
  | Ok parsed =>
      if negb (https_origin parsed) then Err (errors_New "polymarket: CLOB URL must be an absolute HTTPS origin")
      else if g_timeout g <=? 0 then Err (errors_New "polymarket: timeout must be positive")
      else if negb (g_clock g) then Err (errors_New "polymarket: clock is required")
      else
        let timeout :=
          match g_httpClient g with
          | None => g_timeout g
          | Some timeout => if g_timeoutConfigured g || (timeout <=? 0) then g_timeout g else timeout
          end in
        Ok (mkClient base timeout (g_orderSubmissionEnabled g))
  end.

(** ** Responses *)

(** [readBounded] *)
Definition readBounded (resp : HttpResponse) (maximum : Z) : result GoError string :=
  match ReadAll (maximum + 1) resp with
  | Err e => Err (Errorf_w "polymarket: read response: " e "")
  | Ok payload => if maximum <? Z.of_nat (slen payload) then Err (errors_New ("polymarket: response exceeds " +:+ pretty maximum +:+ " bytes")) else Ok payload
  end.

Definition min_duration (left right : Z) : Z := if left <? right then left else right.
Definition max_duration (left right : Z) : Z := if right <? left then left else right.

Definition retryAfter (wall : Z) (resp : HttpResponse) : Z :=
  let value := TrimSpace (hr_Header resp "Retry-After") in
  if String.eqb value "" then 0
  else
    match ParseUint 32 value with
    | Some seconds => seconds * nanosPerSecond
    | None => match http_date value with None => 0 | Some at_ => max_duration (Sub at_ wall) 0 end
    end.

(** A decoder's [Decode] into the target, and [ensureEOF]. *)
Definition ensureEOF (rest : string) : option GoError :=
  match json_next rest with
  | None => None
  | Some (Ok _) => Some (errors_New "polymarket: response contains multiple JSON values")
  | Some (Err e) => if Is e EOF then None else Some (Errorf_w "polymarket: invalid trailing response data: " e "")
  end.

Definition json_target {A} (decode : json -> result GoError A) (text : string) : result GoError A :=
  let failed e := Err (Errorf_w "polymarket: decode response: " e "") in
  match json_next text with
  | None => failed EOF_v
  | Some (Err e) => failed e
  | Some (Ok (v, rest)) =>
      match decode v with
      | Err e => failed e
      | Ok x => match ensureEOF rest with Some e => Err e | None => Ok x end
      end
  end.

(** A nil target. *)
Definition no_target (_ : string) : result GoError unit := Ok tt.

Definition decodeResponse {A} (wall : Z) (resp : HttpResponse) (limit : Z) (target : string -> result GoError A) : result ClientError A :=
  if negb (success (hr_Status resp)) then
    match readBounded resp maxErrorBodyBytes with
    | Err e => Err (plain_err e)
    | Ok body => Err (http_err (mkHTTPError (hr_Status resp) body (retryAfter wall resp)))
    end
  else
    match readBounded resp limit with
    | Err e => Err (plain_err e)
    | Ok payload => match target payload with Ok x => Ok x | Err e => Err (plain_err e) end
    end.

(** ** Authentication headers *)

Definition seconds_of (now : Z) : Z := now / nanosPerSecond.

Definition signed_message (method path payload : string) (now : Z) : string :=
  pretty (seconds_of now) +:+ method +:+ path +:+ payload.

Definition setL2Headers (method path payload : string) (c : Credentials) (now : Z) (h : Header) : result GoError Header :=
  match validate_credentials c with
  | Some e => Err e
  | None =>
      if IsZero now || (seconds_of now <=? 0) then Err (errors_New "polymarket: authentication clock is invalid")
      else
        match decodeURLBase64 (cr_APISecret c) with
        | None => Err (errors_New "polymarket: decode API secret")
        | Some secret =>
            let signature := b64_encode true (hmac_sha256 secret (bytes_of (signed_message method path payload now))) in
            Ok (header_Set "POLY_PASSPHRASE" (cr_Passphrase c)
                 (header_Set "POLY_API_KEY" (cr_APIKey c)
                   (header_Set "POLY_TIMESTAMP" (pretty (seconds_of now))
                     (header_Set "POLY_SIGNATURE" signature
                       (header_Set "POLY_ADDRESS" (cr_Address c) h)))))
        end
  end.

(** ** Requests *)

Record Request := mkRequest { rq_Method : string; rq_URL : string; rq_Header : Header; rq_Body : string }.

(** What an attempt meets: the error of [NewRequestWithContext], the client's
    clock, the round trip, [ctx.Err()] after it, the error closing the body, the
    clock [time.Until] reads, and the context's error if the wait is cut short. *)
Record reply := mkReply {
  p_New : option GoError; p_now : Z; p_Do : result GoError HttpResponse; p_CtxErr : option GoError;
  p_Close : option GoError; p_wall : Z; p_Cancelled : option GoError;
}.

(** A run: the attempts made, and the requests sent. *)
Record run_state := mkRun { attempted : nat; sent : list Request }.
Definition M (A : Type) : Type := run_state -> result ClientError A * run_state.
Definition returnM {A} (x : A) : M A := fun st => (Ok x, st).
Definition failM {A} (e : ClientError) : M A := fun st => (Err e, st).
Definition bindM {A B} (m : M A) (k : A -> M B) : M B := fun st =>
  match m st with (Ok x, st) => k x st | (Err e, st) => (Err e, st) end.

(** A guard: the error of a check ends the operation. *)
Definition guardM (e : option GoError) : M unit := match e with Some e => failM (plain_err e) | None => returnM tt end.
Definition checked {A} (pre : string) (check : A -> option GoError) (x : A) : M A :=
  match check x with Some e => failM (plain_err (Errorf_w pre e "")) | None => returnM x end.

Definition try_next (st : run_state) : run_state := mkRun (S (attempted st)) (sent st).
Definition sends (r : Request) (st : run_state) : run_state := mkRun (S (attempted st)) (sent st ++ [r]).

Section operations.
Variable answers : nat -> reply.

(** The loop of [do]: [remaining] attempts are left. *)
Fixpoint attempts {A} (remaining : nat) (method endpoint path : string) (has_body : bool) (body : string)
    (credentials : option Credentials) (limit : Z) (target : string -> result GoError A) : M A := fun st =>
  match remaining with
  | O => (Err (plain_err (errors_New "polymarket: request attempts exhausted")), st)
  | S remaining =>
      let a := answers (attempted st) in
      match p_New a with
      | Some e => (Err (plain_err (Errorf_w "polymarket: create request: " e "")), try_next st)
      | None =>
          let h := header_Set "Accept" "application/json" ∅ in
          let h := if has_body then header_Set "Content-Type" "application/json" h else h in
          match (match credentials with None => Ok h | Some c => setL2Headers method path body c (p_now a) h end) with
          | Err e => (Err (plain_err e), try_next st)
          | Ok h =>
              let st := sends (mkRequest method endpoint h body) st in
              match p_Do a with
              | Err e =>
                  (Err (plain_err match p_CtxErr a with
                                  | Some c => Errorf_w "polymarket: request cancelled: " c ""
                                  | None => Errorf_w "polymarket: request failed: " e ""
                                  end), st)
              | Ok resp =>
                  match decodeResponse (p_wall a) resp limit target with
                  | Ok x => match p_Close a with Some e => (Err (plain_err (Errorf_w "polymarket: close response: " e "")), st) | None => (Ok x, st) end
                  | Err e =>
                      match ce_http e with
                      | None => (Err e, st)
                      | Some he =>
                          if negb (isTransientStatus (he_StatusCode he)) || (remaining =? 0)%nat then (Err e, st)
                          else
                            match (if 0 <? he_RetryAfter he then p_Cancelled a else None) with
                            | Some c => (Err (plain_err (Errorf_w "polymarket: retry cancelled: " c "")), st)
                            | None => attempts remaining method endpoint path has_body body credentials limit target st
                            end
                      end
                  end
              end
          end
      end
  end.

(** The wait before the next attempt. *)
Definition retry_wait (e : HTTPError) : Z := if 0 <? he_RetryAfter e then min_duration (he_RetryAfter e) nanosPerSecond else 0.

Definition set_query (query : option Values) (u : Url) : Url :=
  match query with
  | None => u
  | Some q => mkUrl (Scheme u) (Host u) (has_User u) (Path u) (Encode q) (Fragment u)
  end.

Definition do_ {A} (c : client) (method path : string) (query : option Values) (body : option json)
    (credentials : option Credentials) (limit : Z) (target : string -> result GoError A) : M A := fun st =>
  match url_Parse (baseURL c +:+ path) with
  | Err e => failM (plain_err (Errorf_w "polymarket: build endpoint: " e "")) st
  | Ok parsed =>
      let endpoint := url_String (set_query query parsed) in
      let payload := match body with Some v => json_Marshal v | None => "" end in
      if match body with Some _ => maxRequestBodyBytes <? Z.of_nat (slen payload) | None => false end then
        failM (plain_err (errors_New "polymarket: request body is too large")) st
      else
        let maxAttempts := if String.eqb method "GET" then maxTransientAttempts else 1%nat in
        attempts maxAttempts method endpoint path match body with Some _ => true | None => false end payload credentials limit target st
  end.

(** ** Operations *)

Definition requireCredentials (c : Credentials) : option GoError :=
  match validate_credentials c with
  | Some e => Some (Errorf_w "" ErrCredentialsMissing_v (": " +:+ Error e))
  | None => None
  end.

Definition requireSubmission (c : client) (credentials : Credentials) : option GoError :=
  if negb (orderSubmissionEnabled c) then Some ErrTradingDisabled_v else requireCredentials credentials.

Definition ListMarkets (c : client) (nextCursor : string) : M MarketPage :=
  bindM (guardM (validateCursor nextCursor)) (fun _ =>
  let query := if String.eqb nextCursor "" then ∅ else values_Set "next_cursor" nextCursor ∅ in
  bindM (do_ c "GET" "/sampling-markets" (Some query) None None maxPublicBodyBytes (json_target decode_page)) (fun page =>
  checked "polymarket: invalid markets response: " validate_page page)).

Definition getBook (c : client) (tokenID : string) : M OrderBook :=
  bindM (guardM (if negb (IsCanonicalUint256 tokenID false) then Some (errors_New "polymarket: token_id is invalid") else None)) (fun _ =>
  bindM (do_ c "GET" "/book" (Some (values_Set "token_id" tokenID ∅)) None None maxPublicBodyBytes (json_target decode_book)) (fun book =>
  checked "polymarket: invalid order book: " (validate_book tokenID) book)).

(** The tokens, each with its book. *)
Fixpoint with_books (c : client) (tokens : list Token) : M (list Token) :=
  match tokens with
  | [] => returnM []
  | t :: tokens =>
      bindM (getBook c (t_TokenID t)) (fun book =>
      bindM (with_books c tokens) (fun rest =>
      returnM (mkToken (t_TokenID t) (t_Outcome t) (t_Price t) (t_Winner t) (Some book) :: rest)))
  end.

Definition set_Tokens (m : Market) (tokens : list Token) : Market :=
  mkMarket (m_EnableOrderBook m) (m_Active m) (m_Closed m) (m_Archived m) (m_AcceptingOrders m) (m_AcceptingOrdersAt m)
    (m_MinimumOrderSize m) (m_MinimumTickSize m) (m_ConditionID m) (m_QuestionID m) (m_Question m) (m_Description m) (m_Slug m)
    (m_EndDate m) (m_NegRisk m) (m_NegRiskMarketID m) (m_NegRiskRequestID m) (m_Icon m) (m_Image m) tokens (m_Tags m).

Definition GetMarket (c : client) (conditionID : string) (includeBooks : bool) : M Market :=
  bindM (guardM (if negb (isHash conditionID) then Some (errors_New "polymarket: condition_id must be a nonzero 0x-prefixed bytes32") else None)) (fun _ =>
  bindM (do_ c "GET" ("/markets/" +:+ ToLower conditionID) None None None maxPublicBodyBytes (json_target decode_market)) (fun market =>
  bindM (checked "polymarket: invalid market response: " validate_market market) (fun market =>
  bindM (guardM (if negb (EqualFold (m_ConditionID market) conditionID) then Some (errors_New "polymarket: market response condition_id mismatch") else None)) (fun _ =>
  if includeBooks then bindM (with_books c (m_Tokens market)) (fun tokens => returnM (set_Tokens market tokens))
  else returnM market)))).

Definition PostOrder (c : client) (credentials : Credentials) (order : SignedOrder) : M OrderPlacement :=
  bindM (guardM (requireSubmission c credentials)) (fun _ =>
  bindM (guardM (validate_signed order)) (fun _ =>
  bindM (do_ c "POST" "/order" None (Some (payload order (cr_APIKey credentials))) (Some credentials) maxPrivateBodyBytes
           (json_target decode_placement)) (fun placement =>
  checked "polymarket: invalid order placement response: " validate_placement placement))).

Definition filter_query (f : OpenOrderFilter) : Values :=
  let set key value (q : Values) := if String.eqb value "" then q else values_Set key value q in
  set "next_cursor" (f_NextCursor f) (set "id" (f_OrderID f) (set "asset_id" (f_TokenID f)
    (if String.eqb (f_ConditionID f) "" then ∅ else values_Set "market" (ToLower (f_ConditionID f)) ∅))).

Definition ListOpenOrders (c : client) (credentials : Credentials) (filter : OpenOrderFilter) : M OpenOrderPage :=
  bindM (guardM (requireCredentials credentials)) (fun _ =>
  bindM (guardM (validate_filter filter)) (fun _ =>
  bindM (do_ c "GET" "/data/orders" (Some (filter_query filter)) None (Some credentials) maxPrivateBodyBytes (json_target decode_order_page)) (fun page =>
  checked "polymarket: invalid open-orders response: " (validate_order_page "") page))).

(** [do]'s error, a 404 mapped to [ErrOrderNotFound]. *)
Definition map_err {A} (f : ClientError -> ClientError) (m : M A) : M A := fun st =>
  match m st with (Ok x, st) => (Ok x, st) | (Err e, st) => (Err (f e), st) end.
Definition order_not_found (e : ClientError) : ClientError :=
  match ce_http e with
  | Some h => if he_StatusCode h =? 404 then plain_err ErrOrderNotFound_v else e
  | None => e
  end.

Definition GetOrder (c : client) (credentials : Credentials) (orderID : string) : M OpenOrder :=
  bindM (guardM (requireCredentials credentials)) (fun _ =>
  bindM (guardM (validateOrderID orderID)) (fun _ =>
  bindM (map_err order_not_found
          (do_ c "GET" ("/data/order/" +:+ ToLower orderID) None None (Some credentials) maxPrivateBodyBytes (json_target decode_open_order))) (fun order =>
  bindM (checked "polymarket: invalid order response: " (validate_open_order "") order) (fun order =>
  bindM (guardM (if negb (EqualFold (oo_ID order) orderID) then Some (errors_New "polymarket: order response ID mismatch") else None)) (fun _ =>
  returnM order))))).

Definition allowance_query (u : BalanceAllowanceUpdate) : Values :=
  let query := values_Set "signature_type" "3" (values_Set "asset_type" (u_AssetType u) ∅) in
  if String.eqb (u_TokenID u) "" then query else values_Set "token_id" (u_TokenID u) query.

Definition UpdateBalanceAllowance (c : client) (credentials : Credentials) (update : BalanceAllowanceUpdate) : M unit :=
  bindM (guardM (requireCredentials credentials)) (fun _ =>
  bindM (guardM (validate_allowance update)) (fun _ =>
  map_err (wrap_client "polymarket: update balance allowance: ")
    (do_ c "GET" "/balance-allowance/update" (Some (allowance_query update)) None (Some credentials) maxPrivateBodyBytes no_target))).

Definition CancelOrder (c : client) (credentials : Credentials) (orderID : string) : M CancelResult :=
  bindM (guardM (requireCredentials credentials)) (fun _ =>
  bindM (guardM (validateOrderID orderID)) (fun _ =>
  bindM (do_ c "DELETE" "/order" None (Some (cancel_payload orderID)) (Some credentials) maxPrivateBodyBytes (json_target decode_cancel)) (fun result =>
  checked "polymarket: invalid cancellation response: " (validate_cancel orderID) result))).

(** ** Credentials (auth.go) *)

Record L1Authorization := mkL1 { l1_Address : string; l1_Timestamp : Z; l1_Nonce : Z; l1_Signature : string }.
Definition L1Authorization_String (_ : L1Authorization) : string := "[redacted polymarket authorization]".

Definition decode_credentials (auth : L1Authorization) (text : string) : result GoError Credentials :=
  match json_parse text with
  | Err _ => Err (errors_New "polymarket: invalid credential response")
  | Ok raw =>
      match (let? key := field d_string "" "apiKey" raw in let? secret := field d_string "" "secret" raw in
             let? passphrase := field d_string "" "passphrase" raw in Ok (mkCredentials (ToLower (l1_Address auth)) key secret passphrase)) with
      | Err _ => Err (errors_New "polymarket: invalid credential response")
      | Ok creds => match validate_credentials creds with Some _ => Err (errors_New "polymarket: invalid credential response") | None => Ok creds end
      end
  end.

Definition l1_headers (auth : L1Authorization) : Header :=
  header_Set "POLY_SIGNATURE" (l1_Signature auth) (header_Set "POLY_NONCE" (pretty (l1_Nonce auth))
    (header_Set "POLY_TIMESTAMP" (pretty (l1_Timestamp auth)) (header_Set "POLY_ADDRESS" (ToLower (l1_Address auth))
      (header_Set "Accept" "application/json" ∅)))).

Definition exchangeCredentials (c : client) (method path : string) (auth : L1Authorization) : M Credentials := fun st =>
  let a := answers (attempted st) in
  match p_New a with
  | Some _ => (Err (plain_err (errors_New "polymarket: cannot construct credential request")), try_next st)
  | None =>
      let st := sends (mkRequest method (baseURL c +:+ path) (l1_headers auth) "") st in
      match p_Do a with
      | Err _ => (Err (plain_err (errors_New "polymarket: credential request failed")), st)
      | Ok resp =>
          if negb (success (hr_Status resp)) then (Err (http_err (mkHTTPError (hr_Status resp) "" (retryAfter (p_wall a) resp))), st)
          else
            match readBounded resp 4096 with
            | Err _ => (Err (plain_err (errors_New "polymarket: invalid credential response")), st)
            | Ok text => match decode_credentials auth text with Ok creds => (Ok creds, st) | Err e => (Err (plain_err e), st) end
            end
      end
  end.

(** [ctx_err] is [ctx.Err()] after the creation failed. *)
Definition CreateOrDeriveCredentials (c : client) (now : Z) (ctx_err : option GoError) (auth : L1Authorization) : M Credentials := fun st =>
  let at_ := l1_Timestamp auth * nanosPerSecond in
  if (at_ <? now - 300 * nanosPerSecond) || (now + 30 * nanosPerSecond <? at_) then
    (Err (plain_err (errors_New "polymarket: authentication proof is expired or future-dated")), st)
  else
    match VerifyAuthSignature (l1_Address auth) (l1_Timestamp auth) (l1_Nonce auth) (l1_Signature auth) with
    | Some e => (Err (plain_err e), st)
    | None =>
        match exchangeCredentials c "POST" "/auth/api-key" auth st with
        | (Ok creds, st) => (Ok creds, st)
        | (Err e, st) =>
            match ctx_err with
            | Some e => (Err (plain_err e), st)
            | None =>
                if match ce_http e with
                   | Some h => (he_StatusCode h =? 401) || (he_StatusCode h =? 403) || (he_StatusCode h =? 429)
                   | None => false
                   end
                then (Err e, st)
                else exchangeCredentials c "GET" "/auth/derive-api-key" auth st
            end
        end
    end.

(** A provider's error is kept without its body. *)
Definition without_body (e : ClientError) : ClientError :=
  match ce_http e with Some h => http_err (mkHTTPError (he_StatusCode h) "" (he_RetryAfter h)) | None => e end.

Definition RevokeCredentials (c : client) (credentials : Credentials) : M unit :=
  bindM (guardM (requireCredentials credentials)) (fun _ =>
  map_err without_body (do_ c "DELETE" "/auth/api-key" None None (Some credentials) 4096 no_target)).
End operations.
End client.
