(* ===== verification/PolymarketSafety.v ===== *)
(** * What the CLOB client does with requests and answers

    The attempts behind an operation, the authentication they carry, and what a
    result says about the answers: writes are sent once, reads twice at most,
    and every value returned is well formed. *)
From Stdlib Require Import Ascii Strings.Byte.
From S2P Require Import HttpClient.
From S2P Require Export PolymarketClient.
Local Open Scope Z_scope.
Local Open Scope go_scope.

(** ** Secrets *)

Lemma decode_canonical padded s b : b64_decode padded s = Some b -> b64_encode padded b = s -> s = b64_encode padded b.
Proof. congruence. Qed.

(** A secret is accepted exactly when it is the padded or the raw URL-safe
    encoding of some bytes, and decodes to those bytes. *)
Theorem decodeURLBase64_spec value data :
  decodeURLBase64 value = Some data <->
  value = b64_encode true data \/
  (value = b64_encode false data /\ forall other, value = b64_encode true other -> other = data).
Proof.
  assert (Hraw : match b64_decode false value with
    | Some decoded => if String.eqb (b64_encode false decoded) value then Some decoded else None | None => None end = Some data <->
    value = b64_encode false data).
  { split.
    - destruct (b64_decode false value) as [d|]; [|done]. destruct (String.eqb_spec (b64_encode false d) value) as [E|]; [|done].
      by intros [= <-].
    - intros ->. rewrite b64_decode_encode. cbv beta iota. by rewrite String.eqb_refl. }
  unfold decodeURLBase64. destruct (b64_decode true value) as [d|] eqn:E.
  - destruct (String.eqb_spec (b64_encode true d) value) as [Ed|Ed].
    + split.
      * intros [= <-]. by left.
      * intros [->|[-> H]]; [by rewrite b64_decode_encode in E|]. f_equal. by apply H.
    + rewrite Hraw. split.
      * intros ->. right. split; [done|]. intros other Ho. rewrite Ho, b64_decode_encode in E. congruence.
      * intros [->|[-> H]]; [|done]. rewrite b64_decode_encode in E. congruence.
  - rewrite Hraw. split.
    + intros ->. right. split; [done|]. intros other Ho. rewrite Ho, b64_decode_encode in E. congruence.
    + intros [->|[-> H]]; [by rewrite b64_decode_encode in E|done].
Qed.

Section safety.
Context `{U : UnicodeTables} `{G : GoEthereum} `{AB : !Abi} `{AL : !AuthLibrary} `{JE : JsonErrors} `{JS : JsonStream} `{JT : JsonText} `{TJ : TimeJson} `{UT : UrlText}.
Variable answers : nat -> reply.

(** ** Attempts *)

(** The headers of the request authenticate its own method, path and body, at
    some time, with the credentials' secret. *)
Definition authenticates (c : Credentials) (path : string) (r : Request) : Prop :=
  exists now secret, decodeURLBase64 (cr_APISecret c) = Some secret /\ 0 < seconds_of now /\
    header_Get "POLY_SIGNATURE" (rq_Header r) =
      b64_encode true (hmac_sha256 secret (bytes_of (pretty (seconds_of now) +:+ rq_Method r +:+ path +:+ rq_Body r))) /\
    header_Get "POLY_TIMESTAMP" (rq_Header r) = pretty (seconds_of now) /\
    header_Get "POLY_ADDRESS" (rq_Header r) = cr_Address c /\ header_Get "POLY_API_KEY" (rq_Header r) = cr_APIKey c /\
    header_Get "POLY_PASSPHRASE" (rq_Header r) = cr_Passphrase c.

Definition carries (method endpoint path body : string) (credentials : option Credentials) (r : Request) : Prop :=
  rq_Method r = method /\ rq_URL r = endpoint /\ rq_Body r = body /\
  match credentials with Some c => authenticates c path r | None => True end.

Lemma header_Get_Set key value h : header_Get key (header_Set key value h) = value.
Proof. unfold header_Get, header_Set. by rewrite lookup_insert_eq. Qed.

Lemma header_Get_Set_ne key key' value h : CanonicalHeaderKey key' <> CanonicalHeaderKey key ->
  header_Get key (header_Set key' value h) = header_Get key h.
Proof. intros H. unfold header_Get, header_Set. by rewrite lookup_insert_ne. Qed.

Lemma setL2Headers_authenticates method endpoint path body c now h h' : setL2Headers method path body c now h = Ok h' ->
  validate_credentials c = None /\ authenticates c path (mkRequest method endpoint h' body).
Proof.
  unfold setL2Headers. destruct (validate_credentials c); [done|]. destruct (IsZero now || (seconds_of now <=? 0)) eqn:E; [done|].
  destruct (decodeURLBase64 (cr_APISecret c)) as [secret|] eqn:Es; [|done]. intros [= <-]. split; [done|].
  exists now, secret. apply orb_false_iff in E as [_ E]. split; [done|]. split; [lia|]. cbn [rq_Header rq_Method rq_Body].
  repeat split; repeat (rewrite header_Get_Set_ne; [|by vm_compute]); apply header_Get_Set.
Qed.

(** What the answer to an attempt says. *)
Definition answered (i : nat) (resp : HttpResponse) : Prop := p_Do (answers i) = Ok resp.

Lemma decodeResponse_http {A} wall resp limit (target : string -> result GoError A) e h :
  decodeResponse wall resp limit target = Err e -> ce_http e = Some h ->
  success (hr_Status resp) = false /\ he_StatusCode h = hr_Status resp.
Proof.
  unfold decodeResponse. destruct (success (hr_Status resp)); cbn [negb].
  - destruct (readBounded resp limit) as [payload|]; [destruct (target payload); [done|]|]; by intros [= <-].
  - destruct (readBounded resp maxErrorBodyBytes); intros [= <-]; [|done]. by intros [= <-].
Qed.

Lemma decodeResponse_Ok {A} wall resp limit (target : string -> result GoError A) x : decodeResponse wall resp limit target = Ok x ->
  success (hr_Status resp) = true /\ exists payload, readBounded resp limit = Ok payload /\ target payload = Ok x.
Proof.
  unfold decodeResponse. destruct (success (hr_Status resp)); cbn [negb].
  - destruct (readBounded resp limit) as [payload|]; [|done]. destruct (target payload) as [y|] eqn:E; [|done]. intros [= <-]. eauto.
  - by destruct (readBounded resp maxErrorBodyBytes).
Qed.

Definition result_of_answer {A} (i : nat) (limit : Z) (target : string -> result GoError A) (r : result ClientError A) : Prop :=
  match r with
  | Ok x => exists resp, answered i resp /\ success (hr_Status resp) = true /\
      exists payload, readBounded resp limit = Ok payload /\ target payload = Ok x
  | Err e => forall h, ce_http e = Some h -> exists resp, answered i resp /\ success (hr_Status resp) = false /\ he_StatusCode h = hr_Status resp
  end.

(** What a sequence of attempts leaves: [l] is what it sent; every answer but the
    last was transient, and the last one decides. *)
Definition attempts_made {A} (method endpoint path body : string) (credentials : option Credentials) (limit : Z)
    (target : string -> result GoError A) (bound : nat) (st : run_state) (out : result ClientError A * run_state) : Prop :=
  exists l, sent out.2 = sent st ++ l /\ (length l <= bound)%nat /\ Forall (carries method endpoint path body credentials) l /\
    (attempted st + length l <= attempted out.2 <= attempted st + bound)%nat /\
    (forall j, (attempted st <= j)%nat -> (S j < attempted out.2)%nat -> exists resp, answered j resp /\ isTransientStatus (hr_Status resp) = true) /\
    (l = [] -> exists e, out.1 = Err e /\ ce_http e = None) /\
    result_of_answer (attempted out.2 - 1) limit target out.1.

Lemma attempts_made_plain {A} method endpoint path body credentials limit (target : string -> result GoError A) bound st e (l : list Request) n :
  Forall (carries method endpoint path body credentials) l -> (attempted st + length l <= n <= attempted st + bound)%nat -> ce_http e = None ->
  (n <= S (attempted st))%nat ->
  attempts_made method endpoint path body credentials limit target bound st (Err e, mkRun n (sent st ++ l)).
Proof.
  intros Hl Hn He H1. exists l. cbn [fst snd sent attempted]. split; [done|]. split; [lia|]. split; [done|]. split; [done|]. split; [intros; lia|].
  split; [by exists e|]. intros h Hh. congruence.
Qed.

Lemma attempts_made_unsent {A} method endpoint path body credentials limit (target : string -> result GoError A) bound st e :
  ce_http e = None -> attempts_made method endpoint path body credentials limit target (S bound) st (Err e, try_next st).
Proof.
  intros He. unfold try_next. rewrite <- (app_nil_r (sent st)). apply attempts_made_plain; [constructor|cbn [length]; lia|done|lia].
Qed.

Lemma attempts_made_stop {A} method endpoint path body credentials limit (target : string -> result GoError A) bound st e r :
  carries method endpoint path body credentials r -> ce_http e = None ->
  attempts_made method endpoint path body credentials limit target (S bound) st (Err e, mkRun (S (attempted st)) (sent st ++ [r])).
Proof. intros Hr He. apply (attempts_made_plain _ _ _ _ _ _ _ _ st e [r]); [by apply Forall_singleton|cbn [length]; lia|done|lia]. Qed.

Lemma attempts_spec {A} method endpoint path has_body body credentials limit (target : string -> result GoError A) :
  forall remaining st, attempts_made method endpoint path body credentials limit target remaining st
    (attempts answers remaining method endpoint path has_body body credentials limit target st).
Proof.
  induction remaining as [|remaining IH]; intros st.
  { cbn [attempts]. destruct st as [n l]. pose proof (attempts_made_plain method endpoint path body credentials limit target 0 (mkRun n l)
      (plain_err (errors_New "polymarket: request attempts exhausted")) [] n) as H. cbn [sent attempted length] in H. rewrite app_nil_r in H.
    apply H; [constructor|lia|done|lia]. }
  cbn [attempts]. set (a := answers (attempted st)). cbv zeta.
  destruct (p_New a) as [e|].
  { by apply attempts_made_unsent. }
  set (h0 := if has_body then _ else _).
  destruct (match credentials with None => Ok h0 | Some c => _ end) as [h|e] eqn:Eh.
  2: { by apply attempts_made_unsent. }
  assert (Hr : carries method endpoint path body credentials (mkRequest method endpoint h body)).
  { split; [done|]. split; [done|]. split; [done|]. destruct credentials as [c|]; [|done]. by apply (setL2Headers_authenticates method endpoint) in Eh as [_ ?]. }
  destruct (p_Do a) as [resp|e] eqn:Ed.
  2: { unfold sends. by apply attempts_made_stop. }
  assert (Hi : answered (attempted st) resp) by exact Ed.
  destruct (decodeResponse (p_wall a) resp limit target) as [x|e] eqn:Er.
  - destruct (p_Close a).
    { unfold sends. by apply attempts_made_stop. }
    exists [mkRequest method endpoint h body]. unfold sends. cbn [fst snd sent attempted length]. split; [done|]. split; [lia|]. split; [by apply Forall_singleton|].
    split; [lia|]. split; [intros; lia|]. split; [done|]. apply decodeResponse_Ok in Er as [Hs Hp]. exists resp.
    replace (S (attempted st) - 1)%nat with (attempted st) by lia. done.
  - destruct (ce_http e) as [he|] eqn:Ee.
    2: { unfold sends. by apply attempts_made_stop. }
    destruct (decodeResponse_http _ _ _ _ _ _ Er Ee) as [Hs Hst].
    destruct (negb (isTransientStatus (he_StatusCode he)) || (remaining =? 0)%nat) eqn:Et.
    { exists [mkRequest method endpoint h body]. unfold sends. cbn [fst snd sent attempted length]. split; [done|]. split; [lia|]. split; [by apply Forall_singleton|].
      split; [lia|]. split; [intros; lia|]. split; [done|]. intros h' Hh'. exists resp. replace (S (attempted st) - 1)%nat with (attempted st) by lia.
      split; [done|]. split; [done|]. congruence. }
    apply orb_false_iff in Et as [Et Hrem]. apply negb_false_iff in Et. apply Nat.eqb_neq in Hrem.
    destruct (if 0 <? he_RetryAfter he then p_Cancelled a else None).
    { unfold sends. by apply attempts_made_stop. }
    destruct (IH (sends (mkRequest method endpoint h body) st)) as (l & H1 & H2 & H3 & H4 & H5 & H6 & H7).
    exists (mkRequest method endpoint h body :: l). unfold sends in *. cbn [sent attempted] in *. split; [by rewrite H1, <- app_assoc|].
    split; [cbn [length]; lia|]. split; [by constructor|]. split; [cbn [length]; lia|]. split; [|split; [done|exact H7]].
    intros j Hj Hj'. destruct (decide (j = attempted st)) as [->|Hne]; [exists resp; split; [done|congruence]|apply H5; lia].
Qed.

(** ** Programs: what they send, and what they return *)

(** [m] sends at most [n] requests, each of them [P]. *)
Definition sends_only {A} (P : Request -> Prop) (n : nat) (m : M A) : Prop :=
  forall st, exists l, sent (m st).2 = sent st ++ l /\ (length l <= n)%nat /\ Forall P l.

(** A value [m] returns is [Q]. *)
Definition returns {A} (Q : A -> Prop) (m : M A) : Prop :=
  forall st, match (m st).1 with Ok x => Q x | Err _ => True end.

Lemma sends_nothing {A} P n (m : M A) : (forall st, (m st).2 = st) -> sends_only P n m.
Proof. intros H st. exists []. rewrite H, app_nil_r. cbn. split; [done|]. split; [lia|constructor]. Qed.

Lemma sends_return {A} P n (x : A) : sends_only P n (returnM x).
Proof. by apply sends_nothing. Qed.
Lemma sends_checked {A} P n pre check (x : A) : sends_only P n (checked pre check x).
Proof. apply sends_nothing. intros st. unfold checked. by destruct (check x). Qed.

(** The rest may use what is known of the value [m] returns. *)
Lemma sends_bind_returns {A B} P (Q : A -> Prop) n k (m : M A) (f : A -> M B) : sends_only P n m -> returns Q m ->
  (forall x, Q x -> sends_only P k (f x)) -> sends_only P (n + k) (bindM m f).
Proof.
  intros Hm Hq Hf st. destruct (Hm st) as (l & H1 & H2 & H3). specialize (Hq st). unfold bindM. destruct (m st) as [[x|e] st'] eqn:E; cbn [fst snd] in *.
  - destruct (Hf x Hq st') as (l' & H1' & H2' & H3'). exists (l ++ l'). rewrite H1', H1, <- app_assoc. split; [done|].
    rewrite length_app. split; [lia|by apply Forall_app].
  - exists l. split; [done|]. split; [lia|done].
Qed.

Lemma sends_bind {A B} P n k (m : M A) (f : A -> M B) : sends_only P n m -> (forall x, sends_only P k (f x)) -> sends_only P (n + k) (bindM m f).
Proof.
  intros Hm Hf. apply (sends_bind_returns P (fun _ => True)); [done| |by intros x _]. intros st. by destruct (m st).1.
Qed.

Lemma sends_guard {B} P n e (f : unit -> M B) : (e = None -> sends_only P n (f tt)) -> sends_only P n (bindM (guardM e) f).
Proof. intros H. destruct e as [e|]; [by apply sends_nothing|]. intros st. by apply H. Qed.

Lemma sends_bind_checked {A B} P n pre check (x : A) (f : A -> M B) : (check x = None -> sends_only P n (f x)) ->
  sends_only P n (bindM (checked pre check x) f).
Proof. intros H. unfold checked. destruct (check x) as [e|]; [by apply sends_nothing|]. intros st. by apply H. Qed.

Lemma sends_map_err {A} P n f (m : M A) : sends_only P n m -> sends_only P n (map_err f m).
Proof. intros H st. specialize (H st). unfold map_err. by destruct (m st) as [[x|e] st']. Qed.

Lemma sends_impl {A} (P P' : Request -> Prop) n n' (m : M A) : (forall r, P r -> P' r) -> (n <= n')%nat -> sends_only P n m -> sends_only P' n' m.
Proof. intros H Hn Hm st. destruct (Hm st) as (l & H1 & H2 & H3). exists l. split; [done|]. split; [lia|]. by eapply Forall_impl. Qed.

Lemma returns_bind {A B} (Q : A -> Prop) (R : B -> Prop) (m : M A) (f : A -> M B) : returns Q m -> (forall x, Q x -> returns R (f x)) -> returns R (bindM m f).
Proof.
  intros Hm Hf st. specialize (Hm st). unfold bindM. destruct (m st) as [[x|e] st']; cbn [fst] in *; [|done]. by apply Hf.
Qed.
Lemma returns_any {A} (m : M A) : returns (fun _ => True) m.
Proof. intros st. by destruct (m st).1. Qed.
Lemma returns_return {A} (Q : A -> Prop) x : Q x -> returns Q (returnM x).
Proof. by intros H st. Qed.
Lemma returns_guard e : returns (fun _ => e = None) (guardM e).
Proof. by destruct e. Qed.
Lemma returns_checked {A} pre check (x : A) : returns (fun y => y = x /\ check x = None) (checked pre check x).
Proof. unfold checked. destruct (check x) eqn:E; [done|]. by intros st. Qed.

(** [do]: what it sends goes to the client's base URL, at the operation's path
    and with its query, and carries its method and payload. *)
Definition max_attempts (method : string) : nat := if String.eqb method "GET" then maxTransientAttempts else 1%nat.
Definition payload_of (body : option json) : string := match body with Some v => json_Marshal v | None => "" end.
Definition addressed (c : client) (path : string) (query : option Values) (endpoint : string) : Prop :=
  exists u, url_Parse (baseURL c +:+ path) = Ok u /\
    endpoint = url_String match query with
                          | None => u
                          | Some q => mkUrl (Scheme u) (Host u) (has_User u) (Path u) (Encode q) (Fragment u)
                          end.
Definition request_of (c : client) (method path : string) (query : option Values) (body : option json) (credentials : option Credentials) (r : Request) : Prop :=
  rq_Method r = method /\ addressed c path query (rq_URL r) /\ rq_Body r = payload_of body /\
  match credentials with Some creds => authenticates creds path r | None => True end.

Lemma do_cases {A} c method path query body credentials limit (target : string -> result GoError A) st :
  let out := do_ answers c method path query body credentials limit target st in
  (out.2 = st /\ exists e, out.1 = Err e /\ ce_http e = None) \/
  exists endpoint, addressed c path query endpoint /\
    attempts_made method endpoint path (payload_of body) credentials limit target (max_attempts method) st out.
Proof.
  cbv zeta. unfold do_. destruct (url_Parse (baseURL c +:+ path)) as [parsed|e] eqn:Eu; [|left; split; [done|by eexists]].
  destruct (match body with Some _ => _ | None => false end); [left; split; [done|by eexists]|].
  right. exists (url_String (set_query query parsed)). split; [by exists parsed|]. cbv zeta. apply attempts_spec.
Qed.

Lemma sends_do {A} c method path query body credentials limit (target : string -> result GoError A) :
  sends_only (request_of c method path query body credentials) (max_attempts method) (do_ answers c method path query body credentials limit target).
Proof.
  intros st. destruct (do_cases c method path query body credentials limit target st) as [[H _]|(endpoint & Hu & l & H1 & H2 & H3 & _)].
  - exists []. rewrite H, app_nil_r. split; [done|]. split; [cbn; lia|constructor].
  - exists l. split; [done|]. split; [done|]. eapply Forall_impl; [exact H3|]. intros r (? & <- & ? & ?). by split_and!.
Qed.

(** A value [do] returns was decoded from an answer. *)
Definition decoded_from {A} (limit : Z) (target : string -> result GoError A) (x : A) : Prop :=
  exists i resp text, answered i resp /\ success (hr_Status resp) = true /\ readBounded resp limit = Ok text /\ target text = Ok x.

Lemma returns_do {A} c method path query body credentials limit (target : string -> result GoError A) :
  returns (decoded_from limit target) (do_ answers c method path query body credentials limit target).
Proof.
  intros st. destruct (do_cases c method path query body credentials limit target st) as [(_ & e & -> & _)|(endpoint & _ & l & H)]; [done|].
  destruct H as (_ & _ & _ & _ & _ & _ & H). destruct (do_ _ _ _ _ _ _ _ _ _ _) as [[x|e] st']; cbn [fst] in *; [|done].
  destruct H as (resp & Ha & Hs & text & Hr & Ht). do 3 eexists. by split_and!.
Qed.

Lemma if_Some_None {A} (b : bool) (x : A) : (if b then Some x else None) = None -> b = false.
Proof. by destruct b. Qed.

(** ** Every operation *)

Inductive operation :=
| OpListMarkets (nextCursor : string)
| OpGetMarket (conditionID : string) (includeBooks : bool)
| OpPostOrder (credentials : Credentials) (order : SignedOrder)
| OpListOpenOrders (credentials : Credentials) (filter : OpenOrderFilter)
| OpGetOrder (credentials : Credentials) (orderID : string)
| OpUpdateBalanceAllowance (credentials : Credentials) (update : BalanceAllowanceUpdate)
| OpCancelOrder (credentials : Credentials) (orderID : string)
| OpRevokeCredentials (credentials : Credentials).

Definition discard {A} (m : M A) : M unit := bindM m (fun _ => returnM tt).

Definition perform (c : client) (op : operation) : M unit :=
  match op with
  | OpListMarkets cursor => discard (ListMarkets answers c cursor)
  | OpGetMarket id books => discard (GetMarket answers c id books)
  | OpPostOrder creds order => discard (PostOrder answers c creds order)
  | OpListOpenOrders creds filter => discard (ListOpenOrders answers c creds filter)
  | OpGetOrder creds id => discard (GetOrder answers c creds id)
  | OpUpdateBalanceAllowance creds update => UpdateBalanceAllowance answers c creds update
  | OpCancelOrder creds id => discard (CancelOrder answers c creds id)
  | OpRevokeCredentials creds => RevokeCredentials answers c creds
  end.

(** What an operation may send, and how much of it. *)
Definition permitted (c : client) (op : operation) (r : Request) : Prop :=
  match op with
  | OpListMarkets cursor =>
      validateCursor cursor = None /\
      exists q, sets [("next_cursor", given cursor cursor)] q /\ request_of c "GET" "/sampling-markets" (Some q) None None r
  | OpGetMarket id books =>
      isHash id = true /\
      (request_of c "GET" ("/markets/" +:+ ToLower id) None None None r \/
       books = true /\ exists m t q, decoded_from maxPublicBodyBytes (json_target decode_market) m /\ EqualFold (m_ConditionID m) id = true /\
         t ∈ m_Tokens m /\ IsCanonicalUint256 (t_TokenID t) false = true /\ sets [("token_id", Some (t_TokenID t))] q /\
         request_of c "GET" "/book" (Some q) None None r)
  | OpPostOrder creds order =>
      orderSubmissionEnabled c = true /\ validate_credentials creds = None /\ validate_signed order = None /\
      request_of c "POST" "/order" None (Some (payload order (cr_APIKey creds))) (Some creds) r
  | OpListOpenOrders creds filter =>
      validate_credentials creds = None /\ validate_filter filter = None /\
      exists q, sets [("next_cursor", given (f_NextCursor filter) (f_NextCursor filter)); ("id", given (f_OrderID filter) (f_OrderID filter));
                      ("asset_id", given (f_TokenID filter) (f_TokenID filter)); ("market", given (f_ConditionID filter) (ToLower (f_ConditionID filter)))] q /\
        request_of c "GET" "/data/orders" (Some q) None (Some creds) r
  | OpGetOrder creds id =>
      validate_credentials creds = None /\ validateOrderID id = None /\
      request_of c "GET" ("/data/order/" +:+ ToLower id) None None (Some creds) r
  | OpUpdateBalanceAllowance creds update =>
      validate_credentials creds = None /\ validate_allowance update = None /\
      exists q, sets [("token_id", given (u_TokenID update) (u_TokenID update)); ("signature_type", Some "3"); ("asset_type", Some (u_AssetType update))] q /\
        request_of c "GET" "/balance-allowance/update" (Some q) None (Some creds) r
  | OpCancelOrder creds id =>
      validate_credentials creds = None /\ validateOrderID id = None /\
      request_of c "DELETE" "/order" None (Some (JObject [("orderID", JString id)])) (Some creds) r
  | OpRevokeCredentials creds =>
      validate_credentials creds = None /\ request_of c "DELETE" "/auth/api-key" None None (Some creds) r
  end.

Definition budget (op : operation) : nat :=
  match op with
  | OpPostOrder _ _ | OpCancelOrder _ _ | OpRevokeCredentials _ => 1
  | OpGetMarket _ true => 2 + 64 * 2
  | _ => 2
  end.

Lemma requireCredentials_None creds : requireCredentials creds = None -> validate_credentials creds = None.
Proof. unfold requireCredentials. by destruct (validate_credentials creds). Qed.

Lemma sends_discard {A} P n (m : M A) : sends_only P n m -> sends_only P n (discard m).
Proof. intros H. unfold discard. rewrite <- (Nat.add_0_r n). apply sends_bind; [done|]. intros x. apply sends_return. Qed.

Lemma sends_do_then {A B} (P : Request -> Prop) c method path query body credentials limit (target : string -> result GoError A) (f : A -> M B) n :
  (forall r, request_of c method path query body credentials r -> P r) -> (forall x, decoded_from limit target x -> sends_only P n (f x)) ->
  sends_only P (max_attempts method + n) (bindM (do_ answers c method path query body credentials limit target) f).
Proof. intros H Hf. eapply sends_bind_returns; [|apply returns_do|done]. eapply sends_impl; [exact H|reflexivity|apply sends_do]. Qed.

Lemma sends_books P c tokens : (forall t q r, t ∈ tokens -> IsCanonicalUint256 (t_TokenID t) false = true -> sets [("token_id", Some (t_TokenID t))] q ->
    request_of c "GET" "/book" (Some q) None None r -> P r) ->
  sends_only P (length tokens * 2) (with_books answers c tokens).
Proof.
  induction tokens as [|t tokens IH]; intros HP; [apply sends_return|]. cbn [with_books length Nat.mul]. change (S (S (length tokens * 2))) with (2 + length tokens * 2)%nat.
  apply sends_bind.
  - apply sends_guard. intros Ht%if_Some_None%negb_false_iff. change 2%nat with (max_attempts "GET" + 0)%nat. apply sends_do_then; [|intros; apply sends_checked].
    intros r Hr. eapply HP; [by left|exact Ht| |exact Hr]. apply sets_Set, sets_nil.
  - intros book. rewrite <- (Nat.add_0_r (length tokens * 2)). apply sends_bind; [|intros rest; apply sends_return].
    apply IH. intros t' q r Ht'. apply HP. by right.
Qed.

Lemma validate_market_tokens m : validate_market m = None -> (1 <= length (m_Tokens m) <= 64)%nat.
Proof.
  unfold validate_market. repeat (case_match; try done).
  match goal with H : (_ || _) = false |- _ => apply orb_false_iff in H as [?%Nat.eqb_neq ?%Nat.ltb_ge] end. lia.
Qed.


(** ** An order's fate *)

(** C26: Posting an order has one of three ends.  Nothing was sent, and the error
    is no rejection; or one request was sent and the call returns the placement
    the provider answered with; or one was sent and failed, and the error counts
    as a rejection only if the provider answered it with a client error other
    than a timeout. *)
Theorem PostOrder_outcome c creds order :
  let out := PostOrder answers c creds order (mkRun 0 []) in
  match sent out.2, out.1 with
  | [], Err e => IsDefinitiveSubmissionRejection e = false
  | [_], Ok placement => validate_placement placement = None /\
      exists resp payload, answered 0 resp /\ success (hr_Status resp) = true /\ readBounded resp maxPrivateBodyBytes = Ok payload /\
        json_target decode_placement payload = Ok placement
  | [_], Err e => IsDefinitiveSubmissionRejection e = true ->
      exists resp, answered 0 resp /\ 400 <= hr_Status resp < 500 /\ hr_Status resp <> 408
  | _, _ => False
  end.
Proof.
  assert (Hplain : forall e, ce_http e = None -> IsDefinitiveSubmissionRejection e = false) by (unfold IsDefinitiveSubmissionRejection; by intros e ->).
  unfold PostOrder, bindM at 1. destruct (requireSubmission c creds) as [e|]; [done|]. cbn [guardM].
  unfold bindM at 1. destruct (validate_signed order) as [e|]; [done|]. cbn [guardM]. unfold bindM, returnM. cbv beta iota zeta.
  set (target := json_target decode_placement). set (body := Some (payload order _)).
  pose proof (do_cases c "POST" "/order" None body (Some creds) maxPrivateBodyBytes target (mkRun 0 [])) as H. cbv zeta in H.
  destruct (do_ _ _ _ _ _ _ _ _ _ _) as [r st]; cbn [fst snd sent attempted] in *.
  destruct H as [[-> (e & -> & He)]|(endpoint & _ & l & H1 & H2 & H3 & H4 & _ & H6 & H7)]; cbn [fst snd sent attempted]; [by apply Hplain|].
  cbn [app fst snd sent attempted] in H1, H2, H4, H6, H7. change (max_attempts "POST") with 1%nat in H2, H4.
  destruct l as [|q [|q' l]]; [|cbn [length] in *|cbn [length] in *; lia].
  { destruct (H6 eq_refl) as (e & -> & He). cbn [fst snd]. rewrite H1. by apply Hplain. }
  replace (attempted st - 1)%nat with 0%nat in H7 by lia. destruct r as [placement|e]; cbn [result_of_answer] in H7.
  - destruct H7 as (resp & Ha & Hs & payload & Hp & Ht). unfold checked. destruct (validate_placement placement) eqn:Ev; unfold failM, returnM; cbn [fst snd]; rewrite H1; [done|].
    split; [done|]. by exists resp, payload.
  - cbn [fst snd]. rewrite H1. unfold IsDefinitiveSubmissionRejection. destruct (ce_http e) as [h|] eqn:Eh; [|done].
    destruct (H7 h eq_refl) as (resp & Ha & _ & Hst). intros Hd. exists resp. split; [done|]. rewrite <- Hst.
    apply andb_true_iff in Hd as [Hd H408%negb_true_iff%Z.eqb_neq]. apply andb_true_iff in Hd as [?%Z.leb_le ?%Z.ltb_lt]. done.
Qed.

End safety.

(** ** What the CLOB client returns is well formed

    Well-formedness stated on values, not on the checks: identifiers as numbers
    and bytes, prices and sizes as the fixed-point amounts of [Units.Parse],
    keys without duplicates.  Every response that comes out satisfies it. *)

(** ** Well-formed values *)

Definition hex_bytes (n : nat) (s : string) : Prop :=
  exists t data, s = "0x" +:+ t /\ DecodeString t = Some data /\ length data = n /\ SetBytes data <> 0.

Definition uint256_text (s : string) : Prop := exists v, SetString10 s = Some v /\ 0 < v < 2 ^ 256.

(** An amount in millionths. *)
Definition decimal_in (low high : Z) (s : string) : Prop := exists v, Parse s 6 = Ok v /\ low <= v <= high.

Definition wf_level (l : BookLevel) : Prop := decimal_in 1 999999 (l_Price l) /\ decimal_in 1 (2 ^ 256 - 1) (l_Size l).

Definition wf_book (tokenID : string) (b : OrderBook) : Prop :=
  hex_bytes 32 (ob_Market b) /\ ob_AssetID b = tokenID /\ Z.of_nat (length (ob_Bids b)) <= 20000 /\ Z.of_nat (length (ob_Asks b)) <= 20000 /\
  Forall wf_level (ob_Bids b) /\ Forall wf_level (ob_Asks b).

Section typed.
Context `{U : UnicodeTables} `{G : GoEthereum} `{AB : !Abi} `{AL : !AuthLibrary} `{JE : JsonErrors} `{JS : JsonStream} `{JT : JsonText} `{TJ : TimeJson} `{UT : UrlText}.
Variable answers : nat -> reply.

(** A token but for a book, which the checks of markets leave alone. *)
Definition wf_token (t : Token) : Prop :=
  uint256_text (t_TokenID t) /\ TrimSpace (t_Outcome t) <> "" /\ (slen (t_Outcome t) <= 1024)%nat /\ decimal_in 0 1000000 (t_Price t).

Definition wf_market (m : Market) : Prop :=
  hex_bytes 32 (m_ConditionID m) /\ TrimSpace (m_Question m) <> "" /\
  ((slen (m_Question m) <= kib 16)%nat /\ (slen (m_Description m) <= kib 256)%nat /\ (slen (m_Slug m) <= 1024)%nat /\
   (slen (m_Icon m) <= kib 4)%nat /\ (slen (m_Image m) <= kib 4)%nat) /\
  decimal_in 0 (2 ^ 64 - 1) (m_MinimumTickSize m) /\ decimal_in 0 (2 ^ 64 - 1) (m_MinimumOrderSize m) /\
  (1 <= length (m_Tokens m) <= 64)%nat /\ NoDup (t_TokenID <$> m_Tokens m) /\ Forall wf_token (m_Tokens m).

Definition has_book (t : Token) : Prop := exists b, t_Book t = Some b /\ wf_book (t_TokenID t) b.

Definition wf_page (p : MarketPage) : Prop :=
  Z.of_nat (length (mp_Data p)) <= 2000 /\ NoDup (market_key <$> mp_Data p) /\ Forall wf_market (mp_Data p) /\ validateCursor (mp_NextCursor p) = None.

Definition wf_open_order (o : OpenOrder) : Prop :=
  (1 <= slen (oo_ID o) <= 256)%nat /\ hex_bytes 20 (oo_MakerAddress o) /\ hex_bytes 32 (oo_Market o) /\ uint256_text (oo_AssetID o) /\
  (oo_Side o = "BUY" \/ oo_Side o = "SELL") /\ (slen (oo_Status o) <= 128)%nat /\ (length (oo_AssociateTrades o) <= 256)%nat.

Definition wf_order_page (p : OpenOrderPage) : Prop :=
  Z.of_nat (length (op_Data p)) <= 2000 /\ Forall wf_open_order (op_Data p) /\ validateCursor (op_NextCursor p) = None.

(** A placement that succeeded, of an order with an identifier. *)
Definition wf_placement (p : OrderPlacement) : Prop :=
  p_Success p = true /\ (1 <= slen (p_OrderID p) <= 256)%nat /\ sforall order_id_char (p_OrderID p) = true /\
  (slen (p_ErrorMessage p) <= kib 16)%nat /\ (slen (p_Status p) <= 128)%nat /\
  (length (p_TransactionHashes p) <= 256)%nat /\ (length (p_TradeIDs p) <= 256)%nat.

(** A cancellation that mentions the order, cancelled or not. *)
Definition mentions (orderID : string) (r : CancelResult) : Prop :=
  (orderID ∈ c_Canceled r \/ is_Some (c_NotCanceled r !! orderID)) /\
  (length (c_Canceled r) <= 256)%nat /\ (size (c_NotCanceled r) <= 256)%nat.

(** ** The checks establish it *)

Lemma hex_char_value c : hex_char c = true -> exists n, hex_value c = Some n /\ 0 <= n < 16 /\ (n = 0 -> c = "0"%char).
Proof. destruct c as [[] [] [] [] [] [] [] []]; vm_compute; try discriminate; intros _; eexists; (split; [reflexivity|split; [split; congruence|congruence]]). Qed.

Lemma DecodeString_hex n : forall s, sforall hex_char s = true -> slen s = (2 * n)%nat ->
  exists data, DecodeString s = Some data /\ length data = n /\ (SetBytes data = 0 -> sforall (Ascii.eqb "0"%char) s = true).
Proof.
  induction n as [|n IH]; intros s Hs Hl.
  { apply slen_zero in Hl as ->. by exists []. }
  destruct s as [|a [|b s]]; [cbn in Hl; lia|cbn in Hl; lia|]. cbn [sforall] in Hs. apply andb_true_iff in Hs as [Ha [Hb Hs]%andb_true_iff].
  destruct (IH s Hs) as (data & Hd & Hlen & Hz); [cbn in Hl; lia|].
  destruct (hex_char_value a Ha) as (x & Hx & Hx' & Hx0), (hex_char_value b Hb) as (y & Hy & Hy' & Hy0).
  exists (byte_of (16 * x + y) :: data). cbn [DecodeString]. rewrite Hx, Hy, Hd. cbn [mbind option_bind]. split; [done|]. split; [cbn [length]; lia|].
  rewrite SetBytes_cons, byte_of_spec, Z.mod_small by lia. intros H. pose proof (SetBytes_bounds data).
  assert (0 < 256 ^ Z.of_nat (length data)) by (apply Z.pow_pos_nonneg; lia). assert (16 * x + y = 0) by nia.
  cbn [sforall]. rewrite (Hx0 ltac:(lia)), (Hy0 ltac:(lia)). apply Hz. nia.
Qed.

Lemma hex_bytes_check n s : HasPrefix s "0x" = true -> slen s = (2 + 2 * n)%nat -> isHex (sdrop 2 s) = true -> not_all_zeros (sdrop 2 s) = true -> hex_bytes n s.
Proof.
  intros Hp Hl [Hh _]%andb_true_iff Hz. apply HasPrefix_split in Hp as [_ Hp]. destruct (DecodeString_hex n (sdrop 2 s) Hh) as (data & Hd & Hlen & H0).
  { rewrite slen_sdrop. lia. }
  exists (sdrop 2 s), data. split; [exact Hp|]. split; [done|]. split; [done|]. intros H. unfold not_all_zeros in Hz. by rewrite H0 in Hz.
Qed.

Lemma isHash_bytes s : isHash s = true -> hex_bytes 32 s.
Proof. unfold isHash. intros H. utf8_split. apply hex_bytes_check; try done. by apply Nat.eqb_eq. Qed.

Lemma isAddress_bytes s : isAddress s = true -> hex_bytes 20 s.
Proof.
  unfold isAddress. destruct (negb (slen s =? 42)%nat || negb (HasPrefix s "0x")) eqn:E; [done|]. intros [H1 H2]%andb_true_iff.
  apply orb_false_iff in E as [E1%negb_false_iff%Nat.eqb_eq E2%negb_false_iff]. by apply hex_bytes_check.
Qed.

Lemma canonical_uint256 s : IsCanonicalUint256 s false = true -> uint256_text s.
Proof.
  unfold IsCanonicalUint256. destruct (_ || _ || _ || _); [done|]. destruct (SetString10 s) as [v|] eqn:E; [|done].
  destruct ((v <? 0) || (256 <? BitLen v)) eqn:E'; [done|]. cbn [orb]. intros H%Z.ltb_lt. exists v. split; [done|].
  apply orb_false_iff in E' as [_ E']. rewrite BitLen_256 in E' by lia. apply negb_false_iff, Z.ltb_lt in E'. lia.
Qed.

Lemma fixed_point_in s v low high : ParseFixedPoint s 6 = Ok v -> low <= v -> v <= high -> decimal_in low high s.
Proof. intros H Hl Hh. exists v. by destruct (ParseFixedPoint_agrees _ _ _ H). Qed.

Lemma DecimalToE6_in s v : DecimalToE6 s = Ok v -> decimal_in 0 (2 ^ 64 - 1) s.
Proof.
  unfold DecimalToE6. destruct (ParseFixedPoint s 6) as [w|] eqn:E; [|done]. destruct (_ || _) eqn:E'; [done|]. intros [= ->].
  apply orb_false_iff in E' as [_ E'%negb_false_iff%bool_decide_eq_true]. unfold is_u64, u64_modulus in E'. apply (fixed_point_in _ _ _ _ E); lia.
Qed.

Lemma validate_level_wf l : validate_level l = None -> wf_level l.
Proof.
  unfold validate_level. destruct (ParseFixedPoint (l_Price l) 6) as [p|] eqn:Ep; [|done]. destruct (_ || _) eqn:E; [done|].
  destruct (ParseFixedPoint (l_Size l) 6) as [z|] eqn:Ez; [|done]. destruct (z <=? 0) eqn:E'; [done|]. intros _.
  split; [apply (fixed_point_in _ _ _ _ Ep); lia|]. apply (fixed_point_in _ _ _ _ Ez); [lia|].
  destruct (ParseFixedPoint_agrees _ _ _ Ez). lia.
Qed.

Lemma first_invalid_None {A} name (check : A -> option GoError) (P : A -> Prop) : (forall x, check x = None -> P x) ->
  forall l index, first_invalid name check index l = None -> Forall P l.
Proof.
  intros H. induction l as [|x l IH]; intros index; cbn [first_invalid]; [constructor|]. destruct (check x) eqn:E; [done|].
  intros Hl. constructor; [by apply H|by eapply IH].
Qed.

Lemma validate_book_wf id b : validate_book id b = None -> wf_book id b.
Proof.
  unfold validate_book. destruct (negb (isHash (ob_Market b)) || _) eqn:E; [done|]. destruct ((20000 <? _) || _) eqn:E'; [done|].
  apply orb_false_iff in E as [E1%negb_false_iff E2%negb_false_iff%String.eqb_eq]. destruct (first_invalid "bid" _ _ _) eqn:Eb; [done|].
  intros Ea. split; [by apply isHash_bytes|]. split; [done|]. split; [lia|]. split; [lia|].
  split; [eapply first_invalid_None; [apply validate_level_wf|exact Eb]|eapply first_invalid_None; [apply validate_level_wf|exact Ea]].
Qed.

Lemma validate_token_wf t : validate_token t = None -> wf_token t.
Proof.
  unfold validate_token. destruct (IsCanonicalUint256 _ _) eqn:E1; [|done]. cbn [negb].
  destruct (String.eqb_spec (TrimSpace (t_Outcome t)) "") as [|Ho]; [done|]. cbn [orb]. destruct (Nat.ltb_spec 1024 (slen (t_Outcome t))); [done|].
  destruct (ParseFixedPoint (t_Price t) 6) as [p|] eqn:Ep; [|done]. destruct (_ || _) eqn:E; [done|]. intros _.
  split; [by apply canonical_uint256|]. split; [done|]. split; [done|]. apply (fixed_point_in _ _ _ _ Ep); lia.
Qed.

Lemma first_invalid_or_duplicate_None {A} name dup (check : A -> option GoError) key (P : A -> Prop) : (forall x, check x = None -> P x) ->
  forall l seen index, first_invalid_or_duplicate name dup check key seen index l = None ->
  Forall P l /\ NoDup (key <$> l) /\ Forall (fun x => key x ∉ seen) l.
Proof.
  intros H. induction l as [|x l IH]; intros seen index; cbn [first_invalid_or_duplicate]; [by repeat constructor|].
  destruct (check x) eqn:E; [done|]. case_bool_decide as Hx; [done|]. intros (H1 & H2 & H3)%IH.
  split; [constructor; auto|]. split.
  - cbn [fmap list_fmap]. constructor; [|done]. intros (y & Hy & Hin)%list_elem_of_fmap. rewrite Forall_forall in H3. apply (H3 y Hin). set_solver.
  - constructor; [done|]. eapply Forall_impl; [exact H3|]. cbn. set_solver.
Qed.

Lemma validate_market_wf m : validate_market m = None -> wf_market m.
Proof.
  intros Hm. pose proof (validate_market_tokens m Hm) as Hlen. revert Hm. unfold validate_market.
  destruct (isHash (m_ConditionID m)) eqn:E1; [|done]. cbn [negb].
  destruct (String.eqb_spec (TrimSpace (m_Question m)) "") as [|Hq]; [done|]. cbn [orb]. destruct (Nat.ltb_spec (kib 16) (slen (m_Question m))) as [|Hql]; [done|].
  destruct (_ || _ || _ || _) eqn:Etext; [done|]. rewrite !orb_false_iff, !Nat.ltb_ge in Etext. destruct Etext as [[[Ht1 Ht2] Ht3] Ht4].
  destruct (DecimalToE6 (m_MinimumTickSize m)) eqn:Et; [|done].
  destruct (DecimalToE6 (m_MinimumOrderSize m)) eqn:Es; [|done]. destruct (_ || _); [done|].
  intros (H1 & H2 & _)%(first_invalid_or_duplicate_None _ _ _ _ _ validate_token_wf).
  split; [by apply isHash_bytes|]. split; [done|]. split; [done|]. split; [by eapply DecimalToE6_in|]. split; [by eapply DecimalToE6_in|]. done.
Qed.

Lemma validate_page_wf p : validate_page p = None -> wf_page p.
Proof.
  unfold validate_page. destruct (2000 <? _) eqn:E; [done|]. destruct (validateCursor _) eqn:Ec; [done|].
  intros (H1 & H2 & _)%(first_invalid_or_duplicate_None _ _ _ _ _ validate_market_wf). split; [lia|done].
Qed.

Lemma validate_open_order_wf maker o : validate_open_order maker o = None -> wf_open_order o.
Proof.
  unfold validate_open_order, validateOrderID. destruct (orderIDPattern (oo_ID o)) eqn:E1; [|done]. cbn [negb].
  destruct (isAddress (oo_MakerAddress o)) eqn:E2; [|done]. cbn [negb orb]. destruct (_ && _); [done|].
  destruct (isHash (oo_Market o)) eqn:E3; [|done]. destruct (IsCanonicalUint256 _ _) eqn:E4; [|done]. cbn [negb orb].
  destruct (negb (String.eqb (oo_Side o) "BUY") && _) eqn:E5; [done|].
  destruct ((128 <? slen (oo_Status o))%nat || _) eqn:E6; [done|]. intros _. apply orb_false_iff in E6 as [?%Nat.ltb_ge ?%Nat.ltb_ge].
  unfold orderIDPattern in E1. utf8_split. repeat split; try (by apply isAddress_bytes); try (by apply isHash_bytes); try (by apply canonical_uint256).
  - by apply Nat.leb_le.
  - by apply Nat.leb_le.
  - destruct (String.eqb_spec (oo_Side o) "BUY"); [by left|]. right. destruct (String.eqb_spec (oo_Side o) "SELL"); [done|discriminate].
  - done.
  - done.
Qed.

Lemma validate_order_page_wf maker p : validate_order_page maker p = None -> wf_order_page p.
Proof.
  unfold validate_order_page. destruct (2000 <? _) eqn:E; [done|]. destruct (validateCursor _) eqn:Ec; [done|].
  intros H. split; [lia|]. split; [|done]. eapply first_invalid_None; [apply validate_open_order_wf|exact H].
Qed.

Lemma validate_placement_wf p : validate_placement p = None -> wf_placement p.
Proof.
  unfold validate_placement, validateOrderID. destruct (p_Success p) eqn:Es; [|done]. destruct (orderIDPattern (p_OrderID p)) eqn:E; [|done].
  cbn [negb orb]. destruct (_ || _ || _ || _) eqn:Eb; [done|]. intros _. rewrite !orb_false_iff, !Nat.ltb_ge in Eb. destruct Eb as [[[? ?] ?] ?].
  unfold orderIDPattern in E. apply andb_true_iff in E as [[E1 ?%Nat.leb_le]%andb_true_iff ?%Nat.leb_le]. by split_and!.
Qed.

Lemma validate_cancel_mentions id r : validate_cancel id r = None -> mentions id r.
Proof.
  unfold validate_cancel. destruct (_ || _) eqn:Eb; [done|]. rewrite orb_false_iff, !Nat.ltb_ge in Eb. intros H. split; [|done]. revert H.
  destruct (find_canceled id (c_Canceled r)) as [o|] eqn:E.
  - intros ->. left. clear Eb. revert E. induction (c_Canceled r) as [|x l IH]; [done|]. cbn [find_canceled].
    destruct (validateOrderID x); [done|]. destruct (String.eqb_spec x id) as [->|]; [by left|]. intros H. right. by apply IH.
  - destruct (c_NotCanceled r !! id) eqn:E'; [|done]. intros _. right. by eexists.
Qed.

(** ** Results *)

Definition same_token (t t' : Token) : Prop := t_TokenID t' = t_TokenID t /\ t_Outcome t' = t_Outcome t /\ t_Price t' = t_Price t.

Lemma with_books_returns c tokens : returns (fun l => Forall2 same_token tokens l /\ Forall has_book l) (with_books answers c tokens).
Proof.
  induction tokens as [|t tokens IH]; cbn [with_books]; [by apply returns_return|].
  apply (returns_bind (wf_book (t_TokenID t))).
  - unfold getBook. eapply returns_bind; [apply returns_any|]. intros _ _. eapply returns_bind; [apply returns_any|]. intros b _.
    intros st. pose proof (returns_checked "polymarket: invalid order book: " (validate_book (t_TokenID t)) b st) as H.
    destruct (checked _ _ _ _) as [[x|e] st']; cbn [fst] in *; [|done]. destruct H as [-> H]. by apply validate_book_wf.
  - intros b Hb. eapply returns_bind; [exact IH|]. intros l [H1 H2]. apply returns_return. split; [by constructor|].
    constructor; [by exists b|done].
Qed.

Lemma set_Tokens_wf m tokens : wf_market m -> Forall2 same_token (m_Tokens m) tokens -> wf_market (set_Tokens m tokens).
Proof.
  intros (H1 & H2 & H3 & H4 & H5 & H6 & H7 & H8) Ht. split; [done|]. split; [done|]. split; [done|]. split; [done|]. split; [done|]. cbn [m_Tokens set_Tokens].
  split; [by rewrite <- (Forall2_length _ _ _ Ht)|]. split.
  - replace (t_TokenID <$> tokens) with (t_TokenID <$> m_Tokens m); [done|]. clear -Ht. induction Ht as [|t t' l l' H _ IH]; [done|].
    cbn [fmap list_fmap]. f_equal; [symmetry; exact (proj1 H)|exact IH].
  - clear -H8 Ht. induction Ht as [|t t' l l' H _ IH]; [constructor|]. apply Forall_cons in H8 as [Hw H8]. constructor; [|by apply IH].
    destruct t, t', H as (E1 & E2 & E3). cbn in E1, E2, E3. by subst.
Qed.

Lemma checked_wf {A} (Q : A -> Prop) pre check (x : A) : (forall y, check y = None -> Q y) -> returns Q (checked pre check x).
Proof.
  intros H st. pose proof (returns_checked pre check x st) as Hc. destruct (checked _ _ _ _) as [[y|e] st']; cbn [fst] in *; [|done].
  destruct Hc as [-> Hc]. by apply H.
Qed.

Ltac skip := eapply returns_bind; [apply returns_any|intros ? _].


(** ** Credentials *)

Lemma exchange_sends c method path auth :
  sends_only (fun r => rq_Method r = method /\ rq_URL r = baseURL c +:+ path /\ rq_Header r = l1_headers auth /\ rq_Body r = "") 1
    (exchangeCredentials answers c method path auth).
Proof.
  intros st. unfold exchangeCredentials. destruct (p_New (answers (attempted st))); [exists []; cbn; rewrite app_nil_r; split; [done|split; [lia|constructor]]|].
  exists [mkRequest method (baseURL c +:+ path) (l1_headers auth) ""]. split; [|split; [done|by repeat constructor]].
  destruct (p_Do _) as [resp|]; [|done]. destruct (negb (success _)); [done|]. destruct (readBounded resp 4096) as [text|]; [|done].
  by destruct (decode_credentials auth text).
Qed.

Lemma exchange_returns c method path auth :
  returns (fun creds => validate_credentials creds = None /\ cr_Address creds = ToLower (l1_Address auth)) (exchangeCredentials answers c method path auth).
Proof.
  intros st. unfold exchangeCredentials. destruct (p_New (answers (attempted st))); [done|]. destruct (p_Do _) as [resp|]; [|done].
  destruct (negb (success _)); [done|]. destruct (readBounded resp 4096) as [text|]; [|done].
  destruct (decode_credentials auth text) as [creds|] eqn:E; cbn [fst]; [|done]. revert E. unfold decode_credentials.
  destruct (json_parse text) as [raw|]; [|done]. destruct (let? _ := field d_string "" "apiKey" raw in _) as [x|] eqn:E; [|done].
  destruct (validate_credentials x) eqn:Ev; [done|]. intros [= <-]. split; [done|].
  apply result_bind_Ok in E as (key & _ & E). apply result_bind_Ok in E as (secret & _ & E). by apply result_bind_Ok in E as (pass & _ & [= <-]).
Qed.

Definition owned_by (auth : L1Authorization) (r : result ClientError Credentials) : Prop :=
  match r with Ok creds => validate_credentials creds = None /\ cr_Address creds = ToLower (l1_Address auth) | Err _ => True end.

Definition posts (l : list Request) : nat := length (List.filter (fun r => String.eqb (rq_Method r) "POST") l).
(** A creation or a derivation, with the proof's headers. *)
Definition with_proof (c : client) (auth : L1Authorization) (r : Request) : Prop :=
  (rq_Method r = "POST" /\ rq_URL r = baseURL c +:+ "/auth/api-key" \/
   rq_Method r = "GET" /\ rq_URL r = baseURL c +:+ "/auth/derive-api-key") /\
  rq_Header r = l1_headers auth /\ rq_Body r = "".

Lemma posts_get (l l' : list Request) : (length l <= 1)%nat -> (length l' <= 1)%nat -> Forall (fun r => rq_Method r = "GET") l' ->
  (posts (l ++ l') <= 1)%nat /\ (length (l ++ l') <= 2)%nat.
Proof.
  intros Hl Hl' Hg. unfold posts. rewrite List.filter_app, !length_app. pose proof (List.filter_length_le (fun r => String.eqb (rq_Method r) "POST") l).
  assert (E : List.filter (fun r => String.eqb (rq_Method r) "POST") l' = []).
  { clear -Hg. induction Hg as [|x l' E _ IH]; [done|]. cbn [List.filter]. by rewrite (proj2 (String.eqb_neq (rq_Method x) "POST")) by (rewrite E; done). }
  rewrite E. cbn [length]. lia.
Qed.


End typed.
