(* ===== verification/Merkl.v ===== *)
(** * The Merkl client (providers/merkl)

    Opportunities and their pages, rewards, claims and history: the queries, the
    guards, the responses and their decoding.  A run threads the requests made;
    what the n-th one meets is the n-th [reply]. *)
From Stdlib Require Import Ascii SpecFloat.
From S2P Require Import HttpClient.
From S2P Require Export Json Exchange Query Calendar Decimal.
Local Open Scope Z_scope.
Local Open Scope go_scope.

Definition defaultBaseURL : string := "https://api.merkl.xyz".
Definition apiKeyHeader : string := "X-API-Key".
Definition rootsLivePath : string := "/v4/roots/live".
Definition opportunitiesPath : string := "/v4/opportunities".
Definition opportunitiesCountPath : string := "/v4/opportunities/count".
Definition claimsPath : string := "/v4/claims/".
Definition defaultItemsLimit : Z := 100.
Definition MaxOpportunityItems : Z := 100.
Definition maxResponseBody : Z := Z.shiftl 8 20.
Definition maxErrorResponseBytes : Z := 512.
Definition maxOpportunityPages : nat := 1000.
#[global] Arguments maxOpportunityPages : simpl never.

(** [fmt.Sprintf(userRewardsPath, user)] *)
Definition userRewardsPath (user : string) : string := "/v4/users/" +:+ user +:+ "/rewards".

(** ** Types (types.go) *)

Definition CampaignTypeERC20MultiTokenCrossChain : string := "ERC20_MULTI_TOKEN_CROSS_CHAIN".

Record OpportunityQuery := mkOpportunityQuery { oq_ChainID : Z; oq_Items : Z; oq_Page : Z; oq_MainProtocolID : string; oq_Status : string; oq_Campaigns : bool }.
Record OpportunityCountQuery := mkCountQuery { cq_ChainID : Z; cq_MainProtocolID : string; cq_Status : string }.

Record Token := mkToken { tk_ChainID : Z; tk_Address : string; tk_Symbol : string; tk_Icon : string; tk_Decimals : Z; tk_Price : float64 }.
Record APRBreakdown := mkAPRBreakdown { ab_Identifier : string; ab_Type : string; ab_DistributionType : string; ab_Value : float64 }.
Record APRRecord := mkAPRRecord { ar_Cumulated : float64; ar_Timestamp : string; ar_Breakdowns : list APRBreakdown }.
Record NativeAPRRecord := mkNativeAPR { na_Title : string; na_Description : string; na_Value : float64; na_Timestamp : string }.
Record RewardBreakdown := mkRewardBreakdown {
  rb_CampaignID : string; rb_OnChainCampaignID : string; rb_DistributionType : string; rb_Amount : string; rb_Token : Token; rb_Value : float64 }.
Record RewardsRecord := mkRewardsRecord { rr_Total : float64; rr_Breakdowns : list RewardBreakdown }.
Record Campaign := mkCampaign {
  cp_ID : string; cp_CampaignID : string; cp_OnChainCampaignID : string; cp_OpportunityID : string; cp_Type : string; cp_ComputeChainID : Z;
  cp_DistributionChainID : Z; cp_StartTimestamp : Z; cp_EndTimestamp : Z; cp_Apr : float64; cp_DailyRewards : float64; cp_RewardToken : Token;
  cp_Params : option json;       (* None is the empty RawMessage *)
}.
Record Opportunity := mkOpportunity {
  o_ID : string; o_Name : string; o_Type : string; o_ChainID : Z; o_Identifier : string; o_Status : string; o_Action : string; o_Apr : float64;
  o_AprRecord : APRRecord; o_NativeAPRRecord : NativeAPRRecord; o_TVL : float64; o_DailyRewards : float64; o_LiveCampaigns : Z; o_Tags : list string;
  o_ExplorerAddress : string; o_Tokens : list Token; o_RewardsRecord : RewardsRecord; o_Campaigns : list Campaign;
  o_EarliestCampaignStart : string; o_LatestCampaignEnd : string;
}.
Record CampaignToken := mkCampaignToken { ct_ChainID : Z; ct_TokenAddress : string; ct_Name : string; ct_Symbol : string; ct_Decimals : Z }.
Record UserRewardsChainInfo := mkChainInfo { ci_ID : Z; ci_Name : string; ci_Icon : string }.
Record UserRewardToken := mkRewardToken { rt_Address : string; rt_ChainID : Z; rt_Symbol : string; rt_Decimals : Z; rt_Price : float64 }.
Record UserRewardBreakdown := mkUserBreakdown {
  ub_Root : string; ub_DistributionChainID : Z; ub_Reason : string; ub_Amount : string; ub_Claimed : string; ub_Pending : string;
  ub_CampaignID : string; ub_SubCampaignID : string }.
Record UserReward := mkUserReward {
  ur_Root : string; ur_DistributionChainID : Z; ur_Recipient : string; ur_Amount : string; ur_Claimed : string; ur_Pending : string;
  ur_Proofs : list string; ur_Token : UserRewardToken; ur_Breakdowns : list UserRewardBreakdown }.
Record UserRewardsChain := mkRewardsChain { uc_Chain : UserRewardsChainInfo; uc_Rewards : list UserReward }.

Record ClaimMetadata := mkClaimMetadata { md_TransactionHash : string; md_EventAmount : string }.
Record Claim := mkClaim {
  cl_ID : string; cl_ChainID : Z; cl_Recipient : string; cl_BlockNumber : Z; cl_Timestamp : Z; cl_Token : string; cl_CampaignID : string;
  cl_Reason : string; cl_Root : string; cl_Amount : string; cl_IsLatest : bool; cl_Metadata : ClaimMetadata }.
Record ClaimsQuery := mkClaimsQuery {
  q_ChainIDs : list Z; q_Recipient : string; q_Token : string; q_CampaignID : string; q_Reason : string; q_Root : string; q_From : Z; q_Through : Z }.

Record HistoricalRoot := mkHistoricalRoot { hr_Root : string; hr_ChainID : Z; hr_Timestamp : string }.
Record HistoricalReward := mkHistoricalReward { hw_CampaignID : string; hw_Recipient : string; hw_Reason : string; hw_RewardToken : string; hw_Amount : string }.
Record HistoricalTree := mkHistoricalTree { ht_Root : string; ht_Timestamp : string; ht_Breakdowns : list HistoricalReward }.
Record HistoricalClaim := mkHistoricalClaim { hc_ID : string; hc_ChainID : Z; hc_Recipient : string; hc_Timestamp : Z; hc_Token : string; hc_Amount : string; hc_TransactionHash : string }.
Record HistoricalPrice := mkHistoricalPrice { hp_Day : Z; hp_Close : string; hp_Samples : Z }.

Record JSONAirdropConfig := mkAirdrop {
  jc_CampaignType : Z; jc_DistributionChainID : Z; jc_ComputeChainID : Z; jc_Creator : string; jc_RewardToken : string; jc_Amount : string;
  jc_StartTimestamp : Z; jc_JSONURL : string; jc_Name : string }.
Record CampaignArguments := mkArguments {
  ca_CampaignID : string; ca_Creator : string; ca_RewardToken : string; ca_Amount : string; ca_CampaignType : Z; ca_StartTimestamp : Z;
  ca_Duration : Z; ca_CampaignData : string }.
Record EncodedCampaign := mkEncoded { ec_Args : CampaignArguments; ec_Payload : string }.
Record CampaignRewardToken := mkCampaignReward { cr_Address : string; cr_ChainID : Z; cr_Decimals : Z; cr_MinimumAmountPerHour : string }.

(** ** Decoding *)

Section decoding.
Context `{JE : JsonErrors}.

Definition decode_token (raw : json) : result GoError Token :=
  let? chain := f_int "chainId" raw in
  let? address := f_string "address" raw in
  let? symbol := f_string "symbol" raw in
  let? icon := f_string "icon" raw in
  let? decimals := f_int "decimals" raw in
  let? price := f_float "price" raw in
  Ok (mkToken chain address symbol icon decimals price).

Definition decode_apr_breakdown (raw : json) : result GoError APRBreakdown :=
  let? identifier := f_string "identifier" raw in
  let? type := f_string "type" raw in
  let? distribution := f_string "distributionType" raw in
  let? value := f_float "value" raw in
  Ok (mkAPRBreakdown identifier type distribution value).

Definition decode_apr_record (raw : json) : result GoError APRRecord :=
  let? cumulated := f_float "cumulated" raw in
  let? timestamp := f_string "timestamp" raw in
  let? breakdowns := f_list decode_apr_breakdown "breakdowns" raw in
  Ok (mkAPRRecord cumulated timestamp breakdowns).

Definition decode_native_apr (raw : json) : result GoError NativeAPRRecord :=
  let? title := f_string "title" raw in
  let? description := f_string "description" raw in
  let? value := f_float "value" raw in
  let? timestamp := f_string "timestamp" raw in
  Ok (mkNativeAPR title description value timestamp).

Definition decode_reward_breakdown (raw : json) : result GoError RewardBreakdown :=
  let? campaign := f_string "campaignId" raw in
  let? onchain := f_string "onChainCampaignId" raw in
  let? distribution := f_string "distributionType" raw in
  let? amount := f_string "amount" raw in
  let? token := f_struct decode_token "token" raw in
  let? value := f_float "value" raw in
  Ok (mkRewardBreakdown campaign onchain distribution amount token value).

Definition decode_rewards_record (raw : json) : result GoError RewardsRecord :=
  let? total := f_float "total" raw in
  let? breakdowns := f_list decode_reward_breakdown "breakdowns" raw in
  Ok (mkRewardsRecord total breakdowns).

Definition decode_campaign (raw : json) : result GoError Campaign :=
  let? id := f_string "id" raw in
  let? campaign := f_string "campaignId" raw in
  let? onchain := f_string "onChainCampaignId" raw in
  let? opportunity := f_string "opportunityId" raw in
  let? type := f_string "type" raw in
  let? compute := f_int "computeChainId" raw in
  let? distribution := f_int "distributionChainId" raw in
  let? from := f_int64 "startTimestamp" raw in
  let? to := f_int64 "endTimestamp" raw in
  let? apr := f_float "apr" raw in
  let? daily := f_float "dailyRewards" raw in
  let? token := f_struct decode_token "rewardToken" raw in
  let? params := field d_raw None "params" raw in
  Ok (mkCampaign id campaign onchain opportunity type compute distribution from to apr daily token params).

Definition decode_opportunity (raw : json) : result GoError Opportunity :=
  let? id := f_string "id" raw in
  let? name := f_string "name" raw in
  let? type := f_string "type" raw in
  let? chain := f_int "chainId" raw in
  let? identifier := f_string "identifier" raw in
  let? status := f_string "status" raw in
  let? action := f_string "action" raw in
  let? apr := f_float "apr" raw in
  let? aprRecord := f_struct decode_apr_record "aprRecord" raw in
  let? native := f_struct decode_native_apr "nativeAprRecord" raw in
  let? tvl := f_float "tvl" raw in
  let? daily := f_float "dailyRewards" raw in
  let? live := f_int "liveCampaigns" raw in
  let? tags := f_list (d_string "") "tags" raw in
  let? explorer := f_string "explorerAddress" raw in
  let? tokens := f_list decode_token "tokens" raw in
  let? rewards := f_struct decode_rewards_record "rewardsRecord" raw in
  let? campaigns := f_list decode_campaign "campaigns" raw in
  let? earliest := f_string "earliestCampaignStart" raw in
  let? latest := f_string "latestCampaignEnd" raw in
  Ok (mkOpportunity id name type chain identifier status action apr aprRecord native tvl daily live tags explorer tokens rewards
        campaigns earliest latest).

Definition decode_chain_info (raw : json) : result GoError UserRewardsChainInfo :=
  let? id := f_int "id" raw in
  let? name := f_string "name" raw in
  let? icon := f_string "icon" raw in
  Ok (mkChainInfo id name icon).

Definition decode_user_token (raw : json) : result GoError UserRewardToken :=
  let? address := f_string "address" raw in
  let? chain := f_int "chainId" raw in
  let? symbol := f_string "symbol" raw in
  let? decimals := f_uint 32 "uint32" "decimals" raw in
  let? price := f_float "price" raw in
  Ok (mkRewardToken address chain symbol decimals price).

Definition decode_user_breakdown (raw : json) : result GoError UserRewardBreakdown :=
  let? root := f_string "root" raw in
  let? chain := f_int "distributionChainId" raw in
  let? reason := f_string "reason" raw in
  let? amount := f_string "amount" raw in
  let? claimed := f_string "claimed" raw in
  let? pending := f_string "pending" raw in
  let? campaign := f_string "campaignId" raw in
  let? sub := f_string "subCampaignId" raw in
  Ok (mkUserBreakdown root chain reason amount claimed pending campaign sub).

Definition decode_user_reward (raw : json) : result GoError UserReward :=
  let? root := f_string "root" raw in
  let? chain := f_int "distributionChainId" raw in
  let? recipient := f_string "recipient" raw in
  let? amount := f_string "amount" raw in
  let? claimed := f_string "claimed" raw in
  let? pending := f_string "pending" raw in
  let? proofs := f_list (d_string "") "proofs" raw in
  let? token := f_struct decode_user_token "token" raw in
  let? breakdowns := f_list decode_user_breakdown "breakdowns" raw in
  Ok (mkUserReward root chain recipient amount claimed pending proofs token breakdowns).

Definition decode_rewards_chain (raw : json) : result GoError UserRewardsChain :=
  let? chain := f_struct decode_chain_info "chain" raw in
  let? rewards := f_list decode_user_reward "rewards" raw in
  Ok (mkRewardsChain chain rewards).

(** [RootInfo] is its live root. *)
Definition decode_root_info (raw : json) : result GoError string := f_string "live" raw.

Definition decode_campaign_token (raw : json) : result GoError CampaignToken :=
  let? chain := f_int "chainId" raw in
  let? address := f_string "tokenAddress" raw in
  let? name := f_string "name" raw in
  let? symbol := f_string "symbol" raw in
  let? decimals := f_int "decimals" raw in
  Ok (mkCampaignToken chain address name symbol decimals).

Definition decode_historical_root (raw : json) : result GoError HistoricalRoot :=
  let? root := f_string "root" raw in
  let? chain := f_uint 64 "uint64" "chainId" raw in
  let? timestamp := f_string "timestamp" raw in
  Ok (mkHistoricalRoot root chain timestamp).

Definition decode_historical_reward (raw : json) : result GoError HistoricalReward :=
  let? campaign := f_string "campaignId" raw in
  let? recipient := f_string "recipient" raw in
  let? reason := f_string "reason" raw in
  let? token := f_string "rewardToken" raw in
  let? amount := f_string "amount" raw in
  Ok (mkHistoricalReward campaign recipient reason token amount).

Definition decode_historical_tree (raw : json) : result GoError HistoricalTree :=
  let? root := f_string "root" raw in
  let? timestamp := f_string "timestamp" raw in
  let? breakdowns := f_list decode_historical_reward "breakdowns" raw in
  Ok (mkHistoricalTree root timestamp breakdowns).

Definition decode_historical_claim (raw : json) : result GoError HistoricalClaim :=
  let? id := f_string "id" raw in
  let? chain := f_uint 64 "uint64" "chainId" raw in
  let? recipient := f_string "recipient" raw in
  let? timestamp := f_int64 "timestamp" raw in
  let? token := f_string "token" raw in
  let? amount := f_string "amount" raw in
  let? hash := f_struct (f_string "transactionHash") "metadata" raw in
  Ok (mkHistoricalClaim id chain recipient timestamp token amount hash).

Definition decode_historical_price (raw : json) : result GoError HistoricalPrice :=
  let? day := f_int64 "day" raw in
  let? close := field d_number "" "close" raw in
  let? samples := f_int64 "samples" raw in
  Ok (mkHistoricalPrice day close samples).

Definition decode_arguments (raw : json) : result GoError CampaignArguments :=
  let? campaign := f_string "campaignId" raw in
  let? creator := f_string "creator" raw in
  let? token := f_string "rewardToken" raw in
  let? amount := f_string "amount" raw in
  let? type := f_uint 32 "uint32" "campaignType" raw in
  let? from := f_uint 32 "uint32" "startTimestamp" raw in
  let? duration := f_uint 32 "uint32" "duration" raw in
  let? data := f_string "campaignData" raw in
  Ok (mkArguments campaign creator token amount type from duration data).

Definition decode_encoded (raw : json) : result GoError EncodedCampaign :=
  let? args := f_struct decode_arguments "args" raw in
  let? payload := f_string "payload" raw in
  Ok (mkEncoded args payload).

Definition decode_reward_token (raw : json) : result GoError CampaignRewardToken :=
  let? address := f_string "address" raw in
  let? chain := f_uint 64 "uint64" "chainId" raw in
  let? decimals := f_int "decimals" raw in
  let? minimum := f_string "minimumAmountPerHour" raw in
  Ok (mkCampaignReward address chain decimals minimum).
End decoding.

(** ** Queries *)

Section merkl.
Context `{JE : JsonErrors} `{JT : JsonText} `{U : UnicodeTables}.

(** [strconv.Itoa], [FormatUint] and [FormatInt]. *)
Definition itoa (n : Z) : string := pretty n.

Definition normalizeOpportunityItems (items : Z) : result GoError Z :=
  if items <=? 0 then Ok defaultItemsLimit
  else if MaxOpportunityItems <? items then
    Err (errors_New ("merkl opportunities items must be in [1, " +:+ pretty MaxOpportunityItems +:+ "], got " +:+ pretty items))
  else Ok items.

(** [values.Set] unless the trimmed value is empty. *)
Definition set_trimmed (key value : string) (values : Values) : Values :=
  if String.eqb (TrimSpace value) "" then values else values_Set key (TrimSpace value) values.

Definition opportunityQueryValues (q : OpportunityQuery) : result GoError (Values * Z) :=
  let? items := normalizeOpportunityItems (oq_Items q) in
  if oq_Page q <? 0 then Err (errors_New ("merkl opportunities page must be >= 0, got " +:+ pretty (oq_Page q)))
  else
    let values := values_Set "page" (itoa (oq_Page q)) (values_Set "items" (itoa items) ∅) in
    let values := if oq_ChainID q =? 0 then values else values_Set "chainId" (itoa (oq_ChainID q)) values in
    let values := set_trimmed "status" (oq_Status q) (set_trimmed "mainProtocolId" (oq_MainProtocolID q) values) in
    Ok (if oq_Campaigns q then values_Set "campaigns" "true" values else values, items).

Definition opportunityCountQueryValues (q : OpportunityCountQuery) : Values :=
  let values := if cq_ChainID q =? 0 then ∅ else values_Set "chainId" (itoa (cq_ChainID q)) ∅ in
  set_trimmed "status" (cq_Status q) (set_trimmed "mainProtocolId" (cq_MainProtocolID q) values).

(** [slices.Sort], and [slices.Compact]: runs of equal elements become one. *)
Definition sort_ids (l : list Z) : list Z := merge_sort Z.le l.
Fixpoint Compact (l : list Z) : list Z :=
  match l with
  | [] => []
  | x :: l => match Compact l with y :: l' => if x =? y then y :: l' else x :: y :: l' | [] => [x] end
  end.

(** The loop over the chain ids: an id not seen before is kept. *)
Fixpoint unique_ids (seen : gset Z) (l : list Z) : result GoError (list Z) :=
  match l with
  | [] => Ok []
  | chainID :: l =>
      if chainID =? 0 then Err (errors_New "merkl user rewards requires a non-zero chain id")
      else if bool_decide (chainID ∈ seen) then unique_ids seen l
      else let? rest := unique_ids ({[chainID]} ∪ seen) l in Ok (chainID :: rest)
  end.

Definition add_ids (key : string) (ids : list Z) (values : Values) : Values := foldl (fun v id => values_Add key (itoa id) v) values ids.

Definition seconds (t : Z) : Z := t / nanosPerSecond.

Fixpoint claim_ids (ids : list Z) (values : Values) : result GoError Values :=
  match ids with
  | [] => Ok values
  | id :: ids =>
      if id =? 0 then Err (errors_New "merkl claims requires non-zero chain ids")
      else claim_ids ids (values_Add "chainIds" (itoa id) values)
  end.

Definition claim_texts (q : ClaimsQuery) : gmap string string :=
  list_to_map [("recipient", q_Recipient q); ("token", q_Token q); ("campaignId", q_CampaignID q); ("root", q_Root q)].

(** [o] is the order the map of texts is walked in. *)
Definition claimsQueryValues (o : map_order) (q : ClaimsQuery) : result GoError Values :=
  if negb (IsZero (q_From q)) && negb (IsZero (q_Through q)) && (q_Through q <? q_From q) then
    Err (errors_New "merkl claims time range is inverted")
  else
    let? values := claim_ids (Compact (sort_ids (q_ChainIDs q))) ∅ in
    let values := foldl (fun v kv => set_trimmed kv.1 kv.2 v) values (walk o (claim_texts q)) in
    let values := if String.eqb (q_Reason q) "" then values else values_Set "reason" (q_Reason q) values in
    let values := if IsZero (q_From q) then values else values_Set "fromTimestamp" (itoa (seconds (q_From q))) values in
    Ok (if IsZero (q_Through q) then values else values_Set "toTimestamp" (itoa (seconds (q_Through q))) values).

(** ** Claims *)

Definition dquote_char : Ascii.ascii := "034"%char.
Definition quoted_text (s : string) : bool :=
  (2 <=? slen s)%nat && match sbyte 0 s, sbyte (slen s - 1) s with Some a, Some b => Ascii.eqb a dquote_char && Ascii.eqb b dquote_char | _, _ => false end.

(** [ChainID.UnmarshalJSON], on the text of the value. *)
Definition ChainID_UnmarshalJSON (data : string) : result GoError Z :=
  let raw := TrimSpace data in
  let raw := if quoted_text raw then stake (slen raw - 2) (sdrop 1 raw) else raw in
  match ParseUint 64 raw with
  | Some value => if value =? 0 then Err (errors_New ("invalid merkl chain id " +:+ data)) else Ok value
  | None => Err (errors_New ("invalid merkl chain id " +:+ data))
  end.

Definition decode_claim_metadata (raw : json) : result GoError ClaimMetadata :=
  let? hash := f_string "transactionHash" raw in
  let? amount := f_string "eventAmount" raw in
  Ok (mkClaimMetadata hash amount).

(** The text of a chain id is taken as [json.Marshal] would write it. *)
Definition decode_claim (raw : json) : result GoError Claim :=
  let? id := f_string "id" raw in
  let? chain := field (d_custom (fun v => ChainID_UnmarshalJSON (json_Marshal v))) 0 "chainId" raw in
  let? recipient := f_string "recipient" raw in
  let? number := f_uint 64 "uint64" "blockNumber" raw in
  let? timestamp := f_int64 "timestamp" raw in
  let? token := f_string "token" raw in
  let? campaign := f_string "campaignId" raw in
  let? reason := f_string "reason" raw in
  let? root := f_string "root" raw in
  let? amount := f_string "amount" raw in
  let? latest := field d_bool false "isLatest" raw in
  let? metadata := f_struct decode_claim_metadata "metadata" raw in
  Ok (mkClaim id chain recipient number timestamp token campaign reason root amount latest metadata).

(** ** Requests *)

Record StatusError := mkStatus { se_Code : Z; se_RetryAfter : Z; se_Body : string }.

(** An error, the [*StatusError] in it, and whether a [*ResponseError] is. *)
Record MerklError := mkMerklError { me_err : GoError; me_status : option StatusError; me_response : bool }.
Definition other_error (e : GoError) : MerklError := mkMerklError e None false.
Definition response_error (e : GoError) : MerklError := mkMerklError e None true.
Definition status_error (s : StatusError) : MerklError :=
  mkMerklError (errors_New ("status " +:+ pretty (se_Code s) +:+ ": " +:+ se_Body s)) (Some s) false.
Definition wrap_merkl (pre : string) (e : MerklError) : MerklError := mkMerklError (Errorf_w pre (me_err e) "") (me_status e) (me_response e).

(** The client: its base URL and key. *)
Record client := mkClient { baseURL : string; apiKey : string }.
Definition Option : Type := client -> client.
Definition WithBaseURL (url : string) : Option := fun c =>
  let url := trim_right (Ascii.eqb "/"%char) (TrimSpace url) in
  if String.eqb url "" then c else mkClient url (apiKey c).
Definition WithAPIKey (key : string) : Option := fun c => mkClient (baseURL c) (TrimSpace key).
Definition New (opts : list (option Option)) : client :=
  foldl (fun c o => match o with Some o => o c | None => c end) (mkClient defaultBaseURL "") opts.

Definition parseRetryAfter (http_date : string -> option Z) (value : string) (now : Z) : Z :=
  let value := TrimSpace value in
  if String.eqb value "" then 0
  else
    let by_date := match http_date value with Some until => if now <? until then Sub until now else 0 | None => 0 end in
    match SetString10 value with
    | Some n => if (- 2 ^ 31 <=? n) && (n <? 2 ^ 31) then if n <=? 0 then 0 else n * nanosPerSecond else by_date
    | None => by_date
    end.

Section requests.
Variable http_date : string -> option Z.    (* http.ParseTime *)
Variable answers : nat -> reply.

(** A run: the requests made so far, the one that failed before it was sent
    included. *)
Abbreviation M := (Run MerklError).

Definition endpoint (c : client) (path : string) (values : Values) : string :=
  baseURL c +:+ path +:+ (if bool_decide (values = ∅) then "" else "?" +:+ Encode values).

Definition key_header (c : client) (h : Header) : Header := if String.eqb (apiKey c) "" then h else header_Set apiKeyHeader (apiKey c) h.

Definition get_request (c : client) (path : string) (values : Values) : Request :=
  mkRequest "GET" (endpoint c path values) (key_header c (header_Set "Accept" "application/json" ∅)) "".

Definition doGET (a : reply) : result MerklError HttpResponse :=
  match r_Limiter a with
  | Some e => Err (other_error (Errorf_w "rate limit wait: " e ""))
  | None =>
      match r_NewRequest a with
      | Some e => Err (other_error (Errorf_w "build request: " e ""))
      | None => match r_Do a with Err e => Err (other_error (Errorf_w "request failed: " e "")) | Ok resp => Ok resp end
      end
  end.

(** [io.ReadAll(io.LimitReader(resp.Body, n))] whose error is dropped. *)
Definition read_prefix (n : Z) (resp : HttpResponse) : string := stake (Z.to_nat n) (hr_Body resp).

Definition read_body (a : reply) (resp : HttpResponse) : result MerklError string :=
  if negb (success (hr_Status resp)) then
    Err (status_error (mkStatus (hr_Status resp) (parseRetryAfter http_date (hr_Header resp "Retry-After") (r_Now a))
                         (TrimSpace (read_prefix maxErrorResponseBytes resp))))
  else
    match ReadAll (maxResponseBody + 1) resp with
    | Err e => Err (other_error (Errorf_w "read response: " e ""))
    | Ok body =>
        if maxResponseBody <? Z.of_nat (slen body) then Err (response_error (errors_New ("response exceeds " +:+ pretty maxResponseBody +:+ " bytes")))
        else Ok body
    end.

Definition getBody (c : client) (path : string) (values : Values) : M string := fun log =>
  let a := answers (length log) in
  (match doGET a with Ok resp => read_body a resp | Err e => Err e end, log ++ [get_request c path values]).

Definition getJSON {A} (decode : json -> result GoError A) (c : client) (path : string) (values : Values) : M A := fun log =>
  match getBody c path values log with
  | (Err e, log) => (Err e, log)
  | (Ok body, log) =>
      (match (let? v := json_parse body in decode v) with
       | Ok x => Ok x
       | Err e => Err (response_error (Errorf_w "decode response: " e ""))
       end, log)
  end.

Definition wrapM {A} (pre : string) (m : M A) : M A := fun log =>
  match m log with (Err e, log) => (Err (wrap_merkl pre e), log) | ok => ok end.
Definition failM {A} (e : GoError) : M A := fun log => (Err (other_error e), log).

(** A top-level array: null is nil. *)
Definition array_of {A} (u : json -> result GoError A) (v : json) : result GoError (list A) := d_list u [] v.

(** ** Operations *)

Definition ListOpportunities (c : client) (q : OpportunityQuery) : M (list Opportunity) :=
  match opportunityQueryValues q with
  | Err e => failM e
  | Ok (values, _) => wrapM "merkl opportunities: " (getJSON (array_of decode_opportunity) c opportunitiesPath values)
  end.

Definition at_page (q : OpportunityQuery) (page items : Z) : OpportunityQuery :=
  mkOpportunityQuery (oq_ChainID q) items page (oq_MainProtocolID q) (oq_Status q) (oq_Campaigns q).

(** The loop over pages, [left] of them left: what it returns, with the error. *)
Fixpoint list_pages (c : client) (remaining : nat) (q : OpportunityQuery) (items page : Z) (all : list Opportunity) (log : list Request) :
    (list Opportunity * option MerklError) * list Request :=
  match remaining with
  | O => ((all, Some (other_error (errors_New ("merkl pagination exceeded " +:+ pretty maxOpportunityPages +:+ " pages")))), log)
  | S remaining =>
      match ListOpportunities c (at_page q page items) log with
      | (Err e, log) => (([], Some e), log)
      | (Ok pageItems, log) =>
          let all := all ++ pageItems in
          if Z.of_nat (length pageItems) <? items then ((all, None), log)
          else list_pages c remaining q items (wrap_i64 (page + 1)) all log
      end
  end.

Definition ListAllOpportunities (c : client) (q : OpportunityQuery) (log : list Request) : (list Opportunity * option MerklError) * list Request :=
  match opportunityQueryValues q with
  | Err e => (([], Some (other_error e)), log)
  | Ok (_, items) => list_pages c maxOpportunityPages q items (oq_Page q) [] log
  end.

Definition GetOpportunities (c : client) (chainID limit : Z) (mainProtocolID : string) :=
  ListAllOpportunities c (mkOpportunityQuery chainID limit 0 mainProtocolID "" false).

Definition CountOpportunities (c : client) (q : OpportunityCountQuery) : M Z := fun log =>
  match getBody c opportunitiesCountPath (opportunityCountQueryValues q) log with
  | (Err e, log) => (Err (wrap_merkl "merkl opportunities count: " e), log)
  | (Ok body, log) =>
      (match Atoi (TrimSpace body) with
       | Some count => Ok count
       | None => Err (other_error (errors_New ("parse merkl opportunities count " +:+ strconv_Quote body)))
       end, log)
  end.

(** [%v] of a slice of ids. *)
Definition ids_text (ids : list Z) : string := "[" +:+ strings_Join " " (itoa <$> ids) +:+ "]".

Definition GetUserRewardsForChains (c : client) (user : string) (chainIDs : list Z) : M (list UserRewardsChain) :=
  let user := TrimSpace user in
  if String.eqb user "" then failM (errors_New "merkl user rewards requires user address")
  else if (length chainIDs =? 0)%nat then
    failM (errors_New "merkl user rewards requires at least one chain id: the endpoint has no all-chain form")
  else
    match unique_ids ∅ chainIDs with
    | Err e => failM e
    | Ok unique =>
        let unique := sort_ids unique in
        wrapM ("merkl user rewards for chains " +:+ ids_text unique +:+ ": ")
          (getJSON (array_of decode_rewards_chain) c (userRewardsPath (PathEscape user)) (add_ids "chainId" unique ∅))
    end.

Definition GetUserRewards (c : client) (user : string) (chainID : Z) := GetUserRewardsForChains c user [chainID].

Definition GetLiveRoots (c : client) : M (gmap string string) :=
  wrapM "merkl live roots: " (getJSON (d_map decode_root_info "map[string]merkl.RootInfo" ∅) c rootsLivePath ∅).

Definition ListClaims (c : client) (o : map_order) (q : ClaimsQuery) : M (list Claim) :=
  match claimsQueryValues o q with
  | Err e => failM e
  | Ok values => wrapM "merkl claims: " (getJSON (array_of decode_claim) c claimsPath values)
  end.

Definition ListCampaigns (c : client) (chainID : Z) (campaignID : string) : M (list Campaign) :=
  getJSON (array_of decode_campaign) c "/v4/campaigns" (values_Set "campaignId" campaignID (values_Set "chainId" (itoa chainID) ∅)).

(** *** history.go *)

Definition ListHistoricalRoots (c : client) (chain from through page : Z) : M (list HistoricalRoot) :=
  if (chain =? 0) || negb (from <? through) || (page <? 0) then failM (errors_New "valid chain, range and page are required")
  else
    getJSON (array_of decode_historical_root) c "/v4/roots/"
      (values_Set "page" (itoa page) (values_Set "items" "100" (values_Set "toTimestamp" (itoa (seconds through))
        (values_Set "fromTimestamp" (itoa (seconds from)) (values_Set "chainId" (itoa chain) ∅))))).

(** [t.UTC().Format(time.RFC3339)] *)
Definition FormatRFC3339 (t : Z) : string :=
  let second := seconds t mod 86400 in
  FormatDate t +:+ "T" +:+ pad 2 (second / 3600) +:+ ":" +:+ pad 2 (second / 60 mod 60) +:+ ":" +:+ pad 2 (second mod 60) +:+ "Z".

Definition tree_values (chain : Z) (recipient : string) : Values := values_Set "recipient" recipient (values_Set "chainId" (itoa chain) ∅).

Definition GetHistoricalTree (c : client) (chain : Z) (recipient : string) (at_ : Z) : M HistoricalTree :=
  if (chain =? 0) || String.eqb recipient "" || IsZero at_ then failM (errors_New "chain, recipient and historical time are required")
  else getJSON decode_historical_tree c "/v4/historical/tree" (values_Set "date" (FormatRFC3339 at_) (tree_values chain recipient)).

Definition GetHistoricalRoot (c : client) (chain : Z) (recipient root : string) : M HistoricalTree :=
  if (chain =? 0) || String.eqb recipient "" || String.eqb root "" then failM (errors_New "chain, recipient and root are required")
  else getJSON decode_historical_tree c "/v4/historical/tree" (values_Set "root" root (tree_values chain recipient)).

Definition GetClaimHistory (c : client) (recipient : string) : M (list HistoricalClaim) :=
  if String.eqb recipient "" then failM (errors_New "recipient is required")
  else getJSON (array_of decode_historical_claim) c ("/v4/claims/history/" +:+ PathEscape recipient) ∅.

Definition GetPriceHistory (c : client) (chain : Z) (token : string) (from through : Z) : M (list HistoricalPrice) :=
  if (chain =? 0) || String.eqb token "" || (through <? from) then failM (errors_New "valid chain, token and day range are required")
  else
    getJSON (array_of decode_historical_price) c "/v4/tokens/prices/history"
      (values_Set "fill" "carry-forward" (values_Set "to" (itoa through) (values_Set "from" (itoa from)
        (values_Set "address" token (values_Set "chainId" (itoa chain) ∅))))).

(** *** encoding.go *)

Definition RewardTokens (c : client) (chainID : Z) : M (list CampaignRewardToken) :=
  if chainID =? 0 then failM (errors_New "reward tokens requires a chain ID")
  else getJSON (array_of decode_reward_token) c ("/v4/tokens/reward/" +:+ itoa chainID) ∅.

Definition airdrop_json (j : JSONAirdropConfig) : json :=
  JObject [("campaignType", JNumber (pretty (jc_CampaignType j))); ("distributionChainId", JNumber (pretty (jc_DistributionChainID j)));
           ("computeChainId", JNumber (pretty (jc_ComputeChainID j))); ("creator", JString (jc_Creator j));
           ("rewardToken", JString (jc_RewardToken j)); ("amount", JString (jc_Amount j));
           ("startTimestamp", JNumber (pretty (jc_StartTimestamp j))); ("jsonUrl", JString (jc_JSONURL j)); ("url", JString (jc_Name j))].

Definition encoded_response (resp : HttpResponse) : result GoError EncodedCampaign :=
  if negb (success (hr_Status resp)) then Err (errors_New ("encode campaign HTTP status " +:+ pretty (hr_Status resp)))
  else
    let? body := ReadAll (maxResponseBody + 1) resp in
    if maxResponseBody <? Z.of_nat (slen body) then Err (errors_New "encoded campaign response exceeds size limit")
    else
      match (let? v := json_parse body in decode_encoded v) with
      | Err e => Err (Errorf_w "decode campaign response: " e "")
      | Ok out =>
          if String.eqb (ec_Payload out) "" || String.eqb (ca_Amount (ec_Args out)) "" then Err (errors_New "encoded campaign response is incomplete")
          else Ok out
      end.

Definition EncodeCampaign (c : client) (config : JSONAirdropConfig) : M EncodedCampaign := fun log =>
  let a := answers (length log) in
  let req := mkRequest "POST" (baseURL c +:+ "/v4/config/encode")
    (key_header c (header_Set "Accept" "application/json" (header_Set "Content-Type" "application/json" ∅))) (json_Marshal (airdrop_json config)) in
  (match r_Limiter a, r_NewRequest a, r_Do a with
   | Some e, _, _ | None, Some e, _ => Err (other_error e)
   | None, None, Err e => Err (other_error (Errorf_w "encode campaign request: " e ""))
   | None, None, Ok resp => match encoded_response resp with Ok out => Ok out | Err e => Err (other_error e) end
   end, log ++ [req]).
End requests.

(** ** Helpers of the types *)

Definition ErrMissingTokenDecimals : GoError := errors_New "merkl: missing reward token decimals".
Definition RewardDecimals (t : Token) : result GoError Z := if tk_Decimals t =? 0 then Err ErrMissingTokenDecimals else Ok (tk_Decimals t).

(** [MultiTokenParams]: the qualifying tokens. *)
Definition MultiTokenParams (cp : Campaign) : result GoError (list CampaignToken) :=
  if negb (String.eqb (cp_Type cp) CampaignTypeERC20MultiTokenCrossChain) then
    Err (errors_New ("merkl campaign " +:+ strconv_Quote (cp_ID cp) +:+ ": unsupported multi-token type " +:+ strconv_Quote (cp_Type cp)))
  else
    match cp_Params cp with
    | None => Err (errors_New ("merkl campaign " +:+ strconv_Quote (cp_ID cp) +:+ ": decode multi-token params: unexpected end of JSON input"))
    | Some raw =>
        match f_list decode_campaign_token "tokens" raw with
        | Err e => Err (Errorf_w ("merkl campaign " +:+ strconv_Quote (cp_ID cp) +:+ ": decode multi-token params: ") e "")
        | Ok [] => Err (errors_New ("merkl campaign " +:+ strconv_Quote (cp_ID cp) +:+ ": missing qualifying tokens"))
        | Ok tokens => Ok tokens
        end
    end.
End merkl.
