(* ===== verification/MerklSafety.v ===== *)
(** * What the Merkl client's operations promise

    A query's order is the caller's no more; the rewards request shows the user
    and the set of chains; the pages of a listing are consecutive and bounded. *)
From Stdlib Require Import Ascii.
From S2P Require Import HttpClient.
From S2P Require Export Merkl.
Local Open Scope Z_scope.
Local Open Scope go_scope.

(** ** The query of a claims listing *)

Section queries.
Context `{JE : JsonErrors} `{JT : JsonText} `{U : UnicodeTables}.

Definition set_all (l : list (string * string)) (values : Values) : Values := foldl (fun v kv => set_trimmed kv.1 kv.2 v) values l.

Lemma set_trimmed_lookup key value v k :
  set_trimmed key value v !! k = if bool_decide (k = key /\ TrimSpace value <> "") then Some [TrimSpace value] else v !! k.
Proof.
  unfold set_trimmed, values_Set. destruct (String.eqb_spec (TrimSpace value) "") as [E|E].
  - rewrite bool_decide_eq_false_2; [done|]. tauto.
  - case_bool_decide as H; [destruct H as [-> _]; by rewrite lookup_insert_eq|].
    apply lookup_insert_ne. intros ->. by apply H.
Qed.

Lemma set_all_absent l v k : (forall kv, kv ∈ l -> kv.1 <> k) -> set_all l v !! k = v !! k.
Proof.
  unfold set_all. revert v. induction l as [|kv l IH]; intros v H; [done|]. cbn [foldl]. rewrite IH by (intros; apply H; by right).
  rewrite set_trimmed_lookup, bool_decide_eq_false_2; [done|]. intros [-> _]. by apply (H kv); [left|].
Qed.

(** Each key is looked up alone. *)
Lemma set_all_lookup l v k x : NoDup l.*1 -> (k, x) ∈ l -> set_all l v !! k = set_trimmed k x v !! k.
Proof.
  unfold set_all. revert v. induction l as [|[k' x'] l IH]; intros v N H; [by apply elem_of_nil in H|]. rewrite fmap_cons, NoDup_cons in N. destruct N as [Hk N].
  apply elem_of_cons in H as [[= <- <-]|H]; cbn [foldl fst snd].
  - fold (set_all l (set_trimmed k x v)). apply set_all_absent. intros kv Hl E. apply Hk. cbn [fst]. rewrite <- E. by apply (list_elem_of_fmap_2 fst _ kv).
  - rewrite IH by done. rewrite !set_trimmed_lookup. case_bool_decide; [done|]. rewrite bool_decide_eq_false_2; [done|]. intros [-> _].
    apply Hk. by apply (list_elem_of_fmap_2 fst) in H; cbn in H.
Qed.

Lemma set_all_perm l l' v : NoDup l.*1 -> l ≡ₚ l' -> set_all l v = set_all l' v.
Proof.
  intros N P. apply map_eq. intros k. destruct (decide (k ∈ l.*1)) as [Hk|Hk].
  - apply list_elem_of_fmap in Hk as ([k' x] & -> & Hx). cbn [fst]. rewrite (set_all_lookup l v k' x) by done.
    symmetry. apply set_all_lookup; by rewrite <- P.
  - assert (H : forall m, m ≡ₚ l -> set_all m v !! k = v !! k); [|by rewrite !H].
    intros m Pm. apply set_all_absent. intros kv Hl <-. apply Hk, (list_elem_of_fmap_2 fst). by rewrite <- Pm.
Qed.

(** Go walks its map of texts in any order: the query is the same. *)
Lemma claimsQueryValues_order o o' q : claimsQueryValues o q = claimsQueryValues o' q.
Proof.
  assert (H : forall values, set_all (walk o (claim_texts q)) values = set_all (walk o' (claim_texts q)) values).
  { intros values. apply set_all_perm; [|by rewrite !walk_perm]. rewrite (walk_perm o). apply NoDup_fst_map_to_list. }
  unfold claimsQueryValues. case_match; [done|]. destruct (claim_ids _ _) as [values|e]; [|done]. unfold set_all in H. cbv beta zeta iota delta [result_bind].
  by rewrite H.
Qed.

(** ** The query of a rewards request *)

(** What is kept: no duplicates, and the chains given; a zero is an error. *)
Lemma unique_ids_spec seen l :
  match unique_ids seen l with
  | Ok unique => 0 ∉ l /\ NoDup unique /\ (forall x, x ∈ unique <-> x ∈ l /\ x ∉ seen)
  | Err _ => 0 ∈ l
  end.
Proof.
  revert seen. induction l as [|id l IH]; intros seen; cbn [unique_ids].
  - split; [apply not_elem_of_nil|]. split; [apply NoDup_nil_2|]. intros x. rewrite elem_of_nil. tauto.
  - destruct (Z.eqb_spec id 0) as [->|Hid]; [left|]. case_bool_decide as Hseen.
    + specialize (IH seen). destruct (unique_ids seen l) as [u|e]; [|by right]. destruct IH as (H0 & N & H).
      split; [rewrite elem_of_cons; intros [?|?]; [congruence|done]|]. split; [done|]. intros x. rewrite H, elem_of_cons.
      split; [tauto|]. intros [[->|?] ?]; tauto.
    + specialize (IH ({[id]} ∪ seen)). destruct (unique_ids ({[id]} ∪ seen) l) as [u|e]; [|by right]. destruct IH as (H0 & N & H). cbn.
      split; [rewrite elem_of_cons; intros [?|?]; [congruence|done]|]. split; [apply NoDup_cons; split; [rewrite H; set_solver|done]|].
      intros x. rewrite !elem_of_cons, H. destruct (decide (x = id)) as [->|]; set_solver.
Qed.

Lemma sort_ids_ext l k : l ≡ₚ k -> sort_ids l = sort_ids k.
Proof.
  intros P. apply (StronglySorted_unique Z.le); [apply StronglySorted_merge_sort; apply _..|]. unfold sort_ids. by rewrite !merge_sort_Permutation.
Qed.

Lemma add_ids_insert key ids v : ids <> [] -> add_ids key ids v = <[key := default [] (v !! key) ++ (itoa <$> ids)]> v.
Proof.
  unfold add_ids. revert v. induction ids as [|id ids IH]; intros v H; [done|]. cbn [foldl]. destruct ids as [|id' ids]; [done|].
  rewrite IH by done. unfold values_Add at 1 2. rewrite lookup_insert_eq, insert_insert_eq. f_equal.
  rewrite (fmap_cons itoa id). symmetry. apply (assoc_L (++) _ [itoa id]).
Qed.

Lemma add_ids_empty key ids : ids <> [] -> add_ids key ids ∅ = {[key := itoa <$> ids]}.
Proof. intros H. rewrite add_ids_insert by done. by rewrite lookup_empty. Qed.
End queries.

(** ** The rewards request *)

Section requests.
Context `{JE : JsonErrors} `{JT : JsonText} `{U : UnicodeTables}.
Context (http_date : string -> option Z) (answers : nat -> reply).

(** What a reward request needs: a user, and chains none of which is zero. *)
Definition rewards_valid (user : string) (ids : list Z) : Prop := TrimSpace user <> "" /\ ids <> [] /\ 0 ∉ ids.

Lemma getJSON_log {A} (decode : json -> result GoError A) c path values log :
  (getJSON http_date answers decode c path values log).2 = log ++ [get_request c path values].
Proof. unfold getJSON, getBody. by destruct (match doGET _ with Ok _ => _ | Err _ => _ end). Qed.

Lemma wrapM_log {A} pre (m : Run MerklError A) log : (wrapM pre m log).2 = (m log).2.
Proof. unfold wrapM. by destruct (m log) as [[] ?]. Qed.

(** The ids of a valid request: sorted, without duplicates. *)
Lemma rewards_ids user ids : rewards_valid user ids ->
  exists unique, unique_ids ∅ ids = Ok unique /\ unique <> [] /\ NoDup unique /\ forall x, x ∈ unique <-> x ∈ ids.
Proof.
  intros (_ & Hne & H0). pose proof (unique_ids_spec ∅ ids) as H. destruct (unique_ids ∅ ids) as [unique|e]; [|done].
  destruct H as (_ & N & H). exists unique. split; [done|]. assert (He : forall x, x ∈ unique <-> x ∈ ids) by set_solver.
  split; [|done]. intros ->. destruct ids as [|x ids]; [done|]. by apply (elem_of_nil x), He; left.
Qed.

Lemma rewards_call c user ids unique : rewards_valid user ids -> unique_ids ∅ ids = Ok unique ->
  GetUserRewardsForChains http_date answers c user ids =
  wrapM ("merkl user rewards for chains " +:+ ids_text (sort_ids unique) +:+ ": ")
    (getJSON http_date answers (array_of decode_rewards_chain) c (userRewardsPath (PathEscape (TrimSpace user)))
       (add_ids "chainId" (sort_ids unique) ∅)).
Proof.
  intros (Hu & Hne & _) E. unfold GetUserRewardsForChains. cbv zeta. rewrite E.
  destruct (String.eqb_spec (TrimSpace user) ""); [done|]. by destruct ids.
Qed.

Lemma sort_ids_nil l : sort_ids l = [] -> l = [].
Proof. intros E. pose proof (merge_sort_Permutation Z.le l) as P. unfold sort_ids in E. rewrite E in P. by apply Permutation_nil in P. Qed.

Lemma sapp_prefix_inj s t t' : s +:+ t = s +:+ t' -> t = t'.
Proof. intros E. by apply (sapp_inj_len s s). Qed.

(** The URL shows the user and the ids. *)
Lemma rewards_url_inj c user user' ids ids' : ids <> [] -> ids' <> [] ->
  endpoint c (userRewardsPath (PathEscape user)) (add_ids "chainId" ids ∅) =
  endpoint c (userRewardsPath (PathEscape user')) (add_ids "chainId" ids' ∅) -> user = user' /\ ids = ids'.
Proof.
  intros Hi Hi'. rewrite !add_ids_empty by done. unfold endpoint, userRewardsPath.
  rewrite !bool_decide_eq_false_2 by (apply insert_non_empty). rewrite !sapp_assoc. intros E.
  apply sapp_prefix_inj in E. apply (sapp_prefix_inj "/v4/users/") in E.
  apply (split_inj "/") in E as [->%PathEscape_inj E]; [|apply PathEscape_avoids..]. split; [done|].
  apply (sapp_prefix_inj "rewards?"), Encode_inj in E. rewrite !value_pairs_singleton in E.
  rewrite <- !list_fmap_compose in E. unfold itoa, compose in E.
  apply (list_fmap_eq_inj (fun x : Z => ("chainId", pretty x))); [|done]. intros x y [= Exy]. by apply (inj pretty) in Exy.
Qed.

(** A valid rewards request tells the trimmed user and the set of chain ids, and nothing else: two of them are the same
    request, and get the same answer, exactly when these agree, in whatever order and however often the ids were given.
    An invalid one is refused and nothing is sent. *)
Theorem GetUserRewardsForChains_canonical c user ids user' ids' log :
  rewards_valid user ids -> rewards_valid user' ids' ->
  ((GetUserRewardsForChains http_date answers c user ids log).2 = (GetUserRewardsForChains http_date answers c user' ids' log).2 <->
   TrimSpace user = TrimSpace user' /\ forall x, x ∈ ids <-> x ∈ ids') /\
  (TrimSpace user = TrimSpace user' -> (forall x, x ∈ ids <-> x ∈ ids') ->
   GetUserRewardsForChains http_date answers c user ids log = GetUserRewardsForChains http_date answers c user' ids' log) /\
  (forall u l, ~ rewards_valid u l -> exists e, GetUserRewardsForChains http_date answers c u l log = (Err e, log)).
Proof.
  intros V V'. destruct (rewards_ids user ids V) as (un & E & Hne & N & H), (rewards_ids user' ids' V') as (un' & E' & Hne' & N' & H').
  assert (Same : TrimSpace user = TrimSpace user' -> (forall x, x ∈ ids <-> x ∈ ids') ->
    GetUserRewardsForChains http_date answers c user ids = GetUserRewardsForChains http_date answers c user' ids').
  { intros Hu Hx. rewrite (rewards_call c user ids un), (rewards_call c user' ids' un') by done.
    rewrite Hu, (sort_ids_ext un un'); [done|]. apply NoDup_Permutation; [done..|]. intros x. by rewrite H, H'. }
  split; [split|split].
  - rewrite (rewards_call c user ids un), (rewards_call c user' ids' un'), !wrapM_log, !getJSON_log by done. intros Eq.
    apply (inj (log ++.)) in Eq. injection Eq as Eq.
    apply rewards_url_inj in Eq as [Hu Hs]; [|by intros ?%sort_ids_nil..]. split; [done|]. intros x. rewrite <- H, <- H'.
    rewrite <- (merge_sort_Permutation Z.le un), <- (merge_sort_Permutation Z.le un'). unfold sort_ids in Hs. by rewrite Hs.
  - intros [Hu Hx]. by rewrite Same.
  - intros Hu Hx. by rewrite Same.
  - intros u l Hv. unfold GetUserRewardsForChains, failM. cbv zeta. destruct (String.eqb_spec (TrimSpace u) ""); [by eexists|].
    destruct l as [|x l]; [by eexists|]. cbn [length Nat.eqb]. pose proof (unique_ids_spec ∅ (x :: l)) as Hs.
    destruct (unique_ids ∅ (x :: l)) as [un0|e]; [|by eexists]. destruct Hs as [H0 _]. by destruct Hv.
Qed.

(** ** The pages of a listing *)

(** Consecutive pages, read one after the other. *)
Inductive fetched (c : client) (q : OpportunityQuery) (items : Z) : Z -> list Request -> list (list Opportunity) -> list Request -> Prop :=
  | F_none page log : fetched c q items page log [] log
  | F_page page log item log1 items' log2 :
      ListOpportunities http_date answers c (at_page q page items) log = (Ok item, log1) ->
      fetched c q items (page + 1) log1 items' log2 -> fetched c q items page log (item :: items') log2.

(** The request for one page. *)
Definition page_request (c : client) (q : OpportunityQuery) (items page : Z) : Request :=
  get_request c opportunitiesPath (match opportunityQueryValues (at_page q page items) with Ok (values, _) => values | Err _ => ∅ end).

(** Every page is asked for with the query's own filters, its number and the number of items. *)
Definition page_query (q : OpportunityQuery) (items page : Z) (values : Values) : Prop :=
  sets [("campaigns", unless (negb (oq_Campaigns q)) "true"); ("status", given (TrimSpace (oq_Status q)) (TrimSpace (oq_Status q)));
        ("mainProtocolId", given (TrimSpace (oq_MainProtocolID q)) (TrimSpace (oq_MainProtocolID q)));
        ("chainId", unless (oq_ChainID q =? 0) (pretty (oq_ChainID q))); ("page", Some (pretty page)); ("items", Some (pretty items))] values.

Lemma page_request_query c q items page : 0 <= page -> 1 <= items <= MaxOpportunityItems ->
  exists values, page_query q items page values /\ page_request c q items page =
    mkRequest "GET" (endpoint c "/v4/opportunities" values) (key_header c (header_Set "Accept" "application/json" ∅)) "".
Proof.
  intros Hp Hi. unfold page_request, opportunityQueryValues, normalizeOpportunityItems. cbn [at_page oq_Items oq_Page].
  replace (items <=? 0) with false by lia. replace (MaxOpportunityItems <? items) with false by lia. cbn [result_bind].
  replace (page <? 0) with false by lia. eexists. split; [|reflexivity]. unfold page_query. cbn [at_page oq_ChainID oq_Status oq_MainProtocolID oq_Campaigns].
  rewrite <- if_negb. apply sets_unless; [done|]. do 2 (apply sets_given; [done|]). apply sets_unless; [done|].
  apply sets_Set, sets_Set, sets_nil.
Qed.

Definition full (items : Z) (page : list Opportunity) : Prop := items <= Z.of_nat (length page).

Lemma ListOpportunities_ok c q page items log item log1 :
  ListOpportunities http_date answers c (at_page q page items) log = (Ok item, log1) -> 0 <= page /\ log1 = log ++ [page_request c q items page].
Proof.
  intros E. unfold page_request. unfold ListOpportunities in E. destruct (opportunityQueryValues _) as [[values n]|e] eqn:Eq; [|done].
  split.
  - unfold opportunityQueryValues in Eq. destruct (normalizeOpportunityItems _); [|done]. cbn in Eq. destruct (Z.ltb_spec page 0); [done|lia].
  - apply (f_equal snd) in E. rewrite wrapM_log, getJSON_log in E. by cbn in E.
Qed.

Lemma fetched_log c q items page log pages log1 : fetched c q items page log pages log1 ->
  log1 = log ++ (page_request c q items <$> seqZ page (Z.of_nat (length pages))).
Proof.
  induction 1 as [page log|page log item log1 items' log2 E _ ->]; [by rewrite app_nil_r|]. apply ListOpportunities_ok in E as [_ ->].
  cbn [length]. rewrite (seqZ_cons page) by lia. replace (Z.pred (Z.of_nat (S (length items')))) with (Z.of_nat (length items')) by lia.
  by rewrite fmap_cons, <- app_assoc, Z.add_1_r.
Qed.

Definition exceeded : MerklError := other_error (errors_New ("merkl pagination exceeded " +:+ pretty maxOpportunityPages +:+ " pages")).

(** How the loop over pages ends. *)
Definition pages_end (c : client) (q : OpportunityQuery) (items page : Z) (bound : nat) (before : list Opportunity)
    (pages : list (list Opportunity)) (log1 : list Request) (out : (list Opportunity * option MerklError) * list Request) : Prop :=
  match out with
  | ((all, None), log') => log' = log1 /\ all = before ++ concat pages /\
      exists init l, pages = init ++ [l] /\ Forall (full items) init /\ ~ full items l
  | ((all, Some e), log') => Forall (full items) pages /\
      ((length pages = bound /\ log' = log1 /\ all = before ++ concat pages /\ e = exceeded) \/
       ((length pages < bound)%nat /\ all = [] /\
        ListOpportunities http_date answers c (at_page q (wrap_i64 (page + Z.of_nat (length pages))) items) log1 = (Err e, log')))
  end.

Lemma list_pages_spec c q items bound page before log : - 2 ^ 63 <= page <= 2 ^ 63 ->
  exists pages log1, fetched c q items page log pages log1 /\ (length pages <= bound)%nat /\
        pages_end c q items page bound before pages log1 (list_pages http_date answers c bound q items (wrap_i64 page) before log).
Proof.
  revert page before log. induction bound as [|bound IH]; intros page before log Hp; cbn [list_pages].
  - exists [], log. split; [constructor|]. split; [done|]. split; [constructor|]. left. by rewrite app_nil_r.
  - destruct (ListOpportunities http_date answers c (at_page q (wrap_i64 page) items) log) as [[item|e] log1] eqn:E.
    2:{ exists [], log. split; [constructor|]. split; [cbn; lia|]. split; [constructor|]. right. cbn [length]. split; [lia|].
        by rewrite Z.add_0_r. }
    pose proof (ListOpportunities_ok _ _ _ _ _ _ _ E) as [H0 _].
    assert (Hw : wrap_i64 page = page).
    { destruct (decide (page = 2 ^ 63)) as [->|]; [by vm_compute in H0|]. apply wrap_i64_small. unfold is_i64. lia. }
    rewrite Hw in *. destruct (Z.ltb_spec (Z.of_nat (length item)) items) as [Hl|Hl].
    + exists [item], log1. split; [econstructor; [done|constructor]|]. split; [cbn; lia|]. cbn [pages_end concat]. rewrite app_nil_r.
      split; [done|]. split; [done|]. exists [], item. split; [done|]. split; [constructor|]. unfold full. lia.
    + assert (Hi : page <> 2 ^ 63). { intros ->. by vm_compute in Hw. }
      destruct (IH (page + 1) (before ++ item) log1) as (pages & log2 & F & Hb & H); [lia|].
      exists (item :: pages), log2. split; [by econstructor|]. split; [cbn; lia|].
      destruct (list_pages _ _ _ _ _ _ _ _ _) as [[all [e|]] log']; cbn [pages_end] in *.
      * destruct H as [Hf H]. split; [constructor; [exact Hl|done]|]. cbn [concat length]. rewrite (assoc_L (++)).
        rewrite Nat2Z.inj_succ. replace (page + Z.succ (Z.of_nat (length pages))) with (page + 1 + Z.of_nat (length pages)) by lia.
        destruct H as [(? & ? & ? & ?)|(? & ? & ?)]; [left|right]; repeat split; first [done|lia].
      * destruct H as (-> & -> & init & l & -> & Hi' & Hl'). split; [done|]. split; [by rewrite <- (assoc_L (++))|].
        exists (item :: init), l. split; [done|]. split; [constructor; [exact Hl|done]|done].
Qed.

(** C37: Listing everything reads consecutive pages from the one asked for, in at most a thousand requests, each with the
    query's own filters, the page's number and the number of items and nothing else.  It returns their
    items in order once a page comes short, all pages before it being full; it gives up with what it has when a thousand
    pages were full, and with nothing at the first page that cannot be read. *)
Theorem ListAllOpportunities_pages c q log : is_i64 (oq_Page q) ->
  match opportunityQueryValues q with
  | Err e => ListAllOpportunities http_date answers c q log = (([], Some (other_error e)), log)
  | Ok (_, items) => 1 <= items <= MaxOpportunityItems /\
        exists pages log1, fetched c q items (oq_Page q) log pages log1 /\ (length pages <= 1000)%nat /\
        log1 = log ++ (page_request c q items <$> seqZ (oq_Page q) (Z.of_nat (length pages))) /\
        (forall page, 0 <= page -> exists values, page_query q items page values /\ page_request c q items page =
           mkRequest "GET" (endpoint c "/v4/opportunities" values) (key_header c (header_Set "Accept" "application/json" ∅)) "") /\
        pages_end c q items (oq_Page q) 1000 [] pages log1 (ListAllOpportunities http_date answers c q log)
  end.
Proof.
  intros Hp. unfold ListAllOpportunities. destruct (opportunityQueryValues q) as [[values items]|e] eqn:E; [|done].
  assert (Hi : 1 <= items <= MaxOpportunityItems); [|split; [done|]].
  - unfold opportunityQueryValues, normalizeOpportunityItems in E. unfold MaxOpportunityItems, defaultItemsLimit in *.
    repeat case_match; simplify_eq/=; lia.
  - destruct (list_pages_spec c q items maxOpportunityPages (oq_Page q) [] log) as (pages & log1 & F & Hb & H); [unfold is_i64 in Hp; lia|].
    rewrite wrap_i64_small in H by done. exists pages, log1. split; [done|]. split; [exact Hb|]. split; [by eapply fetched_log|].
    split; [intros page Hpage; by apply page_request_query|exact H].
Qed.
End requests.
