(* ===== verification/Sec.v ===== *)
(** * The SEC client (providers/sec)

    Company tickers and their cache, XBRL facts, and the selection of the latest
    fact.  The cache is what [tickersMu] guards: a call holds it throughout. *)
From Stdlib Require Import Ascii SpecFloat.
From S2P Require Import HttpClient.
From S2P Require Export Json Exchange Calendar Decimal.
Local Open Scope Z_scope.
Local Open Scope go_scope.

Definition defaultDataBaseURL : string := "https://data.sec.gov".
Definition defaultWebsiteBaseURL : string := "https://www.sec.gov".
Definition companyTickersPath : string := "/files/company_tickers.json".
(** [fmt.Sprintf("CIK%010d", cik)] *)
Definition cik_text (cik : Z) : string := "CIK" +:+ pad 10 cik.
Definition companyFactsPath (cik : Z) : string := "/api/xbrl/companyfacts/" +:+ cik_text cik +:+ ".json".
Definition maxResponseBody : Z := Z.shiftl 64 20.
Definition maxErrorResponse : Z := Z.shiftl 1 10.
Definition defaultTimeout : Z := 30 * HttpClient.Second.
Definition defaultMaxRetries : Z := 0.
Definition defaultRetryDelay : Z := HttpClient.Second.

Definition acceptedEquityForms : list string := ["10-K"; "10-K/A"; "10-Q"; "10-Q/A"].

(** ** Types *)

Record CompanyTicker := mkTicker { ct_CIK : Z; ct_Ticker : string; ct_Title : string }.
Record FactValue := mkFact {
  fv_Start : string; fv_End : string; fv_Value : float64; fv_Accession : string; fv_FiscalYear : option Z; fv_FiscalPeriod : string;
  fv_Form : string; fv_Filed : string; fv_Frame : string }.
Record CompanyFact := mkCompanyFact { cf_Label : string; cf_Description : string; cf_Units : gmap string (list FactValue) }.
Record CompanyFacts := mkFacts { f_CIK : Z; f_EntityName : string; f_Facts : gmap string (gmap string CompanyFact) }.
Record EquityFacts := mkEquity {
  e_CIK : Z; e_Ticker : string; e_EntityName : string; e_SharesOutstanding : option FactValue;
  e_DilutedWeightedAverageShares : option FactValue; e_PublicFloatUSD : option FactValue }.

(** [HTTPError], and an error with the one in it. *)
Record HTTPError := mkHTTPError { he_StatusCode : Z; he_Body : string }.
Definition HTTPError_Error (e : HTTPError) : string :=
  if String.eqb (he_Body e) "" then "sec status " +:+ pretty (he_StatusCode e) else "sec status " +:+ pretty (he_StatusCode e) +:+ ": " +:+ he_Body e.
Record SecError := mkSecError { se_err : GoError; se_http : option HTTPError }.
Definition plain (e : GoError) : SecError := mkSecError e None.
Definition http_error (e : HTTPError) : SecError := mkSecError (errors_New (HTTPError_Error e)) (Some e).
Definition wrap_sec (pre : string) (e : SecError) : SecError := mkSecError (Errorf_w pre (se_err e) "") (se_http e).

Section sec.
Context `{U : UnicodeTables} `{JE : JsonErrors} `{JS : JsonStream}.

(** ** Decoding *)

Definition decode_ticker (raw : json) : result GoError CompanyTicker :=
  let? cik := f_uint 64 "uint64" "cik_str" raw in
  let? ticker := f_string "ticker" raw in
  let? title := f_string "title" raw in
  Ok (mkTicker cik ticker title).

Definition decode_fact_value (raw : json) : result GoError FactValue :=
  let? start := f_string "start" raw in
  let? end_ := f_string "end" raw in
  let? value := f_float "val" raw in
  let? accession := f_string "accn" raw in
  let? year := field (d_pointer (d_int 64 "int") 0) None "fy" raw in
  let? period := f_string "fp" raw in
  let? form := f_string "form" raw in
  let? filed := f_string "filed" raw in
  let? frame := f_string "frame" raw in
  Ok (mkFact start end_ value accession year period form filed frame).

Definition decode_fact (raw : json) : result GoError CompanyFact :=
  let? label := f_string "label" raw in
  let? description := f_string "description" raw in
  let? units := field (d_map (d_list decode_fact_value []) "map[string][]sec.FactValue") ∅ "units" raw in
  Ok (mkCompanyFact label description units).

Definition cik_error (value : string) : GoError := errors_New ("decode SEC CIK " +:+ strconv_Quote value).

(** [parseCIK] of the raw value, absent or not; any other value is taken as
    [json.Marshal] would write it. *)
Definition parseCIK (raw : option json) : result GoError Z :=
  let parse value :=
    if String.eqb value "" || String.eqb value "null" then Ok 0
    else match ParseUint 64 value with Some cik => Ok cik | None => Err (cik_error value) end in
  match raw with
  | None | Some JNull => Ok 0
  | Some (JNumber text) => parse text
  | Some (JString s) => parse s
  | Some v => parse (json_Marshal v)
  end.

Definition CompanyFacts_UnmarshalJSON (data : json) : result GoError CompanyFacts :=
  let? raw := field d_raw None "cik" data in
  let? name := f_string "entityName" data in
  let? facts := field (d_map (d_map decode_fact "map[string]sec.CompanyFact" ∅) "map[string]map[string]sec.CompanyFact") ∅ "facts" data in
  let? cik := parseCIK raw in
  Ok (mkFacts cik name facts).

(** [decodeJSON]: the first value of the body. *)
Definition decodeJSON {A} (u : json -> result GoError A) (body : string) : result GoError A :=
  match decode_first u body with
  | Err e => Err (Errorf_w "decode response: " e "")
  | Ok out => Ok out
  end.

(** ** The latest fact *)

Definition validFact (value : FactValue) : bool :=
  bool_decide (ToUpper (TrimSpace (fv_Form value)) ∈ acceptedEquityForms) &&
  negb (String.eqb (fv_End value) "" || negb (SFltb float_zero (fv_Value value)) || IsNaN (fv_Value value) || IsInf (fv_Value value)) &&
  match ParseDate (fv_End value) with Some _ => true | None => false end.

Definition compareFactDates (left right : FactValue) : comparison :=
  match String.compare (fv_End left) (fv_End right) with
  | Eq => match String.compare (fv_Filed left) (fv_Filed right) with Eq => String.compare (fv_Accession left) (fv_Accession right) | c => c end
  | c => c
  end.
Definition later (left right : FactValue) : bool := match compareFactDates left right with Gt => true | _ => false end.

(** Whole days: the hours between two dates are a multiple of 24, and the
    longest duration is 106751.99 days. *)
Definition factDurationDays (value : FactValue) : Z :=
  match ParseDate (fv_Start value), ParseDate (fv_End value) with
  | Some start, Some end_ => if end_ <? start then 0 else Sub end_ start / nanosPerDay + 1
  | _, _ => 0
  end.

Definition betterDurationFact (candidate selected : FactValue) : bool :=
  match String.compare (fv_End candidate) (fv_End selected) with
  | Gt => true
  | Lt => false
  | Eq =>
      let candidateDays := factDurationDays candidate in
      let selectedDays := factDurationDays selected in
      if (0 <? candidateDays) && (0 <? selectedDays) && negb (candidateDays =? selectedDays) then candidateDays <? selectedDays
      else later candidate selected
  end.

(** The loop of both: a candidate that passes replaces a worse one. *)
Definition select_step (passes : FactValue -> bool) (better : FactValue -> FactValue -> bool) (selected : option FactValue) (candidate : FactValue) : option FactValue :=
  if negb (passes candidate) then selected
  else match selected with
       | None => Some candidate
       | Some s => if better candidate s then Some candidate else selected
       end.

(** The values under the first unit the walk meets. *)
Definition factValues (o : map_order) (facts : CompanyFacts) (taxonomy tag unit : string) : list FactValue :=
  match f_Facts facts !! taxonomy with
  | None => []
  | Some taxonomyFacts =>
      match taxonomyFacts !! tag with
      | None => []
      | Some fact => match List.find (fun kv => EqualFold kv.1 unit) (walk o (cf_Units fact)) with Some (_, values) => values | None => [] end
      end
  end.

Definition instant (f : FactValue) : bool := String.eqb (fv_Start f) "" && validFact f.
Definition duration (f : FactValue) : bool := negb (String.eqb (fv_Start f) "") && validFact f.

Definition latestInstantFact (o : map_order) (facts : CompanyFacts) (taxonomy tag unit : string) : option FactValue :=
  foldl (select_step instant later) None (factValues o facts taxonomy tag unit).
Definition latestDurationFact (o : map_order) (facts : CompanyFacts) (taxonomy tag unit : string) : option FactValue :=
  foldl (select_step duration betterDurationFact) None (factValues o facts taxonomy tag unit).

(** ** The client *)

Record client := mkClient {
  userAgent : string; dataBaseURL : string; websiteBaseURL : string; timeout : option Z; maxRetries : option Z; retryDelay : option Z }.
Definition Option : Type := client -> client.
Definition trimmed_url (baseURL : string) : string := trim_right (Ascii.eqb "/"%char) (TrimSpace baseURL).
Definition WithDataBaseURL (baseURL : string) : Option := fun c =>
  let baseURL := trimmed_url baseURL in
  if String.eqb baseURL "" then c else mkClient (userAgent c) baseURL (websiteBaseURL c) (timeout c) (maxRetries c) (retryDelay c).
Definition WithWebsiteBaseURL (baseURL : string) : Option := fun c =>
  let baseURL := trimmed_url baseURL in
  if String.eqb baseURL "" then c else mkClient (userAgent c) (dataBaseURL c) baseURL (timeout c) (maxRetries c) (retryDelay c).
Definition WithTimeout (d : Z) : Option := fun c =>
  mkClient (userAgent c) (dataBaseURL c) (websiteBaseURL c) (Some d) (maxRetries c) (retryDelay c).
Definition WithRetry (retries delay : Z) : Option := fun c =>
  mkClient (userAgent c) (dataBaseURL c) (websiteBaseURL c) (timeout c) (Some retries) (Some delay).

(** The client with its HTTP client, as the builder makes it. *)
Definition New (agent : string) (opts : list (option Option)) : result GoError (client * (Transport * Z)) :=
  let agent := TrimSpace agent in
  if String.eqb agent "" then Err (errors_New "sec user agent is required")
  else
    let c := foldl (fun c o => match o with Some o => o c | None => c end)
      (mkClient agent defaultDataBaseURL defaultWebsiteBaseURL None None None) opts in
    Ok (c, BuildClient (SetRetry (default defaultMaxRetries (maxRetries c)) (default defaultRetryDelay (retryDelay c))
             (SetTimeout (default defaultTimeout (timeout c)) NewClientBuilder))).

Definition normalizeTicker (ticker : string) : string := ToUpper (TrimSpace ticker).

Section requests.
Variable answers : nat -> reply.
Variable c : client.

Definition get_request (endpoint : string) : Request :=
  mkRequest "GET" endpoint (header_Set "User-Agent" (userAgent c) (header_Set "Accept" "application/json" ∅)) "".

Definition doGET (a : reply) : result SecError HttpResponse :=
  match r_Limiter a with
  | Some e => Err (plain (Errorf_w "rate limit wait: " e ""))
  | None =>
      match r_NewRequest a with
      | Some e => Err (plain (Errorf_w "build request: " e ""))
      | None => match r_Do a with Err e => Err (plain (Errorf_w "request failed: " e "")) | Ok resp => Ok resp end
      end
  end.

(** What is read of a response, the limit cutting a longer one short. *)
Definition read_body (resp : HttpResponse) : result SecError string :=
  if negb (success (hr_Status resp)) then
    Err (http_error (mkHTTPError (hr_Status resp) (TrimSpace (stake (Z.to_nat maxErrorResponse) (hr_Body resp)))))
  else match ReadAll maxResponseBody resp with Err e => Err (plain (Errorf_w "read response: " e "")) | Ok body => Ok body end.

Definition getBody (endpoint : string) : Run SecError string := finish (exchange answers (get_request endpoint) doGET) read_body.

(** A body fetched and decoded, its errors under a prefix. *)
Definition getJSON {A} (u : json -> result GoError A) (prefix endpoint : string) : Run SecError A :=
  on_error (wrap_sec prefix)
    (finish (getBody endpoint) (fun body => match decodeJSON u body with Ok out => Ok out | Err e => Err (plain e) end)).

Definition clean_ticker (t : CompanyTicker) : CompanyTicker := mkTicker (ct_CIK t) (normalizeTicker (ct_Ticker t)) (TrimSpace (ct_Title t)).
Definition usable (t : CompanyTicker) : bool := negb ((ct_CIK t =? 0) || String.eqb (ct_Ticker t) "").

(** The map is walked in some order, so equal tickers come out in any. *)
Definition ticker_list (o : map_order) (payload : gmap string CompanyTicker) : list CompanyTicker :=
  sort_stable (cmp_on ct_Ticker String.compare) (List.filter usable (map clean_ticker (walk o payload).*2)).

Definition GetCompanyTickers (o : map_order) : Run SecError (list CompanyTicker) :=
  finish (getJSON (d_map decode_ticker "map[string]sec.CompanyTicker" ∅) "sec company tickers: " (websiteBaseURL c +:+ companyTickersPath))
    (fun payload => Ok (ticker_list o payload)).

(** The cache: nil, or the company of each ticker. *)
Definition cache : Type := option (gmap string CompanyTicker).
Definition index (tickers : list CompanyTicker) : gmap string CompanyTicker := foldl (fun m company => <[ct_Ticker company := company]> m) ∅ tickers.
Definition not_found (ticker : string) : SecError := plain (Errorf_w "" ErrTickerNotFound_v (": " +:+ ticker)).

Definition ResolveCIK (o : map_order) (ticker : string) (s : cache) (log : list Request) : (result SecError Z * cache) * list Request :=
  let ticker := normalizeTicker ticker in
  if String.eqb ticker "" then ((Err (plain (errors_New "sec ticker is required")), s), log)
  else
    match s with
    | Some m => ((match m !! ticker with Some company => Ok (ct_CIK company) | None => Err (not_found ticker) end, s), log)
    | None =>
        match GetCompanyTickers o log with
        | (Err e, log) => ((Err e, s), log)
        | (Ok tickers, log) =>
            let m := index tickers in
            ((match m !! ticker with Some company => Ok (ct_CIK company) | None => Err (not_found ticker) end, Some m), log)
        end
    end.

Definition GetCompanyFacts (cik : Z) : Run SecError CompanyFacts :=
  if cik =? 0 then fail (plain (errors_New "sec cik is required"))
  else
    finish (getJSON CompanyFacts_UnmarshalJSON ("sec company facts " +:+ cik_text cik +:+ ": ") (dataBaseURL c +:+ companyFactsPath cik))
      (fun facts => Ok (if f_CIK facts =? 0 then mkFacts cik (f_EntityName facts) (f_Facts facts) else facts)).

Definition equity_facts (o : map_order) (ticker : string) (facts : CompanyFacts) : EquityFacts :=
  mkEquity (f_CIK facts) ticker (TrimSpace (f_EntityName facts))
    (latestInstantFact o facts "dei" "EntityCommonStockSharesOutstanding" "shares")
    (latestDurationFact o facts "us-gaap" "WeightedAverageNumberOfDilutedSharesOutstanding" "shares")
    (latestInstantFact o facts "dei" "EntityPublicFloat" "USD").

Definition GetEquityFacts (o : map_order) (ticker : string) (s : cache) (log : list Request) : (result SecError EquityFacts * cache) * list Request :=
  let normalizedTicker := normalizeTicker ticker in
  match ResolveCIK o normalizedTicker s log with
  | ((Err e, s), log) => ((Err e, s), log)
  | ((Ok cik, s), log) =>
      match GetCompanyFacts cik log with
      | (Err e, log) => ((Err e, s), log)
      | (Ok facts, log) => ((Ok (equity_facts o normalizedTicker facts), s), log)
      end
  end.
End requests.
End sec.

(** ** What the SEC client's operations promise

    The fact selected is the latest whatever order the facts come in, as long as
    durations have dates; the ticker cache is filled once and holds real CIKs. *)

Section select.
Context `{U : UnicodeTables} `{JE : JsonErrors} `{JS : JsonStream}.

(** ** The order on facts *)

Definition date_order : FactValue -> FactValue -> comparison :=
  fun x y => cmp_or (cmp_on fv_End String.compare x y) (cmp_or (cmp_on fv_Filed String.compare x y) (cmp_on fv_Accession String.compare x y)).

(** Of two durations that end together, the shorter comes last. *)
Definition duration_order : FactValue -> FactValue -> comparison :=
  fun x y => cmp_or (cmp_on fv_End String.compare x y) (cmp_or (cmp_on (fun f => - factDurationDays f) Z.compare x y) (date_order x y)).

#[local] Instance WeakCmp_date : WeakCmp date_order.
Proof. apply WeakCmp_or; [apply _|]. apply WeakCmp_or; apply _. Qed.

#[local] Instance WeakCmp_duration : WeakCmp duration_order.
Proof. apply WeakCmp_or; [apply _|]. apply WeakCmp_or; [apply (WeakCmp_on _ _)|apply WeakCmp_date]. Qed.

Lemma compareFactDates_order x y : compareFactDates x y = date_order x y.
Proof.
  unfold compareFactDates, date_order, cmp_on. destruct x as [? xe ? xa ? ? ? xf ?], y as [? ye ? ya ? ? ? yf ?]. cbn.
  by destruct (String.compare xe ye), (String.compare xf yf).
Qed.

Definition above {A} (order : A -> A -> comparison) (x y : A) : bool := match order x y with Gt => true | _ => false end.

Lemma later_above x y : later x y = above date_order x y.
Proof. unfold later, above. by rewrite compareFactDates_order. Qed.

Lemma betterDurationFact_above x y : 0 < factDurationDays x -> 0 < factDurationDays y ->
  betterDurationFact x y = above duration_order x y.
Proof.
  unfold betterDurationFact, above, duration_order, cmp_on. rewrite later_above. unfold above.
  generalize (factDurationDays x) (factDurationDays y) (date_order x y). intros dx dy order Hx Hy.
  destruct x as [? xe ? ? ? ? ? ? ?], y as [? ye ? ? ? ? ? ? ?]. cbn [fv_End]. destruct (String.compare xe ye); [|done..]. cbn [cmp_or].
  replace (0 <? dx) with true by lia. replace (0 <? dy) with true by lia. cbn [andb].
  destruct (Z.compare_spec (- dx) (- dy)); cbn [cmp_or]; destruct (Z.eqb_spec dx dy); cbn [negb]; try lia; try done;
    destruct (Z.ltb_spec dx dy); by try lia.
Qed.

(** ** The loop keeps a greatest element *)

Lemma above_trans {A} (order : A -> A -> comparison) `{!WeakCmp order} g s x : above order g s = false -> above order x s = true -> above order g x = false.
Proof.
  unfold above. intros H1 H2. destruct (order g x) eqn:E; try done. exfalso.
  assert (Hgs : order g s <> Gt) by (by destruct (order g s)). assert (Hxs : order x s = Gt) by (by destruct (order x s)).
  assert (Hxg : order x g <> Gt) by (rewrite (cmp_flip order g x), E; done).
  by pose proof (cmp_trans order x g s Hxg Hgs).
Qed.

Lemma above_irrefl {A} (order : A -> A -> comparison) `{!WeakCmp order} x : above order x x = false.
Proof. unfold above. by rewrite (cmp_refl order). Qed.

(** The greatest of the values that pass. *)
Definition greatest (passes : FactValue -> bool) (better : FactValue -> FactValue -> bool) (l : list FactValue) (selected : option FactValue) : Prop :=
  match selected with
  | None => forall g, g ∈ l -> passes g = false
  | Some f => f ∈ l /\ passes f = true /\ forall g, g ∈ l -> passes g = true -> better g f = false
  end.

Lemma select_greatest passes better order `{!WeakCmp order} l :
  (forall x y, x ∈ l -> y ∈ l -> passes x = true -> passes y = true -> better x y = above order x y) ->
  greatest passes better l (foldl (select_step passes better) None l).
Proof.
  induction l as [|x l IH] using rev_ind; intros Hb; [intros g Hg; by apply elem_of_nil in Hg|].
  rewrite foldl_app. cbn [foldl]. assert (IH' := IH ltac:(intros; apply Hb; rewrite ?elem_of_app; auto)). clear IH.
  destruct (foldl _ None l) as [s|]; unfold select_step; destruct (passes x) eqn:Ex; cbn [negb greatest] in *.
  - destruct IH' as (Hs & Ps & Hmax). pose proof (Hb x s) as Hxs. specialize (Hxs ltac:(set_solver) ltac:(set_solver) Ex Ps).
    destruct (better x s) eqn:E; cbn [greatest].
    + split; [set_solver|]. split; [done|]. intros g [Hg| ->%list_elem_of_singleton]%elem_of_app Pg; rewrite Hb by set_solver; [|apply (above_irrefl order)].
      apply (above_trans order g s x); [|by symmetry]. rewrite <- Hb by set_solver. by apply Hmax.
    + split; [set_solver|]. split; [done|]. intros g [Hg| ->%list_elem_of_singleton]%elem_of_app Pg; [by apply Hmax|done].
  - destruct IH' as (Hs & Ps & Hmax). split; [set_solver|]. split; [done|].
    intros g [Hg| ->%list_elem_of_singleton]%elem_of_app Pg; [by apply Hmax|congruence].
  - split; [set_solver|]. split; [done|]. intros g [Hg| ->%list_elem_of_singleton]%elem_of_app Pg; [rewrite IH' in Pg by done; done|].
    rewrite Hb by set_solver. apply (above_irrefl order).
  - intros g [Hg| ->%list_elem_of_singleton]%elem_of_app; [by apply IH'|done].
Qed.

(** The instant fact selected is a valid one of those under the unit and none of them is later, by end, filing and accession;
    nothing is selected only when none is valid.  So is the duration fact, the shorter of two that end together being
    preferred, when every candidate has a start date. *)
Theorem latest_facts_greatest o facts taxonomy tag unit :
  greatest instant later (factValues o facts taxonomy tag unit) (latestInstantFact o facts taxonomy tag unit) /\
  ((forall f, f ∈ factValues o facts taxonomy tag unit -> duration f = true -> 0 < factDurationDays f) ->
   greatest duration betterDurationFact (factValues o facts taxonomy tag unit) (latestDurationFact o facts taxonomy tag unit)).
Proof.
  split.
  - apply (select_greatest _ _ date_order). intros. apply later_above.
  - intros Hd. apply (select_greatest _ _ duration_order). intros x y Hx Hy Px Py. apply betterDurationFact_above; by apply Hd.
Qed.
End select.

(** ** The ticker cache *)

Section cache.
Context `{U : UnicodeTables} `{JE : JsonErrors} `{JS : JsonStream}.
Context (answers : nat -> reply) (c : client).

(** A filled cache maps each ticker to a company of that ticker with a CIK. *)
Definition cache_ok (s : cache) : Prop :=
  match s with None => True | Some m => forall k t, m !! k = Some t -> ct_Ticker t = k /\ ct_CIK t <> 0 /\ k <> "" end.

Lemma index_ok l : (forall t, t ∈ l -> ct_CIK t <> 0 /\ ct_Ticker t <> "") -> cache_ok (Some (index l)).
Proof.
  intros H. cbn [cache_ok]. unfold index. induction l as [|x l IH] using rev_ind; [intros k t Hk; cbn in Hk; by rewrite lookup_empty in Hk|].
  rewrite foldl_app. cbn [foldl]. intros k t [[<- <-]|[_ Hk]]%lookup_insert_Some.
  - split; [done|]. apply H; set_solver.
  - apply IH; [|done]. intros y Hy. apply H. set_solver.
Qed.

Lemma ticker_list_usable o payload t : t ∈ ticker_list o payload -> ct_CIK t <> 0 /\ ct_Ticker t <> "".
Proof.
  unfold ticker_list. rewrite sort_stable_elem, list_elem_of_In. intros [_ Hu]%filter_In. unfold usable in Hu.
  destruct (Z.eqb_spec (ct_CIK t) 0), (String.eqb_spec (ct_Ticker t) ""); done.
Qed.

Definition tickers_request : Request := get_request c (websiteBaseURL c +:+ companyTickersPath).
Definition facts_request (cik : Z) : Request := get_request c (dataBaseURL c +:+ companyFactsPath cik).

Lemma sec_getJSON_log {A} (u : json -> result GoError A) prefix endpoint log :
  (getJSON answers c u prefix endpoint log).2 = log ++ [get_request c endpoint].
Proof. unfold getJSON, getBody, on_error, finish, exchange. repeat case_match; by simplify_eq/=. Qed.

Lemma finish_log {A B} (m : Run SecError A) (k : A -> result SecError B) log : (finish m k log).2 = (m log).2.
Proof. unfold finish. by destruct (m log) as [[]]. Qed.

(** Tickers once fetched are cached, and are not asked for again. *)
Lemma ResolveCIK_spec o ticker s log : cache_ok s ->
  match ResolveCIK answers c o ticker s log with
  | ((r, s'), log') => cache_ok s' /\
      log' = log ++ (if String.eqb (normalizeTicker ticker) "" then [] else match s with None => [tickers_request] | Some _ => [] end) /\
      (s <> None -> s' = s) /\
      match r with
      | Ok cik => normalizeTicker ticker <> "" /\ exists m t, s' = Some m /\ m !! normalizeTicker ticker = Some t /\ ct_CIK t = cik /\ cik <> 0
      | Err _ => normalizeTicker ticker = "" \/ s' = None \/ exists m, s' = Some m /\ m !! normalizeTicker ticker = None
      end
  end.
Proof.
  intros Hs. unfold ResolveCIK. cbv zeta. destruct (String.eqb_spec (normalizeTicker ticker) "") as [E|Hne]; [rewrite app_nil_r; tauto|].
  destruct s as [m|].
  - rewrite app_nil_r. split; [done|]. split; [done|]. split; [done|]. destruct (m !! normalizeTicker ticker) as [t|] eqn:Em.
    + split; [done|]. exists m, t. by destruct (Hs _ _ Em) as (_ & ? & _).
    + right. right. by exists m.
  - pose proof (finish_log (getJSON answers c (d_map decode_ticker "map[string]sec.CompanyTicker" ∅) "sec company tickers: " (websiteBaseURL c +:+ companyTickersPath))
      (fun payload => Ok (ticker_list o payload)) log) as Hl. rewrite sec_getJSON_log in Hl. fold (GetCompanyTickers answers c o) in Hl.
    destruct (GetCompanyTickers answers c o log) as [[tickers|e] log1] eqn:E; cbn in Hl; subst log1.
    + assert (Hi : cache_ok (Some (index tickers))).
      { apply finish_Ok in E as (payload & _ & [= <-]). apply index_ok. intros t. apply ticker_list_usable. }
      split; [done|]. split; [done|]. split; [done|]. destruct (index tickers !! normalizeTicker ticker) as [t|] eqn:Em.
      * split; [done|]. eexists _, t. by destruct (Hi _ _ Em) as (_ & ? & _).
      * right. right. by eexists.
    + split; [done|]. split; [done|]. split; [done|]. right. by left.
Qed.

(** What [GetEquityFacts] asks for: the tickers if they are not cached, and the
    facts of the CIK found. *)
Definition equity_requests (ticker : string) (s s' : cache) : list Request :=
  let key := normalizeTicker (normalizeTicker ticker) in
  if String.eqb key "" then []
  else (match s with None => [tickers_request] | Some _ => [] end) ++
       match s' with
       | None => []
       | Some m => match m !! key with Some t => [facts_request (ct_CIK t)] | None => [] end
       end.

(** Equity facts cost one request for the facts of the company cached for the ticker, after one for the tickers if these
    were never read; they are cached for good once read, and not when reading them failed.  What comes out names a CIK that is
    not zero and holds the facts selected from that company's. *)
Theorem GetEquityFacts_spec o ticker s log : cache_ok s ->
  match GetEquityFacts answers c o ticker s log with
  | ((r, s'), log') => cache_ok s' /\ (s <> None -> s' = s) /\ log' = log ++ equity_requests ticker s s' /\
      match r with
      | Ok e => e_CIK e <> 0 /\ exists facts, e = equity_facts o (normalizeTicker ticker) facts
      | Err _ => True
      end
  end.
Proof.
  intros Hs. unfold GetEquityFacts. cbv zeta. pose proof (ResolveCIK_spec o (normalizeTicker ticker) s log Hs) as H.
  destruct (ResolveCIK answers c o (normalizeTicker ticker) s log) as [[[cik|e] s'] log1]; destruct H as (Hs' & -> & Hkeep & H).
  2: { split; [done|]. split; [done|]. split; [|done]. f_equal. unfold equity_requests. cbv zeta.
       destruct (String.eqb_spec (normalizeTicker (normalizeTicker ticker)) "") as [|Hne]; [done|].
       destruct H as [?|[->|(m & -> & ->)]]; [done|by rewrite app_nil_r..]. }
  destruct H as (Hne & m & t & -> & Hm & <- & Hcik).
  pose proof (finish_log (getJSON answers c CompanyFacts_UnmarshalJSON ("sec company facts " +:+ cik_text (ct_CIK t) +:+ ": ")
    (dataBaseURL c +:+ companyFactsPath (ct_CIK t)))
    (fun facts => Ok (if f_CIK facts =? 0 then mkFacts (ct_CIK t) (f_EntityName facts) (f_Facts facts) else facts))) as Hl.
  unfold GetCompanyFacts. destruct (Z.eqb_spec (ct_CIK t) 0); [done|].
  specialize (Hl (log ++ (if String.eqb (normalizeTicker (normalizeTicker ticker)) "" then [] else match s with None => [tickers_request] | Some _ => [] end))).
  rewrite sec_getJSON_log in Hl. destruct (finish _ _ _) as [r log2] eqn:E. cbn [snd] in Hl. subst log2.
  assert (Hlog : forall l, (log ++ (if String.eqb (normalizeTicker (normalizeTicker ticker)) "" then [] else l)) ++ [facts_request (ct_CIK t)] =
    log ++ (if String.eqb (normalizeTicker (normalizeTicker ticker)) "" then [] else l ++ [facts_request (ct_CIK t)])).
  { intros l. destruct (String.eqb_spec (normalizeTicker (normalizeTicker ticker)) ""); [done|]. by rewrite (assoc_L (++)). }
  destruct r as [facts|e]; (split; [done|]; split; [done|]; split; [unfold equity_requests; cbv zeta; rewrite Hm; apply Hlog|]); [|done].
  apply finish_Ok in E as (raw & _ & [= <-]). split; [|by eexists]. unfold equity_facts. cbn [e_CIK]. by destruct (Z.eqb_spec (f_CIK raw) 0).
Qed.
End cache.

(** ** Durations without a start date *)

(** Three durations that end together, one with a start that is no date: the one
    selected depends on the order they come in. *)
Section order.
Context `{U : UnicodeTables}.
Definition quarterly (start filed : string) : FactValue := mkFact start "2024-12-31" float_one "" None "" "10-K" filed "".
Definition quarter_fact : FactValue := quarterly "2024-10-01" "2025-01-01".
Definition undated_fact : FactValue := quarterly "2024" "2025-01-02".
Definition year_fact : FactValue := quarterly "2024-01-01" "2025-01-03".

Lemma undated_cycle :
  betterDurationFact quarter_fact year_fact = true /\ betterDurationFact year_fact undated_fact = true /\
  betterDurationFact undated_fact quarter_fact = true /\
  validFact quarter_fact = true /\ validFact undated_fact = true /\ validFact year_fact = true /\
  foldl (select_step duration betterDurationFact) None [quarter_fact; undated_fact; year_fact] = Some year_fact /\
  foldl (select_step duration betterDurationFact) None [year_fact; undated_fact; quarter_fact] = Some quarter_fact.
Proof. by vm_compute. Qed.
End order.
