(* ===== verification/Yahoo.v ===== *)
(** * The Yahoo Finance client (providers/yahoo): requests and charts

    Types, decoding, queries, the chart operations and what is made of a chart.
    The session behind the share statistics is in [YahooSession]. *)
From Stdlib Require Import Ascii SpecFloat.
From S2P Require Import HttpClient.
From S2P Require Export Json Exchange Query Calendar Decimal.
Local Open Scope Z_scope.
Local Open Scope go_scope.

Definition defaultBaseURL : string := "https://query1.finance.yahoo.com".
Definition defaultCookieURL : string := "https://fc.yahoo.com".
Definition defaultUserAgent : string := "superform-go-utils/yahoo".
Definition defaultCrumbAgent : string := "Mozilla/5.0 (compatible; superform-go-utils/yahoo)".
Definition crumbPath : string := "/v1/test/getcrumb".
Definition chartPath (symbol : string) : string := "/v8/finance/chart/" +:+ symbol.
Definition defaultRange : string := "1mo".
Definition defaultInterval : string := "1d".
Definition maxResponseBody : Z := Z.shiftl 16 20.

(** ** Types (types.go) *)

Record ChartRequest := mkChartRequest {
  cr_Symbol : string; cr_Range : string; cr_Interval : string; cr_Start : Z; cr_End : Z; cr_IncludePrePost : bool; cr_Events : string }.
Record PriceHistoryRequest := mkHistoryRequest {
  pr_Symbol : string; pr_Range : string; pr_Granularity : string; pr_Start : Z; pr_End : Z; pr_IncludePrePost : bool; pr_Events : string }.
Record StockDetail := mkStockDetail {
  sd_Symbol : string; sd_ShortName : string; sd_LongName : string; sd_Currency : string; sd_Price : option float64; sd_MarketTime : option Z;
  sd_MarketVolume : option Z; sd_Open : option float64; sd_FiftyTwoWeekHigh : option float64; sd_FiftyTwoWeekLow : option float64 }.
Record PriceBar := mkPriceBar {
  pb_Symbol : string; pb_Interval : string; pb_Timestamp : Z; pb_Open : float64; pb_High : float64; pb_Low : float64; pb_Close : float64;
  pb_AdjClose : option float64; pb_Volume : Z }.
Record ShareStatistics := mkShareStatistics {
  ss_Symbol : string; ss_Currency : string; ss_QuoteType : string; ss_Exchange : string; ss_FloatShares : option float64;
  ss_SharesOutstanding : option float64 }.

Record YahooError := mkYahooError { ye_Code : string; ye_Description : string }.
Definition YahooError_Error (e : YahooError) : string :=
  if String.eqb (ye_Code e) "" then ye_Description e
  else if String.eqb (ye_Description e) "" then ye_Code e
  else ye_Code e +:+ ": " +:+ ye_Description e.

Record SplitEvent := mkSplit { se_Date : Z; se_Numerator : float64; se_Denominator : float64; se_SplitRatio : string }.
Record TradingPeriodWindow := mkWindow { tw_Timezone : string; tw_Start : Z; tw_End : Z; tw_GMTOffset : Z }.
Record TradingPeriod := mkPeriod { tp_Pre : TradingPeriodWindow; tp_Regular : TradingPeriodWindow; tp_Post : TradingPeriodWindow }.
Record ChartMeta := mkMeta {
  m_Currency : string; m_Symbol : string; m_ExchangeName : string; m_FullExchangeName : string; m_InstrumentType : string;
  m_FirstTradeDate : Z; m_RegularMarketTime : Z; m_GMTOffset : Z; m_Timezone : string; m_ExchangeTimezoneName : string;
  m_RegularMarketPrice : option float64; m_FiftyTwoWeekHigh : option float64; m_FiftyTwoWeekLow : option float64;
  m_RegularMarketDayHigh : option float64; m_RegularMarketDayLow : option float64; m_RegularMarketVolume : option Z;
  m_LongName : string; m_ShortName : string; m_ChartPreviousClose : option float64; m_PreviousClose : option float64;
  m_CurrentTradingPeriod : TradingPeriod }.
Record ChartQuote := mkQuote {
  q_Open : list (option float64); q_High : list (option float64); q_Low : list (option float64); q_Close : list (option float64);
  q_Volume : list (option Z) }.
(** The quotes, and the adjusted closes of each [ChartAdjClose]. *)
Record ChartIndicators := mkIndicators { ind_Quote : list ChartQuote; ind_AdjClose : list (list (option float64)) }.
Record ChartResult := mkChartResult { ch_Meta : ChartMeta; ch_Timestamp : list Z; ch_Indicators : ChartIndicators; ch_Splits : gmap string SplitEvent }.
Record ChartPayload := mkPayload { cp_Result : list ChartResult; cp_Error : option YahooError }.

(** ** Errors *)

Record HTTPError := mkHTTPError { he_StatusCode : Z; he_Body : string }.
Definition HTTPError_Error (e : HTTPError) : string :=
  if String.eqb (he_Body e) "" then "status " +:+ pretty (he_StatusCode e) else "status " +:+ pretty (he_StatusCode e) +:+ ": " +:+ he_Body e.
Record APIError := mkAPIError { ae_Endpoint : string; ae_Error : YahooError }.
Definition APIError_Error (e : APIError) : string :=
  if String.eqb (ae_Endpoint e) "" then YahooError_Error (ae_Error e) else ae_Endpoint e +:+ ": " +:+ YahooError_Error (ae_Error e).

(** An error, and the [*HTTPError] and [*APIError] in it. *)
Record ClientError := mkClientError { ce_err : GoError; ce_http : option HTTPError; ce_api : option APIError }.
Definition plain (e : GoError) : ClientError := mkClientError e None None.
Definition http_error (e : HTTPError) : ClientError := mkClientError (errors_New (HTTPError_Error e)) (Some e) None.
Definition api_error (e : APIError) : ClientError := mkClientError (errors_New (APIError_Error e)) None (Some e).
Definition wrap_client (pre : string) (e : ClientError) : ClientError := mkClientError (Errorf_w pre (ce_err e) "") (ce_http e) (ce_api e).

(** What an exchange fails with: the error and the status [http_client] reads
    out of it. *)
Record TransportError := mkTransportError { te_err : GoError; te_status : option Z }.
Definition ContextCanceled_v : GoError := sentinel ContextCanceled "context canceled".
Definition DeadlineExceeded_v : GoError := sentinel DeadlineExceeded "context deadline exceeded".

(** No text of the transport's own error comes through. *)
Definition safeRequestError (e : TransportError) : ClientError :=
  if Is (te_err e) ContextCanceled then plain ContextCanceled_v
  else if Is (te_err e) DeadlineExceeded then plain DeadlineExceeded_v
  else match te_status e with Some status => http_error (mkHTTPError status "") | None => plain (errors_New "Yahoo HTTP request failed") end.

Section yahoo.
Context `{U : UnicodeTables} `{JE : JsonErrors} `{JS : JsonStream}.

(** ** Decoding *)

Definition f_pointer {A} (d : decoder A) (zero : A) (name : string) (raw : json) : result GoError (option A) := field (d_pointer d zero) None name raw.
Definition f_float_ptr := f_pointer d_float64 float_zero.
Definition f_int64_ptr := f_pointer (d_int 64 "int64") 0.

(** A slice of pointers: null elements are nil. *)
Definition d_pointers {A} (d : decoder A) (zero : A) : decoder (list (option A)) := d_list (fun v => d_pointer d zero None v).
Definition f_floats (name : string) (raw : json) : result GoError (list (option float64)) := field (d_pointers d_float64 float_zero) [] name raw.

Definition decode_yahoo_error (raw : json) : result GoError YahooError :=
  let? code := f_string "code" raw in
  let? description := f_string "description" raw in
  Ok (mkYahooError code description).
Definition d_yahoo_error : decoder (option YahooError) := fun _ v =>
  match v with JNull => Ok None | v => let? e := decode_yahoo_error v in Ok (Some e) end.

Definition decode_split (raw : json) : result GoError SplitEvent :=
  let? date := f_int64 "date" raw in
  let? numerator := f_float "numerator" raw in
  let? denominator := f_float "denominator" raw in
  let? ratio := f_string "splitRatio" raw in
  Ok (mkSplit date numerator denominator ratio).

Definition decode_window (raw : json) : result GoError TradingPeriodWindow :=
  let? timezone := f_string "timezone" raw in
  let? from := f_int64 "start" raw in
  let? to := f_int64 "end" raw in
  let? offset := f_int64 "gmtoffset" raw in
  Ok (mkWindow timezone from to offset).

Definition decode_period (raw : json) : result GoError TradingPeriod :=
  let? pre := f_struct decode_window "pre" raw in
  let? regular := f_struct decode_window "regular" raw in
  let? post := f_struct decode_window "post" raw in
  Ok (mkPeriod pre regular post).

Definition decode_meta (raw : json) : result GoError ChartMeta :=
  let? currency := f_string "currency" raw in
  let? symbol := f_string "symbol" raw in
  let? exchange := f_string "exchangeName" raw in
  let? full := f_string "fullExchangeName" raw in
  let? instrument := f_string "instrumentType" raw in
  let? first := f_int64 "firstTradeDate" raw in
  let? time := f_int64 "regularMarketTime" raw in
  let? offset := f_int64 "gmtoffset" raw in
  let? timezone := f_string "timezone" raw in
  let? timezoneName := f_string "exchangeTimezoneName" raw in
  let? price := f_float_ptr "regularMarketPrice" raw in
  let? high := f_float_ptr "fiftyTwoWeekHigh" raw in
  let? low := f_float_ptr "fiftyTwoWeekLow" raw in
  let? dayHigh := f_float_ptr "regularMarketDayHigh" raw in
  let? dayLow := f_float_ptr "regularMarketDayLow" raw in
  let? volume := f_int64_ptr "regularMarketVolume" raw in
  let? longName := f_string "longName" raw in
  let? shortName := f_string "shortName" raw in
  let? chartPrevious := f_float_ptr "chartPreviousClose" raw in
  let? previous := f_float_ptr "previousClose" raw in
  let? period := f_struct decode_period "currentTradingPeriod" raw in
  Ok (mkMeta currency symbol exchange full instrument first time offset timezone timezoneName price high low dayHigh dayLow volume
        longName shortName chartPrevious previous period).

Definition decode_quote (raw : json) : result GoError ChartQuote :=
  let? open := f_floats "open" raw in
  let? high := f_floats "high" raw in
  let? low := f_floats "low" raw in
  let? close := f_floats "close" raw in
  let? volume := field (d_pointers (d_int 64 "int64") 0) [] "volume" raw in
  Ok (mkQuote open high low close volume).

Definition decode_indicators (raw : json) : result GoError ChartIndicators :=
  let? quote := f_list decode_quote "quote" raw in
  let? adjClose := f_list (f_floats "adjclose") "adjclose" raw in
  Ok (mkIndicators quote adjClose).

Definition decode_events (raw : json) : result GoError (gmap string SplitEvent) :=
  field (d_map decode_split "map[string]yahoo.SplitEvent") ∅ "splits" raw.

Definition decode_chart_result (raw : json) : result GoError ChartResult :=
  let? meta := f_struct decode_meta "meta" raw in
  let? timestamp := f_list (fun v => d_int 64 "int64" 0 v) "timestamp" raw in
  let? indicators := f_struct decode_indicators "indicators" raw in
  let? splits := f_struct decode_events "events" raw in
  Ok (mkChartResult meta timestamp indicators splits).

Definition decode_payload (raw : json) : result GoError ChartPayload :=
  let? results := f_list decode_chart_result "result" raw in
  let? error := field d_yahoo_error None "error" raw in
  Ok (mkPayload results error).

(** [ChartResponse] is its payload. *)
Definition decode_chart (raw : json) : result GoError ChartPayload := f_struct decode_payload "chart" raw.

Definition decodeJSON {A} (u : json -> result GoError A) (body : string) : result GoError A :=
  match decode_first u body with Err e => Err (Errorf_w "decode response: " e "") | Ok out => Ok out end.

(** ** Charts *)

Fixpoint firstString (values : list string) : string :=
  match values with [] => "" | value :: values => if negb (String.eqb value "") then value else firstString values end.

(** [floatAt] and [intAt]: the value at an index, if it is there and not nil. *)
Definition value_at {A} (values : list (option A)) (idx : Z) : option A :=
  if (idx <? 0) || (Z.of_nat (length values) <=? idx) then None
  else match values !! Z.to_nat idx with Some v => v | None => None end.
Definition floatAt : list (option float64) -> Z -> option float64 := value_at.
Definition intAt : list (option Z) -> Z -> option Z := value_at.

(** [time.Unix(seconds, 0).UTC()] *)
Definition time_Unix (seconds : Z) : Z := seconds * nanosPerSecond.

Definition stockDetailFromChart (symbol : string) (result : ChartResult) : StockDetail :=
  let meta := ch_Meta result in
  mkStockDetail (firstString [m_Symbol meta; symbol]) (m_ShortName meta) (m_LongName meta) (m_Currency meta) (m_RegularMarketPrice meta)
    (if 0 <? m_RegularMarketTime meta then Some (time_Unix (m_RegularMarketTime meta)) else None) (m_RegularMarketVolume meta)
    (match ind_Quote (ch_Indicators result) with [] => None | quote :: _ => floatAt (q_Open quote) 0 end)
    (m_FiftyTwoWeekHigh meta) (m_FiftyTwoWeekLow meta).

(** One turn of the loop: the bar of index [i], if its four prices are there. *)
Definition bar_at (symbol interval : string) (quote : ChartQuote) (adjClose : list (option float64)) (i timestamp : Z) : option PriceBar :=
  match floatAt (q_Open quote) i with
  | None => None
  | Some open =>
      match floatAt (q_High quote) i with
      | None => None
      | Some high =>
          match floatAt (q_Low quote) i with
          | None => None
          | Some low =>
              match floatAt (q_Close quote) i with
              | None => None
              | Some close =>
                  Some (mkPriceBar symbol interval (time_Unix timestamp) open high low close (floatAt adjClose i) (default 0 (intAt (q_Volume quote) i)))
              end
          end
      end
  end.

Fixpoint bars_loop (symbol interval : string) (quote : ChartQuote) (adjClose : list (option float64)) (i : Z) (timestamps : list Z) : list PriceBar :=
  match timestamps with
  | [] => []
  | timestamp :: timestamps =>
      let rest := bars_loop symbol interval quote adjClose (i + 1) timestamps in
      match bar_at symbol interval quote adjClose i timestamp with Some bar => bar :: rest | None => rest end
  end.

Definition priceBarsFromChart (symbol interval : string) (result : ChartResult) : list PriceBar :=
  match ind_Quote (ch_Indicators result) with
  | [] => []
  | quote :: _ =>
      let adjClose := match ind_AdjClose (ch_Indicators result) with [] => [] | a :: _ => a end in
      bars_loop symbol interval quote adjClose 0 (ch_Timestamp result)
  end.

(** ** Queries *)

Definition normalizeSymbol (symbol : string) : result GoError string :=
  let symbol := ToUpper (TrimSpace symbol) in
  if String.eqb symbol "" then Err (errors_New "yahoo symbol is required") else Ok symbol.

Definition normalizeInterval (interval : string) : string :=
  let interval := TrimSpace interval in if String.eqb interval "" then defaultInterval else interval.

(** [FormatInt(t.Unix(), 10)] *)
Definition unix_text (t : Z) : string := pretty (t / nanosPerSecond).

Definition chartQueryValues (req : ChartRequest) : Values :=
  let values :=
    if negb (String.eqb (cr_Range req) "") then values_Set "range" (TrimSpace (cr_Range req)) ∅
    else if negb (IsZero (cr_Start req)) || negb (IsZero (cr_End req)) then
      let values := if IsZero (cr_Start req) then ∅ else values_Set "period1" (unix_text (cr_Start req)) ∅ in
      if IsZero (cr_End req) then values else values_Set "period2" (unix_text (cr_End req)) values
    else values_Set "range" defaultRange ∅ in
  let values := values_Set "interval" (normalizeInterval (cr_Interval req)) values in
  let values := if cr_IncludePrePost req then values_Set "includePrePost" "true" values else values in
  let events := TrimSpace (cr_Events req) in
  if String.eqb events "" then values else values_Set "events" events values.

(** ** Requests *)

Record client := mkClient { baseURL : string; cookieURL : string; userAgent : string; timeout : option Z; maxRetries : option Z; retryDelay : option Z }.
Definition Option : Type := client -> client.
Definition WithBaseURL (url : string) : Option := fun c =>
  let url := trim_right (Ascii.eqb "/"%char) (TrimSpace url) in
  if String.eqb url "" then c else mkClient url (cookieURL c) (userAgent c) (timeout c) (maxRetries c) (retryDelay c).
Definition WithCookieURL (endpoint : string) : Option := fun c =>
  mkClient (baseURL c) (TrimSpace endpoint) (userAgent c) (timeout c) (maxRetries c) (retryDelay c).
Definition WithUserAgent (agent : string) : Option := fun c =>
  let agent := TrimSpace agent in
  if String.eqb agent "" then c else mkClient (baseURL c) (cookieURL c) agent (timeout c) (maxRetries c) (retryDelay c).
Definition WithTimeout (d : Z) : Option := fun c => mkClient (baseURL c) (cookieURL c) (userAgent c) (Some d) (maxRetries c) (retryDelay c).
Definition WithRetry (retries delay : Z) : Option := fun c =>
  mkClient (baseURL c) (cookieURL c) (userAgent c) (timeout c) (Some retries) (Some delay).
Definition apply_options (opts : list (option Option)) : client :=
  foldl (fun c o => match o with Some o => o c | None => c end) (mkClient defaultBaseURL defaultCookieURL defaultUserAgent None None None) opts.

(** The client and the transport the builder makes for it. *)
Definition New (opts : list (option Option)) : client * (Transport * Z) :=
  let c := apply_options opts in
  (c, BuildClient (SetRetry (default 0 (maxRetries c)) (default HttpClient.Second (retryDelay c)) (SetTimeout (default (30 * HttpClient.Second) (timeout c)) NewClientBuilder))).

Definition endpoint (c : client) (path : string) (values : Values) : string :=
  baseURL c +:+ path +:+ (if bool_decide (values = ∅) then "" else "?" +:+ Encode values).

(** The headers of a request to a URL path. *)
Definition get_headers (c : client) (path : string) : Header :=
  let h := header_Set "User-Agent" (userAgent c) (header_Set "Accept" "application/json" ∅) in
  if String.eqb path crumbPath then
    let h := header_Set "Accept" "text/plain" h in
    if String.eqb (userAgent c) defaultUserAgent then header_Set "User-Agent" defaultCrumbAgent h else h
  else h.

(** What a request meets: the error of building it, or what the exchange gives. *)
Record reply := mkReply { r_NewRequest : option GoError; r_Do : result TransportError HttpResponse }.

Definition doGET (a : reply) : result ClientError HttpResponse :=
  match r_NewRequest a with
  | Some _ => Err (plain (errors_New "build Yahoo request failed"))
  | None => match r_Do a with Err e => Err (safeRequestError e) | Ok resp => Ok resp end
  end.

Definition getBody (a : reply) : result ClientError string :=
  match doGET a with
  | Err e => Err e
  | Ok resp =>
      if negb (success (hr_Status resp)) then Err (http_error (mkHTTPError (hr_Status resp) ""))
      else match ReadAll maxResponseBody resp with Err e => Err (plain (Errorf_w "read response: " e "")) | Ok body => Ok body end
  end.

(** A request by its URL; the environment answers it. *)
Section operations.
Variable c : client.
Variable get : string -> reply.

Definition chart_url (symbol : string) (req : ChartRequest) : string := endpoint c (chartPath (PathEscape symbol)) (chartQueryValues req).

Definition GetChart (req : ChartRequest) : result ClientError ChartPayload :=
  match normalizeSymbol (cr_Symbol req) with
  | Err e => Err (plain e)
  | Ok symbol =>
      let prefix := "yahoo chart " +:+ symbol +:+ ": " in
      match getBody (get (chart_url symbol req)) with
      | Err e => Err (wrap_client prefix e)
      | Ok body =>
          match decodeJSON decode_chart body with
          | Err e => Err (wrap_client prefix (plain e))
          | Ok out => match cp_Error out with Some e => Err (api_error (mkAPIError "chart" e)) | None => Ok out end
          end
      end
  end.

Definition GetStockDetail (symbol : string) : result ClientError StockDetail :=
  match normalizeSymbol symbol with
  | Err e => Err (plain e)
  | Ok normalizedSymbol =>
      match GetChart (mkChartRequest normalizedSymbol "1d" "1d" zeroTime zeroTime false "") with
      | Err e => Err (wrap_client ("yahoo stock detail " +:+ normalizedSymbol +:+ ": ") e)
      | Ok chart =>
          match cp_Result chart with
          | [] => Err (plain (errors_New ("yahoo stock detail " +:+ normalizedSymbol +:+ ": empty chart result")))
          | result :: _ => Ok (stockDetailFromChart normalizedSymbol result)
          end
      end
  end.

Definition GetPriceHistory (req : PriceHistoryRequest) : result ClientError (list PriceBar) :=
  match normalizeSymbol (pr_Symbol req) with
  | Err e => Err (plain e)
  | Ok symbol =>
      let interval := normalizeInterval (pr_Granularity req) in
      match GetChart (mkChartRequest symbol (pr_Range req) interval (pr_Start req) (pr_End req) (pr_IncludePrePost req) (pr_Events req)) with
      | Err e => Err e
      | Ok chart => match cp_Result chart with [] => Ok [] | result :: _ => Ok (priceBarsFromChart symbol interval result) end
      end
  end.
End operations.

(** ** The bars of a chart *)

(** The prices of an index, all four or none. *)
Definition prices_at (quote : ChartQuote) (i : nat) : option (float64 * float64 * float64 * float64) :=
  open ← mjoin (q_Open quote !! i); high ← mjoin (q_High quote !! i); low ← mjoin (q_Low quote !! i); close ← mjoin (q_Close quote !! i);
  Some (open, high, low, close).

Lemma value_at_lookup {A} (values : list (option A)) (i : nat) : value_at values (Z.of_nat i) = mjoin (values !! i).
Proof.
  unfold value_at. destruct (Z.ltb_spec (Z.of_nat i) 0); [lia|]. cbn [orb]. rewrite Nat2Z.id.
  destruct (Z.leb_spec (Z.of_nat (length values)) (Z.of_nat i)).
  - by rewrite lookup_ge_None_2 by lia.
  - by destruct (values !! i) as [[v|]|].
Qed.

(** A bar for each timestamp whose four prices are there, and no other. *)
Definition expected_bar (symbol interval : string) (quote : ChartQuote) (adjClose : list (option float64)) (it : nat * Z) : option PriceBar :=
  '(open, high, low, close) ← prices_at quote it.1;
  Some (mkPriceBar symbol interval (time_Unix it.2) open high low close (mjoin (adjClose !! it.1)) (default 0 (mjoin (q_Volume quote !! it.1)))).

Lemma bar_at_expected symbol interval quote adjClose i t :
  bar_at symbol interval quote adjClose (Z.of_nat i) t = expected_bar symbol interval quote adjClose (i, t).
Proof.
  unfold bar_at, expected_bar, prices_at, floatAt, intAt. cbn [fst snd]. rewrite !value_at_lookup.
  destruct (mjoin (q_Open quote !! i)); [|done]. destruct (mjoin (q_High quote !! i)); [|done]. destruct (mjoin (q_Low quote !! i)); [|done].
  by destruct (mjoin (q_Close quote !! i)).
Qed.

Lemma bars_loop_expected symbol interval quote adjClose i timestamps :
  bars_loop symbol interval quote adjClose (Z.of_nat i) timestamps =
  omap (expected_bar symbol interval quote adjClose) (zip (seq i (length timestamps)) timestamps).
Proof.
  revert i. induction timestamps as [|t l IH]; intros i; [done|]. cbn [bars_loop length seq zip zip_with omap list_omap].
  rewrite bar_at_expected. replace (Z.of_nat i + 1) with (Z.of_nat (S i)) by lia. rewrite IH.
  by destruct (expected_bar symbol interval quote adjClose (i, t)).
Qed.

(** The bars of a chart are, in order, those of the timestamps whose four prices are present, each with its own prices,
    volume and adjusted close; missing arrays and short ones leave bars out and never shift the others. *)
Theorem priceBarsFromChart_spec symbol interval result :
  priceBarsFromChart symbol interval result =
  match ind_Quote (ch_Indicators result) with
  | [] => []
  | quote :: _ => omap (expected_bar symbol interval quote (default [] (head (ind_AdjClose (ch_Indicators result)))))
                    (zip (seq 0 (length (ch_Timestamp result))) (ch_Timestamp result))
  end.
Proof.
  unfold priceBarsFromChart. destruct (ind_Quote (ch_Indicators result)) as [|quote l]; [done|].
  change 0 with (Z.of_nat 0). rewrite bars_loop_expected. by destruct (ind_AdjClose (ch_Indicators result)).
Qed.
End yahoo.
