(* ===== verification/YahooSession.v ===== *)
(** * Share statistics and their session (providers/yahoo/share_statistics.go)

    Every call of [GetShareStatistics] is a goroutine of a step relation over
    what [sessionMu] guards: the session, and the attempt under way that the
    calls needing a new one wait for.  A critical section is one step, and so is
    a request; what the network, the cookie jar and the contexts do is what a
    step is told. *)
From Stdlib Require Import Ascii SpecFloat.
From S2P Require Export Yahoo.
Local Open Scope Z_scope.
Local Open Scope go_scope.

(** [generation] is a [uint64]. *)
Record shareSession := mkSession { crumb : string; generation : Z }.
Definition noSession : shareSession := mkSession "" 0.

Section share.
Context `{U : UnicodeTables} `{JE : JsonErrors} `{JS : JsonStream}.

(** ** Decoding *)

Record wireResult := mkWire {
  w_Symbol : string; w_Currency : string; w_QuoteType : string; w_Exchange : string; w_ExchangeName : string;
  w_FloatShares : option float64; w_SharesOutstanding : option float64 }.

Definition decode_wire (raw : json) : result GoError wireResult :=
  let? price := f_struct (fun v =>
    let? symbol := f_string "Symbol" v in
    let? currency := f_string "Currency" v in
    let? quoteType := f_string "QuoteType" v in
    let? exchange := f_string "Exchange" v in
    let? exchangeName := f_string "ExchangeName" v in
    Ok (mkWire symbol currency quoteType exchange exchangeName None None)) "Price" raw in
  let? shares := f_struct (fun v =>
    let? floating := f_float_ptr "FloatShares" v in
    let? outstanding := f_float_ptr "SharesOutstanding" v in
    Ok (floating, outstanding)) "DefaultKeyStatistics" raw in
  Ok (mkWire (w_Symbol price) (w_Currency price) (w_QuoteType price) (w_Exchange price) (w_ExchangeName price) shares.1 shares.2).

(** The results, and whether there is an error. *)
Definition decode_summary (raw : json) : result GoError (list wireResult * option YahooError) :=
  f_struct (fun v =>
    let? results := f_list decode_wire "Result" v in
    let? error := field d_yahoo_error None "Error" v in
    Ok (results, error)) "QuoteSummary" raw.

Definition upper_text (s : string) : string := ToUpper (TrimSpace s).

Definition decodeShareStatistics (body : string) : result GoError ShareStatistics :=
  match decodeJSON decode_summary body with
  | Err _ => Err (errors_New "decode Yahoo share statistics failed")
  | Ok (results, error) =>
      match error, results with
      | None, [result] =>
          Ok (mkShareStatistics (upper_text (w_Symbol result)) (upper_text (w_Currency result)) (upper_text (w_QuoteType result))
                (firstString [w_Exchange result; w_ExchangeName result]) (w_FloatShares result) (w_SharesOutstanding result))
      | _, _ => Err (errors_New "Yahoo share statistics unavailable")
      end
  end.

(** ** A new session *)

(** Longer than 1024 bytes, or holding a byte no crumb has. *)
Definition crumb_char (c : Ascii.ascii) : bool :=
  negb (existsb (Ascii.eqb c) [" "; "009"; "013"; "010"; "<"; ">"; "{"; "}"; "034"]%char).
Definition valid_crumb (crumb : string) : bool := negb (String.eqb crumb "" || (1024 <? slen crumb)%nat || negb (sforall crumb_char crumb)).

(** What bootstrapping meets: the cookie endpoint's answer, whether the jar then
    holds a cookie for the base URL, and the crumb endpoint's answer. *)
Record bootstrap := mkBootstrap { bs_cookie : reply; bs_cookies : bool; bs_crumb : reply }.

(** The cookie endpoint's answer, when it stops the bootstrap. *)
Definition cookie_error (a : reply) : option ClientError :=
  match doGET a with
  | Err err => match ce_http err with Some h => if he_StatusCode h =? 404 then None else Some err | None => Some err end
  | Ok resp =>
      if negb (hr_Status resp =? 404) && negb (success (hr_Status resp)) then Some (http_error (mkHTTPError (hr_Status resp) "")) else None
  end.

Definition fetchShareSession (b : bootstrap) : result ClientError string :=
  match cookie_error (bs_cookie b) with
  | Some err => Err err
  | None =>
      if negb (bs_cookies b) then Err (plain (errors_New "Yahoo session cookie unavailable"))
      else
        match getBody (bs_crumb b) with
        | Err err => Err (wrap_client "fetch Yahoo crumb: " err)
        | Ok body =>
            let crumb := TrimSpace body in
            if negb (valid_crumb crumb) then Err (plain (errors_New "invalid Yahoo session response")) else Ok crumb
        end
  end.

(** ** Calls *)

(** The session asked for: the first one, or another than the one rejected. *)
Inductive stage := First | Refresh (rejected : Z).
Definition rejected_of (st : stage) : Z := match st with First => 0 | Refresh g => g end.

Inductive point :=
| PCheck (symbol : string) (st : stage)                                  (* ctx.Err() *)
| PEnter (symbol : string) (st : stage)                                  (* the first critical section *)
| PWait (symbol : string) (st : stage) (id : nat)                        (* the select *)
| PFetch (symbol : string) (st : stage) (id : nat)                       (* fetchShareSession *)
| PPublish (symbol : string) (st : stage) (id : nat) (r : result ClientError string)
| PGet (symbol : string) (st : stage) (session : shareSession)           (* the request *)
| PDone (r : result ClientError ShareStatistics).

(** What [sessionMu] guards, with the attempts ever made: the outcome of one
    whose channel is closed.  An attempt is the index it was made at. *)
Record shared := mkShared {
  session : shareSession; sessionPending : option nat; attempts : list (option (shareSession * option ClientError)) }.
Definition noShared : shared := mkShared noSession None [].

(** What a step is told: the context's error, whether the select takes its case,
    what a bootstrap meets, and the answer to the request. *)
Record answer := mkAnswer { a_Err : option GoError; a_Done : option GoError; a_bootstrap : bootstrap; a_get : string -> reply }.

Definition statistics_url (c : client) (symbol : string) (crumb : string) : string :=
  endpoint c ("/v10/finance/quoteSummary/" +:+ PathEscape symbol)
    (values_Set "crumb" crumb (values_Set "formatted" "false" (values_Set "modules" "price,defaultKeyStatistics" ∅))).

(** [getShareSession] failed. *)
Definition session_failed (st : stage) (err : ClientError) : point :=
  PDone (Err (wrap_client (match st with First => "yahoo share statistics session: " | Refresh _ => "refresh Yahoo share statistics session: " end) err)).

(** [getShareSession] returned. *)
Definition got_session (symbol : string) (st : stage) (out : shareSession * option ClientError) : point :=
  match out with (s, None) => PGet symbol st s | (_, Some err) => session_failed st err end.

Definition unauthorized (err : ClientError) : bool := match ce_http err with Some h => he_StatusCode h =? 401 | None => false end.

(** [GetShareStatistics] before its session. *)
Definition GetShareStatistics (symbol : string) : point :=
  match normalizeSymbol symbol with Err e => PDone (Err (plain e)) | Ok symbol => PCheck symbol First end.

(** After the request: the loop's two turns. *)
Definition after_request (symbol : string) (st : stage) (s : shareSession) (body : result ClientError string) : point :=
  match body with
  | Ok body => PDone (match decodeShareStatistics body with Ok out => Ok out | Err e => Err (plain e) end)
  | Err err =>
      match st with
      | First => if unauthorized err then PCheck symbol (Refresh (generation s)) else PDone (Err (wrap_client "yahoo share statistics: " err))
      | Refresh _ => PDone (Err (wrap_client "yahoo share statistics: " err))
      end
  end.

(** One step of a call; [None] is blocked. *)
Definition step (c : client) (a : answer) (s : shared) (p : point) : option (shared * point) :=
  match p with
  | PCheck symbol st => Some (s, match a_Err a with Some err => session_failed st (plain err) | None => PEnter symbol st end)
  | PEnter symbol st =>
      if negb (String.eqb (crumb (session s)) "") && negb (generation (session s) =? rejected_of st) then
        Some (s, got_session symbol st (session s, None))
      else
        match sessionPending s with
        | Some id => Some (s, PWait symbol st id)
        | None =>
            let id := length (attempts s) in
            Some (mkShared (mkSession "" (generation (session s))) (Some id) (attempts s ++ [None]), PFetch symbol st id)
        end
  | PWait symbol st id =>
      match a_Done a with
      | Some err => Some (s, session_failed st (plain err))
      | None => match attempts s !! id with Some (Some out) => Some (s, got_session symbol st out) | _ => None end
      end
  | PFetch symbol st id => Some (s, PPublish symbol st id (fetchShareSession (a_bootstrap a)))
  | PPublish symbol st id r =>
      let new := match r with Ok crumb => mkSession crumb (wrap_u64 (generation (session s) + 1)) | Err _ => session s end in
      let out := (new, match r with Ok _ => None | Err err => Some err end) in
      Some (mkShared new None (<[id := Some out]> (attempts s)), got_session symbol st out)
  | PGet symbol st s' => Some (s, after_request symbol st s' (getBody (a_get a (statistics_url c symbol (crumb s')))))
  | PDone _ => None
  end.

(** The client with the calls under way. *)
Record system := mkSystem { sys_shared : shared; calls : list point }.

Inductive sys_step (c : client) : system -> system -> Prop :=
| Call y symbol : sys_step c y (mkSystem (sys_shared y) (calls y ++ [GetShareStatistics symbol]))
| Move y i p a s p' : calls y !! i = Some p -> step c a (sys_shared y) p = Some (s, p') -> sys_step c y (mkSystem s (<[i := p']> (calls y))).

Inductive reachable (c : client) : system -> Prop :=
| R_start : reachable c (mkSystem noShared [])
| R_step y y' : reachable c y -> sys_step c y y' -> reachable c y'.
End share.
