(* ===== verification/YahooSafety.v ===== *)
(** * The share session is safe and every call returns

    Whatever the network, the contexts and the scheduling do: one bootstrap at a
    time, no request without a session newer than the one rejected, and no call
    stuck. *)
From S2P Require Export YahooSession.
Local Open Scope Z_scope.
Local Open Scope go_scope.

Section safety.
Context `{U : UnicodeTables} `{JE : JsonErrors} `{JS : JsonStream}.
Context (c : client).

Fixpoint done_count (l : list (option (shareSession * option ClientError))) : nat :=
  match l with [] => 0 | Some _ :: l => S (done_count l) | None :: l => done_count l end.

(** The attempt a call makes itself. *)
Definition leads (p : point) : option nat := match p with PFetch _ _ id | PPublish _ _ id _ => Some id | _ => None end.

(** A session that may be used after [g] was rejected. *)
Definition usable (s : shared) (g : Z) (x : shareSession) : Prop := valid_crumb (crumb x) = true /\ g < generation x <= generation (session s).

(** What holds of each call. *)
Definition call_ok (s : shared) (p : point) : Prop :=
  match p with
  | PCheck _ st | PEnter _ st => 0 <= rejected_of st <= generation (session s)
  | PWait _ st id => 0 <= rejected_of st <= generation (session s) /\
      match attempts s !! id with
      | None => False
      | Some None => True
      | Some (Some (x, None)) => usable s (rejected_of st) x
      | Some (Some (_, Some _)) => True
      end
  | PFetch _ st id => 0 <= rejected_of st <= generation (session s) /\ sessionPending s = Some id
  | PPublish _ st id r => 0 <= rejected_of st <= generation (session s) /\ sessionPending s = Some id /\
      match r with Ok crumb => valid_crumb crumb = true | Err _ => True end
  | PGet _ st x => 0 <= rejected_of st /\ usable s (rejected_of st) x
  | PDone _ => True
  end.

Record inv (y : system) : Prop := {
  I_session : 0 <= generation (session (sys_shared y)) <= Z.of_nat (done_count (attempts (sys_shared y)));
  I_crumb : crumb (session (sys_shared y)) <> "" -> valid_crumb (crumb (session (sys_shared y))) = true /\ 0 < generation (session (sys_shared y));
  I_open id : attempts (sys_shared y) !! id = Some None <-> sessionPending (sys_shared y) = Some id;
  I_leader id : sessionPending (sys_shared y) = Some id -> exists i p, calls y !! i = Some p /\ leads p = Some id;
  I_unique i j p q a b : calls y !! i = Some p -> calls y !! j = Some q -> leads p = Some a -> leads q = Some b -> i = j;
  I_calls i p : calls y !! i = Some p -> call_ok (sys_shared y) p;
}.

(** ** Monotony *)

(** The session only gets newer, and attempts are settled once. *)
Definition newer (s s' : shared) : Prop :=
  generation (session s) <= generation (session s') /\
  forall id, match attempts s !! id with
             | Some None => match attempts s' !! id with
                            | Some (Some (x, None)) => valid_crumb (crumb x) = true /\ generation (session s) < generation x <= generation (session s')
                            | Some _ => True
                            | None => False
                            end
             | Some (Some o) => attempts s' !! id = Some (Some o)
             | None => True
             end.

Lemma newer_refl s : newer s s.
Proof. split; [lia|]. intros id. by destruct (attempts s !! id) as [[]|] eqn:E. Qed.

(** A call that leads nothing keeps its invariant. *)
Lemma call_ok_newer s s' p : newer s s' -> leads p = None -> call_ok s p -> call_ok s' p.
Proof.
  intros [Hg Ha] Hl. destruct p as [? st|? st|? st id| | |? st x|]; try done; cbn [call_ok]; try lia.
  - intros [Hr Hw]. split; [lia|]. specialize (Ha id). destruct (attempts s !! id) as [[[x [e|]]|]|]; [by rewrite Ha|rewrite Ha|..|done].
    + destruct Hw as [? ?]. split; [done|lia].
    + destruct (attempts s' !! id) as [[[x [e|]]|]|]; try done. destruct Ha as [? ?]. split; [done|lia].
  - intros [? [? ?]]. split; [done|]. split; [done|lia].
Qed.

Lemma done_count_open l : done_count (l ++ [None]) = done_count l.
Proof. induction l as [|[x|] l IH]; [done|..]; cbn [app done_count]; by rewrite IH. Qed.

Lemma done_count_settle l id o : l !! id = Some None -> done_count (<[id := Some o]> l) = S (done_count l).
Proof.
  revert id. induction l as [|x l IH]; intros [|id] H; try done; [by injection H as ->|]. cbn in H. specialize (IH id H).
  change (<[S id := Some o]> (x :: l)) with (x :: <[id := Some o]> l). destruct x; cbn [done_count]; by rewrite IH.
Qed.

Lemma done_count_bound l id : l !! id = Some None -> (done_count l < length l)%nat.
Proof.
  assert (Hle : forall l, (done_count l <= length l)%nat) by (intros m; induction m as [|[] m IH]; cbn [done_count length]; lia).
  revert id. induction l as [|x l IH]; intros [|id] H; try done; cbn in H.
  - injection H as ->. cbn [done_count length]. specialize (Hle l). lia.
  - specialize (IH id H). destruct x; cbn [done_count length]; lia.
Qed.

(** ** The invariant *)

Lemma start_inv : inv (mkSystem noShared []).
Proof. by split; cbn; [lia|done|intros id; by rewrite lookup_nil|..]. Qed.

(** A call moves and the shared state stays. *)
Lemma inv_same y i p p' : inv y -> calls y !! i = Some p -> leads p' = leads p -> call_ok (sys_shared y) p' ->
  inv (mkSystem (sys_shared y) (<[i := p']> (calls y))).
Proof.
  intros I Hi Hl Hok. split; cbn [sys_shared calls]; try apply I.
  - intros id Hp. destruct (I_leader y I id Hp) as (j & q & Hj & Hq). destruct (decide (i = j)) as [<-|Hne].
    + exists i, p'. rewrite list_lookup_insert_eq by (by eapply lookup_lt_Some). split; [done|]. congruence.
    + exists j, q. by rewrite list_lookup_insert_ne.
  - intros j k q r a b Hj Hk Ha Hb. apply list_lookup_insert_Some in Hj as [(<- & <- & _)|[Hne Hj]], Hk as [(<- & <- & _)|[Hne' Hk]]; [done|..].
    + rewrite Hl in Ha. by eapply (I_unique y I).
    + rewrite Hl in Hb. by eapply (I_unique y I).
    + by eapply (I_unique y I).
  - intros j q Hj. apply list_lookup_insert_Some in Hj as [(<- & <- & _)|[Hne Hj]]; [done|by eapply I_calls].
Qed.

(** A call takes the lead. *)
Lemma inv_lead y i symbol st : inv y -> calls y !! i = Some (PEnter symbol st) -> sessionPending (sys_shared y) = None ->
  let s := sys_shared y in let id := length (attempts s) in
  inv (mkSystem (mkShared (mkSession "" (generation (session s))) (Some id) (attempts s ++ [None])) (<[i := PFetch symbol st id]> (calls y))).
Proof.
  intros I Hi Hp. cbv zeta. set (s := sys_shared y) in *. set (id := length (attempts s)).
  pose proof (I_calls y I i _ Hi) as Hok. cbn [call_ok] in Hok. fold s in Hok.
  assert (Hnone : forall j q, calls y !! j = Some q -> leads q = None).
  { intros j q Hj. destruct (leads q) as [a|] eqn:E; [|done]. exfalso. pose proof (I_calls y I j q Hj) as Hq. fold s in Hq.
    destruct q; try done; injection E as ->; cbn [call_ok] in Hq; destruct Hq as [_ Hq]; [|destruct Hq as [Hq _]]; congruence. }
  assert (Hnew : newer s (mkShared (mkSession "" (generation (session s))) (Some id) (attempts s ++ [None]))).
  { split; [cbn; lia|]. intros k. cbn [attempts session generation]. destruct (attempts s !! k) as [o|] eqn:Ek; [|done].
    rewrite lookup_app_l by (by eapply lookup_lt_Some). rewrite Ek. by destruct o. }
  split; cbn [sys_shared calls session attempts sessionPending crumb generation].
  - rewrite done_count_open. apply (I_session y I).
  - done.
  - intros k. rewrite lookup_snoc_Some. split.
    + intros [[_ Hk]|[-> _]]; [|done]. apply (I_open y I) in Hk. fold s in Hk. congruence.
    + intros [= <-]. right. done.
  - intros k [= <-]. exists i, (PFetch symbol st id). rewrite list_lookup_insert_eq by (by eapply lookup_lt_Some). done.
  - intros j k q r a b Hj Hk Ha Hb. apply list_lookup_insert_Some in Hj as [(<- & <- & _)|[Hne Hj]]; [|by rewrite (Hnone j q) in Ha].
    apply list_lookup_insert_Some in Hk as [(<- & <- & _)|[Hne Hk]]; [done|by rewrite (Hnone k r) in Hb].
  - intros j q Hj. apply list_lookup_insert_Some in Hj as [(<- & <- & _)|[Hne Hj]]; [done|].
    eapply call_ok_newer; [exact Hnew|by eapply Hnone|]. by eapply (I_calls y I).
Qed.

(** A call publishes what its bootstrap gave. *)
Definition published (s : shared) (id : nat) (r : result ClientError string) : shared * (shareSession * option ClientError) :=
  let new := match r with Ok crumb => mkSession crumb (wrap_u64 (generation (session s) + 1)) | Err _ => session s end in
  let out := (new, match r with Ok _ => None | Err err => Some err end) in
  (mkShared new None (<[id := Some out]> (attempts s)), out).

Lemma inv_publish y i symbol st id r : inv y -> calls y !! i = Some (PPublish symbol st id r) ->
  Z.of_nat (length (attempts (sys_shared y))) < 2 ^ 64 ->
  let '(s', out) := published (sys_shared y) id r in
  inv (mkSystem s' (<[i := got_session symbol st out]> (calls y))).
Proof.
  intros I Hi Hb. pose proof (I_calls y I i _ Hi) as (Hr & Hp & Hc). pose proof (proj2 (I_open y I id) Hp) as Hopen.
  pose proof (I_session y I) as Hgen. pose proof (done_count_bound _ _ Hopen) as Hdone. cbn [published]. unfold published.
  set (s := sys_shared y) in *. set (new := match r with Ok crumb => _ | Err _ => session s end).
  set (out := (new, match r with Ok _ => None | Err err => Some err end)).
  assert (Hnew : match r with Ok crumb => new = mkSession crumb (generation (session s) + 1) | Err _ => new = session s end).
  { unfold new. destruct r; [|done]. rewrite wrap_u64_small by (unfold is_u64, u64_modulus; lia). done. }
  assert (Hle : generation (session s) <= generation new <= generation (session s) + 1).
  { destruct r; rewrite Hnew; cbn [generation]; lia. }
  assert (Hlead : forall j q a, calls y !! j = Some q -> leads q = Some a -> j = i).
  { intros j q a Hj Ha. eapply (I_unique y I); [exact Hj|exact Hi|exact Ha|done]. }
  assert (Hmono : newer s (mkShared new None (<[id := Some out]> (attempts s)))).
  { split; [cbn; lia|]. intros k. cbn [attempts session]. destruct (decide (k = id)) as [->|Hne].
    - rewrite Hopen, list_lookup_insert_eq by (by eapply lookup_lt_Some). unfold out. destruct r; [|done]. rewrite Hnew in *. cbn. split; [done|lia].
    - rewrite list_lookup_insert_ne by done. destruct (attempts s !! k) as [[o|]|] eqn:Ek; done. }
  assert (Hgot : leads (got_session symbol st out) = None) by (unfold out; by destruct r).
  split; cbn [sys_shared calls session attempts sessionPending].
  - rewrite done_count_settle by done. lia.
  - intros Hne. destruct r as [x|]; rewrite Hnew in *; cbn [crumb generation] in *; [split; [done|lia]|by apply (I_crumb y I)].
  - intros k. split; [|done]. intros Hk. apply list_lookup_insert_Some in Hk as [(_ & ? & _)|[Hne Hk]]; [done|]. apply (I_open y I) in Hk. fold s in Hk. congruence.
  - done.
  - intros j k q q' a b Hj Hk Ha Hb'. apply list_lookup_insert_Some in Hj as [(<- & <- & _)|[Hne Hj]]; [congruence|]. by destruct (Hlead _ _ _ Hj Ha).
  - intros j q Hj. apply list_lookup_insert_Some in Hj as [(<- & <- & _)|[Hne Hj]].
    + unfold out, got_session. destruct r as [x|e]; [|done]. cbn [call_ok]. rewrite Hnew in *. split; [lia|]. unfold usable. cbn. split; [done|lia].
    + eapply call_ok_newer; [exact Hmono| |by eapply (I_calls y I)]. destruct (leads q) as [a|] eqn:E; [|done]. by destruct (Hlead _ _ _ Hj E).
Qed.

(** What a bootstrap gives is a crumb. *)
Lemma fetchShareSession_valid b x : fetchShareSession b = Ok x -> valid_crumb x = true.
Proof.
  unfold fetchShareSession. destruct (cookie_error _); [done|]. destruct (negb (bs_cookies b)); [done|].
  destruct (getBody (bs_crumb b)) as [body|]; [|done]. cbv zeta. destruct (valid_crumb (TrimSpace body)) eqn:E; [|done]. by intros [= <-].
Qed.

Lemma got_session_ok s symbol st x err : (err = None -> 0 <= rejected_of st /\ usable s (rejected_of st) x) -> call_ok s (got_session symbol st (x, err)).
Proof. intros H. destruct err; [done|]. by apply H. Qed.

Lemma move_inv y i p a s' p' : inv y -> Z.of_nat (length (attempts (sys_shared y))) < 2 ^ 64 -> calls y !! i = Some p ->
  step c a (sys_shared y) p = Some (s', p') -> inv (mkSystem s' (<[i := p']> (calls y))).
Proof.
  intros I Hb Hi Hs. pose proof (I_calls y I i p Hi) as Hok. destruct p as [symbol st|symbol st|symbol st id|symbol st id|symbol st id r|symbol st x|]; cbn [step] in Hs; [| | | | | |done].
  - injection Hs as <- <-. apply (inv_same y i (PCheck symbol st)); [done|done|by destruct (a_Err a)|by destruct (a_Err a)].
  - destruct (negb (String.eqb (crumb (session (sys_shared y))) "") && negb (generation (session (sys_shared y)) =? rejected_of st)) eqn:E.
    + injection Hs as <- <-. apply (inv_same y i (PEnter symbol st)); [done..|].
      cbn [call_ok] in Hok. split; [lia|].
      destruct (String.eqb_spec (crumb (session (sys_shared y))) "") as [|Hne]; [done|]. destruct (I_crumb y I Hne) as [Hv _]. split; [done|]. lia.
    + destruct (sessionPending (sys_shared y)) as [id|] eqn:Ep; injection Hs as <- <-.
      * apply (inv_same y i (PEnter symbol st)); [done..|]. split; [exact Hok|]. apply (I_open y I) in Ep. by rewrite Ep.
      * by apply inv_lead.
  - destruct (a_Done a); [injection Hs as <- <-; by apply (inv_same y i (PWait symbol st id))|]. destruct Hok as [Hr Hw].
    destruct (attempts (sys_shared y) !! id) as [[[x err]|]|] eqn:Ea; try done. injection Hs as <- <-.
    apply (inv_same y i (PWait symbol st id)); [done|done|by destruct err|]. apply got_session_ok. intros ->. split; [lia|done].
  - injection Hs as <- <-. apply (inv_same y i (PFetch symbol st id)); [done..|]. destruct Hok as [Hr Hp]. split; [done|]. split; [done|].
    destruct (fetchShareSession (a_bootstrap a)) eqn:E; [|done]. by eapply fetchShareSession_valid.
  - injection Hs as <- <-. exact (inv_publish y i symbol st id r I Hi Hb).
  - injection Hs as <- <-. destruct Hok as [Hr [Hv Hg]]. apply (inv_same y i (PGet symbol st x)); [done|done|..]; unfold after_request;
      destruct (getBody _) as [body|err]; try done; destruct st; try done; destruct (unauthorized err); try done. cbn. lia.
Qed.

(** As long as fewer than 2^64 sessions were ever attempted. *)
Lemma reachable_inv y : reachable c y -> Z.of_nat (length (attempts (sys_shared y))) < 2 ^ 64 -> inv y.
Proof.
  induction 1 as [|y y' _ IH Hstep]; [intros _; apply start_inv|]. intros Hb. assert (Hmono : (length (attempts (sys_shared y)) <= length (attempts (sys_shared y')))%nat).
  { destruct Hstep as [y symbol|y i p a s p' Hi Hs]; [done|]. cbn [sys_shared]. destruct p; cbn [step] in Hs; repeat case_match; simplify_eq/=;
      rewrite ?length_app, ?length_insert; cbn; lia. }
  assert (I : inv y) by (apply IH; lia). clear IH. destruct Hstep as [y symbol|y i p a s p' Hi Hs].
  - assert (Hp : call_ok (sys_shared y) (GetShareStatistics symbol) /\ leads (GetShareStatistics symbol) = None).
    { unfold GetShareStatistics. destruct (normalizeSymbol symbol); [|done]. pose proof (I_session y I). split; [cbn; lia|done]. }
    destruct Hp as [Hp Hl]. split; cbn [sys_shared calls]; try apply I.
    + intros id Hid. destruct (I_leader y I id Hid) as (j & q & Hj & Hq). exists j, q. split; [|done]. by apply lookup_app_l_Some.
    + intros j k q r a b [Hj|[_ Hj]]%lookup_app_Some [Hk|[_ Hk]]%lookup_app_Some Ha Hb'; [by eapply (I_unique y I)|..];
        try (apply list_lookup_singleton_Some in Hk as [_ <-]; congruence); apply list_lookup_singleton_Some in Hj as [_ <-]; congruence.
    + intros j q [Hj|[_ [_ <-]%list_lookup_singleton_Some]]%lookup_app_Some; [by eapply (I_calls y I)|done].
  - eapply move_inv; [done| |done|done]. lia.
Qed.

(** C10: Whatever the calls, the network and the scheduling do: at most one bootstrap is under way, and it is the attempt the others
    wait for; every request for statistics carries a well-formed crumb of a session that exists and is newer than the one the
    call saw rejected; and a cached crumb is well formed. *)
Theorem share_session_safe y : reachable c y -> Z.of_nat (length (attempts (sys_shared y))) < 2 ^ 64 ->
  (forall i j p q a b, calls y !! i = Some p -> calls y !! j = Some q -> leads p = Some a -> leads q = Some b -> i = j /\ sessionPending (sys_shared y) = Some a) /\
  (forall i symbol st x, calls y !! i = Some (PGet symbol st x) ->
     valid_crumb (crumb x) = true /\ rejected_of st < generation x <= generation (session (sys_shared y))) /\
  (crumb (session (sys_shared y)) <> "" -> valid_crumb (crumb (session (sys_shared y))) = true).
Proof.
  intros R Hb. pose proof (reachable_inv y R Hb) as I. split; [|split].
  - intros i j p q a b Hi Hj Ha Hb'. split; [by eapply (I_unique y I)|]. pose proof (I_calls y I i p Hi) as Hp.
    destruct p; try done; injection Ha as ->; cbn [call_ok] in Hp; tauto.
  - intros i symbol st x Hi. apply (I_calls y I i _ Hi).
  - intros Hne. by apply (I_crumb y I).
Qed.

(** ** Every call returns *)

(** How far a call is from its return. *)
Definition stage_weight (st : stage) : nat := match st with First => 6 | Refresh _ => 0 end.
Definition weight (p : point) : nat :=
  match p with
  | PCheck _ st => stage_weight st + 6 | PEnter _ st => stage_weight st + 5 | PFetch _ st _ => stage_weight st + 4
  | PPublish _ st _ _ => stage_weight st + 3 | PWait _ st _ => stage_weight st + 2 | PGet _ st _ => stage_weight st + 1 | PDone _ => 0
  end.
Definition returned (p : point) : bool := match p with PDone _ => true | _ => false end.

Lemma weight_got symbol st out : (weight (got_session symbol st out) <= stage_weight st + 1)%nat.
Proof. destruct out as [x [e|]]; cbn; lia. Qed.

Lemma step_weight a s p s' p' : step c a s p = Some (s', p') -> (weight p' < weight p)%nat.
Proof.
  destruct p as [symbol st|symbol st|symbol st id|symbol st id|symbol st id r|symbol st x|]; cbn [step]; intros Hs; [| | | | | |done].
  - injection Hs as <- <-. destruct (a_Err a); cbn; lia.
  - destruct (_ && _); [injection Hs as <- <-; pose proof (weight_got symbol st (session s, None)); cbn [weight]; lia|].
    destruct (sessionPending s); injection Hs as <- <-; cbn; lia.
  - destruct (a_Done a); [injection Hs as <- <-; cbn; lia|]. destruct (attempts s !! id) as [[out|]|]; try done. injection Hs as <- <-.
    pose proof (weight_got symbol st out). cbn [weight]. lia.
  - injection Hs as <- <-. cbn. lia.
  - injection Hs as <- <-. destruct r; cbn; lia.
  - injection Hs as <- <-. unfold after_request. destruct (getBody _) as [body|err]; [cbn; lia|]. destruct st; [|cbn; lia]. destruct (unauthorized err); cbn; lia.
Qed.

(** No call is stuck and no call goes on for ever, whatever is scheduled: each step brings the call that takes it closer to its
    return, so a call takes at most twelve; and while one has not returned, some call can take a step, with no context
    cancelled and whatever the network answers. *)
Theorem share_calls_return y : reachable c y -> Z.of_nat (length (attempts (sys_shared y))) < 2 ^ 64 ->
  (forall p, p ∈ calls y -> (weight p <= 12)%nat) /\
  (forall i p a s p', calls y !! i = Some p -> step c a (sys_shared y) p = Some (s, p') -> (weight p' < weight p)%nat) /\
  (forall p, p ∈ calls y -> returned p = false ->
     forall a, exists i q s q', calls y !! i = Some q /\ step c a (sys_shared y) q = Some (s, q')).
Proof.
  intros R Hb. pose proof (reachable_inv y R Hb) as I. split; [|split].
  - intros p _. destruct p as [? []|? []|? [] ?|? [] ?|? [] ? ?|? [] ?|]; cbn; lia.
  - intros i p a s p' _. apply step_weight.
  - intros p Hp Hr a. apply list_elem_of_lookup in Hp as [i Hi]. destruct (step c a (sys_shared y) p) as [[s p']|] eqn:Hs; [by exists i, p, s, p'|].
    pose proof (I_calls y I i p Hi) as Hok. destruct p as [symbol st|symbol st|symbol st id|symbol st id|symbol st id r|symbol st x|]; cbn [step] in Hs; try done.
    + destruct (_ && _); [done|]. by destruct (sessionPending (sys_shared y)).
    + destruct (a_Done a); [done|]. destruct Hok as [_ Hw]. destruct (attempts (sys_shared y) !! id) as [[out|]|] eqn:Ea; [done| |done].
      destruct (I_leader y I id (proj1 (I_open y I id) Ea)) as (j & q & Hj & Hq). exists j, q. destruct q; try done; cbn [step]; by eexists _, _.
Qed.
End safety.
