(* ===== verification/Partner.v ===== *)
(** * Partner APIs: Transak and Robinhood (providers/transak, providers/robinhood)

    What the clients of the on-ramp partners share (the typed error of a status,
    one request with a JSON answer, amounts that come as text or as numbers),
    and the two simpler ones.  The text of a value that a decoder reads raw is the
    one [json.Marshal] writes. *)
From Stdlib Require Import Ascii.
From S2P Require Import HttpClient.
From S2P Require Export Json Exchange Query Calendar.
Local Open Scope Z_scope.
Local Open Scope go_scope.

(** What the sources use of [net/url]: the text of a parsed base with its query
    replaced, its host, and its query; and [time.Parse] of RFC 3339. *)
Class UrlQuery := {
  url_SetRawQuery : string -> string -> result GoError string;
  url_Host : string -> result GoError string;
  url_Query : string -> result GoError Values;
}.
Class TimeText := { Parse_RFC3339 : string -> result GoError Z }.

Definition partner_maxResponseBody : Z := Z.shiftl 4 20.
Definition partner_maxErrorResponseBody : Z := 1024.
Definition partner_defaultTimeout : Z := 15 * nanosPerSecond.

(** ** Errors *)

Record APIError := mkAPIError { ae_StatusCode : Z; ae_Body : string; ae_Err : GoError }.

(** An error, and the [*APIError] in it. *)
Record PartnerErr := mkPartnerErr { pe_err : GoError; pe_api : option APIError }.
Definition plain (e : GoError) : PartnerErr := mkPartnerErr e None.
Definition wrap_partner (pre : string) (e : PartnerErr) : PartnerErr := mkPartnerErr (Errorf_w pre (pe_err e) "") (pe_api e).

(** [APIError.Error], which unwraps to its sentinel. *)
Definition APIError_Error (p : Partner) (e : APIError) : GoError :=
  let status := partner_text p +:+ "status " +:+ pretty (ae_StatusCode e) +:+ ": " in
  Errorf_w (if String.eqb (ae_Body e) "" then status else status +:+ ae_Body e +:+ ": ") (ae_Err e) "".
Definition api_error (p : Partner) (e : APIError) : PartnerErr := mkPartnerErr (APIError_Error p e) (Some e).

Definition status_kind (status : Z) : ApiKind :=
  if status =? 400 then BadRequest
  else if (status =? 401) || (status =? 403) then Unauthorized
  else if status =? 404 then NotFound_
  else if status =? 429 then RateLimited
  else Upstream.

Definition decodeStatus (p : Partner) (resp : HttpResponse) : option APIError :=
  if success (hr_Status resp) then None
  else Some (mkAPIError (hr_Status resp) (TrimSpace (stake (Z.to_nat partner_maxErrorResponseBody) (hr_Body resp)))
               (PartnerError_v p (status_kind (hr_Status resp)))).

(** ** Requests *)

(** [io.LimitReader(resp.Body, limit)], as a stream. *)
Definition limit_reader (limit : Z) (resp : HttpResponse) : string * option GoError :=
  if limit <=? Z.of_nat (slen (hr_Body resp)) then (stake (Z.to_nat limit) (hr_Body resp), None) else (hr_Body resp, hr_BodyErr resp).

Definition send (a : reply) : result PartnerErr HttpResponse :=
  match r_NewRequest a with
  | Some e => Err (plain (Errorf_w "build request: " e ""))
  | None => match r_Do a with Err e => Err (plain (Errorf_w "request failed: " e "")) | Ok resp => Ok resp end
  end.

Definition trimBaseURL (baseURL : string) : string := trim_right (Ascii.eqb "/"%char) (TrimSpace baseURL).
Definition setIfPresent (key value : string) (values : Values) : Values :=
  let value := TrimSpace value in if String.eqb value "" then values else values_Set key value values.

Section partner.
Context `{JE : JsonErrors} `{JB : JsonBody} `{U : UnicodeTables}.

(** [jsonAmountString]: text as it is, or a number's own text. *)
Definition amount_string (v : json) : result GoError string :=
  match v with
  | JNull => Ok ""
  | JString s => Ok s
  | JNumber text => Ok text
  | v => Err (unmarshal_error v "json.Number")
  end.
Definition f_amount (name : string) (raw : json) : result GoError string := field (d_custom amount_string) "" name raw.

(** [json.Marshal] of a [json.Number]. *)
Definition number_json (s : string) : result GoError json :=
  let s := if String.eqb s "" then "0" else s in
  if isValidNumber s then Ok (JNumber s) else Err (errors_New ("json: invalid number literal " +:+ strconv_Quote s)).

(** A string field with [omitempty]. *)
Definition omit_empty (name value : string) : list (string * json) := if String.eqb value "" then [] else [(name, JString value)].

Variable answers : nat -> reply.

(** The response to a request: its status checked, its JSON decoded. *)
Definition read_json {A} (p : Partner) (decode : json -> result GoError A) (resp : HttpResponse) : result PartnerErr A :=
  match decodeStatus p resp with
  | Some e => Err (api_error p e)
  | None =>
      let '(text, err) := limit_reader partner_maxResponseBody resp in
      match (let? v := json_decode text err in decode v) with
      | Err e => Err (plain (Errorf_w "decode response: " e ""))
      | Ok out => Ok out
      end
  end.

(** [doJSON], the payload being marshalled before the request is built. *)
Definition doJSON {A} (p : Partner) (method endpoint : string) (payload : option (result GoError json)) (headers : Header -> Header)
    (decode : json -> result GoError A) : Run PartnerErr A :=
  match payload with
  | None =>
      finish (exchange answers (mkRequest method endpoint (headers (header_Set "Accept" "application/json" ∅)) "") send) (read_json p decode)
  | Some (Err e) => fail (plain (Errorf_w "marshal request: " e ""))
  | Some (Ok v) =>
      finish (exchange answers (mkRequest method endpoint
                (headers (header_Set "Content-Type" "application/json" (header_Set "Accept" "application/json" ∅))) (json_Marshal v)) send) (read_json p decode)
  end.

(** A required value of an answer. *)
Definition require {A} (ok : A -> bool) (message : string) (a : A) : result PartnerErr A :=
  if ok a then Ok a else Err (plain (errors_New message)).
Definition nonblank (s : string) : bool := negb (String.eqb s "").
End partner.

(** ** Transak *)

Definition productionAPIBaseURL : string := "https://api.transak.com".
Definition productionGatewayBaseURL : string := "https://api-gateway.transak.com".
Definition refreshTokenPath : string := "/partners/api/v2/refresh-token".
Definition createWidgetSessionPath : string := "/api/v2/auth/session".
Definition getOrdersPath : string := "/partners/api/v2/orders".
Definition getFiatCurrenciesPath : string := "/fiat/public/v1/currencies/fiat-currencies".
Definition apiSecretHeader : string := "api-secret".
Definition partner_apiKeyHeader : string := "x-api-key".
Definition accessTokenHeader : string := "access-token".
Definition userIPHeader : string := "x-user-ip".
Definition defaultGetOrdersPageSize : Z := 10.

Record AccessToken := mkAccessToken { at_Token : string; at_ExpiresAt : Z }.
Record WidgetParams := mkWidgetParams {
  wp_APIKey : string; wp_ReferrerDomain : string; wp_PartnerOrderID : string; wp_PartnerCustomerID : string; wp_WalletAddress : string;
  wp_DisableWalletAddressForm : bool; wp_ProductsAvailed : string; wp_Network : string; wp_DefaultCryptoCurrency : string;
  wp_PaymentMethod : string; wp_DefaultFiatCurrency : string; wp_CountryCode : string; wp_DefaultFiatAmount : string }.
Record CreateWidgetSessionRequest := mkWidgetSession { ws_WidgetParams : WidgetParams; ws_UserIP : string }.
Record GetOrdersRequest := mkOrdersRequest { go_PartnerOrderID : string; go_Limit : Z; go_Skip : Z }.
Record FiatPaymentOption := mkPaymentOption {
  po_ID : string; po_Name : string; po_DisplayText : bool; po_ProcessingTime : string; po_Icon : string; po_LimitCurrency : string;
  po_MinAmount : string; po_MaxAmount : string; po_IsActive : bool; po_DisplayMessage : string; po_SupportedCountryCode : list string }.
Record FiatCurrency := mkFiatCurrency {
  fc_Symbol : string; fc_Name : string; fc_IsAllowed : bool; fc_SupportingCountries : list string; fc_PaymentOptions : list FiatPaymentOption }.
Record TransakOrder := mkTransakOrder {
  to_ID : string; to_TransakOrderID : string; to_Status : string; to_PartnerOrderID : string; to_PartnerCustomerID : string;
  to_CryptoCurrency : string; to_FiatCurrency : string; to_FiatAmount : string; to_CryptoAmount : string }.

Record transak_client := mkTransak { tc_apiKey : string; tc_apiSecret : string; tc_apiBaseURL : string; tc_gatewayBaseURL : string }.
Definition transak_Option : Type := transak_client -> transak_client.
Definition transak_WithAPIKey (apiKey : string) : transak_Option := fun c =>
  mkTransak (TrimSpace apiKey) (tc_apiSecret c) (tc_apiBaseURL c) (tc_gatewayBaseURL c).
Definition transak_WithAPISecret (apiSecret : string) : transak_Option := fun c =>
  mkTransak (tc_apiKey c) (TrimSpace apiSecret) (tc_apiBaseURL c) (tc_gatewayBaseURL c).
Definition transak_WithAPIBaseURL (baseURL : string) : transak_Option := fun c =>
  let baseURL := trimBaseURL baseURL in
  if String.eqb baseURL "" then c else mkTransak (tc_apiKey c) (tc_apiSecret c) baseURL (tc_gatewayBaseURL c).
Definition transak_WithGatewayBaseURL (baseURL : string) : transak_Option := fun c =>
  let baseURL := trimBaseURL baseURL in
  if String.eqb baseURL "" then c else mkTransak (tc_apiKey c) (tc_apiSecret c) (tc_apiBaseURL c) baseURL.

Definition apply_all {C} (opts : list (option (C -> C))) (c : C) : C := foldl (fun c o => match o with Some o => o c | None => c end) c opts.

Definition transak_New (opts : list (option transak_Option)) : result GoError transak_client :=
  let c := apply_all opts (mkTransak "" "" productionAPIBaseURL productionGatewayBaseURL) in
  if String.eqb (tc_apiKey c) "" then Err (errors_New "transak: api key is required")
  else if String.eqb (tc_apiSecret c) "" then Err (errors_New "transak: api secret is required")
  else Ok c.

Section transak.
Context `{JE : JsonErrors} `{JB : JsonBody} `{U : UnicodeTables} `{UQ : UrlQuery} `{TT : TimeText}.

(** [strings.Trim] of double quotes. *)
Definition quote : Ascii.ascii := "034"%char.
Fixpoint trim_left_quotes (s : string) : string := match s with String c s' => if Ascii.eqb c quote then trim_left_quotes s' else s | "" => "" end.
Definition trim_quotes (s : string) : string := trim_right (Ascii.eqb quote) (trim_left_quotes s).

(** [strconv.ParseInt(s, 10, 64)] *)
Definition ParseInt64 (s : string) : option Z :=
  match SetString10 s with Some n => if (- 2 ^ 63 <=? n) && (n <? 2 ^ 63) then Some n else None | None => None end.

Definition unixTime_UnmarshalJSON (data : json) : result GoError Z :=
  let raw := trim_quotes (TrimSpace (json_Marshal data)) in
  if String.eqb raw "" || String.eqb raw "null" then Ok zeroTime
  else match ParseInt64 raw with Some seconds => Ok (seconds * nanosPerSecond) | None => Parse_RFC3339 raw end.

(** The token and its expiry. *)
Definition decode_access_token (raw : json) : result GoError (string * Z) :=
  f_struct (fun data =>
    let? token := f_string "accessToken" data in
    let? expiresAt := field (d_custom unixTime_UnmarshalJSON) zeroTime "expiresAt" data in
    Ok (token, expiresAt)) "data" raw.

Definition decode_widget (raw : json) : result GoError string := f_struct (f_string "widgetUrl") "data" raw.

Definition Order_UnmarshalJSON (data : json) : result GoError TransakOrder :=
  let? id := f_string "_id" data in
  let? legacy := f_string "id" data in
  let? transakOrderID := f_string "transakOrderId" data in
  let? status := f_string "status" data in
  let? partnerOrderID := f_string "partnerOrderId" data in
  let? partnerCustomerID := f_string "partnerCustomerId" data in
  let? cryptoCurrency := f_string "cryptoCurrency" data in
  let? fiatCurrency := f_string "fiatCurrency" data in
  let? fiatAmount := f_amount "fiatAmount" data in
  let? cryptoAmount := f_amount "cryptoAmount" data in
  Ok (mkTransakOrder (if String.eqb id "" then legacy else id) transakOrderID status partnerOrderID partnerCustomerID cryptoCurrency
        fiatCurrency fiatAmount cryptoAmount).

(** [getOrdersEnvelope.Orders]: a list, or an object that holds it. *)
Definition envelope_Orders (data : option json) : result GoError (list TransakOrder) :=
  match data with
  | None | Some JNull => Ok []
  | Some data =>
      match d_list Order_UnmarshalJSON [] data with
      | Ok orders => Ok orders
      | Err _ =>
          match f_list Order_UnmarshalJSON "orders" data with
          | Ok orders => Ok orders
          | Err e => Err (Errorf_w "decode data: " e "")
          end
      end
  end.

Definition decode_payment_option (raw : json) : result GoError FiatPaymentOption :=
  let? id := f_string "id" raw in
  let? name := f_string "name" raw in
  let? displayText := f_bool "displayText" raw in
  let? processingTime := f_string "processingTime" raw in
  let? icon := f_string "icon" raw in
  let? limitCurrency := f_string "limitCurrency" raw in
  let? minAmount := f_number "minAmount" raw in
  let? maxAmount := f_number "maxAmount" raw in
  let? isActive := f_bool "isActive" raw in
  let? displayMessage := f_string "displayMessage" raw in
  let? countries := field strings [] "supportedCountryCode" raw in
  Ok (mkPaymentOption id name displayText processingTime icon limitCurrency minAmount maxAmount isActive displayMessage countries).

Definition decode_fiat_currency (raw : json) : result GoError FiatCurrency :=
  let? symbol := f_string "symbol" raw in
  let? name := f_string "name" raw in
  let? isAllowed := f_bool "isAllowed" raw in
  let? countries := field strings [] "supportingCountries" raw in
  let? options := f_list decode_payment_option "paymentOptions" raw in
  Ok (mkFiatCurrency symbol name isAllowed countries options).

(** An envelope whose list is not null, or a list. *)
Definition decodeFiatCurrencies (raw : json) : result GoError (list FiatCurrency) :=
  match raw with
  | JNull => Ok []
  | raw =>
      match field (d_slice decode_fiat_currency) None "response" raw with
      | Ok (Some currencies) => Ok currencies
      | _ =>
          match d_list decode_fiat_currency [] raw with
          | Ok direct => Ok direct
          | Err e => Err (Errorf_w "decode response: " e "")
          end
      end
  end.

(** The payload of a session: the key is the client's when none is given. *)
Definition widget_payload (params : WidgetParams) : result GoError json :=
  let? amount := (if String.eqb (wp_DefaultFiatAmount params) "" then Ok [] else let? n := number_json (wp_DefaultFiatAmount params) in Ok [("defaultFiatAmount", n)]) in
  Ok (JObject [("widgetParams", JObject (
    omit_empty "apiKey" (wp_APIKey params) ++ omit_empty "referrerDomain" (wp_ReferrerDomain params) ++
    omit_empty "partnerOrderId" (wp_PartnerOrderID params) ++ omit_empty "partnerCustomerId" (wp_PartnerCustomerID params) ++
    omit_empty "walletAddress" (wp_WalletAddress params) ++ [("disableWalletAddressForm", JBool (wp_DisableWalletAddressForm params))] ++
    omit_empty "productsAvailed" (wp_ProductsAvailed params) ++ omit_empty "network" (wp_Network params) ++
    omit_empty "defaultCryptoCurrency" (wp_DefaultCryptoCurrency params) ++ omit_empty "paymentMethod" (wp_PaymentMethod params) ++
    omit_empty "defaultFiatCurrency" (wp_DefaultFiatCurrency params) ++ omit_empty "countryCode" (wp_CountryCode params) ++ amount))]).
Definition with_api_key (apiKey : string) (p : WidgetParams) : WidgetParams :=
  if String.eqb (TrimSpace (wp_APIKey p)) "" then
    mkWidgetParams apiKey (wp_ReferrerDomain p) (wp_PartnerOrderID p) (wp_PartnerCustomerID p) (wp_WalletAddress p) (wp_DisableWalletAddressForm p)
      (wp_ProductsAvailed p) (wp_Network p) (wp_DefaultCryptoCurrency p) (wp_PaymentMethod p) (wp_DefaultFiatCurrency p) (wp_CountryCode p)
      (wp_DefaultFiatAmount p)
  else p.

Definition transak_order_values (partnerOrderID : string) (req : GetOrdersRequest) : Values :=
  let limit := if go_Limit req <=? 0 then defaultGetOrdersPageSize else go_Limit req in
  let values := values_Set "limit" (pretty limit) (values_Set "filter[partnerOrderId]" partnerOrderID ∅) in
  if 0 <? go_Skip req then values_Set "skip" (pretty (go_Skip req)) values else values.

Variable answers : nat -> reply.
Variable c : transak_client.

Definition RefreshToken : Run PartnerErr AccessToken :=
  finish (on_error (wrap_partner "transak refresh token: ")
    (doJSON answers Transak_ "POST" (tc_apiBaseURL c +:+ refreshTokenPath) (Some (Ok (JObject [("apiKey", JString (tc_apiKey c))])))
       (fun h => header_Set apiSecretHeader (tc_apiSecret c) (header_Set partner_apiKeyHeader (tc_apiKey c) h)) decode_access_token))
    (fun out =>
      if String.eqb out.1 "" then Err (plain (errors_New "transak refresh token: missing access token"))
      else if IsZero out.2 then Err (plain (errors_New "transak refresh token: missing expiresAt"))
      else Ok (mkAccessToken out.1 out.2)).

Definition CreateWidgetSession (accessToken : string) (req : CreateWidgetSessionRequest) : Run PartnerErr string :=
  let accessToken := TrimSpace accessToken in
  if String.eqb accessToken "" then fail (plain (errors_New "transak create widget session: access token is required"))
  else
    finish (on_error (wrap_partner "transak create widget session: ")
      (doJSON answers Transak_ "POST" (tc_gatewayBaseURL c +:+ createWidgetSessionPath) (Some (widget_payload (with_api_key (tc_apiKey c) (ws_WidgetParams req))))
         (fun h =>
            let h := header_Set accessTokenHeader accessToken (header_Set partner_apiKeyHeader (tc_apiKey c) h) in
            let userIP := TrimSpace (ws_UserIP req) in
            if String.eqb userIP "" then h else header_Set userIPHeader userIP h) decode_widget))
      (require nonblank "transak create widget session: missing widgetUrl").

Definition GetOrders (accessToken : string) (req : GetOrdersRequest) : Run PartnerErr (list TransakOrder) :=
  let accessToken := TrimSpace accessToken in
  let partnerOrderID := TrimSpace (go_PartnerOrderID req) in
  if String.eqb accessToken "" then fail (plain (errors_New "transak get orders: access token is required"))
  else if String.eqb partnerOrderID "" then fail (plain (errors_New "transak get orders: partner order id is required"))
  else
    on_error (wrap_partner "transak get orders: ")
      (finish
        (doJSON answers Transak_ "GET" (tc_apiBaseURL c +:+ getOrdersPath +:+ "?" +:+ Encode (transak_order_values partnerOrderID req)) None
           (fun h => header_Set accessTokenHeader accessToken (header_Set partner_apiKeyHeader (tc_apiKey c) h)) (field d_raw None "data"))
        (fun data => match envelope_Orders data with Ok orders => Ok orders | Err e => Err (plain e) end)).

(** The endpoint's query, with the key. *)
Definition currencies_url : result GoError string :=
  let? values := url_Query (tc_apiBaseURL c +:+ getFiatCurrenciesPath) in
  url_SetRawQuery (tc_apiBaseURL c +:+ getFiatCurrenciesPath) (Encode (values_Set "apiKey" (tc_apiKey c) values)).

Definition GetFiatCurrencies : Run PartnerErr (list FiatCurrency) :=
  match currencies_url with
  | Err e => fail (plain (Errorf_w "transak get fiat currencies: build endpoint: " e ""))
  | Ok endpoint =>
      finish (on_error (wrap_partner "transak get fiat currencies: ")
        (finish
          (doJSON answers Transak_ "GET" endpoint None (fun h => header_Set partner_apiKeyHeader (tc_apiKey c) h) (fun raw => Ok raw))
          (fun raw => match decodeFiatCurrencies raw with Ok currencies => Ok currencies | Err e => Err (plain e) end)))
        (require (fun l => negb (0 =? Z.of_nat (length l))) "transak get fiat currencies: empty catalog")
  end.
End transak.

(** ** Robinhood *)

Definition robinhood_APIBaseURL : string := "https://api.robinhood.com".
Definition robinhood_ConnectBaseURL : string := "https://applink.robinhood.com/u/connect".
Definition createConnectIDPath : string := "/catpay/v1/connect_id/".
Definition getOrderPath (id : string) : string := "/catpay/v1/external/order/" +:+ id.
Definition applicationIDHeader : string := "application-id".

Record CreateConnectIDRequest := mkConnectIDRequest { ci_WalletAddress : string; ci_ReferenceID : string }.
Record BuildConnectURLRequest := mkConnectURL {
  cu_ConnectID : string; cu_WalletAddress : string; cu_RedirectURL : string; cu_SupportedNetworks : list string; cu_SupportedAssets : list string;
  cu_FiatAmount : string; cu_FiatCode : string; cu_AssetCode : string; cu_LockAmount : bool }.
Record RobinhoodOrder := mkRobinhoodOrder {
  ro_ID : string; ro_Status : string; ro_AssetCode : string; ro_NetworkCode : string; ro_CryptoAmount : string;
  ro_BlockchainTransactionID : string; ro_DestinationAddress : string; ro_ReferenceID : string }.

Record robinhood_client := mkRobinhood { rc_applicationID : string; rc_apiKey : string; rc_apiBaseURL : string; rc_connectBaseURL : string }.
Definition robinhood_Option : Type := robinhood_client -> robinhood_client.
Definition robinhood_WithApplicationID (applicationID : string) : robinhood_Option := fun c =>
  mkRobinhood (TrimSpace applicationID) (rc_apiKey c) (rc_apiBaseURL c) (rc_connectBaseURL c).
Definition robinhood_WithAPIKey (apiKey : string) : robinhood_Option := fun c =>
  mkRobinhood (rc_applicationID c) (TrimSpace apiKey) (rc_apiBaseURL c) (rc_connectBaseURL c).
Definition robinhood_WithAPIBaseURL (baseURL : string) : robinhood_Option := fun c =>
  let baseURL := trimBaseURL baseURL in
  if String.eqb baseURL "" then c else mkRobinhood (rc_applicationID c) (rc_apiKey c) baseURL (rc_connectBaseURL c).
Definition WithConnectBaseURL (baseURL : string) : robinhood_Option := fun c =>
  let baseURL := trimBaseURL baseURL in
  if String.eqb baseURL "" then c else mkRobinhood (rc_applicationID c) (rc_apiKey c) (rc_apiBaseURL c) baseURL.

Definition robinhood_New (opts : list (option robinhood_Option)) : result GoError robinhood_client :=
  let c := apply_all opts (mkRobinhood "" "" robinhood_APIBaseURL robinhood_ConnectBaseURL) in
  if String.eqb (rc_applicationID c) "" then Err (errors_New "robinhood: application id is required")
  else if String.eqb (rc_apiKey c) "" then Err (errors_New "robinhood: api key is required")
  else Ok c.

Definition joinValues (values : list string) : string := strings_Join "," (List.filter nonblank (map TrimSpace values)).

Section robinhood.
Context `{JE : JsonErrors} `{JB : JsonBody} `{UQ : UrlQuery}.

Definition decode_robinhood_order (raw : json) : result GoError RobinhoodOrder :=
  let? connectID := f_string "connectId" raw in
  let? status := f_string "status" raw in
  let? assetCode := f_string "assetCode" raw in
  let? networkCode := f_string "networkCode" raw in
  let? cryptoAmount := f_amount "cryptoAmount" raw in
  let? transactionID := f_string "blockchainTransactionId" raw in
  let? destination := f_string "destinationAddress" raw in
  let? referenceID := f_string "referenceID" raw in
  Ok (mkRobinhoodOrder connectID status assetCode networkCode cryptoAmount transactionID destination referenceID).

Variable answers : nat -> reply.
Variable c : robinhood_client.

Definition robinhood_headers (h : Header) : Header := header_Set partner_apiKeyHeader (rc_apiKey c) (header_Set applicationIDHeader (rc_applicationID c) h).

Definition CreateConnectID (req : CreateConnectIDRequest) : Run PartnerErr string :=
  let walletAddress := TrimSpace (ci_WalletAddress req) in
  let referenceID := TrimSpace (ci_ReferenceID req) in
  if String.eqb walletAddress "" then fail (plain (errors_New "robinhood create connect id: wallet address is required"))
  else if String.eqb referenceID "" then fail (plain (errors_New "robinhood create connect id: reference id is required"))
  else
    finish (on_error (wrap_partner "robinhood create connect id: ")
      (doJSON answers Robinhood_ "POST" (rc_apiBaseURL c +:+ createConnectIDPath)
         (Some (Ok (JObject [("withdrawal_address", JString walletAddress); ("referenceId", JString referenceID)]))) robinhood_headers (f_string "connectId")))
      (require nonblank "robinhood create connect id: missing connectId").

Definition robinhood_GetOrder (connectID : string) : Run PartnerErr RobinhoodOrder :=
  let connectID := TrimSpace connectID in
  if String.eqb connectID "" then fail (plain (errors_New "robinhood get order: connect id is required"))
  else
    on_error (wrap_partner "robinhood get order: ")
      (doJSON answers Robinhood_ "GET" (rc_apiBaseURL c +:+ getOrderPath (PathEscape connectID)) None robinhood_headers decode_robinhood_order).

Definition connect_values (req : BuildConnectURLRequest) : Values :=
  let values := values_Set "walletAddress" (TrimSpace (cu_WalletAddress req))
    (values_Set "connectId" (TrimSpace (cu_ConnectID req)) (values_Set "applicationId" (rc_applicationID c) ∅)) in
  let values := setIfPresent "redirectUrl" (cu_RedirectURL req) values in
  let values := setIfPresent "supportedNetworks" (joinValues (cu_SupportedNetworks req)) values in
  let values := setIfPresent "supportedAssets" (joinValues (cu_SupportedAssets req)) values in
  let values := setIfPresent "fiatAmount" (cu_FiatAmount req) values in
  let values := setIfPresent "fiatCode" (cu_FiatCode req) values in
  let values := setIfPresent "assetCode" (cu_AssetCode req) values in
  if cu_LockAmount req then values_Set "lockAmount" "true" values else values.

Definition BuildConnectURL (req : BuildConnectURLRequest) : result GoError string :=
  if String.eqb (TrimSpace (cu_ConnectID req)) "" then Err (errors_New "robinhood build connect url: connect id is required")
  else if String.eqb (TrimSpace (cu_WalletAddress req)) "" then Err (errors_New "robinhood build connect url: wallet address is required")
  else match url_SetRawQuery (rc_connectBaseURL c) (Encode (connect_values req)) with
       | Err e => Err (Errorf_w "robinhood build connect url: " e "")
       | Ok text => Ok text
       end.
End robinhood.
