(* ===== verification/Coinbase.v ===== *)
(** * Coinbase (providers/coinbase)

    The onramp client: the API key secret in its three formats, the token minted
    for each request, the operations, and that every request carries a token for
    its own method, host and path and no other.  A run ends with a value, an
    error, or a panic: padding a signature panics on a number that does not fit. *)
From Stdlib Require Import Ascii Strings.Byte.
From S2P Require Import HttpClient.
From S2P Require Export Partner Base64 Sha256.
Local Open Scope Z_scope.
Local Open Scope go_scope.

(** ** Keys (jwt.go) *)

(** What [crypto] and [encoding/pem] provide.  A private key of a PKCS8 block is
    an ECDSA key, an Ed25519 key, or of another type, known by its name. *)
Class EcKeys := { EcKey : Type }.
Inductive pkcs8 `{EcKeys} :=
| PkEcdsa (key : EcKey)
| PkEd25519 (key : bytes)
| PkOther (type_name : string).
Class KeyFormats `{EcKeys} := {
  EcKey_isP256 : EcKey -> bool;
  EcKey_curveName : EcKey -> string;
  EcKey_orderBits : EcKey -> Z;                               (* key.Curve.Params().N.BitLen() *)
  pem_Decode : string -> option (string * bytes);             (* the block's type and bytes *)
  ParseECPrivateKey : bytes -> result GoError EcKey;
  ParsePKCS8PrivateKey : bytes -> result GoError pkcs8;
  ed25519_NewKeyFromSeed : bytes -> bytes;
  ed25519_Sign : bytes -> bytes -> bytes;
}.

(** What one minting meets: the random nonce, the clock, and the signature of a digest. *)
Class Minting `{EcKeys} := {
  jwt_nonce : result GoError bytes;
  jwt_now : Z;
  ecdsa_Sign : EcKey -> bytes -> result GoError (Z * Z);
}.

Definition jwtIssuer : string := "cdp".
Definition jwtAudience : string := "cdp_service".
Definition jwtExpiry : Z := 2 * 60 * nanosPerSecond.
Definition algEdDSA : string := "EdDSA".
Definition algES256 : string := "ES256".

Inductive apiKeySigner `{EcKeys} := ed25519Signer (key : bytes) | ecdsaSigner (key : EcKey).

Definition ed25519_SeedSize : Z := 32.
Definition ed25519_PrivateKeySize : Z := 64.

(** [strings.ReplaceAll(secret, `\n`, "\n")] *)
Fixpoint unescape_newlines (s : string) : string :=
  match s with
  | "" => ""
  | String c s1 =>
      match s1 with
      | String d s2 => if Ascii.eqb c "092"%char && Ascii.eqb d "n"%char then String "010"%char (unescape_newlines s2) else String c (unescape_newlines s1)
      | "" => String c ""
      end
  end.

(** The standard alphabet read as the URL one. *)
Definition std_to_url (c : Ascii.ascii) : Ascii.ascii :=
  if Ascii.eqb c "+"%char then "-"%char else if Ascii.eqb c "/"%char then "_"%char
  else if Ascii.eqb c "-"%char || Ascii.eqb c "_"%char then "!"%char else c.
Definition std_decode (padded : bool) (s : string) : option bytes := b64_decode padded (map_string std_to_url s).

Section jwt.
Context `{EK : EcKeys} `{KF : !KeyFormats} `{U : UnicodeTables}.

Definition invalid_secret (why : string) : GoError := Errorf_w "" ErrInvalidAPIKeySecret_v (": " +:+ why).

(** ES256 is over P-256 only. *)
Definition check_curve (key : EcKey) : result GoError apiKeySigner :=
  if EcKey_isP256 key then Ok (ecdsaSigner key)
  else Err (invalid_secret ("expected P-256 curve, got " +:+ EcKey_curveName key)).

Definition parsePEMSecret (secret : string) : result GoError apiKeySigner :=
  match pem_Decode secret with
  | None => Err (invalid_secret "undecodable PEM block")
  | Some (type, content) =>
      if String.eqb type "EC PRIVATE KEY" then
        match ParseECPrivateKey content with Err e => Err (invalid_secret (Error e)) | Ok key => check_curve key end
      else if String.eqb type "PRIVATE KEY" then
        match ParsePKCS8PrivateKey content with
        | Err e => Err (invalid_secret (Error e))
        | Ok (PkEcdsa key) => check_curve key
        | Ok (PkEd25519 key) => Ok (ed25519Signer key)
        | Ok (PkOther name) => Err (invalid_secret ("unsupported PKCS8 key type " +:+ name))
        end
      else Err (invalid_secret ("unsupported PEM block " +:+ strconv_Quote type))
  end.

(** The first of the four encodings that decodes. *)
Definition decode_secret (secret : string) : option bytes :=
  first_some (std_decode true secret) (first_some (std_decode false secret) (first_some (b64_decode true secret) (b64_decode false secret))).

Definition parseBase64Secret (secret : string) : result GoError apiKeySigner :=
  match decode_secret secret with
  | None => Err (invalid_secret "not base64 or PEM")
  | Some raw =>
      let size := Z.of_nat (length raw) in
      if size =? ed25519_PrivateKeySize then Ok (ed25519Signer raw)
      else if size =? ed25519_SeedSize then Ok (ed25519Signer (ed25519_NewKeyFromSeed raw))
      else Err (invalid_secret ("expected " +:+ pretty ed25519_SeedSize +:+ " or " +:+ pretty ed25519_PrivateKeySize +:+ " key bytes, got " +:+ pretty size))
  end.

Definition parseAPIKeySecret (secret : string) : result GoError apiKeySigner :=
  let secret := TrimSpace secret in
  if String.eqb secret "" then Err (invalid_secret "empty")
  else
    let unescaped := unescape_newlines secret in
    if Contains unescaped "-----BEGIN" then parsePEMSecret unescaped else parseBase64Secret secret.

(** ** Tokens *)

(** [padInto(dst, value)]: the absolute value at the end of [dst], of zeros. *)
Definition padInto (size : nat) (value : Z) : option bytes :=
  let b := Bytes value in
  if (length b <=? size)%nat then Some (replicate (size - length b) x00 ++ b) else None.

Context `{MT : !Minting}.

Definition signer_alg (s : apiKeySigner) : string := match s with ed25519Signer _ => algEdDSA | ecdsaSigner _ => algES256 end.

Definition signer_sign (s : apiKeySigner) (signingInput : string) : outcome bytes :=
  match s with
  | ed25519Signer key => Val (ed25519_Sign key (bytes_of signingInput))
  | ecdsaSigner key =>
      match ecdsa_Sign key (sha256 (bytes_of signingInput)) with
      | Err e => Fail (Errorf_w "sign: " e "")
      | Ok (r, s) =>
          let size := Z.to_nat ((EcKey_orderBits key + 7) / 8) in
          match padInto size r, padInto size s with
          | Some r, Some s => Val (r ++ s)
          | _, _ => Panic "runtime error: slice bounds out of range"
          end
      end
  end.

Definition encodeJWTSegment (value : json) : string := b64_encode false (bytes_of (json_Marshal value)).

(** The header and the claims, by key. *)
Definition jwt_header (signer : apiKeySigner) (apiKeyID : string) (nonce : bytes) : json :=
  JObject [("alg", JString (signer_alg signer)); ("kid", JString apiKeyID); ("nonce", JString (EncodeToString nonce)); ("typ", JString "JWT")].
Definition unix_seconds (t : Z) : Z := t / nanosPerSecond.
Definition jwt_claims (apiKeyID method host path : string) : json :=
  JObject [("aud", JArray [JString jwtAudience]); ("exp", JNumber (pretty (unix_seconds (jwt_now + jwtExpiry)))); ("iss", JString jwtIssuer);
    ("nbf", JNumber (pretty (unix_seconds jwt_now))); ("sub", JString apiKeyID); ("uris", JArray [JString (method +:+ " " +:+ host +:+ path)])].

Definition mintJWT (signer : apiKeySigner) (apiKeyID method host path : string) : outcome string :=
  match jwt_nonce with
  | Err e => Fail (Errorf_w "generate nonce: " e "")
  | Ok nonce =>
      let signingInput := encodeJWTSegment (jwt_header signer apiKeyID nonce) +:+ "." +:+ encodeJWTSegment (jwt_claims apiKeyID method host path) in
      let^ signature := signer_sign signer signingInput in
      Val (signingInput +:+ "." +:+ b64_encode false signature)
  end.
End jwt.

(** ** The client *)

Definition coinbase_APIBaseURL : string := "https://api.developer.coinbase.com".
Definition productionBuyBaseURL : string := "https://pay.coinbase.com/buy/select-asset".
Definition createSessionTokenPath : string := "/onramp/v1/token".
Definition buyTransactionsPath (ref : string) : string := "/onramp/v1/buy/user/" +:+ ref +:+ "/transactions".
Definition buyConfigPath : string := "/onramp/v1/buy/config".
Definition buyOptionsPath : string := "/onramp/v1/buy/options".

Record SessionTokenAddress := mkTokenAddress { sa_Address : string; sa_Blockchains : list string }.
Record CreateSessionTokenRequest := mkTokenRequest { st_Addresses : list SessionTokenAddress; st_Assets : list string }.
Record CreateSessionTokenResponse := mkTokenResponse { sr_Token : string; sr_ChannelID : string }.
Record BuildBuyURLRequest := mkBuyURL {
  bu_SessionToken : string; bu_PartnerUserRef : string; bu_PresetFiatAmount : string; bu_FiatCurrency : string;
  bu_DefaultPaymentMethod : string; bu_RedirectURL : string; bu_Addresses : gmap string (option (list string)); bu_Assets : list string }.
Record GetBuyTransactionsRequest := mkTransactionsRequest { bt_PartnerUserRef : string; bt_PageSize : Z; bt_PageKey : string }.
Record BuyTransaction := mkBuyTransaction {
  tx_Status : string; tx_TransactionID : string; tx_TxHash : string; tx_PurchaseAmount : string; tx_PurchaseCurrency : string;
  tx_PurchaseNetwork : string; tx_PaymentTotal : string; tx_FiatCurrency : string; tx_ExchangeRate : string; tx_CoinbaseFee : string;
  tx_NetworkFee : string; tx_WalletAddress : string; tx_CreatedAt : string }.
Record GetBuyTransactionsResponse := mkTransactions { tr_Transactions : list BuyTransaction; tr_TotalCount : string; tr_NextPageKey : string }.
Record BuyCountry := mkBuyCountry { bc_ID : string; bc_PaymentMethods : list string; bc_Subdivisions : list string }.
Record GetBuyOptionsRequest := mkOptionsRequest { bo_Country : string; bo_Subdivision : string }.
Record BuyLimit := mkBuyLimit { bl_ID : string; bl_Min : string; bl_Max : string }.
Record BuyNetwork := mkBuyNetwork { bn_Name : string; bn_ChainID : string; bn_ContractAddress : string }.
Record BuyAsset := mkBuyAsset { ba_ID : string; ba_Symbol : string; ba_Networks : list BuyNetwork }.
Record GetBuyOptionsResponse := mkBuyOptions { go_PaymentCurrencies : list (string * list BuyLimit); go_PurchaseCurrencies : list BuyAsset }.

Record coinbase_client `{EcKeys} := mkCoinbase {
  cc_apiKeyID : string; cc_apiKeySecret : string; cc_signer : option apiKeySigner; cc_projectID : string;
  cc_apiBaseURL : string; cc_apiHost : string; cc_buyBaseURL : string }.
Arguments mkCoinbase {_}.

Definition coinbase_Option `{EcKeys} : Type := coinbase_client -> coinbase_client.
Definition WithAPIKeyID `{EcKeys} (apiKeyID : string) : coinbase_Option := fun c =>
  mkCoinbase (TrimSpace apiKeyID) (cc_apiKeySecret c) (cc_signer c) (cc_projectID c) (cc_apiBaseURL c) (cc_apiHost c) (cc_buyBaseURL c).
Definition WithAPIKeySecret `{EcKeys} (secret : string) : coinbase_Option := fun c =>
  mkCoinbase (cc_apiKeyID c) secret (cc_signer c) (cc_projectID c) (cc_apiBaseURL c) (cc_apiHost c) (cc_buyBaseURL c).
Definition WithProjectID `{EcKeys} (projectID : string) : coinbase_Option := fun c =>
  mkCoinbase (cc_apiKeyID c) (cc_apiKeySecret c) (cc_signer c) (TrimSpace projectID) (cc_apiBaseURL c) (cc_apiHost c) (cc_buyBaseURL c).
Definition coinbase_WithAPIBaseURL `{EcKeys} (baseURL : string) : coinbase_Option := fun c =>
  let baseURL := trimBaseURL baseURL in
  if String.eqb baseURL "" then c
  else mkCoinbase (cc_apiKeyID c) (cc_apiKeySecret c) (cc_signer c) (cc_projectID c) baseURL (cc_apiHost c) (cc_buyBaseURL c).
Definition WithBuyBaseURL `{EcKeys} (baseURL : string) : coinbase_Option := fun c =>
  let baseURL := trimBaseURL baseURL in
  if String.eqb baseURL "" then c
  else mkCoinbase (cc_apiKeyID c) (cc_apiKeySecret c) (cc_signer c) (cc_projectID c) (cc_apiBaseURL c) (cc_apiHost c) baseURL.

(** What stops a run. *)
Inductive stop := Failed (e : PartnerErr) | Panicked.
Definition wrap_stop (pre : string) (s : stop) : stop := match s with Failed e => Failed (wrap_partner pre e) | Panicked => Panicked end.
Definition failed {A} (e : GoError) : Run stop A := fail (Failed (plain e)).
Definition as_run {A} (m : Run PartnerErr A) : Run stop A := fun log =>
  match m log with (Ok a, log) => (Ok a, log) | (Err e, log) => (Err (Failed e), log) end.

Section coinbase.
Context `{JE : JsonErrors} `{JB : JsonBody} `{U : UnicodeTables} `{UQ : UrlQuery} `{EK : EcKeys} `{KF : !KeyFormats} `{MT : !Minting}.

Definition hostOf (baseURL : string) : result GoError string :=
  match url_Host baseURL with
  | Err e => Err e
  | Ok host => if String.eqb host "" then Err (errors_New ("missing host in " +:+ strconv_Quote baseURL)) else Ok host
  end.

Definition coinbase_New (opts : list (option coinbase_Option)) : result GoError coinbase_client :=
  let c := apply_all opts (mkCoinbase "" "" None "" coinbase_APIBaseURL "" productionBuyBaseURL) in
  if String.eqb (cc_apiKeyID c) "" then Err (errors_New "coinbase: api key id is required")
  else
    match parseAPIKeySecret (cc_apiKeySecret c) with
    | Err e => Err (Errorf_w "coinbase: " e "")
    | Ok signer =>
        match hostOf (cc_apiBaseURL c) with
        | Err e => Err (Errorf_w "coinbase: api base url: " e "")
        | Ok host => Ok (mkCoinbase (cc_apiKeyID c) "" (Some signer) (cc_projectID c) (cc_apiBaseURL c) host (cc_buyBaseURL c))
        end
    end.

(** *** Answers *)

Definition decode_session_token (raw : json) : result GoError (string * string * string) :=
  let? token := f_string "token" raw in
  let? channelID := f_string "channelId" raw in
  let? snake := f_string "channel_id" raw in
  Ok (token, channelID, snake).

Definition BuyTransaction_UnmarshalJSON (data : json) : result GoError BuyTransaction :=
  let? status := f_string "status" data in
  let? transactionID := f_string "transaction_id" data in
  let? txHash := f_string "tx_hash" data in
  let? purchaseAmount := f_amount "purchase_amount" data in
  let? purchaseCurrency := f_string "purchase_currency" data in
  let? purchaseNetwork := f_string "purchase_network" data in
  let? paymentTotal := f_amount "payment_total" data in
  let? fiatCurrency := f_string "fiat_currency" data in
  let? exchangeRate := f_amount "exchange_rate" data in
  let? coinbaseFee := f_amount "coinbase_fee" data in
  let? networkFee := f_amount "network_fee" data in
  let? walletAddress := f_string "wallet_address" data in
  let? createdAt := f_string "created_at" data in
  Ok (mkBuyTransaction status transactionID txHash purchaseAmount purchaseCurrency purchaseNetwork paymentTotal fiatCurrency exchangeRate
        coinbaseFee networkFee walletAddress createdAt).

Definition decode_transactions (raw : json) : result GoError GetBuyTransactionsResponse :=
  let? transactions := f_list BuyTransaction_UnmarshalJSON "transactions" raw in
  let? totalCount := f_amount "total_count" raw in
  let? nextPageKey := f_string "next_page_key" raw in
  Ok (mkTransactions transactions totalCount nextPageKey).

Definition decode_country (raw : json) : result GoError BuyCountry :=
  let? id := f_string "id" raw in
  let? methods := f_list (f_string "id") "payment_methods" raw in
  let? subdivisions := field strings [] "subdivisions" raw in
  Ok (mkBuyCountry id methods subdivisions).

Definition decode_limit (raw : json) : result GoError BuyLimit :=
  let? id := f_string "id" raw in
  let? min := f_string "min" raw in
  let? max := f_string "max" raw in
  Ok (mkBuyLimit id min max).

Definition decode_fiat (raw : json) : result GoError (string * list BuyLimit) :=
  let? id := f_string "id" raw in
  let? limits := f_list decode_limit "limits" raw in
  Ok (id, limits).

Definition decode_network (raw : json) : result GoError BuyNetwork :=
  let? name := f_string "name" raw in
  let? chainID := f_string "chain_id" raw in
  let? contract := f_string "contract_address" raw in
  Ok (mkBuyNetwork name chainID contract).

Definition decode_asset (raw : json) : result GoError BuyAsset :=
  let? id := f_string "id" raw in
  let? symbol := f_string "symbol" raw in
  let? networks := f_list decode_network "networks" raw in
  Ok (mkBuyAsset id symbol networks).

(** The two lists, absent or null being neither. *)
Definition decode_options (raw : json) : result GoError (option (list (string * list BuyLimit)) * option (list BuyAsset)) :=
  let? payment := field (d_slice decode_fiat) None "payment_currencies" raw in
  let? purchase := field (d_slice decode_asset) None "purchase_currencies" raw in
  Ok (payment, purchase).

(** *** Requests *)

Variable answers : nat -> reply.
Variable c : coinbase_client.

Definition coinbase_endpoint (path rawQuery : string) : string :=
  cc_apiBaseURL c +:+ path +:+ (if String.eqb rawQuery "" then "" else "?" +:+ rawQuery).

Definition coinbase_headers (token : string) (payload : option json) : Header :=
  let h := header_Set "Accept" "application/json" (header_Set "Authorization" ("Bearer " +:+ token) ∅) in
  match payload with None => h | Some _ => header_Set "Content-Type" "application/json" h end.

(** The token is minted for this method, host and path once the request is built. *)
Definition coinbase_doJSON {A} (method path rawQuery : string) (payload : option json) (decode : json -> result GoError A) : Run stop A := fun log =>
  match r_NewRequest (answers (length log)) with
  | Some e => failed (Errorf_w "build request: " e "") log
  | None =>
      match cc_signer c with
      | None => (Err Panicked, log)
      | Some signer =>
          match mintJWT signer (cc_apiKeyID c) method (cc_apiHost c) path with
          | Panic _ => (Err Panicked, log)
          | Fail e => failed (Errorf_w "mint jwt: " e "") log
          | Val token =>
              as_run (finish (exchange answers
                (mkRequest method (coinbase_endpoint path rawQuery) (coinbase_headers token payload) (from_option json_Marshal "" payload)) send)
                (read_json Coinbase_ decode)) log
          end
      end
  end.

Definition token_address (a : SessionTokenAddress) : json :=
  JObject [("address", JString (sa_Address a)); ("blockchains", JArray (JString <$> sa_Blockchains a))].
Definition token_payload (req : CreateSessionTokenRequest) : json :=
  JObject ([("addresses", JArray (token_address <$> st_Addresses req))] ++
    match st_Assets req with [] => [] | assets => [("assets", JArray (JString <$> assets))] end).

Definition check_addresses (addresses : list SessionTokenAddress) : option GoError :=
  foldr first_some None (imap (fun i a =>
    if String.eqb (TrimSpace (sa_Address a)) "" then Some (errors_New ("coinbase create session token: address " +:+ pretty (Z.of_nat i) +:+ " is empty"))
    else match sa_Blockchains a with
         | [] => Some (errors_New ("coinbase create session token: address " +:+ pretty (Z.of_nat i) +:+ " has no blockchains"))
         | _ => None
         end) addresses).

Definition CreateSessionToken (req : CreateSessionTokenRequest) : Run stop CreateSessionTokenResponse :=
  match st_Addresses req with
  | [] => failed (errors_New "coinbase create session token: at least one address is required")
  | addresses =>
      match check_addresses addresses with
      | Some e => failed e
      | None =>
          finish (on_error (wrap_stop "coinbase create session token: ")
                    (coinbase_doJSON "POST" createSessionTokenPath "" (Some (token_payload req)) decode_session_token))
            (fun '(token, channelID, snake) =>
              if String.eqb token "" then Err (Failed (plain (errors_New "coinbase create session token: missing token")))
              else Ok (mkTokenResponse token (if String.eqb channelID "" then snake else channelID)))
      end
  end.

Definition page_values (req : GetBuyTransactionsRequest) : Values :=
  let values := if 0 <? bt_PageSize req then values_Set "page_size" (pretty (bt_PageSize req)) ∅ else ∅ in
  setIfPresent "page_key" (bt_PageKey req) values.

Definition GetBuyTransactions (req : GetBuyTransactionsRequest) : Run stop GetBuyTransactionsResponse :=
  let partnerUserRef := TrimSpace (bt_PartnerUserRef req) in
  if String.eqb partnerUserRef "" then failed (errors_New "coinbase get buy transactions: partner user ref is required")
  else
    on_error (wrap_stop "coinbase get buy transactions: ")
      (coinbase_doJSON "GET" (buyTransactionsPath (PathEscape partnerUserRef)) (Encode (page_values req)) None decode_transactions).

Definition GetBuyConfig : Run stop (list BuyCountry) :=
  finish (on_error (wrap_stop "coinbase get buy config: ")
            (coinbase_doJSON "GET" buyConfigPath "" None (field (d_slice decode_country) None "countries")))
    (fun countries => match countries with Some l => Ok l | None => Err (Failed (plain (errors_New "coinbase get buy config: missing countries"))) end).

Definition GetBuyOptions (req : GetBuyOptionsRequest) : Run stop GetBuyOptionsResponse :=
  let country := ToUpper (TrimSpace (bo_Country req)) in
  let subdivision := ToUpper (TrimSpace (bo_Subdivision req)) in
  if negb (slen country =? 2)%nat || (String.eqb country "US" && String.eqb subdivision "") then
    failed (errors_New "coinbase get buy options: country and US subdivision are required")
  else
    let query := values_Set "country" country ∅ in
    let query := if String.eqb subdivision "" then query else values_Set "subdivision" subdivision query in
    finish (on_error (wrap_stop "coinbase get buy options: ") (coinbase_doJSON "GET" buyOptionsPath (Encode query) None decode_options))
      (fun out => match out with
                  | (Some payment, Some purchase) => Ok (mkBuyOptions payment purchase)
                  | _ => Err (Failed (plain (errors_New "coinbase get buy options: missing currency lists")))
                  end).

(** The text of the addresses' map, by address. *)
Definition addresses_json (addresses : gmap string (option (list string))) : json :=
  JObject ((fun kv => (kv.1, match kv.2 with None => JNull | Some l => JArray (JString <$> l) end)) <$>
             sort_stable (cmp_on fst String.compare) (map_to_list addresses)).

Definition buy_values (sessionToken : string) (req : BuildBuyURLRequest) : Values :=
  let values := values_Set "sessionToken" sessionToken ∅ in
  let values := if String.eqb (cc_projectID c) "" then values else values_Set "appId" (cc_projectID c) values in
  let values := setIfPresent "partnerUserRef" (bu_PartnerUserRef req) values in
  let values := setIfPresent "presetFiatAmount" (bu_PresetFiatAmount req) values in
  let values := setIfPresent "fiatCurrency" (bu_FiatCurrency req) values in
  let values := setIfPresent "defaultPaymentMethod" (bu_DefaultPaymentMethod req) values in
  let values := setIfPresent "redirectUrl" (bu_RedirectURL req) values in
  let values := if decide (bu_Addresses req = ∅) then values else values_Set "addresses" (json_Marshal (addresses_json (bu_Addresses req))) values in
  match bu_Assets req with [] => values | assets => values_Set "assets" (json_Marshal (JArray (JString <$> assets))) values end.

Definition BuildBuyURL (req : BuildBuyURLRequest) : result GoError string :=
  let sessionToken := TrimSpace (bu_SessionToken req) in
  if String.eqb sessionToken "" then Err (errors_New "coinbase build buy url: session token is required")
  else match url_SetRawQuery (cc_buyBaseURL c) (Encode (buy_values sessionToken req)) with
       | Err e => Err (Errorf_w "coinbase build buy url: " e "")
       | Ok text => Ok text
       end.
End coinbase.
