(* ===== verification/Dex.v ===== *)
(** * Swap aggregators (providers/oneinch, kyberswap, openocean; utils/constants)

    Quotes and executable swaps of the three aggregators: the native token's
    spellings, the requests, what of an answer is accepted, and the least amount a
    caller is told to expect. *)
From Stdlib Require Import Ascii Strings.Byte SpecFloat.
From S2P Require Import HttpClient.
From S2P Require Export Json Exchange Query Calendar Units Abi.
Local Open Scope Z_scope.
Local Open Scope go_scope.

(** [common.FromHex] of go-ethereum. *)
Class GethHex := { FromHex : string -> bytes }.

(** ** Integers in other bases ([math/big]) *)

Definition letter_value (c : Ascii.ascii) : Z :=
  let n := Z.of_N (byte_N c) in
  if is_digit c then n - 48 else if byte_in 97 122 c then n - 87 else if byte_in 65 90 c then n - 55 else 36.

(** The digits to the end, the last one seen being an underscore or not; with
    [sep] an underscore may follow a digit or the prefix. *)
Fixpoint scan_base (sep : bool) (base acc : Z) (count : nat) (after : bool) (s : string) : option (Z * nat) :=
  match s with
  | "" => Some (acc, count)
  | String c s =>
      if sep && Ascii.eqb c "_"%char then
        if after then match s with "" => None | _ => scan_base sep base acc count false s end else None
      else if letter_value c <? base then scan_base sep base (acc * base + letter_value c) (S count) true s else None
  end.

Definition cut_number_sign (s : string) : bool * string :=
  match s with
  | String c s' => if Ascii.eqb c "-"%char then (true, s') else if Ascii.eqb c "+"%char then (false, s') else (false, s)
  | "" => (false, s)
  end.
Definition signed (neg : bool) (n : Z) : Z := if neg then - n else n.

(** [SetString(s, 16)] *)
Definition SetString16 (s : string) : option Z :=
  let '(neg, s) := cut_number_sign s in
  '(n, count) ← scan_base false 16 0 0 true s;
  if (count =? 0)%nat then None else Some (signed neg n).

Definition base_prefix (c : Ascii.ascii) : option Z :=
  if Ascii.eqb c "b"%char || Ascii.eqb c "B"%char then Some 2
  else if Ascii.eqb c "o"%char || Ascii.eqb c "O"%char then Some 8
  else if Ascii.eqb c "x"%char || Ascii.eqb c "X"%char then Some 16 else None.

(** [SetString(s, 0)]: the base is the prefix's. *)
Definition SetString0 (s : string) : option Z :=
  let '(neg, s) := cut_number_sign s in
  let some_digits r := match r with Some (n, count) => if (count =? 0)%nat then None else Some (signed neg n) | None => None end in
  match s with
  | String c s1 =>
      if Ascii.eqb c "0"%char then
        match s1 with
        | "" => Some 0
        | String d s2 =>
            match base_prefix d with
            | Some base => some_digits (scan_base true base 0 0 true s2)
            | None => some_digits (scan_base true 8 0 0 true s1)
            end
        end
      else some_digits (scan_base true 10 0 0 false s)
  | "" => None
  end.

Example SetString0_spellings : (SetString0 <$> ["0x1F"; "-0b11"; "017"; "1_000"; "0_7"; "0x_f"; "0x"; "08"; "1__0"; "_1"; "1_"; "0"]) =
  [Some 31; Some (-3); Some 15; Some 1000; Some 7; Some 15; None; None; None; None; None; Some 0].
Proof. reflexivity. Qed.

Definition parsePositiveDecimalBigInt (field value : string) : result GoError Z :=
  match SetString10 value with
  | Some n => if n <=? 0 then Err (errors_New ("failed to parse " +:+ field +:+ ": " +:+ value)) else Ok n
  | None => Err (errors_New ("failed to parse " +:+ field +:+ ": " +:+ value))
  end.

Definition parseDecimalOrHexBigInt (input : string) : option Z :=
  if HasPrefix input "0x" || HasPrefix input "0X" then SetString16 (sdrop 2 input) else SetString10 input.

(** ** Tokens (utils/constants) *)

Definition MaticChainID : Z := 137.
Definition MainnetChainID : Z := 1.
Definition BscChainID : Z := 56.
Definition BaseChainID : Z := 8453.
Definition OptimismChainID : Z := 10.
Definition ArbitrumChainID : Z := 42161.
Definition UnichainChainID : Z := 130.
Definition SonicChainID : Z := 146.
Definition AvalancheChainID : Z := 43114.
Definition HyperEvmChainID : Z := 999.
Definition LineaChainID : Z := 59144.
Definition MantleChainID : Z := 5000.
Definition BeraChainID : Z := 80094.
Definition RobinhoodChainID : Z := 4663.
Definition ArcChainID : Z := 5042.
Definition WorldChainID : Z := 480.
Definition BoBChainID : Z := 60808.
Definition GnosisChainID : Z := 100.
Definition PlumeChainID : Z := 98866.
Definition FlareChainID : Z := 14.
Definition StableChainID : Z := 988.
Definition KatanaChainID : Z := 747474.

Section tokens.
Context `{G : GoEthereum} `{AB : !Abi} `{HA : HexAddress}.
#[local] Existing Instance Address_eq_dec.

Definition nullAddress : Address := HexToAddress "0x0000000000000000000000000000000000000000".
Definition nativeToken : Address := HexToAddress "0xeeeeeeeeeeeeeeeeeeeeeeeeeeeeeeeeeeeeeeee".

(** The type parameter of [IsNativeToken] and [IsNullAddress]. *)
Inductive token_arg := TokenAddress (a : Address) | TokenText (s : string) | TokenBytes (b : bytes).

Definition parseHexAddress (s : string) : option Address :=
  let s := TrimSpace s in if IsHexAddress s then Some (HexToAddress s) else None.
Definition token_address (v : token_arg) : option Address :=
  match v with TokenAddress a => Some a | TokenText s => parseHexAddress s | TokenBytes b => Some (BytesToAddress b) end.

Definition IsNativeToken (v : token_arg) : bool :=
  match token_address v with Some a => bool_decide (a = nativeToken) || bool_decide (a = nullAddress) | None => false end.
Definition IsNullAddress (v : token_arg) : bool :=
  match token_address v with Some a => bool_decide (a = nullAddress) | None => false end.
Definition ChecksumAddress (rawAddress : string) : string := Address_Hex (HexToAddress rawAddress).
End tokens.

(** ** What the three clients share *)

(** What a client's [Do] meets: an error, with the transport's in it if any. *)
Record DoError := mkDoError { do_err : GoError; do_http : option HttpError }.
Record dex_reply := mkDexReply { dr_NewRequest : option GoError; dr_Do : result DoError HttpResponse }.
Definition do_status (e : DoError) : Z * string * bool := match do_http e with Some e => ResponseStatus e | None => (0, "", false) end.

(** One request, and what is made of its reply. *)
Definition ask {A} (answers : nat -> dex_reply) (req : Request) (read : dex_reply -> result GoError A) : Run GoError A := fun log =>
  (read (answers (length log)), log ++ [req]).

Lemma makes_ask {A} P answers req (read : dex_reply -> result GoError A) : P req -> makes P (ask answers req read).
Proof. intros H log. exists [req]. split; [done|by apply Forall_singleton]. Qed.

(** The client: injected, or built with a transport and a timeout. *)
Inductive dex_http := Injected | Built (config : Transport * Z).

Definition first_error_bytes (resp : HttpResponse) : string := stake 512 (hr_Body resp).

(** [fmt.Sprintf("%f", f)] *)
Definition percent_f (f : float64) : string :=
  match fixed6 f, f with Some s, _ => s | None, S754_infinity true => "-Inf" | None, S754_infinity false => "+Inf" | None, _ => "NaN" end.

(** ** 1inch *)

Definition oneInchBaseURL : string := "https://api.1inch.dev".
Definition authHeader : string := "Authorization".

Record SwapToken := mkSwapToken { ti_Address : string; ti_Symbol : string; ti_Name : string; ti_Decimals : Z; ti_LogoURI : string }.

Section oneinch.
Context `{G : GoEthereum} `{AB : !Abi} `{HA : HexAddress} `{JE : JsonErrors} `{JB : JsonBody} `{GH : GethHex}.
#[local] Existing Instance Address_eq_dec.

Record QuoteRequest := mkQuoteRequest {
  qr_ChainID : Z; qr_FromToken : Address; qr_ToToken : Address; qr_Amount : option Z; qr_Slippage : float64 }.
Record Quote := mkQuote {
  q_DstAmount : Z; q_ToAmountMin : Z; q_SrcToken : SwapToken; q_DstToken : SwapToken; q_Gas : Z; q_Router : Address; q_ChainID : Z;
  q_FromToken : Address; q_ToToken : Address; q_FromAmount : Z; q_Slippage : float64 }.
Record SwapRequest := mkSwapRequest {
  sw_ChainID : Z; sw_FromToken : Address; sw_ToToken : Address; sw_Amount : option Z; sw_FromAddress : Address; sw_ToAddress : Address;
  sw_Slippage : float64 }.
Record oneInch_Transaction := mkOneInchTx { t_From : string; t_To : Address; t_Data : bytes; t_Value : Z; t_Gas : Z; t_GasPrice : string }.
Record Swap := mkSwap { s_DstAmount : Z; s_ToAmountMin : Z; s_Tx : oneInch_Transaction; s_Protocols : list string }.

Record oneInch := mkOneInch {
  oi_apiKey : string; oi_baseURL : string; oi_client : option dex_http; oi_sourceBlacklist : list string; oi_routers : gmap Z Address;
  oi_timeout : option Z; oi_maxRetries : option Z; oi_retryDelay : option Z }.
Definition oneInch_Option : Type := oneInch -> oneInch.
Definition trim_base (baseURL : string) : string := trim_right (Ascii.eqb "/"%char) (TrimSpace baseURL).
Definition oneInch_WithBaseURL (baseURL : string) : oneInch_Option := fun o =>
  let baseURL := trim_base baseURL in
  if String.eqb baseURL "" then o
  else mkOneInch (oi_apiKey o) baseURL (oi_client o) (oi_sourceBlacklist o) (oi_routers o) (oi_timeout o) (oi_maxRetries o) (oi_retryDelay o).
Definition oneInch_WithHTTPClient (client : bool) : oneInch_Option := fun o =>
  if client then mkOneInch (oi_apiKey o) (oi_baseURL o) (Some Injected) (oi_sourceBlacklist o) (oi_routers o) (oi_timeout o) (oi_maxRetries o) (oi_retryDelay o) else o.
Definition WithSourceBlacklist (sourceBlacklist : list string) : oneInch_Option := fun o =>
  mkOneInch (oi_apiKey o) (oi_baseURL o) (oi_client o) sourceBlacklist (oi_routers o) (oi_timeout o) (oi_maxRetries o) (oi_retryDelay o).
Definition WithRouters (routers : gmap Z Address) : oneInch_Option := fun o =>
  mkOneInch (oi_apiKey o) (oi_baseURL o) (oi_client o) (oi_sourceBlacklist o) routers (oi_timeout o) (oi_maxRetries o) (oi_retryDelay o).
Definition oneInch_WithTimeout (timeout : Z) : oneInch_Option := fun o =>
  mkOneInch (oi_apiKey o) (oi_baseURL o) (oi_client o) (oi_sourceBlacklist o) (oi_routers o) (Some timeout) (oi_maxRetries o) (oi_retryDelay o).
Definition oneInch_WithRetry (maxRetries retryDelay : Z) : oneInch_Option := fun o =>
  mkOneInch (oi_apiKey o) (oi_baseURL o) (oi_client o) (oi_sourceBlacklist o) (oi_routers o) (oi_timeout o) (Some maxRetries) (Some retryDelay).

Definition oneInch_http (o : oneInch) : dex_http :=
  let builder := SetAuth authHeader ("Bearer " +:+ oi_apiKey o) (SetRetry 0 (10 * nanosPerSecond) NewClientBuilder) in
  let builder := match oi_timeout o with Some d => SetTimeout d builder | None => builder end in
  Built (BuildClient match oi_maxRetries o, oi_retryDelay o with Some n, Some d => SetRetry n d builder | _, _ => builder end).

Definition oneInch_New (apiKey : string) (opts : list (option oneInch_Option)) : result GoError oneInch :=
  let apiKey := TrimSpace apiKey in
  if String.eqb apiKey "" then Err (errors_New "oneinch: apiKey is required")
  else
    let o := foldl (fun o f => match f with Some f => f o | None => o end) (mkOneInch apiKey oneInchBaseURL None [] ∅ None None None) opts in
    Ok (match oi_client o with
        | Some _ => o
        | None => mkOneInch (oi_apiKey o) (oi_baseURL o) (Some (oneInch_http o)) (oi_sourceBlacklist o) (oi_routers o) (oi_timeout o) (oi_maxRetries o) (oi_retryDelay o)
        end).

(** *** Answers (types.go) *)

Definition decode_token_info (raw : json) : result GoError SwapToken :=
  let? address := f_string "address" raw in
  let? symbol := f_string "symbol" raw in
  let? name := f_string "name" raw in
  let? decimals := f_int "decimals" raw in
  let? logo := f_string "logoURI" raw in
  Ok (mkSwapToken address symbol name decimals logo).

(** The quote's own fields. *)
Definition Quote_UnmarshalJSON (data : json) : result GoError (Z * SwapToken * SwapToken * Z) :=
  let? amount := f_string "dstAmount" data in
  let? src := f_struct decode_token_info "srcToken" data in
  let? dst := f_struct decode_token_info "dstToken" data in
  let? gas := f_int "gas" data in
  let? dstAmount := parsePositiveDecimalBigInt "dstAmount" amount in
  Ok (dstAmount, src, dst, gas).

Definition decode_protocols (raw : json) : result GoError (list string) :=
  let? l := f_list (d_list (d_list (f_string "name") []) []) "protocols" raw in Ok (concat (concat l)).

(** The swap, its least amount to be set by the caller. *)
Definition Swap_UnmarshalJSON (data : json) : result GoError (Z * oneInch_Transaction * list string) :=
  let? amount := f_string "dstAmount" data in
  let? tx := f_struct (fun raw =>
    let? from := f_string "from" raw in
    let? to := f_string "to" raw in
    let? input := f_string "data" raw in
    let? value := f_string "value" raw in
    let? gas := f_int "gas" raw in
    let? gasPrice := f_string "gasPrice" raw in
    Ok (from, to, input, value, gas, gasPrice)) "tx" data in
  let? protocols := decode_protocols data in
  let '(from, to, input, value, gas, gasPrice) := tx in
  let? dstAmount := parsePositiveDecimalBigInt "dstAmount" amount in
  match parseDecimalOrHexBigInt value with
  | None => Err (errors_New ("failed to parse value: " +:+ value))
  | Some v => Ok (dstAmount, mkOneInchTx from (HexToAddress to) (FromHex input) v gas gasPrice, protocols)
  end.

(** *** Requests *)

Definition oneInchTokenAddress (token : Address) : Address := if IsNullAddress (TokenAddress token) then nativeToken else token.
Definition validateSwapTokens (fromToken toToken : Address) : option GoError :=
  if bool_decide (oneInchTokenAddress fromToken = oneInchTokenAddress toToken) then Some (errors_New "from and to tokens are the same") else None.

Variable answers : nat -> dex_reply.
Variable o : oneInch.

Definition oneInch_refused (operation : string) (status : Z) (body : string) : GoError :=
  let body := TrimSpace body in
  let text := operation +:+ " API returned status " +:+ pretty status in
  errors_New (if String.eqb body "" then text else text +:+ ": " +:+ body).

Definition oneInch_getJSON {A} (path operation : string) (decode : json -> result GoError A) : Run GoError A :=
  ask answers (mkRequest "GET" (oi_baseURL o +:+ path) ∅ "") (fun a =>
    match dr_NewRequest a with
    | Some e => Err (Errorf_w ("failed to create " +:+ operation +:+ " request: ") e "")
    | None =>
        match dr_Do a with
        | Err e =>
            let '(status, body, ok) := do_status e in
            if (ok : bool) then Err (oneInch_refused operation status body) else Err (Errorf_w ("failed to get " +:+ operation +:+ ": ") (do_err e) "")
        | Ok resp =>
            if negb (success (hr_Status resp)) then Err (oneInch_refused operation (hr_Status resp) (first_error_bytes resp))
            else match (let? v := json_decode (hr_Body resp) (hr_BodyErr resp) in decode v) with
                 | Err e => Err (Errorf_w ("failed to decode " +:+ operation +:+ " response: ") e "")
                 | Ok out => Ok out
                 end
        end
    end).

Definition GetRouter (chainID : Z) : Address := default address_zero (oi_routers o !! chainID).

(** The chains with a router, ascending. *)
Definition oneInch_SupportedChains : list Z :=
  sort_stable Z.compare ((fun kv => kv.1) <$> List.filter (fun kv => negb (IsNullAddress (TokenAddress kv.2))) (map_to_list (oi_routers o))).

Definition positive_amount (amount : option Z) : result GoError Z :=
  match amount with
  | Some n => if n <=? 0 then Err (errors_New "amount must be greater than zero") else Ok n
  | None => Err (errors_New "amount must be greater than zero")
  end.

Definition swap_path (chainID : Z) (action : string) (v : Values) : string := "/swap/v6.0/" +:+ pretty chainID +:+ "/" +:+ action +:+ "?" +:+ Encode v.

Definition quote_values (req : QuoteRequest) (amount : Z) : Values :=
  values_Set "includeGas" "true" (values_Set "includeTokensInfo" "true" (values_Set "excludedProtocols" (strings_Join "," (oi_sourceBlacklist o))
    (values_Set "amount" (big_String amount) (values_Set "dst" (Address_Hex (oneInchTokenAddress (qr_ToToken req)))
      (values_Set "src" (Address_Hex (oneInchTokenAddress (qr_FromToken req))) ∅))))).

Definition GetQuote (req : QuoteRequest) : Run GoError Quote :=
  match validateSwapTokens (qr_FromToken req) (qr_ToToken req), positive_amount (qr_Amount req) with
  | Some e, _ | None, Err e => fail e
  | None, Ok amount =>
      finish (oneInch_getJSON (swap_path (qr_ChainID req) "quote" (quote_values req amount)) "1inch quote" Quote_UnmarshalJSON)
        (fun '(dstAmount, src, dst, gas) =>
          Ok (mkQuote dstAmount (ScaleByPercent (Some dstAmount) (SFopp (qr_Slippage req))) src dst gas (GetRouter (qr_ChainID req)) (qr_ChainID req)
                (qr_FromToken req) (qr_ToToken req) amount (qr_Slippage req)))
  end.

Definition swap_values (req : SwapRequest) (amount : Z) : Values :=
  values_Set "usePatching" "true" (values_Set "includeProtocols" "true" (values_Set "disableEstimate" "true"
    (values_Set "excludedProtocols" (strings_Join "," (oi_sourceBlacklist o)) (values_Set "receiver" (Address_Hex (sw_ToAddress req))
      (values_Set "slippage" (percent_f (sw_Slippage req)) (values_Set "origin" (Address_Hex (sw_FromAddress req))
        (values_Set "from" (Address_Hex (sw_FromAddress req)) (values_Set "amount" (big_String amount)
          (values_Set "dst" (Address_Hex (oneInchTokenAddress (sw_ToToken req)))
            (values_Set "src" (Address_Hex (oneInchTokenAddress (sw_FromToken req))) ∅)))))))))).

Definition oneInch_GetSwap (req : SwapRequest) : Run GoError Swap :=
  match validateSwapTokens (sw_FromToken req) (sw_ToToken req), positive_amount (sw_Amount req) with
  | Some e, _ | None, Err e => fail e
  | None, Ok amount =>
      if IsNullAddress (TokenAddress (sw_FromAddress req)) then fail (errors_New "from address is not set")
      else if IsNullAddress (TokenAddress (sw_ToAddress req)) then fail (errors_New "to address is not set")
      else
        finish (oneInch_getJSON (swap_path (sw_ChainID req) "swap" (swap_values req amount)) "1inch swap" Swap_UnmarshalJSON)
          (fun '(dstAmount, tx, protocols) => Ok (mkSwap dstAmount (ScaleByPercent (Some dstAmount) (SFopp (sw_Slippage req))) tx protocols))
  end.
End oneinch.

(** ** KyberSwap *)

Definition kyberswapBaseURL : string := "https://aggregator-api.kyberswap.com".
Definition clientIDHeader : string := "x-client-id".
Definition chainIDToName : list (Z * string) := [
  (MainnetChainID, "ethereum"); (BscChainID, "bsc"); (ArbitrumChainID, "arbitrum"); (MaticChainID, "polygon"); (OptimismChainID, "optimism");
  (AvalancheChainID, "avalanche"); (BaseChainID, "base"); (LineaChainID, "linea"); (MantleChainID, "mantle"); (SonicChainID, "sonic");
  (BeraChainID, "berachain"); (UnichainChainID, "unichain"); (HyperEvmChainID, "hyperevm"); (RobinhoodChainID, "robinhood"); (ArcChainID, "arc")].

Definition chainToName (chainID : Z) : result GoError string :=
  match List.find (fun kv => kv.1 =? chainID) chainIDToName with
  | Some kv => Ok kv.2
  | None => Err (errors_New ("unsupported chain ID " +:+ pretty chainID +:+ " for kyberswap"))
  end.
(** In some order. *)
Definition kyber_SupportedChains : list Z := fst <$> chainIDToName.

Record kyberswap := mkKyberswap { ks_clientID : string; ks_baseURL : string; ks_client : option dex_http }.
Definition kyber_Option : Type := kyberswap -> kyberswap.
Definition kyber_WithBaseURL (baseURL : string) : kyber_Option := fun k =>
  let baseURL := trim_base baseURL in if String.eqb baseURL "" then k else mkKyberswap (ks_clientID k) baseURL (ks_client k).
Definition kyber_WithHTTPClient (client : bool) : kyber_Option := fun k => if client then mkKyberswap (ks_clientID k) (ks_baseURL k) (Some Injected) else k.
Definition WithClientID (clientID : string) : kyber_Option := fun k => mkKyberswap (TrimSpace clientID) (ks_baseURL k) (ks_client k).

Definition kyber_New (opts : list (option kyber_Option)) : kyberswap :=
  let k := foldl (fun k f => match f with Some f => f k | None => k end) (mkKyberswap "" kyberswapBaseURL None) opts in
  match ks_client k with
  | Some _ => k
  | None =>
      let builder := SetRetry 0 (10 * nanosPerSecond) NewClientBuilder in
      let builder := if String.eqb (ks_clientID k) "" then builder else SetAuth clientIDHeader (ks_clientID k) builder in
      mkKyberswap (ks_clientID k) (ks_baseURL k) (Some (Built (BuildClient builder)))
  end.

Record RouteRequest := mkRouteRequest {
  rr_ChainID : Z; rr_TokenIn : string; rr_TokenOut : string; rr_AmountIn : string; rr_ExcludedSources : list string; rr_OnlyScalableSources : bool }.
Record Route := mkRoute { rt_RouteSummary : json; rt_RouterAddress : string }.
(** The summary is a JSON value; [None] is the nil one. *)
Record BuildRequest := mkBuildRequest {
  br_ChainID : Z; br_RouteSummary : option json; br_Sender : string; br_Recipient : string; br_SlippageTolerance : Z }.

Section kyberswap.
Context `{G : GoEthereum} `{AB : !Abi} `{HA : HexAddress} `{JE : JsonErrors} `{JB : JsonBody} `{GH : GethHex} `{U : UnicodeTables}.

Record Build := mkBuild { b_AmountOut : Z; b_AmountOutMin : Z; b_TxData : bytes; b_RouterAddress : Address; b_TransactionValue : Z }.
Definition with_AmountOutMin (b : Build) (amount : Z) : Build := mkBuild (b_AmountOut b) amount (b_TxData b) (b_RouterAddress b) (b_TransactionValue b).

Definition parse_transactionValue (text : string) : result GoError Z :=
  if String.eqb text "" then Ok 0
  else match SetString10 text with
       | Some n => Ok n
       | None => match SetString0 text with Some n => Ok n | None => Err (errors_New ("failed to parse transactionValue: " +:+ text)) end
       end.

Definition Build_UnmarshalJSON (data : json) : result GoError Build :=
  let? amount := f_string "amountOut" data in
  let? input := f_string "data" data in
  let? router := f_string "routerAddress" data in
  let? value := f_string "transactionValue" data in
  let? amountOut := parsePositiveDecimalBigInt "amountOut" amount in
  match FromHex input with
  | [] => Err (errors_New "empty tx data in build response")
  | txData => let? txValue := parse_transactionValue value in Ok (mkBuild amountOut 0 txData (HexToAddress router) txValue)
  end.

(** Code, message, and the summary and router of the data. *)
Definition decode_route (raw : json) : result GoError (Z * string * (option json * string)) :=
  let? code := f_int "code" raw in
  let? message := f_string "message" raw in
  let? data := f_struct (fun raw =>
    let? summary := field d_raw None "routeSummary" raw in
    let? router := f_string "routerAddress" raw in
    Ok (summary, router)) "data" raw in
  Ok (code, message, data).

Definition decode_build (raw : json) : result GoError (Z * string * option Build) :=
  let? code := f_int "code" raw in
  let? message := f_string "message" raw in
  let? data := field (d_pointer (d_custom Build_UnmarshalJSON) (mkBuild 0 0 [] address_zero 0)) None "data" raw in
  Ok (code, message, data).

(** The native token has one spelling here. *)
Definition kyberTokenAddress (token : string) : string :=
  let token := TrimSpace token in
  if IsHexAddress token && IsNativeToken (TokenText token) then Address_Hex nativeToken else token.

Variable answers : nat -> dex_reply.
Variable k : kyberswap.

Definition kyber_headers (body : bool) : Header :=
  let h := if body then header_Set "Content-Type" "application/json" ∅ else ∅ in
  if String.eqb (ks_clientID k) "" then h else header_Set clientIDHeader (ks_clientID k) h.

Definition kyber_doJSON {A} (method path : string) (payload : option json) (decode : json -> result GoError A) : Run GoError A :=
  ask answers (mkRequest method path (kyber_headers (bool_decide (is_Some payload))) (from_option json_Marshal "" payload)) (fun a =>
    match dr_NewRequest a with
    | Some e => Err (Errorf_w "failed to create kyberswap request: " e "")
    | None =>
        match dr_Do a with
        | Err e => Err (do_err e)
        | Ok resp =>
            if negb (success (hr_Status resp)) then
              Err (errors_New ("kyberswap API returned status " +:+ pretty (hr_Status resp) +:+ ": " +:+ first_error_bytes resp))
            else match (let? v := json_decode (hr_Body resp) (hr_BodyErr resp) in decode v) with
                 | Err e => Err (Errorf_w "failed to decode kyberswap response: " e "")
                 | Ok out => Ok out
                 end
        end
    end).

Definition route_values (tokenIn tokenOut : string) (req : RouteRequest) : Values :=
  let v := values_Set "amountIn" (rr_AmountIn req) (values_Set "tokenOut" tokenOut (values_Set "tokenIn" tokenIn ∅)) in
  let v := match rr_ExcludedSources req with [] => v | l => values_Set "excludedSources" (strings_Join "," l) v end in
  if rr_OnlyScalableSources req then values_Set "onlyScalableSources" "true" v else v.

Definition GetRoute (req : RouteRequest) : Run GoError Route :=
  match chainToName (rr_ChainID req) with
  | Err e => fail e
  | Ok chainName =>
      let tokenIn := kyberTokenAddress (rr_TokenIn req) in
      let tokenOut := kyberTokenAddress (rr_TokenOut req) in
      if EqualFold tokenIn tokenOut then fail (errors_New "from and to tokens are the same")
      else
        finish (on_error (fun e => Errorf_w "failed to get kyberswap route: " e "")
          (kyber_doJSON "GET" (ks_baseURL k +:+ "/" +:+ chainName +:+ "/api/v1/routes?" +:+ Encode (route_values tokenIn tokenOut req)) None decode_route))
          (fun '(code, message, (summary, router)) =>
            if negb (code =? 0) then Err (errors_New ("kyberswap route API error (code " +:+ pretty code +:+ "): " +:+ message))
            else match summary with
                 | None | Some JNull =>
                     Err (errors_New ("kyberswap returned no route for " +:+ rr_TokenIn req +:+ " to " +:+ rr_TokenOut req +:+ " on chain " +:+ pretty (rr_ChainID req)))
                 | Some summary => Ok (mkRoute summary router)
                 end)
  end.

Definition build_payload (req : BuildRequest) : json :=
  JObject [("routeSummary", default JNull (br_RouteSummary req)); ("sender", JString (br_Sender req)); ("recipient", JString (br_Recipient req));
    ("slippageTolerance", JNumber (pretty (br_SlippageTolerance req)))].

Definition BuildRoute (req : BuildRequest) : Run GoError Build :=
  match chainToName (br_ChainID req) with
  | Err e => fail e
  | Ok chainName =>
      let slippage := br_SlippageTolerance req in
      if (slippage <? 0) || (BpsBase <? slippage) then
        fail (errors_New ("slippage tolerance " +:+ pretty slippage +:+ " bps is outside [0, " +:+ pretty BpsBase +:+ "]"))
      else
        finish (on_error (fun e => Errorf_w "failed to build kyberswap route: " e "")
          (kyber_doJSON "POST" (ks_baseURL k +:+ "/" +:+ chainName +:+ "/api/v1/route/build") (Some (build_payload req)) decode_build))
          (fun '(code, message, data) =>
            if negb (code =? 0) then Err (errors_New ("kyberswap build API error (code " +:+ pretty code +:+ "): " +:+ message))
            else match data with
                 | None => Err (errors_New "kyberswap build response missing data")
                 | Some b => Ok (with_AmountOutMin b (ApplySlippageBps (Some (b_AmountOut b)) slippage))
                 end)
  end.
End kyberswap.

(** ** OpenOcean *)

Definition openOceanBaseURL : string := "https://open-api-pro.openocean.finance".
Definition openocean_apiKeyHeader : string := "apikey".

Record openOcean := mkOpenOcean { oo_apiKey : string; oo_baseURL : string; oo_client : option dex_http }.
Definition openOcean_Option : Type := openOcean -> openOcean.
Definition openOcean_WithBaseURL (baseURL : string) : openOcean_Option := fun o =>
  let baseURL := trim_base baseURL in if String.eqb baseURL "" then o else mkOpenOcean (oo_apiKey o) baseURL (oo_client o).
Definition openOcean_WithHTTPClient (client : bool) : openOcean_Option := fun o => if client then mkOpenOcean (oo_apiKey o) (oo_baseURL o) (Some Injected) else o.

Definition openOcean_New (apiKey : string) (opts : list (option openOcean_Option)) : result GoError openOcean :=
  let apiKey := TrimSpace apiKey in
  if String.eqb apiKey "" then Err (errors_New "openocean: apiKey is required")
  else
    let o := foldl (fun o f => match f with Some f => f o | None => o end) (mkOpenOcean apiKey openOceanBaseURL None) opts in
    Ok (match oo_client o with
        | Some _ => o
        | None => mkOpenOcean (oo_apiKey o) (oo_baseURL o)
                    (Some (Built (BuildClient (SetAuth openocean_apiKeyHeader (oo_apiKey o) (SetRetry 0 (10 * nanosPerSecond) NewClientBuilder)))))
        end).

Record openOcean_SwapRequest := mkOceanRequest {
  os_ChainID : Z; os_InTokenAddress : string; os_OutTokenAddress : string; os_AmountDecimals : string; os_Slippage : string; os_SlippageBps : Z;
  os_Account : string; os_EnabledDexIDs : string; os_GasPriceDecimals : string; os_Referrer : string }.

(** Whole per cents, then one or two digits of hundredths. *)
Definition SlippageBpsToPercent (bps : Z) : string :=
  let whole := Z.quot bps 100 in
  let fraction := Z.rem bps 100 in
  if fraction =? 0 then pretty whole
  else if Z.rem fraction 10 =? 0 then pretty whole +:+ "." +:+ pretty (Z.quot fraction 10)
  else pretty whole +:+ "." +:+ (if (slen (pretty fraction) <? 2)%nat then "0" +:+ pretty fraction else pretty fraction).

Section openocean.
Context `{G : GoEthereum} `{AB : !Abi} `{HA : HexAddress} `{JE : JsonErrors} `{JB : JsonBody} `{GH : GethHex} `{U : UnicodeTables}.
#[local] Existing Instance Address_eq_dec.

Record openOcean_Swap := mkOceanSwap {
  ow_AmountIn : Z; ow_AmountOut : Z; ow_MinAmountOut : Z; ow_TxData : bytes; ow_RouterAddress : Address; ow_TransactionValue : Z; ow_ChainID : Z }.

Definition openOcean_Swap_UnmarshalJSON (data : json) : result GoError openOcean_Swap :=
  let? inAmount := f_string "inAmount" data in
  let? outAmount := f_string "outAmount" data in
  let? minOutAmount := f_string "minOutAmount" data in
  let? to := f_string "to" data in
  let? value := f_string "value" data in
  let? input := f_string "data" data in
  let? chainID := f_uint 64 "uint64" "chainId" data in
  let? amountIn := parsePositiveDecimalBigInt "inAmount" inAmount in
  let? amountOut := parsePositiveDecimalBigInt "outAmount" outAmount in
  let? minAmountOut := parsePositiveDecimalBigInt "minOutAmount" minOutAmount in
  match FromHex input with
  | [] => Err (errors_New "empty tx data in OpenOcean swap response")
  | txData =>
      if negb (IsHexAddress to) || bool_decide (HexToAddress to = address_zero) then
        Err (errors_New ("empty router in OpenOcean swap response: " +:+ strconv_Quote to))
      else
        match (if String.eqb value "" then Some 0 else parseDecimalOrHexBigInt value) with
        | None => Err (errors_New ("failed to parse value: " +:+ value))
        | Some txValue => Ok (mkOceanSwap amountIn amountOut minAmountOut txData (HexToAddress to) txValue chainID)
        end
  end.

Definition decode_ocean (raw : json) : result GoError (Z * string * option openOcean_Swap) :=
  let? code := f_int "code" raw in
  let? message := f_string "message" raw in
  let? data := field (d_pointer (d_custom openOcean_Swap_UnmarshalJSON) (mkOceanSwap 0 0 0 [] address_zero 0 0)) None "data" raw in
  Ok (code, message, data).

(** The native token is the zero address here. *)
Definition openOceanTokenAddress (token : string) : string :=
  let token := TrimSpace token in
  if IsHexAddress token && IsNativeToken (TokenText token) then Address_Hex nullAddress else token.

Variable answers : nat -> dex_reply.
Variable o : openOcean.

Definition ocean_slippage (req : openOcean_SwapRequest) : string :=
  if String.eqb (os_Slippage req) "" && (0 <? os_SlippageBps req) then SlippageBpsToPercent (os_SlippageBps req) else os_Slippage req.

Definition ocean_values (inToken outToken : string) (req : openOcean_SwapRequest) : Values :=
  let v := values_Set "gasPriceDecimals" (os_GasPriceDecimals req) (values_Set "enabledDexIds" (os_EnabledDexIDs req)
    (values_Set "account" (os_Account req) (values_Set "slippage" (ocean_slippage req) (values_Set "amountDecimals" (os_AmountDecimals req)
      (values_Set "outTokenAddress" outToken (values_Set "inTokenAddress" inToken (values_Set "chain" (pretty (os_ChainID req)) ∅))))))) in
  if String.eqb (os_Referrer req) "" then v else values_Set "referrer" (os_Referrer req) v.

Definition openOcean_GetSwap (req : openOcean_SwapRequest) : Run GoError openOcean_Swap :=
  let inToken := openOceanTokenAddress (os_InTokenAddress req) in
  let outToken := openOceanTokenAddress (os_OutTokenAddress req) in
  if negb (String.eqb inToken "") && EqualFold inToken outToken then fail (errors_New "from and to tokens are the same")
  else
    let h := if String.eqb (oo_apiKey o) "" then ∅ else header_Set openocean_apiKeyHeader (oo_apiKey o) ∅ in
    ask answers (mkRequest "GET" (oo_baseURL o +:+ "/v4/" +:+ pretty (os_ChainID req) +:+ "/swap?" +:+ Encode (ocean_values inToken outToken req)) h "") (fun a =>
      match dr_NewRequest a with
      | Some e => Err (Errorf_w "failed to create OpenOcean swap request: " e "")
      | None =>
          match dr_Do a with
          | Err e => Err (Errorf_w "failed to get OpenOcean swap quote: " (do_err e) "")
          | Ok resp =>
              if negb (success (hr_Status resp)) then
                Err (errors_New ("OpenOcean swap API returned status " +:+ pretty (hr_Status resp) +:+ ": " +:+ first_error_bytes resp))
              else
                match (let? v := json_decode (hr_Body resp) (hr_BodyErr resp) in decode_ocean v) with
                | Err e => Err (Errorf_w "failed to decode OpenOcean swap response: " e "")
                | Ok (code, message, data) =>
                    if negb (code =? 200) then Err (errors_New ("OpenOcean swap API error (code " +:+ pretty code +:+ "): " +:+ message))
                    else match data with
                         | None => Err (errors_New "OpenOcean swap response missing data")
                         | Some swap => Ok swap
                         end
                end
          end
      end).
End openocean.

(** ** What the swap aggregators' clients guarantee

    What a returned quote, route or swap satisfies whatever the service answers,
    and the text of a slippage. *)

(** ** The text of a slippage *)

Lemma pretty_digits n : 0 <= n -> all_digits (pretty n) = true /\ digits_value (pretty n) = n /\ pretty n <> "".
Proof. apply big_String_spec. Qed.

(** One or two digits of hundredths. *)
Lemma pretty_below_hundred n : 0 <= n < 100 -> slen (pretty n) = if n <? 10 then 1%nat else 2%nat.
Proof.
  intros H. assert (A : forallb (fun i => slen (pretty (Z.of_nat i)) =? (if (Z.of_nat i <? 10)%Z then 1 else 2))%nat (seq 0 100) = true) by (vm_compute; reflexivity).
  rewrite forallb_forall in A. specialize (A (Z.to_nat n)). rewrite Z2Nat.id in A by lia. apply Nat.eqb_eq, A, in_seq. lia.
Qed.

(** The percentage OpenOcean is sent is the basis points exactly: read with two decimals it gives them back. *)
Theorem SlippageBpsToPercent_exact bps (Hb : 0 <= bps) : Parse (SlippageBpsToPercent bps) 2 = Ok bps.
Proof.
  unfold SlippageBpsToPercent. rewrite Z.quot_div_nonneg, Z.rem_mod_nonneg by lia.
  pose proof (Z.div_mod bps 100 ltac:(lia)) as Hdm. pose proof (Z.mod_pos_bound bps 100 ltac:(lia)) as Hm.
  set (w := bps / 100) in *. set (f := bps mod 100) in *.
  destruct (pretty_digits w ltac:(lia)) as (W1 & W2 & W3).
  assert (Hparse : forall frac, frac <> "" -> all_digits frac = true -> (slen frac <= 2)%nat ->
    Parse (pretty w +:+ "." +:+ frac) 2 = Ok (w * 100 + digits_value frac * 10 ^ Z.of_nat (2 - slen frac))).
  { intros frac Hne Hd Hl. pose proof (Parse_digits false _ _ 2 W3 W1 Hd Hl) as H. cbv zeta in H. apply String.eqb_neq in Hne. rewrite Hne in H.
    etransitivity; [exact H|]. f_equal. rewrite !digits_value_app, digits_value_zeros, slen_app, slen_Repeat, W2.
    change (slen "0") with 1%nat. rewrite Nat.mul_1_r. replace (slen frac + (2 - slen frac))%nat with 2%nat by lia. change (10 ^ Z.of_nat 2) with 100. ring. }
  destruct (Z.eqb_spec f 0) as [Hf|Hf].
  - pose proof (Parse_digits false _ "" 2 W3 W1 eq_refl ltac:(cbn; lia)) as H. cbv zeta in H. cbn [String.eqb slen String.length Nat.sub] in H.
    etransitivity; [exact H|]. f_equal. rewrite digits_value_app, W2. change (10 ^ _) with 100. change (digits_value ("" +:+ Repeat "0" 2)) with 0. lia.
  - rewrite Z.rem_mod_nonneg, Z.quot_div_nonneg by lia. destruct (Z.eqb_spec (f mod 10) 0) as [Ht|Ht].
    + pose proof (Z.div_mod f 10 ltac:(lia)). assert (0 <= f / 10 < 10) by lia. destruct (pretty_digits (f / 10) ltac:(lia)) as (F1 & F2 & F3).
      pose proof (pretty_below_hundred (f / 10) ltac:(lia)) as Hl. replace (f / 10 <? 10) with true in Hl by lia.
      rewrite Hparse by (first [done|lia]). rewrite F2, Hl. change (10 ^ _) with 10. f_equal. lia.
    + destruct (pretty_digits f ltac:(lia)) as (F1 & F2 & F3). pose proof (pretty_below_hundred f ltac:(lia)) as Hl.
      destruct (Nat.ltb_spec (slen (pretty f)) 2) as [Hs|Hs].
      * assert (E : slen (pretty f) = 1%nat) by (destruct (f <? 10); lia).
        rewrite Hparse; [|done|by rewrite all_digits_app, F1|rewrite slen_app; cbn [slen String.length]; lia].
        rewrite digits_value_app, F2, slen_app, E. change (10 ^ Z.of_nat (2 - _)) with 1. change (digits_value "0") with 0. f_equal. lia.
      * assert (E : slen (pretty f) = 2%nat) by (destruct (f <? 10); lia).
        rewrite Hparse by (first [done|lia]). rewrite F2, E. change (10 ^ _) with 1. f_equal. lia.
Qed.

(** A negative number of basis points has no such text. *)
Lemma SlippageBpsToPercent_negative : SlippageBpsToPercent (-5) = "0.-5".
Proof. reflexivity. Qed.

(** ** What is returned *)

Section sound.
Context `{G : GoEthereum} `{AB : !Abi} `{HA : HexAddress} `{JE : JsonErrors} `{JB : JsonBody} `{GH : GethHex} `{U : UnicodeTables}.
Variable answers : nat -> dex_reply.

Lemma positive_Ok field value n : parsePositiveDecimalBigInt field value = Ok n -> 0 < n /\ SetString10 value = Some n.
Proof. unfold parsePositiveDecimalBigInt. destruct (SetString10 value) as [m|]; [|done]. destruct (Z.leb_spec m 0); [done|]. by intros [= <-]. Qed.

(** A decoded value comes of a decoder that accepted one. *)
Lemma oneInch_getJSON_Ok {A} o path operation (decode : json -> result GoError A) log x log' :
  oneInch_getJSON answers o path operation decode log = (Ok x, log') ->
  (exists v, decode v = Ok x) /\ log' = log ++ [mkRequest "GET" (oi_baseURL o +:+ path) ∅ ""].
Proof.
  unfold oneInch_getJSON, ask. intros [= E <-]. split; [|done]. destruct (dr_NewRequest _); [done|]. destruct (dr_Do _) as [resp|e].
  - destruct (success _); [|done]. cbn [negb] in E. destruct (json_decode _ _) as [v|]; [|done]. cbn in E. exists v. by destruct (decode v).
  - destruct (do_status e) as [[c b] ok]. by destruct ok.
Qed.

Lemma kyber_doJSON_Ok {A} k method path payload (decode : json -> result GoError A) log x log' :
  kyber_doJSON answers k method path payload decode log = (Ok x, log') -> exists v, decode v = Ok x.
Proof.
  unfold kyber_doJSON, ask. intros [= E <-]. destruct (dr_NewRequest _); [done|]. destruct (dr_Do _) as [resp|e]; [|done].
  destruct (success _); [|done]. cbn [negb] in E. destruct (json_decode _ _) as [v|]; [|done]. cbn in E. exists v. by destruct (decode v).
Qed.

Lemma Quote_positive v d src dst gas : Quote_UnmarshalJSON v = Ok (d, src, dst, gas) -> 0 < d.
Proof.
  unfold Quote_UnmarshalJSON. intros H. repeat (apply result_bind_Ok in H as (? & ? & H)). injection H as <- _ _ _. by eapply positive_Ok.
Qed.

Lemma Swap_positive v d tx protocols : Swap_UnmarshalJSON v = Ok (d, tx, protocols) -> 0 < d.
Proof.
  unfold Swap_UnmarshalJSON. intros H. apply result_bind_Ok in H as (amount & _ & H). apply result_bind_Ok in H as (t & _ & H).
  apply result_bind_Ok in H as (ps & _ & H). destruct t as [[[[[from to] input] value] gas] price].
  apply result_bind_Ok in H as (x & Hp & H). destruct (parseDecimalOrHexBigInt value); [|done]. injection H as <- _ _. by eapply positive_Ok.
Qed.

Lemma pointer_Ok {A} (u : json -> result GoError A) zero name raw x :
  field (d_pointer (d_custom u) zero) None name raw = Ok (Some x) -> exists v, u v = Ok x.
Proof.
  intros H. apply (field_last (fun v => match v with JNull => Ok None | v => let? y := u v in Ok (Some y) end)) in H.
  destruct raw; try by destruct H. destruct (last _) as [v|]; [|done]. exists v. destruct v; try done;
    by apply result_bind_Ok in H as (y & Hy & [= <-]).
Qed.

Definition tx_ready (value : bytes) : Prop := value <> [].

Lemma decode_build_ready v code message b : decode_build v = Ok (code, message, Some b) -> 0 < b_AmountOut b /\ tx_ready (b_TxData b).
Proof.
  unfold decode_build. intros H. do 3 (apply result_bind_Ok in H as (? & ? & H)). injection H as _ _ ->.
  match goal with H : field _ _ _ _ = Ok (Some b) |- _ => apply pointer_Ok in H as (w & Hw) end.
  unfold Build_UnmarshalJSON in Hw. do 5 (apply result_bind_Ok in Hw as (? & ? & Hw)).
  destruct (FromHex _) as [|c data]; [done|]. apply result_bind_Ok in Hw as (? & ? & [= <-]). cbn. split; [by eapply positive_Ok|done].
Qed.

Definition ocean_ready (s : openOcean_Swap) : Prop :=
  0 < ow_AmountIn s /\ 0 < ow_AmountOut s /\ 0 < ow_MinAmountOut s /\ tx_ready (ow_TxData s) /\ ow_RouterAddress s <> address_zero.

Lemma decode_ocean_ready v code message s : decode_ocean v = Ok (code, message, Some s) -> ocean_ready s.
Proof.
  unfold decode_ocean. intros H. do 3 (apply result_bind_Ok in H as (? & ? & H)). injection H as _ _ ->.
  match goal with H : field _ _ _ _ = Ok (Some s) |- _ => apply pointer_Ok in H as (w & Hw) end.
  unfold openOcean_Swap_UnmarshalJSON in Hw. do 7 (apply result_bind_Ok in Hw as (? & ? & Hw)).
  apply result_bind_Ok in Hw as (? & P1 & Hw). apply result_bind_Ok in Hw as (? & P2 & Hw). apply result_bind_Ok in Hw as (? & P3 & Hw).
  apply positive_Ok in P1 as [P1 _], P2 as [P2 _], P3 as [P3 _].
  destruct (FromHex _) as [|c data]; [done|]. destruct (_ || _) eqn:Hr; [done|]. apply orb_false_iff in Hr as [_ Hr%bool_decide_eq_false].
  destruct (if String.eqb _ _ then _ else _); [|done]. injection Hw as <-. by split_and!.
Qed.

Lemma tokens_differ from to : validateSwapTokens from to = None -> oneInchTokenAddress from <> oneInchTokenAddress to.
Proof. unfold validateSwapTokens. by case_bool_decide. Qed.

Lemma amount_positive amount n : positive_amount amount = Ok n -> amount = Some n /\ 0 < n.
Proof. unfold positive_amount. destruct amount as [m|]; [|done]. destruct (Z.leb_spec m 0); [done|]. by intros [= <-]. Qed.

Lemma chainToName_supported chainID name : chainToName chainID = Ok name -> chainID ∈ kyber_SupportedChains.
Proof.
  unfold chainToName, kyber_SupportedChains. destruct (List.find _ _) as [kv|] eqn:E; [|done]. intros _.
  apply List.find_some in E as [E1 E2%Z.eqb_eq]. apply list_elem_of_fmap. exists kv. split; [done|]. by apply list_elem_of_In.
Qed.


Lemma ApplySlippageBps_share a bps : 0 < a -> 0 <= bps <= BpsBase ->
  let share := a * (BpsBase - bps) in
  ApplySlippageBps (Some a) bps * BpsBase <= share /\ share < (ApplySlippageBps (Some a) bps + 1) * BpsBase.
Proof.
  intros Ha Hb. unfold ApplySlippageBps, BpsBase in *. replace ((a =? 0) || (bps <? 0) || (10000 <? bps)) with false by lia. cbv zeta.
  rewrite Z.quot_div_nonneg by nia. pose proof (Z.div_mod (a * (10000 - bps)) 10000 ltac:(lia)). pose proof (Z.mod_pos_bound (a * (10000 - bps)) 10000 ltac:(lia)). lia.
Qed.

(** What the OpenOcean query asks for: these tokens, amount and account, and the
    slippage given, as text or, when there is none, as a percentage that reads
    back as the basis points given. *)
Definition ocean_asks (req : openOcean_SwapRequest) (v : Values) : Prop :=
  v !! "inTokenAddress" = Some [openOceanTokenAddress (os_InTokenAddress req)] /\
  v !! "outTokenAddress" = Some [openOceanTokenAddress (os_OutTokenAddress req)] /\
  v !! "amountDecimals" = Some [os_AmountDecimals req] /\ v !! "account" = Some [os_Account req] /\
  exists slippage, v !! "slippage" = Some [slippage] /\ (os_Slippage req <> "" -> slippage = os_Slippage req) /\
    (os_Slippage req = "" -> 0 < os_SlippageBps req -> Parse slippage 2 = Ok (os_SlippageBps req)).

Lemma ocean_values_asks req :
  ocean_asks req (ocean_values (openOceanTokenAddress (os_InTokenAddress req)) (openOceanTokenAddress (os_OutTokenAddress req)) req).
Proof.
  assert (Hs : exists slippage, ocean_slippage req = slippage /\ (os_Slippage req <> "" -> slippage = os_Slippage req) /\
    (os_Slippage req = "" -> 0 < os_SlippageBps req -> Parse slippage 2 = Ok (os_SlippageBps req))).
  { eexists. split; [reflexivity|]. unfold ocean_slippage. destruct (String.eqb_spec (os_Slippage req) "") as [E|E]; cbn [andb]; [|done].
    split; [done|]. intros _ Hb. rewrite (proj2 (Z.ltb_lt _ _) Hb). apply SlippageBpsToPercent_exact. lia. }
  destruct Hs as (slippage & E & Hs). unfold ocean_asks, ocean_values, values_Set. rewrite E. cbv zeta.
  split_and!; [..|exists slippage; split; [|done]]; destruct (String.eqb (os_Referrer req) "");
    repeat (rewrite lookup_insert_ne by done); apply lookup_insert_eq.
Qed.

End sound.
