(* ===== verification/Services.v ===== *)
(** * Service clients (providers/snapshotd, axiom, rhinestone, slack)

    The vault snapshots and what of them is accepted, valuation prices, onramp
    discovery, and messages to webhooks; with [strconv.ParseFloat] of any text. *)
From Stdlib Require Import Ascii Strings.Byte SpecFloat.
From S2P Require Import HttpClient.
From S2P Require Export Json Exchange Query Calendar Decimal Numbers Explorer.
Local Open Scope Z_scope.
Local Open Scope go_scope.

(** ** [strconv.ParseFloat(s, 64)] *)

Definition hex_or_digit (hex : bool) (c : Ascii.ascii) : option Z :=
  let n := Z.of_N (byte_N c) in
  if is_digit c then Some (n - 48)
  else if hex && byte_in 97 102 c then Some (n - 87) else if hex && byte_in 65 70 c then Some (n - 55) else None.

(** The mantissa read so far, its digits after the point, whether there was a
    digit and a point; and the text after it. *)
Record mantissa_scan := mkScan { sc_mant : Z; sc_frac : Z; sc_digits : bool; sc_dot : bool; sc_underscores : bool }.
Fixpoint scan_mantissa (hex : bool) (m : mantissa_scan) (s : string) : mantissa_scan * string :=
  match s with
  | "" => (m, "")
  | String c s' =>
      if Ascii.eqb c "_"%char then scan_mantissa hex (mkScan (sc_mant m) (sc_frac m) (sc_digits m) (sc_dot m) true) s'
      else if Ascii.eqb c "."%char then
        if sc_dot m then (m, s) else scan_mantissa hex (mkScan (sc_mant m) (sc_frac m) (sc_digits m) true (sc_underscores m)) s'
      else match hex_or_digit hex c with
           | Some d => scan_mantissa hex (mkScan (sc_mant m * (if hex then 16 else 10) + d) (sc_frac m + (if sc_dot m then 1 else 0)) true (sc_dot m) (sc_underscores m)) s'
           | None => (m, s)
           end
  end.

(** The exponent's digits, no further than needed. *)
Fixpoint scan_exponent (e : Z) (underscores : bool) (s : string) : Z * bool * string :=
  match s with
  | "" => (e, underscores, "")
  | String c s' =>
      if Ascii.eqb c "_"%char then scan_exponent e true s'
      else if is_digit c then scan_exponent (if e <? 10000 then e * 10 + digit_val c else e) underscores s' else (e, underscores, s)
  end.

(** Underscores stand between digits, or after a base prefix. *)
Inductive saw := SawStart | SawDigit | SawUnderscore | SawOther.
Fixpoint underscores_between (hex : bool) (w : saw) (s : string) : bool :=
  match s with
  | "" => match w with SawUnderscore => false | _ => true end
  | String c s =>
      match hex_or_digit hex c with
      | Some _ => underscores_between hex SawDigit s
      | None =>
          if Ascii.eqb c "_"%char then match w with SawDigit => underscores_between hex SawUnderscore s | _ => false end
          else match w with SawUnderscore => false | _ => underscores_between hex SawOther s end
      end
  end.

Definition lower_is (c d : Ascii.ascii) : bool := Ascii.eqb (ascii_lower c) d.
Definition cut_plus_minus (s : string) : bool * string :=
  match s with String c s' => if Ascii.eqb c "-"%char then (true, s') else if Ascii.eqb c "+"%char then (false, s') else (false, s) | "" => (false, s) end.

(** A mantissa times a power of two, to the nearest float. *)
Definition round_binary (neg : bool) (m e : Z) : float64 :=
  match m with Zpos p => binary_round 53 1024 neg p e | _ => S754_zero neg end.

(** What follows the mantissa: the exponent, if it may be left out. *)
Definition read_exponent (hex underscores : bool) (s : string) : option (Z * bool) :=
  match s with
  | "" => if hex then None else Some (0, underscores)
  | String c s =>
      if lower_is c (if hex then "p" else "e")%char then
        let '(neg, s) := cut_plus_minus s in
        if starts_digit s then
          let '(e, underscores, s) := scan_exponent 0 underscores s in
          if String.eqb s "" then Some (if neg then - e else e, underscores) else None
        else None
      else None
  end.

Definition read_float (s : string) : option float64 :=
  let '(neg, t) := cut_plus_minus s in
  let '(hex, t) := match t with
                   | String z (String x (String c rest)) => if Ascii.eqb z "0"%char && lower_is x "x"%char then (true, String c rest) else (false, t)
                   | _ => (false, t)
                   end in
  let '(m, rest) := scan_mantissa hex (mkScan 0 0 false false false) t in
  if negb (sc_digits m) then None
  else
    match read_exponent hex (sc_underscores m) rest with
    | None => None
    | Some (e, underscores) =>
        if underscores && negb (underscores_between hex (if hex then SawDigit else SawStart) t) then None
        else Some (if hex then round_binary neg (sc_mant m) (e - 4 * sc_frac m) else round_decimal (mkDecimal neg (sc_mant m) (e - sc_frac m)))
    end.

(** "inf", "infinity" and "nan" in any case, the first two with a sign. *)
Definition special_float (s : string) : option float64 :=
  let '(neg, t) := cut_plus_minus s in
  let t' := map_string ascii_lower t in
  if String.eqb t' "inf" || String.eqb t' "infinity" then Some (S754_infinity neg)
  else if String.eqb (map_string ascii_lower s) "nan" then Some S754_nan else None.

Section parse_float.
Context `{U : UnicodeTables}.

Definition num_error (s why : string) : GoError := errors_New ("strconv.ParseFloat: parsing " +:+ strconv_Quote s +:+ ": " +:+ why).
Definition strconv_ParseFloat (s : string) : result GoError float64 :=
  match special_float s with
  | Some f => Ok f
  | None =>
      match read_float s with
      | None => Err (num_error s "invalid syntax")
      | Some (S754_infinity _) => Err (num_error s "value out of range")
      | Some f => Ok f
      end
  end.
End parse_float.

Example read_float_texts : (read_float <$> [".5"; "5."; "+5e1"; "0x1p-1"; "0x_1p0"; "1_0"; "1__0"; "_1"; "."; "1e"; "0x1"; "1e5x"; "- 1"]) =
  [Some (S754_finite false 4503599627370496 (-53)); ParseFloat "5"; ParseFloat "50"; Some (S754_finite false 4503599627370496 (-53)); ParseFloat "1";
   ParseFloat "10"; None; None; None; None; None; None; None].
Proof. vm_compute. reflexivity. Qed.

(** ** Snapshotd *)

(** A parsed URL, and [url.ParseRequestURI] and [url.Parse]. *)
Record url_parts := mkUrl { u_Scheme : string; u_Host : string; u_User : bool; u_RawQuery : string; u_ForceQuery : bool; u_Fragment : string }.
Class UrlParse := { ParseRequestURI : string -> result GoError url_parts; url_Parse : string -> result GoError url_parts }.

Definition snapshotd_defaultTimeout : Z := 10 * nanosPerSecond.
Definition snapshotd_maxResponseBody : Z := Z.shiftl 4 20.
Definition snapshotd_maxErrorResponse : Z := Z.shiftl 4 10.

Definition trim_slashes (baseURL : string) : string := trim_right (Ascii.eqb "/"%char) (TrimSpace baseURL).

Section snapshotd.
Context `{G : GoEthereum} `{GJ : !GethJson} `{U : UnicodeTables} `{UP : UrlParse} `{JE : JsonErrors} `{JT : JsonText}.
Context (hash_zero : Hash).     (* common.Hash{} *)
#[local] Existing Instance Address_eq_dec.

Record SnapshotQuery := mkSnapshotQuery { sq_ChainID : Z; sq_Strategy : Address; sq_BlockNumber : option Z }.
Record Source := mkSource {
  src_Source : Address; src_Oracle : Address; src_Kind : Z; src_PositionType : string; src_MarketKey : Address; src_MarketID : Hash;
  src_ProtocolAddress : Address; src_PositionSide : string; src_UnderlyingAsset : Address; src_UnderlyingDecimals : option Z;
  src_UnderlyingTVL : string; src_Error : string; src_RawShares : string; src_AssetTVL : string; src_AssetSymbol : string; src_Active : bool }.
Record Allocation := mkAllocation {
  al_Strategy : Address; al_ChainID : Z; al_BlockNumber : option Z; al_Asset : Address; al_AssetSymbol : string; al_AssetDecimals : Z;
  al_TotalAssets : string; al_GrossAssets : string; al_TotalLiabilities : string; al_NetAssets : string; al_TotalSupply : string;
  al_IdleBalance : string; al_Sources : list Source }.
Record HTTPError := mkHTTPError { se_StatusCode : Z; se_Code : string; se_Message : string; se_RequestID : string; se_Err : GoError }.
(** An error, and the [*HTTPError] in it. *)
Record SnapshotError := mkSnapshotError { sn_err : GoError; sn_http : option HTTPError }.
Definition snap (e : GoError) : SnapshotError := mkSnapshotError e None.
Definition wrap_snap (pre : string) (e : SnapshotError) : SnapshotError := mkSnapshotError (Errorf_w pre (sn_err e) "") (sn_http e).

(** The three forms of the text; [Unwrap] gives [Err]. *)
Definition HTTPError_Error (e : HTTPError) : GoError :=
  let status := "snapshotd status " +:+ pretty (se_StatusCode e) in
  let with_text text := mkGoError text (wraps (se_Err e)) (as_rpc (se_Err e)) (as_http (se_Err e)) (as_url (se_Err e)) (as_net (se_Err e)) "*snapshotd.HTTPError" in
  if negb (String.eqb (se_Code e) "") && negb (String.eqb (se_Message e) "") then with_text (status +:+ " (" +:+ se_Code e +:+ "): " +:+ se_Message e)
  else if negb (String.eqb (se_Message e) "") then with_text (status +:+ ": " +:+ se_Message e)
  else with_text (status +:+ ": " +:+ Error (se_Err e)).

Definition http_kind (statusCode : Z) : ApiKind :=
  if statusCode =? 400 then BadRequest
  else if (statusCode =? 401) || (statusCode =? 403) then Unauthorized
  else if statusCode =? 404 then NotFound_
  else if statusCode =? 429 then Errors.RateLimited
  else Upstream.
Definition httpErrorSentinel (statusCode : Z) : GoError := PartnerError_v Snapshotd_ (http_kind statusCode).

Definition readBounded (limit : Z) (resp : HttpResponse) : result GoError string :=
  match ReadAll (limit + 1) resp with
  | Err e => Err e
  | Ok body => if limit <? Z.of_nat (slen body) then Err (errors_New ("response body exceeds " +:+ pretty limit +:+ " bytes")) else Ok body
  end.

(** A string of the error envelope: what does not fit is passed over. *)
Definition lenient (name : string) (old : string) (raw : json) : string :=
  match raw with
  | JObject fields => foldl (fun old v => match d_string old v with Ok s => s | Err _ => old end) old (matches name fields)
  | _ => old
  end.
Definition envelope_text (name body : string) : string :=
  match json_parse body with
  | Ok (JObject fields) => foldl (lenient name) "" (matches "error" fields)
  | _ => ""
  end.

(** [errors.Join] *)
Definition errors_Join (e1 e2 : GoError) : GoError := Errorf_ww "" e1 (String "010"%char "") e2 "".

Definition decodeHTTPError (resp : HttpResponse) : HTTPError :=
  let sentinel := httpErrorSentinel (hr_Status resp) in
  match readBounded snapshotd_maxErrorResponse resp with
  | Err e => mkHTTPError (hr_Status resp) "" (Error e) "" (errors_Join sentinel e)
  | Ok body =>
      let message := TrimSpace (envelope_text "message" body) in
      mkHTTPError (hr_Status resp) (envelope_text "code" body) (if String.eqb message "" then TrimSpace body else message)
        (envelope_text "request_id" body) sentinel
  end.

Definition f_address (name : string) (raw : json) : result GoError Address := field (d_custom Address_UnmarshalJSON) address_zero name raw.
Definition f_pointer {A} (d : decoder A) (zero : A) (name : string) (raw : json) : result GoError (option A) := field (d_pointer d zero) None name raw.

Definition decode_source (raw : json) : result GoError Source :=
  let? source := f_address "source" raw in
  let? oracle := f_address "oracle" raw in
  let? kind := f_uint 8 "uint8" "kind" raw in
  let? positionType := f_string "positionType" raw in
  let? marketKey := f_address "marketKey" raw in
  let? marketID := field (d_custom Hash_UnmarshalJSON) hash_zero "marketId" raw in
  let? protocol := f_address "protocolAddress" raw in
  let? side := f_string "positionSide" raw in
  let? underlying := f_address "underlyingAsset" raw in
  let? decimals := f_pointer (d_uint 8 "uint8") 0 "underlyingDecimals" raw in
  let? underlyingTVL := f_string "underlyingTvl" raw in
  let? error := f_string "error" raw in
  let? rawShares := f_string "rawShares" raw in
  let? assetTVL := f_string "assetTvl" raw in
  let? assetSymbol := f_string "assetSymbol" raw in
  let? active := f_bool "active" raw in
  Ok (mkSource source oracle kind positionType marketKey marketID protocol side underlying decimals underlyingTVL error rawShares assetTVL assetSymbol active).

Definition decode_allocation (raw : json) : result GoError Allocation :=
  let? strategy := f_address "strategy" raw in
  let? chainID := f_uint 64 "uint64" "chainId" raw in
  let? block := f_pointer (d_uint 64 "uint64") 0 "blockNumber" raw in
  let? asset := f_address "asset" raw in
  let? symbol := f_string "assetSymbol" raw in
  let? decimals := f_uint 8 "uint8" "assetDecimals" raw in
  let? totalAssets := f_string "totalAssets" raw in
  let? grossAssets := f_string "grossAssets" raw in
  let? totalLiabilities := f_string "totalLiabilities" raw in
  let? netAssets := f_string "netAssets" raw in
  let? totalSupply := f_string "totalSupply" raw in
  let? idleBalance := f_string "idleBalance" raw in
  let? sources := f_list decode_source "sources" raw in
  Ok (mkAllocation strategy chainID block asset symbol decimals totalAssets grossAssets totalLiabilities netAssets totalSupply idleBalance sources).

(** *** Validation *)

Definition invalid (text : string) : GoError := Errorf_w text ErrInvalidResponse_v "".

Definition snapshot_validateDecimal (field value : string) : option GoError :=
  if String.eqb value "" then Some (invalid ("snapshotd: " +:+ field +:+ " is required: "))
  else
    let bad := Some (invalid ("snapshotd: " +:+ field +:+ " is not a non-negative decimal integer: ")) in
    match SetString10 value with Some n => if n <? 0 then bad else None | None => bad end.

Definition with_AssetTVL (s : Source) (text : string) : Source :=
  mkSource (src_Source s) (src_Oracle s) (src_Kind s) (src_PositionType s) (src_MarketKey s) (src_MarketID s) (src_ProtocolAddress s) (src_PositionSide s)
    (src_UnderlyingAsset s) (src_UnderlyingDecimals s) (src_UnderlyingTVL s) (src_Error s) (src_RawShares s) text (src_AssetSymbol s) (src_Active s).

(** The loop's body on source [i]: a source that is not active may leave its value out. *)
Definition validate_source (i : nat) (s : Source) : result GoError Source :=
  let at_ := "sources[" +:+ pretty (Z.of_nat i) +:+ "]" in
  if bool_decide (src_Source s = address_zero) then Err (invalid ("snapshotd: source " +:+ pretty (Z.of_nat i) +:+ " address is required: "))
  else if bool_decide (src_Oracle s = address_zero) then Err (invalid ("snapshotd: source " +:+ pretty (Z.of_nat i) +:+ " oracle is required: "))
  else if negb (String.eqb (src_Error s) "") then Err (invalid ("snapshotd: source " +:+ Address_Hex (src_Source s) +:+ " failed: " +:+ src_Error s +:+ ": "))
  else if negb (String.eqb (src_PositionType s) "asset") && negb (String.eqb (src_PositionType s) "liability") then
    Err (invalid ("snapshotd: " +:+ at_ +:+ ".positionType must be asset or liability: "))
  else
    match (if String.eqb (src_RawShares s) "" then None else snapshot_validateDecimal (at_ +:+ ".rawShares") (src_RawShares s)) with
    | Some e => Err e
    | None =>
        let s := if String.eqb (src_AssetTVL s) "" && negb (src_Active s) then with_AssetTVL s "0" else s in
        match snapshot_validateDecimal (at_ +:+ ".assetTvl") (src_AssetTVL s) with Some e => Err e | None => Ok s end
    end.
Fixpoint validate_sources (i : nat) (l : list Source) : result GoError (list Source) :=
  match l with
  | [] => Ok []
  | s :: l => let? s := validate_source i s in let? l := validate_sources (S i) l in Ok (s :: l)
  end.

Definition with_Sources (a : Allocation) (sources : list Source) : Allocation :=
  mkAllocation (al_Strategy a) (al_ChainID a) (al_BlockNumber a) (al_Asset a) (al_AssetSymbol a) (al_AssetDecimals a) (al_TotalAssets a) (al_GrossAssets a)
    (al_TotalLiabilities a) (al_NetAssets a) (al_TotalSupply a) (al_IdleBalance a) sources.

Definition validateAndNormalizeAllocation (query : SnapshotQuery) (a : Allocation) : result GoError Allocation :=
  if negb (bool_decide (al_Strategy a = sq_Strategy query)) then
    Err (invalid ("snapshotd: allocation strategy " +:+ Address_Hex (al_Strategy a) +:+ " does not match request " +:+ Address_Hex (sq_Strategy query) +:+ ": "))
  else if negb (al_ChainID a =? sq_ChainID query) then
    Err (invalid ("snapshotd: allocation chain ID " +:+ pretty (al_ChainID a) +:+ " does not match request " +:+ pretty (sq_ChainID query) +:+ ": "))
  else
    let block := match sq_BlockNumber query with
    | Some n => if bool_decide (al_BlockNumber a = Some n) then None else Some (invalid ("snapshotd: allocation block does not match requested block " +:+ pretty n +:+ ": "))
    | None => None
    end in
    match block with
    | Some e => Err e
    | None =>
        if bool_decide (al_Asset a = address_zero) then Err (invalid "snapshotd: allocation asset is required: ")
        else
          match first_some (snapshot_validateDecimal "totalAssets" (al_TotalAssets a))
                  (first_some (snapshot_validateDecimal "totalSupply" (al_TotalSupply a)) (snapshot_validateDecimal "idleBalance" (al_IdleBalance a))) with
          | Some e => Err e
          | None =>
              if String.eqb (al_NetAssets a) "" then Err (invalid "snapshotd: netAssets is required: ")
              else match SetString10 (al_NetAssets a) with
                   | None => Err (invalid "snapshotd: netAssets is not a decimal integer: ")
                   | Some _ => let? sources := validate_sources 0 (al_Sources a) in Ok (with_Sources a sources)
                   end
          end
    end.

(** *** Operations *)

Record snapshotd_client := mkSnapshotd { sc_baseURL : string; sc_http : bool; sc_timeout : Z }.
Definition snapshotd_Option : Type := snapshotd_client -> snapshotd_client.
Definition snapshotd_WithBaseURL (baseURL : string) : snapshotd_Option := fun c => mkSnapshotd (trim_slashes baseURL) (sc_http c) (sc_timeout c).
Definition snapshotd_WithHTTPClient (set : bool) : snapshotd_Option := fun c => if set then mkSnapshotd (sc_baseURL c) true (sc_timeout c) else c.
Definition snapshotd_WithTimeout (timeout : Z) : snapshotd_Option := fun c => mkSnapshotd (sc_baseURL c) (sc_http c) timeout.

Definition validateBaseURL (baseURL : string) : option GoError :=
  if String.eqb baseURL "" then Some (errors_New "snapshotd: base URL is required")
  else
    let bad := Some (errors_New ("snapshotd: invalid base URL " +:+ strconv_Quote baseURL)) in
    match ParseRequestURI baseURL with
    | Err _ => bad
    | Ok u =>
        if String.eqb (u_Host u) "" || (negb (String.eqb (u_Scheme u) "http") && negb (String.eqb (u_Scheme u) "https")) || u_User u ||
           negb (String.eqb (u_RawQuery u) "") || u_ForceQuery u || negb (String.eqb (u_Fragment u) "") then bad else None
    end.

Definition snapshotd_New (opts : list (option snapshotd_Option)) : result GoError snapshotd_client :=
  let c := foldl (fun c f => match f with Some f => f c | None => c end) (mkSnapshotd "" false snapshotd_defaultTimeout) opts in
  match validateBaseURL (sc_baseURL c) with
  | Some e => Err e
  | None => if negb (sc_http c) && (sc_timeout c <=? 0) then Err (errors_New "snapshotd: timeout must be positive") else Ok (mkSnapshotd (sc_baseURL c) true (sc_timeout c))
  end.

Definition validateQuery (query : SnapshotQuery) : option GoError :=
  if sq_ChainID query =? 0 then Some (errors_New "snapshotd: chain ID must be positive")
  else if bool_decide (sq_Strategy query = address_zero) then Some (errors_New "snapshotd: strategy is required") else None.

Variable answers : nat -> reply.
Variable c : snapshotd_client.

Definition snapshot_endpoint (resource : string) (query : SnapshotQuery) : string :=
  sc_baseURL c +:+ "/v1/" +:+ resource +:+ "/" +:+ pretty (sq_ChainID query) +:+ "/" +:+ ToLower (Address_Hex (sq_Strategy query)) +:+
    match sq_BlockNumber query with Some n => "?block=" +:+ pretty n | None => "" end.

Definition snapshot_send (a : reply) : result SnapshotError HttpResponse :=
  match r_NewRequest a with
  | Some e => Err (snap (Errorf_w "build request: " e ""))
  | None => match r_Do a with Err e => Err (snap (Errorf_w "HTTP request: " e "")) | Ok resp => Ok resp end
  end.

Definition snapshot_getJSON {A} (endpoint : string) (decode : json -> result GoError A) : Run SnapshotError A :=
  finish (exchange answers (mkRequest "GET" endpoint (header_Set "Accept" "application/json" ∅) "") snapshot_send) (fun resp =>
    if negb (success (hr_Status resp)) then let e := decodeHTTPError resp in Err (mkSnapshotError (HTTPError_Error e) (Some e))
    else
      match readBounded snapshotd_maxResponseBody resp with
      | Err e => Err (snap (Errorf_ww "read response: " ErrInvalidResponse_v " (" e ")"))
      | Ok body =>
          match (let? v := json_parse body in decode v) with
          | Err e => Err (snap (Errorf_ww "decode response: " ErrInvalidResponse_v " (" e ")"))
          | Ok out => Ok out
          end
      end).

Definition GetPPS (query : SnapshotQuery) : Run SnapshotError string :=
  match validateQuery query with
  | Some e => fail (snap e)
  | None =>
      finish (on_error (wrap_snap "snapshotd get PPS: ") (snapshot_getJSON (snapshot_endpoint "pps" query) (f_string "pps")))
        (fun pps => match snapshot_validateDecimal "pps" pps with Some e => Err (snap e) | None => Ok pps end)
  end.

Definition GetAllocation (query : SnapshotQuery) : Run SnapshotError Allocation :=
  match validateQuery query with
  | Some e => fail (snap e)
  | None =>
      finish (on_error (wrap_snap "snapshotd get allocation: ") (snapshot_getJSON (snapshot_endpoint "allocation" query) decode_allocation))
        (fun a => match validateAndNormalizeAllocation query a with Err e => Err (snap e) | Ok a => Ok a end)
  end.
End snapshotd.

(** ** Axiom *)

Definition axiom_defaultTimeout : Z := 5 * nanosPerSecond.
Definition defaultSupportedChains : gset Z := {[1; 8453; 999; 14]}.

Section axiom.
Context `{G : GoEthereum} `{AB : !Abi} `{U : UnicodeTables} `{JE : JsonErrors} `{JT : JsonText}.

Record axiom := mkAxiom { ax_baseURL : string; ax_supportedChains : gset Z }.
Record TokenPrice := mkTokenPrice { tp_ChainID : Z; tp_Address : Address; tp_Price : float64; tp_UpdatedAt : Z }.
Definition axiom_Option : Type := axiom -> axiom.
Definition axiom_WithBaseURL (baseURL : string) : axiom_Option := fun a => mkAxiom (trim_slashes baseURL) (ax_supportedChains a).
Definition supportedChainSet (chainIDs : list Z) : gset Z := list_to_set chainIDs.
Definition WithSupportedChains (chains : list Z) : axiom_Option := fun a =>
  match chains with [] => a | _ => mkAxiom (ax_baseURL a) (supportedChainSet chains) end.

Definition axiom_New (opts : list (option axiom_Option)) : result GoError axiom :=
  let a := foldl (fun a f => match f with Some f => f a | None => a end) (mkAxiom "" defaultSupportedChains) opts in
  if String.eqb (ax_baseURL a) "" then Err (errors_New "axiom: baseURL is required") else Ok a.

Definition axiom_Unauthorized_v : GoError := PartnerError_v Axiom_ Unauthorized.

Definition axiom_decodeStatus (resp : HttpResponse) : option GoError :=
  let status := hr_Status resp in
  if (status =? 401) || (status =? 403) then Some axiom_Unauthorized_v
  else if status =? 404 then Some ErrTokenNotFound_v
  else if status =? 429 then Some (Errorf_w "axiom: status 429: " (PartnerError_v Axiom_ Errors.RateLimited) "")
  else if Z.quot status 100 =? 2 then None
  else Some (Errorf_w ("axiom: status " +:+ pretty status +:+ ": " +:+ TrimSpace (stake 1024 (hr_Body resp)) +:+ ": ") (PartnerError_v Axiom_ Upstream) "").

Variable answers : nat -> reply.
Variable a : axiom.

Definition supportsChain (chainID : Z) : bool := bool_decide (chainID ∈ ax_supportedChains a).
(** In some order. *)
Definition axiom_SupportedChains : list Z := elements (ax_supportedChains a).

Definition axiom_send (r : reply) : result GoError (HttpResponse * Z) :=
  match r_NewRequest r with
  | Some e => Err (Errorf_w "axiom: build request: " e "")
  | None => match r_Do r with Err e => Err (Errorf_w "axiom: http: " e "") | Ok resp => Ok (resp, r_Now r) end
  end.

Definition axiom_read (chainID : Z) (tokenAddress : Address) (resp : HttpResponse) (now : Z) : result GoError TokenPrice :=
  match axiom_decodeStatus resp with
  | Some e => Err e
  | None =>
      match ReadAll (Z.shiftl 1 20) resp with
      | Err e => Err (Errorf_w "axiom: read response: " e "")
      | Ok body =>
          match (let? v := json_parse body in f_string "value" v) with
          | Err e => Err (Errorf_w "axiom: decode: " e "")
          | Ok value =>
              match strconv_ParseFloat value with
              | Err e => Err (Errorf_w ("axiom: parse value " +:+ strconv_Quote value +:+ ": ") e "")
              | Ok price => if SFeqb price float_zero then Err ErrTokenNotFound_v else Ok (mkTokenPrice chainID tokenAddress price now)
              end
          end
      end
  end.

Definition GetTokenPrice (chainID : Z) (tokenAddress : Address) : Run GoError TokenPrice := fun log =>
  if negb (supportsChain chainID) then fail (Errorf_w "" ErrUnsupportedChain_v (": " +:+ pretty chainID)) log
  else
    let req := mkRequest "GET" (ax_baseURL a +:+ "/v1/price/" +:+ pretty chainID +:+ "/" +:+ ToLower (Address_Hex tokenAddress)) ∅ "" in
    (let? r := axiom_send (answers (length log)) in axiom_read chainID tokenAddress r.1 r.2, log ++ [req]).

(** A price that is not known is an answer. *)
Definition HealthCheck : Run GoError unit := fun log =>
  match GetTokenPrice 1 (HexToAddress "0xA0b86991c6218b36c1d19D4a2e9Eb0cE3606eB48") log with
  | (Err e, log) => (if Is e ErrTokenNotFound then Ok tt else Err e, log)
  | (Ok _, log) => (Ok tt, log)
  end.
End axiom.

(** ** Rhinestone *)

Definition rhinestone_APIBaseURL : string := "https://v1.orchestrator.rhinestone.dev/deposit-processor".
Definition rhinestone_maxResponseBody : Z := Z.shiftl 8 20.

Record GetOnrampOptionsRequest := mkOnrampRequest { or_Provider : string; or_Kind : string; or_Country : string }.
Record OnrampMethod := mkOnrampMethod { om_Method : string; om_Currencies : option (list string); om_MinAmount : option string; om_MaxAmount : option string }.
Record GetOnrampOptionsResponse := mkOnrampResponse {
  oe_Provider : string; oe_Kind : string; oe_Country : option string; oe_Methods : option (list OnrampMethod); oe_OtherMethods : option (list OnrampMethod) }.
Record rhinestone_Chain := mkRhinestoneChain { rh_Destination : bool; rh_SupportedTokens : option json }.

(** An answer, and what the caller's context says after a failure. *)
Record rhinestone_reply := mkRhinestoneReply { rp_NewRequest : bool; rp_Do : option HttpResponse; rp_ctx : option GoError }.
(** An error, and the [*APIError] in it, which is its status. *)
Record RhinestoneError := mkRhinestoneError { rh_err : GoError; rh_status : option Z }.
Definition rhine (text : string) : RhinestoneError := mkRhinestoneError (errors_New ("rhinestone: " +:+ text)) None.
Definition rhinestone_api_error (status : Z) : RhinestoneError := mkRhinestoneError (errors_New ("rhinestone: HTTP " +:+ pretty status)) (Some status).

Record rhinestone_client := mkRhinestone { rh_apiKey : string; rh_apiBaseURL : string }.
Definition rhinestone_Option : Type := rhinestone_client -> rhinestone_client.
Definition rhinestone_WithAPIKey (key : string) : rhinestone_Option := fun c => mkRhinestone (TrimSpace key) (rh_apiBaseURL c).
Definition rhinestone_WithAPIBaseURL (baseURL : string) : rhinestone_Option := fun c => mkRhinestone (rh_apiKey c) (trim_slashes baseURL).

Section rhinestone.
Context `{UP : UrlParse} `{JE : JsonErrors} `{JT : JsonText}.

Definition rhinestone_New (opts : list (option rhinestone_Option)) : result GoError rhinestone_client :=
  let c := foldl (fun c f => match f with Some f => f c | None => c end) (mkRhinestone "" rhinestone_APIBaseURL) opts in
  if String.eqb (rh_apiKey c) "" || negb (sforall (fun b => negb (Ascii.eqb b "013"%char || Ascii.eqb b "010"%char)) (rh_apiKey c)) then
    Err (errors_New "rhinestone: valid api key is required")
  else
    match url_Parse (rh_apiBaseURL c) with
    | Err _ => Err (errors_New "rhinestone: invalid api base url")
    | Ok u =>
        if String.eqb (u_Host u) "" || (negb (String.eqb (u_Scheme u) "http") && negb (String.eqb (u_Scheme u) "https")) || u_User u ||
           negb (String.eqb (u_RawQuery u) "") || negb (String.eqb (u_Fragment u) "") then Err (errors_New "rhinestone: invalid api base url")
        else Ok c
    end.

Definition decode_onramp_method (raw : json) : result GoError OnrampMethod :=
  let? method := f_string "method" raw in
  let? currencies := field (d_slice (d_string "")) None "currencies" raw in
  let? minAmount := field (d_pointer d_number "") None "minAmount" raw in
  let? maxAmount := field (d_pointer d_number "") None "maxAmount" raw in
  Ok (mkOnrampMethod method currencies minAmount maxAmount).

Definition decode_onramp (raw : json) : result GoError GetOnrampOptionsResponse :=
  let? provider := f_string "provider" raw in
  let? kind := f_string "kind" raw in
  let? country := field (d_pointer d_string "") None "country" raw in
  let? methods := field (d_slice decode_onramp_method) None "methods" raw in
  let? others := field (d_slice decode_onramp_method) None "otherMethods" raw in
  Ok (mkOnrampResponse provider kind country methods others).

Definition decode_chain (raw : json) : result GoError rhinestone_Chain :=
  let? destination := f_bool "destination" raw in
  let? tokens := field d_raw None "supportedTokens" raw in
  Ok (mkRhinestoneChain destination tokens).

Variable answers : nat -> rhinestone_reply.
Variable c : rhinestone_client.

Definition rhinestone_read {A} (path country : string) (decode : json -> result GoError A) : Run RhinestoneError A := fun log =>
  let h := header_Set "x-api-key" (rh_apiKey c) ∅ in
  let h := if String.eqb country "" then h else header_Set "x-user-country" country h in
  let a := answers (length log) in
  (if negb (rp_NewRequest a) then Err (rhine "invalid request")
   else match rp_Do a with
        | None => match rp_ctx a with Some e => Err (mkRhinestoneError e None) | None => Err (rhine "request failed") end
        | Some resp =>
            if negb (hr_Status resp =? 200) then Err (rhinestone_api_error (hr_Status resp))
            else match ReadAll (rhinestone_maxResponseBody + 1) resp with
                 | Err _ => Err (rhine "invalid response body")
                 | Ok body =>
                     if rhinestone_maxResponseBody <? Z.of_nat (slen body) then Err (rhine "invalid response body")
                     else match (let? v := json_parse body in decode v) with Err _ => Err (rhine "invalid response json") | Ok out => Ok out end
                 end
        end, log ++ [mkRequest "GET" (rh_apiBaseURL c +:+ path) h ""]).

Definition upper_letters (s : string) : bool := sforall (byte_in 65 90) s.

Definition GetOnrampOptions (input : GetOnrampOptionsRequest) : Run RhinestoneError GetOnrampOptionsResponse :=
  if String.eqb (or_Provider input) "" || String.eqb (or_Kind input) "" then fail (rhine "provider and kind are required")
  else if negb (String.eqb (or_Country input) "") && (negb (slen (or_Country input) =? 2)%nat || negb (upper_letters (or_Country input))) then
    fail (rhine "country must be an uppercase two-letter code")
  else
    rhinestone_read ("/onramp/options?" +:+ Encode (values_Set "kind" (or_Kind input) (values_Set "provider" (or_Provider input) ∅)))
      (or_Country input) decode_onramp.

Definition GetChains : Run RhinestoneError (gmap string rhinestone_Chain) := rhinestone_read "/chains" "" (d_map decode_chain "map[string]rhinestone.Chain" ∅).
End rhinestone.

(** ** Slack *)

Record SlackText := mkSlackText { tx_Type : string; tx_Text : string }.
Record Button := mkButton { bt_Type : string; bt_Text : SlackText; bt_URL : string; bt_Style : string }.
Record Block := mkBlock { bk_Type : string; bk_Text : option SlackText; bk_Fields : list SlackText; bk_Elements : list Button }.
Record SlackField := mkSlackField { sf_Title : string; sf_Value : string; sf_Short : bool }.
Record Attachment := mkAttachment { at_Color : string; at_Title : string; at_Text : string; at_Fields : list SlackField }.
Record Message := mkMessage { ms_Text : string; ms_Blocks : list Block; ms_Attachments : list Attachment }.

Definition omit_text (name value : string) : list (string * json) := if String.eqb value "" then [] else [(name, JString value)].
Definition omit_list {A} (name : string) (f : A -> json) (l : list A) : list (string * json) := match l with [] => [] | _ => [(name, JArray (f <$> l))] end.
Definition text_json (t : SlackText) : json := JObject [("type", JString (tx_Type t)); ("text", JString (tx_Text t))].
Definition button_json (b : Button) : json :=
  JObject ([("type", JString (bt_Type b)); ("text", text_json (bt_Text b)); ("url", JString (bt_URL b))] ++ omit_text "style" (bt_Style b)).
Definition block_json (b : Block) : json :=
  JObject ([("type", JString (bk_Type b))] ++ match bk_Text b with Some t => [("text", text_json t)] | None => [] end ++
    omit_list "fields" text_json (bk_Fields b) ++ omit_list "elements" button_json (bk_Elements b)).
Definition field_json (f : SlackField) : json := JObject [("title", JString (sf_Title f)); ("value", JString (sf_Value f)); ("short", JBool (sf_Short f))].
Definition attachment_json (a : Attachment) : json :=
  JObject (omit_text "color" (at_Color a) ++ omit_text "title" (at_Title a) ++ omit_text "text" (at_Text a) ++ omit_list "fields" field_json (at_Fields a)).
Definition message_json (m : Message) : json :=
  JObject (omit_text "text" (ms_Text m) ++ omit_list "blocks" block_json (ms_Blocks m) ++ omit_list "attachments" attachment_json (ms_Attachments m)).

(** An error, and the [Err] of the [*url.Error] in it, if any. *)
Record SlackError := mkSlackError { sl_err : GoError; sl_url : option GoError }.
Definition withoutURL (e : SlackError) : GoError := default (sl_err e) (sl_url e).
Record slack_reply := mkSlackReply { sl_NewRequest : option SlackError; sl_Do : result SlackError HttpResponse }.

Definition PostTo (answers : nat -> slack_reply) (webhookURL : string) (msg : option Message) : Run GoError unit := fun log =>
  let a := answers (length log) in
  (match sl_NewRequest a with
   | Some e => Err (Errorf_w "create slack request: " (withoutURL e) "")
   | None =>
       match sl_Do a with
       | Err e => Err (Errorf_w "send slack message: " (withoutURL e) "")
       | Ok resp => if success (hr_Status resp) then Ok tt else Err (errors_New ("slack webhook returned HTTP " +:+ pretty (hr_Status resp)))
       end
   end, log ++ [mkRequest "POST" webhookURL (header_Set "Content-Type" "application/json" ∅) (json_Marshal (from_option message_json JNull msg))]).

(** ** What is accepted *)

Section sound.
Context `{G : GoEthereum} `{AB : !Abi} `{GJ : !GethJson} `{U : UnicodeTables} `{JE : JsonErrors} `{JT : JsonText}.
Context (hash_zero : Hash).
Variable answers : nat -> reply.

(** A nonnegative decimal integer. *)
Definition natural_text (s : string) : Prop := exists n, SetString10 s = Some n /\ 0 <= n.

Definition source_ready (s : Source) : Prop :=
  src_Source s <> address_zero /\ src_Oracle s <> address_zero /\ src_Error s = "" /\
  (src_PositionType s = "asset" \/ src_PositionType s = "liability") /\ (src_RawShares s = "" \/ natural_text (src_RawShares s)) /\ natural_text (src_AssetTVL s).

Definition allocation_ready (query : SnapshotQuery) (a : Allocation) : Prop :=
  al_Strategy a = sq_Strategy query /\ al_ChainID a = sq_ChainID query /\ (forall n, sq_BlockNumber query = Some n -> al_BlockNumber a = Some n) /\
  al_Asset a <> address_zero /\ natural_text (al_TotalAssets a) /\ natural_text (al_TotalSupply a) /\ natural_text (al_IdleBalance a) /\
  is_Some (SetString10 (al_NetAssets a)) /\ Forall source_ready (al_Sources a).

Lemma validateDecimal_ready field value : snapshot_validateDecimal field value = None -> natural_text value.
Proof.
  unfold snapshot_validateDecimal, natural_text. destruct (String.eqb value ""); [done|]. destruct (SetString10 value) as [n|]; [|done].
  destruct (Z.ltb_spec n 0); [done|]. by exists n.
Qed.

Lemma validate_source_ready i s s' : validate_source i s = Ok s' -> source_ready s' /\ src_Source s' = src_Source s /\ src_Oracle s' = src_Oracle s.
Proof.
  unfold validate_source. case_bool_decide as Hs; [done|]. case_bool_decide as Ho; [done|]. destruct (String.eqb_spec (src_Error s) "") as [He|]; [|done].
  destruct (negb (String.eqb (src_PositionType s) "asset") && negb (String.eqb (src_PositionType s) "liability")) eqn:Hp; [done|]. cbn [negb].
  destruct (if String.eqb (src_RawShares s) "" then None else snapshot_validateDecimal _ (src_RawShares s)) eqn:Hr; [done|].
  set (s1 := if String.eqb (src_AssetTVL s) "" && negb (src_Active s) then with_AssetTVL s "0" else s). destruct (snapshot_validateDecimal _ (src_AssetTVL s1)) eqn:Ht; [done|]. intros [= <-].
  apply validateDecimal_ready in Ht.
  assert (Hpos : src_PositionType s = "asset" \/ src_PositionType s = "liability").
  { destruct (String.eqb_spec (src_PositionType s) "asset"); [by left|]. destruct (String.eqb_spec (src_PositionType s) "liability"); [by right|]. done. }
  assert (Hraw : src_RawShares s = "" \/ natural_text (src_RawShares s)).
  { destruct (String.eqb_spec (src_RawShares s) ""); [by left|]. right. by eapply validateDecimal_ready. }
  unfold source_ready, s1 in *. by destruct (String.eqb (src_AssetTVL s) "" && negb (src_Active s)).
Qed.

Lemma validate_sources_ready i l l' : validate_sources i l = Ok l' -> Forall source_ready l' /\ src_Source <$> l' = src_Source <$> l.
Proof.
  revert i l'. induction l as [|s l IH]; intros i l' H; cbn [validate_sources] in H; [by injection H as <-|].
  apply result_bind_Ok in H as (s' & Hs & H). apply result_bind_Ok in H as (l1 & Hl & [= <-]).
  apply validate_source_ready in Hs as (H1 & H2 & _). apply IH in Hl as [H3 H4]. split; [by constructor|]. rewrite !fmap_cons. by f_equal.
Qed.

Lemma validateAndNormalize_ready query a a' : validateAndNormalizeAllocation query a = Ok a' ->
  allocation_ready query a' /\ src_Source <$> al_Sources a' = src_Source <$> al_Sources a.
Proof.
  unfold validateAndNormalizeAllocation. case_bool_decide as Hs; [|done]. destruct (Z.eqb_spec (al_ChainID a) (sq_ChainID query)) as [Hc|]; [|done].
  cbn [negb]. cbv zeta. destruct (match sq_BlockNumber query with Some _ => _ | None => _ end) eqn:Hb; [done|].
  case_bool_decide as Ha; [done|]. unfold first_some.
  destruct (snapshot_validateDecimal "totalAssets" _) eqn:H1; [done|]. destruct (snapshot_validateDecimal "totalSupply" _) eqn:H2; [done|].
  destruct (snapshot_validateDecimal "idleBalance" _) eqn:H3; [done|].
  destruct (String.eqb (al_NetAssets a) ""); [done|]. destruct (SetString10 (al_NetAssets a)) as [n|] eqn:Hn; [|done].
  intros H. apply result_bind_Ok in H as (l & Hl & [= <-]). apply validate_sources_ready in Hl as [Hl1 Hl2].
  apply validateDecimal_ready in H1, H2, H3. split; [|done]. unfold allocation_ready. cbn. split_and!; [done|done| |done|done|done|done|by rewrite Hn|done].
  intros m Hm. rewrite Hm in Hb. by destruct (decide (al_BlockNumber a = Some m)) as [|Hne]; [|rewrite bool_decide_eq_false_2 in Hb].
Qed.

Lemma decodeHTTPError_kind resp : Is (HTTPError_Error (decodeHTTPError resp)) (PartnerError Snapshotd_ (http_kind (hr_Status resp))) = true /\
  se_StatusCode (decodeHTTPError resp) = hr_Status resp.
Proof.
  assert (Hw : forall h, wraps (HTTPError_Error h) = wraps (se_Err h)) by (intros h; unfold HTTPError_Error; cbv zeta; by repeat case_match).
  unfold Is. rewrite Hw. unfold decodeHTTPError. destruct (readBounded _ _) as [body|e]; cbn; split; try done; apply bool_decide_eq_true; set_solver.
Qed.

(** One request, whatever comes of it. *)
Lemma snapshot_getJSON_spec {A} endpoint (decode : json -> result GoError A) log :
  let '(r, log') := snapshot_getJSON answers endpoint decode log in
  log' = log ++ [mkRequest "GET" endpoint (header_Set "Accept" "application/json" ∅) ""] /\
  (forall e h, r = Err e -> sn_http e = Some h -> Is (sn_err e) (PartnerError Snapshotd_ (http_kind (se_StatusCode h))) = true) /\
  (forall x, r = Ok x -> exists resp, r_Do (answers (length log)) = Ok resp /\ success (hr_Status resp) = true).
Proof.
  unfold snapshot_getJSON, finish, exchange, snapshot_send. destruct (r_NewRequest _); [by split_and!; [|intros ? ? [= <-]|..]|].
  destruct (r_Do _) as [resp|e] eqn:Hd; [|by split_and!; [|intros ? ? [= <-]|..]].
  destruct (success (hr_Status resp)) eqn:Hs; cbn [negb].
  - destruct (readBounded _ _) as [body|e]; [|by split_and!; [|intros ? ? [= <-]|..]].
    destruct (json_parse body) as [v|e]; [|by split_and!; [|intros ? ? [= <-]|..]]. cbn.
    destruct (decode v) as [x|e]; [|by split_and!; [|intros ? ? [= <-]|..]]. split_and!; [done|done|by eexists].
  - split_and!; [done| |done]. intros e h [= <-] [= <-]. destruct (decodeHTTPError_kind resp) as [H1 H2]. by rewrite H2.
Qed.

(** Whatever the snapshot service answers: an allocation returned is of the
    strategy, the chain and the block asked for, with an asset, totals and source
    values that are nonnegative integers (net assets an integer), sources and
    oracles that are real addresses and no failed source; a price per share is a
    nonnegative integer; both come of a 2xx answer to one GET; and an error of the
    service carries the sentinel of its status and no other. *)
Theorem snapshots_sound (c : snapshotd_client) (query : SnapshotQuery) log :
  match GetAllocation hash_zero answers c query log with
  | (Ok a, log') => allocation_ready query a /\ length log' = S (length log)
  | (Err e, log') => forall h, sn_http e = Some h -> Is (sn_err e) (PartnerError Snapshotd_ (http_kind (se_StatusCode h))) = true
  end /\
  match GetPPS answers c query log with
  | (Ok pps, log') => natural_text pps /\ length log' = S (length log)
  | (Err e, log') => forall h, sn_http e = Some h -> Is (sn_err e) (PartnerError Snapshotd_ (http_kind (se_StatusCode h))) = true
  end.
Proof.
  unfold GetAllocation, GetPPS, finish, on_error. destruct (validateQuery query); [done|]. split.
  - pose proof (snapshot_getJSON_spec (snapshot_endpoint c "allocation" query) (decode_allocation hash_zero) log) as H.
    destruct (snapshot_getJSON _ _ _ _) as [[a|e] log']; destruct H as (-> & He & _); [|by intros h; apply (He e h)].
    destruct (validateAndNormalizeAllocation query a) as [a'|e] eqn:Ha; [|done]. apply validateAndNormalize_ready in Ha as [Ha _].
    split; [done|]. rewrite length_app. cbn [length]. lia.
  - pose proof (snapshot_getJSON_spec (snapshot_endpoint c "pps" query) (f_string "pps") log) as H.
    destruct (snapshot_getJSON _ _ _ _) as [[a|e] log']; destruct H as (-> & He & _); [|by intros h; apply (He e h)].
    destruct (snapshot_validateDecimal "pps" a) eqn:Hp; [done|]. apply validateDecimal_ready in Hp. split; [done|]. rewrite length_app. cbn [length]. lia.
Qed.

(** A price need not be a number: NaN is not zero. *)
Lemma axiom_nan_price chainID token resp now body :
  hr_Status resp = 200 -> ReadAll (Z.shiftl 1 20) resp = Ok body -> json_parse body = Ok (JObject [("value", JString "NaN")]) ->
  axiom_read chainID token resp now = Ok (mkTokenPrice chainID token S754_nan now).
Proof. intros Hs Hr Hp. unfold axiom_read, axiom_decodeStatus. rewrite Hs, Hr, Hp. reflexivity. Qed.
End sound.
