(* ===== verification/Prices.v ===== *)
(** * Price and portfolio services (providers/defillama, debank, finnhub, zerion)

    The chains each service knows, the requests, the typed answers, and what the
    callers are given.  The text of a value that a decoder reads raw is the one
    [json.Marshal] writes. *)
From Stdlib Require Import Ascii Strings.Byte SpecFloat.
From S2P Require Import HttpClient.
From S2P Require Filter.
From S2P Require Import Partner.
From S2P Require Export Services Dex.
Local Open Scope Z_scope.
Local Open Scope go_scope.

Definition apply_options {C} (opts : list (option (C -> C))) (c : C) : C := foldl (fun c f => match f with Some f => f c | None => c end) c opts.
Definition lookup_chain {A} (chainID : Z) (table : list (Z * A)) : option A := snd <$> List.find (fun kv => kv.1 =? chainID) table.

(** [int64(f)]: truncated, and the least integer where it does not fit (amd64). *)
Definition int64_trunc (f : float64) : Z :=
  match f with
  | S754_finite sign m e =>
      let n := if 0 <=? e then Zpos m * 2 ^ e else Zpos m / 2 ^ (- e) in
      let n := if sign then - n else n in
      if (- 2 ^ 63 <=? n) && (n <? 2 ^ 63) then n else - 2 ^ 63
  | S754_zero _ => 0
  | _ => - 2 ^ 63
  end.

(** ** DefiLlama *)

Definition coinsBaseUrl : string := "https://coins.llama.fi".
Definition defillama_chains : list (Z * string) := [
  (MainnetChainID, "ethereum"); (OptimismChainID, "optimism"); (BscChainID, "bsc"); (MaticChainID, "polygon"); (ArbitrumChainID, "arbitrum");
  (AvalancheChainID, "avax"); (BaseChainID, "base"); (UnichainChainID, "unichain"); (HyperEvmChainID, "hyperliquid"); (FlareChainID, "flare");
  (RobinhoodChainID, "robinhood"); (ArcChainID, "arc"); (GnosisChainID, "xdai"); (SonicChainID, "sonic"); (WorldChainID, "worldchain");
  (MantleChainID, "mantle"); (LineaChainID, "linea"); (BeraChainID, "berachain"); (StableChainID, "stable"); (KatanaChainID, "katana")].

(** Blank names are left out. *)
Definition cloneChainMap (chainToName : gmap Z string) : gmap Z string :=
  omap (fun name => let name := TrimSpace name in if String.eqb name "" then None else Some name) chainToName.

Section defillama.
Context `{G : GoEthereum} `{AB : !Abi} `{HA : HexAddress} `{U : UnicodeTables} `{JE : JsonErrors} `{JB : JsonBody}.

Record Coin := mkCoin {
  co_ChainId : Z; co_Address : Address; co_Decimals : Z; co_Price : float64; co_Symbol : string; co_Timestamp : Z; co_Confidence : float64 }.
Record QueryTokenPrice := mkQueryTokenPrice { qt_ChainId : Z; qt_TokenAddress : Address }.
Record defiLlama := mkDefiLlama { dl_coinsBaseUrl : string; dl_client : option dex_http; dl_chainToName : gmap Z string }.
Definition defillama_Option : Type := defiLlama -> defiLlama.
Definition defillama_WithBaseURL (baseURL : string) : defillama_Option := fun d =>
  let baseURL := trim_slashes baseURL in if String.eqb baseURL "" then d else mkDefiLlama baseURL (dl_client d) (dl_chainToName d).
Definition defillama_WithHTTPClient (client : bool) : defillama_Option := fun d =>
  if client then mkDefiLlama (dl_coinsBaseUrl d) (Some Injected) (dl_chainToName d) else d.
Definition WithChainMap (chainMap : gmap Z string) : defillama_Option := fun d =>
  if decide (chainMap = ∅) then d else mkDefiLlama (dl_coinsBaseUrl d) (dl_client d) (cloneChainMap chainMap).

Definition defillama_New (opts : list (option defillama_Option)) : defiLlama :=
  let d := apply_options opts (mkDefiLlama coinsBaseUrl None (cloneChainMap (list_to_map defillama_chains))) in
  match dl_client d with
  | Some _ => d
  | None => mkDefiLlama (dl_coinsBaseUrl d) (Some (Built (BuildClient (SetRetry 0 (2 * nanosPerSecond) NewClientBuilder)))) (dl_chainToName d)
  end.

(** The price is a number or the text of one. *)
Definition coin_price (raw : option json) : result GoError float64 :=
  match raw with
  | None | Some JNull => Ok float_zero
  | Some v =>
      let text := match v with JString s => TrimSpace s | v => json_Marshal v end in
      if String.eqb text "" || String.eqb text "null" then Ok float_zero
      else match strconv_ParseFloat text with
           | Ok price => Ok price
           | Err e => Err (Errorf_w ("defillama: invalid price " +:+ json_Marshal v +:+ ": ") e "")
           end
  end.

Definition Coin_UnmarshalJSON (data : json) : result GoError Coin :=
  let? decimals := field (d_int 32 "int32") 0 "decimals" data in
  let? symbol := f_string "symbol" data in
  let? timestamp := f_int "timestamp" data in
  let? confidence := f_float "confidence" data in
  let? raw := field d_raw None "price" data in
  let? price := coin_price raw in
  Ok (mkCoin 0 address_zero decimals price symbol timestamp confidence).
Definition coin_for (chainID : Z) (token : Address) (c : Coin) : Coin :=
  mkCoin chainID token (co_Decimals c) (co_Price c) (co_Symbol c) (co_Timestamp c) (co_Confidence c).

Definition decode_coins (raw : json) : result GoError (gmap string Coin) := field (d_map Coin_UnmarshalJSON "map[string]defillama.Coin") ∅ "coins" raw.

Variable answers : nat -> reply.
Variable d : defiLlama.

(** A native token is the zero address here. *)
Definition llama_token (tokenAddress : Address) : Address := if IsNativeToken (TokenAddress tokenAddress) then nullAddress else tokenAddress.

Definition chainAndAddress (chainID : Z) (token : Address) : result GoError string :=
  match dl_chainToName d !! chainID with
  | Some chainName => Ok (chainName +:+ ":" +:+ Address_Hex token)
  | None => Err (Errorf_w "" ErrUnsupportedChain_v (": " +:+ pretty chainID))
  end.

Definition llama_send (a : reply) : result GoError HttpResponse :=
  match r_NewRequest a with
  | Some e => Err (Errorf_w "failed to get prices: creating GET request: " e "")
  | None => match r_Do a with Err e => Err (Errorf_w "failed to get prices: " e "") | Ok resp => Ok resp end
  end.

Definition llama_get (path : string) : Run GoError (gmap string Coin) :=
  finish (exchange answers (mkRequest "GET" path ∅ "") llama_send) (fun resp =>
    if negb (success (hr_Status resp)) then
      Err (errors_New ("defillama API returned status " +:+ pretty (hr_Status resp) +:+ ": " +:+ TrimSpace (first_error_bytes resp)))
    else match (let? v := json_decode (hr_Body resp) (hr_BodyErr resp) in decode_coins v) with
         | Err e => Err (Errorf_w "failed to decode prices: " e "")
         | Ok coins => Ok coins
         end).

Definition getCoins (tokenIDs : string) : Run GoError (gmap string Coin) := llama_get (dl_coinsBaseUrl d +:+ "/prices/current/" +:+ tokenIDs).
Definition getHistoricalCoins (timestamp : Z) (tokenIDs : string) : Run GoError (gmap string Coin) :=
  llama_get (dl_coinsBaseUrl d +:+ "/prices/historical/" +:+ pretty (timestamp / nanosPerSecond) +:+ "/" +:+ tokenIDs).

Definition defillama_HealthCheck : Run GoError unit :=
  finish (getCoins "ethereum:0xa0b86991c6218b36c1d19d4a2e9eb0ce3606eb48") (fun _ => Ok tt).

Definition pick_coin (chainID : Z) (tokenAddress : Address) (key : string) (coins : gmap string Coin) : result GoError Coin :=
  match coins !! key with Some coin => Ok (coin_for chainID tokenAddress coin) | None => Err ErrTokenNotFound_v end.

Definition GetCoin (chainID : Z) (tokenAddress : Address) : Run GoError Coin :=
  match chainAndAddress chainID (llama_token tokenAddress) with
  | Err e => fail e
  | Ok key => finish (getCoins key) (pick_coin chainID tokenAddress key)
  end.

Definition GetHistoricalCoin (chainID : Z) (tokenAddress : Address) (timestamp : Z) : Run GoError Coin :=
  match chainAndAddress chainID (llama_token tokenAddress) with
  | Err e => fail e
  | Ok key => finish (getHistoricalCoins timestamp key) (pick_coin chainID tokenAddress key)
  end.

(** The key of a token whose chain is known. *)
Definition token_key (t : QueryTokenPrice) : option string :=
  match chainAndAddress (qt_ChainId t) (llama_token (qt_TokenAddress t)) with Ok key => Some key | Err _ => None end.

Definition found_coin (coins : gmap string Coin) (t : QueryTokenPrice) : option Coin :=
  key ← token_key t; coin ← coins !! key; Some (coin_for (qt_ChainId t) (qt_TokenAddress t) coin).

Definition GetMultipleCoins (tokens : list QueryTokenPrice) : Run GoError (list Coin) :=
  match omap token_key tokens with
  | [] => ret []
  | tokenIds => finish (getCoins (strings_Join "," tokenIds)) (fun coins => Ok (omap (found_coin coins) tokens))
  end.

(** In some order. *)
Definition defillama_SupportedChains : list Z := fst <$> map_to_list (dl_chainToName d).
End defillama.

(** ** Debank *)

Definition debankBaseURL : string := "https://pro-openapi.debank.com/v1".
Definition maxTokenListByIDs : Z := 100.
Definition debank_chains : list (Z * string) := [
  (MainnetChainID, "eth"); (FlareChainID, "flr"); (StableChainID, "stable"); (SonicChainID, "sonic"); (AvalancheChainID, "avax"); (OptimismChainID, "op");
  (ArbitrumChainID, "arb"); (BaseChainID, "base"); (BeraChainID, "bera"); (LineaChainID, "linea"); (BoBChainID, "bob"); (UnichainChainID, "uni");
  (WorldChainID, "world"); (BscChainID, "bsc"); (MaticChainID, "matic"); (GnosisChainID, "xdai"); (PlumeChainID, "plume"); (HyperEvmChainID, "hyper");
  (RobinhoodChainID, "hood"); (ArcChainID, "arc"); (KatanaChainID, "katana")].

Definition ChainToName (chainID : Z) : result GoError string :=
  match lookup_chain chainID debank_chains with Some name => Ok name | None => Err (errors_New ("chain ID " +:+ pretty chainID +:+ " not found")) end.
(** The names differ, so the order of the map does not matter. *)
Definition ChainNameToID (chainName : string) : Z :=
  match List.find (fun kv => String.eqb kv.2 chainName) debank_chains with Some kv => kv.1 | None => 0 end.
Definition debank_SupportedChains : list Z := fst <$> debank_chains.

Section debank.
Context `{G : GoEthereum} `{AB : !Abi} `{HA : HexAddress} `{JE : JsonErrors} `{JB : JsonBody} `{U : UnicodeTables}.

Record debank_Token := mkDebankToken {
  dt_Address : Address; dt_ChainID : Z; dt_Name : string; dt_Symbol : string; dt_DisplaySymbol : string; dt_OptimizedSymbol : string; dt_Decimals : Z;
  dt_LogoURL : string; dt_ProtocolID : string; dt_Price : float64; dt_TimeAt : Z; dt_IsScam : bool; dt_IsSuspicious : bool; dt_LowCreditScore : bool;
  dt_IsVerified : bool; dt_IsCore : bool; dt_IsWallet : bool; dt_Amount : float64; dt_RawAmount : Z; dt_CreditScore : float64 }.
Record Stats := mkStats { st_AssetUSDValue : float64; st_DebtUSDValue : float64; st_NetUSDValue : float64 }.
Record AssetToken := mkAssetToken {
  as_ID : string; as_Chain : string; as_Name : string; as_Symbol : string; as_DisplaySymbol : option string; as_OptimizedSymbol : string;
  as_Decimals : Z; as_LogoURL : string; as_ProtocolID : string; as_Price : float64; as_IsVerified : bool; as_IsCore : bool; as_IsWallet : bool;
  as_TimeAt : float64; as_Amount : float64 }.
Record PortfolioDetail := mkPortfolioDetail { pd_SupplyTokenList : list AssetToken; pd_Description : string }.
Record Pool := mkPool { pl_ID : string; pl_Chain : string; pl_ProjectID : string; pl_AdapterID : string; pl_Controller : string; pl_Index : option string; pl_TimeAt : Z }.
Record PortfolioItem := mkPortfolioItem {
  pi_Stats : Stats; pi_AssetDict : gmap string float64; pi_AssetTokenList : list AssetToken; pi_WithdrawActions : list json; pi_UpdateAt : float64;
  pi_Name : string; pi_DetailTypes : list string; pi_Detail : PortfolioDetail; pi_ProxyDetail : gmap string json; pi_Pool : Pool }.
Record ProtocolPortfolio := mkProtocolPortfolio {
  pp_ID : string; pp_Chain : string; pp_Name : string; pp_SiteURL : string; pp_LogoURL : string; pp_HasSupportedPortfolio : bool; pp_TVL : float64;
  pp_PortfolioItemList : list PortfolioItem }.
Record AccountCreditStat := mkCreditStat { cs_Usage : Z; cs_Remains : Z; cs_Date : string }.
Record AccountCredits := mkCredits { ac_Balance : Z; ac_Stats : list AccountCreditStat }.

(** [big.Int.UnmarshalJSON]: a JSON number that is an integer. *)
Definition big_UnmarshalJSON (v : json) : result GoError Z :=
  let bad := Err (errors_New ("math/big: cannot unmarshal " +:+ strconv_Quote (json_Marshal v) +:+ " into a *big.Int")) in
  match v with JNumber text => match SetString10 text with Some n => Ok n | None => bad end | _ => bad end.

Definition Token_UnmarshalJSON (data : json) : result GoError debank_Token :=
  let? id := f_string "id" data in
  let? chain := f_string "chain" data in
  let? _ := f_uint 64 "uint64" "chain_id" data in
  let? name := f_string "name" data in
  let? symbol := f_string "symbol" data in
  let? display := f_string "display_symbol" data in
  let? optimized := f_string "optimized_symbol" data in
  let? decimals := f_uint 32 "uint32" "decimals" data in
  let? logo := f_string "logo_url" data in
  let? protocol := f_string "protocol_id" data in
  let? price := f_float "price" data in
  let? timeAt := f_float "time_at" data in
  let? isScam := f_bool "is_scam" data in
  let? isSuspicious := f_bool "is_suspicious" data in
  let? lowCredit := f_bool "low_credit_score" data in
  let? isVerified := f_bool "is_verified" data in
  let? isCore := f_bool "is_core" data in
  let? isWallet := f_bool "is_wallet" data in
  let? amount := f_float "amount" data in
  let? _ := f_string "amount_corrected" data in
  let? raw := field (d_pointer (d_custom big_UnmarshalJSON) 0) None "raw_amount" data in
  let? credit := f_float "credit_score" data in
  let chainID := if String.eqb chain "" then 0 else ChainNameToID chain in
  let id := if String.eqb id chain then Address_Hex nativeToken else id in
  Ok (mkDebankToken (HexToAddress id) chainID name symbol display optimized decimals logo protocol price (int64_trunc timeAt) isScam isSuspicious
        lowCredit isVerified isCore isWallet amount (default 0 raw) credit).

Definition decode_stats (raw : json) : result GoError Stats :=
  let? asset := f_float "asset_usd_value" raw in
  let? debt := f_float "debt_usd_value" raw in
  let? net := f_float "net_usd_value" raw in
  Ok (mkStats asset debt net).
Definition decode_asset_token (raw : json) : result GoError AssetToken :=
  let? id := f_string "id" raw in
  let? chain := f_string "chain" raw in
  let? name := f_string "name" raw in
  let? symbol := f_string "symbol" raw in
  let? display := field (d_pointer d_string "") None "display_symbol" raw in
  let? optimized := f_string "optimized_symbol" raw in
  let? decimals := f_int "decimals" raw in
  let? logo := f_string "logo_url" raw in
  let? protocol := f_string "protocol_id" raw in
  let? price := f_float "price" raw in
  let? isVerified := f_bool "is_verified" raw in
  let? isCore := f_bool "is_core" raw in
  let? isWallet := f_bool "is_wallet" raw in
  let? timeAt := f_float "time_at" raw in
  let? amount := f_float "amount" raw in
  Ok (mkAssetToken id chain name symbol display optimized decimals logo protocol price isVerified isCore isWallet timeAt amount).
Definition decode_detail (raw : json) : result GoError PortfolioDetail :=
  let? supply := f_list decode_asset_token "supply_token_list" raw in
  let? description := f_string "description" raw in
  Ok (mkPortfolioDetail supply description).
Definition decode_pool (raw : json) : result GoError Pool :=
  let? id := f_string "id" raw in
  let? chain := f_string "chain" raw in
  let? project := f_string "project_id" raw in
  let? adapter := f_string "adapter_id" raw in
  let? controller := f_string "controller" raw in
  let? index := field (d_pointer d_string "") None "index" raw in
  let? timeAt := f_int64 "time_at" raw in
  Ok (mkPool id chain project adapter controller index timeAt).
Definition decode_portfolio_item (raw : json) : result GoError PortfolioItem :=
  let? stats := f_struct decode_stats "stats" raw in
  let? dict := field (d_map (d_float64 float_zero) "map[string]float64") ∅ "asset_dict" raw in
  let? assets := f_list decode_asset_token "asset_token_list" raw in
  let? actions := f_list (fun v => Ok v) "withdraw_actions" raw in
  let? updateAt := f_float "update_at" raw in
  let? name := f_string "name" raw in
  let? types := field strings [] "detail_types" raw in
  let? detail := f_struct decode_detail "detail" raw in
  let? proxy := field (d_map (fun v => Ok v) "map[string]interface {}") ∅ "proxy_detail" raw in
  let? pool := f_struct decode_pool "pool" raw in
  Ok (mkPortfolioItem stats dict assets actions updateAt name types detail proxy pool).
Definition decode_portfolio (raw : json) : result GoError ProtocolPortfolio :=
  let? id := f_string "id" raw in
  let? chain := f_string "chain" raw in
  let? name := f_string "name" raw in
  let? site := f_string "site_url" raw in
  let? logo := f_string "logo_url" raw in
  let? supported := f_bool "has_supported_portfolio" raw in
  let? tvl := f_float "tvl" raw in
  let? items := f_list decode_portfolio_item "portfolio_item_list" raw in
  Ok (mkProtocolPortfolio id chain name site logo supported tvl items).
Definition decode_credits (raw : json) : result GoError AccountCredits :=
  let? balance := f_int64 "balance" raw in
  let? stats := f_list (fun raw =>
    let? usage := f_int64 "usage" raw in
    let? remains := f_int64 "remains" raw in
    let? date := f_string "date" raw in
    Ok (mkCreditStat usage remains date)) "stats" raw in
  Ok (mkCredits balance stats).

Record debank := mkDebank { db_accessKey : string; db_baseUrl : string; db_client : option dex_http; db_maxRetries : option Z; db_retryDelay : option Z }.
Definition debank_Option : Type := debank -> debank.
Definition debank_WithBaseURL (baseURL : string) : debank_Option := fun d =>
  let baseURL := trim_slashes baseURL in if String.eqb baseURL "" then d else mkDebank (db_accessKey d) baseURL (db_client d) (db_maxRetries d) (db_retryDelay d).
Definition debank_WithHTTPClient (client : bool) : debank_Option := fun d =>
  if client then mkDebank (db_accessKey d) (db_baseUrl d) (Some Injected) (db_maxRetries d) (db_retryDelay d) else d.
Definition debank_WithRetry (maxRetries retryDelay : Z) : debank_Option := fun d =>
  mkDebank (db_accessKey d) (db_baseUrl d) (db_client d) (Some maxRetries) (Some retryDelay).

Definition debank_New (accessKey : string) (opts : list (option debank_Option)) : result GoError debank :=
  let accessKey := TrimSpace accessKey in
  if String.eqb accessKey "" then Err (errors_New "debank: accessKey is required")
  else
    let d := apply_options opts (mkDebank accessKey debankBaseURL None None None) in
    Ok (match db_client d with
        | Some _ => d
        | None =>
            let builder := SetRetry 0 0 NewClientBuilder in
            let builder := match db_maxRetries d, db_retryDelay d with Some n, Some t => SetRetry n t builder | _, _ => builder end in
            mkDebank (db_accessKey d) (db_baseUrl d) (Some (Built (BuildClient builder))) (db_maxRetries d) (db_retryDelay d)
        end).

Variable answers : nat -> reply.
Variable d : debank.

Definition decodeDebankResponse (resp : HttpResponse) (operation : string) : option GoError :=
  if success (hr_Status resp) then None
  else
    let body := TrimSpace (stake 1024 (hr_Body resp)) in
    let text := operation +:+ " non-200 status: " +:+ pretty (hr_Status resp) in
    Some (errors_New (if String.eqb body "" then text else text +:+ ": " +:+ body)).

(** A request, its status checked and its answer decoded; [what] was to be had. *)
Definition debank_get {A} (path what operation : string) (decode : json -> result GoError A) : Run GoError A :=
  let h := if String.eqb (db_accessKey d) "" then ∅ else header_Set "AccessKey" (db_accessKey d) ∅ in
  finish
    (exchange answers (mkRequest "GET" (db_baseUrl d +:+ path) h "") (fun a =>
      match r_NewRequest a with
      | Some e => Err (Errorf_w "failed to create debank request: " e "")
      | None => match r_Do a with Err e => Err (Errorf_w ("failed to get " +:+ what +:+ ": ") e "") | Ok resp => Ok resp end
      end))
    (fun resp =>
      match decodeDebankResponse resp operation with
      | Some e => Err e
      | None =>
          match (let? v := json_decode (hr_Body resp) (hr_BodyErr resp) in decode v) with
          | Err e => Err (Errorf_w ("failed to decode " +:+ operation +:+ " response: ") e "")
          | Ok out => Ok out
          end
      end).

(** The native token goes by the name of its chain. *)
Definition debank_token_id (chainName : string) (tokenAddress : Address) : string :=
  if IsNullAddress (TokenAddress tokenAddress) || IsNativeToken (TokenAddress tokenAddress) then chainName else Address_Hex tokenAddress.

Definition GetToken (chainID : Z) (tokenAddress : Address) : Run GoError debank_Token :=
  match ChainToName chainID with
  | Err e => fail e
  | Ok chainName =>
      finish (debank_get ("/token?chain_id=" +:+ QueryEscape chainName +:+ "&id=" +:+ QueryEscape (debank_token_id chainName tokenAddress))
                "token" "debank token" Token_UnmarshalJSON)
        (fun t => if dt_ChainID t =? 0 then Err (errors_New "token not found") else Ok t)
  end.

Definition GetHistoryTokenPrice (chainID : Z) (tokenAddress : Address) (timestamp : Z) : Run GoError float64 :=
  match ChainToName chainID with
  | Err e => fail e
  | Ok chainName =>
      finish (debank_get ("/token/history_price?chain_id=" +:+ QueryEscape chainName +:+ "&id=" +:+ QueryEscape (debank_token_id chainName tokenAddress) +:+
                  "&date_at=" +:+ QueryEscape (FormatDate timestamp)) "token" "debank token history" Token_UnmarshalJSON)
        (fun t => Ok (dt_Price t))
  end.

Definition tokenFilter (t : debank_Token) : bool := if dt_IsVerified t then dt_IsVerified t else dt_IsCore t.

Definition GetTokenBalances (address : string) (filterTokens : bool) : Run GoError (list debank_Token) :=
  let address := TrimSpace address in
  if String.eqb address "" then ret []
  else
    let address := if IsHexAddress address then ChecksumAddress address else address in
    finish (debank_get ("/user/all_token_list?id=" +:+ QueryEscape address +:+ "&is_all=true") "token balances for user" "debank token list"
              (d_list Token_UnmarshalJSON []))
      (fun tokens => Ok (if filterTokens then Filter.Filter tokenFilter tokens else tokens)).

(** The loop of [debankTokenIDList]: [seen] holds what was kept. *)
Fixpoint unique_ids (seen : gset string) (ids : list string) : list string :=
  match ids with
  | [] => []
  | id :: ids =>
      let id := TrimSpace id in
      if String.eqb id "" then unique_ids seen ids
      else if bool_decide (id ∈ seen) then unique_ids seen ids
      else id :: unique_ids ({[id]} ∪ seen) ids
  end.
Definition debankTokenIDList (chainID : Z) (tokenAddresses : list Address) : result GoError (string * list string) :=
  let? chainName := ChainToName chainID in
  Ok (chainName, sort_stable String.compare (unique_ids ∅ (debank_token_id chainName <$> tokenAddresses))).

Definition getTokenBatch (chainName : string) (ids : list string) : Run GoError (list debank_Token) :=
  finish (debank_get ("/token/list_by_ids?chain_id=" +:+ QueryEscape chainName +:+ "&ids=" +:+ QueryEscape (strings_Join "," ids))
            "token list by ids" "debank token/list_by_ids" (d_list Token_UnmarshalJSON []))
    (fun tokens => Ok (List.filter (fun t => negb (dt_ChainID t =? 0)) tokens)).

Fixpoint token_batches (chainName : string) (batches : list (list string)) : Run GoError (list debank_Token) :=
  match batches with
  | [] => ret []
  | batch :: batches => then_ (getTokenBatch chainName batch) (fun tokens => finish (token_batches chainName batches) (fun rest => Ok (tokens ++ rest)))
  end.
Definition GetTokens (chainID : Z) (tokenAddresses : list Address) : Run GoError (list debank_Token) :=
  match debankTokenIDList chainID tokenAddresses with
  | Err e => fail e
  | Ok (chainName, ids) => token_batches chainName (Filter.Chunk ids maxTokenListByIDs)
  end.

Definition GetAccountCredits : Run GoError AccountCredits := debank_get "/account/units" "account credits" "debank account/units" decode_credits.

Definition GetProtocolPortfolios (userAddress : string) : Run GoError (list ProtocolPortfolio) :=
  debank_get ("/user/all_complex_protocol_list?id=" +:+ QueryEscape (TrimSpace userAddress)) "complex protocols" "debank all_complex_protocol_list"
    (d_list decode_portfolio []).
End debank.

(** ** Finnhub *)

Definition finnhub_BaseURL : string := "https://finnhub.io/api/v1".
Definition finnhub_profilePath : string := "/stock/profile2".
Definition basicMetricsPath : string := "/stock/metric".
Definition finnhub_authHeader : string := "X-Finnhub-Token".
Definition finnhub_UserAgent : string := "superform-go-utils/finnhub".
Definition defaultMetric : string := "all".
Definition finnhub_maxResponseBody : Z := Z.shiftl 16 20.
Definition finnhub_maxErrorResponse : nat := 1024.
Definition peMetricPriority : list string := ["peTTM"; "peNormalizedAnnual"; "peBasicExclExtraTTM"; "peExclExtraTTM"; "peInclExtraTTM"; "peAnnual"].

Record CompanyProfile := mkCompanyProfile {
  pf_Country : string; pf_Currency : string; pf_Exchange : string; pf_FinnhubIndustry : string; pf_IPO : string; pf_Logo : string;
  pf_MarketCapitalization : option float64; pf_Name : string; pf_Phone : string; pf_ShareOutstanding : option float64; pf_Ticker : string; pf_WebURL : string }.
Record BasicFinancialsRequest := mkFinancialsRequest { fr_Symbol : string; fr_Metric : string }.
Record MetricPoint := mkMetricPoint { mp_Period : string; mp_Value : option float64 }.
Record BasicFinancials := mkBasicFinancials {
  bf_Symbol : string; bf_MetricType : string; bf_Metric : gmap string json; bf_Series : gmap string (gmap string (list MetricPoint)) }.
Record StockFundamentals := mkFundamentals {
  sf_Symbol : string; sf_Name : string; sf_Currency : string; sf_Exchange : string; sf_FinnhubIndustry : string; sf_MarketCapitalization : option float64;
  sf_ShareOutstanding : option float64; sf_PERatio : option float64; sf_PERatioMetric : string; sf_BasicFinancials : BasicFinancials;
  sf_CompanyProfile : CompanyProfile }.

(** An error, and the [*HTTPError] (status and body) and [*APIError] (message) in it. *)
Record FinnhubError := mkFinnhubError { fe_err : GoError; fe_http : option (Z * string); fe_api : option string }.
Definition finn (e : GoError) : FinnhubError := mkFinnhubError e None None.
Definition finn_http (status : Z) (body : string) : FinnhubError :=
  mkFinnhubError (errors_New (if String.eqb body "" then "status " +:+ pretty status else "status " +:+ pretty status +:+ ": " +:+ body)) (Some (status, body)) None.
Definition wrap_finn (pre : string) (e : FinnhubError) : FinnhubError := mkFinnhubError (Errorf_w pre (fe_err e) "") (fe_http e) (fe_api e).

Record finnhub_client := mkFinnhub {
  fh_apiKey : string; fh_baseURL : string; fh_userAgent : string; fh_client : option dex_http; fh_limiter : bool; fh_timeout : option Z;
  fh_maxRetries : option Z; fh_retryDelay : option Z }.
Definition finnhub_Option : Type := finnhub_client -> finnhub_client.
Definition finnhub_WithBaseURL (baseURL : string) : finnhub_Option := fun c =>
  let baseURL := trim_slashes baseURL in
  if String.eqb baseURL "" then c
  else mkFinnhub (fh_apiKey c) baseURL (fh_userAgent c) (fh_client c) (fh_limiter c) (fh_timeout c) (fh_maxRetries c) (fh_retryDelay c).
Definition finnhub_WithHTTPClient (client : bool) : finnhub_Option := fun c =>
  if client then mkFinnhub (fh_apiKey c) (fh_baseURL c) (fh_userAgent c) (Some Injected) (fh_limiter c) (fh_timeout c) (fh_maxRetries c) (fh_retryDelay c) else c.
(** Whether there is a limiter: none at a rate that is not positive. *)
Definition finnhub_WithRateLimit (qps : float64) : finnhub_Option := fun c =>
  mkFinnhub (fh_apiKey c) (fh_baseURL c) (fh_userAgent c) (fh_client c) (negb (SFleb qps float_zero)) (fh_timeout c) (fh_maxRetries c) (fh_retryDelay c).
Definition finnhub_WithTimeout (timeout : Z) : finnhub_Option := fun c =>
  mkFinnhub (fh_apiKey c) (fh_baseURL c) (fh_userAgent c) (fh_client c) (fh_limiter c) (Some timeout) (fh_maxRetries c) (fh_retryDelay c).
Definition finnhub_WithRetry (maxRetries retryDelay : Z) : finnhub_Option := fun c =>
  mkFinnhub (fh_apiKey c) (fh_baseURL c) (fh_userAgent c) (fh_client c) (fh_limiter c) (fh_timeout c) (Some maxRetries) (Some retryDelay).
Definition finnhub_WithUserAgent (userAgent : string) : finnhub_Option := fun c =>
  let userAgent := TrimSpace userAgent in
  if String.eqb userAgent "" then c
  else mkFinnhub (fh_apiKey c) (fh_baseURL c) userAgent (fh_client c) (fh_limiter c) (fh_timeout c) (fh_maxRetries c) (fh_retryDelay c).

Definition finnhub_New (apiKey : string) (opts : list (option finnhub_Option)) : result GoError finnhub_client :=
  let apiKey := TrimSpace apiKey in
  if String.eqb apiKey "" then Err (errors_New "finnhub api key is required")
  else
    let c := apply_options opts (mkFinnhub apiKey finnhub_BaseURL finnhub_UserAgent None false None None None) in
    Ok (match fh_client c with
        | Some _ => c
        | None =>
            let builder := SetRetry (default 0 (fh_maxRetries c)) (default nanosPerSecond (fh_retryDelay c))
              (SetTimeout (default (30 * nanosPerSecond) (fh_timeout c)) NewClientBuilder) in
            mkFinnhub (fh_apiKey c) (fh_baseURL c) (fh_userAgent c) (Some (Built (BuildClient builder))) (fh_limiter c) (fh_timeout c)
              (fh_maxRetries c) (fh_retryDelay c)
        end).

Section finnhub.
Context `{U : UnicodeTables} `{JE : JsonErrors} `{JT : JsonText} `{JS : JsonStream}.

Definition f_float_pointer (name : string) (raw : json) : result GoError (option float64) := field (d_pointer d_float64 float_zero) None name raw.

Definition decode_profile (raw : json) : result GoError CompanyProfile :=
  let? country := f_string "country" raw in
  let? currency := f_string "currency" raw in
  let? exchange := f_string "exchange" raw in
  let? industry := f_string "finnhubIndustry" raw in
  let? ipo := f_string "ipo" raw in
  let? logo := f_string "logo" raw in
  let? cap := f_float_pointer "marketCapitalization" raw in
  let? name := f_string "name" raw in
  let? phone := f_string "phone" raw in
  let? shares := f_float_pointer "shareOutstanding" raw in
  let? ticker := f_string "ticker" raw in
  let? weburl := f_string "weburl" raw in
  Ok (mkCompanyProfile country currency exchange industry ipo logo cap name phone shares ticker weburl).

Definition decode_point (raw : json) : result GoError MetricPoint :=
  let? period := f_string "period" raw in
  let? v := f_float_pointer "v" raw in
  Ok (mkMetricPoint period v).
Definition decode_financials (raw : json) : result GoError BasicFinancials :=
  let? symbol := f_string "symbol" raw in
  let? metricType := f_string "metricType" raw in
  let? metric := field (d_map (fun v => Ok v) "map[string]json.RawMessage") ∅ "metric" raw in
  let? series := field (d_map (d_map (d_list decode_point []) "map[string]finnhub.MetricSeries" ∅) "map[string]map[string]finnhub.MetricSeries") ∅ "series" raw in
  Ok (mkBasicFinancials symbol metricType metric series).

Definition MetricValue (b : BasicFinancials) (name : string) : option float64 :=
  raw ← bf_Metric b !! name;
  match d_pointer d_float64 float_zero None raw with Ok v => v | Err _ => None end.
Definition MetricString (b : BasicFinancials) (name : string) : option string :=
  raw ← bf_Metric b !! name;
  match d_string "" raw with Ok v => if String.eqb v "" then None else Some v | Err _ => None end.
Fixpoint firstMetricValue (b : BasicFinancials) (names : list string) : option (float64 * string) :=
  match names with
  | [] => None
  | name :: names => match MetricValue b name with Some v => Some (v, name) | None => firstMetricValue b names end
  end.
Fixpoint finnhub_firstString (values : list string) : string :=
  match values with [] => "" | v :: values => if String.eqb v "" then finnhub_firstString values else v end.

Definition normalizeSymbol (symbol : string) : result FinnhubError string :=
  let symbol := ToUpper (TrimSpace symbol) in if String.eqb symbol "" then Err (finn (errors_New "finnhub symbol is required")) else Ok symbol.
Definition normalizeMetric (metric : string) : string := let metric := TrimSpace metric in if String.eqb metric "" then defaultMetric else metric.

(** A body that is an error, whatever its status. *)
Definition embeddedAPIError (body : string) : option string :=
  match (let? v := json_parse body in f_string "error" v) with
  | Err _ => None
  | Ok text => let text := TrimSpace text in if String.eqb text "" then None else Some text
  end.

Variable answers : nat -> reply.
Variable c : finnhub_client.

Definition finnhub_endpoint (path : string) (values : Values) : string :=
  fh_baseURL c +:+ path +:+ (if decide (values = ∅) then "" else "?" +:+ Encode values).

Definition finnhub_send (a : reply) : result FinnhubError HttpResponse :=
  match (if fh_limiter c then r_Limiter a else None) with
  | Some e => Err (finn (Errorf_w "rate limit wait: " e ""))
  | None =>
      match r_NewRequest a with
      | Some e => Err (finn (Errorf_w "build request: " e ""))
      | None => match r_Do a with Err e => Err (finn (Errorf_w "request failed: " e "")) | Ok resp => Ok resp end
      end
  end.
Definition finnhub_headers : Header :=
  header_Set finnhub_authHeader (fh_apiKey c) (header_Set "User-Agent" (fh_userAgent c) (header_Set "Accept" "application/json" ∅)).

Definition finnhub_getBody (endpoint : string) : Run FinnhubError string :=
  finish (exchange answers (mkRequest "GET" endpoint finnhub_headers "") finnhub_send) (fun resp =>
    if negb (success (hr_Status resp)) then Err (finn_http (hr_Status resp) (TrimSpace (stake finnhub_maxErrorResponse (hr_Body resp))))
    else match ReadAll finnhub_maxResponseBody resp with
         | Err e => Err (finn (Errorf_w "read response: " e ""))
         | Ok body =>
             match embeddedAPIError body with Some text => Err (mkFinnhubError (errors_New text) None (Some text)) | None => Ok body end
         end).

Definition finnhub_decodeJSON {A} (decode : json -> result GoError A) (body : string) : result FinnhubError A :=
  match decode_first decode body with Err e => Err (finn (Errorf_w "decode response: " e "")) | Ok out => Ok out end.

Definition GetCompanyProfile (symbol : string) : Run FinnhubError CompanyProfile :=
  match normalizeSymbol symbol with
  | Err e => fail e
  | Ok symbol =>
      on_error (wrap_finn ("finnhub company profile " +:+ symbol +:+ ": "))
        (finish (finnhub_getBody (finnhub_endpoint finnhub_profilePath (values_Set "symbol" symbol ∅))) (finnhub_decodeJSON decode_profile))
  end.

Definition GetCompanyBasicFinancials (req : BasicFinancialsRequest) : Run FinnhubError BasicFinancials :=
  match normalizeSymbol (fr_Symbol req) with
  | Err e => fail e
  | Ok symbol =>
      on_error (wrap_finn ("finnhub company basic financials " +:+ symbol +:+ ": "))
        (finish (finnhub_getBody (finnhub_endpoint basicMetricsPath (values_Set "metric" (normalizeMetric (fr_Metric req)) (values_Set "symbol" symbol ∅))))
           (finnhub_decodeJSON decode_financials))
  end.

(** The fundamentals of a profile and the financials. *)
Definition fundamentals (symbol : string) (p : CompanyProfile) (b : BasicFinancials) : StockFundamentals :=
  let pe := firstMetricValue b peMetricPriority in
  mkFundamentals (finnhub_firstString [pf_Ticker p; bf_Symbol b; symbol]) (pf_Name p) (pf_Currency p) (pf_Exchange p) (pf_FinnhubIndustry p)
    (match pf_MarketCapitalization p with Some v => Some v | None => MetricValue b "marketCapitalization" end)
    (pf_ShareOutstanding p) (fst <$> pe) (from_option snd "" pe) b p.

Definition GetStockFundamentals (symbol : string) : Run FinnhubError StockFundamentals :=
  match normalizeSymbol symbol with
  | Err e => fail e
  | Ok symbol =>
      then_ (GetCompanyProfile symbol) (fun p =>
        finish (GetCompanyBasicFinancials (mkFinancialsRequest symbol defaultMetric)) (fun b => Ok (fundamentals symbol p b)))
  end.
End finnhub.

(** ** Zerion *)

Definition zerionBaseURL : string := "https://api.zerion.io/v1".
Definition IncludedHiddenChainsHeader : string := "X-Include-Hidden-Chains".
Definition zerion_chains : list (Z * string) := [
  (MainnetChainID, "ethereum"); (ArbitrumChainID, "arbitrum"); (BaseChainID, "base"); (BscChainID, "binance-smart-chain"); (OptimismChainID, "optimism");
  (MaticChainID, "polygon"); (AvalancheChainID, "avalanche"); (FlareChainID, "flare"); (UnichainChainID, "unichain"); (HyperEvmChainID, "hyperevm");
  (RobinhoodChainID, "robinhood"); (ArcChainID, "arc")].
Definition chainIDBySlug : list (string * Z) := [
  ("ethereum", MainnetChainID); ("arbitrum", ArbitrumChainID); ("base", BaseChainID); ("binance-smart-chain", BscChainID); ("optimism", OptimismChainID);
  ("polygon", MaticChainID); ("avalanche", AvalancheChainID); ("flare", FlareChainID); ("unichain", UnichainChainID); ("hyperevm", HyperEvmChainID);
  ("robinhood", RobinhoodChainID); ("arc", ArcChainID)].

Record WalletPositionsRequest := mkPositionsRequest {
  wr_ChainIDs : list Z; wr_ChainSlugs : list string; wr_PositionsFilter : string; wr_Currency : string; wr_TrashFilter : string; wr_Sort : string }.
Definition DefaultWalletPositionsRequest (chainIDs : list Z) : WalletPositionsRequest := mkPositionsRequest chainIDs [] "no_filter" "usd" "only_non_trash" "value".

Definition ChainSlug (chainID : Z) : option string := lookup_chain chainID zerion_chains.
Definition zerion_SupportedChains : list Z := sort_stable Z.compare (fst <$> zerion_chains).

(** The slugs of chains that are known and not blank, then without repeats, sorted. *)
Definition ChainFilterFromChainIDs (chainIDs : list Z) : string :=
  strings_Join "," (sort_stable String.compare
    (Filter.Unique (List.filter (fun slug => negb (String.eqb (TrimSpace slug) "")) (omap ChainSlug chainIDs)))).

Section zerion.
Context `{G : GoEthereum} `{AB : !Abi} `{U : UnicodeTables} `{JE : JsonErrors} `{JB : JsonBody} `{UQ : UrlQuery}.

Definition zerion_ChainID (slug : string) : option Z :=
  snd <$> List.find (fun kv => String.eqb kv.1 (ToLower (TrimSpace slug))) chainIDBySlug.

Definition clean_slugs (slugs : list string) : list string := List.filter (fun s => negb (String.eqb s "")) ((fun s => ToLower (TrimSpace s)) <$> slugs).
Definition ChainFilterFromSlugs (slugs : list string) : string := strings_Join "," (sort_stable String.compare (Filter.Unique (clean_slugs slugs))).

Record Quantity := mkQuantity { qy_RawAmount : option Z; qy_Decimals : Z }.
Record Implementation := mkImplementation { im_ChainID : Z; im_Address : Address; im_Decimals : Z; im_IsNative : bool }.
Record FungibleInfo := mkFungible {
  fi_ID : string; fi_Name : string; fi_Symbol : string; fi_Icon : string; fi_Verified : option bool; fi_Implementations : list Implementation }.
Record ReceiptNFTInfo := mkNFTInfo { ni_ChainSlug : string; ni_ContractAddress : string; ni_TokenID : string }.
Record zerion_Receipt := mkZerionReceipt { rc_FungibleInfo : option FungibleInfo; rc_NFTInfo : option ReceiptNFTInfo; rc_Quantity : option Quantity }.
Record PositionAttributes := mkAttributes {
  pa_Name : string; pa_Parent : option string; pa_Protocol : string; pa_ProtocolModule : string; pa_PoolAddress : Address; pa_GroupID : string;
  pa_PositionType : string; pa_Quantity : Quantity; pa_Value : float64; pa_Price : float64; pa_FungibleInfo : option FungibleInfo;
  pa_Flags : option (bool * bool); pa_UpdatedAt : string; pa_UpdatedAtBlock : option Z; pa_Receipt : option zerion_Receipt; pa_HasValue : bool;
  pa_HasPrice : bool }.
(** The types and ids of the related resources. *)
Record PositionRelationships := mkRelationships { rl_ChainID : Z; rl_Fungible : option (string * string); rl_Dapp : option (string * string) }.
Record Position := mkPosition { po_ID : string; po_ChainID : Z; po_Attributes : PositionAttributes; po_Relationships : PositionRelationships }.

(** A pointer to a struct. *)
Definition f_struct_pointer {A} (u : json -> result GoError A) (name : string) (raw : json) : result GoError (option A) :=
  field (fun _ v => match v with JNull => Ok None | v => let? x := u v in Ok (Some x) end) None name raw.

Definition Quantity_UnmarshalJSON (data : json) : result GoError Quantity :=
  let? text := f_string "int" data in
  let? decimals := field (d_int 32 "int32") 0 "decimals" data in
  let text := TrimSpace text in
  if String.eqb text "" then Ok (mkQuantity (Some 0) decimals)
  else match SetString10 text with
       | Some n => Ok (mkQuantity (Some n) decimals)
       | None => Err (errors_New ("invalid zerion quantity int " +:+ strconv_Quote text))
       end.

Definition Implementation_UnmarshalJSON (data : json) : result GoError Implementation :=
  let? slug := f_string "chain_id" data in
  let? address := field (d_pointer d_string "") None "address" data in
  let? decimals := field (d_int 32 "int32") 0 "decimals" data in
  let chainID := default 0 (zerion_ChainID slug) in
  match address with
  | Some address =>
      if String.eqb (TrimSpace address) "" then Ok (mkImplementation chainID nativeToken decimals true)
      else Ok (mkImplementation chainID (HexToAddress address) decimals false)
  | None => Ok (mkImplementation chainID nativeToken decimals true)
  end.

Definition decode_fungible (raw : json) : result GoError FungibleInfo :=
  let? id := f_string "id" raw in
  let? name := f_string "name" raw in
  let? symbol := f_string "symbol" raw in
  let? icon := f_struct (f_string "url") "icon" raw in
  let? verified := f_struct_pointer (f_bool "verified") "flags" raw in
  let? implementations := f_list Implementation_UnmarshalJSON "implementations" raw in
  Ok (mkFungible id name symbol icon verified implementations).

Definition decode_nft (raw : json) : result GoError ReceiptNFTInfo :=
  let? chain := f_string "chain_id" raw in
  let? contract := f_string "contract_address" raw in
  let? token := f_string "token_id" raw in
  Ok (mkNFTInfo chain contract token).

(** A share balance is known only with both its digits and its decimals. *)
Definition Receipt_UnmarshalJSON (data : json) : result GoError zerion_Receipt :=
  let? fungible := f_struct_pointer decode_fungible "fungible_info" data in
  let? nft := f_struct_pointer decode_nft "nft_info" data in
  let? quantity := f_struct_pointer (fun raw =>
    let? int := field (d_pointer d_string "") None "int" raw in
    let? decimals := field (d_pointer (d_int 32 "int32") 0) None "decimals" raw in
    Ok (int, decimals)) "quantity" data in
  match quantity with
  | Some (Some text, Some decimals) =>
      if String.eqb (TrimSpace text) "" then Ok (mkZerionReceipt fungible nft None)
      else match SetString10 (TrimSpace text) with
           | Some n => Ok (mkZerionReceipt fungible nft (Some (mkQuantity (Some n) decimals)))
           | None => Err (errors_New ("invalid zerion receipt quantity int " +:+ strconv_Quote text))
           end
  | _ => Ok (mkZerionReceipt fungible nft None)
  end.

Definition PositionAttributes_UnmarshalJSON (data : json) : result GoError PositionAttributes :=
  let? name := f_string "name" data in
  let? parent := field (d_pointer d_string "") None "parent" data in
  let? protocol := f_string "protocol" data in
  let? module := f_string "protocol_module" data in
  let? group := f_string "group_id" data in
  let? type := f_string "position_type" data in
  let? quantity := field (d_custom Quantity_UnmarshalJSON) (mkQuantity None 0) "quantity" data in
  let? fungible := f_struct_pointer decode_fungible "fungible_info" data in
  let? flags := f_struct_pointer (fun raw =>
    let? displayable := f_bool "displayable" raw in let? isTrash := f_bool "is_trash" raw in Ok (displayable, isTrash)) "flags" data in
  let? updatedAt := f_string "updated_at" data in
  let? block := field (d_pointer (d_uint 64 "uint64") 0) None "updated_at_block" data in
  let? receipt := f_struct_pointer Receipt_UnmarshalJSON "receipt" data in
  let? pool := f_string "pool_address" data in
  let? value := field (d_pointer d_float64 float_zero) None "value" data in
  let? price := field (d_pointer d_float64 float_zero) None "price" data in
  Ok (mkAttributes name parent protocol module (if String.eqb (TrimSpace pool) "" then address_zero else HexToAddress pool) group type quantity
        (default float_zero value) (default float_zero price) fungible flags updatedAt block receipt (bool_decide (is_Some value)) (bool_decide (is_Some price))).

Definition RelationshipChainData_UnmarshalJSON (data : json) : result GoError Z := let? id := f_string "id" data in Ok (default 0 (zerion_ChainID id)).
Definition decode_resource (raw : json) : result GoError (option (string * string)) :=
  f_struct_pointer (fun raw => let? type := f_string "type" raw in let? id := f_string "id" raw in Ok (type, id)) "data" raw.
Definition decode_relationships (raw : json) : result GoError PositionRelationships :=
  let? chain := f_struct (field (d_custom RelationshipChainData_UnmarshalJSON) 0 "data") "chain" raw in
  let? fungible := f_struct decode_resource "fungible" raw in
  let? dapp := f_struct decode_resource "dapp" raw in
  Ok (mkRelationships chain fungible dapp).

Definition no_attributes : PositionAttributes :=
  mkAttributes "" None "" "" address_zero "" "" (mkQuantity None 0) float_zero float_zero None None "" None None false false.
Definition Position_UnmarshalJSON (data : json) : result GoError Position :=
  let? id := f_string "id" data in
  let? attributes := field (d_custom PositionAttributes_UnmarshalJSON) no_attributes "attributes" data in
  let? relationships := f_struct decode_relationships "relationships" data in
  Ok (mkPosition id (rl_ChainID relationships) attributes relationships).
Definition decode_positions (raw : json) : result GoError (list Position) := f_list Position_UnmarshalJSON "data" raw.

Record zerion := mkZerion {
  ze_apiKey : string; ze_baseURL : string; ze_client : option dex_http; ze_timeout : option Z; ze_maxRetries : option Z; ze_retryDelay : option Z;
  ze_hiddenChains : string }.
Definition zerion_Option : Type := zerion -> zerion.
Definition zerion_WithBaseURL (baseURL : string) : zerion_Option := fun z =>
  let baseURL := trim_slashes baseURL in
  if String.eqb baseURL "" then z
  else mkZerion (ze_apiKey z) baseURL (ze_client z) (ze_timeout z) (ze_maxRetries z) (ze_retryDelay z) (ze_hiddenChains z).
Definition zerion_WithTimeout (timeout : Z) : zerion_Option := fun z =>
  mkZerion (ze_apiKey z) (ze_baseURL z) (ze_client z) (Some timeout) (ze_maxRetries z) (ze_retryDelay z) (ze_hiddenChains z).
Definition zerion_WithRetry (maxRetries retryDelay : Z) : zerion_Option := fun z =>
  mkZerion (ze_apiKey z) (ze_baseURL z) (ze_client z) (ze_timeout z) (Some maxRetries) (Some retryDelay) (ze_hiddenChains z).
Definition WithIncludedHiddenChains (chainSlugs : list string) : zerion_Option := fun z =>
  mkZerion (ze_apiKey z) (ze_baseURL z) (ze_client z) (ze_timeout z) (ze_maxRetries z) (ze_retryDelay z) (ChainFilterFromSlugs chainSlugs).

Definition zerion_New (apiKey : string) (opts : list (option zerion_Option)) : result GoError zerion :=
  let apiKey := TrimSpace apiKey in
  if String.eqb apiKey "" then Err (errors_New "zerion: apiKey is required")
  else
    let z := apply_options opts (mkZerion apiKey zerionBaseURL None None None None "") in
    Ok (match ze_client z with
        | Some _ => z
        | None =>
            let builder := SetAuth "Authorization" ("Basic " +:+ ze_apiKey z) (SetRetry 0 0 NewClientBuilder) in
            let builder := match ze_timeout z with Some t => SetTimeout t builder | None => builder end in
            let builder := match ze_maxRetries z, ze_retryDelay z with Some n, Some t => SetRetry n t builder | _, _ => builder end in
            mkZerion (ze_apiKey z) (ze_baseURL z) (Some (Built (BuildClient builder))) (ze_timeout z) (ze_maxRetries z) (ze_retryDelay z) (ze_hiddenChains z)
        end).

(** [nil] removes the header. *)
Definition SetIncludedHiddenChains (h : Header) (chainSlugs : list string) : Header :=
  let value := ChainFilterFromSlugs chainSlugs in
  if String.eqb value "" then delete (CanonicalHeaderKey IncludedHiddenChainsHeader) h else header_Set IncludedHiddenChainsHeader value h.

Definition zerion_decodeResponse (resp : HttpResponse) : option GoError :=
  if success (hr_Status resp) then None
  else
    let text := "request failed with status " +:+ pretty (hr_Status resp) +:+ ", error: " in
    match ReadAll (Z.shiftl 1 20) resp with
    | Err e => Some (errors_New (text +:+ Error e))
    | Ok raw => Some (errors_New (text +:+ TrimSpace raw))
    end.

Definition walletPositionsChainFilter (req : WalletPositionsRequest) : string :=
  let filter := ChainFilterFromSlugs (wr_ChainSlugs req) in if String.eqb filter "" then ChainFilterFromChainIDs (wr_ChainIDs req) else filter.

Definition set_nonempty (key value : string) (q : Values) : Values := if String.eqb value "" then q else values_Set key value q.
Definition position_values (req : WalletPositionsRequest) (q : Values) : Values :=
  set_nonempty "sort" (wr_Sort req) (set_nonempty "filter[trash]" (wr_TrashFilter req) (set_nonempty "currency" (wr_Currency req)
    (set_nonempty "filter[positions]" (wr_PositionsFilter req) (set_nonempty "filter[chain_ids]" (walletPositionsChainFilter req) q)))).

Variable answers : nat -> reply.
Variable z : zerion.

Definition zerion_headers : Header := if String.eqb (ze_hiddenChains z) "" then ∅ else SetIncludedHiddenChains ∅ (Split ","%char (ze_hiddenChains z)).
Definition positions_url (address : string) (req : WalletPositionsRequest) : result GoError string :=
  let path := ze_baseURL z +:+ "/wallets/" +:+ PathEscape address +:+ "/positions/" in
  let? q := url_Query path in url_SetRawQuery path (Encode (position_values req q)).

Definition GetWalletPositions (address : string) (req : WalletPositionsRequest) : Run GoError (list Position) :=
  let address := TrimSpace address in
  if String.eqb address "" then ret []
  else
    match positions_url address req with
    | Err e => fail e
    | Ok url =>
        finish
          (exchange answers (mkRequest "GET" url zerion_headers "") (fun a =>
            match r_NewRequest a with Some e => Err (Errorf_w "failed to create zerion request: " e "") | None => r_Do a end))
          (fun resp =>
            match zerion_decodeResponse resp with
            | Some e => Err e
            | None =>
                let '(text, err) := limit_reader (Z.shiftl 64 20) resp in
                match (let? v := json_decode text err in decode_positions v) with
                | Err e => Err (Errorf_w "failed to decode zerion wallet positions response: " e "")
                | Ok positions => Ok positions
                end
            end)
    end.
End zerion.

(** ** What they give *)

Section sound.
Context `{G : GoEthereum} `{AB : !Abi} `{HA : HexAddress} `{JE : JsonErrors} `{JB : JsonBody} `{U : UnicodeTables}.
Variable answers : nat -> reply.

Lemma debank_ids_spec ids : forall seen,
  NoDup (unique_ids seen ids) /\ (forall x, x ∈ unique_ids seen ids <-> x ∉ seen /\ x <> "" /\ x ∈ (TrimSpace <$> ids)).
Proof.
  induction ids as [|id ids IH]; intros seen; cbn [unique_ids].
  { split; [constructor|]. intros x. cbn [fmap list_fmap]. split; [by intros ?%elem_of_nil|by intros (_ & _ & ?%elem_of_nil)]. }
  rewrite fmap_cons. generalize (TrimSpace id). clear id. intros id. destruct (String.eqb_spec id "") as [Hid|Hid].
  { destruct (IH seen) as [H1 H2]. split; [done|]. intros x. rewrite H2, elem_of_cons. naive_solver. }
  case_bool_decide as Hs.
  - destruct (IH seen) as [H1 H2]. split; [done|]. intros x. rewrite H2, elem_of_cons. naive_solver.
  - destruct (IH ({[id]} ∪ seen)) as [H1 H2]. split; [constructor; [rewrite H2; set_solver|done]|].
    intros x. rewrite elem_of_cons, H2, elem_of_cons, not_elem_of_union, elem_of_singleton. destruct (decide (x = id)) as [->|]; naive_solver.
Qed.

(** The ids of the same tokens are the same, in whatever order and however often they come. *)
Lemma debankTokenIDList_same chainID l1 l2 : (forall a, a ∈ l1 <-> a ∈ l2) -> debankTokenIDList chainID l1 = debankTokenIDList chainID l2.
Proof.
  intros H. unfold debankTokenIDList. destruct (ChainToName chainID) as [name|e]; [|done]. cbn. do 2 f_equal.
  apply (sort_stable_unique String.compare); [by intros ? ? _ _ ?%string_compare_Eq|].
  destruct (debank_ids_spec (debank_token_id name <$> l1) ∅) as [N1 H1], (debank_ids_spec (debank_token_id name <$> l2) ∅) as [N2 H2].
  apply NoDup_Permutation; [done..|]. intros x. rewrite H1, H2, !list_elem_of_fmap.
  setoid_rewrite list_elem_of_fmap. naive_solver.
Qed.

(** The request for a batch names the chain and the batch's identifiers. *)
Definition batch_request (d : debank) (chainName : string) (ids : list string) (r : Request) : Prop :=
  rq_Method r = "GET" /\
  rq_URL r = db_baseUrl d +:+ "/token/list_by_ids?chain_id=" +:+ QueryEscape chainName +:+ "&ids=" +:+ QueryEscape (strings_Join "," ids).

Lemma getTokenBatch_spec d chainName ids log out log' : getTokenBatch answers d chainName ids log = (Ok out, log') ->
  Forall (fun t => dt_ChainID t <> 0) out /\ exists r, log' = log ++ [r] /\ batch_request d chainName ids r.
Proof.
  unfold getTokenBatch. intros H. apply finish_Ok in H as (tokens & H & [= <-]). split.
  - apply List.Forall_forall. intros t [_ Ht]%filter_In. by apply negb_true_iff, Z.eqb_neq in Ht.
  - apply finish_Ok in H as (resp & H & _). injection H as _ <-. by eexists.
Qed.

Lemma token_batches_spec d chainName batches : forall log out log', token_batches answers d chainName batches log = (Ok out, log') ->
  Forall (fun t => dt_ChainID t <> 0) out /\ exists rs, log' = log ++ rs /\ Forall2 (batch_request d chainName) batches rs.
Proof.
  induction batches as [|b batches IH]; intros log out log' H; cbn [token_batches] in H.
  - injection H as <- <-. split; [constructor|]. exists []. by rewrite app_nil_r.
  - apply then_Ok in H as (tokens & log1 & H1 & H). apply finish_Ok in H as (rest & H2 & [= <-]).
    apply getTokenBatch_spec in H1 as (H1 & r & -> & L1). apply IH in H2 as (H2 & rs & -> & L2). split; [by apply Forall_app|].
    exists (r :: rs). rewrite <- app_assoc. split; [done|by constructor].
Qed.

(** C40: DeBank's tokens are asked for by chain: for a chain it does not know no
    request is made; for one it knows, the identifiers of the tokens (the chain's
    name for the zero address and the native token, the address for the others) are
    sent once each, sorted, a request of the chain and its identifiers for every
    hundred at most and none for none, so that the answer is the same for two lists
    of the same tokens; and every token given back is on a chain that is known. *)
Theorem GetTokens_canonical (d : debank) (chainID : Z) (tokens : list Address) (log : list Request) :
  match ChainToName chainID with
  | Err e => GetTokens answers d chainID tokens log = (Err e, log)
  | Ok chainName => exists batches : list (list string),
      GetTokens answers d chainID tokens = token_batches answers d chainName batches /\
      NoDup (concat batches) /\ StronglySorted (cmp_le String.compare) (concat batches) /\
      (forall id, id ∈ concat batches <-> id <> "" /\ id ∈ ((fun t => TrimSpace (debank_token_id chainName t)) <$> tokens)) /\
      Forall (fun b => 0 < length b <= 100)%nat batches /\
      (forall k b, batches !! k = Some b -> (S k < length batches)%nat -> length b = 100%nat) /\
      (forall out log', GetTokens answers d chainID tokens log = (Ok out, log') ->
        Forall (fun t => dt_ChainID t <> 0) out /\ exists rs, log' = log ++ rs /\ Forall2 (batch_request d chainName) batches rs)
  end /\
  forall tokens', (forall a, a ∈ tokens <-> a ∈ tokens') -> GetTokens answers d chainID tokens = GetTokens answers d chainID tokens'.
Proof.
  split; [|intros tokens' H; unfold GetTokens; by rewrite (debankTokenIDList_same chainID tokens tokens' H)].
  destruct (ChainToName chainID) as [name|e] eqn:Hn; unfold GetTokens, debankTokenIDList; rewrite Hn; [|done]. cbn.
  set (ids := sort_stable _ _). exists (Filter.Chunk ids maxTokenListByIDs).
  destruct (Filter.Chunk_spec ids maxTokenListByIDs) as (H1 & H2 & H3). rewrite H1. destruct (debank_ids_spec (debank_token_id name <$> tokens) ∅) as [N M].
  split_and!; [done|unfold ids; by rewrite sort_stable_perm|apply sort_stable_sorted; apply _| |done|done|apply token_batches_spec].
  intros id. unfold ids. rewrite sort_stable_elem, M, <- list_fmap_compose. set_solver.
Qed.
End sound.
