(* ===== verification/PartnerSafety.v ===== *)
(** * What the partner clients guarantee

    Every answer of a partner is classified by its status, for all operations of
    the Transak, Robinhood and Coinbase clients; Transak's secret goes to one
    endpoint; a Coinbase token is good for one method, host and path. *)
From Stdlib Require Import Ascii Strings.Byte.
From S2P Require Import HttpClient.
From S2P Require Export Coinbase.
Local Open Scope Z_scope.
Local Open Scope go_scope.

(** ** Answers are classified *)

(** The statuses of a sentinel. *)
Definition stands_for (kind : ApiKind) (status : Z) : Prop :=
  match kind with
  | BadRequest => status = 400
  | Unauthorized => status = 401 \/ status = 403
  | NotFound_ => status = 404
  | RateLimited => status = 429
  | Upstream => status <> 400 /\ status <> 401 /\ status <> 403 /\ status <> 404 /\ status <> 429
  end.

Lemma status_kind_stands kind status : kind = status_kind status <-> stands_for kind status.
Proof.
  unfold status_kind. destruct (Z.eqb_spec status 400); [|destruct (Z.eqb_spec status 401); [|destruct (Z.eqb_spec status 403);
    [|destruct (Z.eqb_spec status 404); [|destruct (Z.eqb_spec status 429)]]]]; cbn [orb]; destruct kind; cbn [stands_for];
    (split; [intros E; first [discriminate E|lia]|intros E; first [reflexivity|lia]]).
Qed.

Section answered.
Context {E : Type} (view : E -> option PartnerErr) (p : Partner) (answers : nat -> reply).

Definition has_api (e : E) : option (PartnerErr * APIError) :=
  match view e with Some pe => match pe_api pe with Some a => Some (pe, a) | None => None end | None => None end.

(** A value comes of a 2xx answer; an [APIError] of one that is not, with its
    status and the sentinel of that status only; any other error of no answer, or
    of a 2xx one. *)
Definition classified {A} (n n' : nat) (r : result E A) : Prop :=
  match r with
  | Ok _ => n' = S n /\ exists resp, r_Do (answers n) = Ok resp /\ success (hr_Status resp) = true
  | Err e =>
      match has_api e with
      | Some (pe, a) =>
          n' = S n /\ exists resp, r_Do (answers n) = Ok resp /\ success (hr_Status resp) = false /\ ae_StatusCode a = hr_Status resp /\
            forall kind, Is (pe_err pe) (PartnerError p kind) = true <-> stands_for kind (hr_Status resp)
      | None => n' = n \/ (n' = S n /\ forall resp, r_NewRequest (answers n) = None -> r_Do (answers n) = Ok resp -> success (hr_Status resp) = true)
      end
  end.
Definition answered {A} (m : Run E A) : Prop := forall log, classified (length log) (length (m log).2) (m log).1.

Lemma answered_fail {A} e : has_api e = None -> answered (fail (A := A) e).
Proof. intros H log. cbn. rewrite H. by left. Qed.

(** Wrapping keeps what an error carries. *)
Definition keeps (f : E -> E) : Prop := forall e,
  match has_api e with
  | Some (pe, a) => exists pe', has_api (f e) = Some (pe', a) /\ wraps (pe_err pe') = wraps (pe_err pe)
  | None => has_api (f e) = None
  end.

Lemma answered_on_error {A} f (m : Run E A) : keeps f -> answered m -> answered (on_error f m).
Proof.
  intros Hf Hm log. specialize (Hm log). unfold on_error. destruct (m log) as [[a|e] log']; [done|]. cbn in *.
  specialize (Hf e). destruct (has_api e) as [[pe a]|].
  - destruct Hf as (pe' & -> & Hw). unfold Is in *. by rewrite Hw.
  - by rewrite Hf.
Qed.

Lemma answered_finish {A B} (m : Run E A) (k : A -> result E B) :
  (forall a e, k a = Err e -> has_api e = None) -> answered m -> answered (finish m k).
Proof.
  intros Hk Hm log. specialize (Hm log). unfold finish. destruct (m log) as [[a|e] log']; [|done]. cbn in *.
  destruct (k a) as [b|e] eqn:Ek; [done|]. cbn. rewrite (Hk _ _ Ek). destruct Hm as (-> & resp & Hr & Hs).
  right. split; [done|]. intros resp' _. rewrite Hr. by intros [= <-].
Qed.
End answered.

Lemma PartnerError_Is p kind kind' : Is (PartnerError_v p kind') (PartnerError p kind) = bool_decide (kind = kind').
Proof. unfold Is. cbn. apply bool_decide_ext. rewrite list_elem_of_singleton. split; congruence. Qed.

Section requests.
Context `{JE : JsonErrors} `{JB : JsonBody} (p : Partner) (answers : nat -> reply).

Abbreviation of_partner := (@Some PartnerErr) (only parsing).

Lemma read_json_classified {A} (decode : json -> result GoError A) resp :
  match read_json p decode resp with
  | Ok _ => success (hr_Status resp) = true
  | Err e =>
      match pe_api e with
      | Some a => success (hr_Status resp) = false /\ ae_StatusCode a = hr_Status resp /\
          forall kind, Is (pe_err e) (PartnerError p kind) = true <-> stands_for kind (hr_Status resp)
      | None => success (hr_Status resp) = true
      end
  end.
Proof.
  unfold read_json, decodeStatus. destruct (success (hr_Status resp)).
  - destruct (limit_reader _ _) as [text err]. destruct (json_decode text err) as [v|e]; [|done]. cbn. by destruct (decode v).
  - cbn. split_and!; [done..|]. intros kind. rewrite <- status_kind_stands.
    change (Is _ _) with (Is (PartnerError_v p (status_kind (hr_Status resp))) (PartnerError p kind)). rewrite PartnerError_Is.
    apply bool_decide_eq_true.
Qed.

(** One exchange, and its answer read. *)
Lemma answered_exchange {A} req (decode : json -> result GoError A) :
  answered of_partner p answers (finish (exchange answers req send) (read_json p decode)).
Proof.
  intros log. set (n := length log).
  assert (Hn : length (log ++ [req]) = S n) by (unfold n; rewrite length_app; cbn [length]; lia).
  unfold finish, exchange, send. fold n.
  destruct (r_NewRequest (answers n)) as [e|] eqn:Hq; [cbn; right; by rewrite Hn, Hq|].
  destruct (r_Do (answers n)) as [resp|e] eqn:Hd; [|cbn; right; by rewrite Hn, Hd].
  pose proof (read_json_classified decode resp) as H. destruct (read_json p decode resp) as [a|e]; cbn; rewrite Hn; [by eauto|].
  unfold has_api. destruct (pe_api e); [by eauto|]. right. split; [done|]. rewrite Hd. by intros ? _ [= <-].
Qed.

Lemma answered_doJSON {A} method endpoint payload headers (decode : json -> result GoError A) :
  answered of_partner p answers (doJSON answers p method endpoint payload headers decode).
Proof. unfold doJSON. destruct payload as [[v|e]|]; [apply answered_exchange|by apply answered_fail|apply answered_exchange]. Qed.

Lemma partner_keeps_wrap pre : keeps of_partner (wrap_partner pre).
Proof. intros e. unfold has_api. cbn. by destruct (pe_api e); [eexists|]. Qed.

Lemma partner_keeps_wrap_stop pre : keeps (fun s => match s with Failed e => Some e | Panicked => None end) (wrap_stop pre).
Proof. intros [e|]; unfold has_api; cbn; [|done]. by destruct (pe_api e); [eexists|]. Qed.
End requests.

#[export] Hint Resolve answered_fail answered_on_error answered_finish answered_doJSON partner_keeps_wrap partner_keeps_wrap_stop : go_partner.

(** What a stopped Coinbase run holds. *)
Definition of_stop (s : stop) : option PartnerErr := match s with Failed e => Some e | Panicked => None end.

Section operations.
Context `{JE : JsonErrors} `{JB : JsonBody} `{U : UnicodeTables} `{UQ : UrlQuery} `{TT : TimeText} `{EK : EcKeys} `{KF : !KeyFormats} `{MT : !Minting}.
Variable answers : nat -> reply.

Lemma require_plain {A} ok message (a : A) e : require ok message a = Err e -> has_api (@Some PartnerErr) e = None.
Proof. unfold require. destruct (ok a); [done|]. by intros [= <-]. Qed.

Lemma answered_coinbase_doJSON {A} c method path rawQuery payload (decode : json -> result GoError A) :
  answered of_stop Coinbase_ answers (coinbase_doJSON answers c method path rawQuery payload decode).
Proof.
  intros log. unfold coinbase_doJSON. destruct (r_NewRequest (answers (length log))) eqn:Hq; [by left|].
  destruct (cc_signer c) as [signer|]; [|by left]. destruct (mintJWT _ _ _ _ _) as [token|e|why]; [|by left|by left].
  set (req := mkRequest _ _ _ _). pose proof (answered_exchange Coinbase_ answers req decode log) as H.
  unfold as_run. by destruct (finish _ _ log) as [[a|e] log'].
Qed.

Hint Resolve require_plain answered_coinbase_doJSON : go_partner.

(** [partner_keeps_wrap_stop] under [of_stop]. *)
Lemma keeps_of_stop pre : keeps of_stop (wrap_stop pre).
Proof. exact (partner_keeps_wrap_stop pre). Qed.
Hint Resolve keeps_of_stop : go_partner.

Ltac partner :=
  repeat match goal with
  | |- answered _ _ _ (if ?b then _ else _) => destruct b
  | |- answered _ _ _ (match ?x with _ => _ end) => destruct x
  | |- answered _ _ _ (fail _) => by apply answered_fail
  | |- answered _ _ _ (failed _) => by apply answered_fail
  | |- answered _ _ _ (on_error _ _) => apply answered_on_error; [by auto with go_partner|]
  | |- answered _ _ _ (finish _ _) => apply answered_finish; [by eauto using require_plain|]
  | |- answered _ _ _ (finish _ _) => apply answered_finish; [intros ?? ?; repeat case_match; by simplify_eq|]
  | |- _ => solve [auto with go_partner]
  end.

(** C35: Whatever a partner answers, every operation of the three clients returns a
    value only on a 2xx answer; an [APIError] is of an answer that is not, carries
    its status, and matches the sentinel of that status (400, 401 and 403, 404, 429,
    the rest) and no other of the partner's; every other error means that no answer
    outside 2xx came. *)
Theorem partner_answers_classified (tc : transak_client) (rc : robinhood_client) (cc : coinbase_client) :
  (answered Some Transak_ answers (RefreshToken answers tc) /\
   (forall token req, answered Some Transak_ answers (CreateWidgetSession answers tc token req)) /\
   (forall token req, answered Some Transak_ answers (GetOrders answers tc token req)) /\
   answered Some Transak_ answers (GetFiatCurrencies answers tc)) /\
  ((forall req, answered Some Robinhood_ answers (CreateConnectID answers rc req)) /\
   (forall id, answered Some Robinhood_ answers (robinhood_GetOrder answers rc id))) /\
  ((forall req, answered of_stop Coinbase_ answers (CreateSessionToken answers cc req)) /\
   (forall req, answered of_stop Coinbase_ answers (GetBuyTransactions answers cc req)) /\
   answered of_stop Coinbase_ answers (GetBuyConfig answers cc) /\
   (forall req, answered of_stop Coinbase_ answers (GetBuyOptions answers cc req))).
Proof.
  split_and!; intros; unfold RefreshToken, CreateWidgetSession, GetOrders, GetFiatCurrencies, CreateConnectID, robinhood_GetOrder,
    CreateSessionToken, GetBuyTransactions, GetBuyConfig, GetBuyOptions; cbv zeta; partner.
Qed.
End operations.

(** ** Where Transak's secret goes *)

Section secret.
Context `{JE : JsonErrors} `{JB : JsonBody} `{U : UnicodeTables} `{UQ : UrlQuery} `{TT : TimeText}.
Variable answers : nat -> reply.

(** The headers a request starts with. *)
Definition base_headers (h : Header) : Prop :=
  h = header_Set "Accept" "application/json" ∅ \/ h = header_Set "Content-Type" "application/json" (header_Set "Accept" "application/json" ∅).

Lemma makes_doJSON {A} (P : Request -> Prop) p method endpoint payload headers (decode : json -> result GoError A) :
  (forall h body, base_headers h -> P (mkRequest method endpoint (headers h) body)) -> makes P (doJSON answers p method endpoint payload headers decode).
Proof.
  intros H. unfold doJSON, base_headers in *. destruct payload as [[v|e]|]; [|by apply makes_fail|]; apply makes_finish, makes_exchange; auto.
Qed.

(** What a request holds of the client's secret, and of an access token. *)
Definition secret_of (rq : Request) : option (list string) := rq_Header rq !! CanonicalHeaderKey apiSecretHeader.
Definition token_of (rq : Request) : option (list string) := rq_Header rq !! CanonicalHeaderKey accessTokenHeader.

Definition refresh_request (c : transak_client) (rq : Request) : Prop :=
  rq_Method rq = "POST" /\ rq_URL rq = tc_apiBaseURL c +:+ refreshTokenPath /\ secret_of rq = Some [tc_apiSecret c] /\ token_of rq = None.
Definition access_request (token endpoint : string) (rq : Request) : Prop :=
  secret_of rq = None /\ token_of rq = Some [TrimSpace token] /\ exists rest, rq_URL rq = endpoint +:+ rest.
Definition public_request (rq : Request) : Prop := secret_of rq = None /\ token_of rq = None.

Ltac headers :=
  unfold secret_of, token_of, header_Set; cbn [rq_Header];
  repeat first [rewrite lookup_insert_eq | rewrite lookup_insert_ne by (vm_compute; congruence)]; try rewrite lookup_empty.

(** The API secret is sent to the refresh-token endpoint and nowhere else, an
    access token only with the session's and the orders' requests it was given for. *)
Theorem transak_secret_confined (c : transak_client) :
  makes (refresh_request c) (RefreshToken answers c) /\
  (forall token req, makes (access_request token (tc_gatewayBaseURL c +:+ createWidgetSessionPath)) (CreateWidgetSession answers c token req)) /\
  (forall token req, makes (access_request token (tc_apiBaseURL c +:+ getOrdersPath)) (GetOrders answers c token req)) /\
  makes public_request (GetFiatCurrencies answers c).
Proof.
  split_and!; intros.
  - unfold RefreshToken. apply makes_finish, makes_on_error, makes_doJSON. intros h body [->| ->]; split_and!; try done; by headers.
  - unfold CreateWidgetSession; cbv zeta. destruct (String.eqb _ _); [by apply makes_fail|]. apply makes_finish, makes_on_error, makes_doJSON.
    intros h body [->| ->]; (split_and!; [| |exists ""; by rewrite sapp_nil_r]); destruct (String.eqb _ _); by headers.
  - unfold GetOrders; cbv zeta. do 2 (destruct (String.eqb _ _); [by apply makes_fail|]). apply makes_on_error, makes_finish, makes_doJSON.
    intros h body [->| ->]; (split_and!; [| |eexists; cbn [rq_URL]; by rewrite <- sapp_assoc]); by headers.
  - unfold GetFiatCurrencies. destruct (currencies_url c); [|by apply makes_fail]. apply makes_finish, makes_on_error, makes_finish, makes_doJSON.
    intros h body [->| ->]; split; by headers.
Qed.
End secret.

(** ** A token names its request *)

(** *** JSON strings of ASCII text are read back *)

Definition unhex (c : Ascii.ascii) : N := if is_digit c then byte_N c - 48 else byte_N c - 87.
Definition unshort (c : Ascii.ascii) : Ascii.ascii :=
  if Ascii.eqb c "b"%char then "008"%char else if Ascii.eqb c "f"%char then "012"%char else if Ascii.eqb c "n"%char then "010"%char
  else if Ascii.eqb c "r"%char then "013"%char else if Ascii.eqb c "t"%char then "009"%char else c.

(** Inverse of [json_escape] on ASCII text. *)
Fixpoint json_unescape (s : string) : string :=
  match s with
  | String c s1 =>
      if Ascii.eqb c backslash then
        match s1 with
        | String d s2 =>
            if Ascii.eqb d "u"%char then
              match s2 with
              | String _ (String _ (String h (String l s3))) => String (ascii_of_N (unhex h * 16 + unhex l)) (json_unescape s3)
              | _ => ""
              end
            else String (unshort d) (json_unescape s2)
        | "" => ""
        end
      else String c (json_unescape s1)
  | "" => ""
  end.

Lemma json_unescape1 c rest : is_ascii7 c = true -> json_unescape (escape1 c rest) = String c (json_unescape rest).
Proof. destruct c as [[] [] [] [] [] [] [] []]; intros [=]; reflexivity. Qed.

Lemma json_unescape_escape s : sforall is_ascii7 s = true -> json_unescape (json_escape s) = s.
Proof.
  induction s as [|c s IH]; [done|]. cbn [sforall]. intros [Hc Hs]%andb_true_iff.
  cbn [json_escape rune1]. rewrite Hc. rewrite json_unescape1 by done. by rewrite IH.
Qed.

Lemma json_quote_inj s t : sforall is_ascii7 s = true -> sforall is_ascii7 t = true -> json_quote s = json_quote t -> s = t.
Proof.
  intros Hs Ht H. unfold json_quote in H. injection H as H.
  assert (Hl : slen (json_escape s) = slen (json_escape t)) by (apply (f_equal slen) in H; rewrite !slen_app in H; lia).
  apply sapp_inj_len in H as [H _]; [|done]. by rewrite <- (json_unescape_escape s), <- (json_unescape_escape t), H.
Qed.

(** *** Segments of a token *)

Lemma b64_digit_no_point n : 0 <= n < 64 -> Ascii.eqb (b64_digit n) "."%char = false.
Proof.
  intros H. destruct (Ascii.eqb_spec (b64_digit n) "."%char) as [E|]; [|done].
  pose proof (b64_value_digit n H) as Hv. rewrite E in Hv. by vm_compute in Hv.
Qed.

Lemma sextet_no_point i n : negb (Ascii.eqb (sextet i n) ".") = true.
Proof. unfold sextet. rewrite b64_digit_no_point; [done|]. apply Z.mod_pos_bound. lia. Qed.

Lemma b64_avoids_point data : avoids "." (b64_encode false data) = true.
Proof.
  unfold avoids. induction data as [|a|a b|a b c l IH] using bytes_ind3; cbn [b64_encode sforall]; rewrite ?sextet_no_point; try done.
Qed.

Lemma b64_encode_inj padded a b : b64_encode padded a = b64_encode padded b -> a = b.
Proof. intros H. apply (f_equal (b64_decode padded)) in H. rewrite !b64_decode_encode in H. by injection H. Qed.

Lemma bytes_of_inj s t : bytes_of s = bytes_of t -> s = t.
Proof.
  unfold bytes_of. intros H. by rewrite <- (String.string_of_list_byte_of_string s), <- (String.string_of_list_byte_of_string t), H.
Qed.

Lemma encodeJWTSegment_inj v w : encodeJWTSegment v = encodeJWTSegment w -> json_Marshal v = json_Marshal w.
Proof. intros H. by apply bytes_of_inj, (b64_encode_inj false). Qed.

Lemma segments_inj a b c a' b' c' :
  encodeJWTSegment a +:+ "." +:+ encodeJWTSegment b +:+ "." +:+ b64_encode false c =
  encodeJWTSegment a' +:+ "." +:+ encodeJWTSegment b' +:+ "." +:+ b64_encode false c' ->
  json_Marshal a = json_Marshal a' /\ json_Marshal b = json_Marshal b'.
Proof.
  intros H. apply split_inj in H as [Ha H]; [|apply b64_avoids_point..].
  apply split_inj in H as [Hb _]; [|apply b64_avoids_point..]. split; by apply encodeJWTSegment_inj.
Qed.

Lemma digits_avoid s : all_digits s = true -> avoids "," s = true.
Proof.
  unfold all_digits, avoids. apply sforall_impl. intros c Hc. by destruct (Ascii.eqb_spec c ","%char) as [->|].
Qed.

Lemma pretty_avoids (z : Z) : avoids "," (pretty z) = true.
Proof.
  destruct z as [|p|p]; [done|..].
  - apply digits_avoid, (pretty_N_spec (Npos p)).
  - change (avoids "," ("-" +:+ pretty (Npos p)) = true). rewrite avoids_app. apply digits_avoid, (pretty_N_spec (Npos p)).
Qed.

(** The text of the claims of one key. *)
Lemma claims_text `{EK : EcKeys} id : exists a b c, forall (m : Minting) method host path,
  json_Marshal (jwt_claims (MT := m) id method host path) =
  a +:+ pretty (unix_seconds (jwt_now + jwtExpiry)) +:+ String "," (b +:+ pretty (unix_seconds jwt_now) +:+ String "," (c +:+
    json_quote (method +:+ " " +:+ host +:+ path) +:+ "]}")).
Proof.
  exists ("{" +:+ json_quote "aud" +:+ ":" +:+ "[" +:+ json_quote jwtAudience +:+ "]" +:+ "," +:+ json_quote "exp" +:+ ":").
  exists (json_quote "iss" +:+ ":" +:+ json_quote jwtIssuer +:+ "," +:+ json_quote "nbf" +:+ ":").
  exists (json_quote "sub" +:+ ":" +:+ json_quote id +:+ "," +:+ json_quote "uris" +:+ ":" +:+ "[").
  intros m method host path. unfold jwt_claims. cbn [json_Marshal map commas fst snd].
  change (String "," ?s) with ("," +:+ s). by rewrite !sapp_assoc.
Qed.

Lemma sapp_inj_head (s t t' : string) : s +:+ t = s +:+ t' -> t = t'.
Proof. induction s as [|c s IH]; [done|]. intros H. injection H as H. auto. Qed.

(** Claims of one key with one text are of one request. *)
Lemma claims_inj `{EK : EcKeys} (m1 m2 : Minting) id method host path method' path' :
  sforall is_ascii7 (method +:+ " " +:+ host +:+ path) = true -> sforall is_ascii7 (method' +:+ " " +:+ host +:+ path') = true ->
  json_Marshal (jwt_claims (MT := m1) id method host path) = json_Marshal (jwt_claims (MT := m2) id method' host path') ->
  method +:+ " " +:+ host +:+ path = method' +:+ " " +:+ host +:+ path'.
Proof.
  intros H1 H2 H. destruct (claims_text id) as (a & b & c & E). rewrite !E in H.
  apply sapp_inj_head, split_inj in H as [_ H]; [|apply pretty_avoids..].
  apply sapp_inj_head, split_inj in H as [_ H]; [|apply pretty_avoids..].
  apply sapp_inj_head in H.
  assert (Hl : slen (json_quote (method +:+ " " +:+ host +:+ path)) = slen (json_quote (method' +:+ " " +:+ host +:+ path')))
    by (apply (f_equal slen) in H; rewrite !slen_app in H; lia).
  apply sapp_inj_len in H as [H _]; [|done]. by apply json_quote_inj.
Qed.

(** *** What the client sends *)

(** Bytes of a path: those of a segment, slashes and escapes; no query, no space. *)
Definition path_char (c : Ascii.ascii) : bool := segment_char c || Ascii.eqb c "/"%char || Ascii.eqb c "%"%char.

Lemma path_char_ascii s : sforall path_char s = true -> sforall is_ascii7 s = true.
Proof. apply sforall_impl. intros c. by destruct c as [[] [] [] [] [] [] [] []]. Qed.

Lemma PathEscape_path s : sforall path_char (PathEscape s) = true.
Proof.
  induction s as [|c s IH]; [done|]. cbn [PathEscape]. destruct (segment_char c) eqn:Hc.
  - cbn [sforall]. unfold path_char at 1. by rewrite Hc, IH.
  - unfold percent. cbn [sforall]. rewrite IH.
    assert (Hh : forall n, (n < 16)%N -> path_char (hex_upper n) = true).
    { intros n Hn. assert (Hall : forallb (fun k => path_char (hex_upper (N.of_nat k))) (seq 0 16) = true) by (vm_compute; reflexivity).
      rewrite forallb_forall in Hall. specialize (Hall (N.to_nat n)). rewrite N2Nat.id in Hall. apply Hall, in_seq. lia. }
    pose proof (byte_N_bound c). rewrite !Hh; [done|apply N.mod_lt; lia|apply N.Div0.div_lt_upper_bound; lia].
Qed.

Section tokens.
Context `{JE : JsonErrors} `{JB : JsonBody} `{U : UnicodeTables} `{UQ : UrlQuery} `{EK : EcKeys} `{KF : !KeyFormats}.

(** The claims of a token minted at [now] for a key and one request: it is good
    for two minutes. *)
Definition scoped_claims (now : Z) (apiKeyID method host path : string) : json :=
  JObject [("aud", JArray [JString "cdp_service"]); ("exp", JNumber (pretty (now / nanosPerSecond + 120))); ("iss", JString "cdp");
    ("nbf", JNumber (pretty (now / nanosPerSecond))); ("sub", JString apiKeyID);
    ("uris", JArray [JString (method +:+ " " +:+ host +:+ path)])].

(** The signature is the key's: of the text itself with Ed25519, and with ECDSA
    the two numbers for the SHA-256 of the text, each in the width of the curve. *)
Definition signed_by (m : Minting) (signer : apiKeySigner) (text : string) (signature : bytes) : Prop :=
  match signer with
  | ed25519Signer key => signature = ed25519_Sign key (bytes_of text)
  | ecdsaSigner key => exists r s rb sb,
      ecdsa_Sign key (sha256 (bytes_of text)) = Ok (r, s) /\ signature = rb ++ sb /\
      length rb = Z.to_nat ((EcKey_orderBits key + 7) / 8) /\ SetBytes rb = Z.abs r /\
      length sb = Z.to_nat ((EcKey_orderBits key + 7) / 8) /\ SetBytes sb = Z.abs s
  end.

(** A request at this path of the client's base URL, whose bearer token is of the
    client's key for this method, host and path. *)
Definition authorized (m : Minting) (c : coinbase_client) (host method path : string) (rq : Request) : Prop :=
  sforall path_char path = true /\ (method = "GET" \/ method = "POST") /\ rq_Method rq = method /\
  (exists query, rq_URL rq = cc_apiBaseURL c +:+ path +:+ query /\ (query = "" \/ exists rawQuery, query = "?" +:+ rawQuery)) /\
  exists signer nonce signature,
    let segment v := b64_encode false (bytes_of (json_Marshal v)) in
    let text := segment (JObject [("alg", JString match signer with ed25519Signer _ => "EdDSA" | ecdsaSigner _ => "ES256" end);
                                  ("kid", JString (cc_apiKeyID c)); ("nonce", JString (EncodeToString nonce)); ("typ", JString "JWT")])
                +:+ "." +:+ segment (scoped_claims jwt_now (cc_apiKeyID c) method host path) in
    cc_signer c = Some signer /\ jwt_nonce = Ok nonce /\ signed_by m signer text signature /\
    rq_Header rq !! "Authorization" = Some ["Bearer " +:+ text +:+ "." +:+ b64_encode false signature].

Lemma claims_scoped (m : Minting) id method host path : jwt_claims id method host path = scoped_claims jwt_now id method host path.
Proof. unfold jwt_claims, scoped_claims, unix_seconds, jwtExpiry. by rewrite Z.div_add. Qed.

Lemma padInto_spec size v b : padInto size v = Some b -> length b = size /\ SetBytes b = Z.abs v.
Proof.
  unfold padInto. destruct (Nat.leb_spec (length (Bytes v)) size); [|done]. intros [= <-]. rewrite length_app, length_replicate. split; [lia|].
  rewrite SetBytes_app, SetBytes_zeros. replace (Bytes v) with (Bytes (Z.abs v)) by (unfold Bytes; by rewrite Z.abs_idemp).
  rewrite SetBytes_Bytes by lia. lia.
Qed.

Lemma signer_sign_signed (m : Minting) signer text signature : signer_sign signer text = Val signature -> signed_by m signer text signature.
Proof.
  unfold signer_sign, signed_by. destruct signer as [key|key]; [by intros [= <-]|].
  destruct (ecdsa_Sign _ _) as [[r s]|e]; [|done]. destruct (padInto _ r) as [rb|] eqn:Er; [|done]. destruct (padInto _ s) as [sb|] eqn:Es; [|done].
  intros [= <-]. apply padInto_spec in Er as [? ?], Es as [? ?]. by exists r, s, rb, sb.
Qed.

Lemma mintJWT_Val (m : Minting) signer id method host path token : mintJWT signer id method host path = Val token ->
  exists nonce signature,
    let signingInput := encodeJWTSegment (jwt_header signer id nonce) +:+ "." +:+ encodeJWTSegment (jwt_claims id method host path) in
    jwt_nonce = Ok nonce /\ signer_sign signer signingInput = Val signature /\ token = signingInput +:+ "." +:+ b64_encode false signature.
Proof.
  unfold mintJWT. destruct jwt_nonce as [nonce|]; [|done]. cbv zeta. destruct (signer_sign _ _) as [signature|e|why] eqn:Hsig; [|done|done].
  intros H. apply (f_equal (fun o => match o with Val t => t | _ => "" end)) in H. cbn [obind] in H.
  exists nonce, signature. split; [done|]. split; [done|]. symmetry. exact H.
Qed.

Lemma makes_coinbase_doJSON {A} (m : Minting) answers c method path rawQuery payload (decode : json -> result GoError A) :
  sforall path_char path = true -> method = "GET" \/ method = "POST" ->
  makes (authorized m c (cc_apiHost c) method path) (coinbase_doJSON answers c method path rawQuery payload decode).
Proof.
  intros Hp Hm log. unfold coinbase_doJSON. destruct (r_NewRequest _); [by apply makes_fail|].
  destruct (cc_signer c) as [signer|] eqn:Hs; [|by apply (makes_of_result _ (Err Panicked))].
  destruct (mintJWT _ _ _ _ _) as [token|e|why] eqn:Ht; [|by apply makes_fail|by apply (makes_of_result _ (Err Panicked))].
  apply mintJWT_Val in Ht as (nonce & signature & Hn & Hsig & ->).
  set (rq := mkRequest _ _ _ _).
  assert (Hrq : authorized m c (cc_apiHost c) method path rq).
  { split; [done|]. split; [done|]. split; [done|]. split.
    { eexists. split; [reflexivity|]. destruct (String.eqb rawQuery ""); [by left|right; by eexists]. }
    exists signer, nonce, signature. rewrite claims_scoped in Hsig. split; [done|]. split; [done|].
    split; [by apply signer_sign_signed in Hsig|].
    unfold rq, coinbase_headers. cbn [rq_Header]. rewrite claims_scoped, sapp_assoc. destruct payload; unfold header_Set;
      change (CanonicalHeaderKey "Authorization") with "Authorization"; rewrite ?lookup_insert_ne by (vm_compute; congruence);
      by rewrite lookup_insert_eq, !sapp_assoc. }
  assert (Hmk : makes (authorized m c (cc_apiHost c) method path) (finish (exchange answers rq send) (read_json Coinbase_ decode)))
    by (apply makes_finish, makes_exchange; exact Hrq).
  specialize (Hmk log).
  unfold as_run. by destruct (finish _ _ log) as [[a|e] log'].
Qed.

Lemma methods_differ host path path' : "GET" +:+ " " +:+ host +:+ path <> "POST" +:+ " " +:+ host +:+ path'.
Proof. by cbn. Qed.

Lemma bearer_inj (s t : string) : Some ["Bearer " +:+ s] = Some ["Bearer " +:+ t] -> s = t.
Proof. by intros [= H]. Qed.

(** A token is for one method and path. *)
Lemma authorized_binds (m m' : Minting) c host rq rq' method method' path path' :
  sforall is_ascii7 host = true -> authorized m c host method path rq -> authorized m' c host method' path' rq' ->
  rq_Header rq !! "Authorization" = rq_Header rq' !! "Authorization" -> method = method' /\ path = path'.
Proof.
  intros Hh (Hp & Hm & _ & _ & s & n & sg & _ & _ & _ & E) (Hp' & Hm' & _ & _ & s' & n' & sg' & _ & _ & _ & E') H.
  rewrite E, E' in H. apply bearer_inj in H. rewrite !sapp_assoc in H. apply (segments_inj (JObject _) _ _ (JObject _)) in H as [_ H].
  rewrite <- (claims_scoped m), <- (claims_scoped m') in H. apply claims_inj in H.
  - destruct Hm as [-> | ->], Hm' as [-> | ->];
      [|by apply methods_differ in H|symmetry in H; by apply methods_differ in H|]; by do 3 apply sapp_inj_head in H.
  - rewrite !sforall_app. rewrite Hh, (path_char_ascii path) by done. by destruct Hm as [-> | ->].
  - rewrite !sforall_app. rewrite Hh, (path_char_ascii path') by done. by destruct Hm' as [-> | ->].
Qed.

(** What [New] makes sure of: the host is that of the base URL. *)
Lemma coinbase_New_host opts c : coinbase_New opts = Ok c -> url_Host (cc_apiBaseURL c) = Ok (cc_apiHost c) /\ cc_apiHost c <> "".
Proof.
  unfold coinbase_New. set (c0 := apply_all _ _). destruct (String.eqb (cc_apiKeyID c0) ""); [done|].
  destruct (parseAPIKeySecret _) as [signer|e]; [|done]. unfold hostOf. destruct (url_Host (cc_apiBaseURL c0)) as [host|e] eqn:E; [|done].
  destruct (String.eqb_spec host "") as [|Hne]; [done|]. intros [= <-]. by split.
Qed.

(** C33: A client that [New] made has the host of its API base URL, which is not
    empty, and every request it sends goes to its operation's path under that base
    URL, a query apart, with a bearer token signed by the client's key, whose
    claims name that method, host and path and no other and that is valid from the
    second it is minted for two minutes. When the host is ASCII, two requests with
    one token, whenever they were minted, are of one method and path. *)
Theorem coinbase_token_scoped opts (c : coinbase_client) (Hc : coinbase_New opts = Ok c) :
  exists host, url_Host (cc_apiBaseURL c) = Ok host /\ host <> "" /\
  (forall (m : Minting) answers,
    (forall req, makes (authorized m c host "POST" "/onramp/v1/token") (CreateSessionToken answers c req)) /\
    (forall req, makes (authorized m c host "GET" ("/onramp/v1/buy/user/" +:+ PathEscape (TrimSpace (bt_PartnerUserRef req)) +:+ "/transactions"))
                   (GetBuyTransactions answers c req)) /\
    makes (authorized m c host "GET" "/onramp/v1/buy/config") (GetBuyConfig answers c) /\
    (forall req, makes (authorized m c host "GET" "/onramp/v1/buy/options") (GetBuyOptions answers c req))) /\
  (sforall is_ascii7 host = true -> forall (m m' : Minting) rq rq' method method' path path',
    authorized m c host method path rq -> authorized m' c host method' path' rq' ->
    rq_Header rq !! "Authorization" = rq_Header rq' !! "Authorization" -> method = method' /\ path = path').
Proof.
  apply coinbase_New_host in Hc as [Hc Hne]. exists (cc_apiHost c). split; [done|]. split; [done|]. split.
  - intros m answers. split_and!; intros.
    + unfold CreateSessionToken. destruct (st_Addresses req); [by apply makes_fail|]. destruct (check_addresses _); [by apply makes_fail|].
      by apply makes_finish, makes_on_error, makes_coinbase_doJSON; [|right].
    + unfold GetBuyTransactions; cbv zeta. destruct (String.eqb _ _); [by apply makes_fail|]. apply makes_on_error, makes_coinbase_doJSON; [|by left].
      unfold buyTransactionsPath. by rewrite !sforall_app, PathEscape_path.
    + by apply makes_finish, makes_on_error, makes_coinbase_doJSON; [|left].
    + unfold GetBuyOptions; cbv zeta. destruct (_ || _); [by apply makes_fail|]. by apply makes_finish, makes_on_error, makes_coinbase_doJSON; [|left].
  - intros Hhost m m' rq rq' method method' path path'. by apply authorized_binds.
Qed.
End tokens.
