(* ===== verification/KmsSigner.v ===== *)
(** * The AWS KMS signer (evm/ethawskmssigner), and transaction authorization (evm/txmngr/txauth.go)

    Turning a KMS signature into an Ethereum one: the low-s rule, the 32-byte
    words, the recovery id, the cache of public keys; the transactors made of a
    KMS key and of a private key.  KMS, ASN.1, the curve and go-ethereum's
    transactions are the environment's ([Kms], [BindLibrary]). *)
From Stdlib Require Import Ascii Strings.Byte.
From S2P Require Export Abi.
Local Open Scope Z_scope.
Local Open Scope go_scope.

(** ** Signature words *)

Fixpoint TrimLeft_zero (b : bytes) : bytes :=
  match b with x00 :: rest => TrimLeft_zero rest | _ => b end.

Definition adjustSignatureLength (buffer : bytes) : bytes :=
  let buffer := TrimLeft_zero buffer in replicate (32 - length buffer) x00 ++ buffer.

Definition secp256k1N : Z := 0xFFFFFFFFFFFFFFFFFFFFFFFFFFFFFFFEBAAEDCE6AF48A03BBFD25E8CD0364141.
Definition secp256k1HalfN : Z := secp256k1N / 2.

(** [if s > N/2 { s = N - s }] *)
Definition low_s (sBytes : bytes) : bytes :=
  if secp256k1HalfN <? SetBytes sBytes then Bytes (secp256k1N - SetBytes sBytes) else sBytes.

(** ** Signing *)

Class Kms := {
  PublicKey : Type;
  kms_GetPublicKey : nat -> string -> result GoError bytes;   (* svc.GetPublicKey: the DER bytes *)
  kms_Sign : nat -> string -> bytes -> result GoError bytes;  (* svc.Sign: the DER signature *)
  asn1_pubkey : bytes -> result GoError bytes;                (* asn1EcPublicKey.PublicKey.Bytes *)
  asn1_sig : bytes -> result GoError (bytes * bytes);         (* asn1EcSig: R.Bytes, S.Bytes *)
  UnmarshalPubkey : bytes -> result GoError PublicKey;
  MarshalPubkey : PublicKey -> bytes;                         (* secp256k1.S256().Marshal *)
  Ecrecover : bytes -> bytes -> result GoError bytes;         (* hash, signature *)
}.

Section signer.
Context `{K : Kms}.

Definition wrap_text {X} (pre : string) (r : result GoError X) : result GoError X :=
  match r with Ok x => Ok x | Err e => Err (Errorf_w pre e "") end.

Definition getEthereumSignature (expectedPublicKeyBytes txHash r s : bytes) : result GoError bytes :=
  let rsSignature := adjustSignatureLength r ++ adjustSignatureLength s in
  let signature := rsSignature ++ [x00] in
  let? recovered := Ecrecover txHash signature in
  if String.eqb (EncodeToString recovered) (EncodeToString expectedPublicKeyBytes) then Ok signature
  else
    let signature := rsSignature ++ [x01] in
    let? recovered := Ecrecover txHash signature in
    if String.eqb (EncodeToString recovered) (EncodeToString expectedPublicKeyBytes) then Ok signature
    else Err (errors_New "can not reconstruct public key from sig").

(** [n] numbers the calls to KMS. *)
Definition getSignatureFromKms (n : nat) (keyId : string) (txHashBytes : bytes) : result GoError (bytes * bytes) :=
  let? signature := kms_Sign n keyId txHashBytes in asn1_sig signature.

Definition SignMessageHash (n : nat) (keyId : string) (pubKey : PublicKey) (messageHash : bytes) : result GoError bytes :=
  let? (rBytes, sBytes) := getSignatureFromKms n keyId messageHash in
  getEthereumSignature (MarshalPubkey pubKey) messageHash rBytes (low_s sBytes).

Definition getPublicKeyDerBytesFromKMS (n : nat) (keyId : string) : result GoError bytes :=
  let? der := wrap_text ("can not get public key from KMS for KeyId=" +:+ keyId +:+ ": ") (kms_GetPublicKey n keyId) in
  wrap_text ("can not parse asn1 public key for KeyId=" +:+ keyId +:+ ": ") (asn1_pubkey der).

(** The cache, the calls made to KMS so far, and the answer. *)
Definition GetPubKey (keyId : string) (cache : gmap string PublicKey) (n : nat) :
    result GoError PublicKey * gmap string PublicKey * nat :=
  match cache !! keyId with
  | Some key => (Ok key, cache, n)
  | None =>
      match getPublicKeyDerBytesFromKMS n keyId with
      | Err e => (Err e, cache, S n)
      | Ok der =>
          match wrap_text "can not construct secp256k1 public key from key bytes: " (UnmarshalPubkey der) with
          | Err e => (Err e, cache, S n)
          | Ok key => (Ok key, <[keyId := key]> cache, S n)
          end
      end
  end.

(** ** Transactors *)

(** What go-ethereum provides: a transaction to be signed, its hash for the signer
    of a chain, and itself with a signature; keys as hexadecimal text and the
    transactor of one; two errors. *)
Class BindLibrary `{GoEthereum} := {
  UnsignedTx : Type;
  PubkeyToAddress : PublicKey -> Address;
  signer_Hash : Z -> UnsignedTx -> bytes;
  WithSignature : Z -> UnsignedTx -> bytes -> result GoError SignedTx;
  ErrNoChainID_v : GoError;
  ErrNotAuthorized_v : GoError;
  PrivateKey : Type;
  HexToECDSA : string -> result GoError PrivateKey;
  private_PublicKey : PrivateKey -> PublicKey;
  NewKeyedTransactorWithChainID : PrivateKey -> Z -> result GoError (Address * (Address -> UnsignedTx -> result GoError SignedTx));
}.

Context `{G : GoEthereum} `{BL : !BindLibrary}.

(** [bind.TransactOpts]: the account, and the signing of a transaction with the [n]-th call to KMS. *)
Record TransactOpts := mkTransactOpts { to_From : Address; to_Signer : nat -> Address -> UnsignedTx -> result GoError SignedTx }.

(** The closure [signerFn]. *)
Definition signerFn (keyId : string) (chainID : Z) (pubkey : PublicKey) (n : nat) (address : Address) (tx : UnsignedTx) : result GoError SignedTx :=
  if negb (bool_decide (address = PubkeyToAddress pubkey)) then Err ErrNotAuthorized_v
  else
    let txHashBytes := signer_Hash chainID tx in
    let? (rBytes, sBytes) := getSignatureFromKms n keyId txHashBytes in
    let? signature := getEthereumSignature (MarshalPubkey pubkey) txHashBytes rBytes (low_s sBytes) in
    WithSignature chainID tx signature.

Definition NewAwsKmsTransactorWithChainID (keyId : string) (chainID : option Z) (cache : gmap string PublicKey) (n : nat) :
    result GoError TransactOpts * gmap string PublicKey * nat :=
  match GetPubKey keyId cache n with
  | (Err e, cache, n) => (Err e, cache, n)
  | (Ok pubkey, cache, n) =>
      (match chainID with
       | None => Err ErrNoChainID_v
       | Some chainID => Ok (mkTransactOpts (PubkeyToAddress pubkey) (signerFn keyId chainID pubkey))
       end, cache, n)
  end.

(** [InitKMSClient]: the key of the client it builds. *)
Definition InitKMSClient (keyID : string) := GetPubKey keyID.

(** The account, and its transactor for a chain given the cache and the calls made by then. *)
Definition TxAuth : Type := Address * (Z -> gmap string PublicKey -> nat -> result GoError TransactOpts * gmap string PublicKey * nat).

Definition GetTxAuthFromKMS (keyID : string) (cache : gmap string PublicKey) (n : nat) : result GoError TxAuth * gmap string PublicKey * nat :=
  match GetPubKey keyID cache n with
  | (Err e, cache, n) => (Err e, cache, n)
  | (Ok publicKey, cache, n) =>
      (Ok (PubkeyToAddress publicKey, fun chainID => NewAwsKmsTransactorWithChainID keyID (Some chainID)), cache, n)
  end.

Definition GetTxAuthFromPrivateKey (privateKeyHex : string) : result GoError TxAuth :=
  let? privateKey := HexToECDSA privateKeyHex in
  Ok (PubkeyToAddress (private_PublicKey privateKey), fun chainID cache n =>
    (let? (from, sign) := NewKeyedTransactorWithChainID privateKey chainID in Ok (mkTransactOpts from (fun _ => sign)), cache, n)).
End signer.

Lemma TrimLeft_zero_spec b : SetBytes (TrimLeft_zero b) = SetBytes b /\
  (TrimLeft_zero b = [] \/ 256 ^ Z.of_nat (length (TrimLeft_zero b) - 1) <= SetBytes b).
Proof.
  induction b as [|c b [IH1 IH2]]; [split; [done|by left]|].
  destruct (decide (c = x00)) as [->|Hc].
  - change (TrimLeft_zero (x00 :: b)) with (TrimLeft_zero b). rewrite SetBytes_cons. change (byte_int x00) with 0.
    rewrite IH1. split; [lia|]. destruct IH2 as [->|H]; [by left|right; lia].
  - assert (E : TrimLeft_zero (c :: b) = c :: b) by (by destruct c). rewrite E. split; [done|]. right. simpl length.
    rewrite Nat.sub_succ, Nat.sub_0_r, SetBytes_cons. pose proof (SetBytes_bounds b).
    assert (0 < byte_int c).
    { pose proof (byte_int_bounds c). assert (byte_int c <> 0); [|lia]. intros E0. apply Hc. unfold byte_int in E0.
      pose proof (Byte.of_to_N c) as Ho. replace (Byte.to_N c) with 0%N in Ho by lia. by injection Ho. }
    nia.
Qed.

(** The adjusted word keeps its value, and is 32 bytes when that fits. *)
Lemma adjust_spec b : SetBytes (adjustSignatureLength b) = SetBytes b /\
  (SetBytes b < 2 ^ 256 -> length (adjustSignatureLength b) = 32%nat).
Proof.
  unfold adjustSignatureLength. destruct (TrimLeft_zero_spec b) as [H1 H2]. rewrite SetBytes_app, SetBytes_zeros, H1.
  split; [lia|]. intros H. rewrite length_app, length_replicate. destruct H2 as [->|H2]; [done|].
  assert (length (TrimLeft_zero b) <= 32)%nat; [|lia]. destruct (Nat.le_gt_cases (length (TrimLeft_zero b)) 32) as [|Hgt]; [done|].
  exfalso. assert (256 ^ 32 <= 256 ^ Z.of_nat (length (TrimLeft_zero b) - 1)) by (apply Z.pow_le_mono_r; lia).
  assert (256 ^ 32 = 2 ^ 256) by (vm_compute; reflexivity). lia.
Qed.

(** The low-s rule picks the smaller of [s] and [N - s]. *)
Lemma low_s_spec s : 0 < SetBytes s < secp256k1N ->
  (SetBytes (low_s s) = SetBytes s \/ SetBytes (low_s s) = secp256k1N - SetBytes s) /\
  0 < SetBytes (low_s s) <= secp256k1HalfN.
Proof.
  intros Hs. unfold low_s. assert (HN : secp256k1N = 2 * secp256k1HalfN + 1) by (vm_compute; reflexivity).
  destruct (Z.ltb_spec secp256k1HalfN (SetBytes s)); [rewrite SetBytes_Bytes by lia|]; lia.
Qed.

Section theorems.
Context `{K : Kms}.

(** A signature of [low_s s]: 65 bytes, [r], the smaller of [s] and its negation, the recovery id. *)
Definition good_signature (pubKey hash r s sig : bytes) : Prop :=
  length sig = 65%nat /\ SetBytes (take 32 sig) = SetBytes r /\
  (let s' := SetBytes (take 32 (drop 32 sig)) in
   (s' = SetBytes s \/ s' = secp256k1N - SetBytes s) /\ 0 < s' <= secp256k1HalfN) /\
  (drop 64 sig = [x00] \/ drop 64 sig = [x01]) /\ Ecrecover hash sig = Ok pubKey.

Lemma getEthereumSignature_good pubKey hash r s sig : SetBytes r < 2 ^ 256 -> 0 < SetBytes s < secp256k1N ->
  getEthereumSignature pubKey hash r (low_s s) = Ok sig -> good_signature pubKey hash r s sig.
Proof.
  intros Hr Hs. unfold getEthereumSignature, good_signature.
  destruct (adjust_spec r) as [R1 R2]. specialize (R2 Hr). destruct (low_s_spec s Hs) as [S1 S2].
  assert (HN : secp256k1HalfN < 2 ^ 256) by (vm_compute; reflexivity).
  destruct (adjust_spec (low_s s)) as [L1 L2]. specialize (L2 ltac:(lia)). rewrite <- L1 in S1, S2.
  set (a := adjustSignatureLength r) in *. set (b := adjustSignatureLength (low_s s)) in *.
  assert (Hsig : forall v, length ((a ++ b) ++ [v]) = 65%nat /\ take 32 ((a ++ b) ++ [v]) = a /\
    take 32 (drop 32 ((a ++ b) ++ [v])) = b /\ drop 64 ((a ++ b) ++ [v]) = [v]).
  { intros v. rewrite <- app_assoc. split; [rewrite !length_app, R2, L2; done|].
    assert (T : take 32 (a ++ b ++ [v]) = a) by (rewrite <- R2; apply take_app_length).
    assert (D : drop 32 (a ++ b ++ [v]) = b ++ [v]) by (rewrite <- R2; apply drop_app_length).
    assert (T' : take 32 (b ++ [v]) = b) by (rewrite <- L2; apply take_app_length).
    rewrite T, D, T'. split; [done|]. split; [done|].
    replace 64%nat with (length (a ++ b)) by (rewrite length_app; lia). by rewrite app_assoc, drop_app_length. }
  assert (Hend : forall v, (v = x00 \/ v = x01) -> Ecrecover hash ((a ++ b) ++ [v]) = Ok pubKey ->
    Ok ((a ++ b) ++ [v]) = Ok sig :> result GoError bytes -> length sig = 65%nat /\ SetBytes (take 32 sig) = SetBytes r /\
    (let s' := SetBytes (take 32 (drop 32 sig)) in
     (s' = SetBytes s \/ s' = secp256k1N - SetBytes s) /\ 0 < s' <= secp256k1HalfN) /\
    (drop 64 sig = [x00] \/ drop 64 sig = [x01]) /\ Ecrecover hash sig = Ok pubKey).
  { intros v Hv He [= <-]. destruct (Hsig v) as (H1 & H2 & H3 & H4). rewrite H1, H2, H3, H4, He. cbv zeta.
    split; [done|]. split; [exact R1|]. split; [by split|]. split; [|done]. by destruct Hv as [-> | ->]; [left|right]. }
  destruct (Ecrecover hash ((a ++ b) ++ [x00])) as [k|e] eqn:E0; [|done]. cbn [result_bind].
  destruct (String.eqb_spec (EncodeToString k) (EncodeToString pubKey)) as [Hk0%EncodeToString_inj|_].
  { apply Hend; [by left|congruence]. }
  destruct (Ecrecover hash ((a ++ b) ++ [x01])) as [k1|e] eqn:E1; [|done]. cbn [result_bind].
  destruct (String.eqb_spec (EncodeToString k1) (EncodeToString pubKey)) as [Hk1%EncodeToString_inj|_]; [|done].
  apply Hend; [by right|congruence].
Qed.

(** C38: A signature that comes out is an Ethereum signature: 65 bytes, the r of
    KMS, an s in the lower half of the order that is KMS's or its negation, a
    recovery id of 0 or 1, and it recovers the key it was asked for. *)
Theorem SignMessageHash_spec n keyId pubKey hash r s sig (Hk : getSignatureFromKms n keyId hash = Ok (r, s))
    (Hr : SetBytes r < 2 ^ 256) (Hs : 0 < SetBytes s < secp256k1N) (H : SignMessageHash n keyId pubKey hash = Ok sig) :
  length sig = 65%nat /\ SetBytes (take 32 sig) = SetBytes r /\
  (let s' := SetBytes (take 32 (drop 32 sig)) in
   (s' = SetBytes s \/ s' = secp256k1N - SetBytes s) /\ 0 < s' <= secp256k1HalfN) /\
  (drop 64 sig = [x00] \/ drop 64 sig = [x01]) /\ Ecrecover hash sig = Ok (MarshalPubkey pubKey).
Proof.
  unfold SignMessageHash in H. rewrite Hk in H. cbn [result_bind] in H. exact (getEthereumSignature_good (MarshalPubkey pubKey) hash r s sig Hr Hs H).
Qed.

(** A key once fetched is served from the cache, without calling KMS again. *)
Lemma GetPubKey_cached keyId cache n key cache' n' : GetPubKey keyId cache n = (Ok key, cache', n') ->
  GetPubKey keyId cache' n' = (Ok key, cache', n') /\ forall k, k <> keyId -> cache' !! k = cache !! k.
Proof.
  unfold GetPubKey. destruct (cache !! keyId) as [key0|] eqn:E; [intros [= <- <- <-]; by rewrite E|].
  destruct (getPublicKeyDerBytesFromKMS n keyId) as [der|]; [|done]. destruct (wrap_text _ _) as [k|]; [|done].
  intros [= <- <- <-]. rewrite lookup_insert_eq. split; [done|]. intros k' Hk. by rewrite lookup_insert_ne.
Qed.

Context `{G : GoEthereum} `{BL : !BindLibrary}.

(** A transactor signs for its own account only, and what it signs is the
    transaction with a good signature of its hash for the chain by the account's key. *)
Lemma NewAwsKmsTransactor_signs keyId chainID cache n opts cache' n' :
  NewAwsKmsTransactorWithChainID keyId (Some chainID) cache n = (Ok opts, cache', n') ->
  exists pubkey, cache' !! keyId = Some pubkey /\ to_From opts = PubkeyToAddress pubkey /\
  forall k address tx signed, to_Signer opts k address tx = Ok signed ->
    address = to_From opts /\ exists r s sig, getSignatureFromKms k keyId (signer_Hash chainID tx) = Ok (r, s) /\
      WithSignature chainID tx sig = Ok signed /\
      (SetBytes r < 2 ^ 256 -> 0 < SetBytes s < secp256k1N -> good_signature (MarshalPubkey pubkey) (signer_Hash chainID tx) r s sig).
Proof.
  unfold NewAwsKmsTransactorWithChainID. destruct (GetPubKey keyId cache n) as [[[pubkey|e] cache1] n1] eqn:E; [|done].
  intros [= <- -> ->]. exists pubkey. split; [|split; [done|]].
  - apply GetPubKey_cached in E as [E _]. unfold GetPubKey in E. destruct (cache' !! keyId) as [key|]; [congruence|].
    destruct (getPublicKeyDerBytesFromKMS _ _); [|done]. destruct (wrap_text _ _); [|done]. injection E as _ _ E. lia.
  - intros k address tx signed H. unfold to_Signer, signerFn in H. case_bool_decide as Ha; [|done]. cbn [negb] in H.
    apply result_bind_Ok in H as ([r s] & Hk & H). apply result_bind_Ok in H as (sig & Hsig & H).
    split; [exact Ha|]. exists r, s, sig. split; [done|]. split; [done|]. intros Hr Hs. by apply getEthereumSignature_good.
Qed.
End theorems.
