(* ===== verification/EventIndexer.v ===== *)
(** * The event indexer (evm/eventindexer/event_indexer.go)

    Registrations, their subscriptions and the channels they share.  Every
    operation runs under the indexer's mutex, so a run is a sequence of them; a
    registration's goroutine contributes its deliveries, failed subscriptions,
    reconnects and its exit, in any order.  Sending on a closed channel and
    closing it again panic.  A channel, a registration and a subscription are
    numbers; the contexts are the set of cancelled registrations. *)
From stdpp Require Import gmap relations.
From Stdlib Require Import Ascii.
From S2P Require Export Ethereum Decimal.
Local Open Scope Z_scope.

Section indexer.
Context `{G : GoEthereum}.

Record contractInfo := mkContract { chainID : Z; address : Address; events : list Hash; eventChan : nat }.

Record indexer := mkIndexer {
  clients : gset Z;
  contracts : gmap string nat;         (* key -> registration *)
  running : gmap nat contractInfo;     (* registrations whose goroutine has not finished *)
  cancelled : gset nat;                (* registrations whose context is done *)
  subs : gmap nat nat;                 (* registration -> its live subscription *)
  live : gset nat;                     (* subscriptions not yet unsubscribed *)
  outputs : gmap nat Z;
  closed : gset nat;                   (* event channels closed *)
  next_reg : nat;
  next_sub : nat;
  started : bool;
  stopped : bool;
  sent : list (nat * (Z * Address));   (* deliveries: channel, chain and contract *)
}.

Definition New (chains : gset Z) : indexer :=
  {| clients := chains; contracts := ∅; running := ∅; cancelled := ∅; subs := ∅; live := ∅; outputs := ∅;
     closed := ∅; next_reg := 0; next_sub := 0; started := false; stopped := false; sent := [] |}.

Fixpoint Join_strings (sep : string) (l : list string) : string :=
  match l with [] => "" | [s] => s | s :: rest => s +:+ sep +:+ Join_strings sep rest end.

Definition getContractKey (chainID : Z) (address : string) (events : list Hash) : string :=
  pretty chainID +:+ "_" +:+ address +:+ "_" +:+ Join_strings "," (map Hash_Hex events).

Definition key_of (c : contractInfo) : string := getContractKey (chainID c) (Address_Hex (address c)) (events c).

(** ** Operations *)

Definition set_stopped (s : indexer) : indexer :=
  {| clients := clients s; contracts := contracts s; running := running s;
     cancelled := cancelled s ∪ list_to_set ((map_to_list (contracts s)).*2); subs := subs s; live := live s;
     outputs := outputs s; closed := closed s; next_reg := next_reg s; next_sub := next_sub s;
     started := started s; stopped := true; sent := sent s |}.

(** [shutdown], by [Stop] or the end of the context of [Start]. *)
Definition shutdown (s : indexer) : indexer := if stopped s then s else set_stopped s.

Definition Start (reconnectInterval : Z) (s : indexer) : result GoError unit * indexer :=
  if stopped s then (Err (errors_New "event indexer is stopped"), s)
  else if started s then (Ok tt, s)
  else if reconnectInterval <=? 0 then (Err (errors_New "reconnect interval must be positive"), s)
  else (Ok tt, {| clients := clients s; contracts := contracts s; running := running s; cancelled := cancelled s;
                  subs := subs s; live := live s; outputs := outputs s; closed := closed s; next_reg := next_reg s;
                  next_sub := next_sub s; started := true; stopped := stopped s; sent := sent s |}).

(** The first guard [AddContract] finds broken, in iteration order. *)
Fixpoint add_guard (addresses : list (Z * Address)) (evs : list Hash) (s : indexer) : option GoError :=
  match addresses with
  | [] => None
  | (chain, addr) :: rest =>
      if negb (bool_decide (chain ∈ clients s)) then Some (errors_New ("no client found for chain " +:+ pretty chain))
      else
        match contracts s !! getContractKey chain (Address_Hex addr) evs with
        | Some _ => Some (errors_New ("contract already being watched on chain " +:+ pretty chain))
        | None => add_guard rest evs s
        end
  end.

(** Subscribing chain by chain: [subscribe i] is the answer to the [i]-th call.
    The subscriptions opened so far, or the first error, with them. *)
Fixpoint open_subs (subscribe : nat -> option GoError) (i : nat) (addresses : list (Z * Address)) (next : nat) :
    result GoError (list nat) * list nat :=
  match addresses with
  | [] => (Ok [], [])
  | (chain, _) :: rest =>
      match subscribe i with
      | Some err => (Err (Errorf_w ("failed to setup subscription for chain " +:+ pretty chain +:+ ": ") err ""), [])
      | None =>
          let '(r, opened) := open_subs subscribe (S i) rest (S next) in
          (match r with Ok l => Ok (next :: l) | Err e => Err e end, next :: opened)
      end
  end.

(** [i.contracts[key] = contract; i.outputs[eventChan]++; go i.processLogs(...)] *)
Definition register (evs : list Hash) (ch : nat) (s : indexer) (entry : Z * Address * nat) : indexer :=
  let '(chain, addr, sub) := entry in
  let c := {| chainID := chain; address := addr; events := evs; eventChan := ch |} in
  {| clients := clients s; contracts := <[key_of c := next_reg s]> (contracts s);
     running := <[next_reg s := c]> (running s); cancelled := cancelled s; subs := <[next_reg s := sub]> (subs s);
     live := {[sub]} ∪ live s; outputs := <[ch := default 0 (outputs s !! ch) + 1]> (outputs s); closed := closed s;
     next_reg := S (next_reg s); next_sub := next_sub s; started := started s; stopped := stopped s; sent := sent s |}.

Definition set_next_sub (n : nat) (s : indexer) : indexer :=
  {| clients := clients s; contracts := contracts s; running := running s; cancelled := cancelled s; subs := subs s;
     live := live s; outputs := outputs s; closed := closed s; next_reg := next_reg s; next_sub := n;
     started := started s; stopped := stopped s; sent := sent s |}.

Definition set_live (l : gset nat) (s : indexer) : indexer :=
  {| clients := clients s; contracts := contracts s; running := running s; cancelled := cancelled s; subs := subs s;
     live := l; outputs := outputs s; closed := closed s; next_reg := next_reg s; next_sub := next_sub s;
     started := started s; stopped := stopped s; sent := sent s |}.

(** [existing.sub.Unsubscribe()] *)
Definition unsubscribe (s : indexer) (sub : nat) : indexer := set_live (live s ∖ {[sub]}) s.

(** The subscriptions opened before a failing one are unsubscribed again. *)
Definition AddContract (subscribe : nat -> option GoError) (addresses : list (Z * Address)) (evs : list Hash) (ch : nat)
    (s : indexer) : result GoError unit * indexer :=
  if stopped s then (Err (errors_New "event indexer is stopped"), s)
  else
    match add_guard addresses evs s with
    | Some err => (Err err, s)
    | None =>
        let '(r, opened) := open_subs subscribe 0 addresses (next_sub s) in
        let s := set_live (list_to_set opened ∪ live s) (set_next_sub (next_sub s + length opened) s) in
        match r with
        | Err err => (Err err, fold_left unsubscribe opened s)
        | Ok tokens => (Ok tt, fold_left (register evs ch) (zip addresses tokens) s)
        end
    end.

(** The registrations [RemoveContract] selects. *)
Definition matches (chainIDs : list Z) (addr : string) (s : indexer) (kr : string * nat) : Prop :=
  match running s !! kr.2 with
  | Some c => Address_Hex (address c) = addr /\ (chainIDs = [] \/ chainID c ∈ chainIDs)
  | None => False
  end.

#[export] Instance matches_dec chainIDs addr s kr : Decision (matches chainIDs addr s kr).
Proof. unfold matches. destruct (running s !! kr.2); apply _. Defined.

Definition RemoveContract (chainIDs : list Z) (addr : string) (s : indexer) : indexer :=
  let removed := filter (matches chainIDs addr s) (contracts s) in
  {| clients := clients s; contracts := filter (fun kr => ~ matches chainIDs addr s kr) (contracts s);
     running := running s; cancelled := cancelled s ∪ list_to_set ((map_to_list removed).*2); subs := subs s;
     live := live s; outputs := outputs s; closed := closed s; next_reg := next_reg s; next_sub := next_sub s;
     started := started s; stopped := stopped s; sent := sent s |}.

(** *** The goroutine of a registration *)

Definition set_sub (r : nat) (sub : option nat) (dead : gset nat) (next : nat) (s : indexer) : indexer :=
  {| clients := clients s; contracts := contracts s; running := running s; cancelled := cancelled s;
     subs := match sub with Some t => <[r := t]> (subs s) | None => delete r (subs s) end;
     live := (match sub with Some t => {[t]} | None => ∅ end) ∪ (live s ∖ dead);
     outputs := outputs s; closed := closed s; next_reg := next_reg s; next_sub := next; started := started s;
     stopped := stopped s; sent := sent s |}.

Definition sub_set (r : nat) (s : indexer) : gset nat := match subs s !! r with Some t => {[t]} | None => ∅ end.

(** [case err := <-subErrors]: only with a subscription. *)
Definition sub_failed (r : nat) (s : indexer) : indexer :=
  match subs s !! r with Some _ => set_sub r None (sub_set r s) (next_sub s) s | None => s end.

(** [case <-contract.retry]: reconnects when there is no subscription. *)
Definition retry (subscribe : option GoError) (r : nat) (s : indexer) : indexer :=
  match subs s !! r with
  | Some _ => s
  | None =>
      match subscribe with
      | Some _ => s
      | None => set_sub r (Some (next_sub s)) ∅ (S (next_sub s)) s
      end
  end.

(** [case log := <-logs]: forwarding it; [None] when the send panics. *)
Definition deliver (r : nat) (s : indexer) : option indexer :=
  match running s !! r, subs s !! r with
  | Some c, Some _ =>
      if bool_decide (eventChan c ∈ closed s) then None
      else Some {| clients := clients s; contracts := contracts s; running := running s; cancelled := cancelled s;
                   subs := subs s; live := live s; outputs := outputs s; closed := closed s; next_reg := next_reg s;
                   next_sub := next_sub s; started := started s; stopped := stopped s;
                   sent := (eventChan c, (chainID c, address c)) :: sent s |}
  | _, _ => Some s
  end.

(** The registration gone, its subscription closed. *)
Definition remove_reg (r : nat) (c : contractInfo) (closed' : gset nat) (outputs' : gmap nat Z) (s : indexer) : indexer :=
  {| clients := clients s;
     contracts := if bool_decide (contracts s !! key_of c = Some r) then delete (key_of c) (contracts s) else contracts s;
     running := delete r (running s); cancelled := {[r]} ∪ cancelled s; subs := delete r (subs s);
     live := live s ∖ sub_set r s; outputs := outputs'; closed := closed'; next_reg := next_reg s;
     next_sub := next_sub s; started := started s; stopped := stopped s; sent := sent s |}.

(** The deferred function of [processLogs]; [None] when the close panics. *)
Definition finish (r : nat) (s : indexer) : option indexer :=
  match running s !! r with
  | None => Some s
  | Some c =>
      let n := default 0 (outputs s !! eventChan c) - 1 in
      if n =? 0 then
        if bool_decide (eventChan c ∈ closed s) then None
        else Some (remove_reg r c ({[eventChan c]} ∪ closed s) (delete (eventChan c) (outputs s)) s)
      else Some (remove_reg r c (closed s) (<[eventChan c := n]> (outputs s)) s)
  end.

(** ** Runs *)

Definition set_cancelled (r : nat) (s : indexer) : indexer :=
  {| clients := clients s; contracts := contracts s; running := running s; cancelled := {[r]} ∪ cancelled s;
     subs := subs s; live := live s; outputs := outputs s; closed := closed s; next_reg := next_reg s;
     next_sub := next_sub s; started := started s; stopped := stopped s; sent := sent s |}.

(** A caller does not register a channel the indexer has closed. *)
Inductive ix_step : indexer -> indexer -> Prop :=
| ix_start interval s : ix_step s (snd (Start interval s))
| ix_stop s : ix_step s (shutdown s)
| ix_add subscribe addresses evs ch s : NoDup addresses.*1 -> Forall (fun ca => is_u64 (fst ca)) addresses ->
    ch ∉ closed s -> ix_step s (snd (AddContract subscribe addresses evs ch s))
| ix_remove chainIDs addr s : ix_step s (RemoveContract chainIDs addr s)
| ix_cancel r s : is_Some (running s !! r) -> ix_step s (set_cancelled r s)
| ix_sub_failed r s : is_Some (running s !! r) -> ix_step s (sub_failed r s)
| ix_retry subscribe r s : is_Some (running s !! r) -> ix_step s (retry subscribe r s)
| ix_deliver r s s' : deliver r s = Some s' -> ix_step s s'
| ix_finish r s s' : r ∈ cancelled s \/ stopped s = true -> finish r s = Some s' -> ix_step s s'.

(** ** Invariant *)

(** The running registrations that share a channel. *)
Definition users (ch : nat) (s : indexer) : gmap nat contractInfo := filter (fun kc => eventChan kc.2 = ch) (running s).

Record ix_inv (s : indexer) : Prop := {
  ii_outputs ch : outputs s !! ch = (if bool_decide (users ch s = ∅) then None else Some (Z.of_nat (size (users ch s))));
  ii_open r c : running s !! r = Some c -> eventChan c ∉ closed s;
  ii_keys k r : contracts s !! k = Some r -> exists c, running s !! r = Some c /\ key_of c = k;
  ii_active r c : running s !! r = Some c -> r ∉ cancelled s -> contracts s !! key_of c = Some r;
  ii_fresh r : is_Some (running s !! r) \/ r ∈ cancelled s -> (r < next_reg s)%nat;
  ii_subs r t : subs s !! r = Some t -> is_Some (running s !! r) /\ t ∈ live s;
  ii_live t : t ∈ live s -> (t < next_sub s)%nat /\ exists r, subs s !! r = Some t;
  ii_subs_inj r r' t : subs s !! r = Some t -> subs s !! r' = Some t -> r = r';
  ii_stopped : stopped s = true -> forall r, is_Some (running s !! r) -> r ∈ cancelled s;
}.

Lemma users_lookup ch s r c : users ch s !! r = Some c <-> running s !! r = Some c /\ eventChan c = ch.
Proof. unfold users. rewrite map_lookup_filter_Some. done. Qed.

Lemma ix_inv_New chains : ix_inv (New chains).
Proof.
  split.
  { intros ch. rewrite bool_decide_eq_true_2 by apply map_filter_empty. apply lookup_empty. }
  all: simpl; try (intros; simplify_map_eq; done).
  intros r [[? H]|H]; [by rewrite lookup_empty in H|set_solver].
Qed.

(** The first part of a key is its chain. *)
Lemma digits_prefix s s' t t' : all_digits s = true -> all_digits s' = true ->
  s +:+ String "_" t = s' +:+ String "_" t' -> s = s'.
Proof.
  revert s'. induction s as [|c s IH]; intros [|d s'] Hs Hs' E; [done| | |].
  - injection E as <- _. by vm_compute in Hs'.
  - injection E as -> _. by vm_compute in Hs.
  - apply andb_true_iff in Hs as [_ Hs]. apply andb_true_iff in Hs' as [_ Hs']. injection E as <- E. f_equal. by apply IH.
Qed.

Lemma key_chain c c' a a' evs evs' : 0 <= c -> 0 <= c' -> getContractKey c a evs = getContractKey c' a' evs' -> c = c'.
Proof.
  unfold getContractKey. intros Hc Hc' E. destruct (big_String_spec c Hc) as (H1 & _ & _).
  destruct (big_String_spec c' Hc') as (H2 & _ & _). apply digits_prefix in E; [|done..]. by apply (inj pretty).
Qed.

(** *** Registering *)

Lemma users_register evs ch s chain addr sub ch' : running s !! next_reg s = None ->
  users ch' (register evs ch s (chain, addr, sub)) =
  if decide (ch = ch') then <[next_reg s := mkContract chain addr evs ch]> (users ch' s) else users ch' s.
Proof.
  intros Hf. unfold users. simpl. case_decide as E.
  - by rewrite map_filter_insert_True.
  - rewrite map_filter_insert_False by done. by rewrite delete_id.
Qed.

Lemma ix_inv_register evs ch s chain addr sub :
  ix_inv s -> ch ∉ closed s -> stopped s = false -> contracts s !! getContractKey chain (Address_Hex addr) evs = None ->
  (sub < next_sub s)%nat -> sub ∉ live s -> ix_inv (register evs ch s (chain, addr, sub)).
Proof.
  intros I Hch Hst Hk Hsub Hlive. set (c := mkContract chain addr evs ch). destruct I.
  assert (Hf : running s !! next_reg s = None).
  { apply eq_None_not_Some. intros H. pose proof (ii_fresh0 (next_reg s) (or_introl H)). lia. }
  assert (Hc : next_reg s ∉ cancelled s).
  { intros H. pose proof (ii_fresh0 (next_reg s) (or_intror H)). lia. }
  assert (Hs : subs s !! next_reg s = None).
  { apply eq_None_not_Some. intros [t H]. destruct (ii_subs0 _ _ H) as [H' _]. rewrite Hf in H'. by destruct H'. }
  split.
  - intros ch'. rewrite users_register by done. simpl. rewrite lookup_insert. case_decide as E; [subst ch'|done].
    rewrite bool_decide_eq_false_2 by apply insert_non_empty.
    rewrite map_size_insert_None by (apply eq_None_not_Some; intros [x [Hx _]%users_lookup]; congruence).
    rewrite ii_outputs0. f_equal. case_bool_decide as Eu; simpl; [rewrite Eu, map_size_empty; lia|lia].
  - simpl. intros r c'. rewrite lookup_insert_Some. intros [[_ <-]|[_ H]]; [done|by eapply ii_open0].
  - simpl. intros k r. rewrite lookup_insert_Some. intros [[<- <-]|[_ H]].
    + exists c. by rewrite lookup_insert_eq.
    + destruct (ii_keys0 _ _ H) as (c' & H1 & H2). exists c'. split; [|done]. rewrite lookup_insert_ne; [done|]. by intros <-; congruence.
  - simpl. intros r c'. rewrite lookup_insert_Some. intros [[<- <-]|[Hr H]] Hn; [by rewrite lookup_insert_eq|].
    rewrite lookup_insert_ne; [by apply ii_active0|]. intros E. specialize (ii_active0 _ _ H Hn). unfold key_of in E at 1. simpl in E.
    rewrite E in Hk. congruence.
  - simpl. intros r [[c' H]|H].
    + rewrite lookup_insert_Some in H. destruct H as [[<- _]|[_ H]]; [lia|]. pose proof (ii_fresh0 r (or_introl (mk_is_Some _ _ H))). lia.
    + pose proof (ii_fresh0 r (or_intror H)). lia.
  - simpl. intros r t. rewrite lookup_insert_Some. intros [[<- <-]|[Hr H]].
    + rewrite lookup_insert_eq. split; [done|set_solver].
    + destruct (ii_subs0 _ _ H) as [H1 H2]. rewrite lookup_insert_ne by done. split; [done|set_solver].
  - simpl. intros t [->%elem_of_singleton|H]%elem_of_union.
    + split; [done|]. exists (next_reg s). by rewrite lookup_insert_eq.
    + destruct (ii_live0 _ H) as [H1 [r H2]]. split; [done|]. exists r. rewrite lookup_insert_ne; [done|]. by intros <-; congruence.
  - simpl. intros r r' t. rewrite !lookup_insert_Some. intros [[<- <-]|[Hr H]] [[<- E]|[Hr' H']]; [done| | |by eapply ii_subs_inj0].
    + by destruct (ii_subs0 _ _ H') as [_ ?].
    + subst t. by destruct (ii_subs0 _ _ H) as [_ ?].
  - simpl. congruence.
Qed.

(** Numbers used up without a registration. *)
Lemma ix_inv_next_sub n s : (next_sub s <= n)%nat -> ix_inv s -> ix_inv (set_next_sub n s).
Proof. intros Hn []. split; try done. simpl. intros t H. destruct (ii_live0 t H). split; [lia|done]. Qed.

Lemma open_subs_Ok subscribe i addresses next l opened : open_subs subscribe i addresses next = (Ok l, opened) ->
  l = seq next (length addresses) /\ opened = l.
Proof.
  revert i next l opened. induction addresses as [|[chain addr] rest IH]; intros i next l opened; simpl; [by intros [= <- <-]|].
  destruct (subscribe i); [done|]. destruct (open_subs subscribe (S i) rest (S next)) as [[l'|] o'] eqn:E; [|done].
  intros [= <- <-]. apply IH in E as [-> ->]. done.
Qed.

Lemma open_subs_fresh subscribe i addresses next :
  Forall (fun t => (next <= t)%nat) (snd (open_subs subscribe i addresses next)).
Proof.
  revert i next. induction addresses as [|[chain addr] rest IH]; intros i next; simpl; [constructor|].
  destruct (subscribe i); [constructor|]. specialize (IH (S i) (S next)). destruct (open_subs _ _ _ _) as [r o]. simpl in *.
  constructor; [lia|]. eapply Forall_impl; [exact IH|]. simpl. lia.
Qed.

Lemma add_guard_None addresses evs s : add_guard addresses evs s = None ->
  Forall (fun ca => contracts s !! getContractKey ca.1 (Address_Hex ca.2) evs = None) addresses.
Proof.
  induction addresses as [|[chain addr] rest IH]; simpl; [constructor|]. case_bool_decide; [|done]. simpl.
  destruct (contracts s !! _) eqn:E; [done|]. intros H'. constructor; [done|by apply IH].
Qed.

Lemma ix_inv_register_all evs ch addresses tokens s :
  ix_inv s -> ch ∉ closed s -> stopped s = false ->
  Forall (fun ca => contracts s !! getContractKey ca.1 (Address_Hex ca.2) evs = None) addresses ->
  NoDup addresses.*1 -> Forall (fun ca => is_u64 (fst ca)) addresses ->
  NoDup tokens -> Forall (fun t => (t < next_sub s)%nat /\ t ∉ live s) tokens ->
  ix_inv (fold_left (register evs ch) (zip addresses tokens) s).
Proof.
  revert tokens s. induction addresses as [|[chain addr] rest IH]; intros [|t tokens] s I Hch Hst Hk Hnd Hu Ht Hl;
    simpl; [done..|].
  apply Forall_cons in Hk as [Hk Hks]. apply Forall_cons in Hu as [Hu Hus]. apply Forall_cons in Hl as [[Hl1 Hl2] Hls].
  apply NoDup_cons in Ht as [Ht Hts]. apply NoDup_cons in Hnd as [Hnd Hnds].
  apply IH; try done.
  - by apply ix_inv_register.
  - apply Forall_forall. intros [c a] Hin. simpl. rewrite lookup_insert_ne.
    + rewrite Forall_forall in Hks. by apply (Hks (c, a)).
    + unfold key_of. simpl. intros E. rewrite Forall_forall in Hus. specialize (Hus _ Hin). simpl in Hus, Hu.
      apply key_chain in E; [|unfold is_u64 in *; lia..]. subst c. apply Hnd, list_elem_of_fmap. by exists (chain, a).
  - rewrite Forall_forall in Hls |- *. intros t' Hin. destruct (Hls t' Hin). simpl. split; [done|].
    assert (t' <> t) by by intros ->. set_solver.
Qed.

(** Opening and closing subscriptions are the same set operations in any order. *)
Lemma fold_unsubscribe l s : fold_left unsubscribe l s = set_live (live s ∖ list_to_set l) s.
Proof.
  revert s. induction l as [|t l IH]; intros s; simpl.
  - destruct s; unfold set_live; simpl. f_equal. set_solver.
  - rewrite IH. destruct s; unfold unsubscribe, set_live; simpl. f_equal. set_solver.
Qed.

Lemma fold_register_live evs ch entries X s : X ⊆ list_to_set (map snd entries) ->
  fold_left (register evs ch) entries (set_live (X ∪ live s) s) = fold_left (register evs ch) entries s.
Proof.
  revert X s. induction entries as [|[[chain addr] t] entries IH]; intros X s HX; simpl.
  - destruct s; unfold set_live; simpl in *. f_equal. set_solver.
  - simpl in HX. etransitivity; [|apply (IH (X ∖ {[t]})); set_solver]. f_equal.
    destruct s; unfold register, set_live; simpl. f_equal. apply set_eq. intros t'. destruct (decide (t' = t)); set_solver.
Qed.

(** A failed registration undoes its subscriptions. *)
Lemma rollback_live opened s : (forall t, t ∈ opened -> t ∉ live s) ->
  fold_left unsubscribe opened (set_live (list_to_set opened ∪ live s) s) = s.
Proof.
  intros H. rewrite fold_unsubscribe. destruct s; unfold set_live; simpl in *. f_equal. apply set_eq. intros t.
  specialize (H t). set_solver.
Qed.

Lemma ix_inv_AddContract subscribe addresses evs ch s :
  NoDup addresses.*1 -> Forall (fun ca => is_u64 (fst ca)) addresses -> ch ∉ closed s -> ix_inv s ->
  ix_inv (snd (AddContract subscribe addresses evs ch s)).
Proof.
  intros Hnd Hu Hch I. unfold AddContract. destruct (stopped s) eqn:Est; [done|].
  destruct (add_guard addresses evs s) eqn:Eg; [done|].
  destruct (open_subs subscribe 0 addresses (next_sub s)) as [r opened] eqn:Eo.
  assert (Hfresh : forall t, t ∈ opened -> t ∉ live s).
  { intros t Ht Hl. pose proof (open_subs_fresh subscribe 0 addresses (next_sub s)) as H. rewrite Eo in H.
    rewrite Forall_forall in H. specialize (H t Ht). destruct (ii_live s I t Hl). lia. }
  set (s' := set_next_sub (next_sub s + length opened) s).
  assert (I' : ix_inv s') by (apply ix_inv_next_sub; [lia|done]).
  destruct r as [tokens|err]; simpl; [|change (live s) with (live s'); by rewrite rollback_live].
  apply open_subs_Ok in Eo as [-> ->]. change (live s) with (live s').
  rewrite fold_register_live.
  - apply ix_inv_register_all; simpl; try done; [by apply add_guard_None|apply NoDup_seq|].
    apply Forall_forall. intros t Ht. split; [|by apply Hfresh]. apply elem_of_seq in Ht. rewrite length_seq. lia.
  - intros t. rewrite !elem_of_list_to_set, list_elem_of_fmap. intros Ht. apply list_elem_of_lookup in Ht as [i Hi].
    apply lookup_seq in Hi as [-> Hi]. destruct (lookup_lt_is_Some_2 addresses i Hi) as [a Ha].
    exists (a, (next_sub s + i)%nat). split; [done|]. apply list_elem_of_lookup. exists i.
    rewrite lookup_zip_with, Ha. simpl. by rewrite lookup_seq_lt.
Qed.

Lemma elem_of_values (m : gmap string nat) r : r ∈ (list_to_set ((map_to_list m).*2) : gset nat) <-> exists k, m !! k = Some r.
Proof.
  rewrite elem_of_list_to_set, list_elem_of_fmap. split.
  - intros ([k v] & -> & H%elem_of_map_to_list). by exists k.
  - intros [k H]. exists (k, r). by rewrite elem_of_map_to_list.
Qed.

Lemma ix_inv_shutdown s : ix_inv s -> ix_inv (shutdown s).
Proof.
  unfold shutdown. destruct (stopped s); [done|]. intros []. split; simpl; try done.
  - intros r c H Hn. apply ii_active0; [done|set_solver].
  - intros r [H|[H|[k H]%elem_of_values]%elem_of_union]; [by apply ii_fresh0; left|by apply ii_fresh0; right|].
    destruct (ii_keys0 _ _ H) as (c & Hc & _). by apply ii_fresh0; left; exists c.
  - intros _ r [c H]. destruct (decide (r ∈ cancelled s)) as [|Hn]; [set_solver|].
    apply elem_of_union_r, elem_of_values. exists (key_of c). by apply ii_active0.
Qed.

Lemma ix_inv_RemoveContract chainIDs addr s : ix_inv s -> ix_inv (RemoveContract chainIDs addr s).
Proof.
  intros []. split; simpl; try done.
  - intros k r [H _]%map_lookup_filter_Some. by apply ii_keys0.
  - intros r c H Hn. apply map_lookup_filter_Some.
    assert (Hk : contracts s !! key_of c = Some r) by (apply ii_active0; [done|set_solver]). split; [done|].
    intros Hs. apply Hn, elem_of_union_r, elem_of_values. exists (key_of c). by apply map_lookup_filter_Some.
  - intros r [H|[H|[k [H _]%map_lookup_filter_Some]%elem_of_values]%elem_of_union];
      [by apply ii_fresh0; left|by apply ii_fresh0; right|].
    destruct (ii_keys0 _ _ H) as (c & Hc & _). by apply ii_fresh0; left; exists c.
  - intros Hst r H. specialize (ii_stopped0 Hst r H). set_solver.
Qed.

Lemma ix_inv_cancel r s : is_Some (running s !! r) -> ix_inv s -> ix_inv (set_cancelled r s).
Proof.
  intros Hr []. split; simpl; try done.
  - intros r' c H Hn. apply ii_active0; [done|set_solver].
  - intros r' [H|[->%elem_of_singleton|H]%elem_of_union]; [by apply ii_fresh0; left|by apply ii_fresh0; left|by apply ii_fresh0; right].
  - intros Hst r' H. specialize (ii_stopped0 Hst r' H). set_solver.
Qed.

Lemma sub_set_elem r s t : t ∈ sub_set r s <-> subs s !! r = Some t.
Proof. unfold sub_set. destruct (subs s !! r); set_solver. Qed.

Lemma ix_inv_sub_failed r s : ix_inv s -> ix_inv (sub_failed r s).
Proof.
  unfold sub_failed. intros I. destruct (subs s !! r) as [t|] eqn:E; [|done]. destruct I. split; simpl; try done.
  - intros r' t' [Hr H]%lookup_delete_Some. destruct (ii_subs0 _ _ H) as [H1 H2]. split; [done|].
    apply elem_of_union_r, elem_of_difference. split; [done|]. intros H3%sub_set_elem. by apply Hr, (ii_subs_inj0 r r' t').
  - intros t' [H|[H1 H2]%elem_of_difference]%elem_of_union; [set_solver|]. destruct (ii_live0 _ H1) as [H3 [r' H4]].
    split; [done|]. exists r'. apply lookup_delete_Some. split; [|done]. intros <-. by apply H2, sub_set_elem.
  - intros r1 r2 t' [_ H1]%lookup_delete_Some [_ H2]%lookup_delete_Some. by eapply ii_subs_inj0.
Qed.

Lemma ix_inv_retry subscribe r s : is_Some (running s !! r) -> ix_inv s -> ix_inv (retry subscribe r s).
Proof.
  unfold retry. intros Hr I. destruct (subs s !! r) as [t|] eqn:E; [done|]. destruct subscribe; [done|].
  destruct I. assert (Hfresh : next_sub s ∉ live s) by by intros H; destruct (ii_live0 _ H); lia.
  split; simpl; try done.
  - intros r' t'. rewrite lookup_insert_Some. intros [[<- <-]|[_ H]]; [set_solver|]. destruct (ii_subs0 _ _ H). set_solver.
  - intros t' [->%elem_of_singleton|H]%elem_of_union; [split; [lia|]; exists r; apply lookup_insert_eq|].
    destruct (ii_live0 t' ltac:(set_solver)) as [H1 [r' H2]]. split; [lia|]. exists r'. rewrite lookup_insert_ne; [done|].
    by intros <-; congruence.
  - intros r1 r2 t'. rewrite !lookup_insert_Some. intros [[<- <-]|[H1 H2]] [[<- H3]|[H3 H4]]; [done| | |by eapply ii_subs_inj0].
    + by destruct (ii_subs0 _ _ H4).
    + subst t'. by destruct (ii_subs0 _ _ H2).
Qed.

Lemma deliver_total r s : ix_inv s -> exists s', deliver r s = Some s' /\ ix_inv s'.
Proof.
  unfold deliver. intros I. destruct (running s !! r) as [c|] eqn:E; [|by exists s]. destruct (subs s !! r); [|by exists s].
  rewrite bool_decide_eq_false_2 by by eapply ii_open. eexists. split; [done|]. destruct I. by split.
Qed.

Lemma users_delete ch s r c : running s !! r = Some c ->
  filter (fun kc : nat * contractInfo => eventChan kc.2 = ch) (delete r (running s)) = delete r (users ch s).
Proof. intros _. unfold users. by rewrite map_filter_delete. Qed.

Lemma ix_inv_remove_reg r c closed' outputs' s : ix_inv s -> running s !! r = Some c ->
  (forall ch, outputs' !! ch = (if bool_decide (delete r (users ch s) = ∅) then None
                                else Some (Z.of_nat (size (delete r (users ch s)))))) ->
  (forall r' c', running s !! r' = Some c' -> r' <> r -> eventChan c' ∉ closed') ->
  ix_inv (remove_reg r c closed' outputs' s).
Proof.
  intros [] E H1 H2. split; cbn [outputs running closed contracts cancelled subs live next_reg next_sub stopped remove_reg].
  - intros ch. rewrite H1, <- (users_delete ch s r c) by done. done.
  - intros r' c' [Hr H]%lookup_delete_Some. by apply (H2 r').
  - intros k r' H. assert (contracts s !! k = Some r' /\ r' <> r) as [H' Hr].
    { case_bool_decide as Hk.
      - apply lookup_delete_Some in H as [H3 H4]. split; [done|]. intros ->. destruct (ii_keys0 _ _ H4) as (c' & H5 & H6). congruence.
      - split; [done|]. intros ->. destruct (ii_keys0 _ _ H) as (c' & H5 & H6). congruence. }
    destruct (ii_keys0 _ _ H') as (c' & H5 & H6). exists c'. split; [|done]. by apply lookup_delete_Some.
  - intros r' c' [Hr H]%lookup_delete_Some Hn'. specialize (ii_active0 r' c' H ltac:(set_solver)).
    case_bool_decide as Hk; [|done]. apply lookup_delete_Some. split; [|done]. congruence.
  - intros r' [[c' [_ H]%lookup_delete_Some]|[->%elem_of_singleton|H]%elem_of_union];
      [by apply ii_fresh0; left; exists c'|by apply ii_fresh0; left; exists c|by apply ii_fresh0; right].
  - intros r' t [Hr H]%lookup_delete_Some. destruct (ii_subs0 _ _ H) as [[c' H3] H4]. split; [exists c'; by apply lookup_delete_Some|].
    apply elem_of_difference. split; [done|]. intros H5%sub_set_elem. by apply Hr, (ii_subs_inj0 r r' t).
  - intros t [H3 H4]%elem_of_difference. destruct (ii_live0 _ H3) as [H5 [r' H6]]. split; [done|]. exists r'.
    apply lookup_delete_Some. split; [|done]. intros <-. by apply H4, sub_set_elem.
  - intros r1 r2 t [_ H3]%lookup_delete_Some [_ H4]%lookup_delete_Some. by eapply ii_subs_inj0.
  - intros Hst r' [c' [_ H]%lookup_delete_Some]. apply elem_of_union_r. apply ii_stopped0; [done|by exists c'].
Qed.

(** A channel not [c]'s keeps its users. *)
Lemma users_other ch r c s : running s !! r = Some c -> ch <> eventChan c -> delete r (users ch s) = users ch s.
Proof. intros E Hch. apply delete_id, eq_None_not_Some. intros [c' [H1 H2]%users_lookup]. congruence. Qed.

Lemma finish_total r s : ix_inv s -> exists s', finish r s = Some s' /\ ix_inv s'.
Proof.
  intros I. unfold finish. destruct (running s !! r) as [c|] eqn:E; [|by exists s].
  assert (Hin : users (eventChan c) s !! r = Some c) by by apply users_lookup.
  assert (Hne : users (eventChan c) s <> ∅) by by intros H; rewrite H, lookup_empty in Hin.
  pose proof (map_size_insert_None r c (delete r (users (eventChan c) s)) ltac:(apply lookup_delete_eq)) as Hsize.
  rewrite insert_delete_id in Hsize by done.
  pose proof (ii_outputs s I (eventChan c)) as Ho. rewrite bool_decide_eq_false_2 in Ho by done. rewrite Ho. simpl default.
  set (n := Z.of_nat _ - 1). assert (Hn : n = Z.of_nat (size (delete r (users (eventChan c) s)))) by (unfold n; lia).
  destruct (Z.eqb_spec n 0) as [Hz|Hz].
  - assert (H0 : delete r (users (eventChan c) s) = ∅) by (apply map_size_empty_inv; lia).
    rewrite bool_decide_eq_false_2 by by eapply ii_open. eexists. split; [done|]. apply ix_inv_remove_reg; [done|done| |].
    + intros ch. destruct (decide (ch = eventChan c)) as [->|Hch].
      * by rewrite lookup_delete_eq, bool_decide_eq_true_2.
      * rewrite lookup_delete_ne by done. by rewrite (users_other ch r c), (ii_outputs s I).
    + intros r' c' H1 H2. apply not_elem_of_union. split; [|by eapply ii_open]. intros H3%elem_of_singleton.
      assert (Hd : delete r (users (eventChan c) s) !! r' = Some c') by (apply lookup_delete_Some; split; [done|by apply users_lookup]).
      by rewrite H0, lookup_empty in Hd.
  - eexists. split; [done|]. apply ix_inv_remove_reg; [done|done| |intros r' c' H1 H2; by eapply ii_open].
    intros ch. rewrite lookup_insert. case_decide as Hch; [subst ch|by rewrite (users_other ch r c), (ii_outputs s I)].
    rewrite bool_decide_eq_false_2; [by rewrite Hn|]. intros H. rewrite H, map_size_empty in Hn. lia.
Qed.

Lemma ix_step_inv s s' : ix_step s s' -> ix_inv s -> ix_inv s'.
Proof.
  destruct 1 as [interval s|s|subscribe addresses evs ch s H1 H2 H3|chainIDs addr s|r s H|r s H|subscribe r s H|r s s' H|r s s' H H'];
    intros I.
  - unfold Start. destruct (stopped s) eqn:?; [done|]. destruct (started s); [done|]. destruct (interval <=? 0); [done|].
    by destruct I; split.
  - by apply ix_inv_shutdown.
  - by apply ix_inv_AddContract.
  - by apply ix_inv_RemoveContract.
  - by apply ix_inv_cancel.
  - by apply ix_inv_sub_failed.
  - by apply ix_inv_retry.
  - destruct (deliver_total r s I) as (s1 & E & I1). congruence.
  - destruct (finish_total r s I) as (s1 & E & I1). congruence.
Qed.

Lemma ix_reachable_inv chains s : rtc ix_step (New chains) s -> ix_inv s.
Proof.
  intros H. pose proof (ix_inv_New chains) as I. induction H as [|s1 s2 s3 H1 _ IH]; [done|]. by apply IH, (ix_step_inv s1).
Qed.

(** C28: The indexer never panics on a channel. Whatever sequence of calls,
    failures, reconnects, deliveries and exits happened, forwarding a log never
    sends on a closed channel and an exiting registration never closes a channel
    twice. *)
Theorem indexer_no_panic chains s r (H : rtc ix_step (New chains) s) :
  is_Some (deliver r s) /\ is_Some (finish r s).
Proof.
  apply ix_reachable_inv in H. split.
  - destruct (deliver_total r s H) as (s' & -> & _). done.
  - destruct (finish_total r s H) as (s' & -> & _). done.
Qed.

(** A channel is closed exactly at its last use: while a registration using
    it is running it is open and counted, and the exit of the last one closes it. *)
Theorem indexer_close_last chains s r c s' (H : rtc ix_step (New chains) s)
    (Hr : running s !! r = Some c) (Hd : r ∈ cancelled s) (Hf : finish r s = Some s') :
  eventChan c ∉ closed s /\
  (eventChan c ∈ closed s' <-> forall r' c', running s !! r' = Some c' -> eventChan c' = eventChan c -> r' = r).
Proof.
  apply ix_reachable_inv in H. pose proof (ii_open s H r c Hr) as Ho. split; [done|].
  destruct (finish_total r s H) as (s1 & E & I1). rewrite Hf in E. injection E as <-.
  split.
  - intros Hc r' c' H1 H2. destruct (decide (r' = r)) as [|Hne]; [done|]. exfalso.
    assert (Hr' : running s' !! r' = Some c').
    { revert Hf. unfold finish. rewrite Hr. repeat case_match; intros; simplify_eq/=; by rewrite lookup_delete_ne. }
    apply (ii_open s' I1 r' c' Hr'). by rewrite H2.
  - intros Hall. pose proof (ii_outputs s H (eventChan c)) as Ho'.
    assert (Hu : users (eventChan c) s = {[r := c]}).
    { apply map_eq. intros r'. destruct (users (eventChan c) s !! r') as [c'|] eqn:E.
      - apply users_lookup in E as [E1 E2]. pose proof (Hall r' c' E1 E2) as ->. rewrite lookup_singleton_eq. congruence.
      - symmetry. apply lookup_singleton_ne. intros <-. by rewrite (proj2 (users_lookup _ _ _ c) (conj Hr eq_refl)) in E. }
    rewrite Hu, map_size_singleton, bool_decide_eq_false_2 in Ho' by apply map_non_empty_singleton.
    revert Hf. unfold finish. rewrite Hr, Ho'. simpl. rewrite bool_decide_eq_false_2 by done. intros [= <-]. simpl. set_solver.
Qed.

(** Nothing leaks: the live subscriptions are exactly those of running
    registrations, one each; and after a stop every running registration has its
    context cancelled, so its goroutine can only exit. *)
Theorem indexer_no_leak chains s (H : rtc ix_step (New chains) s) :
  (forall t, t ∈ live s <-> exists r, is_Some (running s !! r) /\ subs s !! r = Some t) /\
  (forall r r' t, subs s !! r = Some t -> subs s !! r' = Some t -> r = r') /\
  (stopped s = true -> forall r, is_Some (running s !! r) -> r ∈ cancelled s).
Proof.
  apply ix_reachable_inv in H. destruct H. split; [|by split]. intros t. split.
  - intros Hl. destruct (ii_live0 t Hl) as [_ [r Hr]]. exists r. split; [by apply (ii_subs0 r t)|done].
  - intros (r & _ & Hr). by apply (ii_subs0 r t).
Qed.

(** Adding contracts is all or nothing: on an error no registration, no
    subscription and no channel count is left behind. *)
Theorem AddContract_atomic chains subscribe addresses evs ch s err (Hr : rtc ix_step (New chains) s)
    (H : fst (AddContract subscribe addresses evs ch s) = Err err) :
  let s' := snd (AddContract subscribe addresses evs ch s) in
  contracts s' = contracts s /\ running s' = running s /\ subs s' = subs s /\ live s' = live s /\
  outputs s' = outputs s /\ closed s' = closed s.
Proof.
  apply ix_reachable_inv in Hr. revert H. unfold AddContract. destruct (stopped s); [done|]. destruct (add_guard addresses evs s); [done|].
  pose proof (open_subs_fresh subscribe 0 addresses (next_sub s)) as Hf. rewrite Forall_forall in Hf.
  destruct (open_subs subscribe 0 addresses (next_sub s)) as [[tokens|e] opened]; [done|]. intros _. simpl.
  rewrite fold_unsubscribe. simpl. repeat (split; [done|]). split; [|done]. apply set_eq. intros t.
  pose proof (ii_live s Hr t) as Hl. specialize (Hf t). simpl in Hf. split; [set_solver|]. intros Ht. destruct (Hl Ht) as [Hlt _].
  apply elem_of_difference. split; [set_solver|]. intros Ho%elem_of_list_to_set. specialize (Hf Ho). lia.
Qed.
End indexer.
