(* ===== verification/Payload.v ===== *)
(** * The canonical payload and its hash (evm/txmngr/txmngr.go)

    [transactionPayloadHash]: the JSON encoding of the fields a queued
    transaction is signed from, hashed with Keccak-256.  [encoding/json] writes
    a struct's fields in order, a [[]byte] in standard base64 (a nil one as
    [null]) and drops an empty [omitempty] slice.  Keccak and go-ethereum's
    encoding of one authorization are parameters. *)
From Stdlib Require Import Ascii.
From S2P Require Export Ethereum.
Local Open Scope Z_scope.
Local Open Scope go_scope.

(** ** [base64.StdEncoding] *)

Definition b64_alphabet : string := "ABCDEFGHIJKLMNOPQRSTUVWXYZabcdefghijklmnopqrstuvwxyz0123456789+/".

(** The character of a 6-bit value. *)
Definition b64_char (v : Z) : ascii := default "="%char (String.get (Z.to_nat v) b64_alphabet).

Definition byte_Z (b : Byte.byte) : Z := Z.of_N (Byte.to_N b).

Fixpoint b64_encode (l : list Byte.byte) : string :=
  match l with
  | [] => ""
  | [a] =>
      let n := Z.shiftl (byte_Z a) 16 in
      String (b64_char (Z.shiftr n 18)) (String (b64_char (Z.land (Z.shiftr n 12) 63)) "==")
  | [a; b] =>
      let n := Z.lor (Z.shiftl (byte_Z a) 16) (Z.shiftl (byte_Z b) 8) in
      String (b64_char (Z.shiftr n 18)) (String (b64_char (Z.land (Z.shiftr n 12) 63))
        (String (b64_char (Z.land (Z.shiftr n 6) 63)) "="))
  | a :: b :: c :: l' =>
      let n := Z.lor (Z.shiftl (byte_Z a) 16) (Z.lor (Z.shiftl (byte_Z b) 8) (byte_Z c)) in
      String (b64_char (Z.shiftr n 18)) (String (b64_char (Z.land (Z.shiftr n 12) 63))
        (String (b64_char (Z.land (Z.shiftr n 6) 63)) (String (b64_char (Z.land n 63)) (b64_encode l'))))
  end.

(** The value of a character, for reading the encoding back. *)
Definition b64_value (c : ascii) : Z :=
  let n := Z.of_N (N_of_ascii c) in
  if (65 <=? n) && (n <=? 90) then n - 65
  else if (97 <=? n) && (n <=? 122) then n - 71
  else if (48 <=? n) && (n <=? 57) then n + 4
  else if n =? 43 then 62 else 63.

Lemma b64_value_char v : 0 <= v < 64 -> b64_value (b64_char v) = v.
Proof.
  intros H. assert (Hall : forallb (fun n => b64_value (b64_char (Z.of_nat n)) =? Z.of_nat n) (seq 0 64) = true)
    by (vm_compute; reflexivity).
  rewrite forallb_forall in Hall. specialize (Hall (Z.to_nat v)). rewrite Z2Nat.id in Hall by lia.
  apply Z.eqb_eq, Hall, in_seq. lia.
Qed.

Lemma b64_char_inj v w : 0 <= v < 64 -> 0 <= w < 64 -> b64_char v = b64_char w -> v = w.
Proof. intros Hv Hw E. rewrite <- (b64_value_char v), <- (b64_value_char w) by done. by rewrite E. Qed.

(** Nothing the alphabet encodes is the padding or a delimiter. *)
Lemma b64_char_plain v : 0 <= v < 64 -> b64_char v <> "="%char /\ b64_char v <> ","%char.
Proof.
  intros H. assert (Hall : forallb (fun n => negb (Ascii.eqb (b64_char (Z.of_nat n)) "=") &&
                                         negb (Ascii.eqb (b64_char (Z.of_nat n)) ",")) (seq 0 64) = true)
    by (vm_compute; reflexivity).
  rewrite forallb_forall in Hall. specialize (Hall (Z.to_nat v)). rewrite Z2Nat.id in Hall by lia.
  rewrite andb_true_iff, !negb_true_iff, !Ascii.eqb_neq in Hall. apply Hall, in_seq. lia.
Qed.

Lemma byte_Z_range b : 0 <= byte_Z b < 256.
Proof. unfold byte_Z. pose proof (Byte.to_N_bounded b). lia. Qed.

Lemma byte_Z_inj a b : byte_Z a = byte_Z b -> a = b.
Proof.
  unfold byte_Z. intros E%N2Z.inj. pose proof (Byte.of_to_N a) as Ha. rewrite E, Byte.of_to_N in Ha. congruence.
Qed.

Lemma lor_shiftl a b k : 0 <= k -> 0 <= b < 2 ^ k -> Z.lor (Z.shiftl a k) b = a * 2 ^ k + b.
Proof.
  intros Hk Hb. rewrite <- Z.shiftl_mul_pow2 by done. rewrite <- Z.lxor_lor.
  - symmetry. apply Z.add_nocarry_lxor. apply Z.bits_inj'. intros n Hn.
    rewrite Z.land_spec, Z.shiftl_spec, Z.bits_0 by done. destruct (Z.ltb_spec n k).
    + by rewrite Z.testbit_neg_r by lia.
    + replace b with (b mod 2 ^ k) by (apply Z.mod_small; lia).
      rewrite Z.mod_pow2_bits_high by lia. apply andb_false_r.
  - apply Z.bits_inj'. intros n Hn. rewrite Z.land_spec, Z.shiftl_spec, Z.bits_0 by done. destruct (Z.ltb_spec n k).
    + by rewrite Z.testbit_neg_r by lia.
    + replace b with (b mod 2 ^ k) by (apply Z.mod_small; lia).
      rewrite Z.mod_pow2_bits_high by lia. apply andb_false_r.
Qed.

(** The four sextets of a 24-bit value. *)
Lemma sextets n : 0 <= n < 2 ^ 24 ->
  Z.shiftr n 18 = n / 262144 /\ Z.land (Z.shiftr n 12) 63 = (n / 4096) mod 64 /\
  Z.land (Z.shiftr n 6) 63 = (n / 64) mod 64 /\ Z.land n 63 = n mod 64 /\ 0 <= n / 262144 < 64.
Proof.
  intros H. rewrite !Z.shiftr_div_pow2 by done. change 63 with (Z.ones 6). rewrite !Z.land_ones by done.
  repeat split; try reflexivity; [apply Z.div_pos; lia|]. apply Z.div_lt_upper_bound; lia.
Qed.

Lemma pack3 a b c :
  Z.lor (Z.shiftl (byte_Z a) 16) (Z.lor (Z.shiftl (byte_Z b) 8) (byte_Z c)) =
  byte_Z a * 65536 + byte_Z b * 256 + byte_Z c.
Proof.
  pose proof (byte_Z_range a). pose proof (byte_Z_range b). pose proof (byte_Z_range c).
  rewrite (lor_shiftl (byte_Z b)), (lor_shiftl (byte_Z a)) by lia. lia.
Qed.

Lemma pack2 a b : Z.lor (Z.shiftl (byte_Z a) 16) (Z.shiftl (byte_Z b) 8) = byte_Z a * 65536 + byte_Z b * 256.
Proof.
  pose proof (byte_Z_range a). pose proof (byte_Z_range b). rewrite (Z.shiftl_mul_pow2 (byte_Z b)) by done.
  rewrite lor_shiftl by lia. lia.
Qed.

(** The four characters of a 24-bit value, and what two groups that share
    characters have in common. *)
Definition sextet (k n : Z) : ascii := b64_char (Z.land (Z.shiftr n k) 63).

Lemma sextet_inj k n n' : 0 <= k -> sextet k n = sextet k n' -> (n / 2 ^ k) mod 64 = (n' / 2 ^ k) mod 64.
Proof.
  unfold sextet. intros Hk. change 63 with (Z.ones 6). rewrite !Z.land_ones, !Z.shiftr_div_pow2 by lia.
  apply b64_char_inj; apply Z.mod_pos_bound; lia.
Qed.

Lemma sextet_plain i n : sextet i n <> "="%char /\ sextet i n <> ","%char.
Proof. apply b64_char_plain. change 63 with (Z.ones 6). rewrite Z.land_ones by done. by apply Z.mod_pos_bound. Qed.

Lemma sextet_first n : 0 <= n < 2 ^ 24 -> b64_char (Z.shiftr n 18) = sextet 18 n.
Proof.
  intros H. unfold sextet. f_equal. change 63 with (Z.ones 6). rewrite Z.land_ones, Z.shiftr_div_pow2 by done.
  symmetry. apply Z.mod_small. split; [apply Z.div_pos; lia|]. apply Z.div_lt_upper_bound; lia.
Qed.

Definition val1 (a : Byte.byte) : Z := byte_Z a * 65536.
Definition val2 (a b : Byte.byte) : Z := byte_Z a * 65536 + byte_Z b * 256.
Definition val3 (a b c : Byte.byte) : Z := byte_Z a * 65536 + byte_Z b * 256 + byte_Z c.

Lemma encode1 a : b64_encode [a] = String (sextet 18 (val1 a)) (String (sextet 12 (val1 a)) "==").
Proof.
  simpl. rewrite Z.shiftl_mul_pow2 by done. fold (val1 a). rewrite sextet_first; [done|].
  unfold val1. pose proof (byte_Z_range a). lia.
Qed.

Lemma encode2 a b : b64_encode [a; b] =
  String (sextet 18 (val2 a b)) (String (sextet 12 (val2 a b)) (String (sextet 6 (val2 a b)) "=")).
Proof.
  cbn [b64_encode]. cbv zeta. rewrite pack2. fold (val2 a b). rewrite sextet_first; [done|].
  unfold val2. pose proof (byte_Z_range a). pose proof (byte_Z_range b). lia.
Qed.

Lemma encode3 a b c l : b64_encode (a :: b :: c :: l) =
  String (sextet 18 (val3 a b c)) (String (sextet 12 (val3 a b c))
    (String (sextet 6 (val3 a b c)) (String (sextet 0 (val3 a b c)) (b64_encode l)))).
Proof.
  cbn [b64_encode]. cbv zeta. rewrite pack3. fold (val3 a b c). rewrite sextet_first; [done|].
  unfold val3. pose proof (byte_Z_range a). pose proof (byte_Z_range b). pose proof (byte_Z_range c). lia.
Qed.

(** Turns shared characters into equations on the values. *)
Ltac sextets :=
  repeat match goal with
  | H : sextet ?k _ = sextet ?k _ |- _ =>
      apply (sextet_inj k) in H; [|done];
      let v := eval vm_compute in (2 ^ k) in change (2 ^ k) with v in H
  end;
  unfold val1, val2, val3 in *;
  repeat match goal with
  | b : Byte.byte |- _ =>
      lazymatch goal with H : 0 <= byte_Z b < 256 |- _ => fail | _ => pose proof (byte_Z_range b) end
  end.

Lemma val1_inj a a' : sextet 18 (val1 a) = sextet 18 (val1 a') -> sextet 12 (val1 a) = sextet 12 (val1 a') -> a = a'.
Proof. intros H0 H1. sextets. apply byte_Z_inj. Z.to_euclidean_division_equations. lia. Qed.

Lemma val2_inj a b a' b' :
  sextet 18 (val2 a b) = sextet 18 (val2 a' b') -> sextet 12 (val2 a b) = sextet 12 (val2 a' b') ->
  sextet 6 (val2 a b) = sextet 6 (val2 a' b') -> [a; b] = [a'; b'].
Proof.
  intros H0 H1 H2. sextets.
  assert (byte_Z a = byte_Z a') as ->%byte_Z_inj by (Z.to_euclidean_division_equations; lia).
  assert (byte_Z b = byte_Z b') as ->%byte_Z_inj by (Z.to_euclidean_division_equations; lia). done.
Qed.

Lemma val3_inj a b c a' b' c' :
  sextet 18 (val3 a b c) = sextet 18 (val3 a' b' c') -> sextet 12 (val3 a b c) = sextet 12 (val3 a' b' c') ->
  sextet 6 (val3 a b c) = sextet 6 (val3 a' b' c') -> sextet 0 (val3 a b c) = sextet 0 (val3 a' b' c') ->
  [a; b; c] = [a'; b'; c'].
Proof.
  intros H0 H1 H2 H3. sextets.
  assert (byte_Z a = byte_Z a') as ->%byte_Z_inj by (Z.to_euclidean_division_equations; lia).
  assert (byte_Z b = byte_Z b') as ->%byte_Z_inj by (Z.to_euclidean_division_equations; lia).
  assert (byte_Z c = byte_Z c') as ->%byte_Z_inj by (Z.to_euclidean_division_equations; lia). done.
Qed.

Lemma list3_ind {A} (P : list A -> Prop) :
  P [] -> (forall a, P [a]) -> (forall a b, P [a; b]) -> (forall a b c l, P l -> P (a :: b :: c :: l)) -> forall l, P l.
Proof.
  intros H0 H1 H2 H3. fix IH 1. intros [|a [|b [|c l]]]; [done|apply H1|apply H2|apply H3, IH].
Qed.

(** Base64 is injective: groups are read off four characters at a time, and
    padding only occurs in the last one. *)
Lemma b64_inj l l' : b64_encode l = b64_encode l' -> l = l'.
Proof.
  revert l'. induction l as [|a|a b|a b c l IH] using list3_ind; intros [|a' [|b' [|c' l']]];
    rewrite ?encode1, ?encode2, ?encode3; try done; intros E; injection E; clear E.
  - intros E1 E0. by rewrite (val1_inj a a').
  - intros E. by destruct (sextet_plain 6 (val2 a' b')).
  - intros _ _ E. by destruct (sextet_plain 6 (val3 a' b' c')).
  - intros E. by destruct (sextet_plain 6 (val2 a b)).
  - intros E2 E1 E0. by apply val2_inj.
  - intros _ E. by destruct (sextet_plain 0 (val3 a' b' c')).
  - intros _ _ E. by destruct (sextet_plain 6 (val3 a b c)).
  - intros _ E. by destruct (sextet_plain 0 (val3 a b c)).
  - intros ->%IH E3 E2 E1 E0. pose proof (val3_inj a b c a' b' c' E0 E1 E2 E3) as E. by injection E as -> -> ->.
Qed.

Lemma b64_plain l : sforall (fun c => negb (Ascii.eqb c ",")) (b64_encode l) = true.
Proof.
  assert (Hs : forall k n, negb (Ascii.eqb (sextet k n) ",") = true).
  { intros k n. apply negb_true_iff, Ascii.eqb_neq. apply sextet_plain. }
  induction l as [|a|a b|a b c l IH] using list3_ind; [done|rewrite encode1|rewrite encode2|rewrite encode3];
    cbn [sforall]; by rewrite !Hs.
Qed.

(** ** The JSON preimage *)

(** The codecs of other packages: go-ethereum's JSON of one authorization and
    the hexadecimal Keccak-256 of a byte string. *)
Class PayloadCodec `{GoEthereum} := {
  auth_json : Authorization -> result GoError string;
  Keccak256_Hex : string -> string;
}.

Definition q1 : string := String dquote "".
Definition quoted (s : string) : string := q1 +:+ s +:+ q1.

Section payload.
Context `{PayloadCodec}.

(** The local [payload] struct. A nil [data] is [None]. *)
Record payload := mkPayload {
  p_ChainID : Z;
  p_Address : Address;
  p_Data : option (list Byte.byte);
  p_GasLimit : Z;
  p_Value : Z;
  p_Authorizations : list Authorization;
}.

Definition data_json (data : option (list Byte.byte)) : string :=
  match data with None => "null" | Some l => quoted (b64_encode l) end.

(** The elements of the array after the first one. *)
Fixpoint auths_json (auths : list Authorization) : result GoError string :=
  match auths with
  | [] => Ok "]"
  | a :: rest => let? s := auth_json a in let? t := auths_json rest in Ok ("," +:+ s +:+ t)
  end.

Definition authorizations_json (auths : list Authorization) : result GoError string :=
  match auths with
  | [] => Ok ""                                 (* omitempty *)
  | a :: rest =>
      let? s := auth_json a in let? t := auths_json rest in
      Ok ("," +:+ quoted "authorizations" +:+ ":[" +:+ s +:+ t)
  end.

Definition payload_json (p : payload) : result GoError string :=
  let? auths := authorizations_json (p_Authorizations p) in
  Ok ("{" +:+ quoted "chain_id" +:+ ":" +:+ pretty (p_ChainID p) +:+
      "," +:+ quoted "address" +:+ ":" +:+ quoted (Address_Hex (p_Address p)) +:+
      "," +:+ quoted "data" +:+ ":" +:+ data_json (p_Data p) +:+
      "," +:+ quoted "gas_limit" +:+ ":" +:+ pretty (p_GasLimit p) +:+
      "," +:+ quoted "value" +:+ ":" +:+ quoted (pretty (p_Value p)) +:+ auths +:+ "}").

Definition transactionPayloadHash (p : payload) : result GoError string :=
  match payload_json p with
  | Err e => Err (Errorf_w "marshalling canonical payload: " e "")
  | Ok encoded => Ok (Keccak256_Hex encoded)
  end.
End payload.

(** ** The preimage determines the payload *)

(** The other packages' encodings can be read back. *)
Class PayloadCodecLaws `{PayloadCodec} : Prop := {
  (* distinct authorizations have distinct JSON objects, and an object ends at
     its closing brace *)
  auth_json_inj a b s t u v : auth_json a = Ok s -> auth_json b = Ok t -> s +:+ u = t +:+ v -> a = b /\ u = v;
}.

(** Two texts cut at the first occurrence of [c]. *)
Lemma cut_at c s s' t t' :
  sforall (fun d => negb (Ascii.eqb d c)) s = true -> sforall (fun d => negb (Ascii.eqb d c)) s' = true ->
  s +:+ String c t = s' +:+ String c t' -> s = s' /\ t = t'.
Proof.
  revert s'. induction s as [|d s IH]; intros [|d' s']; simpl.
  - by intros _ _ [= ->].
  - intros _ [Hd _]%andb_true_iff [= <- _]. by rewrite Ascii.eqb_refl in Hd.
  - intros [Hd _]%andb_true_iff _ [= <- _]. by rewrite Ascii.eqb_refl in Hd.
  - intros [_ H]%andb_true_iff [_ H']%andb_true_iff [= <- E]. by destruct (IH s' H H' E) as [-> ->].
Qed.

(** Decimal numbers hold no delimiter. *)
Lemma pretty_N_go_plain c x s : (forall n, pretty_N_char n <> c) ->
  sforall (fun d => negb (Ascii.eqb d c)) s = true -> sforall (fun d => negb (Ascii.eqb d c)) (pretty_N_go x s) = true.
Proof.
  intros Hc. revert s. induction (N.lt_wf_0 x) as [x _ IH]; intros s Hs.
  destruct (decide (x = 0%N)) as [->|Hx]; [done|]. rewrite pretty_N_go_step by lia.
  apply IH; [by apply N.div_lt; lia|]. simpl. rewrite Hs, andb_true_r, negb_true_iff, Ascii.eqb_neq. apply Hc.
Qed.

Lemma pretty_Z_plain c (z : Z) : (forall n, pretty_N_char n <> c) -> "-"%char <> c ->
  sforall (fun d => negb (Ascii.eqb d c)) (pretty z) = true.
Proof.
  intros Hc Hd. assert (HN : forall n : N, sforall (fun d => negb (Ascii.eqb d c)) (pretty n) = true).
  { intros n. unfold pretty, pretty_N. case_decide as H0; [|by apply pretty_N_go_plain].
    cbn [sforall]. rewrite andb_true_r, negb_true_iff, Ascii.eqb_neq. apply (Hc 0%N). }
  destruct z as [|p|p]; [apply (HN 0%N)|apply (HN (N.pos p))|].
  change (pretty (Z.neg p)) with (String "-" (pretty (N.pos p))). cbn [sforall]. rewrite HN, andb_true_r, negb_true_iff.
  by apply Ascii.eqb_neq.
Qed.

Lemma pretty_N_char_in n : In (pretty_N_char n) ["0"; "1"; "2"; "3"; "4"; "5"; "6"; "7"; "8"; "9"]%char.
Proof. destruct n as [|p]; [by left|]. unfold pretty_N_char. repeat case_match; simpl; tauto. Qed.

Lemma pretty_comma (z : Z) : sforall (fun d => negb (Ascii.eqb d ",")) (pretty z) = true.
Proof.
  apply pretty_Z_plain; [|done]. intros n E. pose proof (pretty_N_char_in n) as H. rewrite E in H.
  simpl in H. repeat (destruct H as [H|H]; [discriminate|]). done.
Qed.

Lemma pretty_quote (z : Z) : sforall (fun d => negb (Ascii.eqb d dquote)) (pretty z) = true.
Proof.
  apply pretty_Z_plain; [|done]. intros n E. pose proof (pretty_N_char_in n) as H. rewrite E in H.
  simpl in H. repeat (destruct H as [H|H]; [discriminate|]). done.
Qed.

Lemma sapp_inv_head a s t : a +:+ s = a +:+ t -> s = t.
Proof. induction a as [|c a IH]; simpl; [done|]. intros [= E]. auto. Qed.

Lemma Ok_inj {E A} (a b : A) : @Ok E A a = Ok b -> a = b.
Proof. by intros [= ->]. Qed.

Section injective.
Context `{C : PayloadCodec} `{CL : !PayloadCodecLaws} `{GL : !GoEthereumLaws _}.

Lemma auths_json_inj l l' s s' u u' :
  auths_json l = Ok s -> auths_json l' = Ok s' -> s +:+ u = s' +:+ u' -> l = l' /\ u = u'.
Proof.
  revert l' s s'. induction l as [|a l IH]; intros [|a' l'] s s'; cbn [auths_json].
  - intros [= <-] [= <-] [= E]. done.
  - intros [= <-]. unfold result_bind. destruct (auth_json a'); [|done]. destruct (auths_json l'); [|done]. by intros [= <-].
  - unfold result_bind. destruct (auth_json a); [|done]. destruct (auths_json l); [|done]. by intros [= <-] [= <-].
  - unfold result_bind. destruct (auth_json a) as [x|] eqn:Ex; [|done]. destruct (auths_json l) as [y|] eqn:Ey; [|done].
    destruct (auth_json a') as [x'|] eqn:Ex'; [|done]. destruct (auths_json l') as [y'|] eqn:Ey'; [|done].
    intros <-%Ok_inj <-%Ok_inj E. rewrite !sapp_assoc in E. apply sapp_inv_head in E.
    destruct (auth_json_inj _ _ _ _ _ _ Ex Ex' E) as [-> E'].
    by destruct (IH l' y y' eq_refl Ey' E') as [-> ->].
Qed.

Lemma authorizations_json_inj l l' s s' u u' :
  authorizations_json l = Ok s -> authorizations_json l' = Ok s' -> s +:+ "}" +:+ u = s' +:+ "}" +:+ u' -> l = l'.
Proof.
  unfold authorizations_json, result_bind. destruct l as [|a l], l' as [|a' l'].
  - done.
  - intros [= <-]. destruct (auth_json a'); [|done]. destruct (auths_json l'); [|done]. by intros [= <-].
  - destruct (auth_json a); [|done]. destruct (auths_json l); [|done]. by intros [= <-] [= <-].
  - destruct (auth_json a) as [x|] eqn:Ex; [|done]. destruct (auths_json l) as [y|] eqn:Ey; [|done].
    destruct (auth_json a') as [x'|] eqn:Ex'; [|done]. destruct (auths_json l') as [y'|] eqn:Ey'; [|done].
    intros <-%Ok_inj <-%Ok_inj E. rewrite !sapp_assoc in E. do 3 apply sapp_inv_head in E.
    destruct (auth_json_inj _ _ _ _ _ _ Ex Ex' E) as [-> E'].
    by destruct (auths_json_inj _ _ _ _ _ _ Ey Ey' E') as [-> _].
Qed.

Lemma data_json_plain d : sforall (fun c => negb (Ascii.eqb c ",")) (data_json d) = true.
Proof. destruct d as [l|]; [|done]. unfold data_json, quoted. by rewrite !sforall_app, b64_plain. Qed.

Lemma quoted_inj s t : quoted s = quoted t -> s = t.
Proof.
  unfold quoted. intros E%sapp_inv_head. pose proof (f_equal slen E) as Hl. rewrite !slen_app in Hl.
  apply sapp_inj_len in E as [-> _]; [done|lia].
Qed.

Lemma data_json_inj d d' : data_json d = data_json d' -> d = d'.
Proof. destruct d as [l|], d' as [l'|]; simpl; try done. intros E%quoted_inj%b64_inj. by subst. Qed.

Lemma payload_json_inj p p' s : payload_json p = Ok s -> payload_json p' = Ok s -> p = p'.
Proof.
  unfold payload_json, result_bind.
  destruct (authorizations_json (p_Authorizations p)) as [x|] eqn:Ex; [|done].
  destruct (authorizations_json (p_Authorizations p')) as [x'|] eqn:Ex'; [|done].
  intros <-%Ok_inj E%Ok_inj. unfold quoted in E. rewrite !sapp_assoc in E.
  repeat apply sapp_inv_head in E. apply (cut_at ","%char) in E as [Hc E]; [|apply pretty_comma..].
  repeat apply sapp_inv_head in E. apply sapp_inj_len in E as [Ha E]; [|by rewrite !Address_Hex_len].
  repeat apply sapp_inv_head in E. apply (cut_at ","%char) in E as [Hd E]; [|apply data_json_plain..].
  repeat apply sapp_inv_head in E. apply (cut_at ","%char) in E as [Hg E]; [|apply pretty_comma..].
  repeat apply sapp_inv_head in E. apply (cut_at dquote) in E as [Hv E]; [|apply pretty_quote..].
  apply (authorizations_json_inj _ _ x' x "" "" Ex' Ex) in E.
  apply (inj pretty) in Hc, Hg, Hv. apply Address_Hex_inj in Ha. apply data_json_inj in Hd.
  destruct p, p'; simpl in *. by subst.
Qed.

(** C8: The payload hash identifies the payload. If two payloads have the same
    hash, then they agree on chain, destination, calldata, gas limit, value and
    authorizations, or the two hashed texts are a Keccak-256 collision. *)
Theorem transactionPayloadHash_identifies p p' h
    (Hp : transactionPayloadHash p = Ok h) (Hp' : transactionPayloadHash p' = Ok h) :
  p = p' \/ exists x y, x <> y /\ Keccak256_Hex x = Keccak256_Hex y.
Proof.
  unfold transactionPayloadHash in *.
  destruct (payload_json p) as [x|] eqn:Ex; [|done]. destruct (payload_json p') as [y|] eqn:Ey; [|done].
  destruct (decide (x = y)) as [->|Hxy].
  - left. by apply (payload_json_inj p p' y).
  - right. exists x, y. split; [done|congruence].
Qed.

(** A nil calldata and an empty one are different payloads to the hash. *)
Lemma nil_data_differs p s : payload_json p = Ok s ->
  p_Data p = None -> payload_json {| p_ChainID := p_ChainID p; p_Address := p_Address p; p_Data := Some [];
    p_GasLimit := p_GasLimit p; p_Value := p_Value p; p_Authorizations := p_Authorizations p |} <> Ok s.
Proof. intros Hs Hd E. pose proof (payload_json_inj _ _ _ Hs E) as Heq. by rewrite Heq in Hd. Qed.
End injective.
