(* ===== verification/Provider.v ===== *)
(** * The transaction queue's data and contract (evm/txmngr/txmngr_provider/tx.go)

    Statuses, the [Transaction] and [TransactionAttempt] rows, and the
    [TransactionsQ] interface as a class: its operations over an abstract store
    and the laws every provider owes the manager, stated on three views of the
    store (rows by id, attempts by owner, owner by hash). *)
From S2P Require Export Ethereum.
Local Open Scope Z_scope.

Inductive TxStatus :=
| SucceedTxStatus
| ErroredTxStatus
| ProcessingTxStatus
| ConfirmingTxStatus
| PendingTxStatus
| FailedTxStatus.

#[export] Instance TxStatus_eq_dec : EqDecision TxStatus.
Proof. solve_decision. Defined.

Definition status_string (s : TxStatus) : string :=
  match s with
  | SucceedTxStatus => "succeed"
  | ErroredTxStatus => "errored"
  | ProcessingTxStatus => "processing"
  | ConfirmingTxStatus => "confirming"
  | PendingTxStatus => "pending"
  | FailedTxStatus => "failed"
  end.

Definition ActiveStatuses : list TxStatus := [PendingTxStatus; ProcessingTxStatus; ConfirmingTxStatus].
Definition TerminalStatuses : list TxStatus := [SucceedTxStatus; FailedTxStatus; ErroredTxStatus].

Section data.
Context `{GoEthereum}.

Record TransactionAttempt := mkAttempt {
  at_TransactionID : string;
  at_Hash : Hash;
  at_Nonce : Z;
  at_Tx : option SignedTx;
  at_CreatedAt : Time;
}.

Record Transaction := mkTransaction {
  tx_ID : string;
  tx_IntentID : option string;
  tx_OperationKey : option string;
  tx_PayloadHash : option string;
  tx_ChainID : Z;
  tx_Sender : Address;
  tx_Address : Address;
  tx_Data : list Byte.byte;
  tx_Value : option Z;
  tx_GasLimit : Z;
  tx_RawAuthorizations : list Authorization;
  tx_AssignedNonce : option Z;
  tx_Tx : option SignedTx;
  tx_Receipt : option Receipt;
  tx_Status : TxStatus;
  tx_Msg : string;
  tx_NextActionAt : Time;
  tx_BroadcastPending : bool;
  tx_RejectedAttemptHash : option string;
  tx_NonceConsumedAt : option Time;
  tx_NotifiedAt : option Time;
  tx_NotificationAttempts : Z;
  tx_NextNotificationAt : Time;
  tx_NotificationError : string;
  tx_UpdatedAt : Time;
  tx_CreatedAt : Time;
}.

(** ** Field assignment *)

Definition set_Sender (v : Address) (t : Transaction) : Transaction :=
  {| tx_ID := tx_ID t; tx_IntentID := tx_IntentID t; tx_OperationKey := tx_OperationKey t;
     tx_PayloadHash := tx_PayloadHash t; tx_ChainID := tx_ChainID t; tx_Sender := v;
     tx_Address := tx_Address t; tx_Data := tx_Data t; tx_Value := tx_Value t;
     tx_GasLimit := tx_GasLimit t; tx_RawAuthorizations := tx_RawAuthorizations t; tx_AssignedNonce := tx_AssignedNonce t;
     tx_Tx := tx_Tx t; tx_Receipt := tx_Receipt t; tx_Status := tx_Status t;
     tx_Msg := tx_Msg t; tx_NextActionAt := tx_NextActionAt t; tx_BroadcastPending := tx_BroadcastPending t;
     tx_RejectedAttemptHash := tx_RejectedAttemptHash t; tx_NonceConsumedAt := tx_NonceConsumedAt t; tx_NotifiedAt := tx_NotifiedAt t;
     tx_NotificationAttempts := tx_NotificationAttempts t; tx_NextNotificationAt := tx_NextNotificationAt t; tx_NotificationError := tx_NotificationError t;
     tx_UpdatedAt := tx_UpdatedAt t; tx_CreatedAt := tx_CreatedAt t |}.

Definition set_AssignedNonce (v : option Z) (t : Transaction) : Transaction :=
  {| tx_ID := tx_ID t; tx_IntentID := tx_IntentID t; tx_OperationKey := tx_OperationKey t;
     tx_PayloadHash := tx_PayloadHash t; tx_ChainID := tx_ChainID t; tx_Sender := tx_Sender t;
     tx_Address := tx_Address t; tx_Data := tx_Data t; tx_Value := tx_Value t;
     tx_GasLimit := tx_GasLimit t; tx_RawAuthorizations := tx_RawAuthorizations t; tx_AssignedNonce := v;
     tx_Tx := tx_Tx t; tx_Receipt := tx_Receipt t; tx_Status := tx_Status t;
     tx_Msg := tx_Msg t; tx_NextActionAt := tx_NextActionAt t; tx_BroadcastPending := tx_BroadcastPending t;
     tx_RejectedAttemptHash := tx_RejectedAttemptHash t; tx_NonceConsumedAt := tx_NonceConsumedAt t; tx_NotifiedAt := tx_NotifiedAt t;
     tx_NotificationAttempts := tx_NotificationAttempts t; tx_NextNotificationAt := tx_NextNotificationAt t; tx_NotificationError := tx_NotificationError t;
     tx_UpdatedAt := tx_UpdatedAt t; tx_CreatedAt := tx_CreatedAt t |}.

Definition set_Tx (v : option SignedTx) (t : Transaction) : Transaction :=
  {| tx_ID := tx_ID t; tx_IntentID := tx_IntentID t; tx_OperationKey := tx_OperationKey t;
     tx_PayloadHash := tx_PayloadHash t; tx_ChainID := tx_ChainID t; tx_Sender := tx_Sender t;
     tx_Address := tx_Address t; tx_Data := tx_Data t; tx_Value := tx_Value t;
     tx_GasLimit := tx_GasLimit t; tx_RawAuthorizations := tx_RawAuthorizations t; tx_AssignedNonce := tx_AssignedNonce t;
     tx_Tx := v; tx_Receipt := tx_Receipt t; tx_Status := tx_Status t;
     tx_Msg := tx_Msg t; tx_NextActionAt := tx_NextActionAt t; tx_BroadcastPending := tx_BroadcastPending t;
     tx_RejectedAttemptHash := tx_RejectedAttemptHash t; tx_NonceConsumedAt := tx_NonceConsumedAt t; tx_NotifiedAt := tx_NotifiedAt t;
     tx_NotificationAttempts := tx_NotificationAttempts t; tx_NextNotificationAt := tx_NextNotificationAt t; tx_NotificationError := tx_NotificationError t;
     tx_UpdatedAt := tx_UpdatedAt t; tx_CreatedAt := tx_CreatedAt t |}.

Definition set_Receipt (v : option Receipt) (t : Transaction) : Transaction :=
  {| tx_ID := tx_ID t; tx_IntentID := tx_IntentID t; tx_OperationKey := tx_OperationKey t;
     tx_PayloadHash := tx_PayloadHash t; tx_ChainID := tx_ChainID t; tx_Sender := tx_Sender t;
     tx_Address := tx_Address t; tx_Data := tx_Data t; tx_Value := tx_Value t;
     tx_GasLimit := tx_GasLimit t; tx_RawAuthorizations := tx_RawAuthorizations t; tx_AssignedNonce := tx_AssignedNonce t;
     tx_Tx := tx_Tx t; tx_Receipt := v; tx_Status := tx_Status t;
     tx_Msg := tx_Msg t; tx_NextActionAt := tx_NextActionAt t; tx_BroadcastPending := tx_BroadcastPending t;
     tx_RejectedAttemptHash := tx_RejectedAttemptHash t; tx_NonceConsumedAt := tx_NonceConsumedAt t; tx_NotifiedAt := tx_NotifiedAt t;
     tx_NotificationAttempts := tx_NotificationAttempts t; tx_NextNotificationAt := tx_NextNotificationAt t; tx_NotificationError := tx_NotificationError t;
     tx_UpdatedAt := tx_UpdatedAt t; tx_CreatedAt := tx_CreatedAt t |}.

Definition set_Status (v : TxStatus) (t : Transaction) : Transaction :=
  {| tx_ID := tx_ID t; tx_IntentID := tx_IntentID t; tx_OperationKey := tx_OperationKey t;
     tx_PayloadHash := tx_PayloadHash t; tx_ChainID := tx_ChainID t; tx_Sender := tx_Sender t;
     tx_Address := tx_Address t; tx_Data := tx_Data t; tx_Value := tx_Value t;
     tx_GasLimit := tx_GasLimit t; tx_RawAuthorizations := tx_RawAuthorizations t; tx_AssignedNonce := tx_AssignedNonce t;
     tx_Tx := tx_Tx t; tx_Receipt := tx_Receipt t; tx_Status := v;
     tx_Msg := tx_Msg t; tx_NextActionAt := tx_NextActionAt t; tx_BroadcastPending := tx_BroadcastPending t;
     tx_RejectedAttemptHash := tx_RejectedAttemptHash t; tx_NonceConsumedAt := tx_NonceConsumedAt t; tx_NotifiedAt := tx_NotifiedAt t;
     tx_NotificationAttempts := tx_NotificationAttempts t; tx_NextNotificationAt := tx_NextNotificationAt t; tx_NotificationError := tx_NotificationError t;
     tx_UpdatedAt := tx_UpdatedAt t; tx_CreatedAt := tx_CreatedAt t |}.

Definition set_Msg (v : string) (t : Transaction) : Transaction :=
  {| tx_ID := tx_ID t; tx_IntentID := tx_IntentID t; tx_OperationKey := tx_OperationKey t;
     tx_PayloadHash := tx_PayloadHash t; tx_ChainID := tx_ChainID t; tx_Sender := tx_Sender t;
     tx_Address := tx_Address t; tx_Data := tx_Data t; tx_Value := tx_Value t;
     tx_GasLimit := tx_GasLimit t; tx_RawAuthorizations := tx_RawAuthorizations t; tx_AssignedNonce := tx_AssignedNonce t;
     tx_Tx := tx_Tx t; tx_Receipt := tx_Receipt t; tx_Status := tx_Status t;
     tx_Msg := v; tx_NextActionAt := tx_NextActionAt t; tx_BroadcastPending := tx_BroadcastPending t;
     tx_RejectedAttemptHash := tx_RejectedAttemptHash t; tx_NonceConsumedAt := tx_NonceConsumedAt t; tx_NotifiedAt := tx_NotifiedAt t;
     tx_NotificationAttempts := tx_NotificationAttempts t; tx_NextNotificationAt := tx_NextNotificationAt t; tx_NotificationError := tx_NotificationError t;
     tx_UpdatedAt := tx_UpdatedAt t; tx_CreatedAt := tx_CreatedAt t |}.

Definition set_NextActionAt (v : Time) (t : Transaction) : Transaction :=
  {| tx_ID := tx_ID t; tx_IntentID := tx_IntentID t; tx_OperationKey := tx_OperationKey t;
     tx_PayloadHash := tx_PayloadHash t; tx_ChainID := tx_ChainID t; tx_Sender := tx_Sender t;
     tx_Address := tx_Address t; tx_Data := tx_Data t; tx_Value := tx_Value t;
     tx_GasLimit := tx_GasLimit t; tx_RawAuthorizations := tx_RawAuthorizations t; tx_AssignedNonce := tx_AssignedNonce t;
     tx_Tx := tx_Tx t; tx_Receipt := tx_Receipt t; tx_Status := tx_Status t;
     tx_Msg := tx_Msg t; tx_NextActionAt := v; tx_BroadcastPending := tx_BroadcastPending t;
     tx_RejectedAttemptHash := tx_RejectedAttemptHash t; tx_NonceConsumedAt := tx_NonceConsumedAt t; tx_NotifiedAt := tx_NotifiedAt t;
     tx_NotificationAttempts := tx_NotificationAttempts t; tx_NextNotificationAt := tx_NextNotificationAt t; tx_NotificationError := tx_NotificationError t;
     tx_UpdatedAt := tx_UpdatedAt t; tx_CreatedAt := tx_CreatedAt t |}.

Definition set_BroadcastPending (v : bool) (t : Transaction) : Transaction :=
  {| tx_ID := tx_ID t; tx_IntentID := tx_IntentID t; tx_OperationKey := tx_OperationKey t;
     tx_PayloadHash := tx_PayloadHash t; tx_ChainID := tx_ChainID t; tx_Sender := tx_Sender t;
     tx_Address := tx_Address t; tx_Data := tx_Data t; tx_Value := tx_Value t;
     tx_GasLimit := tx_GasLimit t; tx_RawAuthorizations := tx_RawAuthorizations t; tx_AssignedNonce := tx_AssignedNonce t;
     tx_Tx := tx_Tx t; tx_Receipt := tx_Receipt t; tx_Status := tx_Status t;
     tx_Msg := tx_Msg t; tx_NextActionAt := tx_NextActionAt t; tx_BroadcastPending := v;
     tx_RejectedAttemptHash := tx_RejectedAttemptHash t; tx_NonceConsumedAt := tx_NonceConsumedAt t; tx_NotifiedAt := tx_NotifiedAt t;
     tx_NotificationAttempts := tx_NotificationAttempts t; tx_NextNotificationAt := tx_NextNotificationAt t; tx_NotificationError := tx_NotificationError t;
     tx_UpdatedAt := tx_UpdatedAt t; tx_CreatedAt := tx_CreatedAt t |}.

Definition set_RejectedAttemptHash (v : option string) (t : Transaction) : Transaction :=
  {| tx_ID := tx_ID t; tx_IntentID := tx_IntentID t; tx_OperationKey := tx_OperationKey t;
     tx_PayloadHash := tx_PayloadHash t; tx_ChainID := tx_ChainID t; tx_Sender := tx_Sender t;
     tx_Address := tx_Address t; tx_Data := tx_Data t; tx_Value := tx_Value t;
     tx_GasLimit := tx_GasLimit t; tx_RawAuthorizations := tx_RawAuthorizations t; tx_AssignedNonce := tx_AssignedNonce t;
     tx_Tx := tx_Tx t; tx_Receipt := tx_Receipt t; tx_Status := tx_Status t;
     tx_Msg := tx_Msg t; tx_NextActionAt := tx_NextActionAt t; tx_BroadcastPending := tx_BroadcastPending t;
     tx_RejectedAttemptHash := v; tx_NonceConsumedAt := tx_NonceConsumedAt t; tx_NotifiedAt := tx_NotifiedAt t;
     tx_NotificationAttempts := tx_NotificationAttempts t; tx_NextNotificationAt := tx_NextNotificationAt t; tx_NotificationError := tx_NotificationError t;
     tx_UpdatedAt := tx_UpdatedAt t; tx_CreatedAt := tx_CreatedAt t |}.

Definition set_NonceConsumedAt (v : option Time) (t : Transaction) : Transaction :=
  {| tx_ID := tx_ID t; tx_IntentID := tx_IntentID t; tx_OperationKey := tx_OperationKey t;
     tx_PayloadHash := tx_PayloadHash t; tx_ChainID := tx_ChainID t; tx_Sender := tx_Sender t;
     tx_Address := tx_Address t; tx_Data := tx_Data t; tx_Value := tx_Value t;
     tx_GasLimit := tx_GasLimit t; tx_RawAuthorizations := tx_RawAuthorizations t; tx_AssignedNonce := tx_AssignedNonce t;
     tx_Tx := tx_Tx t; tx_Receipt := tx_Receipt t; tx_Status := tx_Status t;
     tx_Msg := tx_Msg t; tx_NextActionAt := tx_NextActionAt t; tx_BroadcastPending := tx_BroadcastPending t;
     tx_RejectedAttemptHash := tx_RejectedAttemptHash t; tx_NonceConsumedAt := v; tx_NotifiedAt := tx_NotifiedAt t;
     tx_NotificationAttempts := tx_NotificationAttempts t; tx_NextNotificationAt := tx_NextNotificationAt t; tx_NotificationError := tx_NotificationError t;
     tx_UpdatedAt := tx_UpdatedAt t; tx_CreatedAt := tx_CreatedAt t |}.

Definition set_NotifiedAt (v : option Time) (t : Transaction) : Transaction :=
  {| tx_ID := tx_ID t; tx_IntentID := tx_IntentID t; tx_OperationKey := tx_OperationKey t;
     tx_PayloadHash := tx_PayloadHash t; tx_ChainID := tx_ChainID t; tx_Sender := tx_Sender t;
     tx_Address := tx_Address t; tx_Data := tx_Data t; tx_Value := tx_Value t;
     tx_GasLimit := tx_GasLimit t; tx_RawAuthorizations := tx_RawAuthorizations t; tx_AssignedNonce := tx_AssignedNonce t;
     tx_Tx := tx_Tx t; tx_Receipt := tx_Receipt t; tx_Status := tx_Status t;
     tx_Msg := tx_Msg t; tx_NextActionAt := tx_NextActionAt t; tx_BroadcastPending := tx_BroadcastPending t;
     tx_RejectedAttemptHash := tx_RejectedAttemptHash t; tx_NonceConsumedAt := tx_NonceConsumedAt t; tx_NotifiedAt := v;
     tx_NotificationAttempts := tx_NotificationAttempts t; tx_NextNotificationAt := tx_NextNotificationAt t; tx_NotificationError := tx_NotificationError t;
     tx_UpdatedAt := tx_UpdatedAt t; tx_CreatedAt := tx_CreatedAt t |}.

Definition set_NotificationAttempts (v : Z) (t : Transaction) : Transaction :=
  {| tx_ID := tx_ID t; tx_IntentID := tx_IntentID t; tx_OperationKey := tx_OperationKey t;
     tx_PayloadHash := tx_PayloadHash t; tx_ChainID := tx_ChainID t; tx_Sender := tx_Sender t;
     tx_Address := tx_Address t; tx_Data := tx_Data t; tx_Value := tx_Value t;
     tx_GasLimit := tx_GasLimit t; tx_RawAuthorizations := tx_RawAuthorizations t; tx_AssignedNonce := tx_AssignedNonce t;
     tx_Tx := tx_Tx t; tx_Receipt := tx_Receipt t; tx_Status := tx_Status t;
     tx_Msg := tx_Msg t; tx_NextActionAt := tx_NextActionAt t; tx_BroadcastPending := tx_BroadcastPending t;
     tx_RejectedAttemptHash := tx_RejectedAttemptHash t; tx_NonceConsumedAt := tx_NonceConsumedAt t; tx_NotifiedAt := tx_NotifiedAt t;
     tx_NotificationAttempts := v; tx_NextNotificationAt := tx_NextNotificationAt t; tx_NotificationError := tx_NotificationError t;
     tx_UpdatedAt := tx_UpdatedAt t; tx_CreatedAt := tx_CreatedAt t |}.

Definition set_NextNotificationAt (v : Time) (t : Transaction) : Transaction :=
  {| tx_ID := tx_ID t; tx_IntentID := tx_IntentID t; tx_OperationKey := tx_OperationKey t;
     tx_PayloadHash := tx_PayloadHash t; tx_ChainID := tx_ChainID t; tx_Sender := tx_Sender t;
     tx_Address := tx_Address t; tx_Data := tx_Data t; tx_Value := tx_Value t;
     tx_GasLimit := tx_GasLimit t; tx_RawAuthorizations := tx_RawAuthorizations t; tx_AssignedNonce := tx_AssignedNonce t;
     tx_Tx := tx_Tx t; tx_Receipt := tx_Receipt t; tx_Status := tx_Status t;
     tx_Msg := tx_Msg t; tx_NextActionAt := tx_NextActionAt t; tx_BroadcastPending := tx_BroadcastPending t;
     tx_RejectedAttemptHash := tx_RejectedAttemptHash t; tx_NonceConsumedAt := tx_NonceConsumedAt t; tx_NotifiedAt := tx_NotifiedAt t;
     tx_NotificationAttempts := tx_NotificationAttempts t; tx_NextNotificationAt := v; tx_NotificationError := tx_NotificationError t;
     tx_UpdatedAt := tx_UpdatedAt t; tx_CreatedAt := tx_CreatedAt t |}.

Definition set_NotificationError (v : string) (t : Transaction) : Transaction :=
  {| tx_ID := tx_ID t; tx_IntentID := tx_IntentID t; tx_OperationKey := tx_OperationKey t;
     tx_PayloadHash := tx_PayloadHash t; tx_ChainID := tx_ChainID t; tx_Sender := tx_Sender t;
     tx_Address := tx_Address t; tx_Data := tx_Data t; tx_Value := tx_Value t;
     tx_GasLimit := tx_GasLimit t; tx_RawAuthorizations := tx_RawAuthorizations t; tx_AssignedNonce := tx_AssignedNonce t;
     tx_Tx := tx_Tx t; tx_Receipt := tx_Receipt t; tx_Status := tx_Status t;
     tx_Msg := tx_Msg t; tx_NextActionAt := tx_NextActionAt t; tx_BroadcastPending := tx_BroadcastPending t;
     tx_RejectedAttemptHash := tx_RejectedAttemptHash t; tx_NonceConsumedAt := tx_NonceConsumedAt t; tx_NotifiedAt := tx_NotifiedAt t;
     tx_NotificationAttempts := tx_NotificationAttempts t; tx_NextNotificationAt := tx_NextNotificationAt t; tx_NotificationError := v;
     tx_UpdatedAt := tx_UpdatedAt t; tx_CreatedAt := tx_CreatedAt t |}.

Definition set_UpdatedAt (v : Time) (t : Transaction) : Transaction :=
  {| tx_ID := tx_ID t; tx_IntentID := tx_IntentID t; tx_OperationKey := tx_OperationKey t;
     tx_PayloadHash := tx_PayloadHash t; tx_ChainID := tx_ChainID t; tx_Sender := tx_Sender t;
     tx_Address := tx_Address t; tx_Data := tx_Data t; tx_Value := tx_Value t;
     tx_GasLimit := tx_GasLimit t; tx_RawAuthorizations := tx_RawAuthorizations t; tx_AssignedNonce := tx_AssignedNonce t;
     tx_Tx := tx_Tx t; tx_Receipt := tx_Receipt t; tx_Status := tx_Status t;
     tx_Msg := tx_Msg t; tx_NextActionAt := tx_NextActionAt t; tx_BroadcastPending := tx_BroadcastPending t;
     tx_RejectedAttemptHash := tx_RejectedAttemptHash t; tx_NonceConsumedAt := tx_NonceConsumedAt t; tx_NotifiedAt := tx_NotifiedAt t;
     tx_NotificationAttempts := tx_NotificationAttempts t; tx_NextNotificationAt := tx_NextNotificationAt t; tx_NotificationError := tx_NotificationError t;
     tx_UpdatedAt := v; tx_CreatedAt := tx_CreatedAt t |}.

Definition IsCompleted (tx : Transaction) : bool :=
  bool_decide (tx_Status tx = ErroredTxStatus) ||
  bool_decide (tx_Status tx = FailedTxStatus) ||
  bool_decide (tx_Status tx = SucceedTxStatus).

(** [IntentID != nil && *IntentID != ""] *)
Definition has_intent (tx : Transaction) : bool :=
  match tx_IntentID tx with Some i => negb (String.eqb i "") | None => false end.

(** ** The query a chain of builder calls denotes *)

Inductive Filter :=
| FilterByIds (ids : list string)
| FilterByChainIds (chainIDs : list Z)
| FilterBySenderOrUnset (sender : Address)
| FilterByStatuses (statuses : list TxStatus)
| FilterReadyBefore (before : Time)
| FilterNotificationReadyBefore (before : Time).

Inductive Order := orderNone | orderNextAction | orderLaneWork | orderNextNotification.

Record Query := mkQuery { qr_filters : list Filter; qr_order : Order; qr_limit : Z }.

Definition filter_holds (f : Filter) (tx : Transaction) : bool :=
  match f with
  | FilterByIds ids => bool_decide (tx_ID tx ∈ ids)
  | FilterByChainIds chainIDs => bool_decide (tx_ChainID tx ∈ chainIDs)
  | FilterBySenderOrUnset sender =>
      bool_decide (tx_Sender tx = sender) || bool_decide (tx_Sender tx = address_zero)
  | FilterByStatuses statuses => bool_decide (tx_Status tx ∈ statuses)
  | FilterReadyBefore before => tx_NextActionAt tx <=? before
  | FilterNotificationReadyBefore before =>
      IsCompleted tx && has_intent tx && bool_decide (tx_NotifiedAt tx = None) &&
      (tx_NextNotificationAt tx <=? before)
  end.

Definition query_holds (q : Query) (tx : Transaction) : bool :=
  forallb (fun f => filter_holds f tx) (qr_filters q).

(** Only the notification columns of [cur], taken from [tx]. *)
Definition merge_notification (tx cur : Transaction) : Transaction :=
  let cur := set_NotifiedAt (tx_NotifiedAt tx) cur in
  let cur := set_NotificationAttempts (tx_NotificationAttempts tx) cur in
  let cur := set_NextNotificationAt (tx_NextNotificationAt tx) cur in
  let cur := set_NotificationError (tx_NotificationError tx) cur in
  set_UpdatedAt (tx_UpdatedAt tx) cur.

(** The signed payload of a row: what no later write may change. *)
Definition same_payload (a b : Transaction) : Prop :=
  tx_ID a = tx_ID b /\ tx_IntentID a = tx_IntentID b /\ tx_OperationKey a = tx_OperationKey b /\
  tx_PayloadHash a = tx_PayloadHash b /\ tx_ChainID a = tx_ChainID b /\ tx_Address a = tx_Address b /\
  tx_Data a = tx_Data b /\ tx_Value a = tx_Value b /\ tx_GasLimit a = tx_GasLimit b /\
  tx_RawAuthorizations a = tx_RawAuthorizations b /\ tx_CreatedAt a = tx_CreatedAt b.

#[export] Instance same_payload_equiv : Equivalence same_payload.
Proof.
  split; unfold same_payload; [intros a; by repeat split|intros a b; naive_solver|].
  intros a b c. intuition congruence.
Qed.

Lemma IsCompleted_spec tx : IsCompleted tx = true <-> tx_Status tx ∈ TerminalStatuses.
Proof.
  unfold IsCompleted, TerminalStatuses.
  destruct (tx_Status tx); rewrite ?elem_of_cons, ?elem_of_nil; vm_compute; naive_solver.
Qed.

Lemma active_not_completed tx : tx_Status tx ∈ ActiveStatuses <-> IsCompleted tx = false.
Proof.
  unfold IsCompleted, ActiveStatuses.
  destruct (tx_Status tx); rewrite ?elem_of_cons, ?elem_of_nil; vm_compute; naive_solver.
Qed.

End data.

(** ** Orderings of the work queues *)

Section orders.
Context `{GoEthereum}.

Definition compareAssignedNonce : option Z -> option Z -> comparison := cmp_nulls_last Z.compare.

(** [next_action_at ASC, created_at ASC, id ASC] *)
Definition compareScheduleOrder (a b : Transaction) : comparison :=
  cmp_or (tx_NextActionAt a ?= tx_NextActionAt b)
    (cmp_or (tx_CreatedAt a ?= tx_CreatedAt b) (String.compare (tx_ID a) (tx_ID b))).

(** [assigned_nonce ASC NULLS LAST], then the schedule order. *)
Definition compareLaneWork (a b : Transaction) : comparison :=
  cmp_or (compareAssignedNonce (tx_AssignedNonce a) (tx_AssignedNonce b)) (compareScheduleOrder a b).

Definition compareNextNotification (a b : Transaction) : comparison :=
  cmp_or (tx_NextNotificationAt a ?= tx_NextNotificationAt b) (String.compare (tx_ID a) (tx_ID b)).

#[export] Instance WeakCmp_schedule : WeakCmp compareScheduleOrder.
Proof.
  apply (WeakCmp_or (cmp_on tx_NextActionAt Z.compare)
    (fun a b => cmp_or (cmp_on tx_CreatedAt Z.compare a b) (cmp_on tx_ID String.compare a b))).
Qed.

#[export] Instance WeakCmp_lane_work : WeakCmp compareLaneWork.
Proof.
  apply (WeakCmp_or (cmp_on tx_AssignedNonce (cmp_nulls_last Z.compare)) compareScheduleOrder).
Qed.

#[export] Instance WeakCmp_next_notification : WeakCmp compareNextNotification.
Proof.
  apply (WeakCmp_or (cmp_on tx_NextNotificationAt Z.compare) (cmp_on tx_ID String.compare)).
Qed.

Definition order_rows (o : Order) (l : list Transaction) : list Transaction :=
  match o with
  | orderNone => l
  | orderNextAction => sort_stable compareScheduleOrder l
  | orderLaneWork => sort_stable compareLaneWork l
  | orderNextNotification => sort_stable compareNextNotification l
  end.

(** [if limit > 0 && len > limit { result = result[:limit] }] *)
Definition limit_rows (limit : Z) (l : list Transaction) : list Transaction :=
  if (0 <? limit) && (limit <? Z.of_nat (length l)) then take (Z.to_nat limit) l else l.

Lemma compareScheduleOrder_Eq a b : compareScheduleOrder a b = Eq -> tx_ID a = tx_ID b.
Proof.
  unfold compareScheduleOrder, cmp_or.
  repeat (case_match; try done). apply string_compare_Eq.
Qed.

Lemma compareLaneWork_Eq a b : compareLaneWork a b = Eq -> tx_ID a = tx_ID b.
Proof.
  unfold compareLaneWork, cmp_or. case_match; try done.
  apply compareScheduleOrder_Eq.
Qed.

Lemma order_rows_perm o l : order_rows o l ≡ₚ l.
Proof. destruct o; simpl; [done|apply sort_stable_perm..]. Qed.

Lemma limit_rows_elem n l t : t ∈ limit_rows n l -> t ∈ l.
Proof. unfold limit_rows. case_match; [|done]. intros (? & ? & _)%elem_of_take; by eapply list_elem_of_lookup_2. Qed.

End orders.

(** ** The provider interface *)

Class TransactionsQ `{GoEthereum} (St : Type) := {
  q_InsertOrGet : Transaction -> St -> result GoError Transaction * St;
  q_InsertAttempt : TransactionAttempt -> St -> result GoError unit * St;
  q_UpdateIfActive : Transaction -> St -> result GoError unit * St;
  q_UpdateNotification : Transaction -> St -> result GoError unit * St;
  q_Select : Query -> St -> list Transaction;
  q_Get : Query -> St -> result GoError Transaction;
  q_SelectAttempts : string -> St -> list TransactionAttempt;
  q_SelectAttemptsByNonce : Z -> Z -> St -> list TransactionAttempt;
  q_CountByChain : list TxStatus -> St -> gmap Z Z;
  q_MaxAssignedNonce : Address -> Z -> St -> option Z;
  q_TryLockLane : Address -> Z -> St -> bool * St;
  q_UnlockLane : Address -> Z -> St -> St;
  (* views *)
  q_rows : St -> gmap string Transaction;
  q_attempts : St -> string -> list TransactionAttempt;
  q_owner : St -> string -> option string;
  q_locked : St -> Address -> Z -> bool;
}.

Section contract.
Context `{Q : TransactionsQ St}.

(** The stored row a conditional update finds, if it may replace it. *)
Definition active_row (id : string) (s : St) : bool :=
  match q_rows s !! id with Some cur => negb (IsCompleted cur) | None => false end.

Definition notifiable_row (id : string) (s : St) : bool :=
  match q_rows s !! id with
  | Some cur => IsCompleted cur && bool_decide (tx_NotifiedAt cur = None)
  | None => false
  end.

(** Rows are stored under their own id, and every attempt under its owner. *)
Record store_wf (s : St) : Prop := {
  wf_keyed k t : q_rows s !! k = Some t -> tx_ID t = k;
  wf_attempt_owner id a : a ∈ q_attempts s id ->
    at_TransactionID a = id /\ q_owner s (Hash_Hex (at_Hash a)) = Some id;
}.

Definition in_lane (sender : Address) (chainID : Z) (t : Transaction) : Prop :=
  tx_Sender t = sender /\ tx_ChainID t = chainID.

End contract.

(** What a write under an operation key finds. *)
Definition has_operation `{GoEthereum} (key : string) (t : Transaction) : Prop := tx_OperationKey t = Some key.

(** The answer when [existing] already holds the operation key of [tx]. *)
Definition operation_verdict `{GoEthereum} (existing tx : Transaction) : result GoError Transaction :=
  match tx_PayloadHash existing, tx_PayloadHash tx with
  | Some h, Some h' => if String.eqb h h' then Ok existing else Err ErrIdempotencyConflict_v
  | _, _ => Err ErrIdempotencyConflict_v
  end.

(** The rows [CountByChain] counts for a chain. *)
Definition counted `{GoEthereum} (statuses : list TxStatus) (chainID : Z) (t : Transaction) : bool :=
  (tx_ChainID t =? chainID) && bool_decide (tx_Status t ∈ statuses).

(** What a provider promises. *)
Class TransactionsQLaws `{Q : TransactionsQ St} : Prop := {
  UpdateIfActive_result tx s :
    fst (q_UpdateIfActive tx s) = if active_row (tx_ID tx) s then Ok tt else Err ErrStaleTransaction_v;
  UpdateIfActive_rows tx s :
    q_rows (snd (q_UpdateIfActive tx s)) =
    if active_row (tx_ID tx) s then <[tx_ID tx := tx]> (q_rows s) else q_rows s;
  UpdateIfActive_attempts tx s id : q_attempts (snd (q_UpdateIfActive tx s)) id = q_attempts s id;
  UpdateIfActive_owner tx s h : q_owner (snd (q_UpdateIfActive tx s)) h = q_owner s h;

  InsertOrGet_new tx s :
    (forall key k t, has_operation key tx -> q_rows s !! k = Some t -> ~ has_operation key t) ->
    fst (q_InsertOrGet tx s) = Ok tx /\ q_rows (snd (q_InsertOrGet tx s)) = <[tx_ID tx := tx]> (q_rows s);
  InsertOrGet_found tx s key k t :
    has_operation key tx -> q_rows s !! k = Some t -> has_operation key t ->
    q_rows (snd (q_InsertOrGet tx s)) = q_rows s /\
    exists k' t', q_rows s !! k' = Some t' /\ has_operation key t' /\ fst (q_InsertOrGet tx s) = operation_verdict t' tx;
  InsertOrGet_attempts tx s id : q_attempts (snd (q_InsertOrGet tx s)) id = q_attempts s id;
  InsertOrGet_owner tx s h : q_owner (snd (q_InsertOrGet tx s)) h = q_owner s h;

  UpdateNotification_attempts tx s id : q_attempts (snd (q_UpdateNotification tx s)) id = q_attempts s id;
  UpdateNotification_owner tx s h : q_owner (snd (q_UpdateNotification tx s)) h = q_owner s h;
  UpdateNotification_result tx s :
    fst (q_UpdateNotification tx s) =
    if notifiable_row (tx_ID tx) s then Ok tt else Err ErrStaleTransaction_v;
  UpdateNotification_rows tx s :
    q_rows (snd (q_UpdateNotification tx s)) =
    if notifiable_row (tx_ID tx) s then alter (merge_notification tx) (tx_ID tx) (q_rows s) else q_rows s;

  InsertAttempt_result a s :
    fst (q_InsertAttempt a s) =
    match q_owner s (Hash_Hex (at_Hash a)) with
    | Some id => if decide (id = at_TransactionID a) then Ok tt
                 else Err (AttemptHashConflictError (Hash_Hex (at_Hash a)) id)
    | None => Ok tt
    end;
  InsertAttempt_rows a s : q_rows (snd (q_InsertAttempt a s)) = q_rows s;
  InsertAttempt_attempts a s id :
    q_attempts (snd (q_InsertAttempt a s)) id =
    match q_owner s (Hash_Hex (at_Hash a)) with
    | None => if decide (id = at_TransactionID a) then q_attempts s id ++ [a] else q_attempts s id
    | Some _ => q_attempts s id
    end;
  InsertAttempt_owner a s h :
    q_owner (snd (q_InsertAttempt a s)) h =
    match q_owner s (Hash_Hex (at_Hash a)) with
    | None => if decide (h = Hash_Hex (at_Hash a)) then Some (at_TransactionID a) else q_owner s h
    | Some _ => q_owner s h
    end;

  SelectAttempts_sorted id s :
    q_SelectAttempts id s = sort_stable (cmp_on at_CreatedAt Z.compare) (q_attempts s id);
  SelectAttemptsByNonce_elem chainID nonce s a :
    a ∈ q_SelectAttemptsByNonce chainID nonce s <->
    exists id t, q_rows s !! id = Some t /\ tx_ChainID t = chainID /\ a ∈ q_attempts s id /\ at_Nonce a = nonce;

  Select_spec q s : exists l, l ≡ₚ (map_to_list (q_rows s)).*2 /\
    q_Select q s = limit_rows (qr_limit q) (order_rows (qr_order q) (List.filter (query_holds q) l));
  Get_Ok q s t : q_Get q s = Ok t -> query_holds q t = true /\ exists k, q_rows s !! k = Some t;
  Get_Err q s e : q_Get q s = Err e ->
    e = ErrNoRows_v /\ forall k t, q_rows s !! k = Some t -> query_holds q t = false;

  CountByChain_spec statuses chainID s :
    q_CountByChain statuses s !! chainID =
    let n := Z.of_nat (length (List.filter (counted statuses chainID) (map_to_list (q_rows s)).*2)) in
    if n =? 0 then None else Some (wrap_u64 n);

  MaxAssignedNonce_None sender chainID s : q_MaxAssignedNonce sender chainID s = None ->
    forall k t, q_rows s !! k = Some t -> in_lane sender chainID t -> tx_AssignedNonce t = None;
  MaxAssignedNonce_Some sender chainID s m : q_MaxAssignedNonce sender chainID s = Some m ->
    (exists k t, q_rows s !! k = Some t /\ in_lane sender chainID t /\ tx_AssignedNonce t = Some m) /\
    forall k t n, q_rows s !! k = Some t -> in_lane sender chainID t -> tx_AssignedNonce t = Some n -> n <= m;

  TryLockLane_result sender chainID s : fst (q_TryLockLane sender chainID s) = negb (q_locked s sender chainID);
  TryLockLane_rows sender chainID s : q_rows (snd (q_TryLockLane sender chainID s)) = q_rows s;
  TryLockLane_locked sender chainID s : q_locked (snd (q_TryLockLane sender chainID s)) sender chainID = true;
  TryLockLane_other sender chainID s a c : (a, c) <> (sender, chainID) ->
    q_locked (snd (q_TryLockLane sender chainID s)) a c = q_locked s a c;
  TryLockLane_attempts sender chainID s id : q_attempts (snd (q_TryLockLane sender chainID s)) id = q_attempts s id;
  TryLockLane_owner sender chainID s h : q_owner (snd (q_TryLockLane sender chainID s)) h = q_owner s h;
  UnlockLane_rows sender chainID s : q_rows (q_UnlockLane sender chainID s) = q_rows s;
  UnlockLane_unlocked sender chainID s : q_locked (q_UnlockLane sender chainID s) sender chainID = false;
  UnlockLane_other sender chainID s a c : (a, c) <> (sender, chainID) ->
    q_locked (q_UnlockLane sender chainID s) a c = q_locked s a c;
  UnlockLane_attempts sender chainID s id : q_attempts (q_UnlockLane sender chainID s) id = q_attempts s id;
  UnlockLane_owner sender chainID s h : q_owner (q_UnlockLane sender chainID s) h = q_owner s h;
}.
