(* ===== verification/MemStore.v ===== *)
(** * The in-memory provider (evm/txmngr/txmngr_provider/mem)

    The state behind the queue ([txsState]), the query builder ([txsQ]) and
    every operation.  Each operation holds the state's mutex from start to end,
    so it is one atomic step.  Go's map iteration order is unspecified: it is the
    parameter [range_map], of which only that it enumerates the map is assumed. *)
From S2P Require Export Provider.
Local Open Scope Z_scope.

(** One enumeration of a Go map with string keys. *)
Class MapRange := {
  range_map {V} : gmap string V -> list (string * V);
  range_map_perm {V} (m : gmap string V) : range_map m ≡ₚ map_to_list m;
}.

(** ** mem/util.go *)

Fixpoint filter {T} (filters : list (T -> bool)) (value : T) : bool :=
  match filters with
  | [] => true
  | fil :: filters' => if negb (fil value) then false else filter filters' value
  end.

Section mem.
Context `{GoEthereum, MapRange}.

Record txsState := mkState {
  txs : gmap string Transaction;
  attempts : gmap string (list TransactionAttempt);
  hashes : gmap string string;
  laneLocks : gset string;
}.

Record txsQ := mkTxsQ {
  state : txsState;
  filters : list (Transaction -> bool);
  orderBy : Order;
  limit : Z;
}.

Definition NewTransactionsQ (t : gmap string Transaction) : txsQ :=
  {| state := {| txs := t; attempts := ∅; hashes := ∅; laneLocks := ∅ |};
     filters := []; orderBy := orderNone; limit := 0 |}.

Definition New (t : txsQ) : txsQ :=
  {| state := state t; filters := []; orderBy := orderNone; limit := 0 |}.

(** ** Writes *)

Definition Insert (tx : Transaction) (s : txsState) : txsState :=
  {| txs := <[tx_ID tx := tx]> (txs s); attempts := attempts s; hashes := hashes s; laneLocks := laneLocks s |}.

(** The loop of [InsertOrGet] over the stored rows. *)
Fixpoint find_operation (tx : Transaction) (key : string) (rows : list (string * Transaction)) :
    option (result GoError Transaction) :=
  match rows with
  | [] => None
  | (_, existing) :: rows' =>
      if bool_decide (tx_OperationKey existing = Some key) then
        Some (match tx_PayloadHash existing, tx_PayloadHash tx with
              | Some h, Some h' => if String.eqb h h' then Ok existing else Err ErrIdempotencyConflict_v
              | _, _ => Err ErrIdempotencyConflict_v
              end)
      else find_operation tx key rows'
  end.

Definition InsertOrGet (tx : Transaction) (s : txsState) : result GoError Transaction * txsState :=
  let found :=
    match tx_OperationKey tx with
    | Some key => find_operation tx key (range_map (txs s))
    | None => None
    end in
  match found with
  | Some r => (r, s)
  | None => (Ok tx, Insert tx s)
  end.

Definition attempts_of (s : txsState) (id : string) : list TransactionAttempt := default [] (attempts s !! id).

Definition InsertAttempt (attempt : TransactionAttempt) (s : txsState) : result GoError unit * txsState :=
  let hash := Hash_Hex (at_Hash attempt) in
  match hashes s !! hash with
  | Some transactionID =>
      if String.eqb transactionID (at_TransactionID attempt) then (Ok tt, s)
      else (Err (AttemptHashConflictError hash transactionID), s)
  | None =>
      (Ok tt,
       {| txs := txs s;
          attempts := <[at_TransactionID attempt := attempts_of s (at_TransactionID attempt) ++ [attempt]]> (attempts s);
          hashes := <[hash := at_TransactionID attempt]> (hashes s);
          laneLocks := laneLocks s |})
  end.

Definition UpdateIfActive (tx : Transaction) (s : txsState) : result GoError unit * txsState :=
  match txs s !! tx_ID tx with
  | Some current => if IsCompleted current then (Err ErrStaleTransaction_v, s) else (Ok tt, Insert tx s)
  | None => (Err ErrStaleTransaction_v, s)
  end.

Definition UpdateNotification (tx : Transaction) (s : txsState) : result GoError unit * txsState :=
  match txs s !! tx_ID tx with
  | Some current =>
      if negb (IsCompleted current) || negb (bool_decide (tx_NotifiedAt current = None))
      then (Err ErrStaleTransaction_v, s)
      else (Ok tt, {| txs := <[tx_ID tx := merge_notification tx current]> (txs s); attempts := attempts s;
                      hashes := hashes s; laneLocks := laneLocks s |})
  | None => (Err ErrStaleTransaction_v, s)
  end.

(** ** Reads *)

Definition Select (t : txsQ) : list Transaction :=
  limit_rows (limit t)
    (order_rows (orderBy t) (List.filter (filter (filters t)) (range_map (txs (state t))).*2)).

Definition Get (t : txsQ) : result GoError Transaction :=
  match List.find (filter (filters t)) (range_map (txs (state t))).*2 with
  | Some value => Ok value
  | None => Err ErrNoRows_v
  end.

Definition SelectAttempts (transactionID : string) (s : txsState) : list TransactionAttempt :=
  sort_stable (cmp_on at_CreatedAt Z.compare) (attempts_of s transactionID).

Definition compareAttempts (a b : TransactionAttempt) : comparison :=
  cmp_or (at_CreatedAt a ?= at_CreatedAt b) (String.compare (Hash_Hex (at_Hash a)) (Hash_Hex (at_Hash b))).

Definition attempts_by_nonce (chainID nonce : Z) (s : txsState)
    (entry : string * list TransactionAttempt) : list TransactionAttempt :=
  let '(transactionID, candidates) := entry in
  match txs s !! transactionID with
  | None => []
  | Some owner =>
      if negb (tx_ChainID owner =? chainID) then []
      else List.filter (fun candidate => at_Nonce candidate =? nonce) candidates
  end.

Definition SelectAttemptsByNonce (chainID nonce : Z) (s : txsState) : list TransactionAttempt :=
  sort_stable compareAttempts (flat_map (attempts_by_nonce chainID nonce s) (range_map (attempts s))).

(** [counts[tx.ChainID]++] *)
Definition count_row (statuses : list TxStatus) (counts : gmap Z Z) (tx : Transaction) : gmap Z Z :=
  if bool_decide (tx_Status tx ∈ statuses)
  then <[tx_ChainID tx := wrap_u64 (default 0 (counts !! tx_ChainID tx) + 1)]> counts
  else counts.

Definition CountByChain (statuses : list TxStatus) (s : txsState) : gmap Z Z :=
  fold_left (count_row statuses) (range_map (txs s)).*2 ∅.

(** [maxNonce, found] of the loop of [MaxAssignedNonce]. *)
Definition max_nonce_row (sender : Address) (chainID : Z) (acc : Z * bool) (tx : Transaction) : Z * bool :=
  if negb (bool_decide (tx_Sender tx = sender)) || negb (tx_ChainID tx =? chainID) then acc
  else match tx_AssignedNonce tx with
       | None => acc
       | Some n => if negb (snd acc) || (fst acc <? n) then (n, true) else acc
       end.

Definition MaxAssignedNonce (sender : Address) (chainID : Z) (s : txsState) : Z * bool :=
  fold_left (max_nonce_row sender chainID) (range_map (txs s)).*2 (0, false).

(** ** Lane locks *)

Definition laneLockKey (sender : Address) (chainID : Z) : string :=
  Address_Hex sender +:+ ":" +:+ pretty chainID.

Definition TryLockLane (sender : Address) (chainID : Z) (s : txsState) : bool * txsState :=
  let key := laneLockKey sender chainID in
  if bool_decide (key ∈ laneLocks s) then (false, s)
  else (true, {| txs := txs s; attempts := attempts s; hashes := hashes s; laneLocks := {[key]} ∪ laneLocks s |}).

(** The first [Unlock] of a handle; [sync.Once] makes later ones do nothing. *)
Definition Unlock (sender : Address) (chainID : Z) (s : txsState) : txsState :=
  {| txs := txs s; attempts := attempts s; hashes := hashes s;
     laneLocks := laneLocks s ∖ {[laneLockKey sender chainID]} |}.

(** ** The query builder *)

Definition withFilter (f : Transaction -> bool) (t : txsQ) : txsQ :=
  {| state := state t; filters := filters t ++ [f]; orderBy := orderBy t; limit := limit t |}.

Definition OrderBy (o : Order) (t : txsQ) : txsQ :=
  {| state := state t; filters := filters t; orderBy := o; limit := limit t |}.

Definition Limit (n : Z) (t : txsQ) : txsQ :=
  {| state := state t; filters := filters t; orderBy := orderBy t; limit := n |}.

(** The closure a filter call appends. *)
Definition add_filter (f : Filter) (t : txsQ) : txsQ := withFilter (filter_holds f) t.

(** The chain of calls [q.New().F1().F2()...OrderBy().Limit()]. *)
Definition build_query (q : Query) (s : txsState) : txsQ :=
  Limit (qr_limit q) (OrderBy (qr_order q)
    (fold_left (fun t f => add_filter f t) (qr_filters q)
       {| state := s; filters := []; orderBy := orderNone; limit := 0 |})).

#[export] Instance mem_TransactionsQ : TransactionsQ txsState := {
  q_InsertOrGet := InsertOrGet;
  q_InsertAttempt := InsertAttempt;
  q_UpdateIfActive := UpdateIfActive;
  q_UpdateNotification := UpdateNotification;
  q_Select q s := Select (build_query q s);
  q_Get q s := Get (build_query q s);
  q_SelectAttempts := SelectAttempts;
  q_SelectAttemptsByNonce := SelectAttemptsByNonce;
  q_CountByChain := CountByChain;
  q_MaxAssignedNonce sender chainID s :=
    let '(n, found) := MaxAssignedNonce sender chainID s in if found then Some n else None;
  q_TryLockLane := TryLockLane;
  q_UnlockLane := Unlock;
  q_rows := txs;
  q_attempts := attempts_of;
  q_owner s h := hashes s !! h;
  q_locked s a c := bool_decide (laneLockKey a c ∈ laneLocks s);
}.

(** ** The provider's laws *)

Lemma filter_forallb {T} (fs : list (T -> bool)) v : filter fs v = forallb (fun f => f v) fs.
Proof. induction fs as [|f fs IH]; simpl; [done|]. rewrite <- IH. by destruct (f v). Qed.

Lemma build_query_filters q s :
  build_query q s =
  {| state := s; filters := map filter_holds (qr_filters q); orderBy := qr_order q; limit := qr_limit q |}.
Proof.
  unfold build_query.
  assert (forall fs t, fold_left (fun t f => add_filter f t) fs t =
    {| state := state t; filters := filters t ++ map filter_holds fs; orderBy := orderBy t; limit := limit t |}) as E.
  { induction fs as [|f fs IH]; intros t; simpl; [by rewrite app_nil_r|].
    rewrite IH. unfold add_filter, withFilter; simpl. by rewrite <- app_assoc. }
  unfold Limit, OrderBy. by rewrite E.
Qed.

Lemma query_filter q t : filter (map filter_holds (qr_filters q)) t = query_holds q t.
Proof. rewrite filter_forallb. unfold query_holds. induction (qr_filters q); simpl; congruence. Qed.

Lemma elem_of_range_map {V} (m : gmap string V) k v : (k, v) ∈ range_map m <-> m !! k = Some v.
Proof. rewrite range_map_perm. apply elem_of_map_to_list. Qed.

Lemma elem_of_range_rows (m : gmap string Transaction) t : t ∈ (range_map m).*2 <-> exists k, m !! k = Some t.
Proof.
  rewrite list_elem_of_fmap. split.
  - intros ([k v] & -> & Hin). exists k. by apply elem_of_range_map.
  - intros [k Hk]. exists (k, t). by rewrite elem_of_range_map.
Qed.

(** The accumulator of [MaxAssignedNonce] bounds every row it has seen. *)
Lemma max_nonce_fold sender chainID l acc n found :
  fold_left (max_nonce_row sender chainID) l acc = (n, found) ->
  (found = false -> snd acc = false /\ forall t, t ∈ l -> in_lane sender chainID t -> tx_AssignedNonce t = None) /\
  (found = true ->
    ((snd acc = true /\ fst acc = n) \/ exists t, t ∈ l /\ in_lane sender chainID t /\ tx_AssignedNonce t = Some n) /\
    (snd acc = true -> fst acc <= n) /\
    forall t k, t ∈ l -> in_lane sender chainID t -> tx_AssignedNonce t = Some k -> k <= n).
Proof.
  revert acc. induction l as [|t l IH]; intros acc; simpl.
  - intros ->. simpl. split; [intros ->; split; [done|]; intros t Ht; by apply elem_of_nil in Ht|].
    intros ->. split_and!; [by left|done|]. intros t k Ht. by apply elem_of_nil in Ht.
  - intros E. apply IH in E as [E1 E2]. unfold in_lane in *.
    assert (max_nonce_row sender chainID acc t = acc /\
              (tx_Sender t = sender /\ tx_ChainID t = chainID -> tx_AssignedNonce t = None \/
                 exists k, tx_AssignedNonce t = Some k /\ snd acc = true /\ k <= fst acc) \/
            exists k, max_nonce_row sender chainID acc t = (k, true) /\ tx_Sender t = sender /\
              tx_ChainID t = chainID /\ tx_AssignedNonce t = Some k /\ (snd acc = true -> fst acc <= k)) as Hstep.
    { unfold max_nonce_row. destruct (decide (tx_Sender t = sender)) as [Hs|Hs].
      2: { left. rewrite bool_decide_eq_false_2 by done. simpl. split; [done|]. intros [? ?]; done. }
      rewrite bool_decide_eq_true_2 by done. simpl.
      destruct (tx_ChainID t =? chainID) eqn:Hc; simpl; [|left; split; [done|lia]].
      destruct (tx_AssignedNonce t) as [k|]; [|left; auto].
      destruct (snd acc) eqn:Hf; simpl; [|right; exists k; split_and!; try done; lia].
      destruct (fst acc <? k) eqn:Hk; [right; exists k; split_and!; try done; lia|].
      left. split; [done|]. intros _. right. exists k. split_and!; try done; lia. }
    destruct Hstep as [[Hr Ht]|(k & Hr & Hs & Hc & Hk & Hle)]; rewrite Hr in E1, E2; simpl in *.
    + split.
      * intros Hf. destruct (E1 Hf) as [Ha Hl]. split; [done|].
        intros u [->|Hu]%elem_of_cons Hin; [|by apply Hl]. destruct (Ht Hin) as [|(? & ? & ? & ?)]; [done|congruence].
      * intros Hf. destruct (E2 Hf) as (Hex & Hge & Hub). split_and!; [|done|].
        -- destruct Hex as [|(u & ? & ? & ?)]; [by left|right; exists u; by rewrite elem_of_cons; auto].
        -- intros u k [->|Hu]%elem_of_cons Hin Hk; [|by eapply Hub].
           destruct (Ht Hin) as [?|(k' & ? & Hf' & ?)]; [congruence|]. specialize (Hge Hf'). assert (k' = k) by congruence. lia.
    + split; [intros Hf; destruct (E1 Hf); done|].
      intros Hf. destruct (E2 Hf) as (Hex & Hge & Hub). specialize (Hge eq_refl). split_and!.
      * right. destruct Hex as [[_ ->]|(u & ? & ? & ?)]; [exists t|exists u]; rewrite elem_of_cons; auto.
      * intros Ha. specialize (Hle Ha). lia.
      * intros u k' [->|Hu]%elem_of_cons Hin Hk'; [|by eapply Hub]. assert (k' = k) by congruence. lia.
Qed.

(** The counts after a list of rows, from any counts before it. *)
Lemma count_rows statuses l acc chainID :
  fold_left (count_row statuses) l acc !! chainID =
  let n := Z.of_nat (length (List.filter (counted statuses chainID) l)) in
  if n =? 0 then acc !! chainID else Some (wrap_u64 (default 0 (acc !! chainID) + n)).
Proof.
  revert acc. induction l as [|t l IH]; intros acc; [done|]. cbn [fold_left List.filter]. rewrite IH. clear IH.
  set (n := length (List.filter (counted statuses chainID) l)). unfold count_row.
  destruct (counted statuses chainID t) eqn:Ec; unfold counted in Ec; cbv zeta.
  - apply andb_true_iff in Ec as [Hc%Z.eqb_eq ->]. rewrite Hc, lookup_insert_eq. fold n. cbn [length].
    rewrite Nat2Z.inj_succ, (proj2 (Z.eqb_neq (Z.succ _) 0)) by lia.
    destruct (Z.eqb_spec (Z.of_nat n) 0) as [E|E]; [do 2 f_equal; lia|]. simpl. unfold wrap_u64. rewrite Zplus_mod_idemp_l. do 2 f_equal. lia.
  - fold n. destruct (bool_decide (tx_Status t ∈ statuses)); [|done]. rewrite andb_true_r in Ec. apply Z.eqb_neq in Ec.
    by rewrite lookup_insert_ne.
Qed.

Lemma mem_CountByChain statuses chainID s :
  CountByChain statuses s !! chainID =
  let n := Z.of_nat (length (List.filter (counted statuses chainID) (map_to_list (txs s)).*2)) in
  if n =? 0 then None else Some (wrap_u64 n).
Proof.
  unfold CountByChain. rewrite count_rows, lookup_empty.
  assert (E : List.filter (counted statuses chainID) (range_map (txs s)).*2 ≡ₚ
              List.filter (counted statuses chainID) (map_to_list (txs s)).*2).
  { by rewrite range_map_perm. }
  cbv zeta. by rewrite (Permutation_length E).
Qed.

Lemma UpdateIfActive_unfold tx s :
  UpdateIfActive tx s =
  if active_row (tx_ID tx) s then (Ok tt, Insert tx s) else (Err ErrStaleTransaction_v, s).
Proof.
  unfold UpdateIfActive, active_row; simpl. destruct (txs s !! tx_ID tx) as [cur|]; [|done].
  by destruct (IsCompleted cur).
Qed.

Lemma UpdateNotification_unfold tx s :
  q_rows (snd (UpdateNotification tx s)) =
  (if notifiable_row (tx_ID tx) s then alter (merge_notification tx) (tx_ID tx) (txs s) else txs s) /\
  fst (UpdateNotification tx s) =
  (if notifiable_row (tx_ID tx) s then Ok tt else Err ErrStaleTransaction_v).
Proof.
  unfold UpdateNotification, notifiable_row; simpl. destruct (txs s !! tx_ID tx) as [cur|] eqn:E; [|done].
  destruct (IsCompleted cur), (bool_decide (tx_NotifiedAt cur = None)); simpl; try done.
  split; [|done]. apply map_eq; intros i. rewrite lookup_alter, lookup_insert.
  case_decide as Hd; [|done]. subst i. by rewrite E.
Qed.

Lemma InsertAttempt_unfold a s :
  InsertAttempt a s =
  match hashes s !! Hash_Hex (at_Hash a) with
  | Some id => (if decide (id = at_TransactionID a) then Ok tt
                else Err (AttemptHashConflictError (Hash_Hex (at_Hash a)) id), s)
  | None => (Ok tt, snd (InsertAttempt a s))
  end.
Proof.
  unfold InsertAttempt. destruct (hashes s !! _) as [id|]; [|done].
  destruct (String.eqb_spec id (at_TransactionID a)); by case_decide.
Qed.

Lemma mem_Get q s :
  (forall t, Get (build_query q s) = Ok t -> query_holds q t = true /\ exists k, txs s !! k = Some t) /\
  (forall e, Get (build_query q s) = Err e ->
     e = ErrNoRows_v /\ forall k t, txs s !! k = Some t -> query_holds q t = false).
Proof.
  rewrite build_query_filters. unfold Get; simpl.
  destruct (List.find _ _) as [t0|] eqn:E.
  - split; [|done]. intros t [= <-]. apply find_some in E as [Hin Ht].
    rewrite query_filter in Ht. split; [done|]. by apply elem_of_range_rows, list_elem_of_In.
  - split; [done|]. intros e [= <-]. split; [done|]. intros k t Hk.
    rewrite <- query_filter. apply (find_none _ _ E). apply list_elem_of_In, elem_of_range_rows. eauto.
Qed.

Lemma mem_MaxAssignedNonce sender chainID s :
  (q_MaxAssignedNonce sender chainID s = None ->
   forall k t, txs s !! k = Some t -> in_lane sender chainID t -> tx_AssignedNonce t = None) /\
  (forall m, q_MaxAssignedNonce sender chainID s = Some m ->
    (exists k t, txs s !! k = Some t /\ in_lane sender chainID t /\ tx_AssignedNonce t = Some m) /\
    forall k t n, txs s !! k = Some t -> in_lane sender chainID t -> tx_AssignedNonce t = Some n -> n <= m).
Proof.
  simpl. unfold MaxAssignedNonce.
  destruct (fold_left _ _ _) as [n found] eqn:E. apply max_nonce_fold in E as [E1 E2].
  destruct found.
  - split; [done|]. intros m [= <-]. destruct (E2 eq_refl) as (Hex & _ & Hub). split.
    + destruct Hex as [[? _]|(t & Ht & ? & ?)]; [done|]. apply elem_of_range_rows in Ht as [k Hk]. eauto.
    + intros k t j Hk. apply Hub. apply elem_of_range_rows. eauto.
  - split; [|done]. intros _ k t Hk. destruct (E1 eq_refl) as [_ Hn]. apply Hn. apply elem_of_range_rows. eauto.
Qed.

Lemma mem_SelectAttemptsByNonce chainID nonce s a :
  a ∈ SelectAttemptsByNonce chainID nonce s <->
  exists id t, txs s !! id = Some t /\ tx_ChainID t = chainID /\ a ∈ attempts_of s id /\ at_Nonce a = nonce.
Proof.
  unfold SelectAttemptsByNonce, attempts_of. rewrite sort_stable_elem, list_elem_of_In, in_flat_map. split.
  - intros ([id l] & Hin & Ha). apply list_elem_of_In, elem_of_range_map in Hin. simpl in Ha.
    destruct (txs s !! id) as [t|] eqn:Et; [|done]. destruct (tx_ChainID t =? chainID) eqn:Ec; [|done].
    simpl in Ha. apply filter_In in Ha as [Ha Hn]. exists id, t. rewrite Hin. simpl.
    rewrite list_elem_of_In. split_and!; [done|lia|done|lia].
  - intros (id & t & Et & Ec & Ha & Hn). destruct (attempts s !! id) as [l|] eqn:El; simpl in Ha; [|by apply elem_of_nil in Ha].
    exists (id, l). split; [by apply list_elem_of_In, elem_of_range_map|]. simpl. rewrite Et.
    replace (tx_ChainID t =? chainID) with true by lia. simpl. apply filter_In. rewrite <- list_elem_of_In. split; [done|lia].
Qed.

(** ** Lane keys *)

(** The first row of a key, in iteration order, decides. *)
Lemma find_operation_spec tx key l :
  match find_operation tx key l with
  | Some r => exists k t, (k, t) ∈ l /\ has_operation key t /\ r = operation_verdict t tx
  | None => forall k t, (k, t) ∈ l -> ~ has_operation key t
  end.
Proof.
  induction l as [|[k t] l IH]; cbn [find_operation]; [by intros k t Hnil%elem_of_nil|].
  case_bool_decide as Hk; [exists k, t; split; [left|done]|].
  destruct (find_operation tx key l) as [r|].
  - destruct IH as (k' & t' & Hin & Hr). exists k', t'. split; [by right|done].
  - intros k' t' [[= -> ->]|Hin]%elem_of_cons; [done|by eapply IH].
Qed.

Lemma InsertOrGet_mem tx s :
  (exists key k t, has_operation key tx /\ txs s !! k = Some t /\ has_operation key t /\
     InsertOrGet tx s = (operation_verdict t tx, s)) \/
  ((forall key k t, has_operation key tx -> txs s !! k = Some t -> ~ has_operation key t) /\
     InsertOrGet tx s = (Ok tx, Insert tx s)).
Proof.
  unfold InsertOrGet. destruct (tx_OperationKey tx) as [key|] eqn:Ek.
  - pose proof (find_operation_spec tx key (range_map (txs s))) as Hf.
    destruct (find_operation tx key (range_map (txs s))) as [r|].
    + destruct Hf as (k & t & Hin & Ht & ->). left. exists key, k, t. by rewrite <- elem_of_range_map.
    + right. split; [|done]. intros key' k t Hk Hin. unfold has_operation in Hk. rewrite Ek in Hk. injection Hk as <-.
      apply (Hf k). by apply elem_of_range_map.
  - right. split; [|done]. intros key k t Hk. unfold has_operation in Hk. congruence.
Qed.

Lemma laneLockKey_inj `{!GoEthereumLaws _} a c a' c' :
  laneLockKey a c = laneLockKey a' c' -> (a, c) = (a', c').
Proof.
  unfold laneLockKey. intros E. apply sapp_inj_len in E as [E1 E2]; [|by rewrite !Address_Hex_len].
  injection E2 as E2. apply Address_Hex_inj in E1. apply (inj pretty) in E2. congruence.
Qed.

#[export] Instance mem_TransactionsQLaws `{!GoEthereumLaws _} : TransactionsQLaws (St := txsState).
Proof.
  split; try done; simpl.
  - intros tx s. rewrite UpdateIfActive_unfold. by destruct (active_row _ s).
  - intros tx s. rewrite UpdateIfActive_unfold. by destruct (active_row _ s).
  - intros tx s id. rewrite UpdateIfActive_unfold. by destruct (active_row _ s).
  - intros tx s h. rewrite UpdateIfActive_unfold. by destruct (active_row _ s).
  - intros tx s Hno. destruct (InsertOrGet_mem tx s) as [(key & k & t & H1 & H2 & H3 & _)|[_ ->]]; [|done].
    by destruct (Hno key k t).
  - intros tx s key k t H1 H2 H3. destruct (InsertOrGet_mem tx s) as [(key' & k' & t' & H1' & H2' & H3' & ->)|[Hno _]].
    + split; [done|]. exists k', t'. unfold has_operation in *. by repeat split; congruence.
    + by destruct (Hno key k t).
  - intros tx s id. by destruct (InsertOrGet_mem tx s) as [(? & ? & ? & _ & _ & _ & ->)|[_ ->]].
  - intros tx s h. by destruct (InsertOrGet_mem tx s) as [(? & ? & ? & _ & _ & _ & ->)|[_ ->]].
  - intros tx s id. unfold UpdateNotification. destruct (txs s !! _); [|done]. by case_match.
  - intros tx s h. unfold UpdateNotification. destruct (txs s !! _); [|done]. by case_match.
  - intros tx s. apply UpdateNotification_unfold.
  - intros tx s. apply UpdateNotification_unfold.
  - intros a s. rewrite InsertAttempt_unfold. by destruct (hashes s !! _).
  - intros a s. unfold InsertAttempt. destruct (hashes s !! _); [by case_match|done].
  - intros a s id. unfold InsertAttempt, attempts_of. destruct (hashes s !! _); [by case_match|]. simpl.
    rewrite lookup_insert. case_decide; case_decide; subst; try done.
  - intros a s h. unfold InsertAttempt. destruct (hashes s !! _); [by case_match|]. simpl.
    rewrite lookup_insert. case_decide; case_decide; subst; try done.
  - intros. apply mem_SelectAttemptsByNonce.
  - intros q s. exists (range_map (txs s)).*2. split; [by rewrite range_map_perm|].
    rewrite build_query_filters. unfold Select; simpl. do 2 f_equal. apply List.filter_ext. intros t. apply query_filter.
  - intros q s. apply mem_Get.
  - intros q s. apply mem_Get.
  - intros statuses chainID s. apply mem_CountByChain.
  - intros sender chainID s. apply (mem_MaxAssignedNonce sender chainID s).
  - intros sender chainID s. apply (mem_MaxAssignedNonce sender chainID s).
  - intros a c s. unfold TryLockLane. by case_bool_decide.
  - intros a c s. unfold TryLockLane. by case_bool_decide.
  - intros a c s. unfold TryLockLane.
    destruct (bool_decide (laneLockKey a c ∈ laneLocks s)) eqn:E; [done|]. apply bool_decide_eq_true_2; simpl; set_solver.
  - intros a c s a' c' Hne. unfold TryLockLane.
    destruct (bool_decide (laneLockKey a c ∈ laneLocks s)); [done|]. simpl. apply bool_decide_ext.
    assert (laneLockKey a' c' <> laneLockKey a c) by (intros E; apply Hne; by apply laneLockKey_inj). set_solver.
  - intros a c s id. unfold TryLockLane. by case_bool_decide.
  - intros a c s h. unfold TryLockLane. by case_bool_decide.
  - intros a c s. apply bool_decide_eq_false_2. set_solver.
  - intros a c s a' c' Hne. apply bool_decide_ext.
    assert (laneLockKey a' c' <> laneLockKey a c) by (intros E; apply Hne; by apply laneLockKey_inj). set_solver.
Qed.

(** C16: The in-memory provider implements the transaction queue contract, every
    law of it: conditional updates, idempotent insertion, attempts owned by one
    transaction, ordered and limited selection, the highest assigned nonce and
    the lane locks. *)
Theorem mem_implements_contract `{GL : !GoEthereumLaws _} : TransactionsQLaws (St := txsState).
Proof. apply _. Qed.

End mem.
