(* ===== verification/NonceLane.v ===== *)
(** * The nonce lane (evm/txmngr/txmngr.go)

    [nonceLane] tracks the next free nonce of one (sender, chain) while its lane
    lock is held.  The counter is a [uint64]: [nonce + 1] wraps. *)
From S2P Require Export Prelude.
Local Open Scope Z_scope.

Record nonceLane := mkLane { next : Z; known : bool }.

Definition observe (nonce : Z) (l : nonceLane) : nonceLane :=
  let n := wrap_u64 (nonce + 1) in
  if negb (known l) || (next l <? n) then {| next := n; known := true |} else l.

Definition reserve (rpcNonce : Z) (l : nonceLane) : Z * bool :=
  if known l && (rpcNonce <? next l) then (0, false) else (rpcNonce, true).

Definition isTip (nonce : Z) (l : nonceLane) : bool :=
  known l && (next l =? wrap_u64 (nonce + 1)).

(** The lane as [processLaneBatch] builds it from the durable high-water mark. *)
Definition lane_of_max (maxNonce : option Z) : nonceLane :=
  match maxNonce with
  | Some m => {| next := wrap_u64 (m + 1); known := true |}
  | None => {| next := 0; known := false |}
  end.

(** ** What the lane guarantees *)

(** Every nonce of [used] is below the lane's counter. *)
Definition above (l : nonceLane) (n : Z) : Prop := known l = true /\ n < next l.

Lemma lane_succ n : 0 <= n < max_u64 -> wrap_u64 (n + 1) = n + 1.
Proof. intros H. apply wrap_u64_small. unfold is_u64, max_u64 in *. lia. Qed.

Lemma observe_above n l : 0 <= n < max_u64 -> above (observe n l) n.
Proof. intros H. unfold above, observe. rewrite lane_succ by done. case_match; simpl; [lia|]. destruct (known l); simpl in *; lia. Qed.

Lemma observe_mono n m l : above l n -> above (observe m l) n.
Proof. unfold above, observe. intros [Hk Hn]. rewrite Hk. simpl. case_match; simpl; lia. Qed.

Lemma reserve_spec r l n : reserve r l = (n, true) -> n = r /\ (known l = true -> next l <= n).
Proof. unfold reserve. intros E. case_match; simplify_eq. split; [done|]. intros Hk. rewrite Hk in *. simpl in *. lia. Qed.

Lemma reserve_fresh r l n m : reserve r l = (n, true) -> above l m -> m < n.
Proof. intros [-> H]%reserve_spec [Hk Hm]. specialize (H Hk). lia. Qed.

Lemma reserve_blocked r l : snd (reserve r l) = false <-> known l = true /\ r < next l.
Proof. unfold reserve. destruct (known l); simpl; [|naive_solver]. case_match; simpl; [split; [split; [done|lia]|done]|split; [done|lia]]. Qed.

(** The tip is the highest nonce the lane has seen. *)
Lemma isTip_spec n l : 0 <= n < max_u64 -> isTip n l = true -> above l n /\ forall m, above l m -> m <= n.
Proof.
  unfold isTip, above. intros Hn. rewrite lane_succ by done. intros [Hk He]%andb_true_iff.
  split; [split; [done|lia]|]. intros m [_ ?]. lia.
Qed.

Lemma lane_of_max_above m n : 0 <= m < max_u64 -> n <= m -> above (lane_of_max (Some m)) n.
Proof. intros H Hn. unfold above; simpl. rewrite lane_succ by done. lia. Qed.

(** At the top of the [uint64] range the counter wraps to zero: observing the
    last nonce leaves a lane that reserves everything again. *)
Lemma observe_wraps : observe max_u64 {| next := 0; known := false |} = {| next := 0; known := true |}.
Proof. vm_compute. reflexivity. Qed.
