(* ===== verification/Fees.v ===== *)
(** * Gas fees (evm/txmngr/txmngr.go)

    [GasFee] and its combination, [bumpGasPrice], and the fee floor derived from
    immutable attempts.  Amounts are unbounded integers ([*big.Int]); a nil
    pointer is [None]. *)
From S2P Require Export Provider.
Local Open Scope Z_scope.

Definition priorityCoefficient : Z := 15.
Definition maxFeeReplacements : Z := 5.

Record GasFee := mkGasFee {
  GasPrice : option Z;
  GasTipCap : option Z;
  GasFeeCap : option Z;
}.

#[export] Instance GasFee_eq_dec : EqDecision GasFee.
Proof. intros [] []. unfold Decision. decide equality; apply option_eq_dec. Defined.

(** Copies are values here, so cloning is the identity on the amount. *)
Definition cloneBigInt (value : option Z) : option Z :=
  match value with None => None | Some v => Some v end.

Definition cloneGasFee (fee : option GasFee) : option GasFee :=
  match fee with
  | None => None
  | Some f => Some {| GasPrice := cloneBigInt (GasPrice f); GasTipCap := cloneBigInt (GasTipCap f);
                      GasFeeCap := cloneBigInt (GasFeeCap f) |}
  end.

Definition maxBigInt (left right : option Z) : option Z :=
  match left, right with
  | None, _ => cloneBigInt right
  | Some l, None => cloneBigInt left
  | Some l, Some r => if 0 <=? (l - r) then cloneBigInt left else cloneBigInt right
  end.

Definition highestGasFee (left right : option GasFee) : option GasFee :=
  match left, right with
  | None, _ => cloneGasFee right
  | _, None => cloneGasFee left
  | Some l, Some r =>
      Some {| GasPrice := maxBigInt (GasPrice l) (GasPrice r);
              GasTipCap := maxBigInt (GasTipCap l) (GasTipCap r);
              GasFeeCap := maxBigInt (GasFeeCap l) (GasFeeCap r) |}
  end.

Definition bumpGasPrice (gasPrice : option Z) (coef : Z) : Z :=
  match gasPrice with
  | None => 0
  | Some gasPrice =>
      let newGasPrice := gasPrice * (100 + coef) / 100 in
      if (0 <? gasPrice) && (newGasPrice <=? gasPrice) then gasPrice + 1 else newGasPrice
  end.

Section history.
Context `{GoEthereum}.

Definition attempt_fee (t : SignedTx) : GasFee :=
  {| GasPrice := Some (geth_GasPrice t); GasTipCap := Some (geth_GasTipCap t); GasFeeCap := Some (geth_GasFeeCap t) |}.

(** [rawChainID == nil || !rawChainID.IsUint64() || rawChainID.Uint64() != chainID] *)
Definition foreign_chain (rawChainID : option Z) (chainID : Z) : bool :=
  match rawChainID with
  | None => true
  | Some c => negb (bool_decide (is_u64 c)) || negb (c =? chainID)
  end.

Fixpoint highestAttemptFee_from (highest : option GasFee) (attempts : list TransactionAttempt)
    (sender : Address) (chainID txType : Z) : result GoError (option GasFee) :=
  match attempts with
  | [] => Ok highest
  | attempt :: rest =>
      match at_Tx attempt with
      | None => Err (errors_New ("attempt " +:+ Hash_Hex (at_Hash attempt) +:+ " has no signed transaction"))
      | Some t =>
          let rawChainID := geth_ChainId t in
          if foreign_chain rawChainID chainID || negb (geth_Type t =? txType)
          then highestAttemptFee_from highest rest sender chainID txType
          else
            match geth_Sender rawChainID t with
            | Err e => Err (Errorf_w ("recovering signer for attempt " +:+ Hash_Hex (at_Hash attempt) +:+ ": ") e "")
            | Ok attemptSender =>
                if negb (bool_decide (attemptSender = sender))
                then highestAttemptFee_from highest rest sender chainID txType
                else if negb (bool_decide (geth_Hash t = at_Hash attempt))
                then Err (errors_New ("attempt hash " +:+ Hash_Hex (at_Hash attempt) +:+
                       " differs from raw transaction hash " +:+ Hash_Hex (geth_Hash t)))
                else if negb (geth_Nonce t =? at_Nonce attempt)
                then Err (errors_New ("attempt " +:+ Hash_Hex (at_Hash attempt) +:+ " nonce " +:+
                       pretty (at_Nonce attempt) +:+ " differs from raw transaction nonce " +:+ pretty (geth_Nonce t)))
                else highestAttemptFee_from (highestGasFee highest (Some (attempt_fee t))) rest sender chainID txType
            end
      end
  end.

Definition highestAttemptFee (attempts : list TransactionAttempt) (sender : Address) (chainID txType : Z) :
    result GoError (option GasFee) :=
  highestAttemptFee_from None attempts sender chainID txType.

(** The attempts [highestAttemptFee] takes into account. *)
Definition own_attempt (sender : Address) (chainID txType : Z) (a : TransactionAttempt) (t : SignedTx) : Prop :=
  at_Tx a = Some t /\ foreign_chain (geth_ChainId t) chainID = false /\ geth_Type t = txType /\
  geth_Sender (geth_ChainId t) t = Ok sender.
End history.

(** ** Bumping *)

Lemma bumpGasPrice_mono p coef : 0 <= p -> 0 <= coef -> p <= bumpGasPrice (Some p) coef.
Proof.
  intros Hp Hc. unfold bumpGasPrice. case_match; [lia|].
  apply Z.div_le_lower_bound; [lia|]. nia.
Qed.

Lemma bumpGasPrice_strict p coef : 0 < p -> p < bumpGasPrice (Some p) coef.
Proof. intros Hp. unfold bumpGasPrice. case_match; [lia|]. destruct (0 <? p) eqn:E; simpl in *; lia. Qed.

Lemma bumpGasPrice_percent p coef k :
  0 <= p -> 0 <= k <= coef -> p * (100 + k) / 100 <= bumpGasPrice (Some p) coef.
Proof.
  intros Hp Hk. assert (p * (100 + k) / 100 <= p * (100 + coef) / 100).
  { apply Z.div_le_mono; [lia|]. nia. }
  unfold bumpGasPrice. case_match; lia.
Qed.

(** ** The combined floor dominates both sides *)

Definition opt_le (x y : option Z) : Prop :=
  match x, y with None, _ => True | Some a, Some b => a <= b | Some _, None => False end.

Definition fee_le (f g : GasFee) : Prop :=
  opt_le (GasPrice f) (GasPrice g) /\ opt_le (GasTipCap f) (GasTipCap g) /\ opt_le (GasFeeCap f) (GasFeeCap g).

#[export] Instance fee_le_preorder : PreOrder fee_le.
Proof.
  split.
  - intros [[] [] []]; unfold fee_le, opt_le; simpl; lia.
  - intros [[] [] []] [[] [] []] [[] [] []]; unfold fee_le, opt_le; simpl; lia.
Qed.

Lemma cloneBigInt_id v : cloneBigInt v = v.
Proof. by destruct v. Qed.

Lemma opt_le_refl v : opt_le v v.
Proof. destruct v; simpl; lia. Qed.

Lemma maxBigInt_ub l r : opt_le l (maxBigInt l r) /\ opt_le r (maxBigInt l r).
Proof. destruct l as [l|], r as [r|]; unfold maxBigInt; try (destruct (0 <=? l - r) eqn:E); simpl; lia. Qed.


Lemma highestGasFee_ub l r f :
  highestGasFee l r = Some f ->
  (forall g, l = Some g -> fee_le g f) /\ (forall g, r = Some g -> fee_le g f).
Proof.
  destruct l as [[lp lt lf]|], r as [[rp rt rf]|]; simpl; intros [= <-];
    (split; intros g [= <-]); unfold fee_le; simpl.
  1,2: split_and!; apply maxBigInt_ub.
  all: simpl; rewrite !cloneBigInt_id; split_and!; apply opt_le_refl.
Qed.

Lemma highestGasFee_Some l f : exists g, highestGasFee l (Some f) = Some g.
Proof. destruct l; simpl; eauto. Qed.
