(* ===== verification/World.v ===== *)
(** * Effects: the world a manager acts on

    The manager reads the clock, calls the node, the signer and the admission
    hook, and reads and writes the durable store.  A [World] holds the store, the
    lane counter, the number of environment calls made so far and the trace of
    outgoing effects; an [Env] answers the n-th call arbitrarily.  Quantifying
    over [Env] quantifies over every behaviour of the node, the clock, the signer
    and the store's failures, including a write that reports failure after it
    was committed. *)
From S2P Require Export NonceLane Fees Messages.
Local Open Scope Z_scope.

(** How a store call misbehaves, if it does. *)
Inductive Fault :=
| NoFault
| FaultBefore (e : GoError)    (* failed, nothing was written *)
| FaultAfter (e : GoError).    (* failed, but the write had committed *)

Class Env `{GoEthereum} := {
  env_now : nat -> Time;
  env_ctx : nat -> option GoError;
  env_store : nat -> Fault;
  env_receipt : nat -> Z -> Hash -> option Receipt * option GoError;
  env_tx_by_hash : nat -> Z -> Hash -> option SignedTx * option GoError;
  env_pending_nonce : nat -> Z -> Address -> result GoError Z;
  env_send : nat -> Z -> SignedTx -> option GoError;
  env_gas_price : nat -> Z -> result GoError Z;
  env_header : nat -> Z -> result GoError (option (option Z)); (* header, BaseFee *)
  env_tip_cap : nat -> Z -> result GoError Z;
  env_opts : nat -> Z -> result GoError (option TransactOpts);
  env_gate : nat -> Transaction -> bool -> Time * option GoError;
  (* the application's callback: its error, or the value it panicked with *)
  env_callback : nat -> Transaction -> result string (option GoError);
}.

Inductive Event `{GoEthereum} :=
| EvSend (chainID : Z) (t : SignedTx)              (* SendTransaction was called *)
| EvBarrier (chainID : Z) (reason : string)        (* Observer.ObserveLaneBarrier *)
| EvResult (chainID : Z) (status : string)         (* Observer.ObserveResult *)
| EvActive (chainID count : Z).                    (* Observer.SetActiveTransactions *)

Section world.
Context `{G : GoEthereum} `{Q : !TransactionsQ St} `{V : !Env}.

Record World := mkWorld {
  w_store : St;
  w_lane : nonceLane;
  w_tick : nat;
  w_trace : list Event;      (* newest first *)
}.

Definition put_store (s : St) (w : World) : World :=
  {| w_store := s; w_lane := w_lane w; w_tick := w_tick w; w_trace := w_trace w |}.
Definition put_lane (l : nonceLane) (w : World) : World :=
  {| w_store := w_store w; w_lane := l; w_tick := w_tick w; w_trace := w_trace w |}.
Definition tick (w : World) : World :=
  {| w_store := w_store w; w_lane := w_lane w; w_tick := S (w_tick w); w_trace := w_trace w |}.
Definition push (e : Event) (w : World) : World :=
  {| w_store := w_store w; w_lane := w_lane w; w_tick := w_tick w; w_trace := e :: w_trace w |}.

Definition M (A : Type) : Type := World -> outcome A * World.

Definition mret {A} (a : A) : M A := fun w => (Val a, w).
Definition mfail {A} (e : GoError) : M A := fun w => (Fail e, w).
Definition mpanic {A} (why : string) : M A := fun w => (Panic why, w).
Definition mbind {A B} (m : M A) (k : A -> M B) : M B := fun w =>
  match m w with
  | (Val a, w') => k a w'
  | (Fail e, w') => (Fail e, w')
  | (Panic p, w') => (Panic p, w')
  end.

(** [if err := m(); err != nil { ... }]: the error as a value. *)
Definition mtry {A} (m : M A) : M (result GoError A) := fun w =>
  match m w with
  | (Val a, w') => (Val (Ok a), w')
  | (Fail e, w') => (Val (Err e), w')
  | (Panic p, w') => (Panic p, w')
  end.

Definition lift {A} (r : result GoError A) : M A :=
  match r with Ok a => mret a | Err e => mfail e end.

(** [if err != nil { return f(err) }] *)
Definition wrap_err {A} (f : GoError -> GoError) (m : M A) : M A := fun w =>
  match m w with
  | (Fail e, w') => (Fail (f e), w')
  | r => r
  end.

(** Dereferencing a nil pointer panics. *)
Definition deref {A} (p : option A) : M A :=
  match p with Some a => mret a | None => mpanic "nil pointer dereference" end.

(** One call into the environment. *)
Definition ask {A} (f : nat -> A) : M A := fun w => (Val (f (w_tick w)), tick w).

Definition emit (e : Event) : M unit := fun w => (Val tt, push e w).
Definition get_lane : M nonceLane := fun w => (Val (w_lane w), w).
Definition lane_observe (n : Z) : M unit := fun w => (Val tt, put_lane (observe n (w_lane w)) w).

(** ** The store as the manager calls it *)

Definition db_read {A} (f : St -> result GoError A) : M A := fun w =>
  match env_store (w_tick w) with
  | NoFault => match f (w_store w) with Ok a => (Val a, tick w) | Err e => (Fail e, tick w) end
  | FaultBefore e | FaultAfter e => (Fail e, tick w)
  end.

Definition db_write {A} (f : St -> result GoError A * St) : M A := fun w =>
  match env_store (w_tick w) with
  | NoFault =>
      let '(r, s') := f (w_store w) in
      match r with Ok a => (Val a, put_store s' (tick w)) | Err e => (Fail e, put_store s' (tick w)) end
  | FaultBefore e => (Fail e, tick w)
  | FaultAfter e => (Fail e, put_store (snd (f (w_store w))) (tick w))
  end.

Definition db_SelectAttempts (id : string) : M (list TransactionAttempt) :=
  db_read (fun s => Ok (q_SelectAttempts id s)).
Definition db_SelectAttemptsByNonce (chainID nonce : Z) : M (list TransactionAttempt) :=
  db_read (fun s => Ok (q_SelectAttemptsByNonce chainID nonce s)).
Definition db_Select (q : Query) : M (list Transaction) := db_read (fun s => Ok (q_Select q s)).
Definition db_Get (q : Query) : M Transaction := db_read (q_Get q).
Definition db_CountByChain (statuses : list TxStatus) : M (gmap Z Z) :=
  db_read (fun s => Ok (q_CountByChain statuses s)).
Definition db_MaxAssignedNonce (sender : Address) (chainID : Z) : M (option Z) :=
  db_read (fun s => Ok (q_MaxAssignedNonce sender chainID s)).
Definition db_InsertAttempt (a : TransactionAttempt) : M unit := db_write (q_InsertAttempt a).
Definition db_UpdateIfActive (tx : Transaction) : M unit := db_write (q_UpdateIfActive tx).
Definition db_UpdateNotification (tx : Transaction) : M unit := db_write (q_UpdateNotification tx).
Definition db_InsertOrGet (tx : Transaction) : M Transaction := db_write (q_InsertOrGet tx).
Definition db_TryLockLane (sender : Address) (chainID : Z) : M bool :=
  db_write (fun s => let '(b, s') := q_TryLockLane sender chainID s in (Ok b, s')).
Definition db_UnlockLane (sender : Address) (chainID : Z) : M unit :=
  db_write (fun s => (Ok tt, q_UnlockLane sender chainID s)).

Definition now : M Time := ask env_now.
Definition ctx_err : M (option GoError) := ask env_ctx.

(** ** A Hoare logic for [M]: normal and failing exits *)

Definition triple {A} (I : World -> Prop) (m : M A) (J : A -> World -> Prop) (X : GoError -> World -> Prop) : Prop :=
  forall w, I w ->
    match m w with
    | (Val a, w') => J a w'
    | (Fail e, w') => X e w'
    | (Panic _, w') => exists e, X e w'
    end.

Lemma triple_ret {A} (I : World -> Prop) (a : A) (J : A -> World -> Prop) X :
  (forall w, I w -> J a w) -> triple I (mret a) J X.
Proof. by intros H w Hw; apply H. Qed.

Lemma triple_fail {A} (I : World -> Prop) e (J : A -> World -> Prop) X :
  (forall w, I w -> X e w) -> triple I (mfail e) J X.
Proof. by intros H w Hw; apply H. Qed.

Lemma triple_bind {A B} I (m : M A) (k : A -> M B) K J X :
  triple I m K X -> (forall a, triple (K a) (k a) J X) -> triple I (mbind m k) J X.
Proof.
  intros Hm Hk w Hw. unfold mbind. specialize (Hm w Hw).
  destruct (m w) as [[a|e|p] w']; [by apply Hk|done..].
Qed.

Lemma triple_try {A} I (m : M A) (J : result GoError A -> World -> Prop) X :
  triple I m (fun a => J (Ok a)) (fun e w => J (Err e) w /\ X e w) -> triple I (mtry m) J X.
Proof.
  intros Hm w Hw. unfold mtry. specialize (Hm w Hw). destruct (m w) as [[a|e|p] w']; [done|naive_solver|].
  destruct Hm as (e & _ & ?). by exists e.
Qed.

Lemma triple_wrap {A} I (m : M A) f J X :
  triple I m J (fun e w => X (f e) w) -> triple I (wrap_err f m) J X.
Proof.
  intros Hm w Hw. unfold wrap_err. specialize (Hm w Hw).
  destruct (m w) as [[a|e|p] w']; try done. destruct Hm as [e ?]. by exists (f e).
Qed.

Lemma triple_ask {A} (I : World -> Prop) (f : nat -> A) J X :
  (forall w, I w -> J (f (w_tick w)) (tick w)) -> triple I (ask f) J X.
Proof. by intros H w Hw; apply H. Qed.

Lemma triple_weaken {A} (I I' : World -> Prop) (m : M A) J J' X X' :
  triple I' m J' X' -> (forall w, I w -> I' w) -> (forall a w, J' a w -> J a w) ->
  (forall e w, X' e w -> X e w) -> triple I m J X.
Proof.
  intros Hm HI HJ HX w Hw. specialize (Hm w (HI w Hw)).
  destruct (m w) as [[a|e|p] w']; [auto..|]. destruct Hm as [e ?]. eauto.
Qed.

Lemma triple_and {A} (I : World -> Prop) (m : M A) (J J' : A -> World -> Prop) X (F : World -> Prop) :
  triple I m J X -> triple I m J' (fun _ => F) -> triple I m (fun a w => J a w /\ J' a w) (fun e w => X e w /\ F w).
Proof.
  intros H H' w Hw. specialize (H w Hw). specialize (H' w Hw).
  destruct (m w) as [[a|e|p] w']; [done..|]. destruct H as [e ?], H' as [_ ?]. by exists e.
Qed.

(** A triple from each single world is a triple. *)
Lemma triple_pointwise {A} (I : World -> Prop) (m : M A) J X :
  (forall w, I w -> triple (eq w) m J X) -> triple I m J X.
Proof. intros H w Hw. by apply (H w Hw w). Qed.

(** ** Computations that never panic *)

Definition nopanic {A} (m : M A) : Prop := forall w p, fst (m w) <> Panic p.

Lemma nopanic_bind {A B} (m : M A) (k : A -> M B) :
  nopanic m -> (forall a, nopanic (k a)) -> nopanic (mbind m k).
Proof.
  intros Hm Hk w p. unfold mbind. specialize (Hm w). destruct (m w) as [[a|e|q] w'] eqn:E; simpl in *.
  - apply Hk. - done. - by destruct (Hm q).
Qed.
End world.

#[global] Arguments World {_} St.
#[global] Arguments M {_} {St} A.
Notation "'let!' x ':=' m 'in' k" := (mbind m (fun x => k))
  (at level 10, x pattern, m at level 100, k at level 200) : go_scope.
Notation "'do!' m 'in' k" := (mbind m (fun _ => k)) (at level 10, m at level 100, k at level 200) : go_scope.
