(* ===== verification/Manager.v ===== *)
(** * The transaction manager: advancing one transaction (evm/txmngr/txmngr.go)

    [processTransactionStep] and everything it calls, from the node reads to the
    durable writes.  Structs passed by value are values here; the [*nonceLane]
    argument is the lane component of the world. *)
From S2P Require Export World.
Local Open Scope Z_scope.
Local Open Scope go_scope.

(** The fields of [txManager] a step reads.  Nil-able functions appear as
    whether they are set; their behaviour is the environment's. *)
Record txManager `{GoEthereum} := mkManager {
  m_clients : gset Z;
  m_sender : Address;
  m_bumpIntervalMap : gmap Z Duration;
  m_blockTimeMap : gmap Z Duration;
  m_getTransactOpts : bool;
  m_beforeAttempt : bool;
  m_onStatusChange : bool;
}.

Definition maxHashCollisionResigns : nat := 8.
Definition exhaustedPollInterval : Duration := 30 * Second.
Definition consumedNonceGrace : Duration := 2 * Minute.
Definition recoveredAttemptRejectionGrace : Duration := 2 * Minute.

Definition LaneBarrierRPCNonceBehind : string := "rpc_nonce_behind".
Definition LaneBarrierRejectionNotTip : string := "rejection_not_tip".
Definition LaneBarrierRejectionNodeBehind : string := "rejection_node_behind".

Section step.
Context `{G : GoEthereum} `{Q : !TransactionsQ St} `{V : !Env} `{U : UnicodeTables}.
Variable m : txManager.

(** ** Intervals *)

Definition blockTime (chainID : Z) : Duration :=
  let duration := default 0 (m_blockTimeMap m !! chainID) in
  if duration <=? 0 then Second else duration.

Definition bumpInterval (chainID : Z) : Duration :=
  let duration := default 0 (m_bumpIntervalMap m !! chainID) in
  if duration <=? 0 then wrap_i64 (3 * blockTime chainID) else duration.

Definition nextBumpAt (chainID : Z) (latest : TransactionAttempt) : Time :=
  at_CreatedAt latest + bumpInterval chainID.

(** [attempts[len(attempts)-1]]; indexing an empty slice panics. *)
Definition latest_attempt (attempts : list TransactionAttempt) : M (St := St) TransactionAttempt :=
  match last attempts with Some a => mret a | None => mpanic "index out of range" end.

(** ** Scheduling and terminal writes *)

Definition next_check_at (tx : Transaction) (attempts : list TransactionAttempt) (notBefore now : Time) : Time :=
  let next := now + blockTime (tx_ChainID tx) in
  let next :=
    if bool_decide (is_Some (tx_NonceConsumedAt tx)) || (maxFeeReplacements <=? Z.of_nat (length attempts))
    then now + exhaustedPollInterval
    else match last attempts with
         | Some latest =>
             let bumpAt := nextBumpAt (tx_ChainID tx) latest in
             if bumpAt <? next then bumpAt else next
         | None => next
         end in
  if next <? notBefore then notBefore else next.

Definition scheduleNextCheckNotBefore (tx : Transaction) (attempts : list TransactionAttempt)
    (notBefore : Time) : M (St := St) unit :=
  let! now := now in
  let next := next_check_at tx attempts notBefore now in
  let tx := match attempts with [] => tx | _ => set_Status ConfirmingTxStatus tx end in
  let tx := set_Msg (transactionMessageTail (tx_Msg tx)) tx in
  let tx := set_NextActionAt next tx in
  let tx := set_UpdatedAt now tx in
  wrap_err (fun e => Errorf_w ("scheduling transaction " +:+ tx_ID tx +:+ " confirmation: ") e "")
    (db_UpdateIfActive tx).

Definition scheduleNextCheck (tx : Transaction) (attempts : list TransactionAttempt) : M (St := St) unit :=
  scheduleNextCheckNotBefore tx attempts time_zero.

Definition scheduleRetryAfterBlock (tx : Transaction) (attempts : list TransactionAttempt) : M (St := St) unit :=
  let! now := now in
  scheduleNextCheckNotBefore tx attempts (now + blockTime (tx_ChainID tx)).

Definition persistTerminal (tx : Transaction) : M (St := St) unit :=
  let! now := now in
  let tx := set_Msg (transactionMessageTail (tx_Msg tx)) tx in
  let tx := set_UpdatedAt now tx in
  let tx := set_NextActionAt now tx in
  let tx :=
    if negb (has_intent tx) then set_NotifiedAt (Some now) tx
    else
      let tx := set_NotifiedAt None tx in
      let tx := set_NotificationAttempts 0 tx in
      let tx := set_NextNotificationAt now tx in
      set_NotificationError "" tx in
  do! wrap_err (fun e => Errorf_w ("persisting terminal transaction " +:+ tx_ID tx +:+ ": ") e "")
        (db_UpdateIfActive tx) in
  emit (EvResult (tx_ChainID tx) (status_string (tx_Status tx))).

Definition finalizeTransaction (tx : Transaction) (winner : option SignedTx) (receipt : Receipt) : M (St := St) unit :=
  let tx := set_Tx winner tx in
  let tx := set_Receipt (Some receipt) tx in
  let tx := set_Msg "" tx in
  let tx := set_RejectedAttemptHash None tx in
  let tx :=
    if receipt_Status receipt =? ReceiptStatusFailed then set_Status FailedTxStatus tx
    else set_Status SucceedTxStatus tx in
  persistTerminal tx.

Definition abandonTransaction (tx : Transaction) (reason : string) : M (St := St) unit :=
  let tx := set_Status ErroredTxStatus tx in
  let tx := set_Msg reason tx in
  let tx := set_RejectedAttemptHash None tx in
  persistTerminal tx.

(** ** Reading the chain *)

(** The receipt checks of [findKnownReceipt] for one attempt: accept it, or the
    error to remember, if any. *)
Definition receipt_verdict (attempt : TransactionAttempt) (answer : option Receipt * option GoError) :
    option Receipt * option GoError :=
  match answer with
  | (Some receipt, None) =>
      if negb (bool_decide (receipt_TxHash receipt = at_Hash attempt)) then
        (None, Some (errors_New ("receipt hash " +:+ Hash_Hex (receipt_TxHash receipt) +:+
           " does not match requested attempt " +:+ Hash_Hex (at_Hash attempt))))
      else if negb (receipt_Status receipt =? ReceiptStatusFailed) &&
              negb (receipt_Status receipt =? ReceiptStatusSuccessful) then
        (None, Some (errors_New ("receipt " +:+ Hash_Hex (at_Hash attempt) +:+ " has unsupported status " +:+
           pretty (receipt_Status receipt))))
      else (Some receipt, None)
  | (_, Some err) =>
      if Is err NotFound then (None, None)
      else (None, Some (redactedRPCError ("retrieving receipt " +:+ Hash_Hex (at_Hash attempt)) err))
  | (None, None) => (None, None)
  end.

Fixpoint findKnownReceipt (chainID : Z) (attempts : list TransactionAttempt) (lastErr : option GoError) :
    M (St := St) (option (Receipt * option SignedTx) * option GoError) :=
  match attempts with
  | [] => mret (None, lastErr)
  | attempt :: rest =>
      let! answer := ask (fun n => env_receipt n chainID (at_Hash attempt)) in
      match receipt_verdict attempt answer with
      | (Some receipt, _) => mret (Some (receipt, at_Tx attempt), None)
      | (None, Some err) => findKnownReceipt chainID rest (Some err)
      | (None, None) => findKnownReceipt chainID rest lastErr
      end
  end.

Definition known_verdict (attempt : TransactionAttempt) (answer : option SignedTx * option GoError) :
    bool * option GoError :=
  match answer with
  | (Some known, None) =>
      if negb (bool_decide (geth_Hash known = at_Hash attempt)) then
        (false, Some (errors_New ("transaction hash " +:+ Hash_Hex (geth_Hash known) +:+
           " does not match requested attempt " +:+ Hash_Hex (at_Hash attempt))))
      else (true, None)
  | (_, Some err) =>
      if Is err NotFound then (false, None)
      else (false, Some (redactedRPCError ("retrieving transaction " +:+ Hash_Hex (at_Hash attempt)) err))
  | (None, None) => (false, None)
  end.

Fixpoint findKnownTransaction_from (chainID : Z) (attempts : list TransactionAttempt) (lastErr : option GoError) :
    M (St := St) (option SignedTx) :=
  match attempts with
  | [] => match lastErr with None => mret None | Some e => mfail e end
  | attempt :: rest =>
      let! answer := ask (fun n => env_tx_by_hash n chainID (at_Hash attempt)) in
      match known_verdict attempt answer with
      | (true, _) => mret (at_Tx attempt)
      | (false, Some err) => findKnownTransaction_from chainID rest (Some err)
      | (false, None) => findKnownTransaction_from chainID rest lastErr
      end
  end.

Definition findKnownTransaction (chainID : Z) (attempts : list TransactionAttempt) : M (St := St) (option SignedTx) :=
  findKnownTransaction_from chainID attempts None.

(** ** Durable attempts *)

Fixpoint validatePersistedAttempts_from (sender : Address) (nonce : Z) (attempts : list TransactionAttempt) :
    result GoError (Address * Z) :=
  match attempts with
  | [] => Ok (sender, nonce)
  | attempt :: rest =>
      match at_Tx attempt with
      | None => Err (errors_New ("persisted attempt " +:+ Hash_Hex (at_Hash attempt) +:+ " has no signed transaction"))
      | Some t =>
          if negb (bool_decide (geth_Hash t = at_Hash attempt)) then
            Err (errors_New ("persisted attempt hash " +:+ Hash_Hex (at_Hash attempt) +:+
              " differs from raw transaction hash " +:+ Hash_Hex (geth_Hash t)))
          else if negb (geth_Nonce t =? at_Nonce attempt) then
            Err (errors_New ("persisted attempt " +:+ Hash_Hex (at_Hash attempt) +:+ " nonce " +:+
              pretty (at_Nonce attempt) +:+ " differs from raw transaction nonce " +:+ pretty (geth_Nonce t)))
          else if negb (at_Nonce attempt =? nonce) then
            Err (errors_New ("signed attempts contain different nonces: " +:+ pretty nonce +:+ " and " +:+
              pretty (at_Nonce attempt)))
          else
            match geth_Sender (geth_ChainId t) t with
            | Err e => Err (Errorf_w ("recovering signer for persisted attempt " +:+ Hash_Hex (at_Hash attempt) +:+ ": ") e "")
            | Ok derived =>
                if bool_decide (sender = address_zero) then validatePersistedAttempts_from derived nonce rest
                else if negb (bool_decide (derived = sender)) then
                  Err (errors_New ("persisted attempt " +:+ Hash_Hex (at_Hash attempt) +:+ " signer " +:+
                    Address_Hex derived +:+ " differs from attempt sender " +:+ Address_Hex sender))
                else validatePersistedAttempts_from sender nonce rest
            end
      end
  end.

Definition validatePersistedAttempts (attempts : list TransactionAttempt) : result GoError (Address * Z) :=
  match attempts with
  | [] => Err (errors_New "no persisted attempts")
  | first :: _ => validatePersistedAttempts_from address_zero (at_Nonce first) attempts
  end.

(** ** Signing *)

Definition redacted {A} (operation : string) (r : result GoError A) : M (St := St) A :=
  match r with Ok a => mret a | Err e => mfail (redactedRPCError operation e) end.

(** [current != nil && current.X != nil && current.X.Cmp(base) > 0] *)
Definition raise_base (current : option Z) (base : Z) : Z :=
  match current with Some c => if base <? c then c else base | None => base end.

Definition suggestGasPrice (chainId : Z) (currentGasPrice : option GasFee) (coef : Z) : M (St := St) GasFee :=
  if negb (bool_decide (chainId ∈ m_clients m))
  then mfail (errors_New ("no client found for chainId: " +:+ pretty chainId))
  else
    let! answer := ask (fun n => env_gas_price n chainId) in
    let! suggestedGasPrice := redacted ("suggesting gas price for chain " +:+ pretty chainId) answer in
    let gasPriceBase := raise_base (currentGasPrice ≫= GasPrice) suggestedGasPrice in
    mret {| GasPrice := Some (bumpGasPrice (Some gasPriceBase) coef); GasTipCap := None; GasFeeCap := None |}.

Definition suggestEIP1559GasFee (chainId : Z) (currentGasPrice : option GasFee) (coef : Z) : M (St := St) GasFee :=
  if negb (bool_decide (chainId ∈ m_clients m))
  then mfail (errors_New ("no client found for chainId: " +:+ pretty chainId))
  else
    let! answer := ask (fun n => env_header n chainId) in
    let! header := redacted ("getting latest block header for chain " +:+ pretty chainId) answer in
    match header with
    | None | Some None =>
        mfail (errors_New "client returned a block header without a base fee, EIP-1559 may not be supported")
    | Some (Some baseFee) =>
        let! answer := ask (fun n => env_tip_cap n chainId) in
        let! suggestedGasTipCap := redacted ("suggesting gas tip cap for chain " +:+ pretty chainId) answer in
        let gasTipCapBase := raise_base (currentGasPrice ≫= GasTipCap) suggestedGasTipCap in
        let gasTipCapToUse := bumpGasPrice (Some gasTipCapBase) coef in
        let gasFeeCap := baseFee * 2 + gasTipCapToUse in
        let gasFeeCap :=
          match currentGasPrice ≫= GasFeeCap with
          | Some previous =>
              let bumpedPreviousFeeCap := bumpGasPrice (Some previous) coef in
              if gasFeeCap <? bumpedPreviousFeeCap then bumpedPreviousFeeCap else gasFeeCap
          | None => gasFeeCap
          end in
        mret {| GasPrice := None; GasTipCap := Some gasTipCapToUse; GasFeeCap := Some gasFeeCap |}
    end.

(** [uint256.MustFromBig]; it is applied to fees that [suggestEIP1559GasFee]
    has set and to a value that is zero when it is nil, so never to nil, whose
    dereference stands for what it would do. *)
Definition must_u256 (v : option Z) : M (St := St) Z :=
  let! v := deref v in
  match MustFromBig v with Some x => mret x | None => mpanic "overflow" end.

(** The fee the previous attempt was signed at. *)
Definition previous_fee (attempts : list TransactionAttempt) : M (St := St) (option GasFee) :=
  match last attempts with
  | None => mret None
  | Some a => let! t := deref (at_Tx a) in mret (Some (attempt_fee t))
  end.

Definition signAttempt (tx : Transaction) (attempts : list TransactionAttempt) (feeFloor : option GasFee) :
    M (St := St) SignedTx :=
  if negb (m_getTransactOpts m) then mfail (errors_New "transact options provider is nil")
  else
    let! answer := ask (fun n => env_opts n (tx_ChainID tx)) in
    let! auth := wrap_err (fun e => Errorf_w "loading transact options: " e "") (lift answer) in
    match auth with
    | None => mfail (errors_New "transact options are nil")
    | Some auth =>
        if negb (bool_decide (From auth = m_sender m)) then
          mfail (errors_New ("transact signer " +:+ Address_Hex (From auth) +:+
            " differs from nonce-lane sender " +:+ Address_Hex (m_sender m)))
        else
          let value := default 0 (tx_Value tx) in
          let attemptNumber := Z.of_nat (length attempts) + 1 in
          let! currentFee := previous_fee attempts in
          let currentFee := highestGasFee currentFee feeFloor in
          match tx_RawAuthorizations tx with
          | _ :: _ =>
              let! fee := wrap_err (fun e => Errorf_w "suggesting EIP-1559 gas fee: " e "")
                            (suggestEIP1559GasFee (tx_ChainID tx) currentFee (priorityCoefficient * attemptNumber)) in
              let! nonce := deref (tx_AssignedNonce tx) in
              let! tip := must_u256 (GasTipCap fee) in
              let! cap := must_u256 (GasFeeCap fee) in
              let! value := must_u256 (Some value) in
              lift (Signer auth (From auth)
                (SetCodeTx (tx_Address tx) nonce tip cap (tx_GasLimit tx) (tx_Data tx) value (tx_RawAuthorizations tx)))
          | [] =>
              let! fee := wrap_err (fun e => Errorf_w "suggesting gas price: " e "")
                            (suggestGasPrice (tx_ChainID tx) currentFee (priorityCoefficient * attemptNumber)) in
              let! nonce := deref (tx_AssignedNonce tx) in
              lift (Signer auth (From auth)
                (LegacyTx (tx_Address tx) nonce (GasPrice fee) (tx_GasLimit tx) (tx_Data tx) value))
          end
    end.

(** The loop of [persistUniqueAttempt]; [remaining] iterations are left, and
    [previousHash] is [None] on the first one. *)
Fixpoint persistUniqueAttempt_loop (remaining : nat) (previousHash : option Hash) (collisionFeeFloor : option GasFee)
    (tx : Transaction) (attempts : list TransactionAttempt) : M (St := St) TransactionAttempt :=
  match remaining with
  | O => mfail (Errorf_w ("persisting a unique signed attempt after " +:+
                  pretty (Z.of_nat maxHashCollisionResigns) +:+ " collisions: ") ErrAttemptHashConflict_v "")
  | S remaining' =>
      let! signedTx := wrap_err (fun e => Errorf_w "signing transaction attempt: " e "")
                         (signAttempt tx attempts collisionFeeFloor) in
      let! now := now in
      let attempt := {| at_TransactionID := tx_ID tx; at_Hash := geth_Hash signedTx; at_Nonce := geth_Nonce signedTx;
                        at_Tx := Some signedTx; at_CreatedAt := now |} in
      let! inserted := mtry (db_InsertAttempt attempt) in
      match inserted with
      | Ok _ => mret attempt
      | Err insertErr =>
          if negb (Is insertErr ErrAttemptHashConflict) then
            mfail (Errorf_w "persisting signed attempt: " insertErr "")
          else if bool_decide (previousHash = Some (at_Hash attempt)) then
            mfail (Errorf_w ("re-signing above the durable fee floor did not change hash " +:+
                     Hash_Hex (at_Hash attempt) +:+ ": ") insertErr "")
          else
            let! laneAttempts := wrap_err (fun e => Errorf_w "loading durable nonce attempt history: " e "")
                                   (db_SelectAttemptsByNonce (tx_ChainID tx) (at_Nonce attempt)) in
            let! floor := wrap_err (fun e => Errorf_w "deriving collision fee floor: " e "")
                            (lift (highestAttemptFee laneAttempts (m_sender m) (tx_ChainID tx) (geth_Type signedTx))) in
            match floor with
            | None => mfail (Errorf_w "" ErrAttemptHashConflict_v (": conflicting hash " +:+
                        Hash_Hex (at_Hash attempt) +:+ " is absent from durable lane history"))
            | Some _ => persistUniqueAttempt_loop remaining' (Some (at_Hash attempt)) floor tx attempts
            end
      end
  end.

Definition persistUniqueAttempt (tx : Transaction) (attempts : list TransactionAttempt) : M (St := St) TransactionAttempt :=
  persistUniqueAttempt_loop maxHashCollisionResigns None None tx attempts.

(** ** Broadcasting *)

Record broadcastPolicy := mkPolicy { firstAttemptThisPass : bool; nonceReleasable : bool }.

Definition reconcileRejectedSubmission (tx : Transaction) (attempts : list TransactionAttempt) (at_now : Time)
    (canReleaseNonce : bool) : M (St := St) unit :=
  let! latest := latest_attempt attempts in
  let reason := tx_Msg tx in
  let! known := mtry (findKnownTransaction (tx_ChainID tx) attempts) in
  match known with
  | Err err =>
      scheduleRetryAfterBlock (set_Msg (appendReconciliationError (tx_Msg tx) (Some err)) tx) attempts
  | Ok (Some known) =>
      let tx := set_Tx (Some known) tx in
      let tx := set_Msg "" tx in
      let tx := set_BroadcastPending false tx in
      let tx := set_RejectedAttemptHash None tx in
      scheduleNextCheck tx attempts
  | Ok None =>
      let! pendingNonce := ask (fun n => env_pending_nonce n (tx_ChainID tx) (m_sender m)) in
      match pendingNonce with
      | Err err =>
          let detail := errors_New ("pending nonce: " +:+ rpcErrorSummary (Some err)) in
          scheduleRetryAfterBlock (set_Msg (appendReconciliationError (tx_Msg tx) (Some detail)) tx) attempts
      | Ok pendingNonce =>
          if pendingNonce =? at_Nonce latest then
            if negb canReleaseNonce then
              do! emit (EvBarrier (tx_ChainID tx) LaneBarrierRejectionNotTip) in
              scheduleRetryAfterBlock tx attempts
            else
              let tx := set_AssignedNonce None tx in
              let tx := set_BroadcastPending false tx in
              do! abandonTransaction tx reason in
              mfail errLaneStateChanged_v
          else if at_Nonce latest <? pendingNonce then
            let tx := set_NonceConsumedAt (Some at_now) tx in
            let tx := set_BroadcastPending false tx in
            let tx := set_RejectedAttemptHash None tx in
            scheduleNextCheck tx attempts
          else
            do! emit (EvBarrier (tx_ChainID tx) LaneBarrierRejectionNodeBehind) in
            scheduleRetryAfterBlock tx attempts
      end
  end.

(** The durable fields a send failure changes, before any reconciliation. *)
Definition record_disposition (disposition : broadcastErrorDisposition) (reason : string) (hash : string)
    (mayReconcile : bool) (at_now : Time) (tx : Transaction) : Transaction :=
  let tx := set_RejectedAttemptHash None tx in
  match disposition with
  | broadcastAlreadyKnown => set_BroadcastPending false (set_Msg "" tx)
  | broadcastNonceConsumed =>
      set_BroadcastPending false (set_NonceConsumedAt (Some at_now) (set_Msg reason tx))
  | broadcastFeeRejected => set_BroadcastPending false (set_Msg reason tx)
  | broadcastTransactionRejectedPermanent =>
      let tx := set_BroadcastPending (negb mayReconcile) (set_Msg reason tx) in
      if mayReconcile then set_RejectedAttemptHash (Some hash) tx else tx
  | broadcastTransactionRejectedRetryable => set_BroadcastPending true (set_Msg reason tx)
  | broadcastAmbiguous => set_BroadcastPending true (set_Msg ("ambiguous " +:+ reason) tx)
  end.

Definition handleBroadcastFailure (tx : Transaction) (attempts : list TransactionAttempt) (sendErr : GoError)
    (policy : broadcastPolicy) : M (St := St) unit :=
  let! latest := latest_attempt attempts in
  let! at_now := now in
  let reconcileAfter := at_CreatedAt latest + recoveredAttemptRejectionGrace in
  let mayReconcile := (firstAttemptThisPass policy && nonceReleasable policy) || negb (at_now <? reconcileAfter) in
  let safeErr := rpcErrorSummary (Some sendErr) in
  let reason := broadcastAttemptReason (Hash_Hex (at_Hash latest)) safeErr in
  let disposition := classifyBroadcastError (Some sendErr) in
  let rejected := bool_decide (disposition = broadcastTransactionRejectedPermanent) in
  let tx := record_disposition disposition reason (Hash_Hex (at_Hash latest)) mayReconcile at_now tx in
  do! (match tx_RejectedAttemptHash tx with
       | Some _ => scheduleNextCheck tx attempts
       | None => mret tt
       end) in
  let! found := findKnownReceipt (tx_ChainID tx) attempts None in
  match found with
  | (Some (receipt, winner), _) => finalizeTransaction tx winner receipt
  | (None, Some receiptErr) =>
      let tx := set_Msg (appendReconciliationError (tx_Msg tx) (Some receiptErr)) tx in
      let notBefore :=
        if rejected then
          if mayReconcile then at_now + blockTime (tx_ChainID tx) else reconcileAfter
        else time_zero in
      scheduleNextCheckNotBefore tx attempts notBefore
  | (None, None) =>
      if rejected then
        if mayReconcile then reconcileRejectedSubmission tx attempts at_now (nonceReleasable policy)
        else scheduleNextCheckNotBefore tx attempts reconcileAfter
      else scheduleNextCheck tx attempts
  end.

Definition send_transaction (chainID : Z) (t : SignedTx) : M (St := St) (option GoError) :=
  do! emit (EvSend chainID t) in ask (fun n => env_send n chainID t).

Definition broadcastAndSchedule (tx : Transaction) (attempts : list TransactionAttempt) (policy : broadcastPolicy) :
    M (St := St) unit :=
  let! latest := latest_attempt attempts in
  let! t := deref (at_Tx latest) in
  let! err := send_transaction (tx_ChainID tx) t in
  match err with
  | Some err => handleBroadcastFailure tx attempts err policy
  | None =>
      let tx := set_Msg "" tx in
      let tx := set_BroadcastPending false tx in
      let tx := set_RejectedAttemptHash None tx in
      scheduleNextCheck tx attempts
  end.

Definition createAndBroadcastAttempt (tx : Transaction) (attempts : list TransactionAttempt) (canReleaseNonce : bool) :
    M (St := St) unit :=
  match tx_AssignedNonce tx with
  | None => mfail (errors_New "cannot sign transaction without an assigned nonce")
  | Some _ =>
      let firstAttempt := match attempts with [] => true | _ => false end in
      let! attempt := persistUniqueAttempt tx attempts in
      let now := at_CreatedAt attempt in
      let attempts := attempts ++ [attempt] in
      let tx := set_Tx (at_Tx attempt) tx in
      let tx := set_Status ConfirmingTxStatus tx in
      let tx := set_BroadcastPending true tx in
      let tx := set_RejectedAttemptHash None tx in
      let tx := set_NextActionAt (now + blockTime (tx_ChainID tx)) tx in
      let tx := set_Msg "" tx in
      let tx := set_UpdatedAt now tx in
      do! wrap_err (fun e => Errorf_w "persisting canonical transaction attempt: " e "") (db_UpdateIfActive tx) in
      broadcastAndSchedule tx attempts {| firstAttemptThisPass := firstAttempt; nonceReleasable := canReleaseNonce |}
  end.

Definition pollConsumedNonce (tx : Transaction) (attempts : list TransactionAttempt) : M (St := St) unit :=
  let! consumedAt := deref (tx_NonceConsumedAt tx) in
  let! now := now in
  if consumedNonceGrace <? now - consumedAt then
    let nonce := default 0 (tx_AssignedNonce tx) in
    abandonTransaction tx ("nonce " +:+ pretty nonce +:+
      " was consumed by another transaction and no attempt was mined")
  else scheduleNextCheck tx attempts.

(** ** One step *)

(** Loading the durable attempts, and the recovery of rows written before
    attempts existed. *)
Definition step_load (tx : Transaction) : M (St := St) (Transaction * list TransactionAttempt) :=
  if negb (bool_decide (tx_ChainID tx ∈ m_clients m)) then
    mfail (Errorf_w ("no client configured for chain " +:+ pretty (tx_ChainID tx) +:+ ": ")
             errTransactionUnprocessable_v "")
  else
    let! attempts := wrap_err (fun e => Errorf_w "loading signed attempts: " e "")
                       (db_SelectAttempts (tx_ID tx)) in
    match attempts, tx_Tx tx with
    | [], Some raw =>
        let! createdAt := (if tx_UpdatedAt tx =? time_zero then now else mret (tx_UpdatedAt tx)) in
        let legacyAttempt := {| at_TransactionID := tx_ID tx; at_Hash := geth_Hash raw; at_Nonce := geth_Nonce raw;
                                at_Tx := Some raw; at_CreatedAt := createdAt |} in
        match validatePersistedAttempts [legacyAttempt] with
        | Err err =>
            mfail (Errorf_ww "validating legacy signed attempt: " err ": " errTransactionUnprocessable_v "")
        | Ok _ =>
            do! wrap_err (fun e => Errorf_w "recovering legacy signed attempt: " e "")
                  (db_InsertAttempt legacyAttempt) in
            mret (set_BroadcastPending true tx, [legacyAttempt])
        end
    | _, _ => mret (tx, attempts)
    end.

(** What reconciling against the durable attempts leaves to do: [None] when the
    step finished with a terminal write, otherwise the repaired row and whether a
    receipt read failed. *)
Definition step_reconcile (tx : Transaction) (attempts : list TransactionAttempt) :
    M (St := St) (option (Transaction * bool)) :=
  let storedSender := tx_Sender tx in
  let storedNonce := tx_AssignedNonce tx in
  match attempts with
  | [] =>
      let tx := if bool_decide (tx_Sender tx = address_zero) then set_Sender (m_sender m) tx else tx in
      mret (Some (tx, false))
  | _ =>
      match validatePersistedAttempts attempts with
      | Err validationErr => mfail (Errorf_ww "" validationErr ": " errTransactionUnprocessable_v "")
      | Ok (attemptSender, nonce) =>
          let tx := set_Sender attemptSender tx in
          let tx := set_AssignedNonce (Some nonce) tx in
          let tx := set_Status ConfirmingTxStatus tx in
          do! (if bool_decide (attemptSender = m_sender m) then lane_observe nonce else mret tt) in
          let! latest := latest_attempt attempts in
          let! latestTx := deref (at_Tx latest) in
          let stale := match tx_Tx tx with
                       | None => true
                       | Some t => negb (bool_decide (geth_Hash t = geth_Hash latestTx))
                       end in
          let tx := if stale then set_BroadcastPending true (set_Tx (Some latestTx) tx) else tx in
          let! found := findKnownReceipt (tx_ChainID tx) attempts None in
          match found with
          | (Some (receipt, winner), _) => do! finalizeTransaction tx winner receipt in mret None
          | (None, receiptErr) =>
              let tx := match receiptErr with
                        | Some _ => set_Msg (appendReconciliationError (tx_Msg tx) receiptErr) tx
                        | None => tx
                        end in
              let receiptReadFailed := match receiptErr with Some _ => true | None => false end in
              if match storedNonce with Some n => negb (n =? nonce) | None => false end then
                mfail (Errorf_w ("assigned nonce " +:+ pretty (default 0 storedNonce) +:+
                  " differs from signed attempt nonce " +:+ pretty nonce +:+ ": ") errTransactionUnprocessable_v "")
              else if negb (bool_decide (storedSender = address_zero)) && negb (bool_decide (storedSender = attemptSender)) then
                mfail (Errorf_w ("persisted sender " +:+ Address_Hex storedSender +:+
                  " differs from signed attempt sender " +:+ Address_Hex attemptSender +:+ ": ") errTransactionUnprocessable_v "")
              else mret (Some (tx, receiptReadFailed))
          end
      end
  end.

(** [tx.RejectedAttemptHash != nil] *)
Definition step_rejected (tx : Transaction) (attempts : list TransactionAttempt) (receiptReadFailed : bool)
    (rejected : string) : M (St := St) unit :=
  match last attempts, tx_AssignedNonce tx with
  | Some latest, Some nonce =>
      if negb (String.eqb rejected (Hash_Hex (at_Hash latest))) then
        mfail (Errorf_w "persisted rejection does not match the latest assigned attempt: " errTransactionUnprocessable_v "")
      else if receiptReadFailed then scheduleRetryAfterBlock tx attempts
      else
        let! at_now := now in
        let! lane := get_lane in
        reconcileRejectedSubmission tx attempts at_now (isTip nonce lane)
  | _, _ =>
      mfail (Errorf_w "persisted rejection does not match the latest assigned attempt: " errTransactionUnprocessable_v "")
  end.

Definition tip_or_unassigned (tx : Transaction) (lane : nonceLane) : bool :=
  match tx_AssignedNonce tx with None => true | Some n => isTip n lane end.

(** The admission hook: [true] when the step may go on. *)
Definition step_admission (tx : Transaction) (attempts : list TransactionAttempt) : M (St := St) bool :=
  if negb (m_beforeAttempt m) then mret true
  else
    let signed := match attempts with [] => false | _ => true end in
    let! answer := ask (fun n => env_gate n tx signed) in
    let '(retryAt, admissionErr) := answer in
    let! lane := get_lane in
    match admissionErr with
    | Some e =>
        if Is e ErrUnsignedTransactionExpired && negb signed && tip_or_unassigned tx lane then
          let tx := set_AssignedNonce None tx in
          do! abandonTransaction tx "unsigned transaction expired before signing" in
          mfail errLaneStateChanged_v
        else mfail (Errorf_w "attempt admission: " e "")
    | None =>
        let! at_now := now in
        if at_now <? retryAt then
          let tx := set_Msg "attempt deferred by application admission" tx in
          do! scheduleNextCheckNotBefore tx attempts retryAt in mret false
        else mret true
    end.

(** Reserving and persisting a nonce for an unassigned row. *)
Definition step_assign (tx : Transaction) : M (St := St) Transaction :=
  match tx_AssignedNonce tx with
  | Some _ => mret tx
  | None =>
      let! answer := ask (fun n => env_pending_nonce n (tx_ChainID tx) (m_sender m)) in
      let! rpcNonce := redacted "getting pending nonce" answer in
      let! lane := get_lane in
      let '(nonce, ready) := reserve rpcNonce lane in
      if negb ready then
        do! emit (EvBarrier (tx_ChainID tx) LaneBarrierRPCNonceBehind) in
        mfail (Errorf_w "" errLaneAwaitingNodeNonce_v (": node pending nonce " +:+ pretty rpcNonce +:+
                 " is behind durable next nonce " +:+ pretty (next lane)))
      else
        let tx := set_AssignedNonce (Some nonce) tx in
        let tx := set_Status ProcessingTxStatus tx in
        let! updatedAt := now in
        let tx := set_UpdatedAt updatedAt tx in
        do! wrap_err (fun e => Errorf_w "persisting assigned nonce: " e "") (db_UpdateIfActive tx) in
        do! lane_observe nonce in
        mret tx
  end.

(** [lane.isTip( *tx.AssignedNonce )] *)
Definition lane_isTip (tx : Transaction) : M (St := St) bool :=
  let! nonce := deref (tx_AssignedNonce tx) in
  let! lane := get_lane in
  mret (isTip nonce lane).

(** Signing, replacing or rebroadcasting, once the row may proceed. *)
Definition step_dispatch (tx : Transaction) (attempts : list TransactionAttempt) : M (St := St) unit :=
  let! tx := step_assign tx in
  match attempts with
  | [] =>
      let! tip := lane_isTip tx in
      createAndBroadcastAttempt tx attempts tip
  | _ =>
      if Z.of_nat (length attempts) <? maxFeeReplacements
      then createAndBroadcastAttempt tx attempts false
      else
        let! tip := lane_isTip tx in
        broadcastAndSchedule tx attempts {| firstAttemptThisPass := false; nonceReleasable := tip |}
  end.

Definition step_attempt (tx : Transaction) (attempts : list TransactionAttempt) : M (St := St) unit :=
  let resumeBroadcast := match attempts with [] => false | _ => tx_BroadcastPending tx end in
  if bool_decide (is_Some (tx_NonceConsumedAt tx)) && negb resumeBroadcast then pollConsumedNonce tx attempts
  else
    let! waiting :=
      (match last attempts with
       | Some latest =>
           if tx_BroadcastPending tx then mret false
           else let! at_now := now in mret (at_now <? nextBumpAt (tx_ChainID tx) latest)
       | None => mret false
       end) in
    if (waiting : bool) then scheduleNextCheck tx attempts
    else
      let! admitted := step_admission tx attempts in
      if negb admitted then mret tt
      else if resumeBroadcast then
        let! tip := lane_isTip tx in
        broadcastAndSchedule tx attempts {| firstAttemptThisPass := false; nonceReleasable := tip |}
      else step_dispatch tx attempts.

Definition processTransactionStep (tx : Transaction) : M (St := St) unit :=
  let! loaded := step_load tx in
  let '(tx, attempts) := loaded in
  let! reconciled := step_reconcile tx attempts in
  match reconciled with
  | None => mret tt
  | Some (tx, receiptReadFailed) =>
      if negb (bool_decide (tx_Sender tx = m_sender m)) then
        mfail (Errorf_w ("persisted sender " +:+ Address_Hex (tx_Sender tx) +:+
          " differs from manager sender " +:+ Address_Hex (m_sender m) +:+ ": ") errTransactionUnprocessable_v "")
      else
        match tx_RejectedAttemptHash tx with
        | Some rejected => step_rejected tx attempts receiptReadFailed rejected
        | None => step_attempt tx attempts
        end
  end.
End step.
