(* ===== verification/Replacement.v ===== *)
(** * Replacements outbid (evm/txmngr/txmngr.go, signAttempt and the fee helpers)

    A node accepts a transaction at an occupied nonce only above the fee of the
    one it replaces.  What [signAttempt] hands to the signer carries the row's
    payload and outbids the previous attempt and the whole durable history of
    the nonce. *)
From S2P Require Export Manager.
Local Open Scope Z_scope.
Local Open Scope go_scope.

(** [q] replaces [p]: at least [coef] percent above, and strictly above. *)
Definition outbid (coef p q : Z) : Prop := (0 <= p -> p * (100 + coef) / 100 <= q) /\ (0 < p -> p < q).

Lemma bump_outbids coef p base : 0 <= coef -> p <= base -> outbid coef p (bumpGasPrice (Some base) coef).
Proof.
  intros Hc Hp. split; intros H.
  - transitivity (base * (100 + coef) / 100); [apply Z.div_le_mono; nia|]. apply bumpGasPrice_percent; lia.
  - pose proof (bumpGasPrice_strict base coef). lia.
Qed.

Lemma outbid_le coef p q q' : outbid coef p q -> q <= q' -> outbid coef p q'.
Proof. intros [H1 H2] H. split; intros; [specialize (H1 H0)|specialize (H2 H0)]; lia. Qed.

Section history.
Context `{G : GoEthereum}.

(** The floor derived from a history dominates every attempt it counts. *)
Lemma highestAttemptFee_from_ub history sender chainID txType f0 floor :
  highestAttemptFee_from f0 history sender chainID txType = Ok floor ->
  (forall f, f0 = Some f -> exists g, floor = Some g /\ fee_le f g) /\
  forall a t, a ∈ history -> own_attempt sender chainID txType a t -> exists g, floor = Some g /\ fee_le (attempt_fee t) g.
Proof.
  revert f0. induction history as [|a history IH]; intros f0 H; cbn [highestAttemptFee_from] in H.
  { injection H as <-. split; [intros f ->; by exists f|]. intros a t Ha. by apply elem_of_nil in Ha. }
  destruct (at_Tx a) as [t|] eqn:Et; [|done].
  assert (Hskip : highestAttemptFee_from f0 history sender chainID txType = Ok floor -> ~ own_attempt sender chainID txType a t ->
    (forall f, f0 = Some f -> exists g, floor = Some g /\ fee_le f g) /\
    forall b u, b ∈ a :: history -> own_attempt sender chainID txType b u -> exists g, floor = Some g /\ fee_le (attempt_fee u) g).
  { intros H' Hn. apply IH in H' as [H1 H2]. split; [done|]. intros b u [->|Hb]%elem_of_cons Ho; [|by eapply H2].
    destruct Hn. destruct Ho as (E & ?). rewrite Et in E. injection E as <-. by split. }
  destruct (foreign_chain _ _) eqn:Ef; [apply Hskip; [done|]; intros (_ & E & _); congruence|].
  destruct (geth_Type t =? txType) eqn:Ety; cbn [orb negb] in H; [|apply Hskip; [done|]; intros (_ & _ & E & _); lia].
  destruct (geth_Sender (geth_ChainId t) t) as [s|e] eqn:Es; [|done].
  case_bool_decide as Hs; cbn [negb] in H; [|apply Hskip; [done|]; intros (_ & _ & _ & E); congruence].
  case_bool_decide; cbn [negb] in H; [|done].
  destruct (geth_Nonce t =? at_Nonce a); cbn [negb] in H; [|done].
  apply IH in H as [H1 H2]. destruct (highestGasFee_Some f0 (attempt_fee t)) as [g Hg].
  destruct (highestGasFee_ub _ _ _ Hg) as [U1 U2]. destruct (H1 g Hg) as (g' & -> & Hle). split.
  - intros f ->. exists g'. split; [done|]. etrans; [by apply U1|done].
  - intros b u [->|Hb]%elem_of_cons Ho; [|by eapply H2].
    destruct Ho as (E & _). rewrite Et in E. injection E as <-. exists g'. split; [done|]. etrans; [by apply U2|done].
Qed.

End history.

Section signing.
Context `{G : GoEthereum} `{GL : !GoEthereumLaws G} `{Q : !TransactionsQ St} `{V : !Env} `{U : UnicodeTables}.
Variable m : txManager.

Lemma mbind_Val {A B} (x : M (St := St) A) (k : A -> M (St := St) B) w b w' :
  mbind x k w = (Val b, w') -> exists a w1, x w = (Val a, w1) /\ k a w1 = (Val b, w').
Proof. unfold mbind. destruct (x w) as [[a|e|p] w1]; [|done..]. intros H. by exists a, w1. Qed.

Lemma wrap_Val {A} f (x : M (St := St) A) w b w' : wrap_err f x w = (Val b, w') -> x w = (Val b, w').
Proof. unfold wrap_err. by destruct (x w) as [[a|e|p] w1]. Qed.

Lemma redacted_Val {A} op (r : result GoError A) (w : World St) b w' :
  redacted op r w = (Val b, w') -> r = Ok b.
Proof. unfold redacted, mret, mfail. by destruct r; [intros [= -> _]|]. Qed.

Lemma deref_Val {A} (p : option A) (w : World St) b w' : deref p w = (Val b, w') -> p = Some b.
Proof. unfold deref, mret, mpanic. by destruct p; [intros [= -> _]|]. Qed.

(** A conversion to 256 bits is modulo 2^256, and never lowers the number: one
    too large panics, a negative one wraps upwards. *)
Lemma must_u256_Val v (w : World St) b w' :
  must_u256 v w = (Val b, w') -> exists x, v = Some x /\ b = x mod 2 ^ 256 /\ x <= b.
Proof.
  unfold must_u256. intros (x & w1 & Hx%deref_Val & H)%mbind_Val. exists x. split; [done|].
  destruct (Z.lt_ge_cases (Z.abs x) (2 ^ 256)) as [Hlt|Hge].
  - rewrite (MustFromBig_wraps x Hlt) in H. injection H as <- _. split; [done|].
    destruct (Z.lt_ge_cases x 0); [|rewrite Z.mod_small; lia].
    pose proof (Z.mod_pos_bound x (2 ^ 256)). lia.
  - by rewrite (MustFromBig_overflows x Hge) in H.
Qed.

Lemma raise_base_ge f b : b <= raise_base f b /\ forall c, f = Some c -> c <= raise_base f b.
Proof. unfold raise_base. destruct f as [c|]; [|split; [lia|done]]. destruct (b <? c) eqn:E; split; try intros c' [= <-]; lia. Qed.

Lemma suggestGasPrice_outbids chainId current coef (w : World St) fee w' :
  0 <= coef -> suggestGasPrice m chainId current coef w = (Val fee, w') ->
  exists price, GasPrice fee = Some price /\ forall f p, current = Some f -> GasPrice f = Some p -> outbid coef p price.
Proof.
  intros Hc. unfold suggestGasPrice. case_bool_decide; [|done]. cbn [negb].
  intros (answer & w1 & _ & (s & w2 & _ & [= <- _])%mbind_Val)%mbind_Val. cbn [GasPrice]. eexists. split; [done|].
  intros f p -> Hp. apply bump_outbids; [done|]. by apply (raise_base_ge (Some f ≫= GasPrice) s).
Qed.

Lemma suggestEIP1559GasFee_outbids chainId current coef (w : World St) fee w' :
  0 <= coef -> suggestEIP1559GasFee m chainId current coef w = (Val fee, w') ->
  exists tip cap, GasTipCap fee = Some tip /\ GasFeeCap fee = Some cap /\
    forall f, current = Some f ->
      (forall p, GasTipCap f = Some p -> outbid coef p tip) /\ (forall p, GasFeeCap f = Some p -> outbid coef p cap).
Proof.
  intros Hc. unfold suggestEIP1559GasFee. case_bool_decide; [|done]. cbn [negb].
  intros (answer & w1 & _ & (header & w2 & _ & Hh)%mbind_Val)%mbind_Val.
  destruct header as [[baseFee|]|]; [|done..]. revert Hh.
  intros (answer' & w3 & _ & (s & w4 & _ & [= <- _])%mbind_Val)%mbind_Val. cbn [GasTipCap GasFeeCap].
  do 2 eexists. split; [done|]. split; [done|]. intros f ->. split; intros p Hp.
  - apply bump_outbids; [done|]. by apply (raise_base_ge (Some f ≫= GasTipCap) s).
  - change (Some f ≫= GasFeeCap) with (GasFeeCap f). rewrite Hp. eapply outbid_le; [by apply (bump_outbids coef p p)|].
    match goal with |- _ <= (if ?a <? ?b then _ else _) =>
      change b with (bumpGasPrice (Some p) coef); destruct (Z.ltb_spec a (bumpGasPrice (Some p) coef)); lia end.
Qed.

(** What is signed is the row's payload at nonce [nonce]; the value of a set-code
    transaction goes through 256 bits, so a negative one wraps. *)
Definition carries (tx : Transaction) (nonce : Z) (d : TxData) : Prop :=
  match d with
  | SetCodeTx to n _ _ gas data value auths =>
      to = tx_Address tx /\ n = nonce /\ gas = tx_GasLimit tx /\ data = tx_Data tx /\
      value = default 0 (tx_Value tx) mod 2 ^ 256 /\ auths = tx_RawAuthorizations tx /\ auths <> []
  | LegacyTx to n _ gas data value =>
      to = tx_Address tx /\ n = nonce /\ gas = tx_GasLimit tx /\ data = tx_Data tx /\ value = default 0 (tx_Value tx) /\
      tx_RawAuthorizations tx = []
  end.

(** Every fee of [d] outbids that of the signed transaction [t0]. *)
Definition outbids (coef : Z) (t0 : SignedTx) (d : TxData) : Prop :=
  match d with
  | SetCodeTx _ _ tip cap _ _ _ _ => outbid coef (geth_GasTipCap t0) tip /\ outbid coef (geth_GasFeeCap t0) cap
  | LegacyTx _ _ price _ _ _ => exists p, price = Some p /\ outbid coef (geth_GasPrice t0) p
  end.

(** The fee everything is measured against dominates an earlier transaction. *)
Lemma outbids_floor coef f t0 d : fee_le (attempt_fee t0) f ->
  match d with
  | SetCodeTx _ _ tip cap _ _ _ _ =>
      (forall p, GasTipCap f = Some p -> outbid coef p tip) /\ (forall p, GasFeeCap f = Some p -> outbid coef p cap)
  | LegacyTx _ _ price _ _ _ => exists q, price = Some q /\ forall p, GasPrice f = Some p -> outbid coef p q
  end -> 0 <= 100 + coef -> outbids coef t0 d.
Proof.
  intros (H1 & H2 & H3) H Hc. cbn [attempt_fee GasPrice GasTipCap GasFeeCap] in *.
  assert (Hle : forall x y q, opt_le (Some x) y -> (forall p, y = Some p -> outbid coef p q) -> outbid coef x q).
  { intros x [y|] q Hxy Hy; [|done]. simpl in Hxy. destruct (Hy y eq_refl) as [A B]. split; intros Hx.
    - etrans; [|by apply A; lia]. apply Z.div_le_mono; nia.
    - specialize (B ltac:(lia)). lia. }
  destruct d; simpl in *; [destruct H; eauto|]. destruct H as (q & -> & H). exists q. eauto.
Qed.

(** C6: A replacement outbids. When an attempt is signed for a row that has
    attempts, above a floor derived from the nonce's durable history, the signer
    of the manager's account is given the row's payload at its assigned nonce
    (its value exactly, or modulo 2^256 in a set-code transaction, which holds
    256 bits), and every fee in it is at least 15 percent per attempt above, and
    strictly above, the previous attempt's and that of every transaction of the
    account and type in the history, whatever the node suggests. *)
Theorem signAttempt_outbids tx attempts history txType floor (w : World St) t w'
    (Hf : highestAttemptFee history (m_sender m) (tx_ChainID tx) txType = Ok floor)
    (H : signAttempt m tx attempts floor w = (Val t, w')) :
  exists k auth nonce d,
    env_opts k (tx_ChainID tx) = Ok (Some auth) /\ From auth = m_sender m /\ Signer auth (m_sender m) d = Ok t /\
    tx_AssignedNonce tx = Some nonce /\ carries tx nonce d /\
    forall t0, (exists a, last attempts = Some a /\ at_Tx a = Some t0) \/
               (exists a, a ∈ history /\ own_attempt (m_sender m) (tx_ChainID tx) txType a t0) ->
      outbids (priorityCoefficient * (Z.of_nat (length attempts) + 1)) t0 d.
Proof.
  apply highestAttemptFee_from_ub in Hf as [_ Hf]. revert H. unfold signAttempt.
  set (coef := priorityCoefficient * (Z.of_nat (length attempts) + 1)).
  assert (Hc : 0 <= coef) by (unfold coef, priorityCoefficient; lia).
  destruct (m_getTransactOpts m); [cbn [negb]|done].
  intros (answer & w1 & [= <- <-] & (opts & w2 & Ho%wrap_Val & H)%mbind_Val)%mbind_Val.
  destruct (env_opts (w_tick w) (tx_ChainID tx)) as [o|e] eqn:Eo; [|done]. injection Ho as <- <-.
  destruct o as [auth|]; [|done]. case_bool_decide as Ha; [cbn [negb] in H|done].
  apply mbind_Val in H as (prev & w3 & Hprev & H).
  assert (Hdom : forall t0, (exists a, last attempts = Some a /\ at_Tx a = Some t0) \/
      (exists a, a ∈ history /\ own_attempt (m_sender m) (tx_ChainID tx) txType a t0) ->
      exists f, highestGasFee prev floor = Some f /\ fee_le (attempt_fee t0) f).
  { intros t0 [(a & Hl & Ht)|(a & Hin & Hown)].
    - unfold previous_fee in Hprev. rewrite Hl in Hprev. apply mbind_Val in Hprev as (u & w4 & Hu%deref_Val & [= <- _]).
      rewrite Ht in Hu. injection Hu as <-. destruct (highestGasFee (Some (attempt_fee t0)) floor) as [f|] eqn:E; [|by destruct floor].
      exists f. split; [done|]. by apply (proj1 (highestGasFee_ub _ _ _ E)).
    - destruct (Hf a t0 Hin Hown) as (g & -> & Hle). destruct (highestGasFee_Some prev g) as [f E]. exists f. split; [done|].
      etrans; [done|]. by apply (proj2 (highestGasFee_ub _ _ _ E)). }
  exists (w_tick w), auth. destruct (tx_RawAuthorizations tx) as [|au aus] eqn:Ea.
  - apply mbind_Val in H as (fee & w4 & (price & Hp & Hout)%wrap_Val%suggestGasPrice_outbids & H); [|done].
    apply mbind_Val in H as (nonce & w5 & Hn%deref_Val & H). rewrite Hp in H.
    eexists nonce, (LegacyTx _ _ _ _ _ _). split; [done|]. split; [done|]. rewrite <- Ha.
    destruct (Signer auth (From auth) _) as [t'|] eqn:Es; [|done]. injection H as -> _. split; [exact Es|].
    split; [done|]. split; [done|]. rewrite Ha. intros t0 Ht0. destruct (Hdom t0 Ht0) as (f & Hfl & Hle).
    apply (outbids_floor coef f); [done| |lia]. exists price. split; [done|]. intros p Hfp. by apply (Hout f).
  - apply mbind_Val in H as (fee & w4 & (tip & cap & Htip & Hcap & Hout)%wrap_Val%suggestEIP1559GasFee_outbids & H); [|done].
    apply mbind_Val in H as (nonce & w5 & Hn%deref_Val & H).
    apply mbind_Val in H as (tip' & w6 & Ht%must_u256_Val & H). apply mbind_Val in H as (cap' & w7 & Hca%must_u256_Val & H).
    apply mbind_Val in H as (v' & w8 & Hv%must_u256_Val & H).
    destruct Ht as (tip0 & Ht & _ & Htle), Hca as (cap0 & Hca & _ & Hcle), Hv as (v0 & [= <-] & Hv & _).
    rewrite Htip in Ht. rewrite Hcap in Hca. injection Ht as <-. injection Hca as <-.
    eexists nonce, (SetCodeTx _ _ _ _ _ _ _ _). split; [done|]. split; [done|]. rewrite <- Ha.
    destruct (Signer auth (From auth) _) as [t'|] eqn:Es; [|done]. injection H as -> _. split; [exact Es|].
    split; [done|]. split; [cbn [carries]; rewrite Ea; by split_and!|]. rewrite Ha. intros t0 Ht0. destruct (Hdom t0 Ht0) as (f & Hfl & Hle).
    apply (outbids_floor coef f); [done| |lia]. destruct (Hout f Hfl) as [O1 O2].
    split; intros p Hp; (eapply outbid_le; [|done]); auto.
Qed.

End signing.
