(* ===== verification/Batch.v ===== *)
(** * Lane batches (evm/txmngr/txmngr.go)

    [processLaneBatch]: take the lane lock, read the durable high-water mark,
    select the due rows in lane order, advance them one by one; and
    [rescheduleTransaction], [nextWorkChainIDs] and [processTxs] around it.
    Failures are only logged; logging is not modelled. *)
From S2P Require Export Manager.
Local Open Scope Z_scope.
Local Open Scope go_scope.

Definition maxChainWorkers : Z := 4.
Definition maxTransactionsPerLane : Z := 25.

(** ** Which chains a tick works on *)

(** [slices.Sorted(maps.Keys(m.clients))] *)
Definition sorted_chains (clients : gset Z) : list Z := sort_stable Z.compare (elements clients).

(** The chains selected, and the new [m.nextChainIndex]. *)
Definition nextWorkChainIDs (clients : gset Z) (nextChainIndex limit : Z) : list Z * Z :=
  let chainIDs := sorted_chains clients in
  let len := Z.of_nat (length chainIDs) in
  if (len =? 0) || (limit <=? 0) then ([], nextChainIndex)
  else
    let limit := Z.min limit len in
    let start := nextChainIndex mod len in
    let selected := map (fun offset => default 0 (chainIDs !! Z.to_nat ((start + Z.of_nat offset) mod len)))
                        (seq 0 (Z.to_nat limit)) in
    (selected, (start + limit) mod len).

Section batch.
Context `{G : GoEthereum} `{Q : !TransactionsQ St} `{V : !Env} `{U : UnicodeTables}.
Variable m : txManager.

(** [defer f()]: runs [f] however [c] ends, and keeps [c]'s outcome. *)
Definition mdefer {A} (f : M (St := St) unit) (c : M (St := St) A) : M (St := St) A := fun w =>
  let '(r, w1) := c w in
  let '(_, w2) := f w1 in (r, w2).

(** [lane := &nonceLane{...}] *)
Definition set_lane (l : nonceLane) : M (St := St) unit := fun w => (Val tt, put_lane l w).

(** [if ctx.Err() != nil { return }] around the rest. *)
Definition unless_cancelled (k : M (St := St) unit) : M (St := St) unit :=
  let! c := ctx_err in match c with Some _ => mret tt | None => k end.

(** The row a failed step is put off with. *)
Definition rescheduled (cause : GoError) (next updated : Time) (current : Transaction) : Transaction :=
  let tx := set_Msg (transactionMessageTail (Error cause)) current in
  let tx := set_NextActionAt next tx in
  let tx := set_UpdatedAt updated tx in
  match tx_Tx tx, tx_AssignedNonce tx with
  | None, None => tx
  | _, _ => set_Status ConfirmingTxStatus tx
  end.

Definition rescheduleTransaction (tx : Transaction) (cause : GoError) : M (St := St) unit :=
  let! current := mtry (db_Get {| qr_filters := [FilterByIds [tx_ID tx]]; qr_order := orderNone; qr_limit := 0 |}) in
  match current with
  | Err _ => mret tt
  | Ok current =>
      if IsCompleted current then mret tt
      else
        let! at_now := now in
        let! updatedAt := now in
        do! mtry (db_UpdateIfActive
              (rescheduled cause (at_now + blockTime m (tx_ChainID current)) updatedAt current)) in
        mret tt
  end.

(** What the loop does after a step that ended with [err]. *)
Inductive verdict := Continue | Stop | Reschedule (continue : bool).

Definition after_step (err : option GoError) : verdict :=
  match err with
  | None => Continue
  | Some err =>
      if Is err ErrStaleTransaction then Continue
      else if Is err errLaneAwaitingNodeNonce || Is err errLaneStateChanged then Stop
      else Reschedule (Is err errTransactionUnprocessable)
  end.

Fixpoint lane_loop (transactions : list Transaction) : M (St := St) unit :=
  match transactions with
  | [] => mret tt
  | tx :: rest =>
      unless_cancelled (
        let! r := mtry (processTransactionStep m tx) in
        let err := match r with Ok _ => None | Err e => Some e end in
        match after_step err, err with
        | Continue, _ => lane_loop rest
        | Reschedule continue, Some e =>
            unless_cancelled (
              do! rescheduleTransaction tx e in
              if (continue : bool) then lane_loop rest else mret tt)
        | _, _ => mret tt
        end)
  end.

Definition lane_query (chainID : Z) (at_now : Time) : Query :=
  {| qr_filters := [FilterByChainIds [chainID]; FilterBySenderOrUnset (m_sender m);
                    FilterByStatuses ActiveStatuses; FilterReadyBefore at_now];
     qr_order := orderLaneWork; qr_limit := maxTransactionsPerLane |}.

(** The batch, once the lock is held. *)
Definition lane_batch (chainID : Z) : M (St := St) unit :=
  let! maxNonce := mtry (db_MaxAssignedNonce (m_sender m) chainID) in
  match maxNonce with
  | Err _ => mret tt
  | Ok maxNonce =>
      do! set_lane (lane_of_max maxNonce) in
      let! at_now := now in
      let! transactions := mtry (db_Select (lane_query chainID at_now)) in
      match transactions with
      | Err _ => mret tt
      | Ok transactions => lane_loop transactions
      end
  end.

Definition processLaneBatch (chainID : Z) : M (St := St) unit :=
  unless_cancelled (
    let! locked := mtry (db_TryLockLane (m_sender m) chainID) in
    match locked with
    | Err _ | Ok false => mret tt
    | Ok true => mdefer (do! mtry (db_UnlockLane (m_sender m) chainID) in mret tt) (lane_batch chainID)
    end).

Fixpoint process_chains (chainIDs : list Z) : M (St := St) unit :=
  match chainIDs with
  | [] => mret tt
  | chainID :: rest => do! processLaneBatch chainID in process_chains rest
  end.

(** One tick of the processor: the new chain index and the work. The batches of
    a tick are on distinct lanes; they are run in selection order here. *)
Definition processTxs (nextChainIndex : Z) : M (St := St) Z :=
  let '(selected, nextChainIndex) := nextWorkChainIDs (m_clients m) nextChainIndex maxChainWorkers in
  do! process_chains selected in mret nextChainIndex.

(** The queue-depth gauges: configured chains first, then the chains only the
    store knows. [order] is the iteration order of the two maps. *)
Fixpoint emit_counts (counts : list (Z * Z)) : M (St := St) unit :=
  match counts with
  | [] => mret tt
  | (chainID, count) :: rest => do! emit (EvActive chainID count) in emit_counts rest
  end.

Definition observeTransactionMetrics : M (St := St) unit :=
  let! counts := mtry (db_CountByChain ActiveStatuses) in
  match counts with
  | Err _ => mret tt
  | Ok counts =>
      do! emit_counts (map (fun chainID => (chainID, default 0 (counts !! chainID))) (elements (m_clients m))) in
      emit_counts (map_to_list (filter (fun kv => kv.1 ∉ m_clients m) counts))
  end.
End batch.
