(* ===== verification/StepInvariant.v ===== *)
(** * What one step may do to the world

    [StepInv w0 id P A owned w] relates the world [w] inside a step on row [id]
    to the world [w0] the step started in: other rows and their attempts are
    untouched, row [id] is unchanged or was active and now satisfies [P] with a
    bounded, valid message, its attempts only grow (by ones satisfying [A]), hash
    ownership only grows, the lane counter only rises, and every transaction sent
    to the node is durably owned by the row.  The file proves that every function
    of the step preserves it, for any [P] closed under the assignments the
    functions make. *)
From S2P Require Export Manager.
Local Open Scope Z_scope.
Local Open Scope go_scope.

Section inv.
Context `{G : GoEthereum} `{Q : !TransactionsQ St} `{L : !TransactionsQLaws} `{V : !Env} `{U : UnicodeTables}.

Definition msg_ok (t : Transaction) : Prop :=
  zlen (tx_Msg t) <= maxTransactionMessageBytes /\ Utf8 (tx_Msg t).

(** A property of the row a step works on: it fixes the row's id and looks at
    no field the tail of a step assigns, the assigned nonce excepted; the signed
    transaction may be replaced by one that satisfies [T]. *)
Class RowClosed (id : string) (T : option SignedTx -> Prop) (P : Transaction -> Prop) : Prop := {
  rc_id t : P t -> tx_ID t = id;
  rc_tx v t : T v -> P t -> P (set_Tx v t);
  rc_receipt v t : P t -> P (set_Receipt v t);
  rc_status v t : P t -> P (set_Status v t);
  rc_msg v t : P t -> P (set_Msg v t);
  rc_next v t : P t -> P (set_NextActionAt v t);
  rc_pending v t : P t -> P (set_BroadcastPending v t);
  rc_rejected v t : P t -> P (set_RejectedAttemptHash v t);
  rc_consumed v t : P t -> P (set_NonceConsumedAt v t);
  rc_notified v t : P t -> P (set_NotifiedAt v t);
  rc_nattempts v t : P t -> P (set_NotificationAttempts v t);
  rc_nnext v t : P t -> P (set_NextNotificationAt v t);
  rc_nerror v t : P t -> P (set_NotificationError v t);
  rc_updated v t : P t -> P (set_UpdatedAt v t);
}.

(** What a step may store: a row satisfying [P], or such a row given up with
    its nonce released. *)
Definition released (P : Transaction -> Prop) (t : Transaction) : Prop :=
  tx_Status t = ErroredTxStatus /\ tx_AssignedNonce t = None /\ exists v, P (set_AssignedNonce v t).
Definition storable (P : Transaction -> Prop) (t : Transaction) : Prop := P t \/ released P t.

Record StepInv (w0 : World St) (id : string) (P : Transaction -> Prop) (A : TransactionAttempt -> Prop)
    (owned : list Hash) (w : World St) : Prop := {
  si_others j : j <> id -> q_rows (w_store w) !! j = q_rows (w_store w0) !! j;
  si_row : q_rows (w_store w) !! id = q_rows (w_store w0) !! id \/
           (active_row id (w_store w0) = true /\ exists t, q_rows (w_store w) !! id = Some t /\ P t /\ msg_ok t);
  si_att_others j : j <> id -> q_attempts (w_store w) j = q_attempts (w_store w0) j;
  si_att : exists l, q_attempts (w_store w) id = q_attempts (w_store w0) id ++ l /\ Forall A l;
  si_owner h o : q_owner (w_store w0) h = Some o -> q_owner (w_store w) h = Some o;
  si_owned h : h ∈ owned -> q_owner (w_store w) (Hash_Hex h) = Some id;
  si_lane n : above (w_lane w0) n -> above (w_lane w) n;
  si_trace : exists evs, w_trace w = evs ++ w_trace w0 /\
    forall c t, EvSend c t ∈ evs -> q_owner (w_store w) (Hash_Hex (geth_Hash t)) = Some id;
  si_wf : store_wf (w_store w0) -> store_wf (w_store w);
}.

(** ** Building and composing *)

Lemma StepInv_refl w0 id P A : StepInv w0 id P A [] w0.
Proof.
  split; try done.
  - by left.
  - exists []. by rewrite app_nil_r.
  - intros h Hh. by apply elem_of_nil in Hh.
  - exists []. split; [done|]. intros c t Ht. by apply elem_of_nil in Ht.
Qed.

Lemma StepInv_weaken w0 id P P' A A' owned owned' w :
  (forall t, P t -> P' t) -> (forall a, A a -> A' a) -> owned' ⊆ owned ->
  StepInv w0 id P A owned w -> StepInv w0 id P' A' owned' w.
Proof.
  intros HP HA Ho [? Hr ? (l & ? & ?) ? ? ? ? ?]. split; try done.
  - destruct Hr as [?|(? & t & ? & ? & ?)]; [by left|right; split; [done|exists t; auto]].
  - exists l. split; [done|]. by eapply Forall_impl.
  - intros h Hh. auto.
Qed.

Lemma StepInv_drop w0 id P A h o w : StepInv w0 id P A (h :: o) w -> StepInv w0 id P A o w.
Proof. apply StepInv_weaken; [done..|]. intros k Hk. by apply list_elem_of_further. Qed.

(** Row activity is inherited backwards along a step. *)
Lemma StepInv_active w0 id P A owned w :
  StepInv w0 id P A owned w -> active_row id (w_store w) = true -> active_row id (w_store w0) = true.
Proof.
  intros I Ha. destruct (si_row _ _ _ _ _ _ I) as [E|[? _]]; [|done].
  unfold active_row in *. by rewrite <- E.
Qed.

Lemma StepInv_trans w0 w1 w2 id P A o1 o2 :
  StepInv w0 id P A o1 w1 -> StepInv w1 id P A o2 w2 -> StepInv w0 id P A (o1 ++ o2) w2.
Proof.
  intros I1 I2. split.
  - intros j Hj. by rewrite (si_others _ _ _ _ _ _ I2), (si_others _ _ _ _ _ _ I1).
  - destruct (si_row _ _ _ _ _ _ I2) as [E|[Ha Ht]].
    + rewrite E. apply (si_row _ _ _ _ _ _ I1).
    + right. split; [by eapply StepInv_active|done].
  - intros j Hj. by rewrite (si_att_others _ _ _ _ _ _ I2), (si_att_others _ _ _ _ _ _ I1).
  - destruct (si_att _ _ _ _ _ _ I1) as (l1 & E1 & F1), (si_att _ _ _ _ _ _ I2) as (l2 & E2 & F2).
    exists (l1 ++ l2). rewrite E2, E1, app_assoc. split; [done|]. by apply Forall_app.
  - intros h o Ho. by apply (si_owner _ _ _ _ _ _ I2), (si_owner _ _ _ _ _ _ I1).
  - intros h [Hh|Hh]%elem_of_app; [|by apply (si_owned _ _ _ _ _ _ I2)].
    by apply (si_owner _ _ _ _ _ _ I2), (si_owned _ _ _ _ _ _ I1).
  - intros n Hn. by apply (si_lane _ _ _ _ _ _ I2), (si_lane _ _ _ _ _ _ I1).
  - destruct (si_trace _ _ _ _ _ _ I1) as (e1 & E1 & F1), (si_trace _ _ _ _ _ _ I2) as (e2 & E2 & F2).
    exists (e2 ++ e1). rewrite E2, E1, app_assoc. split; [done|].
    intros c t [Ht|Ht]%elem_of_app; [by eapply F2|]. apply (si_owner _ _ _ _ _ _ I2). by eapply F1.
  - intros Hwf. by apply (si_wf _ _ _ _ _ _ I2), (si_wf _ _ _ _ _ _ I1).
Qed.

Lemma StepInv_tick w0 id P A owned w : StepInv w0 id P A owned w -> StepInv w0 id P A owned (tick w).
Proof. by intros []; split. Qed.

Lemma StepInv_observe w0 id P A owned w n :
  StepInv w0 id P A owned w -> StepInv w0 id P A owned (put_lane (observe n (w_lane w)) w).
Proof. intros []; split; try done. intros k Hk. simpl. apply observe_mono. auto. Qed.

Lemma StepInv_push w0 id P A owned w e :
  (forall c t, e = EvSend c t -> geth_Hash t ∈ owned) ->
  StepInv w0 id P A owned w -> StepInv w0 id P A owned (push e w).
Proof.
  intros He I. destruct I as [? ? ? ? ? Hown ? (evs & E & F) ?]. split; try done.
  exists (e :: evs). simpl. rewrite E. split; [done|].
  intros c t [Heq|Ht]%elem_of_cons; [|by eapply F]. apply Hown. by eapply He.
Qed.

(** ** Writes to the store *)

Lemma store_wf_update tx s : store_wf s -> store_wf (snd (q_UpdateIfActive tx s)).
Proof.
  intros [Hk Ha]. split.
  - intros k t. rewrite UpdateIfActive_rows. destruct (active_row _ _); [|apply Hk].
    rewrite lookup_insert. case_decide; [|apply Hk]. congruence.
  - intros id a. rewrite UpdateIfActive_attempts, UpdateIfActive_owner. apply Ha.
Qed.

Lemma store_wf_insert a s : store_wf s -> store_wf (snd (q_InsertAttempt a s)).
Proof.
  intros [Hk Ha]. split.
  - intros k t. rewrite InsertAttempt_rows. apply Hk.
  - intros id b. rewrite InsertAttempt_attempts, InsertAttempt_owner.
    destruct (q_owner s (Hash_Hex (at_Hash a))) as [o|] eqn:Eo; [apply Ha|].
    case_decide as Hid; [rewrite elem_of_app, list_elem_of_singleton|]; intros Hb.
    + destruct Hb as [Hb| ->]; [|by rewrite decide_True by done; subst].
      destruct (Ha _ _ Hb) as [? Hb']. split; [done|]. rewrite decide_False; [done|congruence].
    + destruct (Ha _ _ Hb) as [? Hb']. split; [done|]. rewrite decide_False; [done|congruence].
Qed.

Lemma StepInv_update w0 id P A owned w tx :
  tx_ID tx = id -> P tx -> msg_ok tx -> StepInv w0 id P A owned w ->
  StepInv w0 id P A owned (put_store (snd (q_UpdateIfActive tx (w_store w))) w).
Proof.
  intros <- HP Hm I. pose proof (StepInv_active _ _ _ _ _ _ I) as Hact.
  destruct I as [Ho Hr Hao Ha How Hown Hl (evs & E & F) Hwf]. split; simpl; try done.
  - intros j Hj. rewrite UpdateIfActive_rows. case_match; [|by apply Ho]. rewrite lookup_insert_ne by done. by apply Ho.
  - rewrite UpdateIfActive_rows. destruct (active_row _ (w_store w)) eqn:Ea; [|done].
    right. split; [by apply Hact|]. rewrite lookup_insert_eq. eauto.
  - intros j Hj. rewrite UpdateIfActive_attempts. by apply Hao.
  - by rewrite UpdateIfActive_attempts.
  - intros h o. rewrite UpdateIfActive_owner. apply How.
  - intros h. rewrite UpdateIfActive_owner. apply Hown.
  - exists evs. split; [done|]. intros c t. rewrite UpdateIfActive_owner. apply F.
  - intros H0. by apply store_wf_update, Hwf.
Qed.

Lemma InsertAttempt_owner_mono a s h o :
  q_owner s h = Some o -> q_owner (snd (q_InsertAttempt a s)) h = Some o.
Proof. intros H. rewrite InsertAttempt_owner. case_match eqn:E; [done|]. case_decide; [congruence|done]. Qed.

Lemma StepInv_insert w0 id P A owned w a :
  at_TransactionID a = id -> A a -> StepInv w0 id P A owned w ->
  StepInv w0 id P A owned (put_store (snd (q_InsertAttempt a (w_store w))) w).
Proof.
  intros <- HA [Ho Hr Hao (l & El & Fl) How Hown Hl (evs & E & F) Hwf]. split; simpl; try done.
  - intros j Hj. rewrite InsertAttempt_rows. by apply Ho.
  - by rewrite InsertAttempt_rows.
  - intros j Hj. rewrite InsertAttempt_attempts. case_match; [by apply Hao|]. rewrite decide_False by done. by apply Hao.
  - rewrite InsertAttempt_attempts. case_match; [by exists l|]. rewrite decide_True by done.
    exists (l ++ [a]). rewrite El, app_assoc. split; [done|]. apply Forall_app. auto.
  - intros h o H. by apply InsertAttempt_owner_mono, How.
  - intros h H. by apply InsertAttempt_owner_mono, Hown.
  - exists evs. split; [done|]. intros c t Ht. eapply InsertAttempt_owner_mono, F; eauto.
  - intros H0. by apply store_wf_insert, Hwf.
Qed.

Lemma InsertAttempt_Ok_owner a s :
  fst (q_InsertAttempt a s) = Ok tt ->
  q_owner (snd (q_InsertAttempt a s)) (Hash_Hex (at_Hash a)) = Some (at_TransactionID a).
Proof.
  rewrite InsertAttempt_result, InsertAttempt_owner.
  destruct (q_owner s (Hash_Hex (at_Hash a))) as [o|] eqn:E.
  - case_decide as Hd; [|done]. by rewrite Hd.
  - by rewrite decide_True.
Qed.

(** Closes [P (set_X ... tx)] from [HP : RowClosed id T P] and [P tx]. *)
Ltac row_closed HP :=
  repeat match goal with
    | |- _ (set_Tx _ _) => apply (rc_tx (RowClosed := HP))
    | |- _ (set_Receipt _ _) => apply (rc_receipt (RowClosed := HP))
    | |- _ (set_Status _ _) => apply (rc_status (RowClosed := HP))
    | |- _ (set_Msg _ _) => apply (rc_msg (RowClosed := HP))
    | |- _ (set_NextActionAt _ _) => apply (rc_next (RowClosed := HP))
    | |- _ (set_BroadcastPending _ _) => apply (rc_pending (RowClosed := HP))
    | |- _ (set_RejectedAttemptHash _ _) => apply (rc_rejected (RowClosed := HP))
    | |- _ (set_NonceConsumedAt _ _) => apply (rc_consumed (RowClosed := HP))
    | |- _ (set_NotifiedAt _ _) => apply (rc_notified (RowClosed := HP))
    | |- _ (set_NotificationAttempts _ _) => apply (rc_nattempts (RowClosed := HP))
    | |- _ (set_NextNotificationAt _ _) => apply (rc_nnext (RowClosed := HP))
    | |- _ (set_NotificationError _ _) => apply (rc_nerror (RowClosed := HP))
    | |- _ (set_UpdatedAt _ _) => apply (rc_updated (RowClosed := HP))
    end; try assumption.

(** ** Computations that keep the invariant *)

Definition keeps {B} (w0 : World St) id P A owned (m : M (St := St) B) : Prop :=
  triple (StepInv w0 id P A owned) m (fun _ => StepInv w0 id P A owned) (fun _ => StepInv w0 id P A owned).

Section keeps.
Context (w0 : World St) (id : string) (P : Transaction -> Prop) (A : TransactionAttempt -> Prop) (o : list Hash).
Local Abbreviation Keeps := (keeps w0 id P A o).

Lemma keeps_ret {B} (b : B) : Keeps (mret b).
Proof. by apply triple_ret. Qed.

Lemma keeps_fail {B} e : Keeps (mfail (A := B) e).
Proof. by apply triple_fail. Qed.

Lemma keeps_panic {B} p : Keeps (mpanic (A := B) p).
Proof. intros w Hw. by exists (errors_New ""). Qed.

Lemma keeps_bind {B C} (m : M B) (k : B -> M C) : Keeps m -> (forall b, Keeps (k b)) -> Keeps (mbind m k).
Proof. intros Hm Hk. by eapply triple_bind. Qed.

Lemma keeps_bind_ret {B C} (b : B) (k : B -> M C) : Keeps (k b) -> Keeps (mbind (mret b) k).
Proof. done. Qed.

Lemma keeps_bind_panic {B C} p (k : B -> M C) : Keeps (mbind (mpanic p) k).
Proof. intros w Hw. by exists (errors_New ""). Qed.

Lemma keeps_try {B} (m : M B) : Keeps m -> Keeps (mtry m).
Proof. intros Hm. apply triple_try. eapply triple_weaken; [exact Hm|done..|naive_solver]. Qed.

Lemma keeps_wrap {B} (m : M B) f : Keeps m -> Keeps (wrap_err f m).
Proof. intros Hm. apply triple_wrap. exact Hm. Qed.

Lemma keeps_lift {B} (r : result GoError B) : Keeps (lift r).
Proof. destruct r; [apply keeps_ret|apply keeps_fail]. Qed.

Lemma keeps_redacted {B} s (r : result GoError B) : Keeps (redacted s r).
Proof. destruct r; [apply keeps_ret|apply keeps_fail]. Qed.

Lemma keeps_deref {B} (v : option B) : Keeps (deref v).
Proof. destruct v; [apply keeps_ret|apply keeps_panic]. Qed.

Lemma keeps_ask {B} (f : nat -> B) : Keeps (ask f).
Proof. apply triple_ask. intros w. apply StepInv_tick. Qed.

Lemma keeps_now : Keeps now.
Proof. apply keeps_ask. Qed.

Lemma keeps_get_lane : Keeps get_lane.
Proof. by intros w Hw. Qed.

Lemma keeps_observe n : Keeps (lane_observe n).
Proof. intros w Hw. by apply StepInv_observe. Qed.

Lemma keeps_emit e : (forall c t, e = EvSend c t -> geth_Hash t ∈ o) -> Keeps (emit e).
Proof. intros He w Hw. by apply StepInv_push. Qed.

Lemma keeps_read {B} (f : St -> result GoError B) : Keeps (db_read f).
Proof.
  intros w Hw. unfold db_read. destruct (env_store _); [destruct (f _)|..]; by apply StepInv_tick.
Qed.

Lemma keeps_write {B} (f : St -> result GoError B * St) :
  (forall w, StepInv w0 id P A o w -> StepInv w0 id P A o (put_store (snd (f (w_store w))) w)) -> Keeps (db_write f).
Proof.
  intros Hf w Hw. pose proof (Hf _ (StepInv_tick _ _ _ _ _ _ Hw)) as Hw'. simpl in Hw'. unfold db_write.
  destruct (env_store _); [|by apply StepInv_tick|done].
  destruct (f (w_store w)) as [[b|e] s']; done.
Qed.

Lemma keeps_UpdateIfActive tx : tx_ID tx = id -> P tx -> msg_ok tx -> Keeps (db_UpdateIfActive tx).
Proof. intros Hid HP Hm. apply keeps_write. intros w. by apply StepInv_update. Qed.

Lemma keeps_InsertAttempt a : at_TransactionID a = id -> A a -> Keeps (db_InsertAttempt a).
Proof. intros Hid HA. apply keeps_write. intros w. by apply StepInv_insert. Qed.

(** A stored attempt is owned by its row. *)
Lemma insert_owned a : at_TransactionID a = id -> A a ->
  triple (StepInv w0 id P A o) (db_InsertAttempt a) (fun _ => StepInv w0 id P A (at_Hash a :: o))
    (fun _ => StepInv w0 id P A o).
Proof.
  intros Hid HA w Hw. pose proof (keeps_InsertAttempt a Hid HA w Hw) as H.
  unfold db_InsertAttempt, db_write in *. destruct (env_store _); [|done|done].
  pose proof (InsertAttempt_Ok_owner a (w_store w)) as Ho.
  destruct (q_InsertAttempt a (w_store w)) as [[[]|e] s']; [|done]. simpl in *.
  destruct H. split; try done. intros h [->|Hh]%elem_of_cons; [|auto]. rewrite <- Hid. by apply Ho.
Qed.

Lemma insert_try a : at_TransactionID a = id -> A a ->
  triple (StepInv w0 id P A o) (mtry (db_InsertAttempt a))
    (fun r => StepInv w0 id P A (match r with Ok _ => at_Hash a :: o | Err _ => o end)) (fun _ => StepInv w0 id P A o).
Proof.
  intros Hid HA. apply triple_try. eapply triple_weaken; [by apply insert_owned|naive_solver..].
Qed.

(** ** Computations whose result satisfies [R] *)

Definition keeps_to {B} (m : M (St := St) B) (R : B -> Prop) : Prop :=
  triple (StepInv w0 id P A o) m (fun b w => StepInv w0 id P A o w /\ R b) (fun _ => StepInv w0 id P A o).

Lemma keeps_to_fail {B} e (R : B -> Prop) : keeps_to (mfail e) R.
Proof. by apply triple_fail. Qed.

Lemma keeps_to_ret {B} (b : B) (R : B -> Prop) : R b -> keeps_to (mret b) R.
Proof. intros Hb. by apply triple_ret. Qed.

Lemma keeps_to_lift {B} (r : result GoError B) (R : B -> Prop) : (forall b, r = Ok b -> R b) -> keeps_to (lift r) R.
Proof. intros H. destruct r; [apply keeps_to_ret; auto|apply keeps_to_fail]. Qed.

Lemma keeps_to_ask {B} (f : nat -> B) (R : B -> Prop) : (forall k, R (f k)) -> keeps_to (ask f) R.
Proof. intros H w Hw. split; [by apply StepInv_tick|apply H]. Qed.

Lemma keeps_to_bind {B C} (m : M B) (k : B -> M C) R R' :
  keeps_to m R -> (forall b, R b -> keeps_to (k b) R') -> keeps_to (mbind m k) R'.
Proof. intros Hm Hk. eapply triple_bind; [exact Hm|]. intros b w [Hw HR]. by apply Hk. Qed.

Lemma keeps_to_after {B C} (m : M B) (k : B -> M C) R :
  Keeps m -> (forall b, keeps_to (k b) R) -> keeps_to (mbind m k) R.
Proof. intros Hm Hk. eapply triple_bind; [exact Hm|]. intros b. apply Hk. Qed.

Lemma try_to {B} (m : M B) R : keeps_to m R -> keeps_to (mtry m) (fun r => match r with Ok b => R b | Err _ => True end).
Proof. intros Hm. apply triple_try. eapply triple_weaken; [exact Hm|done..|]. by intros e w Hw. Qed.

Lemma keeps_to_bind_ret {B C} (b : B) (k : B -> M C) R : keeps_to (k b) R -> keeps_to (mbind (mret b) k) R.
Proof. done. Qed.

Lemma keeps_to_bind_panic {B C} p (k : B -> M C) R : keeps_to (mbind (mpanic p) k) R.
Proof. intros w Hw. by exists (errors_New ""). Qed.
End keeps.

Lemma triple_drop {B} w0 id P A h o (m : M (St := St) B) :
  keeps w0 id P A (h :: o) m ->
  triple (StepInv w0 id P A (h :: o)) m (fun _ => StepInv w0 id P A o) (fun _ => StepInv w0 id P A o).
Proof. intros Hm. eapply triple_weaken; [exact Hm|done|intros ? w; apply StepInv_drop..]. Qed.

Lemma triple_pure {B} (I : World St -> Prop) (R : Prop) (m : M (St := St) B) J X :
  (R -> triple I m J X) -> triple (fun w => I w /\ R) m J X.
Proof. intros H w [Hw HR]. by apply H. Qed.

#[local] Hint Resolve keeps_ret keeps_fail keeps_panic keeps_lift keeps_redacted keeps_deref keeps_ask keeps_now
  keeps_get_lane  keeps_observe keeps_read : go_step.

(** Walks through a computation, leaving its writes and sends. *)
Local Ltac keep :=
  repeat first
    [ solve [auto 1 with go_step nocore]
    | apply keeps_bind; [|intros ?]
    | apply keeps_wrap
    | apply keeps_try
    | apply keeps_emit; intros ? ? [=]
    | match goal with |- keeps _ _ _ _ _ (match ?x with _ => _ end) => destruct x eqn:? end ].

(** Every transaction of [attempts] satisfies [T]. *)
Definition all_tx (T : option SignedTx -> Prop) (attempts : list TransactionAttempt) : Prop :=
  Forall (fun a => T (at_Tx a)) attempts.

(** ** The writes at the end of a step *)

Section tail.
Variable m : txManager.
Context (w0 : World St) (id : string) (P : Transaction -> Prop) (T : option SignedTx -> Prop) `{HP : !RowClosed id T P}
        (A : TransactionAttempt -> Prop) (o : list Hash).
Local Abbreviation Keeps := (keeps w0 id (storable P) A o).

Lemma msg_ok_tail s t : msg_ok (set_Msg (transactionMessageTail s) t).
Proof. apply transactionMessageTail_bounds. Qed.

Lemma storable_id t : storable P t -> tx_ID t = id.
Proof. intros [H|(_ & _ & v & H)]; by apply (rc_id (RowClosed := HP)) in H. Qed.

Lemma storable_setter f t :
  (forall u, P u -> P (f u)) -> tx_Status (f t) = tx_Status t -> tx_AssignedNonce (f t) = tx_AssignedNonce t ->
  (forall v, set_AssignedNonce v (f t) = f (set_AssignedNonce v t)) -> storable P t -> storable P (f t).
Proof.
  intros Hf Hs Hn Hc [H|(Hst & Hno & v & H)]; [left; auto|right].
  split; [congruence|]. split; [congruence|]. exists v. rewrite Hc. auto.
Qed.

(** Reduces [storable P (set_X ... tx)] to [storable P tx]. *)
Local Ltac closed := row_closed HP.
Local Ltac stored := repeat (apply storable_setter; [intros; closed|reflexivity|reflexivity|reflexivity|]).

Lemma keeps_scheduleNotBefore tx attempts nb : P tx -> Keeps (scheduleNextCheckNotBefore m tx attempts nb).
Proof.
  intros Htx. unfold scheduleNextCheckNotBefore. cbv zeta. apply keeps_bind; [apply keeps_ask|]. intros n.
  assert (H : P match attempts with [] => tx | _ => set_Status ConfirmingTxStatus tx end) by (destruct attempts; closed).
  apply keeps_wrap, keeps_UpdateIfActive; [apply storable_id; left|left|apply msg_ok_tail]; closed.
Qed.

Lemma keeps_schedule tx attempts : P tx -> Keeps (scheduleNextCheck m tx attempts).
Proof. apply keeps_scheduleNotBefore. Qed.

Lemma keeps_retry tx attempts : P tx -> Keeps (scheduleRetryAfterBlock m tx attempts).
Proof. intros H. apply keeps_bind; [apply keeps_ask|]. intros n. by apply keeps_scheduleNotBefore. Qed.

Lemma keeps_persistTerminal tx : storable P tx -> Keeps (persistTerminal tx).
Proof.
  intros Htx. unfold persistTerminal. cbv zeta. apply keeps_bind; [apply keeps_ask|]. intros n.
  apply keeps_bind; [|intros ?; by apply keeps_emit].
  apply keeps_wrap.
  assert (H : forall t, storable P t -> msg_ok t -> Keeps (db_UpdateIfActive t)).
  { intros t Ht. by apply keeps_UpdateIfActive; [apply storable_id|]. }
  destruct (negb _); apply H; try (by stored); apply msg_ok_tail.
Qed.

Lemma keeps_finalize tx winner receipt : T winner -> P tx -> Keeps (finalizeTransaction tx winner receipt).
Proof. intros HT H. unfold finalizeTransaction. cbv zeta. apply keeps_persistTerminal. left. case_match; closed. Qed.

Lemma keeps_abandon tx reason :
  P tx \/ (tx_AssignedNonce tx = None /\ exists v, P (set_AssignedNonce v tx)) -> Keeps (abandonTransaction tx reason).
Proof.
  intros H. unfold abandonTransaction. cbv zeta. apply keeps_persistTerminal.
  apply storable_setter, storable_setter; try done; try (intros; closed).
  destruct H as [H|(Hn & v & H)]; [left; closed|right]. split; [done|]. split; [done|]. exists v.
  apply (rc_status (RowClosed := HP) ErroredTxStatus) in H. exact H.
Qed.

Lemma keeps_pollConsumed tx attempts : P tx -> Keeps (pollConsumedNonce m tx attempts).
Proof.
  intros H. unfold pollConsumedNonce. apply keeps_bind; [apply keeps_deref|]. intros c.
  apply keeps_bind; [apply keeps_ask|]. intros n. case_match; [|by apply keeps_schedule].
  apply keeps_abandon. by left.
Qed.

(** A receipt comes with the transaction of one of the attempts. *)
Lemma findKnownReceipt_winner chainID attempts lastErr : all_tx T attempts ->
  keeps_to w0 id (storable P) A o (findKnownReceipt chainID attempts lastErr)
    (fun r => match r with (Some (_, winner), _) => T winner | _ => True end).
Proof.
  intros HT. revert lastErr. induction HT as [|a l Ha Hl IH]; intros; simpl; [by apply keeps_to_ret|].
  apply keeps_to_after; [apply keeps_ask|]. intros answer.
  destruct (receipt_verdict a answer) as [[receipt|] [e|]]; first [apply IH|by apply keeps_to_ret].
Qed.

Lemma findKnownTransaction_known chainID attempts : all_tx T attempts ->
  keeps_to w0 id (storable P) A o (findKnownTransaction chainID attempts)
    (fun r => match r with Some t => T (Some t) | None => True end).
Proof.
  intros HT. unfold findKnownTransaction. generalize (None : option GoError).
  induction HT as [|a l Ha Hl IH]; intros lastErr; simpl; [destruct lastErr; [apply keeps_to_fail|by apply keeps_to_ret]|].
  apply keeps_to_after; [apply keeps_ask|]. intros answer.
  destruct (known_verdict a answer) as [[] [e|]]; try apply IH; apply keeps_to_ret; by destruct (at_Tx a).
Qed.

Lemma keeps_latest attempts : Keeps (latest_attempt attempts).
Proof. unfold latest_attempt. keep. Qed.

Lemma keeps_reconcileRejected tx attempts at_now can : all_tx T attempts -> P tx -> Keeps (reconcileRejectedSubmission m tx attempts at_now can).
Proof.
  intros HT H. unfold reconcileRejectedSubmission. cbv zeta. apply keeps_bind; [apply keeps_latest|]. intros latest.
  eapply triple_bind; [by apply try_to, (findKnownTransaction_known (tx_ChainID tx))|].
  intros [[t|]|e]; apply triple_pure; intros Hk.
  - apply keeps_schedule. closed.
  - apply keeps_bind; [apply keeps_ask|]. intros [n|e]; [|apply keeps_retry; closed].
    destruct (n =? _); [destruct (negb can)|destruct (_ <? n)].
    + apply keeps_bind; [by apply keeps_emit|intros ?; by apply keeps_retry].
    + apply keeps_bind; [|intros ?; apply keeps_fail].
      apply keeps_abandon. right. split; [done|]. exists (tx_AssignedNonce tx).
      by apply (rc_pending (RowClosed := HP) false) in H.
    + apply keeps_schedule. closed.
    + apply keeps_bind; [by apply keeps_emit|intros ?; by apply keeps_retry].
  - apply keeps_retry. closed.
Qed.

Lemma record_disposition_closed d reason hash may at_now tx : P tx -> P (record_disposition d reason hash may at_now tx).
Proof. intros H. destruct d; simpl; [..|destruct may]; closed. Qed.

Lemma keeps_handleFailure tx attempts e policy : all_tx T attempts -> P tx -> Keeps (handleBroadcastFailure m tx attempts e policy).
Proof.
  intros HT H. unfold handleBroadcastFailure. cbv zeta. apply keeps_bind; [apply keeps_latest|]. intros latest.
  apply keeps_bind; [apply keeps_ask|]. intros at_now.
  set (tx' := record_disposition _ _ _ _ _ tx).
  assert (H' : P tx') by by apply record_disposition_closed.
  apply keeps_bind; [case_match; [by apply keeps_schedule|apply keeps_ret]|]. intros _.
  eapply triple_bind; [by apply findKnownReceipt_winner|].
  intros [[[receipt winner]|] receiptErr]; apply triple_pure; intros Hw.
  - by apply keeps_finalize.
  - repeat case_match; first [by apply keeps_reconcileRejected|by apply keeps_scheduleNotBefore
      |by apply keeps_schedule|apply keeps_scheduleNotBefore; closed].
Qed.

(** What may be sent: a last attempt whose transaction is owned. *)
Lemma keeps_broadcast tx attempts policy :
  all_tx T attempts -> P tx -> (forall a t, last attempts = Some a -> at_Tx a = Some t -> geth_Hash t ∈ o) ->
  Keeps (broadcastAndSchedule m tx attempts policy).
Proof.
  intros HT H Ho. unfold broadcastAndSchedule, latest_attempt. cbv zeta.
  destruct (last attempts) as [a|]; [|apply keeps_bind_panic]. apply keeps_bind_ret.
  destruct (at_Tx a) as [t|] eqn:Ht; [|apply keeps_bind_panic]. apply keeps_bind_ret.
  apply keeps_bind.
  - unfold send_transaction. apply keeps_bind; [|intros ?; apply keeps_ask].
    apply keeps_emit. intros c t' [= _ <-]. by eapply Ho.
  - intros [e|]; [by apply keeps_handleFailure|]. apply keeps_schedule. closed.
Qed.
End tail.

(** ** Signing and storing an attempt *)

(** What signing through [bind.TransactOpts] guarantees. *)
Class SignerLaws : Prop := {
  signer_nonce k c auth d t : env_opts k c = Ok (Some auth) -> Signer auth (From auth) d = Ok t ->
    geth_Nonce t = txdata_nonce d;
  signer_sender k c auth d t : env_opts k c = Ok (Some auth) -> Signer auth (From auth) d = Ok t ->
    geth_Sender (geth_ChainId t) t = Ok (From auth);
}.

Section sign.
Context `{SL : !SignerLaws}.
Variable m : txManager.
Context (w0 : World St) (id : string) (P : Transaction -> Prop) (T : option SignedTx -> Prop) `{HP : !RowClosed id T P} (A : TransactionAttempt -> Prop).
Local Abbreviation Keeps := (keeps w0 id (storable P) A).
Local Abbreviation KeepsR := (keeps_to w0 id (storable P) A).

(** Signed by the manager's account at the nonce of [tx]. *)
Definition signed_for (tx : Transaction) (t : SignedTx) : Prop :=
  tx_AssignedNonce tx = Some (geth_Nonce t) /\ geth_Sender (geth_ChainId t) t = Ok (m_sender m).

Lemma keeps_suggestGasPrice o c f k : Keeps o (suggestGasPrice m c f k).
Proof. unfold suggestGasPrice. keep. Qed.

Lemma keeps_suggestEIP1559 o c f k : Keeps o (suggestEIP1559GasFee m c f k).
Proof. unfold suggestEIP1559GasFee. keep. Qed.

Lemma keeps_must_u256 o v : Keeps o (must_u256 v).
Proof. unfold must_u256. keep. Qed.

Lemma keeps_previous_fee o l : Keeps o (previous_fee l).
Proof. unfold previous_fee. keep. Qed.

Lemma keeps_sign o tx attempts f : KeepsR o (signAttempt m tx attempts f) (signed_for tx).
Proof.
  unfold signAttempt. cbv zeta. destruct (negb (m_getTransactOpts m)); [apply keeps_to_fail|].
  apply keeps_to_bind with (R := fun r => exists k, r = env_opts k (tx_ChainID tx)); [apply keeps_to_ask; eauto|].
  intros ? [k ->]. destruct (env_opts k _) as [[auth|]|e] eqn:Ho; [|apply keeps_to_fail|apply keeps_to_fail].
  apply keeps_to_bind_ret. destruct (negb _) eqn:Hf; [apply keeps_to_fail|].
  apply negb_false_iff, bool_decide_eq_true in Hf.
  assert (Hs : forall d t, tx_AssignedNonce tx = Some (txdata_nonce d) -> Signer auth (From auth) d = Ok t -> signed_for tx t).
  { intros d t Hn Ht. split; [by rewrite (signer_nonce _ _ _ _ _ Ho Ht)|].
    rewrite (signer_sender _ _ _ _ _ Ho Ht). by f_equal. }
  apply keeps_to_after; [apply keeps_previous_fee|]. intros prev.
  destruct (tx_RawAuthorizations tx).
  - apply keeps_to_after; [apply keeps_wrap, keeps_suggestGasPrice|]. intros fee.
    destruct (tx_AssignedNonce tx) eqn:Hn; [|apply keeps_to_bind_panic]. apply keeps_to_bind_ret.
    apply keeps_to_lift. intros t. by apply Hs.
  - apply keeps_to_after; [apply keeps_wrap, keeps_suggestEIP1559|]. intros fee.
    destruct (tx_AssignedNonce tx) eqn:Hn; [|apply keeps_to_bind_panic]. apply keeps_to_bind_ret.
    do 3 (apply keeps_to_after; [apply keeps_must_u256|]; intros ?).
    apply keeps_to_lift. intros t. by apply Hs.
Qed.

(** A durable attempt carrying the transaction to send. *)
Definition sendable (a : TransactionAttempt) : Prop := exists t, at_Tx a = Some t /\ geth_Hash t = at_Hash a.

Lemma persist_owned o tx attempts n prev f :
  tx_ID tx = id ->
  (forall t now, signed_for tx t -> A {| at_TransactionID := id; at_Hash := geth_Hash t; at_Nonce := geth_Nonce t;
     at_Tx := Some t; at_CreatedAt := now |}) ->
  triple (StepInv w0 id (storable P) A o) (persistUniqueAttempt_loop m n prev f tx attempts)
    (fun a w => StepInv w0 id (storable P) A (at_Hash a :: o) w /\ (sendable a /\ A a))
    (fun _ => StepInv w0 id (storable P) A o).
Proof.
  intros Hid HA. revert prev f. induction n as [|n IH]; intros prev f; [by apply triple_fail|].
  cbn [persistUniqueAttempt_loop]. cbv zeta.
  eapply triple_bind; [apply triple_wrap, keeps_sign|]. intros t. apply triple_pure. intros Ht.
  eapply triple_bind; [apply (keeps_ask w0)|]. intros at_now.
  eapply triple_bind; [apply insert_try; [done|rewrite Hid; by apply HA]|].
  intros [[]|e]; cbn beta iota.
  - apply triple_ret. intros w Hw. split; [done|]. split; [by exists t|]. rewrite Hid. by apply HA.
  - destruct (negb _); [by apply triple_fail|]. destruct (bool_decide _); [by apply triple_fail|].
    eapply triple_bind; [apply (keeps_wrap w0), (keeps_read w0)|]. intros la.
    eapply triple_bind; [apply (keeps_wrap w0), (keeps_lift w0)|]. intros [floor|]; [apply IH|by apply triple_fail].
Qed.

Lemma keeps_createAndBroadcast o tx attempts can :
  (forall a, A a -> T (at_Tx a)) -> all_tx T attempts -> P tx ->
  (forall t now, signed_for tx t -> A {| at_TransactionID := id; at_Hash := geth_Hash t; at_Nonce := geth_Nonce t;
     at_Tx := Some t; at_CreatedAt := now |}) ->
  Keeps o (createAndBroadcastAttempt m tx attempts can).
Proof.
  intros HAT HT H HA. unfold createAndBroadcastAttempt. destruct (tx_AssignedNonce tx); [|apply keeps_fail].
  eapply triple_bind; [apply persist_owned; [by apply (rc_id (RowClosed := HP))|done]|]. intros a. apply triple_pure.
  intros [(t & Ht & Hh) Ha%HAT].
  cbv zeta. apply triple_drop.
  set (tx' := set_UpdatedAt _ _).
  assert (H' : P tx') by (unfold tx'; row_closed HP).
  apply keeps_bind.
  - apply keeps_wrap, keeps_UpdateIfActive; [by apply (rc_id (RowClosed := HP))|by left|split; [done|constructor]].
  - intros _. eapply keeps_broadcast; [exact HP|by apply Forall_app_2; [|apply Forall_singleton]|done|]. intros a' t'. rewrite last_snoc. intros [= <-] Ht'.
    rewrite Ht in Ht'. injection Ht' as <-. rewrite Hh. apply list_elem_of_here.
Qed.
End sign.

(** ** The step after reconciliation *)

Section attempt.
Context `{SL : !SignerLaws}.
Variable m : txManager.
Context (w0 : World St) (id : string) (P : Transaction -> Prop) (T : option SignedTx -> Prop) `{HP : !RowClosed id T P}
        (A : TransactionAttempt -> Prop) (o : list Hash).
Local Abbreviation Inv := (StepInv w0 id (storable P) A o).
Local Abbreviation Keeps := (keeps w0 id (storable P) A o).
Context (tx : Transaction) (attempts : list TransactionAttempt) (HAT : forall a, A a -> T (at_Tx a))
  (HT : all_tx T attempts) (Htx : P tx)
  (Howned : forall a t, last attempts = Some a -> at_Tx a = Some t -> geth_Hash t ∈ o)
  (Hsigned : forall t now, signed_for m tx t -> A {| at_TransactionID := id; at_Hash := geth_Hash t;
     at_Nonce := geth_Nonce t; at_Tx := Some t; at_CreatedAt := now |}).

Lemma keeps_isTip : Keeps (lane_isTip tx).
Proof. unfold lane_isTip. keep. Qed.

Lemma keeps_rejected failed rejected : Keeps (step_rejected m tx attempts failed rejected).
Proof.
  unfold step_rejected. destruct (last attempts); [|apply keeps_fail]. destruct (tx_AssignedNonce tx); [|apply keeps_fail].
  destruct (negb _); [apply keeps_fail|]. destruct failed; [by eapply keeps_retry|].
  apply keeps_bind; [apply keeps_ask|]. intros ?. apply keeps_bind; [apply keeps_get_lane|]. intros ?.
  by eapply keeps_reconcileRejected.
Qed.

Lemma keeps_admission : Keeps (step_admission m tx attempts).
Proof.
  unfold step_admission. cbv zeta. destruct (negb (m_beforeAttempt m)); [apply keeps_ret|].
  apply keeps_bind; [apply keeps_ask|]. intros [retryAt [e|]];
    (apply keeps_bind; [apply keeps_get_lane|]; intros lane).
  - destruct (_ && _); [|apply keeps_fail]. apply keeps_bind; [|intros ?; apply keeps_fail].
    eapply keeps_abandon; [exact HP|]. right. split; [done|]. by exists (tx_AssignedNonce tx).
  - apply keeps_bind; [apply keeps_ask|]. intros n. destruct (_ <? _); [|apply keeps_ret].
    apply keeps_bind; [|intros ?; apply keeps_ret]. eapply keeps_scheduleNotBefore; [exact HP|]. row_closed HP.
Qed.

Lemma dispatch_assigned : is_Some (tx_AssignedNonce tx) -> Keeps (step_dispatch m tx attempts).
Proof.
  intros [n Hn]. unfold step_dispatch, step_assign. rewrite Hn. apply keeps_bind_ret.
  assert (Hc : forall can, Keeps (createAndBroadcastAttempt m tx attempts can)) by (intros; by eapply keeps_createAndBroadcast).
  destruct attempts; [apply keeps_bind; [apply keeps_isTip|intros ?; apply Hc]|].
  destruct (_ <? _); [apply Hc|]. apply keeps_bind; [apply keeps_isTip|]. intros ?. by eapply keeps_broadcast.
Qed.

(** [step_attempt] does what [step_dispatch] does, or keeps the invariant. *)
Lemma attempt_triple (J : unit -> World St -> Prop) (X : GoError -> World St -> Prop) :
  (forall u w, Inv w -> J u w) -> (forall e w, Inv w -> X e w) ->
  triple Inv (step_dispatch m tx attempts) J X -> triple Inv (step_attempt m tx attempts) J X.
Proof.
  intros HJ HX Hd. assert (Hk : forall c, Keeps c -> triple Inv c J X).
  { intros c Hc. eapply triple_weaken; [exact Hc|auto..]. }
  assert (Hk' : forall {B} (c : M B) k, Keeps c -> (forall b, triple Inv (k b) J X) -> triple Inv (mbind c k) J X).
  { intros B c k Hc Hb. eapply triple_bind; [|exact Hb]. eapply triple_weaken; [exact Hc|auto..]. }
  unfold step_attempt. cbv zeta. destruct (_ && _); [by eapply Hk, keeps_pollConsumed|].
  apply Hk'; [keep|]. intros [|]; [by eapply Hk, keeps_schedule|].
  apply Hk'; [apply keeps_admission|]. intros [|]; simpl; [|apply Hk, keeps_ret].
  case_match; [|done]. apply Hk, keeps_bind; [apply keeps_isTip|]. intros ?. by eapply keeps_broadcast.
Qed.

Lemma attempt_assigned : is_Some (tx_AssignedNonce tx) -> Keeps (step_attempt m tx attempts).
Proof. intros Hn. apply attempt_triple; [done..|]. by apply dispatch_assigned. Qed.
End attempt.

(** ** Loading and reconciling the durable attempts *)

(** An attempt that agrees with its signed transaction, at nonce [n], whose
    signer is [s] (or recovers to the zero address). *)
Definition attempt_valid (s : Address) (n : Z) (a : TransactionAttempt) : Prop :=
  at_Nonce a = n /\ exists t d, at_Tx a = Some t /\ geth_Hash t = at_Hash a /\ geth_Nonce t = n /\
    geth_Sender (geth_ChainId t) t = Ok d /\ (d = s \/ d = address_zero).

Lemma validate_from_spec l s0 n s n' :
  validatePersistedAttempts_from s0 n l = Ok (s, n') ->
  n' = n /\ (s0 = address_zero \/ s0 = s) /\ Forall (attempt_valid s n) l.
Proof.
  revert s0. induction l as [|a l IH]; intros s0; cbn [validatePersistedAttempts_from].
  - intros [= -> ->]. split; [done|]. split; [by right|constructor].
  - destruct (at_Tx a) as [t|] eqn:Ht; [|done].
    destruct (bool_decide_reflect (geth_Hash t = at_Hash a)) as [Hh|]; [|done]. cbn [negb].
    destruct (geth_Nonce t =? at_Nonce a) eqn:Hn; [|done]. cbn [negb].
    destruct (at_Nonce a =? n) eqn:Hn'; [|done]. cbn [negb].
    destruct (geth_Sender (geth_ChainId t) t) as [d|] eqn:Hd; [|done].
    apply Z.eqb_eq in Hn, Hn'.
    assert (Hv : d = s \/ d = address_zero -> attempt_valid s n a).
    { intros Hs. split; [done|]. exists t, d. repeat split; try done. congruence. }
    case_bool_decide as H0.
    + intros (-> & Hs & Hl)%IH. split; [done|]. split; [by left|]. constructor; [apply Hv; naive_solver|done].
    + case_bool_decide as Hds; [|done]. subst d. intros (-> & Hs & Hl)%IH.
      split; [done|]. split; [done|]. constructor; [apply Hv; naive_solver|done].
Qed.

Lemma validate_spec l s n :
  validatePersistedAttempts l = Ok (s, n) -> l <> [] /\ Forall (attempt_valid s n) l.
Proof. unfold validatePersistedAttempts. destruct l; [done|]. intros (-> & _ & H)%validate_from_spec. done. Qed.

Lemma validate_owned l s n a t :
  validatePersistedAttempts l = Ok (s, n) -> last l = Some a -> at_Tx a = Some t -> geth_Hash t ∈ map at_Hash l.
Proof.
  intros [_ H]%validate_spec Ha Ht. apply last_Some_elem_of in Ha. rewrite Forall_forall in H.
  destruct (H _ Ha) as (_ & t' & d & Ht' & Hh & _). rewrite Ht in Ht'. injection Ht' as <-.
  rewrite Hh. by apply list_elem_of_fmap_2.
Qed.

Section load.
Context `{SL : !SignerLaws}.
Variable m : txManager.
Context (w0 : World St) (Hwf : store_wf (w_store w0)) (P : Transaction -> Prop) (A : TransactionAttempt -> Prop)
        (tx : Transaction).
Local Abbreviation id := (tx_ID tx).

Definition legacy_attempt (raw : SignedTx) (at_now : Time) : TransactionAttempt :=
  {| at_TransactionID := id; at_Hash := geth_Hash raw; at_Nonce := geth_Nonce raw; at_Tx := Some raw;
     at_CreatedAt := at_now |}.

(** What [step_load] may return. *)
Inductive loaded : Transaction -> list TransactionAttempt -> Prop :=
| loaded_durable : q_SelectAttempts id (w_store w0) <> [] \/ tx_Tx tx = None ->
    loaded tx (q_SelectAttempts id (w_store w0))
| loaded_legacy raw at_now v : q_SelectAttempts id (w_store w0) = [] -> tx_Tx tx = Some raw ->
    validatePersistedAttempts [legacy_attempt raw at_now] = Ok v ->
    loaded (set_BroadcastPending true tx) [legacy_attempt raw at_now].

Lemma StepInv_loaded w :
  StepInv w0 id P A [] w -> StepInv w0 id P A (map at_Hash (q_SelectAttempts id (w_store w0))) w.
Proof.
  intros I. destruct I. split; try done.
  intros h (a & -> & Ha)%list_elem_of_fmap. rewrite SelectAttempts_sorted, sort_stable_perm in Ha.
  apply si_owner0. by apply (wf_attempt_owner _ Hwf).
Qed.

Lemma load_triple :
  (forall raw at_now v, tx_Tx tx = Some raw -> validatePersistedAttempts [legacy_attempt raw at_now] = Ok v ->
     A (legacy_attempt raw at_now)) ->
  triple (eq w0) (step_load m tx)
    (fun r w => StepInv w0 id P A (map at_Hash (snd r)) w /\ loaded (fst r) (snd r))
    (fun _ => StepInv w0 id P A []).
Proof.
  intros HA. unfold step_load. destruct (negb _). { apply triple_fail. intros ? <-. apply StepInv_refl. }
  eapply triple_bind with (K := fun l w => StepInv w0 id P A [] w /\ l = q_SelectAttempts id (w_store w0)).
  { apply triple_wrap. intros w <-. unfold db_SelectAttempts, db_read.
    destruct (env_store _); [split; [|done]|..]; apply StepInv_tick, StepInv_refl. }
  intros l. apply triple_pure. intros ->. destruct (q_SelectAttempts id (w_store w0)) as [|a l] eqn:El.
  - destruct (tx_Tx tx) as [raw|] eqn:Ht.
    + apply (triple_bind _ _ _ (fun _ => StepInv w0 id P A [])); [destruct (_ =? _); [apply keeps_now|by apply triple_ret]|].
      intros at_now. fold (legacy_attempt raw at_now).
      destruct (validatePersistedAttempts _) eqn:Hv; [|by apply triple_fail].
      eapply triple_bind; [apply triple_wrap, insert_owned; [done|by eapply HA]|]. intros ?. apply triple_ret.
      intros w Hw. split; [done|]. by eapply loaded_legacy.
    + apply triple_ret. intros w Hw. split; [done|]. simpl. rewrite <- El. apply loaded_durable. by right.
  - apply triple_ret. intros w Hw. cbn [fst snd]. rewrite <- El. split; [by apply StepInv_loaded|].
    apply loaded_durable. left. by rewrite El.
Qed.
End load.

Section reconcile.
Context `{SL : !SignerLaws}.
Variable m : txManager.
Context (w0 : World St) (id : string) (P : Transaction -> Prop) (T : option SignedTx -> Prop) `{HP : !RowClosed id T P}
        (A : TransactionAttempt -> Prop) (o : list Hash).

(** The row [step_reconcile] hands on. *)
Definition reconciled (tx : Transaction) (attempts : list TransactionAttempt) (r : option (Transaction * bool)) : Prop :=
  match r with
  | None => True
  | Some (tx', failed) =>
      (attempts = [] /\ failed = false /\
       tx' = if bool_decide (tx_Sender tx = address_zero) then set_Sender (m_sender m) tx else tx) \/
      (exists s n, validatePersistedAttempts attempts = Ok (s, n) /\ P tx' /\ tx_AssignedNonce tx' = Some n /\
         tx_Sender tx' = s)
  end.

Lemma reconcile_triple tx attempts :
  (forall s n, validatePersistedAttempts attempts = Ok (s, n) ->
     all_tx T attempts /\ P (set_AssignedNonce (Some n) (set_Sender s tx))) ->
  keeps_to w0 id (storable P) A o (step_reconcile m tx attempts) (reconciled tx attempts).
Proof.
  intros Hv. unfold step_reconcile. cbv zeta. destruct attempts as [|a l]; [apply keeps_to_ret; by left|].
  destruct (validatePersistedAttempts _) as [[s n]|e] eqn:Ev; [|apply keeps_to_fail].
  destruct (Hv _ _ eq_refl) as [HT H].
  apply keeps_to_after; [case_match; [apply keeps_observe|apply keeps_ret]|]. intros _. unfold latest_attempt.
  destruct (last (a :: l)) as [latest|] eqn:El; [|apply keeps_to_bind_panic]. apply keeps_to_bind_ret.
  apply last_Some_elem_of in El. pose proof (proj1 (Forall_forall _ _) HT _ El) as Hlt. cbv beta in Hlt.
  destruct (at_Tx latest) as [t|]; [|apply keeps_to_bind_panic]. apply keeps_to_bind_ret.
  apply (rc_status (RowClosed := HP) ConfirmingTxStatus) in H.
  set (tx1 := set_Status _ _) in *.
  match goal with |- context [findKnownReceipt (tx_ChainID ?x)] => set (tx2 := x) end.
  assert (H2 : P tx2 /\ tx_AssignedNonce tx2 = Some n /\ tx_Sender tx2 = s).
  { unfold tx2. destruct (match tx_Tx tx1 with Some _ => _ | None => _ end); (split; [row_closed HP|done]). }
  destruct H2 as (H2 & Hn2 & Hs2).
  eapply keeps_to_bind; [by apply (findKnownReceipt_winner w0 id P T)|].
  intros [[[receipt winner]|] receiptErr] Hw.
  - apply keeps_to_after; [by eapply keeps_finalize|]. intros ?. by apply keeps_to_ret.
  - destruct (match tx_AssignedNonce tx with Some _ => _ | None => _ end); [apply keeps_to_fail|].
    destruct (_ && _); [apply keeps_to_fail|]. apply keeps_to_ret. right. exists s, n. split; [done|].
    destruct receiptErr; [|done]. split; [row_closed HP|done].
Qed.
End reconcile.
End inv.
