(* ===== verification/StepSafety.v ===== *)
(** * What a step guarantees

    Nonce assignment, the whole of [processTransactionStep], and the theorems
    about one step: it touches its own row only and keeps its payload, every
    transaction it sends is durable first, and a nonce it assigns is above every
    nonce of the lane. *)
From S2P Require Export StepInvariant.
Local Open Scope Z_scope.
Local Open Scope go_scope.

Section assign.
Context `{G : GoEthereum} `{Q : !TransactionsQ St} `{L : !TransactionsQLaws} `{V : !Env} `{U : UnicodeTables}.

(** Nonces a node reports are [uint64] and below the last one (EIP-2681). *)
Class NodeLaws : Prop := {
  pending_nonce_bounds k c a n : env_pending_nonce k c a = Ok n -> 0 <= n < max_u64;
}.

Context `{N : !NodeLaws} `{SL : !SignerLaws}.
Variable m : txManager.

(** The row [step_assign] writes. *)
Definition assigned (n : Z) (at_now : Time) (tx : Transaction) : Transaction :=
  set_UpdatedAt at_now (set_Status ProcessingTxStatus (set_AssignedNonce (Some n) tx)).

(** [n] may be assigned in the lane [l]. *)
Definition fresh (l : nonceLane) (n : Z) : Prop := 0 <= n < max_u64 /\ forall k, above l k -> k < n.

(** The store reported a failure of its own. *)
Definition store_fault (e : GoError) : Prop := exists k, env_store k = FaultBefore e \/ env_store k = FaultAfter e.

(** A successful conditional update stored exactly the row it was given. *)
Lemma StepInv_stored w0 id P A o w tx :
  tx_ID tx = id -> msg_ok tx -> StepInv w0 id P A o w -> fst (q_UpdateIfActive tx (w_store w)) = Ok tt ->
  let w' := put_store (snd (q_UpdateIfActive tx (w_store w))) w in
  StepInv w0 id (eq tx) A o w' /\ q_rows (w_store w') !! id = Some tx.
Proof.
  intros Hid Hm I Hok w'. rewrite UpdateIfActive_result in Hok.
  destruct (active_row (tx_ID tx) (w_store w)) eqn:Ha; [|done].
  pose proof (StepInv_active _ _ _ _ _ _ I) as Hact. rewrite Hid in *.
  assert (I' : StepInv w0 id (fun t => P t \/ t = tx) A o w) by (eapply StepInv_weaken; [| | |exact I]; auto).
  apply (StepInv_update _ _ _ _ _ _ tx) in I'; [|done|by right|done].
  assert (Hrow : q_rows (w_store w') !! id = Some tx).
  { unfold w'. simpl. rewrite UpdateIfActive_rows, Hid, Ha. apply lookup_insert_eq. }
  split; [|done]. destruct I'. split; try done. right. split; [by apply Hact|]. by exists tx.
Qed.

(** A conditional update that finds no active row changes nothing. *)
Lemma StepInv_stale w0 id P A o w tx :
  active_row (tx_ID tx) (w_store w) = false -> StepInv w0 id P A o w ->
  StepInv w0 id P A o (put_store (snd (q_UpdateIfActive tx (w_store w))) w).
Proof.
  intros Ha []. split; simpl; try done.
  - intros j Hj. rewrite UpdateIfActive_rows, Ha. auto.
  - by rewrite UpdateIfActive_rows, Ha.
  - intros j Hj. rewrite UpdateIfActive_attempts. auto.
  - by rewrite UpdateIfActive_attempts.
  - intros h b. rewrite UpdateIfActive_owner. auto.
  - intros h. rewrite UpdateIfActive_owner. auto.
  - destruct si_trace as (evs & E & F). exists evs. split; [done|]. intros c t. rewrite UpdateIfActive_owner. apply F.
  - intros H0. by apply store_wf_update, si_wf.
Qed.

(** [db_UpdateIfActive] fails because the row was stale, or the store failed. *)
Lemma update_triple w0 id P A o tx :
  tx_ID tx = id -> msg_ok tx ->
  triple (StepInv w0 id P A o) (db_UpdateIfActive tx)
    (fun _ w => StepInv w0 id (eq tx) A o w /\ q_rows (w_store w) !! id = Some tx)
    (fun e w => StepInv w0 id P A o w \/ (store_fault e /\ StepInv w0 id (eq tx) A o w)).
Proof.
  intros Hid Hm w Hw. apply StepInv_tick in Hw. unfold db_UpdateIfActive, db_write.
  pose proof (StepInv_stored _ _ _ _ _ _ _ Hid Hm Hw) as Hs. pose proof (fun H => StepInv_stale _ _ _ _ _ _ tx H Hw) as Hst.
  pose proof (UpdateIfActive_result tx (w_store w)) as Hr. simpl in *.
  destruct (env_store (w_tick w)) as [|e|e] eqn:Ef; [|by left|];
    destruct (q_UpdateIfActive tx (w_store w)) as [r s']; simpl in *; subst r;
    destruct (active_row (tx_ID tx) (w_store w)); auto.
  right. split; [by exists (w_tick w); right|]. by apply Hs.
Qed.

(** [step_assign] on an unassigned row. *)
Lemma assign_triple w0 id P A o tx :
  tx_ID tx = id -> msg_ok tx -> tx_AssignedNonce tx = None ->
  triple (StepInv w0 id P A o) (step_assign m tx)
    (fun tx' w => exists n t, fresh (w_lane w0) n /\ tx' = assigned n t tx /\
       StepInv w0 id (eq tx') A o w /\ above (w_lane w) n /\ q_rows (w_store w) !! id = Some tx')
    (fun e w => StepInv w0 id P A o w \/
       exists n t e', fresh (w_lane w0) n /\ store_fault e' /\ e = Errorf_w "persisting assigned nonce: " e' "" /\
         StepInv w0 id (eq (assigned n t tx)) A o w).
Proof.
  intros Hid Hm Hn. unfold step_assign. rewrite Hn.
  eapply triple_bind with (K := fun r w => StepInv w0 id P A o w /\ exists k, r = env_pending_nonce k (tx_ChainID tx) (m_sender m)).
  { intros w Hw. split; [by apply StepInv_tick|eauto]. }
  intros r. apply triple_pure. intros [k ->].
  destruct (env_pending_nonce k _ _) as [rpc|e] eqn:Er; [|apply triple_fail; auto].
  apply pending_nonce_bounds in Er.
  eapply triple_bind with (K := fun l w => StepInv w0 id P A o w /\ w_lane w = l); [by intros w Hw|].
  intros lane. destruct (reserve rpc lane) as [n ready] eqn:Hr. destruct ready; cbn [negb].
  - destruct (reserve_spec _ _ _ Hr) as [-> _].
    apply triple_weaken with (I' := fun w => StepInv w0 id P A o w /\ fresh (w_lane w0) rpc)
      (J' := fun tx' w => exists n t, fresh (w_lane w0) n /\ tx' = assigned n t tx /\
         StepInv w0 id (eq tx') A o w /\ above (w_lane w) n /\ q_rows (w_store w) !! id = Some tx')
      (X' := fun e w => StepInv w0 id P A o w \/
         exists n t e', fresh (w_lane w0) n /\ store_fault e' /\ e = Errorf_w "persisting assigned nonce: " e' "" /\
           StepInv w0 id (eq (assigned n t tx)) A o w); [|..|done|done]; last first.
    { intros w [Hw Hl]. split; [done|]. split; [done|]. intros j Hj. apply (si_lane _ _ _ _ _ _ Hw) in Hj.
      rewrite Hl in Hj. by eapply reserve_fresh. }
    apply triple_pure. intros Hf.
    eapply triple_bind with (K := fun _ => StepInv w0 id P A o); [intros w Hw; by apply StepInv_tick|]. intros t.
    cbv zeta. fold (assigned rpc t tx).
    eapply triple_bind.
    { apply triple_wrap. eapply triple_weaken; [by apply (update_triple w0 id P A o (assigned rpc t tx))|done|done|].
      intros e w [Hw|[He Hw]]; [by left|]. right. by exists rpc, t, e. }
    intros ?. eapply triple_bind with (K := fun _ w => StepInv w0 id (eq (assigned rpc t tx)) A o w /\
      above (w_lane w) rpc /\ q_rows (w_store w) !! id = Some (assigned rpc t tx)).
    { intros w [Hw Hrow]. split; [by apply StepInv_observe|]. split; [by apply observe_above|done]. }
    intros ?. apply triple_ret. intros w (Hw & Ha & Hrow). by exists rpc, t.
  - eapply triple_bind with (K := fun _ => StepInv w0 id P A o); [intros w [Hw _]; by apply StepInv_push|].
    intros ?. apply triple_fail. auto.
Qed.

(** ** The whole step *)

Lemma loaded_nil w0 tx tx1 : loaded w0 tx tx1 [] -> tx1 = tx /\ q_SelectAttempts (tx_ID tx) (w_store w0) = [].
Proof. by inversion 1. Qed.

(** The row as the step takes it up when no attempt exists. *)
Definition adopted (tx : Transaction) : Transaction :=
  if bool_decide (tx_Sender tx = address_zero) then set_Sender (m_sender m) tx else tx.

Section step.
Context (w0 : World St) (Hwf : store_wf (w_store w0)) (tx : Transaction) (P : Transaction -> Prop)
        (T : option SignedTx -> Prop) `{HP : !RowClosed (tx_ID tx) T P} (A : TransactionAttempt -> Prop)
        (HAT : forall a, A a -> T (at_Tx a)).
Local Abbreviation Inv := (StepInv w0 (tx_ID tx) (storable P) A []).

(** The one place left open is the dispatch of a row without nonce and attempts. *)
Lemma step_triple (J : unit -> World St -> Prop) (X : GoError -> World St -> Prop) :
  (forall raw at_now v, tx_Tx tx = Some raw -> validatePersistedAttempts [legacy_attempt tx raw at_now] = Ok v ->
     A (legacy_attempt tx raw at_now)) ->
  (forall tx1 attempts s n, loaded w0 tx tx1 attempts -> validatePersistedAttempts attempts = Ok (s, n) ->
     all_tx T attempts /\ P (set_AssignedNonce (Some n) (set_Sender s tx1))) ->
  (q_SelectAttempts (tx_ID tx) (w_store w0) = [] -> P (adopted tx)) ->
  (forall tx' t now, P tx' -> signed_for m tx' t -> A {| at_TransactionID := tx_ID tx; at_Hash := geth_Hash t;
     at_Nonce := geth_Nonce t; at_Tx := Some t; at_CreatedAt := now |}) ->
  (forall u w, Inv w -> J u w) -> (forall e w, Inv w -> X e w) ->
  (tx_AssignedNonce tx = None -> q_SelectAttempts (tx_ID tx) (w_store w0) = [] -> tx_Sender (adopted tx) = m_sender m ->
   triple Inv (step_dispatch m (adopted tx) []) J X) ->
  triple (eq w0) (processTransactionStep m tx) J X.
Proof.
  intros HL Hrec Had HA HJ HX Hd. unfold processTransactionStep.
  eapply triple_bind.
  { eapply triple_weaken; [apply (load_triple m w0 Hwf (storable P) A tx HL)|done|done|auto]. }
  intros [tx1 attempts]. cbn [fst snd]. apply triple_pure. intros Hl.
  set (o := map at_Hash attempts).
  assert (Hk : forall (c : M unit), keeps w0 (tx_ID tx) (storable P) A o c ->
            triple (StepInv w0 (tx_ID tx) (storable P) A o) c J X).
  { intros c Hc. assert (Hdrop : forall w, StepInv w0 (tx_ID tx) (storable P) A o w -> Inv w).
    { intros w. apply StepInv_weaken; [done..|]. intros h Hh. by apply elem_of_nil in Hh. }
    eapply triple_weaken; [exact Hc|auto..]. }
  eapply triple_bind.
  { eapply triple_weaken; [apply (reconcile_triple m w0 (tx_ID tx) P T A o tx1 attempts)|done|done|].
    - intros s n. by apply Hrec.
    - intros e w Hw. apply HX. eapply StepInv_weaken; [done..| |exact Hw]. intros h Hh. by apply elem_of_nil in Hh. }
  intros [[tx2 failed]|]; apply triple_pure; intros Hr; [|apply Hk, keeps_ret].
  destruct (negb _) eqn:Hs; [apply Hk, keeps_fail|].
  apply negb_false_iff, bool_decide_eq_true in Hs.
  destruct Hr as [(-> & -> & ->)|(s & n & Hv & HP2 & Hn2 & _)].
  - apply loaded_nil in Hl as (-> & Hnil). fold (adopted tx) in *.
    specialize (Had Hnil). specialize (HA (adopted tx)). assert (Hat0 : all_tx T []) by constructor.
    destruct (tx_RejectedAttemptHash _); [by eapply Hk, keeps_rejected|].
    destruct (tx_AssignedNonce (adopted tx)) eqn:Hn.
    + apply Hk. by eapply attempt_assigned; [..|auto|rewrite Hn; eexists].
    + apply (attempt_triple m w0 (tx_ID tx) P T A); [done..|]. apply Hd; [|done|done].
      unfold adopted in Hn. by destruct (bool_decide _).
  - assert (Ho : forall a t, last attempts = Some a -> at_Tx a = Some t -> geth_Hash t ∈ o).
    { intros a t. by eapply validate_owned. }
    destruct (Hrec _ _ _ _ Hl Hv) as [Hat _].
    destruct (tx_RejectedAttemptHash _); [by eapply Hk, keeps_rejected|].
    by eapply Hk, attempt_assigned; [..|eauto|rewrite Hn2; eexists].
Qed.
End step.

(** ** Isolation, for any row whatsoever *)

Lemma same_payload_closed tx : RowClosed (tx_ID tx) (fun _ => True) (same_payload tx).
Proof. split; try done. by intros t [Hid _]. Qed.

Lemma storable_payload tx t : storable (same_payload tx) t -> same_payload tx t.
Proof. by intros [H|(_ & _ & v & H)]. Qed.

(** Stored under its row, carrying the transaction its hash and nonce describe. *)
Definition attempt_ok (id : string) (a : TransactionAttempt) : Prop :=
  at_TransactionID a = id /\ exists t, at_Tx a = Some t /\ geth_Hash t = at_Hash a /\ geth_Nonce t = at_Nonce a.

Lemma keeps_to_weaken w0 id (P P' : Transaction -> Prop) A o w :
  (forall t, P t -> P' t) -> StepInv w0 id P A o w -> StepInv w0 id P' A o w.
Proof. intros H. by apply StepInv_weaken. Qed.

Lemma step_frame w0 tx :
  store_wf (w_store w0) -> msg_ok tx ->
  let Inv := StepInv w0 (tx_ID tx) (storable (same_payload tx)) (attempt_ok (tx_ID tx)) [] in
  triple (eq w0) (processTransactionStep m tx) (fun _ => Inv) (fun _ => Inv).
Proof.
  intros Hwf Hmsg Inv. pose proof (same_payload_closed tx) as HP.
  assert (Had : same_payload tx (adopted tx)) by (unfold adopted; by destruct (bool_decide _)).
  apply (step_triple w0 Hwf tx (same_payload tx) (fun _ => True) (attempt_ok (tx_ID tx))); try done.
  - intros raw n v _ _. split; [done|]. by exists raw.
  - intros tx1 attempts s n Hl _. split; [by apply Forall_true|]. by inversion Hl.
  - intros tx' t n _ _. split; [done|]. by exists t.
  - intros Hn Hnil Hs. unfold step_dispatch. eapply triple_bind.
    + eapply triple_weaken; [apply (assign_triple w0 (tx_ID tx) (storable (same_payload tx)) (attempt_ok (tx_ID tx)))|done|done|].
      * by destruct Had.
      * unfold adopted. by destruct (bool_decide _).
      * unfold adopted. by destruct (bool_decide _).
      * intros e w [Hw|(n & t & e' & _ & _ & _ & Hw)]; [done|]. eapply keeps_to_weaken; [|exact Hw]. by intros ? <-; left.
    + intros tx2. apply triple_weaken with
        (I' := fun w => StepInv w0 (tx_ID tx) (storable (same_payload tx)) (attempt_ok (tx_ID tx)) [] w /\
                        (same_payload tx tx2 /\ is_Some (tx_AssignedNonce tx2)))
        (J' := fun _ => Inv) (X' := fun _ => Inv); [|..|done|done].
      * apply triple_pure. intros [HP2 _]. apply (keeps_bind w0); [apply keeps_isTip|]. intros tip.
        eapply keeps_createAndBroadcast; [exact HP|done|by constructor|done|]. intros t n _. split; [done|]. by exists t.
      * intros w (n & t & _ & -> & Hw & _). split; [|split; [done|by eexists]].
        eapply keeps_to_weaken; [|exact Hw]. by intros ? <-; left.
Qed.

(** A step's invariant holds in the world it leaves, however it ends. *)
Lemma triple_final {B} (w : World St) (c : M (St := St) B) (I : World St -> Prop) :
  triple (eq w) c (fun _ => I) (fun _ => I) -> I (snd (c w)).
Proof. intros H. specialize (H w eq_refl). destruct (c w) as [[|e|p] w']; [done..|]. by destruct H. Qed.

(** C4: A step on a transaction leaves every other row and its attempts as they
    were, and leaves its own row unchanged unless the stored row was active, in
    which case the new row has the same signed payload (identity, destination,
    calldata, value, gas limit, authorizations) and a message of at most 512 bytes
    of valid UTF-8. This holds for every behaviour of the node, the signer, the
    admission hook and the store, and whether the step succeeds, fails or panics. *)
Theorem step_isolated tx w (Hwf : store_wf (w_store w)) (Hmsg : msg_ok tx) :
  let s' := w_store (snd (processTransactionStep m tx w)) in
  store_wf s' /\
  (forall j, j <> tx_ID tx -> q_rows s' !! j = q_rows (w_store w) !! j /\ q_attempts s' j = q_attempts (w_store w) j) /\
  (q_rows s' !! tx_ID tx = q_rows (w_store w) !! tx_ID tx \/
   (active_row (tx_ID tx) (w_store w) = true /\
    exists t, q_rows s' !! tx_ID tx = Some t /\ same_payload tx t /\ msg_ok t)).
Proof.
  destruct (triple_final _ _ _ (step_frame w tx Hwf Hmsg)). cbv zeta.
  split; [auto|]. split; [auto|]. destruct si_row as [|(? & t & ? & Hp%storable_payload & ?)]; [by left|right; eauto].
Qed.

(** C5: Signed attempts are append-only. A step only adds attempts to the row it
    works on, each describing the hash and nonce of the signed transaction it
    carries, and no attempt hash ever changes owner. *)
Theorem step_attempts_append tx w (Hwf : store_wf (w_store w)) (Hmsg : msg_ok tx) :
  let s' := w_store (snd (processTransactionStep m tx w)) in
  (exists l, q_attempts s' (tx_ID tx) = q_attempts (w_store w) (tx_ID tx) ++ l /\ Forall (attempt_ok (tx_ID tx)) l) /\
  forall h o, q_owner (w_store w) h = Some o -> q_owner s' h = Some o.
Proof. by destruct (triple_final _ _ _ (step_frame w tx Hwf Hmsg)). Qed.

(** C3: Write-ahead. Every transaction a step hands to the node is the
    transaction of an attempt the store durably records for this row. *)
Theorem step_write_ahead tx w (Hwf : store_wf (w_store w)) (Hmsg : msg_ok tx) :
  let w' := snd (processTransactionStep m tx w) in
  exists evs, w_trace w' = evs ++ w_trace w /\
    forall c t, EvSend c t ∈ evs -> q_owner (w_store w') (Hash_Hex (geth_Hash t)) = Some (tx_ID tx).
Proof. by destruct (triple_final _ _ _ (step_frame w tx Hwf Hmsg)). Qed.
End assign.
