(* ===== verification/NonceSafety.v ===== *)
(** * No two transactions share a nonce

    [lane_inv] is what a lane (the manager's account on one chain) keeps durable:
    assigned nonces are pairwise distinct, and an active row, its signed
    transaction and all its attempts agree on the nonce and the signer.  Steps,
    reschedules and whole batches preserve it, whatever the node answers and
    however the store fails, provided store failures are not mistaken for the
    package's own sentinels. *)
From S2P Require Export Batch StepSafety.
Local Open Scope Z_scope.
Local Open Scope go_scope.

Section nonces.
Context `{G : GoEthereum} `{Q : !TransactionsQ St} `{L : !TransactionsQLaws} `{V : !Env} `{U : UnicodeTables}.
Context `{N : !NodeLaws} `{SL : !SignerLaws}.
Variable m : txManager.
Variable c : Z.
Hypothesis Hzero : m_sender m <> address_zero.

(** The rows a batch of this manager on chain [c] may select. *)
Definition own (t : Transaction) : Prop :=
  tx_ChainID t = c /\ (tx_Sender t = m_sender m \/ tx_Sender t = address_zero).

(** A signed transaction, if any, is the manager's at nonce [v]. *)
Definition signed_at (v : option Z) (o : option SignedTx) : Prop :=
  forall raw, o = Some raw -> v = Some (geth_Nonce raw) /\ geth_Sender (geth_ChainId raw) raw = Ok (m_sender m).

Definition attempt_at (v : option Z) (a : TransactionAttempt) : Prop :=
  v = Some (at_Nonce a) /\ signed_at v (at_Tx a).

(** An own row and its attempts are consistent. *)
Record row_ok (t : Transaction) (l : list TransactionAttempt) : Prop := {
  ro_unset : tx_Sender t = address_zero -> tx_AssignedNonce t = None;
  ro_bounds n : tx_AssignedNonce t = Some n -> 0 <= n < max_u64;
  ro_active : IsCompleted t = false ->
    signed_at (tx_AssignedNonce t) (tx_Tx t) /\ Forall (attempt_at (tx_AssignedNonce t)) l /\ msg_ok t;
}.

Record lane_inv (s : St) : Prop := {
  li_wf : store_wf s;
  li_unique k1 k2 t1 t2 n :
    q_rows s !! k1 = Some t1 -> q_rows s !! k2 = Some t2 ->
    in_lane (m_sender m) c t1 -> in_lane (m_sender m) c t2 ->
    tx_AssignedNonce t1 = Some n -> tx_AssignedNonce t2 = Some n -> k1 = k2;
  li_row k t : q_rows s !! k = Some t -> own t -> row_ok t (q_attempts s k);
}.

(** The lane counter is above every assigned nonce. *)
Definition covers (l : nonceLane) (s : St) : Prop :=
  forall k t n, q_rows s !! k = Some t -> in_lane (m_sender m) c t -> tx_AssignedNonce t = Some n -> above l n.

(** Changing one row keeps the invariant when the new row is consistent and its
    nonce is the old one, or fresh. *)
Lemma lane_inv_change l s0 s id tx t :
  lane_inv s0 -> covers l s0 -> store_wf s -> q_rows s0 !! id = Some tx -> own tx ->
  (forall j, j <> id -> q_rows s !! j = q_rows s0 !! j /\ q_attempts s j = q_attempts s0 j) ->
  q_rows s !! id = Some t -> same_payload tx t -> tx_Sender t = tx_Sender tx \/ tx_Sender t = m_sender m ->
  row_ok t (q_attempts s id) ->
  (forall n, tx_AssignedNonce t = Some n -> tx_AssignedNonce tx = Some n \/ fresh l n) ->
  lane_inv s.
Proof.
  intros I C Hwf Hid Hown Ho Ht Hp Hsend Hok Hn.
  assert (Hother : forall k t' n, k <> id -> q_rows s !! k = Some t' -> in_lane (m_sender m) c t' ->
            tx_AssignedNonce t' = Some n -> tx_AssignedNonce t = Some n -> False).
  { intros k t' n Hk Ht' Hl Hn' Hnt. rewrite (proj1 (Ho k Hk)) in Ht'. destruct (Hn n Hnt) as [Hold|[_ Hf]].
    - apply Hk. apply (li_unique _ I k id t' tx n); try done. split; [|apply Hown].
      destruct (proj2 Hown) as [|Hz]; [done|]. by rewrite (ro_unset _ _ (li_row _ I _ _ Hid Hown) Hz) in Hold.
    - specialize (C _ _ _ Ht' Hl Hn'). apply Hf in C. lia. }
  split; [done| |].
  - intros k1 k2 t1 t2 n H1 H2 L1 L2 N1 N2.
    destruct (decide (k1 = id)) as [->|D1], (decide (k2 = id)) as [->|D2]; [done|..].
    + exfalso. apply (Hother k2 t2 n); try done. congruence.
    + exfalso. apply (Hother k1 t1 n); try done. congruence.
    + rewrite (proj1 (Ho k1 D1)) in H1. rewrite (proj1 (Ho k2 D2)) in H2. by apply (li_unique _ I k1 k2 t1 t2 n).
  - intros k t' Ht' Hown'. destruct (decide (k = id)) as [->|Hk]; [congruence|].
    rewrite (proj1 (Ho k Hk)) in Ht'. rewrite (proj2 (Ho k Hk)). by apply (li_row _ I).
Qed.

(** ** One step *)

Definition step_row (tx : Transaction) (v : option Z) (t : Transaction) : Prop :=
  same_payload tx t /\ tx_Sender t = m_sender m /\ tx_AssignedNonce t = v /\ signed_at v (tx_Tx t).

Lemma step_row_intro tx v t :
  same_payload tx t -> tx_Sender t = m_sender m -> tx_AssignedNonce t = v -> signed_at v (tx_Tx t) -> step_row tx v t.
Proof. unfold step_row. auto. Qed.

Definition step_attempt_at (id : string) (v : option Z) (a : TransactionAttempt) : Prop :=
  at_TransactionID a = id /\ attempt_at v a.

Lemma step_row_closed tx v : RowClosed (tx_ID tx) (signed_at v) (step_row tx v).
Proof. split; try (intros ? t (H1 & H2 & H3 & H4); by split). - by intros t ((<- & _) & _). - intros o t Ho (H1 & H2 & H3 & H4). by split. Qed.

Lemma step_attempt_tx id v a : step_attempt_at id v a -> signed_at v (at_Tx a).
Proof. by intros (_ & _ & H). Qed.

(** The state a step starts from. *)
Definition ready (w : World St) (tx : Transaction) : Prop :=
  lane_inv (w_store w) /\ covers (w_lane w) (w_store w) /\
  q_rows (w_store w) !! tx_ID tx = Some tx /\ own tx /\ IsCompleted tx = false.

Definition settled (w : World St) : Prop := lane_inv (w_store w) /\ covers (w_lane w) (w_store w).

Lemma ready_row w tx : ready w tx -> row_ok tx (q_attempts (w_store w) (tx_ID tx)).
Proof. intros (I & _ & Hrow & Hown & _). by apply (li_row _ I). Qed.

Lemma in_lane_own t : in_lane (m_sender m) c t -> own t.
Proof. intros [Hs Hc]. split; [done|by left]. Qed.

(** The row after a step that kept to nonce [v]: the old row, or a new one. *)
Lemma step_row_ok w0 tx v w t :
  ready w0 tx -> v = tx_AssignedNonce tx ->
  StepInv w0 (tx_ID tx) (storable (step_row tx v)) (step_attempt_at (tx_ID tx) v) [] w ->
  q_rows (w_store w) !! tx_ID tx = Some t ->
  same_payload tx t /\ (tx_Sender t = tx_Sender tx \/ tx_Sender t = m_sender m) /\
  row_ok t (q_attempts (w_store w) (tx_ID tx)) /\
  (forall n, tx_AssignedNonce t = Some n -> tx_AssignedNonce tx = Some n).
Proof.
  intros R -> I Ht. pose proof (ready_row _ _ R) as [Hu Hb Ha].
  destruct R as (_ & _ & Hrow & _ & Hact). destruct (Ha Hact) as (Hs & Hf & Hm).
  destruct (si_att _ _ _ _ _ _ I) as (l & El & Fl).
  assert (HF : Forall (attempt_at (tx_AssignedNonce tx)) (q_attempts (w_store w) (tx_ID tx))).
  { rewrite El. apply Forall_app_2; [done|]. eapply Forall_impl; [exact Fl|]. by intros a [_ ?]. }
  destruct (si_row _ _ _ _ _ _ I) as [E|(_ & t' & E & [H|(Hst & Hno & v' & H)] & Hm')].
  - assert (t = tx) as -> by congruence. split; [done|]. split; [by left|].
    split; [|done]. split; [done|done|]. intros _. by split.
  - assert (t' = t) as -> by congruence. destruct H as (H1 & H2 & H3 & H4). split; [done|]. split; [by right|].
    rewrite H3. split; [|done]. split; [congruence|rewrite H3; apply Hb|]. intros _. rewrite H3. by split.
  - assert (t' = t) as -> by congruence. destruct H as (H1 & H2 & H3 & H4). split; [done|]. split; [by right|].
    split; [|congruence]. split; [done|congruence|]. unfold IsCompleted. rewrite Hst. done.
Qed.

Lemma step_keeps_inv w0 tx v w :
  ready w0 tx -> v = tx_AssignedNonce tx ->
  StepInv w0 (tx_ID tx) (storable (step_row tx v)) (step_attempt_at (tx_ID tx) v) [] w -> settled w.
Proof.
  intros R Hv I. pose proof R as (I0 & C & Hrow & Hown & Hact).
  destruct (q_rows (w_store w) !! tx_ID tx) as [t|] eqn:Ht.
  2:{ exfalso. destruct (si_row _ _ _ _ _ _ I) as [E|(_ & t' & E & _)]; congruence. }
  destruct (step_row_ok _ _ _ _ _ R Hv I Ht) as (Hp & Hs & Hok & Hn).
  assert (I1 : lane_inv (w_store w)).
  { apply (lane_inv_change (w_lane w0) (w_store w0) (w_store w) (tx_ID tx) tx t); try done.
    - apply (si_wf _ _ _ _ _ _ I), I0.
    - intros j Hj. split; [by apply (si_others _ _ _ _ _ _ I)|by apply (si_att_others _ _ _ _ _ _ I)].
    - auto. }
  split; [done|]. intros k t' n Ht' Hl Hn'. apply (si_lane _ _ _ _ _ _ I).
  destruct (decide (k = tx_ID tx)) as [->|Hk].
  - assert (t' = t) as -> by congruence. apply (C (tx_ID tx) tx n Hrow); [|auto].
    split; [|apply Hown]. destruct (proj2 Hown) as [|Hz]; [done|].
    apply Hn in Hn'. by rewrite (ro_unset _ _ (ready_row _ _ R) Hz) in Hn'.
  - rewrite (si_others _ _ _ _ _ _ I k Hk) in Ht'. by apply (C k t' n).
Qed.

Lemma attempt_at_none a : ~ attempt_at None a.
Proof. by intros [H _]. Qed.

Lemma attempts_none l : Forall (attempt_at None) l -> l = [].
Proof. destruct 1 as [|a l H _]; [done|]. by apply attempt_at_none in H. Qed.

Lemma loaded_attempt_at w0 tx tx1 attempts :
  ready w0 tx -> loaded w0 tx tx1 attempts -> Forall (attempt_at (tx_AssignedNonce tx)) attempts.
Proof.
  intros R Hl. pose proof (ready_row _ _ R) as [_ _ Ha]. destruct R as (_ & _ & _ & _ & Hact).
  destruct (Ha Hact) as (Hs & Hf & _). destruct Hl as [_|raw n v _ Hraw _].
  - by rewrite SelectAttempts_sorted, sort_stable_perm.
  - apply Forall_singleton. destruct (Hs raw Hraw) as [Hn Hsig]. by split; [|intros ? [= <-]].
Qed.

Lemma loaded_row w0 tx tx1 attempts : loaded w0 tx tx1 attempts -> tx1 = tx \/ tx1 = set_BroadcastPending true tx.
Proof. destruct 1; auto. Qed.

(** Reconciling a consistent row leaves its nonce, and its sender is ours. *)
Lemma reconciled_row w0 tx tx1 attempts s n :
  ready w0 tx -> loaded w0 tx tx1 attempts -> validatePersistedAttempts attempts = Ok (s, n) ->
  all_tx (signed_at (tx_AssignedNonce tx)) attempts /\
  step_row tx (tx_AssignedNonce tx) (set_AssignedNonce (Some n) (set_Sender s tx1)).
Proof.
  intros R Hl [Hne Hv]%validate_spec. pose proof (loaded_attempt_at _ _ _ _ R Hl) as Hat.
  pose proof (ready_row _ _ R) as [_ _ Ha]. destruct R as (_ & _ & _ & _ & Hact).
  destruct (Ha Hact) as (Hsig & _ & _).
  split; [eapply Forall_impl; [exact Hat|by intros a [_ ?]]|].
  destruct attempts as [|a l]; [done|]. inversion Hat as [|? ? [Hn Ht] _]; subst.
  inversion Hv as [|? ? (Hn' & raw & d & Hraw & _ & _ & Hd & Hds) _]; subst.
  destruct (Ht raw Hraw) as [_ Hd']. rewrite Hd in Hd'. injection Hd' as ->.
  assert (s = m_sender m) as -> by (destruct Hds; congruence).
  rewrite Hn in Hsig |- *. 
  destruct (loaded_row _ _ _ _ Hl) as [-> | ->]; apply step_row_intro; done.
Qed.

Lemma adopted_row tx : own tx -> IsCompleted tx = false -> row_ok tx [] ->
  step_row tx (tx_AssignedNonce tx) (adopted m tx) .
Proof.
  intros [_ Hs] Hact [_ _ Ha]. destruct (Ha Hact) as (Hsig & _). unfold adopted.
  case_bool_decide; [by apply step_row_intro|].
  destruct Hs; [by apply step_row_intro|done].
Qed.

(** The row [step_assign] stores is consistent, its nonce fresh. *)
Lemma assigned_ok w0 tx n t :
  ready w0 tx -> tx_AssignedNonce tx = None -> fresh (w_lane w0) n ->
  row_ok (assigned n t (adopted m tx)) [] /\ own (assigned n t (adopted m tx)) /\
  same_payload tx (assigned n t (adopted m tx)) /\ tx_Sender (assigned n t (adopted m tx)) = m_sender m.
Proof.
  intros R Hno [Hb _]. pose proof (ready_row _ _ R) as [_ _ Ha]. destruct R as (_ & _ & _ & [Hc Hs] & Hact).
  destruct (Ha Hact) as (Hsig & _ & Hm). rewrite Hno in Hsig.
  assert (Had : same_payload tx (adopted m tx) /\ tx_Sender (adopted m tx) = m_sender m /\
                tx_Tx (adopted m tx) = tx_Tx tx /\ msg_ok (adopted m tx)).
  { unfold adopted. case_bool_decide as H0; [by repeat split; try apply Hm|]. destruct Hs; [by repeat split; try apply Hm|done]. }
  destruct Had as (Hp & Hs' & Ht & Hm').
  split; [|split; [split; [|by left]|split; [done|done]]].
  - split; simpl; [congruence|by intros ? [= <-]|]. intros _. rewrite Ht. split; [|by split].
    intros raw Hraw. by destruct (Hsig raw Hraw).
  - simpl. by destruct Hp as (_ & _ & _ & _ & <- & _).
Qed.

(** Stored by [step_assign], possibly. *)
Lemma assign_keeps_inv w0 tx n t w :
  ready w0 tx -> tx_AssignedNonce tx = None -> fresh (w_lane w0) n ->
  StepInv w0 (tx_ID tx) (eq (assigned n t (adopted m tx))) (step_attempt_at (tx_ID tx) None) [] w ->
  lane_inv (w_store w) /\ q_attempts (w_store w) (tx_ID tx) = [].
Proof.
  intros R Hno Hf I. pose proof (ready_row _ _ R) as [_ _ Ha].
  destruct (assigned_ok _ _ n t R Hno Hf) as (Hok & Hown' & Hp & Hs).
  pose proof R as (I0 & C & Hrow & Hown & Hact).
  assert (Hnil : q_attempts (w_store w) (tx_ID tx) = []).
  { destruct (si_att _ _ _ _ _ _ I) as (l & -> & Fl). destruct (Ha Hact) as (_ & Hat & _). rewrite Hno in Hat.
    rewrite (attempts_none _ Hat). apply attempts_none. eapply Forall_impl; [exact Fl|]. by intros a [_ ?]. }
  split; [|done]. destruct (si_row _ _ _ _ _ _ I) as [E|(_ & t' & E & <- & _)]; rewrite ?Hrow in E.
  - apply (lane_inv_change (w_lane w0) (w_store w0) (w_store w) (tx_ID tx) tx tx); try done; [| |by left| |].
    + apply (si_wf _ _ _ _ _ _ I), I0.
    + intros j Hj. split; [by apply (si_others _ _ _ _ _ _ I)|by apply (si_att_others _ _ _ _ _ _ I)].
    + rewrite Hnil. pose proof (ready_row _ _ R) as [H1 H2 H3]. split; [done|done|].
      intros Hc'. destruct (H3 Hc') as (? & _ & ?). by split.
    + auto.
  - apply (lane_inv_change (w_lane w0) (w_store w0) (w_store w) (tx_ID tx) tx (assigned n t (adopted m tx)));
      try done; [| |by right|by rewrite Hnil|].
    + apply (si_wf _ _ _ _ _ _ I), I0.
    + intros j Hj. split; [by apply (si_others _ _ _ _ _ _ I)|by apply (si_att_others _ _ _ _ _ _ I)].
    + intros k [= <-]. by right.
Qed.

Lemma assign_ready w0 tx n t w :
  ready w0 tx -> tx_AssignedNonce tx = None -> fresh (w_lane w0) n ->
  StepInv w0 (tx_ID tx) (eq (assigned n t (adopted m tx))) (step_attempt_at (tx_ID tx) None) [] w ->
  above (w_lane w) n -> q_rows (w_store w) !! tx_ID tx = Some (assigned n t (adopted m tx)) ->
  ready w (assigned n t (adopted m tx)) /\ q_attempts (w_store w) (tx_ID tx) = [].
Proof.
  intros R Hno Hf I Ha Hrow'. destruct (assign_keeps_inv _ _ _ _ _ R Hno Hf I) as [I1 Hnil].
  destruct (assigned_ok _ _ n t R Hno Hf) as (Hok & Hown' & Hp & Hs). destruct R as (I0 & C & Hrow & Hown & Hact).
  assert (Hid : tx_ID (assigned n t (adopted m tx)) = tx_ID tx) by (by destruct Hp as [<- _]).
  split; [|done]. split; [done|]. split; [|by rewrite Hid].
  intros k t' j Ht' Hl Hn'. destruct (decide (k = tx_ID tx)) as [->|Hk].
  - rewrite Hrow' in Ht'. injection Ht' as <-. injection Hn' as <-. done.
  - rewrite (si_others _ _ _ _ _ _ I k Hk) in Ht'. apply (si_lane _ _ _ _ _ _ I). by apply (C k t' j).
Qed.

(** An assignment that the store may have kept although it reported failure. *)
Definition assign_fault (e : GoError) : Prop :=
  exists e', store_fault e' /\ e = Errorf_w "persisting assigned nonce: " e' "".

Definition step_end (e : option GoError) (w : World St) : Prop :=
  lane_inv (w_store w) /\ (covers (w_lane w) (w_store w) \/ exists e', e = Some e' /\ assign_fault e').

Lemma settled_end e w : settled w -> step_end e w.
Proof. intros [I C]. split; [done|by left]. Qed.

Lemma signed_attempt id v t raw now :
  tx_AssignedNonce t = v -> signed_for m t raw ->
  step_attempt_at id v {| at_TransactionID := id; at_Hash := geth_Hash raw; at_Nonce := geth_Nonce raw;
                          at_Tx := Some raw; at_CreatedAt := now |}.
Proof. intros <- [Hn Hs]. split; [done|]. split; [done|]. by intros ? [= <-]. Qed.

(** From a ready world, a computation that keeps to the row's nonce settles. *)
Lemma keeps_settled {B} w tx (k : M (St := St) B) :
  ready w tx ->
  keeps w (tx_ID tx) (storable (step_row tx (tx_AssignedNonce tx))) (step_attempt_at (tx_ID tx) (tx_AssignedNonce tx)) [] k ->
  triple (eq w) k (fun _ => settled) (fun e => step_end (Some e)).
Proof.
  intros R Hk. eapply triple_weaken; [exact Hk|..].
  - intros ? <-. apply StepInv_refl.
  - intros b w'. by apply step_keeps_inv.
  - intros e w' Hw. apply settled_end. by eapply step_keeps_inv.
Qed.

(** Assigning a nonce, then signing and sending the first attempt. *)
Lemma dispatch_fresh w0 tx : ready w0 tx -> tx_AssignedNonce tx = None ->
  triple (StepInv w0 (tx_ID tx) (storable (step_row tx None)) (step_attempt_at (tx_ID tx) None) [])
    (step_dispatch m (adopted m tx) []) (fun _ => settled) (fun e => step_end (Some e)).
Proof.
  intros R Hno. pose proof (assigned_ok w0 tx 0 0 R Hno) as Hok.
  assert (Had : tx_ID (adopted m tx) = tx_ID tx /\ msg_ok (adopted m tx) /\ tx_AssignedNonce (adopted m tx) = None).
  { pose proof (ready_row _ _ R) as [_ _ Ha]. destruct R as (_ & _ & _ & _ & Hact). destruct (Ha Hact) as (_ & _ & Hm).
    unfold adopted. by destruct (bool_decide _). }
  destruct Had as (Hid & Hm & Hno'). unfold step_dispatch. eapply triple_bind.
  - eapply triple_weaken; [by apply (assign_triple m w0 (tx_ID tx) (storable (step_row tx None))
      (step_attempt_at (tx_ID tx) None) [] (adopted m tx))|done|done|].
    intros e w [Hw|(n & t & e' & Hf & He' & He & Hw)].
    + apply settled_end. by eapply step_keeps_inv.
    + split; [by eapply assign_keeps_inv|]. right. exists e. split; [done|]. by exists e'.
  - intros tx2 w (n & t & Hf & -> & Hw & Ha & Hrow).
    destruct (assign_ready _ _ _ _ _ R Hno Hf Hw Ha Hrow) as [R2 _].
    set (tx2 := assigned n t (adopted m tx)) in *.
    pose proof (step_row_closed tx2 (Some n)) as HP.
    refine (keeps_settled w tx2 _ R2 _ w eq_refl).
    apply (keeps_bind w); [apply (keeps_isTip w)|]. intros tip.
    eapply keeps_createAndBroadcast; [exact HP|apply step_attempt_tx|constructor| |].
    + apply step_row_intro; [done|..|done|].
      * by destruct (assigned_ok _ _ n t R Hno Hf) as (_ & _ & _ & Hs).
      * destruct (assigned_ok _ _ n t R Hno Hf) as ([_ _ Hact] & _). by apply Hact.
    + intros raw now. by apply signed_attempt.
Qed.

Lemma step_nonces w0 tx : ready w0 tx ->
  triple (eq w0) (processTransactionStep m tx) (fun _ => settled) (fun e => step_end (Some e)).
Proof.
  intros R. pose proof (ready_row _ _ R) as Hok. pose proof R as (I0 & C & Hrow & Hown & Hact).
  destruct (ro_active _ _ Hok Hact) as (Hsig & Hat & Hm).
  set (v := tx_AssignedNonce tx). pose proof (step_row_closed tx v) as HP.
  assert (Hkeep : forall w, StepInv w0 (tx_ID tx) (storable (step_row tx v)) (step_attempt_at (tx_ID tx) v) [] w -> settled w).
  { intros w. by apply step_keeps_inv. }
  apply (step_triple m w0 (li_wf _ I0) tx (step_row tx v) (signed_at v) (step_attempt_at (tx_ID tx) v)).
  - apply step_attempt_tx.
  - intros raw n v' Hraw _. destruct (Hsig raw Hraw) as [Hn Hs]. by apply signed_attempt with (t := tx).
  - intros tx1 attempts s n. by apply reconciled_row.
  - intros _. apply adopted_row; [done|done|]. split; [apply Hok..|]. intros _. by split.
  - intros t raw now (_ & _ & Hn & _). by apply signed_attempt.
  - intros _. apply Hkeep.
  - intros e w Hw. by apply settled_end, Hkeep.
  - intros Hn _ _. unfold v. rewrite Hn. by apply dispatch_fresh.
Qed.

(** ** Rescheduling *)

#[local] Instance own_dec t : Decision (own t).
Proof. unfold own. apply _. Defined.

(** Changing a row that is foreign to the lane, before and after. *)
Lemma lane_inv_foreign s0 s id :
  lane_inv s0 -> store_wf s ->
  (forall j, j <> id -> q_rows s !! j = q_rows s0 !! j /\ q_attempts s j = q_attempts s0 j) ->
  (forall t, q_rows s !! id = Some t -> ~ own t) -> lane_inv s.
Proof.
  intros I Hwf Ho Hf. split; [done| |].
  - intros k1 k2 t1 t2 n H1 H2 L1 L2. destruct (decide (k1 = id)) as [->|D1].
    { by apply Hf in H1; apply in_lane_own in L1. }
    destruct (decide (k2 = id)) as [->|D2]. { by apply Hf in H2; apply in_lane_own in L2. }
    rewrite (proj1 (Ho k1 D1)) in H1. rewrite (proj1 (Ho k2 D2)) in H2. by apply (li_unique _ I).
  - intros k t Ht Hown. destruct (decide (k = id)) as [->|D]; [by apply Hf in Ht|].
    rewrite (proj1 (Ho k D)) in Ht. rewrite (proj2 (Ho k D)). by apply (li_row _ I).
Qed.

(** What rescheduling may write. *)
Definition put_off (cur t : Transaction) : Prop := exists e n u, t = rescheduled e n u cur.

Lemma put_off_spec cur t : put_off cur t ->
  same_payload cur t /\ tx_Sender t = tx_Sender cur /\ tx_AssignedNonce t = tx_AssignedNonce cur /\
  tx_Tx t = tx_Tx cur /\ msg_ok t.
Proof.
  intros (e & n & u & ->).
  set (t0 := set_UpdatedAt u (set_NextActionAt n (set_Msg (transactionMessageTail (Error e)) cur))).
  assert (Hm : msg_ok t0) by apply transactionMessageTail_bounds.
  assert (E : rescheduled e n u cur = t0 \/ rescheduled e n u cur = set_Status ConfirmingTxStatus t0).
  { unfold rescheduled. cbv zeta. fold t0. destruct (tx_Tx t0), (tx_AssignedNonce t0); auto. }
  destruct E as [-> | ->]; (repeat (split; [done|])); done.
Qed.

Lemma put_off_row cur t l : put_off cur t -> row_ok cur l -> IsCompleted cur = false -> row_ok t l.
Proof.
  intros (_ & Hs & Hn & Ht & Hm)%put_off_spec [H1 H2 H3] Hc. destruct (H3 Hc) as (Hs' & Hf & _).
  split; [rewrite Hs, Hn; done|rewrite Hn; done|]. intros _. rewrite Hn, Ht. by split.
Qed.

Lemma put_off_own cur t : put_off cur t -> own t -> own cur.
Proof. intros ((_ & _ & _ & _ & Hc & _) & Hs & _)%put_off_spec. unfold own. by rewrite Hs, Hc. Qed.

Lemma reschedule_keeps l w0 cur w :
  lane_inv (w_store w0) -> covers l (w_store w0) -> q_rows (w_store w0) !! tx_ID cur = Some cur ->
  IsCompleted cur = false ->
  StepInv w0 (tx_ID cur) (put_off cur) (fun _ => False) [] w -> lane_inv (w_store w) /\ covers l (w_store w).
Proof.
  intros I C Hrow Hact J.
  assert (Hwf : store_wf (w_store w)) by (apply (si_wf _ _ _ _ _ _ J), I).
  assert (Hatt : forall j, q_attempts (w_store w) j = q_attempts (w_store w0) j).
  { intros j. destruct (decide (j = tx_ID cur)) as [->|D]; [|by apply (si_att_others _ _ _ _ _ _ J)].
    destruct (si_att _ _ _ _ _ _ J) as (l' & -> & F). destruct F; [by rewrite app_nil_r|done]. }
  assert (Ho : forall j, j <> tx_ID cur -> q_rows (w_store w) !! j = q_rows (w_store w0) !! j /\
                         q_attempts (w_store w) j = q_attempts (w_store w0) j).
  { intros j Hj. split; [by apply (si_others _ _ _ _ _ _ J)|done]. }
  assert (Ht : exists t, q_rows (w_store w) !! tx_ID cur = Some t /\ (t = cur \/ put_off cur t)).
  { destruct (si_row _ _ _ _ _ _ J) as [E|(_ & t & E & Hp & _)]; [exists cur|exists t]; split; auto; congruence. }
  destruct Ht as (t & Ht & Hp).
  assert (Hsame : same_payload cur t /\ tx_Sender t = tx_Sender cur /\ tx_AssignedNonce t = tx_AssignedNonce cur).
  { destruct Hp as [->|(? & ? & ? & _)%put_off_spec]; [by repeat split|done]. }
  destruct Hsame as (Hpay & Hs & Hn). split.
  - destruct (decide (own cur)) as [Hown|Hown].
    + apply (lane_inv_change l (w_store w0) (w_store w) (tx_ID cur) cur t); try done; [by left| |].
      * rewrite Hatt. pose proof (li_row _ I _ _ Hrow Hown). destruct Hp as [->|Hp]; [done|]. by eapply put_off_row.
      * rewrite Hn. auto.
    + apply (lane_inv_foreign (w_store w0) (w_store w) (tx_ID cur)); try done.
      intros t' Ht' Hown'. apply Hown. assert (t' = t) as -> by congruence.
      destruct Hp as [->|Hp]; [done|]. by eapply put_off_own.
  - intros k t' n Ht' Hl Hn'. destruct (decide (k = tx_ID cur)) as [->|D].
    + assert (t' = t) as -> by congruence. apply (C _ _ _ Hrow); [|congruence].
      destruct Hl as [L1 L2]. split; [congruence|]. by destruct Hpay as (_ & _ & _ & _ & -> & _).
    + rewrite (proj1 (Ho k D)) in Ht'. by apply (C k t' n).
Qed.

(** A change of the row [id], on this chain, and of nothing else. *)
Definition row_step (id : string) (s0 s : St) : Prop :=
  (forall j, j <> id -> q_rows s !! j = q_rows s0 !! j /\ q_attempts s j = q_attempts s0 j) /\
  exists t0 t, q_rows s0 !! id = Some t0 /\ q_rows s !! id = Some t /\ tx_ChainID t0 = c /\ same_payload t0 t.

Lemma row_step_row id s0 s : row_step id s0 s -> exists t, q_rows s !! id = Some t /\ tx_ChainID t = c.
Proof. intros [_ (t0 & t & _ & Ht & Hc & (_ & _ & _ & _ & E & _))]. exists t. split; [done|congruence]. Qed.

Lemma StepInv_row_step w0 id (P : Transaction -> Prop) A o w t0 :
  StepInv w0 id P A o w -> q_rows (w_store w0) !! id = Some t0 -> tx_ChainID t0 = c ->
  (forall t, P t -> same_payload t0 t) -> row_step id (w_store w0) (w_store w).
Proof.
  intros I H0 Hc HP. split.
  - intros j Hj. split; [by apply (si_others _ _ _ _ _ _ I)|by apply (si_att_others _ _ _ _ _ _ I)].
  - destruct (si_row _ _ _ _ _ _ I) as [E|(_ & t & E & Ht & _)]; rewrite ?H0 in E; [by exists t0, t0|].
    exists t0, t. do 3 (split; [done|]). by apply HP.
Qed.

Lemma lane_inv_ext l s0 s :
  store_wf s -> (forall k, q_rows s !! k = q_rows s0 !! k) -> (forall k, q_attempts s k = q_attempts s0 k) ->
  lane_inv s0 /\ covers l s0 -> lane_inv s /\ covers l s.
Proof.
  intros Hwf Hr Ha [I C]. split; [split; [done|..]|].
  - intros k1 k2 t1 t2 n. rewrite !Hr. apply (li_unique _ I).
  - intros k t. rewrite Hr, Ha. apply (li_row _ I).
  - intros k t n. rewrite Hr. apply C.
Qed.

Lemma covers_lane (w0 w : World St) (s : St) : (forall n, above (w_lane w0) n -> above (w_lane w) n) ->
  covers (w_lane w0) s -> covers (w_lane w) s.
Proof. intros H C k t n Ht Hl Hn. by eapply H, C. Qed.

(** The rows [rescheduleTransaction] may write, seen from the world it starts in. *)
Definition put_off_in (w0 : World St) (id : string) (t : Transaction) : Prop :=
  exists cur, q_rows (w_store w0) !! id = Some cur /\ IsCompleted cur = false /\ put_off cur t.

Lemma reschedule_settles l w0 id w :
  lane_inv (w_store w0) /\ covers l (w_store w0) ->
  StepInv w0 id (put_off_in w0 id) (fun _ => False) [] w -> lane_inv (w_store w) /\ covers l (w_store w).
Proof.
  intros [I C] J.
  assert (Hcases : (exists cur, q_rows (w_store w0) !! id = Some cur /\ IsCompleted cur = false) \/
                   (forall t, ~ put_off_in w0 id t)).
  { destruct (q_rows (w_store w0) !! id) as [cur|] eqn:E; [destruct (IsCompleted cur) eqn:Ec|].
    - right. intros t (cur' & E' & Ec' & _). rewrite E in E'. injection E' as <-. congruence.
    - left. by exists cur.
    - right. intros t (cur' & E' & _). by rewrite E in E'. }
  destruct Hcases as [(cur & Hrow & Hact)|Hnone].
  - assert (Hid : tx_ID cur = id) by (by apply (wf_keyed _ (li_wf _ I))). subst id.
    apply (reschedule_keeps l w0 cur w); try done. revert J. apply StepInv_weaken; [|done..].
    intros t (cur' & E & _ & Hp). rewrite Hrow in E. injection E as <-. done.
  - apply (lane_inv_ext l (w_store w0)); [apply (si_wf _ _ _ _ _ _ J), I|..|done].
    + intros k. destruct (decide (k = id)) as [->|D]; [|by apply (si_others _ _ _ _ _ _ J)].
      destruct (si_row _ _ _ _ _ _ J) as [E|(_ & t & _ & Ht & _)]; [done|by apply Hnone in Ht].
    + intros k. destruct (decide (k = id)) as [->|D]; [|by apply (si_att_others _ _ _ _ _ _ J)].
      destruct (si_att _ _ _ _ _ _ J) as (l' & -> & F). destruct F; [by rewrite app_nil_r|done].
Qed.

Lemma reschedule_triple w0 tx e : store_wf (w_store w0) ->
  let Inv := StepInv w0 (tx_ID tx) (put_off_in w0 (tx_ID tx)) (fun _ => False) [] in
  triple (eq w0) (rescheduleTransaction m tx e) (fun _ => Inv) (fun _ => Inv).
Proof.
  intros Hwf Inv. unfold rescheduleTransaction.
  set (q := {| qr_filters := _; qr_order := _; qr_limit := _ |}).
  apply (triple_bind _ _ _ (fun r w => Inv w /\ forall cur, r = Ok cur -> q_rows (w_store w0) !! tx_ID tx = Some cur)).
  { intros w <-. unfold mtry, db_Get, db_read. pose proof (StepInv_tick _ _ _ _ _ _ (StepInv_refl w0 (tx_ID tx)
      (put_off_in w0 (tx_ID tx)) (fun _ => False))) as Ht.
    destruct (env_store _); [destruct (q_Get q (w_store w0)) as [cur|] eqn:Eg|..]; split; try done.
    intros ? [= <-]. destruct (Get_Ok _ _ _ Eg) as [Hq [k Hk]].
    unfold query_holds in Hq. simpl in Hq. rewrite andb_true_r, bool_decide_eq_true, list_elem_of_singleton in Hq.
    by rewrite <- Hq, (wf_keyed _ Hwf _ _ Hk). }
  intros r. apply triple_pure. intros Hr. destruct r as [cur|]; [|by apply triple_ret].
  specialize (Hr cur eq_refl). destruct (IsCompleted cur) eqn:Hact; [by apply triple_ret|].
  assert (Hid : tx_ID cur = tx_ID tx) by (by apply (wf_keyed _ Hwf)).
  apply (keeps_bind w0); [apply keeps_now|]. intros n. apply keeps_bind; [apply keeps_now|]. intros u.
  apply keeps_bind; [|intros ?; apply keeps_ret]. apply keeps_try.
  set (t := rescheduled _ _ _ _). assert (Hp : put_off cur t) by (by eexists _, _, _).
  pose proof (put_off_spec _ _ Hp) as ([Ht _] & _ & _ & _ & Hm).
  apply keeps_UpdateIfActive; [congruence|by exists cur|done].
Qed.

(** ** The batch *)

(** Errors of the database are not the package's own sentinels. *)
Class StoreErrors : Prop := {
  fault_not_unprocessable e : store_fault e -> Is e errTransactionUnprocessable = false;
  fault_not_stale e : store_fault e -> Is e ErrStaleTransaction = false;
}.

Context `{SE : !StoreErrors}.

Lemma assign_fault_verdict e : assign_fault e -> after_step (Some e) = Stop \/ after_step (Some e) = Reschedule false.
Proof.
  intros (e' & Hf & ->). unfold after_step. rewrite !Is_Errorf_w, (fault_not_stale _ Hf), (fault_not_unprocessable _ Hf).
  destruct (_ || _); auto.
Qed.

(** Rows of other chains are exactly as they were; rows of this chain keep their
    payload. *)
Definition chain_frame (s0 s : St) : Prop := forall k,
  (q_rows s !! k = q_rows s0 !! k /\ q_attempts s k = q_attempts s0 k) \/
  (exists t0 t, q_rows s0 !! k = Some t0 /\ q_rows s !! k = Some t /\ tx_ChainID t0 = c /\ same_payload t0 t).

Lemma chain_frame_refl s : chain_frame s s.
Proof. intros k. by left. Qed.

Lemma chain_frame_step s0 s1 s2 id : chain_frame s0 s1 -> row_step id s1 s2 -> chain_frame s0 s2.
Proof.
  intros F [Ho (t1 & t & H1 & Ht & Hc & Hp)] k. destruct (decide (k = id)) as [->|D].
  - right. destruct (F id) as [[E _]|(t0 & t' & H0 & H1' & Hc0 & Hp0)].
    + exists t1, t. rewrite <- E. done.
    + assert (t' = t1) as -> by congruence. exists t0, t. do 3 (split; [done|]). by etrans.
  - destruct (Ho k D) as [-> ->]. apply F.
Qed.

(** A row a batch selected and has not reached yet. *)
Definition selected (w : World St) (tx : Transaction) : Prop :=
  q_rows (w_store w) !! tx_ID tx = Some tx /\ own tx /\ IsCompleted tx = false.

Lemma selected_step id w0 w txs :
  row_step id (w_store w0) (w_store w) -> id ∉ (tx_ID <$> txs) -> Forall (selected w0) txs -> Forall (selected w) txs.
Proof.
  intros [Ho _] Hid. rewrite !Forall_forall. intros H tx Htx. destruct (H tx Htx) as [Hr Hx]. split; [|done].
  assert (D : tx_ID tx <> id) by (intros <-; by apply Hid, list_elem_of_fmap_2). by rewrite (proj1 (Ho _ D)).
Qed.

Lemma step_batch w0 tx : ready w0 tx ->
  triple (eq w0) (processTransactionStep m tx)
    (fun _ w => settled w /\ row_step (tx_ID tx) (w_store w0) (w_store w))
    (fun e w => step_end (Some e) w /\ row_step (tx_ID tx) (w_store w0) (w_store w)).
Proof.
  intros R. pose proof (ready_row _ _ R) as [_ _ Ha]. pose proof R as (I & _ & Hrow & [Hc _] & Hact).
  destruct (Ha Hact) as (_ & _ & Hm).
  apply (triple_and (eq w0) _ (fun _ => settled) (fun _ w => row_step (tx_ID tx) (w_store w0) (w_store w)));
    [by apply step_nonces|].
  eapply triple_weaken; [apply (step_frame m w0 tx (li_wf _ I) Hm)|done|..].
  - intros b w J. apply (StepInv_row_step _ _ _ _ _ _ tx J); [done|done|].
    intros t. apply storable_payload.
  - intros e w J. apply (StepInv_row_step _ _ _ _ _ _ tx J); [done|done|].
    intros t. apply storable_payload.
Qed.

Lemma reschedule_batch l w0 tx e :
  lane_inv (w_store w0) /\ covers l (w_store w0) ->
  (exists t, q_rows (w_store w0) !! tx_ID tx = Some t /\ tx_ChainID t = c) ->
  let post w := (lane_inv (w_store w) /\ covers l (w_store w)) /\ row_step (tx_ID tx) (w_store w0) (w_store w) /\
                forall n, above (w_lane w0) n -> above (w_lane w) n in
  triple (eq w0) (rescheduleTransaction m tx e) (fun _ => post) (fun _ => post).
Proof.
  intros I (t0 & Ht0 & Hc) post.
  assert (Hpost : forall w, StepInv w0 (tx_ID tx) (put_off_in w0 (tx_ID tx)) (fun _ => False) [] w -> post w).
  { intros w J. split; [by eapply reschedule_settles|]. split; [|apply (si_lane _ _ _ _ _ _ J)].
    apply (StepInv_row_step _ _ _ _ _ _ t0 J Ht0 Hc). intros t (cur & Hcur & _ & Hp).
    rewrite Ht0 in Hcur. injection Hcur as <-. apply (put_off_spec _ _ Hp). }
  eapply triple_weaken; [apply (reschedule_triple w0 tx e (li_wf _ (proj1 I)))|done|..]; intros ? w; apply Hpost.
Qed.

Definition batch_ok (s0 : St) (w : World St) : Prop := lane_inv (w_store w) /\ chain_frame s0 (w_store w).

Definition top_lane : nonceLane := {| next := max_u64; known := true |}.

Lemma covers_top s : lane_inv s -> covers top_lane s.
Proof.
  intros I k t n Ht Hl Hn. split; [done|]. by apply (ro_bounds _ _ (li_row _ I _ _ Ht (in_lane_own _ Hl))).
Qed.

(** The rest of the loop, after the step on [tx] ended in [w0]. *)
Lemma after_triple s0 w0 tx rest err :
  (forall w1, settled w1 -> chain_frame s0 (w_store w1) -> Forall (selected w1) rest ->
     triple (eq w1) (lane_loop m rest) (fun _ => batch_ok s0) (fun _ => batch_ok s0)) ->
  step_end err w0 -> chain_frame s0 (w_store w0) -> Forall (selected w0) rest -> tx_ID tx ∉ (tx_ID <$> rest) ->
  (exists t, q_rows (w_store w0) !! tx_ID tx = Some t /\ tx_ChainID t = c) ->
  triple (eq w0)
    match after_step err, err with
    | Continue, _ => lane_loop m rest
    | Reschedule continue, Some e =>
        unless_cancelled (
          do! rescheduleTransaction m tx e in
          if (continue : bool) then lane_loop m rest else mret tt)
    | _, _ => mret tt
    end (fun _ => batch_ok s0) (fun _ => batch_ok s0).
Proof.
  intros IH [I HC] F HS Hid Hrow.
  assert (Hret : triple (eq w0) (mret tt) (fun _ => batch_ok s0) (fun _ => batch_ok s0)).
  { apply triple_ret. by intros ? <-. }
  destruct (after_step err) as [| |continue] eqn:Ea.
  - apply IH; try done. split; [done|]. destruct HC as [|(e & -> & [E|E]%assign_fault_verdict)]; [done|congruence..].
  - done.
  - destruct err as [e|]; [|done]. unfold unless_cancelled.
    eapply triple_bind with (K := fun _ w => w = tick w0); [by apply triple_ask; intros ? <-|].
    intros cancelled. destruct cancelled; [apply triple_ret; by intros ? ->|].
    apply triple_pointwise. intros w ->.
    set (l := if continue then w_lane w0 else top_lane).
    assert (HI : lane_inv (w_store w0) /\ covers l (w_store w0)).
    { split; [done|]. unfold l. destruct continue; [|by apply covers_top].
      destruct HC as [|(e' & [= <-] & [E|E]%assign_fault_verdict)]; [done|congruence..]. }
    eapply triple_bind; [eapply triple_weaken; [by apply (reschedule_batch l (tick w0) tx e)|done|done|]|].
    + intros e' w ([I' _] & Hst & _). split; [done|]. by eapply chain_frame_step.
    + intros []. apply triple_pointwise. intros w ([I' C'] & Hst & Hl).
      assert (F' : chain_frame s0 (w_store w)) by (by eapply chain_frame_step).
      destruct continue; [|apply triple_ret; by intros ? <-].
      apply IH; [|done|by eapply selected_step]. split; [done|]. by apply (covers_lane w0).
Qed.

Lemma loop_triple s0 w0 txs :
  settled w0 -> chain_frame s0 (w_store w0) -> NoDup (tx_ID <$> txs) -> Forall (selected w0) txs ->
  triple (eq w0) (lane_loop m txs) (fun _ => batch_ok s0) (fun _ => batch_ok s0).
Proof.
  revert w0. induction txs as [|tx rest IH]; intros w0 [I C] F Hnd HS; cbn [lane_loop].
  { apply triple_ret. by intros ? <-. }
  apply NoDup_cons in Hnd as [Hid Hnd]. apply Forall_cons in HS as [Hsel HS].
  unfold unless_cancelled at 1.
  eapply triple_bind with (K := fun _ w => w = tick w0); [by apply triple_ask; intros ? <-|].
  intros cancelled. destruct cancelled; [apply triple_ret; by intros ? ->|].
  apply triple_pointwise. intros w ->. destruct Hsel as (Hrow & Hown & Hact).
  assert (R : ready (tick w0) tx) by done.
  assert (Hframe : forall w, row_step (tx_ID tx) (w_store w0) (w_store w) -> chain_frame s0 (w_store w)).
  { intros w Hst. by eapply chain_frame_step. }
  eapply triple_bind with (K := fun r w => step_end (match r with Ok _ => None | Err e => Some e end) w /\
                                           row_step (tx_ID tx) (w_store w0) (w_store w)).
  { apply triple_try. eapply triple_weaken; [apply (step_batch _ _ R)|done|..].
    - intros [] w [Hs Hst]. split; [by apply settled_end|done].
    - intros e w [Hs Hst]. split; [done|]. split; [apply Hs|auto]. }
  intros r. apply triple_pointwise. intros w [Hend Hst].
  apply (after_triple s0 w tx rest); auto.
  - by eapply selected_step.
  - by eapply row_step_row.
Qed.

(** *** What the batch selects *)

Lemma NoDup_map_filter {A B} (f : A -> B) (p : A -> bool) (l : list A) :
  NoDup (f <$> l) -> NoDup (f <$> List.filter p l).
Proof.
  induction l as [|x l IH]; [done|]. rewrite fmap_cons, NoDup_cons. intros [Hx Hl]. simpl.
  destruct (p x); [|by apply IH]. rewrite fmap_cons, NoDup_cons. split; [|by apply IH].
  intros (y & Ey & Hy)%list_elem_of_fmap. apply list_elem_of_In, filter_In in Hy as [Hy _].
  apply Hx. rewrite Ey. apply list_elem_of_fmap_2. by apply list_elem_of_In.
Qed.

Lemma keyed_NoDup s : store_wf s -> NoDup (tx_ID <$> (map_to_list (q_rows s)).*2).
Proof.
  intros Hwf. assert (E : tx_ID <$> (map_to_list (q_rows s)).*2 = (map_to_list (q_rows s)).*1).
  { rewrite <- (list_fmap_compose snd tx_ID). apply list_fmap_ext. intros i [k t] Hi.
    apply list_elem_of_lookup_2, elem_of_map_to_list in Hi. by apply (wf_keyed _ Hwf). }
  rewrite E. apply NoDup_fst_map_to_list.
Qed.

Lemma select_NoDup q s : store_wf s -> NoDup (tx_ID <$> q_Select q s).
Proof.
  intros Hwf. destruct (Select_spec q s) as (l & Hl & ->).
  assert (Hnd : NoDup (tx_ID <$> order_rows (qr_order q) (List.filter (query_holds q) l))).
  { rewrite order_rows_perm. apply NoDup_map_filter. rewrite Hl. by apply keyed_NoDup. }
  unfold limit_rows. destruct (_ && _); [|done]. rewrite fmap_take.
  eapply sublist_NoDup; [done|apply sublist_take].
Qed.

Lemma select_elem q s t : t ∈ q_Select q s -> query_holds q t = true /\ exists k, q_rows s !! k = Some t.
Proof.
  destruct (Select_spec q s) as (l & Hl & ->). intros H%limit_rows_elem. rewrite order_rows_perm in H.
  apply list_elem_of_In, filter_In in H as [H Hq]. split; [done|].
  apply list_elem_of_In in H. rewrite Hl in H. apply list_elem_of_fmap in H as ([k t'] & -> & H).
  exists k. by apply elem_of_map_to_list.
Qed.

Lemma lane_query_selected w n : store_wf (w_store w) -> Forall (selected w) (q_Select (lane_query m c n) (w_store w)).
Proof.
  intros Hwf. apply Forall_forall. intros t (Hq & k & Hk)%select_elem.
  unfold query_holds, lane_query in Hq. simpl in Hq. rewrite !andb_true_iff in Hq. destruct Hq as (Hc & Hs & Hst & _).
  apply bool_decide_eq_true, list_elem_of_singleton in Hc. apply bool_decide_eq_true, active_not_completed in Hst.
  rewrite orb_true_iff, !bool_decide_eq_true in Hs. unfold selected.
  rewrite (wf_keyed _ Hwf _ _ Hk). done.
Qed.

(** *** The batch and its lock *)

Lemma lane_of_max_covers s : lane_inv s -> covers (lane_of_max (q_MaxAssignedNonce (m_sender m) c s)) s.
Proof.
  intros I k t n Ht Hl Hn. destruct (q_MaxAssignedNonce (m_sender m) c s) as [mx|] eqn:E.
  - destruct (MaxAssignedNonce_Some _ _ _ _ E) as [(k' & t' & Ht' & Hl' & Hn') Hub].
    apply lane_of_max_above; [|by apply (Hub k t)].
    by apply (ro_bounds _ _ (li_row _ I _ _ Ht' (in_lane_own _ Hl'))).
  - by rewrite (MaxAssignedNonce_None _ _ _ E _ _ Ht Hl) in Hn.
Qed.

Lemma read_triple {A} w0 (f : St -> result GoError A) :
  triple (eq w0) (mtry (db_read f)) (fun r w => w = tick w0 /\ forall a, r = Ok a -> f (w_store w0) = Ok a) (fun _ _ => False).
Proof.
  intros w <-. unfold mtry, db_read. destruct (env_store _); [destruct (f _) eqn:E|..]; (split; [done|]); by intros ? [= <-].
Qed.

Lemma lane_batch_triple w0 : lane_inv (w_store w0) ->
  triple (eq w0) (lane_batch m c) (fun _ => batch_ok (w_store w0)) (fun _ => batch_ok (w_store w0)).
Proof.
  intros I. assert (H0 : batch_ok (w_store w0) w0) by (split; [done|apply chain_frame_refl]).
  unfold lane_batch. eapply triple_bind; [eapply triple_weaken; [apply read_triple|done|done|done]|].
  intros r. apply triple_pure. intros Hr. destruct r as [mx|e]; [|by apply triple_ret; intros ? ->].
  specialize (Hr mx eq_refl). injection Hr as <-.
  set (w1 := put_lane (lane_of_max (q_MaxAssignedNonce (m_sender m) c (w_store w0))) (tick w0)).
  eapply triple_bind with (K := fun _ w => w = w1); [by intros w ->|]. intros _.
  eapply triple_bind with (K := fun _ w => w = tick w1); [by intros w ->|]. intros n.
  apply triple_pointwise. intros w ->.
  eapply triple_bind; [eapply triple_weaken; [apply read_triple|done|done|done]|].
  intros r. apply triple_pure. intros Hr. destruct r as [txs|e]; [|by apply triple_ret; intros ? ->].
  specialize (Hr txs eq_refl). injection Hr as <-. apply triple_pointwise. intros w ->.
  apply loop_triple; [split; [done|by apply lane_of_max_covers]|apply chain_frame_refl|by apply select_NoDup, I|].
  apply (lane_query_selected (tick (tick w1))), I.
Qed.

(** Stores with the same rows, attempts and hash owners. *)
Definition same_views (s s' : St) : Prop :=
  q_rows s' = q_rows s /\ (forall id, q_attempts s' id = q_attempts s id) /\ (forall h, q_owner s' h = q_owner s h).

Lemma lane_inv_views s s' : same_views s s' -> lane_inv s -> lane_inv s'.
Proof.
  intros (Hr & Ha & Ho) I. apply (lane_inv_ext top_lane s); [|by intros k; rewrite Hr|done|split; [done|by apply covers_top]].
  destruct (li_wf _ I) as [W1 W2]. split; [intros k t; rewrite Hr; apply W1|].
  intros id a. rewrite Ha, Ho. apply W2.
Qed.

Lemma chain_frame_views s0 s1 s2 s3 : same_views s0 s1 -> same_views s2 s3 -> chain_frame s1 s2 -> chain_frame s0 s3.
Proof.
  intros (Hr & Ha & _) (Hr' & Ha' & _) F k. destruct (F k) as [[E1 E2]|(t0 & t & E1 & E2 & ?)].
  - left. by rewrite Hr', Ha', E1, E2, Hr, Ha.
  - right. exists t0, t. rewrite Hr in E1. by rewrite Hr'.
Qed.

Lemma same_views_refl s : same_views s s.
Proof. by repeat split. Qed.

Lemma write_views {A} (f : St -> result GoError A * St) w :
  same_views (w_store w) (snd (f (w_store w))) -> same_views (w_store w) (w_store (snd (mtry (db_write f) w))).
Proof.
  intros H. unfold mtry, db_write. destruct (env_store _); [|apply same_views_refl|done].
  destruct (f (w_store w)) as [[a|e] s']; done.
Qed.

Lemma trylock_views w : same_views (w_store w) (w_store (snd (mtry (db_TryLockLane (m_sender m) c) w))).
Proof.
  apply write_views.
  destruct (q_TryLockLane (m_sender m) c (w_store w)) as [b s'] eqn:E. simpl.
  change s' with (snd (b, s')). rewrite <- E.
  split; [apply TryLockLane_rows|]. split; [apply TryLockLane_attempts|apply TryLockLane_owner].
Qed.

Lemma unlock_views w : same_views (w_store w) (w_store (snd (mtry (db_UnlockLane (m_sender m) c) w))).
Proof.
  apply write_views. split; [apply UnlockLane_rows|]. split; [apply UnlockLane_attempts|apply UnlockLane_owner].
Qed.

Lemma unless_cancelled_eq (k : M (St := St) unit) w :
  unless_cancelled k w = match env_ctx (w_tick w) with Some _ => (Val tt, tick w) | None => k (tick w) end.
Proof. unfold unless_cancelled, ctx_err, ask, mbind. by destruct (env_ctx _). Qed.

Lemma mbind_eq {A B} (x : M (St := St) A) (k : A -> M (St := St) B) w :
  mbind x k w = match x w with
                | (Val a, w') => k a w'
                | (Fail e, w') => (Fail e, w')
                | (Panic p, w') => (Panic p, w')
                end.
Proof. done. Qed.

(** What [processLaneBatch] does to the store, apart from the lock. *)
Lemma batch_shape w :
  same_views (w_store w) (w_store (snd (processLaneBatch m c w))) \/
  exists w1, same_views (w_store w) (w_store w1) /\
    same_views (w_store (snd (lane_batch m c w1))) (w_store (snd (processLaneBatch m c w))).
Proof.
  unfold processLaneBatch. rewrite unless_cancelled_eq. destruct (env_ctx (w_tick w)); [left; apply same_views_refl|].
  pose proof (trylock_views (tick w)) as Hv. rewrite mbind_eq.
  destruct (mtry (db_TryLockLane (m_sender m) c) (tick w)) as [[[[|]|e]|e|p] w1]; try by left.
  right. exists w1. split; [done|]. unfold mdefer. destruct (lane_batch m c w1) as [r w2]. rewrite mbind_eq.
  pose proof (unlock_views w2) as Hu. by destruct (mtry (db_UnlockLane (m_sender m) c) w2) as [[b|e|p] w3].
Qed.

Lemma batch_keeps w (I : lane_inv (w_store w)) :
  let s' := w_store (snd (processLaneBatch m c w)) in lane_inv s' /\ chain_frame (w_store w) s'.
Proof.
  cbv zeta. destruct (batch_shape w) as [Hv|(w1 & H1 & H2)].
  - split; [by eapply lane_inv_views|]. eapply chain_frame_views; [apply same_views_refl|done|apply chain_frame_refl].
  - pose proof (lane_inv_views _ _ H1 I) as I1.
    destruct (triple_final _ _ _ (lane_batch_triple w1 I1)) as [I2 F2].
    split; [by eapply lane_inv_views|by eapply chain_frame_views].
Qed.

(** A lane batch on one chain leaves the rows and the signed attempts of every
    other chain exactly as they were, and keeps the identity and the signed payload
    (operation key, destination, calldata, value, gas limit, authorizations) of
    every row of its own. *)
Theorem processLaneBatch_isolated w (I : lane_inv (w_store w)) :
  chain_frame (w_store w) (w_store (snd (processLaneBatch m c w))).
Proof. apply (batch_keeps w I). Qed.
End nonces.

(** ** All lanes of a manager *)

Section ticks.
Context `{G : GoEthereum} `{Q : !TransactionsQ St} `{L : !TransactionsQLaws} `{V : !Env} `{U : UnicodeTables}.
Context `{N : !NodeLaws} `{SL : !SignerLaws} `{SE : !StoreErrors}.
Variable m : txManager.
Hypothesis Hzero : m_sender m <> address_zero.

Lemma lane_inv_other c c' s0 s :
  c <> c' -> store_wf s -> chain_frame c s0 s -> lane_inv m c' s0 -> lane_inv m c' s.
Proof.
  intros Hc Hwf F I.
  assert (H : forall k t, q_rows s !! k = Some t -> tx_ChainID t = c' ->
            q_rows s0 !! k = Some t /\ q_attempts s k = q_attempts s0 k).
  { intros k t Ht Hct. destruct (F k) as [[E1 E2]|(t0 & t' & _ & E & Hc0 & (_ & _ & _ & _ & Ep & _))]; [by rewrite <- E1|congruence]. }
  split; [done| |].
  - intros k1 k2 t1 t2 n H1 H2 L1 L2. apply (li_unique _ _ _ I k1 k2 t1 t2 n); try done.
    + by apply H; [|apply L1].
    + by apply H; [|apply L2].
  - intros k t Ht Hown. destruct (H k t Ht (proj1 Hown)) as [Ht0 ->]. by apply (li_row _ _ _ I).
Qed.

Definition lanes_inv (s : St) : Prop := forall c, lane_inv m c s.

Lemma chains_keep cs w : lanes_inv (w_store w) -> lanes_inv (w_store (snd (process_chains m cs w))).
Proof.
  revert w. induction cs as [|c cs IH]; intros w I; [done|]. cbn [process_chains]. rewrite mbind_eq.
  pose proof (batch_keeps m c Hzero w (I c)) as [I' F]. cbv zeta in I', F.
  assert (H : lanes_inv (w_store (snd (processLaneBatch m c w)))).
  { intros c'. destruct (decide (c = c')) as [<-|D]; [done|]. by apply (lane_inv_other c c' (w_store w)); [|apply I'|..]. }
  destruct (processLaneBatch m c w) as [[[]|e|p] w1]; [by apply IH|done..].
Qed.

Lemma processTxs_keeps w idx : lanes_inv (w_store w) -> lanes_inv (w_store (snd (processTxs m idx w))).
Proof.
  intros I. unfold processTxs. destruct (nextWorkChainIDs _ _ _) as [cs idx']. rewrite mbind_eq.
  pose proof (chains_keep cs w I) as H. by destruct (process_chains m cs w) as [[[]|e|p] w'].
Qed.

(** C2: No two transactions share a nonce. One tick of the processor keeps, for
    every chain: the nonces assigned to the rows of the manager's account are
    pairwise distinct, and every active row of the account agrees with its signed
    transaction and with each of its attempts on the nonce and the signer. This
    holds whatever the node answers, whichever store call fails (before or after
    its write commits), and whether or not a step panics. *)
Theorem processTxs_nonces w idx (I : lanes_inv (w_store w)) : lanes_inv (w_store (snd (processTxs m idx w))).
Proof. by apply processTxs_keeps. Qed.
End ticks.
