(* ===== verification/Submit.v ===== *)
(** * Queueing and awaiting transactions (evm/txmngr/txmngr.go)

    [SendTxAsync] with its options, and [WaitTxCompleted].  Theorems: retrying an
    operation key is idempotent, and a reused key with another payload is
    refused, whatever happened to the row in between. *)
From S2P Require Export Payload NonceSafety.
Local Open Scope Z_scope.
Local Open Scope go_scope.

Record SendTxOptions := mkOptions { OperationKey : option string }.

(** An option is a function on the options; a nil one is [None]. *)
Definition SendTxOption : Type := option (SendTxOptions -> SendTxOptions).

Definition WithOperationKey (operationKey : string) : SendTxOption :=
  Some (fun options => if String.eqb operationKey "" then options else {| OperationKey := Some operationKey |}).

Definition apply_options (opts : list SendTxOption) : SendTxOptions :=
  fold_left (fun options option => match option with Some f => f options | None => options end) opts
    {| OperationKey := None |}.

Section submit.
Context `{G : GoEthereum} `{Q : !TransactionsQ St} `{V : !Env} `{C : !PayloadCodec}.
Variable m : txManager.
(* uuid.New().String() *)
Variable new_uuid : nat -> string.

(** The row [SendTxAsync] queues. *)
Definition queued (id : string) (chainId : Z) (addr : Address) (txData : option (list Byte.byte)) (gasLimit value : Z)
    (authorizations : list Authorization) (intentID operationKey : option string) (payloadHash : string)
    (at_now : Time) : Transaction :=
  {| tx_ID := id; tx_IntentID := intentID; tx_OperationKey := operationKey; tx_PayloadHash := Some payloadHash;
     tx_ChainID := chainId; tx_Sender := m_sender m; tx_Address := addr; tx_Data := default [] txData;
     tx_Value := Some value; tx_GasLimit := gasLimit; tx_RawAuthorizations := authorizations;
     tx_AssignedNonce := None; tx_Tx := None; tx_Receipt := None; tx_Status := PendingTxStatus; tx_Msg := "";
     tx_NextActionAt := at_now; tx_BroadcastPending := false; tx_RejectedAttemptHash := None;
     tx_NonceConsumedAt := None; tx_NotifiedAt := None; tx_NotificationAttempts := 0;
     tx_NextNotificationAt := at_now; tx_NotificationError := ""; tx_UpdatedAt := at_now; tx_CreatedAt := at_now |}.

Definition SendTxAsync (chainId : Z) (addr : Address) (txData : option (list Byte.byte)) (gasLimit : Z)
    (value : option Z) (authorizations : list Authorization) (intentID : option string)
    (opts : list SendTxOption) : M (St := St) string :=
  if negb (bool_decide (chainId ∈ m_clients m)) then
    mfail (errors_New ("unsupported chain ID: " +:+ pretty chainId))
  else
    let options := apply_options opts in
    let value := default 0 value in
    let! payloadHash := wrap_err (fun e => Errorf_w "hashing transaction payload: " e "")
      (lift (transactionPayloadHash
        {| p_ChainID := chainId; p_Address := addr; p_Data := txData; p_GasLimit := gasLimit; p_Value := value;
           p_Authorizations := authorizations |})) in
    let! id := ask new_uuid in
    let! at_now := now in
    let! stored := wrap_err (fun e => Errorf_w "failed to store tx in the transactionsQ: " e "")
      (db_InsertOrGet (queued id chainId addr txData gasLimit value authorizations intentID (OperationKey options)
                         payloadHash at_now)) in
    mret (tx_ID stored).

(** One pass of the loop of [WaitTxCompleted]: [None] when it polls again. *)
Definition wait_pass (id : string) : M (St := St) (option Transaction) :=
  let! c := ctx_err in
  match c with
  | Some e => mfail e                      (* <-ctx.Done() *)
  | None =>                                (* <-ticker.C *)
      let! r := mtry (db_Get {| qr_filters := [FilterByIds [id]]; qr_order := orderNone; qr_limit := 0 |}) in
      match r with
      | Err e => if Is e ErrNoRows then mret None else mfail e
      | Ok tx => if IsCompleted tx then mret (Some tx) else mret None
      end
  end.

(** [ticks] passes; [None] when none of them ended the wait. *)
Fixpoint WaitTxCompleted (ticks : nat) (id : string) : M (St := St) (option Transaction) :=
  match ticks with
  | O => mret None
  | S ticks =>
      let! r := wait_pass id in
      match r with Some tx => mret (Some tx) | None => WaitTxCompleted ticks id end
  end.

(** ** Idempotency *)

Context `{L : !TransactionsQLaws (St := St)}.

(** At most one row per operation key. *)
Definition keys_unique (s : St) : Prop := forall key k1 k2 t1 t2,
  q_rows s !! k1 = Some t1 -> q_rows s !! k2 = Some t2 -> has_operation key t1 -> has_operation key t2 -> k1 = k2.

Lemma InsertOrGet_again tx s key k t :
  keys_unique s -> has_operation key tx -> q_rows s !! k = Some t -> has_operation key t ->
  q_rows (snd (q_InsertOrGet tx s)) = q_rows s /\ fst (q_InsertOrGet tx s) = operation_verdict t tx.
Proof.
  intros Hu H1 H2 H3. destruct (InsertOrGet_found tx s key k t H1 H2 H3) as (Hr & k' & t' & H4 & H5 & Hf).
  split; [done|]. assert (k' = k) as -> by (by apply (Hu key k' k t' t)). congruence.
Qed.

Lemma operation_cases tx s :
  (exists key k t, has_operation key tx /\ q_rows s !! k = Some t /\ has_operation key t) \/
  (forall key k t, has_operation key tx -> q_rows s !! k = Some t -> ~ has_operation key t).
Proof.
  destruct (tx_OperationKey tx) as [key|] eqn:Ek.
  - destruct (decide (map_Exists (fun _ t => tx_OperationKey t = Some key) (q_rows s))) as [(k & t & Ht & Hk)|Hno].
    + left. by exists key, k, t.
    + right. intros key' k t Hk Ht Hk'. apply Hno. exists k, t. split; [done|].
      unfold has_operation in *. congruence.
  - right. intros key k t Hk. unfold has_operation in Hk. congruence.
Qed.

Lemma InsertOrGet_rows tx s :
  q_rows (snd (q_InsertOrGet tx s)) = q_rows s \/
  (q_rows (snd (q_InsertOrGet tx s)) = <[tx_ID tx := tx]> (q_rows s) /\ fst (q_InsertOrGet tx s) = Ok tx /\
   forall key k t, has_operation key tx -> q_rows s !! k = Some t -> ~ has_operation key t).
Proof.
  destruct (operation_cases tx s) as [(key & k & t & H1 & H2 & H3)|Hno].
  - left. by apply (InsertOrGet_found tx s key k t).
  - right. by destruct (InsertOrGet_new tx s Hno).
Qed.

Lemma InsertOrGet_keys tx s : keys_unique s -> q_rows s !! tx_ID tx = None -> keys_unique (snd (q_InsertOrGet tx s)).
Proof.
  intros Hu Hid. destruct (InsertOrGet_rows tx s) as [Hr|(Hr & _ & Hno)]; intros key k1 k2 t1 t2; rewrite Hr; [apply Hu|].
  destruct (decide (tx_ID tx = k1)) as [<-|D1], (decide (tx_ID tx = k2)) as [<-|D2];
    rewrite ?lookup_insert_eq, ?lookup_insert_ne by done; intros H1 H2 O1 O2; [done|..].
  - injection H1 as <-. by destruct (Hno key k2 t2 O1).
  - injection H2 as <-. by destruct (Hno key k1 t1 O2).
  - by apply (Hu key k1 k2 t1 t2).
Qed.

(** The world after [SendTxAsync]: unless it stopped earlier, that of one
    [InsertOrGet]. *)
Lemma SendTxAsync_world chainId addr txData gasLimit value auths intentID opts w :
  let r := SendTxAsync chainId addr txData gasLimit value auths intentID opts w in
  w_store (snd r) = w_store w /\ (exists e, fst r = Fail e) /\
    (chainId ∉ m_clients m \/ exists e, transactionPayloadHash {| p_ChainID := chainId; p_Address := addr;
       p_Data := txData; p_GasLimit := gasLimit; p_Value := default 0 value; p_Authorizations := auths |} = Err e) \/
  exists h n,
    transactionPayloadHash {| p_ChainID := chainId; p_Address := addr; p_Data := txData; p_GasLimit := gasLimit;
      p_Value := default 0 value; p_Authorizations := auths |} = Ok h /\
    let tx := queued (new_uuid (w_tick w)) chainId addr txData gasLimit (default 0 value) auths intentID
                (OperationKey (apply_options opts)) h n in
    (w_store (snd r) = w_store w \/ w_store (snd r) = snd (q_InsertOrGet tx (w_store w))) /\
    (forall i, fst r = Val i -> exists t, fst (q_InsertOrGet tx (w_store w)) = Ok t /\ i = tx_ID t) /\
    ((forall n, env_store n = NoFault) -> forall t, fst (q_InsertOrGet tx (w_store w)) = Ok t -> fst r = Val (tx_ID t)).
Proof.
  cbv zeta. unfold SendTxAsync. destruct (negb _) eqn:Ec.
  { left. split; [done|]. split; [by eexists|]. left. by apply negb_true_iff, bool_decide_eq_false in Ec. }
  cbv zeta. destruct (transactionPayloadHash _) as [h|e] eqn:Eh; [|left; split; [done|]; split; [|right]; by eexists].
  right. exists h, (env_now (S (w_tick w))). split; [done|].
  set (tx := queued _ _ _ _ _ _ _ _ _ _ _).
  unfold wrap_err, mbind, lift, mret, ask, now, ask, db_InsertOrGet, db_write. simpl. fold tx.
  destruct (env_store _) eqn:Ef.
  - destruct (q_InsertOrGet tx (w_store w)) as [[t|e] s']; simpl; (split; [by right|]); [|done].
    split; [intros i [= <-]; by exists t|by intros _ t' [= <-]].
  - simpl. split; [by left|]. split; [done|]. intros Hn. by rewrite Hn in Ef.
  - simpl. split; [by right|]. split; [done|]. intros Hn. by rewrite Hn in Ef.
Qed.

(** C7: Retrying an operation is idempotent. If the store already holds a row for
    the operation key, [SendTxAsync] with that key never adds or changes a row,
    and when it succeeds it returns the id of the existing row, whose payload hash
    is the one submitted; with a different payload it never succeeds. When the
    chain is supported, the payload is the same and the store does not fail, it
    does succeed. *)
Theorem SendTxAsync_idempotent chainId addr txData gasLimit value auths intentID opts w key k t h
    (Hu : keys_unique (w_store w)) (Hkey : OperationKey (apply_options opts) = Some key)
    (Hrow : q_rows (w_store w) !! k = Some t) (Hop : has_operation key t)
    (Hh : transactionPayloadHash {| p_ChainID := chainId; p_Address := addr; p_Data := txData; p_GasLimit := gasLimit;
      p_Value := default 0 value; p_Authorizations := auths |} = Ok h) :
  let r := SendTxAsync chainId addr txData gasLimit value auths intentID opts w in
  q_rows (w_store (snd r)) = q_rows (w_store w) /\
  (forall i, fst r = Val i -> i = tx_ID t /\ tx_PayloadHash t = Some h) /\
  (chainId ∈ m_clients m -> tx_PayloadHash t = Some h -> (forall n, env_store n = NoFault) -> fst r = Val (tx_ID t)).
Proof.
  cbv zeta. destruct (SendTxAsync_world chainId addr txData gasLimit value auths intentID opts w)
    as [(-> & [e Hf] & Hwhy)|(h' & n & Eh & Hs & Hv & Hl)].
  { rewrite Hf. split; [done|]. split; [done|]. intros Hc. destruct Hwhy as [|[e' He']]; [done|congruence]. }
  rewrite Hh in Eh. injection Eh as <-. set (tx := queued _ _ _ _ _ _ _ _ _ _ _) in *.
  destruct (InsertOrGet_again tx (w_store w) key k t Hu Hkey Hrow Hop) as [Hr Hf].
  split; [destruct Hs as [-> | ->]; done|]. rewrite Hf in Hv, Hl. unfold operation_verdict in Hv, Hl.
  destruct (tx_PayloadHash t) as [hs|]; simpl in Hv, Hl.
  - destruct (String.eqb hs h) eqn:E.
    + apply String.eqb_eq in E as ->. split; [|auto]. intros i Hi. by destruct (Hv i Hi) as (t' & [= <-] & ->).
    + apply String.eqb_neq in E. split; [|congruence]. intros i Hi. by destruct (Hv i Hi) as (t' & ? & _).
  - split; [|done]. intros i Hi. by destruct (Hv i Hi) as (t' & ? & _).
Qed.

(** ** Queueing keeps the invariants *)

Lemma lane_inv_queue c tx s s' :
  m_sender m <> address_zero ->
  tx_AssignedNonce tx = None -> tx_Tx tx = None -> tx_Sender tx = m_sender m -> msg_ok tx ->
  q_rows s !! tx_ID tx = None -> q_attempts s (tx_ID tx) = [] ->
  q_rows s' = <[tx_ID tx := tx]> (q_rows s) -> (forall id, q_attempts s' id = q_attempts s id) ->
  (forall h, q_owner s' h = q_owner s h) -> lane_inv m c s -> lane_inv m c s'.
Proof.
  intros Hz Hn Ht Hs Hm Hid Hatt Hr Ha Ho I. split.
  - destruct (li_wf _ _ _ I) as [W1 W2]. split.
    + intros k t. rewrite Hr, lookup_insert. case_decide; [congruence|apply W1].
    + intros id a. rewrite Ha, Ho. apply W2.
  - intros k1 k2 t1 t2 n. rewrite Hr, !lookup_insert. repeat case_decide; intros; simplify_eq; try congruence.
    by apply (li_unique _ _ _ I k1 k2 t1 t2 n).
  - intros k t. rewrite Hr, Ha, lookup_insert. case_decide as E; [|apply (li_row _ _ _ I)].
    intros [= <-] _. rewrite <- E, Hatt. split; [congruence|congruence|]. intros _. rewrite Hn, Ht.
    split; [by intros raw|]. by split; [constructor|].
Qed.

Lemma InsertOrGet_lane c tx s :
  m_sender m <> address_zero ->
  tx_AssignedNonce tx = None -> tx_Tx tx = None -> tx_Sender tx = m_sender m -> msg_ok tx ->
  q_rows s !! tx_ID tx = None -> q_attempts s (tx_ID tx) = [] -> lane_inv m c s ->
  lane_inv m c (snd (q_InsertOrGet tx s)).
Proof.
  intros Hz Hn Ht Hs Hm Hid Hatt I. destruct (InsertOrGet_rows tx s) as [Hr|(Hr & _)].
  - apply (lane_inv_views m c s); [|done]. split; [done|]. split; [apply InsertOrGet_attempts|apply InsertOrGet_owner].
  - apply (lane_inv_queue c tx s); try done; [apply InsertOrGet_attempts|apply InsertOrGet_owner].
Qed.

Lemma SendTxAsync_keeps chainId addr txData gasLimit value auths intentID opts w
    (Hz : m_sender m <> address_zero)
    (Hid : q_rows (w_store w) !! new_uuid (w_tick w) = None) (Hatt : q_attempts (w_store w) (new_uuid (w_tick w)) = [])
    (I : lanes_inv m (w_store w)) (Hu : keys_unique (w_store w)) :
  let s' := w_store (snd (SendTxAsync chainId addr txData gasLimit value auths intentID opts w)) in
  lanes_inv m s' /\ keys_unique s'.
Proof.
  cbv zeta. destruct (SendTxAsync_world chainId addr txData gasLimit value auths intentID opts w)
    as [(-> & _)|(h & n & _ & [-> | ->] & _)]; [done..|].
  split; [|by apply InsertOrGet_keys]. intros c.
  apply InsertOrGet_lane; try done. by split; [|constructor].
Qed.

(** Queueing is safe. With a fresh uuid, [SendTxAsync] keeps the lane invariant
    of every chain (unique nonces, consistent rows) and the uniqueness of
    operation keys, whether it succeeds or fails. *)
Theorem SendTxAsync_keeps_invariants chainId addr txData gasLimit value auths intentID opts w
    (Hz : m_sender m <> address_zero)
    (Hid : q_rows (w_store w) !! new_uuid (w_tick w) = None) (Hatt : q_attempts (w_store w) (new_uuid (w_tick w)) = [])
    (I : lanes_inv m (w_store w)) (Hu : keys_unique (w_store w)) :
  let s' := w_store (snd (SendTxAsync chainId addr txData gasLimit value auths intentID opts w)) in
  lanes_inv m s' /\ keys_unique s'.
Proof. by apply SendTxAsync_keeps. Qed.
End submit.
