(* ===== verification/Notify.v ===== *)
(** * Status notifications (evm/txmngr/txmngr.go)

    [deliverStatusNotifications] and what it calls.  The callback is the
    environment's: it may return an error or panic.  The workers of a tick act on
    distinct rows; they are run one after the other here. *)
From S2P Require Export NonceSafety.
Local Open Scope Z_scope.
Local Open Scope go_scope.

Definition notificationWorkBatch : Z := 50.
Definition notificationMinBackoff : Duration := Second.
Definition notificationMaxBackoff : Duration := Minute.

(** [min(notificationMinBackoff * Duration(1 << min(attempt, 6)), notificationMaxBackoff)] *)
Definition notificationBackoff (attempt : Z) : Duration :=
  Z.min (notificationMinBackoff * Z.shiftl 1 (Z.min attempt 6)) notificationMaxBackoff.

Definition u32_succ (n : Z) : Z := (n + 1) mod 2 ^ 32.

Section notify.
Context `{G : GoEthereum} `{Q : !TransactionsQ St} `{V : !Env}.
Variable m : txManager.

(** The deferred [recover] turns a panic into an error. *)
Definition callStatusCallback (tx : Transaction) : M (St := St) (option GoError) :=
  let! r := ask (fun n => env_callback n tx) in
  match r with
  | Ok err => mret err
  | Err recovered => mret (Some (errors_New ("transaction status callback panicked: " +:+ recovered)))
  end.

(** The row after one delivery that ended with [err]. *)
Definition delivered (err : option GoError) (at_now : Time) (tx : Transaction) : Transaction :=
  let tx :=
    match err with
    | None => set_NotificationError "" (set_NotifiedAt (Some at_now) tx)
    | Some e =>
        let attempts := u32_succ (tx_NotificationAttempts tx) in
        let tx := set_NotificationAttempts attempts tx in
        let tx := set_NotificationError (Error e) tx in
        set_NextNotificationAt (at_now + notificationBackoff attempts) tx
    end in
  set_UpdatedAt at_now tx.

Definition deliverStatusNotification (tx : Transaction) : M (St := St) unit :=
  let! err := callStatusCallback tx in
  let! c := ctx_err in
  match c with
  | Some _ => mret tt
  | None =>
      let! at_now := now in
      do! mtry (db_UpdateNotification (delivered err at_now tx)) in
      mret tt
  end.

Fixpoint deliver_all (txs : list Transaction) : M (St := St) unit :=
  match txs with
  | [] => mret tt
  | tx :: rest =>
      let! c := ctx_err in
      match c with
      | Some _ => mret tt
      | None => do! deliverStatusNotification tx in deliver_all rest
      end
  end.

Definition deliverStatusNotifications : M (St := St) unit :=
  let! at_now := now in
  let! txs := mtry (db_Select {| qr_filters := [FilterNotificationReadyBefore at_now];
                                 qr_order := orderNextNotification; qr_limit := notificationWorkBatch |}) in
  match txs with
  | Err _ => mret tt
  | Ok txs => deliver_all txs
  end.

(** ** Backoff *)

(** The notification backoff lies between one second and one minute, never
    shrinks as attempts grow, and is the maximum from the sixth attempt on. *)
Theorem notificationBackoff_bounds a b (Ha : 0 <= a) (Hab : a <= b) :
  notificationMinBackoff <= notificationBackoff a <= notificationMaxBackoff /\
  notificationBackoff a <= notificationBackoff b /\
  (6 <= a -> notificationBackoff a = notificationMaxBackoff).
Proof.
  unfold notificationBackoff. rewrite !Z.shiftl_mul_pow2, !Z.mul_1_l by lia.
  assert (H : forall n, 0 <= n -> 1 <= 2 ^ Z.min n 6 <= 64).
  { intros n Hn. pose proof (Z.pow_pos_nonneg 2 (Z.min n 6)). pose proof (Z.pow_le_mono_r 2 (Z.min n 6) 6). lia. }
  pose proof (H a Ha). pose proof (Z.pow_le_mono_r 2 (Z.min a 6) (Z.min b 6)).
  unfold notificationMinBackoff, notificationMaxBackoff, Minute, Second in *.
  split; [lia|]. split; [lia|]. intros H6. rewrite (Z.min_r a 6) by done. reflexivity.
Qed.

(** ** What a delivery may change *)

Context `{L : !TransactionsQLaws (St := St)}.

(** [t'] is [t], or [t] was terminal and unannounced and only its notification
    columns differ. *)
Definition notify_row (t t' : Transaction) : Prop :=
  t' = t \/ (IsCompleted t = true /\ tx_NotifiedAt t = None /\ t' = merge_notification t' t).

Lemma merge_merge a b t : merge_notification a (merge_notification b t) = merge_notification a t.
Proof. done. Qed.

#[export] Instance notify_row_preorder : PreOrder notify_row.
Proof.
  split; [by left|]. intros t1 t2 t3 [->|(C1 & N1 & E1)] H; [done|]. destruct H as [->|(C2 & N2 & E2)].
  - by right.
  - right. split; [done|]. split; [done|]. rewrite E2 at 1. rewrite E1 at 1. by rewrite merge_merge.
Qed.

Record notify_frame (s s' : St) : Prop := {
  nf_rows k : match q_rows s !! k, q_rows s' !! k with
              | Some t, Some t' => notify_row t t'
              | None, None => True
              | _, _ => False
              end;
  nf_attempts id : q_attempts s' id = q_attempts s id;
  nf_owner h : q_owner s' h = q_owner s h;
}.

#[export] Instance notify_frame_preorder : PreOrder notify_frame.
Proof.
  split.
  - intros s. split; [|done..]. intros k. by destruct (q_rows s !! k).
  - intros s1 s2 s3 [R1 A1 O1] [R2 A2 O2]. split; [|intros; by rewrite A2, A1|intros; by rewrite O2, O1].
    intros k. specialize (R1 k). specialize (R2 k).
    destruct (q_rows s1 !! k), (q_rows s2 !! k), (q_rows s3 !! k); try done. by etrans.
Qed.

Lemma notify_frame_update tx s : notify_frame s (snd (q_UpdateNotification tx s)).
Proof.
  split; [|apply UpdateNotification_attempts|apply UpdateNotification_owner].
  intros k. rewrite UpdateNotification_rows. unfold notifiable_row.
  destruct (q_rows s !! tx_ID tx) as [cur|] eqn:Ecur; [|by destruct (q_rows s !! k)].
  destruct (IsCompleted cur && _) eqn:En; [|by destruct (q_rows s !! k)].
  apply andb_true_iff in En as [Hc Hn%bool_decide_eq_true].
  rewrite lookup_alter. case_decide as E; [subst k|by destruct (q_rows s !! k)].
  rewrite Ecur. simpl. right. done.
Qed.

(** Every world a delivery may leave, and that it does not panic. *)
Definition notifies {A} (c : M (St := St) A) : Prop := forall w,
  notify_frame (w_store w) (w_store (snd (c w))) /\ w_lane (snd (c w)) = w_lane w /\ exists a, fst (c w) = Val a.

Lemma notifies_ret {A} (a : A) : notifies (mret a).
Proof. intros w. split; [done|]. split; [done|]. by exists a. Qed.

Lemma notifies_ask {A} (f : nat -> A) : notifies (ask f).
Proof. intros w. split; [done|]. split; [done|]. by eexists. Qed.

Lemma notifies_bind {A B} (c : M (St := St) A) (k : A -> M (St := St) B) :
  notifies c -> (forall a, notifies (k a)) -> notifies (mbind c k).
Proof.
  intros Hc Hk w. destruct (Hc w) as (F & Hl & a & Ha). unfold mbind. destruct (c w) as [r w1]. simpl in *. subst r.
  destruct (Hk a w1) as (F' & Hl' & b & Hb). split; [by etrans|]. split; [congruence|]. by exists b.
Qed.

Lemma notifies_select q : notifies (mtry (db_Select q)).
Proof.
  intros w. unfold mtry, db_Select, db_read. destruct (env_store _); (split; [done|]); (split; [done|]); by eexists.
Qed.

Lemma notifies_update tx : notifies (mtry (db_UpdateNotification tx)).
Proof.
  intros w. unfold mtry, db_UpdateNotification, db_write. pose proof (notify_frame_update tx (w_store w)) as H.
  destruct (env_store _); [destruct (q_UpdateNotification tx (w_store w)) as [[[]|e] s']|..];
    (split; [done|]); (split; [done|]); by eexists.
Qed.

Lemma notifies_deliver tx : notifies (deliverStatusNotification tx).
Proof.
  apply notifies_bind; [apply notifies_bind; [apply notifies_ask|intros []; apply notifies_ret]|]. intros err.
  apply notifies_bind; [apply notifies_ask|]. intros [e|]; [apply notifies_ret|].
  apply notifies_bind; [apply notifies_ask|]. intros n.
  apply notifies_bind; [apply notifies_update|]. intros r. apply notifies_ret.
Qed.

Lemma notifies_all txs : notifies (deliver_all txs).
Proof.
  induction txs as [|tx rest IH]; [apply notifies_ret|]. apply notifies_bind; [apply notifies_ask|].
  intros [e|]; [apply notifies_ret|]. apply notifies_bind; [apply notifies_deliver|done].
Qed.

Lemma notifies_pass : notifies deliverStatusNotifications.
Proof.
  apply notifies_bind; [apply notifies_ask|]. intros n. apply notifies_bind; [apply notifies_select|].
  intros [txs|e]; [apply notifies_all|apply notifies_ret].
Qed.

Lemma notify_pass w : notify_frame (w_store w) (w_store (snd (deliverStatusNotifications w))).
Proof. apply (notifies_pass w). Qed.

(** C10: Notifications never interfere. A pass of the notification loop leaves
    every attempt, hash owner and row as it was, except that terminal rows not yet
    announced may have their notification columns changed; a row once announced
    is never touched again. The pass never panics, even when callbacks do. *)
Theorem deliverStatusNotifications_frame w :
  notify_frame (w_store w) (w_store (snd (deliverStatusNotifications w))) /\
  exists u, fst (deliverStatusNotifications w) = Val u.
Proof.
  destruct (notifies_pass w) as (F & _ & u & Hu). split; [done|]. by exists u.
Qed.

(** C11: One delivery does what it reports. For a terminal, unannounced row, when
    the store does not fail and the context is live: if the callback returns nil
    the row is marked announced; if it fails or panics the row stays unannounced,
    its attempt count rises by one (as a [uint32]) and its next delivery is a
    backoff away. Nothing else of the row changes. *)
Theorem deliverStatusNotification_spec tx w
    (Hrow : q_rows (w_store w) !! tx_ID tx = Some tx) (Hc : IsCompleted tx = true) (Hn : tx_NotifiedAt tx = None)
    (Hctx : env_ctx (S (w_tick w)) = None) (Hst : env_store (S (S (S (w_tick w)))) = NoFault) :
  let at_now := env_now (S (S (w_tick w))) in
  exists t', q_rows (w_store (snd (deliverStatusNotification tx w))) = <[tx_ID tx := t']> (q_rows (w_store w)) /\
    t' = merge_notification t' tx /\
    match env_callback (w_tick w) tx with
    | Ok None => tx_NotifiedAt t' = Some at_now /\ tx_NotificationAttempts t' = tx_NotificationAttempts tx
    | Ok (Some _) | Err _ =>
        tx_NotifiedAt t' = None /\ tx_NotificationAttempts t' = u32_succ (tx_NotificationAttempts tx) /\
        tx_NextNotificationAt t' = at_now + notificationBackoff (tx_NotificationAttempts t')
    end.
Proof.
  cbv zeta. unfold deliverStatusNotification, callStatusCallback, ctx_err, now, ask, mbind, mret. simpl.
  assert (Hgo : forall err, q_rows (w_store (snd (mtry (db_UpdateNotification
              (delivered err (env_now (S (S (w_tick w)))) tx)) (tick (tick (tick w)))))) =
            <[tx_ID tx := merge_notification (delivered err (env_now (S (S (w_tick w)))) tx) tx]> (q_rows (w_store w))).
  { intros err. set (d := delivered err _ tx). assert (Hid : tx_ID d = tx_ID tx) by by destruct err.
    unfold mtry, db_UpdateNotification, db_write. simpl. rewrite Hst.
    pose proof (UpdateNotification_rows d (w_store w)) as Hr. unfold notifiable_row in Hr.
    rewrite Hid, Hrow, Hc, (bool_decide_eq_true_2 _ Hn) in Hr. simpl in Hr.
    assert (Halt : alter (merge_notification d) (tx_ID tx) (q_rows (w_store w)) =
                   <[tx_ID tx := merge_notification d tx]> (q_rows (w_store w))).
    { apply map_eq. intros k. rewrite lookup_alter, lookup_insert. case_decide; [subst; by rewrite Hrow|done]. }
    rewrite Halt in Hr. by destruct (q_UpdateNotification d (w_store w)) as [[[]|e] s']. }
  assert (Hend : forall err, exists t', q_rows (w_store (snd (let (o, w') := mtry (db_UpdateNotification
              (delivered err (env_now (S (S (w_tick w)))) tx)) (tick (tick (tick w))) in
              match o with Val _ => (Val tt, w') | Fail e => (Fail e, w') | Panic p => (Panic p, w') end))) =
            <[tx_ID tx := t']> (q_rows (w_store w)) /\
            t' = merge_notification (delivered err (env_now (S (S (w_tick w)))) tx) tx).
  { intros err. specialize (Hgo err). eexists. split; [|reflexivity].
    by destruct (mtry _ _) as [[r|e|p] w']. }
  destruct (env_callback (w_tick w) tx) as [[e|]|p]; simpl; rewrite Hctx; simpl.
  - destruct (Hend (Some e)) as (t' & Ht & E). exists t'. split; [exact Ht|]. by rewrite E.
  - destruct (Hend None) as (t' & Ht & E). exists t'. split; [exact Ht|]. by rewrite E.
  - destruct (Hend (Some (errors_New ("transaction status callback panicked: " +:+ p)))) as (t' & Ht & E).
    exists t'. split; [exact Ht|]. by rewrite E.
Qed.
End notify.
