(* ===== verification/System.v ===== *)
(** * The manager as a transition system

    Ticks of the processor, calls of [SendTxAsync] and passes of the
    notification loop, in any order and any number, over one store.  Every
    reachable store keeps nonces and operation keys unique. *)
From S2P Require Export Submit Notify.
Local Open Scope Z_scope.

Section system.
Context `{G : GoEthereum} `{Q : !TransactionsQ St} `{L : !TransactionsQLaws} `{V : !Env} `{U : UnicodeTables}.
Context `{N : !NodeLaws} `{SL : !SignerLaws} `{SE : !StoreErrors} `{C : !PayloadCodec}.
Variable m : txManager.
Variable new_uuid : nat -> string.
Hypothesis Hzero : m_sender m <> address_zero.

(** A uuid no row and no attempt uses. *)
Definition fresh_uuid (s : St) (id : string) : Prop := q_rows s !! id = None /\ q_attempts s id = [].

Inductive sys_step : World St -> World St -> Prop :=
| sys_tick idx w : sys_step w (snd (processTxs m idx w))
| sys_submit chainId addr txData gasLimit value auths intentID opts w :
    fresh_uuid (w_store w) (new_uuid (w_tick w)) ->
    sys_step w (snd (SendTxAsync m new_uuid chainId addr txData gasLimit value auths intentID opts w))
| sys_notify w : sys_step w (snd (deliverStatusNotifications w))
| sys_metrics w : sys_step w (snd (observeTransactionMetrics m w))
| sys_time w : sys_step w (tick w).

Definition sys_inv (s : St) : Prop := lanes_inv m s /\ keys_unique s.

(** Rows stay, with their payload. *)
Definition payload_frame (s0 s : St) : Prop := forall k,
  match q_rows s0 !! k, q_rows s !! k with
  | Some t0, Some t => same_payload t0 t
  | None, None => True
  | _, _ => False
  end.

#[local] Instance payload_frame_preorder : PreOrder payload_frame.
Proof.
  split.
  - intros s k. by destruct (q_rows s !! k).
  - intros s1 s2 s3 F1 F2 k. specialize (F1 k). specialize (F2 k).
    destruct (q_rows s1 !! k), (q_rows s2 !! k), (q_rows s3 !! k); try done. by etrans.
Qed.

Lemma chain_frame_payload c s0 s : chain_frame c s0 s -> payload_frame s0 s.
Proof.
  intros F k. destruct (F k) as [[-> _]|(t0 & t & -> & -> & _ & Hp)]; [by destruct (q_rows s0 !! k)|done].
Qed.

Lemma payload_frame_keys s0 s : payload_frame s0 s -> keys_unique s0 -> keys_unique s.
Proof.
  intros F Hu key k1 k2 t1 t2 H1 H2 O1 O2. pose proof (F k1) as F1. pose proof (F k2) as F2.
  rewrite H1 in F1. rewrite H2 in F2.
  destruct (q_rows s0 !! k1) as [t1'|] eqn:E1; [|done]. destruct (q_rows s0 !! k2) as [t2'|] eqn:E2; [|done].
  apply (Hu key k1 k2 t1' t2'); try done; unfold has_operation in *.
  - by destruct F1 as (_ & _ & -> & _).
  - by destruct F2 as (_ & _ & -> & _).
Qed.

Lemma chains_payload cs w :
  lanes_inv m (w_store w) -> payload_frame (w_store w) (w_store (snd (process_chains m cs w))).
Proof.
  revert w. induction cs as [|c cs IH]; intros w I; [done|]. cbn [process_chains]. rewrite mbind_eq.
  pose proof (batch_keeps m c Hzero w (I c)) as [_ F]. cbv zeta in F.
  pose proof (chains_keep m Hzero [c] w I) as I'. cbn [process_chains] in I'. rewrite mbind_eq in I'.
  destruct (processLaneBatch m c w) as [[[]|e|p] w1]; simpl in *; try by apply (chain_frame_payload c).
  etrans; [by apply (chain_frame_payload c)|]. by apply IH.
Qed.

Lemma processTxs_payload idx w :
  lanes_inv m (w_store w) -> payload_frame (w_store w) (w_store (snd (processTxs m idx w))).
Proof.
  intros I. unfold processTxs. destruct (nextWorkChainIDs _ _ _) as [cs idx']. rewrite mbind_eq.
  pose proof (chains_payload cs w I) as H. by destruct (process_chains m cs w) as [[[]|e|p] w'].
Qed.

(** *** Notifications *)

Lemma notify_frame_wf s0 s : notify_frame s0 s -> store_wf s0 -> store_wf s.
Proof.
  intros [R A O] [W1 W2]. split.
  - intros k t Ht. specialize (R k). rewrite Ht in R. destruct (q_rows s0 !! k) as [t0|] eqn:E0; [|done].
    rewrite <- (W1 k t0 E0). destruct R as [->|(_ & _ & ->)]; done.
  - intros id a. rewrite A, O. apply W2.
Qed.

(** What a notification leaves of a row. *)
Lemma notify_row_spec t t' : notify_row t t' ->
  same_payload t t' /\ tx_Sender t' = tx_Sender t /\ tx_AssignedNonce t' = tx_AssignedNonce t /\
  IsCompleted t' = IsCompleted t /\ (IsCompleted t = false -> t' = t).
Proof. intros [->|(H & _ & ->)]; [done|]. repeat split; try done. intros H'. by rewrite H in H'. Qed.

Lemma lane_inv_notify c s0 s : notify_frame s0 s -> lane_inv m c s0 -> lane_inv m c s.
Proof.
  intros F I. pose proof (notify_frame_wf _ _ F (li_wf _ _ _ I)) as Hwf. destruct F as [R A _].
  assert (H : forall k t, q_rows s !! k = Some t -> exists t0, q_rows s0 !! k = Some t0 /\ notify_row t0 t).
  { intros k t Ht. specialize (R k). rewrite Ht in R. destruct (q_rows s0 !! k) as [t0|]; [|done]. by exists t0. }
  split; [done| |].
  - intros k1 k2 t1 t2 n H1 H2 [S1 C1] [S2 C2] N1 N2.
    destruct (H k1 t1 H1) as (u1 & U1 & ((_ & _ & _ & _ & P1 & _) & E1 & D1 & _)%notify_row_spec).
    destruct (H k2 t2 H2) as (u2 & U2 & ((_ & _ & _ & _ & P2 & _) & E2 & D2 & _)%notify_row_spec).
    apply (li_unique _ _ _ I k1 k2 u1 u2 n); try done; try split; congruence.
  - intros k t Ht [Hc Hs]. destruct (H k t Ht) as (u & Hu & ((_ & _ & _ & _ & P & _) & E & D & Dc & Da)%notify_row_spec).
    assert (Hown : own m c u) by (split; [congruence|by rewrite <- E]).
    destruct (li_row _ _ _ I k u Hu Hown) as [X Y Z]. split; [by rewrite E, D|by rewrite D|].
    rewrite Dc. intros Hact. rewrite (Da Hact), A. by apply Z.
Qed.

Lemma notify_frame_payload s0 s : notify_frame s0 s -> payload_frame s0 s.
Proof.
  intros F k. pose proof (nf_rows _ _ F k) as R. destruct (q_rows s0 !! k), (q_rows s !! k); try done.
  by apply notify_row_spec.
Qed.

(** *** Reachable states *)

Lemma emit_counts_store l (w : World St) : w_store (snd (emit_counts l w)) = w_store w.
Proof. revert w. induction l as [|[c n] l IH]; intros w; [done|]. exact (IH (push (EvActive c n) w)). Qed.

Lemma metrics_store (w : World St) : w_store (snd (observeTransactionMetrics m w)) = w_store w.
Proof.
  unfold observeTransactionMetrics. rewrite mbind_eq. unfold mtry at 1, db_CountByChain, db_read.
  destruct (env_store _); try done. rewrite mbind_eq.
  pose proof (emit_counts_store (map (fun chainID => (chainID, default 0 (q_CountByChain ActiveStatuses (w_store w) !! chainID)))
    (elements (m_clients m))) (tick w)) as H.
  destruct (emit_counts _ (tick w)) as [[[]|e|p] w']; [|done..]. by rewrite emit_counts_store.
Qed.

Lemma sys_step_inv w w' : sys_step w w' -> sys_inv (w_store w) -> sys_inv (w_store w').
Proof.
  intros H [I Hu]. destruct H as [idx w|chainId addr d g v auths intent opts w [Hid Ha]|w|w|w].
  - split; [by apply processTxs_keeps|]. by eapply payload_frame_keys; [apply processTxs_payload|].
  - by apply SendTxAsync_keeps.
  - assert (F : notify_frame (w_store w) (w_store (snd (deliverStatusNotifications w)))) by apply notify_pass.
    split; [intros c; by eapply lane_inv_notify|]. by eapply payload_frame_keys; [apply notify_frame_payload|].
  - by rewrite metrics_store.
  - done.
Qed.

(** A store with no rows and no attempts. *)
Definition empty_store (s : St) : Prop := q_rows s = ∅ /\ forall id, q_attempts s id = [].

Lemma empty_inv s : empty_store s -> sys_inv s.
Proof.
  intros [Hr Ha]. split.
  - intros c. split.
    + split; [intros k t; by rewrite Hr, lookup_empty|]. intros id a H. rewrite Ha in H. by apply elem_of_nil in H.
    + intros k1 k2 t1 t2 n H. by rewrite Hr, lookup_empty in H.
    + intros k t H. by rewrite Hr, lookup_empty in H.
  - intros key k1 k2 t1 t2 H. by rewrite Hr, lookup_empty in H.
Qed.

(** C1: From an empty store, however ticks, submissions and notification passes
    follow each other, whatever the node and the signer's fee data answer and
    whichever store calls fail: two distinct rows of the manager's account on one
    chain never hold the same nonce, and two distinct rows never hold the same
    operation key. *)
Theorem reachable_unique w0 w (H0 : empty_store (w_store w0)) (Hr : rtc sys_step w0 w) :
  forall k1 k2 t1 t2, k1 <> k2 -> q_rows (w_store w) !! k1 = Some t1 -> q_rows (w_store w) !! k2 = Some t2 ->
  (forall n, tx_Sender t1 = m_sender m -> tx_Sender t2 = m_sender m -> tx_ChainID t1 = tx_ChainID t2 ->
     tx_AssignedNonce t1 = Some n -> tx_AssignedNonce t2 <> Some n) /\
  (forall key, has_operation key t1 -> ~ has_operation key t2).
Proof.
  assert (I : sys_inv (w_store w)).
  { apply empty_inv in H0. induction Hr as [w|w w1 w2 Hs _ IH]; [done|]. by apply IH, (sys_step_inv w). }
  destruct I as [I Hu]. intros k1 k2 t1 t2 Hk H1 H2. split.
  - intros n S1 S2 Hc N1 N2. by apply Hk, (li_unique _ _ _ (I (tx_ChainID t1)) k1 k2 t1 t2 n).
  - intros key O1 O2. by apply Hk, (Hu key k1 k2 t1 t2).
Qed.
End system.
