(* ===== verification/Lifecycle.v ===== *)
(** * Starting and stopping the manager (evm/txmngr/txmngr.go, New, Start, Stop, runLoop)

    Every call of [Start] and [Stop] and every loop is a goroutine with a program
    counter over the shared fields; a step runs one goroutine to its next
    synchronisation.  [sync.Once], [sync.Mutex], [sync.WaitGroup] and channels
    behave as documented, with the misuses the runtime turns into a panic as an
    effect.  A tick of a loop is one step: its effect on the store is [System]'s. *)
From S2P Require Export Batch.
From Stdlib Require Import Lia.
Local Open Scope Z_scope.

Section options.
Context `{G : GoEthereum}.

(** ** New *)

(** A callback, an observer or a gate is represented by whether it is set. *)
Definition Option : Type := txManager -> txManager.

Definition WithOnStatusChange (callback : bool) : Option := fun m =>
  {| m_clients := m_clients m; m_sender := m_sender m; m_bumpIntervalMap := m_bumpIntervalMap m;
     m_blockTimeMap := m_blockTimeMap m; m_getTransactOpts := m_getTransactOpts m;
     m_beforeAttempt := m_beforeAttempt m; m_onStatusChange := callback |}.

Definition WithBeforeAttempt (gate : bool) : Option := fun m =>
  {| m_clients := m_clients m; m_sender := m_sender m; m_bumpIntervalMap := m_bumpIntervalMap m;
     m_blockTimeMap := m_blockTimeMap m; m_getTransactOpts := m_getTransactOpts m;
     m_beforeAttempt := gate; m_onStatusChange := m_onStatusChange m |}.

(** A nil option is skipped; the last of a kind wins. *)
Definition New (clients : gset Z) (sender : Address) (bumpIntervalMap blockTimeMap : gmap Z Duration)
    (getTransactOpts : bool) (opts : list (option Option)) : txManager :=
  foldl (fun m opt => match opt with Some opt => opt m | None => m end)
    {| m_clients := clients; m_sender := sender; m_bumpIntervalMap := bumpIntervalMap; m_blockTimeMap := blockTimeMap;
       m_getTransactOpts := getTransactOpts; m_beforeAttempt := false; m_onStatusChange := false |} opts.

End options.

(** ** Goroutines *)

Inductive once := OnceNew | OnceRunning | OnceDone.

(** The fields of [txManager] that the lifecycle shares; [run_done] is whether
    the context of the loops is cancelled. *)
Record shared := mkShared {
  startOnce : once;
  stopOnce : once;
  lifecycleMu : bool;
  stop_closed : bool;
  cancel : bool;                 (* m.cancel != nil *)
  run_done : bool;
  stopped : bool;
  wg : Z;
}.

(** The fields of a fresh manager. *)
Definition fresh : shared := mkShared OnceNew OnceNew false false false false false 0.

Inductive loop := TxProcessor | TransactionMetrics | NotificationProcessor.
#[global] Instance loop_eq_dec : EqDecision loop.
Proof. solve_decision. Defined.

Inductive start_pc :=
| StartOnce | StartLock | StartCheck | StartRefuse | StartDrop | StartCancel | StartAdd | StartAddNotify
| StartUnlock | StartGoTxs | StartGoMetrics | StartGoNotify | StartFinish | StartReturned.
Inductive stop_pc :=
| StopOnce | StopClose | StopLock | StopMark | StopCancel | StopUnlock | StopFinish | StopWait | StopReturned.
Inductive loop_pc := LoopSelect | LoopTick | LoopExit | LoopExited.

Inductive pc := PStart (p : start_pc) | PStop (p : stop_pc) | PLoop (l : loop) (p : loop_pc).

(** The ready case a [select] takes. *)
Inductive choice := TakeDone | TakeStop | TakeTick.

Inductive effect := Blocked | Panics (msg : string) | Moves (p : pc) (s : shared) (spawned : list pc).

Definition set_startOnce o s := mkShared o (stopOnce s) (lifecycleMu s) (stop_closed s) (cancel s) (run_done s) (stopped s) (wg s).
Definition set_stopOnce o s := mkShared (startOnce s) o (lifecycleMu s) (stop_closed s) (cancel s) (run_done s) (stopped s) (wg s).
Definition set_mu b s := mkShared (startOnce s) (stopOnce s) b (stop_closed s) (cancel s) (run_done s) (stopped s) (wg s).
Definition set_closed s := mkShared (startOnce s) (stopOnce s) (lifecycleMu s) true (cancel s) (run_done s) (stopped s) (wg s).
Definition set_cancel s := mkShared (startOnce s) (stopOnce s) (lifecycleMu s) (stop_closed s) true (run_done s) (stopped s) (wg s).
Definition set_done s := mkShared (startOnce s) (stopOnce s) (lifecycleMu s) (stop_closed s) (cancel s) true (stopped s) (wg s).
Definition set_stopped s := mkShared (startOnce s) (stopOnce s) (lifecycleMu s) (stop_closed s) (cancel s) (run_done s) true (wg s).
Definition set_wg n s := mkShared (startOnce s) (stopOnce s) (lifecycleMu s) (stop_closed s) (cancel s) (run_done s) (stopped s) n.

(** [mu.Lock()] and [mu.Unlock()] before going on at [p]. *)
Definition lock_mu (p : pc) (s : shared) : effect := if lifecycleMu s then Blocked else Moves p (set_mu true s) [].
Definition unlock_mu (p : pc) (s : shared) : effect :=
  if lifecycleMu s then Moves p (set_mu false s) [] else Panics "sync: unlock of unlocked mutex".

(** [wg.Add(delta)]. *)
Definition wg_add (delta : Z) (p : pc) (s : shared) : effect :=
  if wg s + delta <? 0 then Panics "sync: negative WaitGroup counter" else Moves p (set_wg (wg s + delta) s) [].

(** [once.Do]: the first caller runs the function, the others wait for it. *)
Definition once_do (o : once) (run skip : effect) : effect :=
  match o with OnceNew => run | OnceRunning => Blocked | OnceDone => skip end.

Section steps.
Context `{G : GoEthereum}.
Variable m : txManager.

Definition Start (p : start_pc) (s : shared) : effect :=
  match p with
  | StartOnce => once_do (startOnce s) (Moves (PStart StartLock) (set_startOnce OnceRunning s) []) (Moves (PStart StartReturned) s [])
  | StartLock => lock_mu (PStart StartCheck) s
  | StartCheck => Moves (PStart (if stopped s then StartRefuse else StartCancel)) s []
  | StartRefuse => unlock_mu (PStart StartDrop) s
  | StartDrop => Moves (PStart StartFinish) (set_done s) []
  | StartCancel => Moves (PStart StartAdd) (set_cancel s) []
  | StartAdd => wg_add 2 (PStart (if m_onStatusChange m then StartAddNotify else StartUnlock)) s
  | StartAddNotify => wg_add 1 (PStart StartUnlock) s
  | StartUnlock => unlock_mu (PStart StartGoTxs) s
  | StartGoTxs => Moves (PStart StartGoMetrics) s [PLoop TxProcessor LoopSelect]
  | StartGoMetrics => Moves (PStart (if m_onStatusChange m then StartGoNotify else StartFinish)) s [PLoop TransactionMetrics LoopSelect]
  | StartGoNotify => Moves (PStart StartFinish) s [PLoop NotificationProcessor LoopSelect]
  | StartFinish => Moves (PStart StartReturned) (set_startOnce OnceDone s) []
  | StartReturned => Blocked
  end.

Definition Stop (p : stop_pc) (s : shared) : effect :=
  match p with
  | StopOnce => once_do (stopOnce s) (Moves (PStop StopClose) (set_stopOnce OnceRunning s) []) (Moves (PStop StopWait) s [])
  | StopClose => if stop_closed s then Panics "close of closed channel" else Moves (PStop StopLock) (set_closed s) []
  | StopLock => lock_mu (PStop StopMark) s
  | StopMark => Moves (PStop StopCancel) (set_stopped s) []
  | StopCancel => Moves (PStop StopUnlock) (if cancel s then set_done s else s) []
  | StopUnlock => unlock_mu (PStop StopFinish) s
  | StopFinish => Moves (PStop StopWait) (set_stopOnce OnceDone s) []
  | StopWait => if wg s =? 0 then Moves (PStop StopReturned) s [] else Blocked
  | StopReturned => Blocked
  end.

(** [select] takes any ready case; the ticker may be ready at any time. *)
Definition runLoop (ch : choice) (l : loop) (p : loop_pc) (s : shared) : effect :=
  match p with
  | LoopSelect =>
      match ch with
      | TakeDone => if run_done s then Moves (PLoop l LoopExit) s [] else Blocked
      | TakeStop => if stop_closed s then Moves (PLoop l LoopExit) s [] else Blocked
      | TakeTick => Moves (PLoop l LoopTick) s []
      end
  | LoopTick => Moves (PLoop l LoopSelect) s []
  | LoopExit => wg_add (-1) (PLoop l LoopExited) s
  | LoopExited => Blocked
  end.

Definition run (ch : choice) (p : pc) (s : shared) : effect :=
  match p with PStart p => Start p s | PStop p => Stop p s | PLoop l p => runLoop ch l p s end.

Definition lifecycle : Type := shared * list pc.

(** Anyone may call [Start] or [Stop] at any time, and cancel the context given
    to [Start]. *)
Inductive lc_step : lifecycle -> lifecycle -> Prop :=
| lc_start s ts : lc_step (s, ts) (s, ts ++ [PStart StartOnce])
| lc_stop s ts : lc_step (s, ts) (s, ts ++ [PStop StopOnce])
| lc_cancel s ts : lc_step (s, ts) (set_done s, ts)
| lc_run i ch p p' s s' ts spawned : ts !! i = Some p -> run ch p s = Moves p' s' spawned ->
    lc_step (s, ts) (s', <[i := p']> ts ++ spawned).

Definition lc_reachable (c : lifecycle) : Prop := rtc lc_step (fresh, []) c.

(** A step without new calls or cancellation. *)
Definition runs (c c' : lifecycle) : Prop :=
  exists i ch p p' spawned, c.2 !! i = Some p /\ run ch p c.1 = Moves p' c'.1 spawned /\ c'.2 = <[i := p']> c.2 ++ spawned.

(** ** Counting goroutines *)

Definition total (f : pc -> Z) (ts : list pc) : Z := foldr (fun p n => f p + n) 0 ts.

Lemma total_app f ts us : total f (ts ++ us) = total f ts + total f us.
Proof. induction ts as [|p ts IH]; simpl; lia. Qed.

Lemma total_insert f ts i p q : ts !! i = Some p -> total f (<[i := q]> ts) = total f ts - f p + f q.
Proof.
  revert i. induction ts as [|a ts IH]; intros [|i] H; simpl in *; [done|done| |].
  - injection H as ->. lia.
  - rewrite IH by done. lia.
Qed.

Lemma total_pick f ts i p : (forall q, 0 <= f q) -> ts !! i = Some p -> f p <= total f ts.
Proof.
  intros Hf. revert i. induction ts as [|a ts IH]; intros [|i] H; simpl in *; [done|done| |].
  - injection H as ->. enough (0 <= total f ts) by lia. clear -Hf. induction ts as [|b ts IH]; simpl; [lia|]. specialize (Hf b). lia.
  - specialize (IH _ H). specialize (Hf a). lia.
Qed.

Lemma total_pos f ts : (forall q, 0 <= f q) -> 0 < total f ts -> exists i p, ts !! i = Some p /\ 0 < f p.
Proof.
  intros Hf. induction ts as [|a ts IH]; simpl; [lia|]. intros H. destruct (Z.eq_dec (f a) 0) as [E|E].
  - destruct IH as (i & p & Hp); [lia|]. by exists (S i), p.
  - exists 0%nat, a. specialize (Hf a). split; [done|lia].
Qed.

Lemma total_nonneg f ts : (forall q, 0 <= f q) -> 0 <= total f ts.
Proof. intros Hf. induction ts as [|b ts IH]; simpl; [lia|]. specialize (Hf b). lia. Qed.

Lemma total_le f g ts : (forall q, f q <= g q) -> total f ts <= total g ts.
Proof. intros H. induction ts as [|b ts IH]; simpl; [lia|]. specialize (H b). lia. Qed.

(** Where a goroutine is: inside [startOnce] or [stopOnce], holding the mutex,
    past the check of [stopped], past a write of [Stop], and so on. *)
Definition in_start (p : pc) : Z := match p with PStart StartOnce | PStart StartReturned => 0 | PStart _ => 1 | _ => 0 end.
Definition in_stop (p : pc) : Z := match p with PStop StopOnce | PStop StopWait | PStop StopReturned => 0 | PStop _ => 1 | _ => 0 end.
Definition start_holds (p : pc) : Z :=
  match p with
  | PStart (StartCheck | StartRefuse | StartCancel | StartAdd | StartAddNotify | StartUnlock) => 1
  | _ => 0
  end.
Definition stop_holds (p : pc) : Z := match p with PStop (StopMark | StopCancel | StopUnlock) => 1 | _ => 0 end.
Definition admitted (p : pc) : Z :=
  match p with PStart (StartCancel | StartAdd | StartAddNotify | StartUnlock) => 1 | _ => 0 end.
Definition closed_in_stop (p : pc) : Z :=
  match p with PStop (StopLock | StopMark | StopCancel | StopUnlock | StopFinish) => 1 | _ => 0 end.
Definition marked_in_stop (p : pc) : Z := match p with PStop (StopCancel | StopUnlock | StopFinish) => 1 | _ => 0 end.
Definition cancelled_in_stop (p : pc) : Z := match p with PStop (StopUnlock | StopFinish) => 1 | _ => 0 end.
Definition past_stop (p : pc) : Z := match p with PStop (StopWait | StopReturned) => 1 | _ => 0 end.
Definition has_cancel (p : pc) : Z :=
  match p with
  | PStart (StartAdd | StartAddNotify | StartUnlock | StartGoTxs | StartGoMetrics | StartGoNotify) | PLoop _ _ => 1
  | _ => 0
  end.
Definition running (p : pc) : Z := match p with PLoop _ LoopExited => 0 | PLoop _ _ => 1 | _ => 0 end.

(** The wait-group slots a goroutine answers for. *)
Definition slots (p : pc) : Z :=
  let n := Z.b2z (m_onStatusChange m) in
  match p with
  | PStart (StartUnlock | StartGoTxs) => 2 + n
  | PStart (StartAddNotify | StartGoMetrics) => 1 + n
  | PStart StartGoNotify => 1
  | _ => running p
  end.

(** The loops [l] there are or will be. *)
Definition loops (l : loop) (p : pc) : Z :=
  match p with
  | PLoop l' _ => if decide (l = l') then 1 else 0
  | PStart (StartLock | StartCheck | StartCancel | StartAdd | StartAddNotify | StartUnlock | StartGoTxs) => 1
  | PStart StartGoMetrics => match l with TxProcessor => 0 | _ => 1 end
  | PStart StartGoNotify => match l with NotificationProcessor => 1 | _ => 0 end
  | _ => 0
  end.

Definition is_running (o : once) : Z := match o with OnceRunning => 1 | _ => 0 end.
Definition is_done (o : once) : Z := match o with OnceDone => 1 | _ => 0 end.

(** What the shared fields say about the goroutines, and the other way round. *)
Record lc_counts (s : shared) (ts : list pc) : Prop := {
  lc_in_start : total in_start ts = is_running (startOnce s);
  lc_in_stop : total in_stop ts = is_running (stopOnce s);
  lc_mu : total start_holds ts + total stop_holds ts = Z.b2z (lifecycleMu s);
  lc_closed : Z.b2z (stop_closed s) = is_done (stopOnce s) + total closed_in_stop ts;
  lc_stopped : Z.b2z (stopped s) = is_done (stopOnce s) + total marked_in_stop ts;
  lc_slots : wg s = total slots ts;
}.

Record lc_phases (s : shared) (ts : list pc) : Prop := {
  lc_admitted : total admitted ts = 0 \/ Z.b2z (stopped s) = 0;
  lc_past : total past_stop ts = 0 \/ is_done (stopOnce s) = 1;
  lc_has_cancel : total has_cancel ts = 0 \/ Z.b2z (cancel s) = 1;
  lc_cancelled : is_done (stopOnce s) + total cancelled_in_stop ts = 0 \/ Z.b2z (cancel s) = 0 \/ Z.b2z (run_done s) = 1;
}.

Record lc_inv (c : lifecycle) : Prop := {
  lc_inv_counts : lc_counts c.1 c.2;
  lc_inv_phases : lc_phases c.1 c.2;
  lc_inv_loops l : total (loops l) c.2 <= is_running (startOnce c.1) + is_done (startOnce c.1);
}.

Ltac by_pc q := destruct q as [[]|[]|? []]; simpl; lia.

Lemma in_start_nonneg q : 0 <= in_start q.
Proof. by_pc q. Qed.
Lemma in_stop_nonneg q : 0 <= in_stop q.
Proof. by_pc q. Qed.
Lemma start_holds_nonneg q : 0 <= start_holds q.
Proof. by_pc q. Qed.
Lemma stop_holds_nonneg q : 0 <= stop_holds q.
Proof. by_pc q. Qed.
Lemma past_stop_nonneg q : 0 <= past_stop q.
Proof. by_pc q. Qed.
Lemma has_cancel_nonneg q : 0 <= has_cancel q.
Proof. by_pc q. Qed.
Lemma admitted_nonneg q : 0 <= admitted q.
Proof. by_pc q. Qed.
Lemma admitted_holds q : admitted q <= start_holds q.
Proof. by_pc q. Qed.
Lemma marked_nonneg q : 0 <= marked_in_stop q.
Proof. by_pc q. Qed.
Lemma marked_stop q : 0 <= in_stop q - marked_in_stop q.
Proof. by_pc q. Qed.
Lemma unclosed q : 0 <= in_stop q - closed_in_stop q.
Proof. by_pc q. Qed.
Lemma cancelled_nonneg q : 0 <= cancelled_in_stop q.
Proof. by_pc q. Qed.
Lemma cancelled_marked q : cancelled_in_stop q <= marked_in_stop q.
Proof. by_pc q. Qed.
Lemma running_nonneg q : 0 <= running q.
Proof. by_pc q. Qed.
Lemma running_slots q : running q <= slots q.
Proof. unfold slots. destruct (m_onStatusChange m); by_pc q. Qed.
Lemma loops_nonneg l q : 0 <= loops l q.
Proof. destruct l, q as [[]|[]|[] []]; simpl; try case_decide; lia. Qed.

Lemma total_minus f g ts : total (fun q => f q - g q) ts = total f ts - total g ts.
Proof. induction ts as [|p ts IH]; simpl; lia. Qed.

Ltac fields := cbn [fst snd startOnce stopOnce lifecycleMu stop_closed cancel run_done stopped wg set_startOnce set_stopOnce
  set_mu set_closed set_cancel set_done set_stopped set_wg is_running is_done] in *.

(** The cases of a step that moves a goroutine. *)
Ltac step_cases H :=
  match type of H with run _ ?p ?s = Moves _ _ _ =>
    destruct p as [p|p|? p]; destruct p; destruct s as [o1 o2 mu sc ca rd sp n];
    cbn [run Start Stop runLoop] in H; unfold lock_mu, unlock_mu, wg_add, once_do in H; fields;
    repeat match type of H with context [match ?x with _ => _ end] => destruct x eqn:? end; try discriminate;
    injection H as <- <- <-
  end.

Ltac count := fields; rewrite ?total_app; erewrite ?total_insert by eassumption;
  cbn [total foldr in_start in_stop start_holds stop_holds admitted closed_in_stop marked_in_stop cancelled_in_stop past_stop
    has_cancel running slots Z.b2z] in *.

Lemma run_counts s ts i ch p p' s' spawned :
  lc_counts s ts -> ts !! i = Some p -> run ch p s = Moves p' s' spawned -> lc_counts s' (<[i := p']> ts ++ spawned).
Proof.
  intros [I1 I2 I3 I4 I5 I6] Hi H.
  pose proof (total_pick in_start ts i p in_start_nonneg Hi) as P1. pose proof (total_pick in_stop ts i p in_stop_nonneg Hi) as P2.
  pose proof (total_pick start_holds ts i p start_holds_nonneg Hi) as P3.
  pose proof (total_pick stop_holds ts i p stop_holds_nonneg Hi) as P4.
  pose proof (total_pick _ ts i p marked_stop Hi) as P5. rewrite total_minus in P5.
  pose proof (total_nonneg _ ts marked_nonneg) as P6.
  step_cases H; split; count; try lia.
  all: destruct o1, o2, sp, mu; cbn [is_running is_done Z.b2z] in *; lia.
Qed.

Lemma run_phases s ts i ch p p' s' spawned :
  lc_counts s ts -> lc_phases s ts -> ts !! i = Some p -> run ch p s = Moves p' s' spawned ->
  lc_phases s' (<[i := p']> ts ++ spawned).
Proof.
  intros [I1 I2 I3 I4 I5 I6] [I7 I8 I9 I10] Hi H.
  pose proof (total_pick in_start ts i p in_start_nonneg Hi) as P1. pose proof (total_pick in_stop ts i p in_stop_nonneg Hi) as P2.
  pose proof (total_pick stop_holds ts i p stop_holds_nonneg Hi) as P3.
  pose proof (total_pick has_cancel ts i p has_cancel_nonneg Hi) as P4.
  pose proof (total_pick admitted ts i p admitted_nonneg Hi) as P5.
  pose proof (total_le _ _ ts admitted_holds) as P6. pose proof (total_nonneg _ ts admitted_nonneg) as P7.
  pose proof (total_le _ _ ts cancelled_marked) as P8. pose proof (total_nonneg _ ts cancelled_nonneg) as P9.
  pose proof (total_nonneg _ ts past_stop_nonneg) as P10.
  step_cases H; (split; [clear I8 I9 I10|clear I7 I9 I10|clear I7 I8 I10|clear I8 I9]); count; try lia.
  all: destruct o2; cbn [is_running is_done] in *; lia.
Qed.

Lemma run_loops l s ts i ch p p' s' spawned :
  lc_counts s ts -> total (loops l) ts <= is_running (startOnce s) + is_done (startOnce s) -> ts !! i = Some p ->
  run ch p s = Moves p' s' spawned ->
  total (loops l) (<[i := p']> ts ++ spawned) <= is_running (startOnce s') + is_done (startOnce s').
Proof.
  intros [I1 _ _ _ _ _] I Hi H. pose proof (total_pick in_start ts i p in_start_nonneg Hi) as P1.
  pose proof (total_pick (loops l) ts i p (loops_nonneg l) Hi) as P2.
  step_cases H; count; destruct l; cbn [loops] in *; repeat case_decide; try congruence; try lia.
  all: destruct o1; cbn [is_running is_done] in *; lia.
Qed.

Lemma lc_inv_fresh : lc_inv (fresh, []).
Proof. split; [split; reflexivity|split; left; reflexivity|intros l; simpl; lia]. Qed.

Lemma call_inv s ts p : (p = PStart StartOnce \/ p = PStop StopOnce) -> lc_inv (s, ts) -> lc_inv (s, ts ++ [p]).
Proof.
  intros Hp [[] [] I]; fields. destruct Hp as [-> | ->]; split; [split|split|intros l; specialize (I l)|split|split|intros l; specialize (I l)];
    fields; rewrite ?total_app; simpl; rewrite ?Z.add_0_r; done.
Qed.

Lemma lc_step_inv c c' : lc_step c c' -> lc_inv c -> lc_inv c'.
Proof.
  intros [s ts|s ts|s ts|i ch p p' s s' ts spawned Hi H] I; [apply call_inv; auto..| |].
  - destruct I as [[] [] I]. split; [by split|split; fields; auto|done].
  - destruct I as [I1 I2 I3]; fields. split; fields.
    + by eapply run_counts.
    + by eapply run_phases.
    + intros l. by eapply run_loops.
Qed.

Lemma lc_reachable_inv c : lc_reachable c -> lc_inv c.
Proof.
  intros H. enough (forall c0, rtc lc_step c0 c -> lc_inv c0 -> lc_inv c) by (eapply H0; [exact H|apply lc_inv_fresh]).
  clear H. intros c0 H. induction H as [|c0 c1 c Hs _ IH]; [done|]. intros I. by apply IH, (lc_step_inv c0).
Qed.

(** ** Stopping is final *)

(** Some [Stop] has run to the end of its once and no slot is taken. *)
Definition settled (c : lifecycle) : Prop := is_done (stopOnce c.1) = 1 /\ wg c.1 = 0.

Lemma slots_nonneg q : 0 <= slots q.
Proof. etrans; [apply running_nonneg|apply running_slots]. Qed.

Lemma settled_step c c' : lc_inv c -> lc_step c c' -> settled c -> settled c'.
Proof.
  intros I S [D W]. destruct S as [s ts|s ts|s ts|i ch p p' s s' ts spawned Hi H]; [done..|].
  destruct I as [[I1 I2 I3 I4 I5 I6] [I7 I8 I9 I10] _].
  pose proof (total_pick in_stop ts i p in_stop_nonneg Hi) as P1. pose proof (total_pick slots ts i p slots_nonneg Hi) as P2.
  pose proof (total_pick admitted ts i p admitted_nonneg Hi) as P3. pose proof (total_nonneg _ ts marked_nonneg) as P4.
  assert (Ha : admitted p <= 0) by (fields; destruct (stopped s); cbn [Z.b2z] in *; lia). clear I7 I8 I9 I10. fields.
  step_cases H; unfold settled; count; try lia. all: try (destruct o2; done).
  all: try (destruct (m_onStatusChange m); simpl in *; lia).
Qed.

Lemma settled_later c c' : lc_inv c -> rtc lc_step c c' -> settled c -> settled c'.
Proof.
  intros I H. revert I. induction H as [|c c1 c' Hs _ IH]; [done|]. intros I S.
  apply IH; [by apply (lc_step_inv c)|by apply (settled_step c)].
Qed.

Lemma total_in f ts p : (forall q, 0 <= f q) -> p ∈ ts -> f p <= total f ts.
Proof. intros Hf (i & Hi)%list_elem_of_lookup. by eapply total_pick. Qed.

(** A goroutine that a step brings to the end of [Stop] was waiting there, with
    no slot taken. *)
Lemma returned_step c c' : lc_inv c -> lc_step c c' -> PStop StopReturned ∈ c'.2 -> PStop StopReturned ∈ c.2 \/ settled c'.
Proof.
  intros I S Hr. destruct S as [s ts|s ts|s ts|i ch p p' s s' ts spawned Hi H]; cbn [snd] in *.
  - apply elem_of_app in Hr as [Hr|Hr]; [by left|]. by apply list_elem_of_singleton in Hr.
  - apply elem_of_app in Hr as [Hr|Hr]; [by left|]. by apply list_elem_of_singleton in Hr.
  - by left.
  - assert (Hold : p' <> PStop StopReturned -> PStop StopReturned ∉ spawned -> PStop StopReturned ∈ ts).
    { intros Hp Hs. apply elem_of_app in Hr as [Hr|Hr]; [|done]. apply list_elem_of_lookup in Hr as [j Hj].
      apply list_elem_of_lookup. exists j. destruct (decide (i = j)) as [->|Hne]; [|by rewrite list_lookup_insert_ne in Hj].
      rewrite list_lookup_insert_eq in Hj by (by eapply lookup_lt_Some). congruence. }
    destruct I as [[_ _ _ _ _ _] [_ I8 _ _] _].
    pose proof (total_pick past_stop ts i p past_stop_nonneg Hi) as P. fields.
    step_cases H; try (left; apply Hold; [done|set_solver]).
    right. split; fields; [cbn [past_stop] in P|]; lia.
Qed.

Lemma returned_settled c0 c : rtc lc_step c0 c -> lc_inv c0 -> (PStop StopReturned ∈ c0.2 -> settled c0) ->
  PStop StopReturned ∈ c.2 -> settled c.
Proof.
  intros H. induction H as [|c0 c1 c Hs _ IH]; [auto|]. intros I S. apply IH; [by apply (lc_step_inv c0)|].
  intros Hr. destruct (returned_step c0 c1 I Hs Hr) as [Hr'|]; [|done]. apply (settled_step c0); auto.
Qed.

(** C13: Stopping is final. Once a call of [Stop] has returned, no loop runs, and
    none ever runs again: not one of a [Start] that was under way, nor of any
    later call, in whatever order goroutines are scheduled. *)
Theorem stop_final c c' (H : lc_reachable c) (Hr : PStop StopReturned ∈ c.2) (H' : rtc lc_step c c') :
  wg c'.1 = 0 /\ stopped c'.1 = true /\ forall l p, PLoop l p ∈ c'.2 -> p = LoopExited.
Proof.
  pose proof (lc_reachable_inv c H) as I.
  assert (S : settled c) by (eapply (returned_settled _ _ H); [apply lc_inv_fresh|intros Hn; by apply elem_of_nil in Hn|done]).
  pose proof (settled_later _ _ I H' S) as [D W].
  assert (I' : lc_inv c') by (apply lc_reachable_inv; unfold lc_reachable; by transitivity c).
  destruct I' as [[_ _ _ _ I5 I6] _ _]. pose proof (total_nonneg _ c'.2 marked_nonneg). split; [done|].
  split; [destruct (stopped c'.1); [done|cbn [Z.b2z] in I5; lia]|].
  intros l p Hp. pose proof (total_in slots _ _ slots_nonneg Hp) as P. destruct p; cbn in P; [lia..|done].
Qed.

(** ** No panic, one goroutine per loop *)

Lemma not_panics c i p ch msg : lc_inv c -> c.2 !! i = Some p -> run ch p c.1 <> Panics msg.
Proof.
  intros [[I1 I2 I3 I4 I5 I6] _ _] Hi H. destruct c as [s ts]; fields.
  pose proof (total_pick in_stop ts i p in_stop_nonneg Hi) as P1. pose proof (total_pick slots ts i p slots_nonneg Hi) as P2.
  pose proof (total_pick start_holds ts i p start_holds_nonneg Hi) as P3. pose proof (total_nonneg _ ts start_holds_nonneg) as P5.
  pose proof (total_pick stop_holds ts i p stop_holds_nonneg Hi) as P4. pose proof (total_nonneg _ ts stop_holds_nonneg) as P6.
  pose proof (total_nonneg _ ts slots_nonneg) as P7.
  pose proof (total_pick _ ts i p unclosed Hi) as P8. rewrite total_minus in P8.
  destruct p as [p|p|? p]; destruct p; destruct s as [o1 o2 mu sc ca rd sp n]; cbn [run Start Stop runLoop] in H;
    unfold lock_mu, unlock_mu, wg_add, once_do in H; fields;
    repeat match type of H with context [match ?x with _ => _ end] => destruct x eqn:? end; try discriminate; count; try lia.
  destruct o2; cbn [is_running is_done] in *; lia.
Qed.


Lemma total_two f ts i j p q : (forall r, 0 <= f r) -> i <> j -> ts !! i = Some p -> ts !! j = Some q -> f p + f q <= total f ts.
Proof.
  intros Hf. revert i j. induction ts as [|a ts IH]; intros [|i] [|j] Hne Hi Hj; simpl in *; try done.
  - injection Hi as ->. pose proof (total_pick f ts j q Hf Hj). lia.
  - injection Hj as ->. pose proof (total_pick f ts i p Hf Hi). lia.
  - specialize (IH i j ltac:(congruence) Hi Hj). pose proof (Hf a). lia.
Qed.

(** C12: Whatever the calls and their interleaving, the lifecycle never panics: the
    stop channel is closed once, the mutex is unlocked by its holder, the wait
    group's counter never drops below zero, and no slot is added while a [Stop]
    waits. Each loop runs in at most one goroutine; and when a [Stop] waits, the
    loops still running have seen their channel closed and their context
    cancelled. *)
Theorem lifecycle_safe c (H : lc_reachable c) :
  (forall i p ch msg, c.2 !! i = Some p -> run ch p c.1 <> Panics msg) /\
  (forall p, p ∈ c.2 -> p = PStart StartAdd \/ p = PStart StartAddNotify -> PStop StopWait ∉ c.2) /\
  (forall i j l p q, c.2 !! i = Some (PLoop l p) -> c.2 !! j = Some (PLoop l q) -> i = j) /\
  (PStop StopWait ∈ c.2 -> forall l p, PLoop l p ∈ c.2 -> stop_closed c.1 = true /\ run_done c.1 = true).
Proof.
  pose proof (lc_reachable_inv c H) as I. split; [intros i p ch msg Hi; by apply (not_panics c i)|].
  destruct I as [[I1 I2 I3 I4 I5 I6] [I7 I8 I9 I10] I11].
  pose proof (total_nonneg _ c.2 marked_nonneg) as N1. pose proof (total_nonneg _ c.2 cancelled_nonneg) as N2.
  pose proof (total_nonneg _ c.2 unclosed) as N3. rewrite total_minus in N3.
  assert (N4 : 0 <= total closed_in_stop c.2) by (apply total_nonneg; intros q; by_pc q).
  assert (Hw : PStop StopWait ∈ c.2 -> is_done (stopOnce c.1) = 1 /\ 1 <= Z.b2z (stopped c.1) /\ 1 <= Z.b2z (stop_closed c.1)).
  { intros W. pose proof (total_in past_stop _ _ past_stop_nonneg W) as P. cbn [past_stop] in P. lia. }
  split; [|split].
  - intros p Hp Hadd W. destruct (Hw W) as (_ & ? & _). pose proof (total_in admitted _ _ admitted_nonneg Hp) as P.
    destruct Hadd as [-> | ->]; cbn [admitted] in P; lia.
  - intros i j l p q Hi Hj. destruct (decide (i = j)) as [|Hne]; [done|].
    pose proof (total_two (loops l) _ i j _ _ (loops_nonneg l) Hne Hi Hj) as P. cbn [loops] in P.
    rewrite decide_True in P by done. specialize (I11 l). destruct (startOnce c.1); cbn in I11; lia.
  - intros W l p Hl. destruct (Hw W) as (? & _ & Hc). pose proof (total_in has_cancel _ _ has_cancel_nonneg Hl) as P.
    cbn [has_cancel] in P. split; [by destruct (stop_closed c.1)|].
    destruct (cancel c.1), (run_done c.1); cbn [Z.b2z] in *; try done; lia.
Qed.

(** ** Every call returns *)

(** What a goroutine that cannot move waits for. *)
Definition waiting (p : pc) (s : shared) : Prop :=
  match p with
  | PStart StartOnce => startOnce s = OnceRunning
  | PStop StopOnce => stopOnce s = OnceRunning
  | PStart StartLock | PStop StopLock => lifecycleMu s = true
  | PStop StopWait => wg s <> 0
  | PLoop _ LoopSelect => stop_closed s = false
  | PStart StartReturned | PStop StopReturned | PLoop _ LoopExited => True
  | _ => False
  end.

Lemma moves_or_waits c i p : lc_inv c -> c.2 !! i = Some p ->
  (exists p' s' spawned, run TakeStop p c.1 = Moves p' s' spawned) \/ waiting p c.1.
Proof.
  intros I Hi. pose proof (not_panics c i p TakeStop) as Hn.
  destruct (run TakeStop p c.1) as [|msg|p' s' spawned] eqn:E; [right|by destruct (Hn msg I Hi)|by left; eauto].
  clear Hn I Hi. destruct c as [[o1 o2 mu sc ca rd sp n] ts].
  destruct p as [p|p|? p]; destruct p; cbn [run Start Stop runLoop] in E; unfold lock_mu, unlock_mu, wg_add, once_do in E; fields;
    repeat match type of E with context [match ?x with _ => _ end] => destruct x eqn:? end; simpl; try done; lia.
Qed.

Definition weight (p : pc) : Z :=
  match p with
  | PStart p =>
      match p with
      | StartOnce => 20 | StartLock => 19 | StartCheck => 18 | StartCancel => 17 | StartAdd => 16 | StartAddNotify => 15
      | StartUnlock => 14 | StartGoTxs => 13 | StartGoMetrics => 9 | StartGoNotify => 5 | StartRefuse => 3 | StartDrop => 2
      | StartFinish => 1 | StartReturned => 0
      end
  | PStop p =>
      match p with
      | StopOnce => 9 | StopClose => 8 | StopLock => 7 | StopMark => 6 | StopCancel => 5 | StopUnlock => 4 | StopFinish => 3
      | StopWait => 2 | StopReturned => 0
      end
  | PLoop _ p => match p with LoopTick => 3 | LoopSelect => 2 | LoopExit => 1 | LoopExited => 0 end
  end.

Lemma weight_nonneg q : 0 <= weight q.
Proof. by_pc q. Qed.

Lemma run_weight p s p' s' spawned : run TakeStop p s = Moves p' s' spawned -> weight p' + total weight spawned < weight p.
Proof. intros H. step_cases H; simpl; lia. Qed.

(** A call under way. *)
Definition pending (p : pc) : bool :=
  match p with PStart StartReturned | PStop StopReturned | PLoop _ _ => false | _ => true end.

(** Some goroutine can move while a call is under way: the holder of the mutex,
    else the caller inside a once, else a caller outside, else a loop that the
    waiting [Stop] has signalled. *)
Lemma some_moves c j p : lc_inv c -> c.2 !! j = Some p -> pending p = true ->
  exists i q, c.2 !! i = Some q /\ ~ waiting q c.1.
Proof.
  intros [[I1 I2 I3 I4 I5 I6] [_ I8 _ _] _] Hj Hp. destruct (lifecycleMu c.1) eqn:Emu.
  { destruct (total_pos (fun q => start_holds q + stop_holds q) c.2) as (i & q & Hi & Hq).
    - intros q. pose proof (start_holds_nonneg q). pose proof (stop_holds_nonneg q). lia.
    - enough (total (fun q => start_holds q + stop_holds q) c.2 = 1) by lia. cbn [Z.b2z] in I3. rewrite <- I3.
      clear. induction c.2 as [|a ts IH]; simpl; lia.
    - exists i, q. split; [done|]. destruct q as [[]|[]|? []]; simpl in *; lia || auto. }
  destruct (startOnce c.1) eqn:Es; cbn [is_running] in I1.
  2:{ destruct (total_pos in_start c.2 in_start_nonneg) as (i & q & Hi & Hq); [lia|]. exists i, q. split; [done|].
      destruct q as [[]|[]|? []]; simpl in *; rewrite ?Emu; lia || auto. }
  all: destruct (stopOnce c.1) eqn:Eo; cbn [is_running] in I2.
  2,5: destruct (total_pos in_stop c.2 in_stop_nonneg) as (i & q & Hi & Hq); [lia|]; exists i, q; split; [done|];
      destruct q as [[]|[]|? []]; simpl in *; rewrite ?Emu; lia || auto.
  all: assert (Hw : p = PStop StopWait \/ ~ waiting p c.1) by
    (destruct p as [[]|[]|? []]; simpl in *; rewrite ?Es, ?Eo, ?Emu; try done; by auto).
  all: destruct Hw as [->|Hw]; [|by exists j, p].
  all: pose proof (total_pick past_stop _ j _ past_stop_nonneg Hj) as P; cbn [past_stop is_done] in *; try lia.
  all: destruct (Z.eq_dec (wg c.1) 0) as [E|E]; [exists j, (PStop StopWait); split; [done|]; simpl; lia|].
  all: destruct (total_pos slots c.2 slots_nonneg) as (i & q & Hi & Hq); [pose proof (total_nonneg _ c.2 slots_nonneg); lia|].
  all: exists i, q; split; [done|]; pose proof (total_pick in_start _ i _ in_start_nonneg Hi) as Q1.
  all: destruct q as [[]|[]|? []]; cbn in *; try lia; auto.
  all: assert (N : 0 <= total closed_in_stop c.2) by (apply total_nonneg; intros q; by_pc q).
  all: destruct (stop_closed c.1); [done|cbn [Z.b2z] in I4; lia].
Qed.

Lemma lc_inv_runs c c' : lc_inv c -> runs c c' -> lc_inv c'.
Proof.
  intros I (i & ch & p & p' & spawned & Hi & H & Ht). destruct c as [s ts], c' as [s' ts']; fields. subst.
  by apply (lc_step_inv (s, ts)); [eapply lc_run|].
Qed.

(** C14: No call is stuck. From every reachable state, however many calls are
    under way, the goroutines that exist can be run (without a further call or
    cancellation) until every [Start] and every [Stop] has returned, in fewer
    steps than the weight of the goroutines. *)
Theorem calls_return c (H : lc_reachable c) :
  exists n c', nsteps runs n c c' /\ Z.of_nat n <= total weight c.2 /\ forall p, p ∈ c'.2 -> pending p = false.
Proof.
  apply lc_reachable_inv in H. remember (Z.to_nat (total weight c.2)) as k eqn:Ek. assert (Hk : total weight c.2 <= Z.of_nat k) by lia.
  clear Ek. revert c H Hk. induction k as [k IH] using lt_wf_ind. intros c I Hk.
  destruct (existsb pending c.2) eqn:Ex.
  2:{ exists 0%nat, c. split; [constructor|]. pose proof (total_nonneg _ c.2 weight_nonneg). split; [lia|].
      intros p Hp. destruct (pending p) eqn:Ep; [|done]. rewrite <- Ex. symmetry. apply existsb_exists.
      exists p. by rewrite <- list_elem_of_In. }
  apply existsb_exists in Ex as (p & [j Hj]%list_elem_of_In%list_elem_of_lookup & Hp).
  destruct (some_moves c j p I Hj Hp) as (i & q & Hi & Hq).
  destruct (moves_or_waits c i q I Hi) as [(q' & s' & spawned & Hr)|]; [|done].
  set (c1 := (s', <[i := q']> c.2 ++ spawned) : lifecycle).
  assert (R : runs c c1) by (exists i, TakeStop, q, q', spawned; done).
  pose proof (run_weight _ _ _ _ _ Hr) as W. pose proof (total_nonneg _ spawned weight_nonneg). pose proof (weight_nonneg q').
  assert (Hw : total weight c1.2 < total weight c.2)
    by (unfold c1; cbn [snd]; rewrite total_app, (total_insert _ _ _ _ _ Hi); lia).
  pose proof (total_nonneg _ c1.2 weight_nonneg).
  destruct (IH (Z.to_nat (total weight c1.2)) ltac:(lia) c1 (lc_inv_runs _ _ I R) ltac:(lia)) as (n & c' & Hn & Hle & Hend).
  exists (S n), c'. split; [by econstructor|]. split; [lia|done].
Qed.

(** A run given by the goroutines to move, in order. *)
Fixpoint schedule (l : list (nat * choice)) (c : lifecycle) : option lifecycle :=
  match l with
  | [] => Some c
  | (i, ch) :: l =>
      p ← c.2 !! i;
      match run ch p c.1 with
      | Moves p' s' spawned => schedule l (s', <[i := p']> c.2 ++ spawned)
      | _ => None
      end
  end.

Lemma schedule_steps l c c' : schedule l c = Some c' -> rtc lc_step c c'.
Proof.
  revert c. induction l as [|[i ch] l IH]; intros [s ts] H; [injection H as ->; reflexivity|]. cbn in H.
  destruct (ts !! i) as [p|] eqn:Hi; [|done]. cbn in H. destruct (run ch p s) as [| |p' s' spawned] eqn:E; try done.
  eapply rtc_l; [by eapply lc_run|by apply IH].
Qed.

End steps.
