(* ===== verification/Toy.v ===== *)
(** * A small concrete world

    An instance of every interface the development abstracts over: two accounts,
    transactions that carry their own hash number, a node that answers from
    constants, the in-memory provider with Go maps enumerated in key order.  The
    witnesses of the theorems run the definitions on it. *)
From Stdlib Require Import Ascii.
From S2P Require Export MemStore System Replacement.
Local Open Scope Z_scope.

Inductive account := nobody | alice | bob.

#[export] Instance account_eq_dec : EqDecision account.
Proof. solve_decision. Defined.

Record toy_tx := mkToyTx {
  toy_id : nat; toy_from : account; toy_nonce : Z; toy_type : Z; toy_price : Z; toy_tip : Z; toy_cap : Z }.

Record toy_receipt := mkToyReceipt { toy_rhash : nat; toy_rstatus : Z }.

(** Unary hexadecimal stand-in: injective, ASCII. *)
Fixpoint unary (n : nat) : string := match n with O => "" | S n => String "1"%char (unary n) end.

Definition toy_hex (a : account) : string :=
  match a with
  | nobody => "0x0000000000000000000000000000000000000000"
  | alice => "0x00000000000000000000000000000000000000Aa"
  | bob => "0x00000000000000000000000000000000000000Bb"
  end.

#[export] Instance toy_geth : GoEthereum := {
  Address := account; Hash := nat; SignedTx := toy_tx; Receipt := toy_receipt; Authorization := unit;
  address_zero := nobody; Address_Hex := toy_hex; Hash_Hex := unary;
  geth_Hash := toy_id; geth_Nonce := toy_nonce; geth_Type := toy_type; geth_GasPrice := toy_price;
  geth_GasTipCap := toy_tip; geth_GasFeeCap := toy_cap; geth_ChainId _ := Some 1;
  geth_Sender _ t := Ok (toy_from t);
  receipt_TxHash := toy_rhash; receipt_Status := toy_rstatus;
  MustFromBig v := if Z.abs v <? 2 ^ 256 then Some (v mod 2 ^ 256) else None;
}.

Lemma unary_inj h k : unary h = unary k -> h = k.
Proof. revert k. induction h; intros [|k] H; simplify_eq/=; auto. Qed.

#[export] Instance toy_laws : GoEthereumLaws toy_geth.
Proof.
  split.
  - intros [] []; done.
  - by intros [].
  - apply unary_inj.
  - intros h. simpl. induction h; done.
  - intros v Hv. unfold MustFromBig, toy_geth. by rewrite (proj2 (Z.ltb_lt _ _) Hv).
  - intros v Hv. unfold MustFromBig, toy_geth. by rewrite (proj2 (Z.ltb_ge _ _) Hv).
Qed.

#[export] Instance toy_unicode : UnicodeTables := { unicode_ToLower s := s; unicode_ToUpper s := s; unicode_EqualFold := String.eqb; strconv_Quote s := s }.

#[export] Instance toy_range : MapRange.
Proof. refine {| range_map V m := map_to_list m |}. done. Defined.

(** Signs with the nonce and fees it is given. *)
Definition toy_sign (a : account) (d : TxData) : result GoError toy_tx :=
  match d with
  | LegacyTx _ n price _ _ _ =>
      Ok {| toy_id := Z.to_nat (8 * n + default 0 price `mod` 8); toy_from := a; toy_nonce := n; toy_type := 0; toy_price := default 0 price;
            toy_tip := default 0 price; toy_cap := default 0 price |}
  | SetCodeTx _ n tip cap _ _ _ _ =>
      Ok {| toy_id := Z.to_nat (8 * n + cap `mod` 8); toy_from := a; toy_nonce := n; toy_type := 4; toy_price := cap;
            toy_tip := tip; toy_cap := cap |}
  end.

(** A healthy node: nothing mined yet, the account's next nonce is 7. *)
#[export] Instance toy_env : Env := {
  env_now n := 1000 * Second + Z.of_nat n;
  env_ctx _ := None;
  env_store _ := NoFault;
  env_receipt _ _ _ := (None, Some (sentinel NotFound "not found"));
  env_tx_by_hash _ _ _ := (None, Some (sentinel NotFound "not found"));
  env_pending_nonce _ _ _ := Ok 7;
  env_send _ _ _ := None;
  env_gas_price _ _ := Ok 100;
  env_header _ _ := Ok (Some (Some 50));
  env_tip_cap _ _ := Ok 2;
  env_opts _ _ := Ok (Some {| From := alice; Signer := toy_sign |});
  env_gate _ _ _ := (0, None);
  env_callback _ _ := Ok None;
}.

#[export] Instance toy_signer : SignerLaws.
Proof. by split; intros k c auth [] t [= <-] [= <-]. Qed.

#[export] Instance toy_node : NodeLaws.
Proof. split. intros k c a n [= <-]. done. Qed.

#[export] Instance toy_errors : StoreErrors.
Proof. by split; intros e (k & [E|E]). Qed.

#[export] Instance toy_codec : PayloadCodec := { auth_json _ := Ok "{}"; Keccak256_Hex s := s }.

#[export] Instance toy_codec_laws : PayloadCodecLaws.
Proof. split. intros [] [] s t u v [= <-] [= <-] H. split; [done|]. by apply sapp_inv_head in H. Qed.

Definition toy_uuid (n : nat) : string := unary (S n).

Definition toy_manager : txManager :=
  {| m_clients := {[1]}; m_sender := alice; m_bumpIntervalMap := ∅; m_blockTimeMap := ∅;
     m_getTransactOpts := true; m_beforeAttempt := false; m_onStatusChange := true |}.

(** A row as [SendTxAsync] queues it. *)
Definition toy_row (id : string) : Transaction :=
  {| tx_ID := id; tx_IntentID := None; tx_OperationKey := None; tx_PayloadHash := None; tx_ChainID := 1;
     tx_Sender := alice; tx_Address := bob; tx_Data := []; tx_Value := Some 0; tx_GasLimit := 21000;
     tx_RawAuthorizations := []; tx_AssignedNonce := None; tx_Tx := None; tx_Receipt := None;
     tx_Status := PendingTxStatus; tx_Msg := ""; tx_NextActionAt := 0; tx_BroadcastPending := false;
     tx_RejectedAttemptHash := None; tx_NonceConsumedAt := None; tx_NotifiedAt := None;
     tx_NotificationAttempts := 0; tx_NextNotificationAt := 0; tx_NotificationError := ""; tx_UpdatedAt := 0;
     tx_CreatedAt := 0 |}.

Definition toy_store : txsState :=
  {| txs := {["a" := toy_row "a"]}; attempts := ∅; hashes := ∅; laneLocks := ∅ |}.

Definition toy_world : World txsState :=
  {| w_store := toy_store; w_lane := lane_of_max None; w_tick := 0; w_trace := [] |}.

Lemma toy_store_wf : store_wf toy_store.
Proof.
  split.
  - simpl. intros k t H. by apply lookup_singleton_Some in H as [<- <-].
  - intros id a H. change (q_attempts toy_store id) with (@nil TransactionAttempt) in H. by apply elem_of_nil in H.
Qed.

Lemma toy_msg_ok id : msg_ok (toy_row id).
Proof. split; [done|constructor]. Qed.

Lemma toy_sender : m_sender toy_manager <> address_zero.
Proof. done. Qed.

Lemma toy_lanes : lanes_inv toy_manager toy_store.
Proof.
  intros c. apply (lane_inv_queue toy_manager c (toy_row "a") {| txs := ∅; attempts := ∅; hashes := ∅; laneLocks := ∅ |});
    try done; [apply toy_msg_ok|]. by apply empty_inv.
Qed.
