(* ===== verification/Witnesses.v ===== *)
(** * Witnesses

    Each theorem with hypotheses, applied on the small world of [Toy]. *)
From S2P Require Lifecycle.
From S2P Require Import Toy.
Local Open Scope Z_scope.

Lemma step_isolated_witness :
  let s' := w_store (snd (processTransactionStep toy_manager (toy_row "a") toy_world)) in
  store_wf s' /\
  (forall j, j <> "a" -> q_rows s' !! j = q_rows toy_store !! j /\ q_attempts s' j = q_attempts toy_store j) /\
  (q_rows s' !! "a" = q_rows toy_store !! "a" \/
   (active_row "a" toy_store = true /\
    exists t, q_rows s' !! "a" = Some t /\ same_payload (toy_row "a") t /\ msg_ok t)).
Proof. exact (step_isolated toy_manager (toy_row "a") toy_world toy_store_wf (toy_msg_ok "a")). Defined.

Lemma step_attempts_append_witness :
  let s' := w_store (snd (processTransactionStep toy_manager (toy_row "a") toy_world)) in
  (exists l, q_attempts s' "a" = q_attempts toy_store "a" ++ l /\ Forall (attempt_ok "a") l) /\
  forall h o, q_owner toy_store h = Some o -> q_owner s' h = Some o.
Proof. exact (step_attempts_append toy_manager (toy_row "a") toy_world toy_store_wf (toy_msg_ok "a")). Defined.

Lemma step_write_ahead_witness :
  let w' := snd (processTransactionStep toy_manager (toy_row "a") toy_world) in
  exists evs, w_trace w' = evs ++ [] /\
    forall c t, EvSend c t ∈ evs -> q_owner (w_store w') (Hash_Hex (geth_Hash t)) = Some "a".
Proof. exact (step_write_ahead toy_manager (toy_row "a") toy_world toy_store_wf (toy_msg_ok "a")). Defined.

Lemma processLaneBatch_isolated_witness :
  m_sender toy_manager <> address_zero /\
  chain_frame 1 toy_store (w_store (snd (processLaneBatch toy_manager 1 toy_world))).
Proof.
  split; [exact toy_sender|].
  exact (processLaneBatch_isolated toy_manager 1 toy_sender toy_world (toy_lanes 1)).
Defined.

(** The tick assigns nonce 7 to the queued row and signs one attempt. *)
Lemma processTxs_nonces_witness :
  lanes_inv toy_manager (w_store (snd (processTxs toy_manager 0 toy_world))) /\
  option_map tx_AssignedNonce (q_rows (w_store (snd (processTxs toy_manager 0 toy_world))) !! "a") = Some (Some 7) /\
  length (q_attempts (w_store (snd (processTxs toy_manager 0 toy_world))) "a") = 1%nat.
Proof.
  split; [exact (processTxs_nonces toy_manager toy_sender toy_world 0 toy_lanes)|].
  split; vm_compute; reflexivity.
Defined.

Definition toy_submit (w : World txsState) : outcome string * World txsState :=
  SendTxAsync toy_manager toy_uuid 1 bob (Some []) 21000 None [] None [WithOperationKey "op"] w.

Definition toy_empty : World txsState :=
  {| w_store := {| txs := ∅; attempts := ∅; hashes := ∅; laneLocks := ∅ |}; w_lane := lane_of_max None;
     w_tick := 0; w_trace := [] |}.

Lemma toy_empty_store : empty_store (w_store toy_empty).
Proof. done. Qed.

Lemma toy_empty_fresh : fresh_uuid (w_store toy_empty) (toy_uuid (w_tick toy_empty)).
Proof. done. Qed.

Definition toy_hash : string :=
  match transactionPayloadHash (@mkPayload toy_geth 1 bob (Some []) 21000 0 []) with Ok h => h | Err _ => "" end.

(** Submitting twice under one key: the second call returns the first id. *)
Lemma SendTxAsync_idempotent_witness :
  let w := snd (toy_submit toy_empty) in
  q_rows (w_store (snd (toy_submit w))) = q_rows (w_store w) /\
  fst (toy_submit w) = Val (toy_uuid 0).
Proof.
  intros w.
  assert (Hu : keys_unique (w_store w)).
  { refine (proj2 (SendTxAsync_keeps toy_manager toy_uuid 1 bob (Some []) 21000 None [] None [WithOperationKey "op"]
      toy_empty toy_sender eq_refl eq_refl _ _)); apply (empty_inv toy_manager _ toy_empty_store). }
  assert (F : option_map (fun t => (tx_ID t, tx_OperationKey t, tx_PayloadHash t)) (q_rows (w_store w) !! "1") =
              Some ("1", Some "op", Some toy_hash)) by (vm_compute; reflexivity).
  destruct (q_rows (w_store w) !! "1") as [t|] eqn:Ht; [|done].
  assert (H : tx_ID t = "1" /\ has_operation "op" t /\ tx_PayloadHash t = Some toy_hash).
  { change (Some (tx_ID t, tx_OperationKey t, tx_PayloadHash t) = Some ("1", Some "op", Some toy_hash)) in F.
    unfold has_operation. by apply (inj Some), pair_eq in F as [[-> ->]%pair_eq ->]. }
  destruct H as (Hid & Hop & Hh).
  destruct (SendTxAsync_idempotent toy_manager toy_uuid 1 bob (Some []) 21000 None [] None [WithOperationKey "op"] w
              "op" "1" t toy_hash Hu eq_refl Ht Hop eq_refl) as (H1 & _ & H3).
  split; [exact H1|]. change (toy_uuid 0) with "1". rewrite <- Hid. by apply H3.
Defined.

Lemma SendTxAsync_keeps_invariants_witness :
  let s' := w_store (snd (toy_submit toy_empty)) in lanes_inv toy_manager s' /\ keys_unique s'.
Proof.
  exact (SendTxAsync_keeps_invariants toy_manager toy_uuid 1 bob (Some []) 21000 None [] None [WithOperationKey "op"]
    toy_empty toy_sender (proj1 toy_empty_fresh) (proj2 toy_empty_fresh) (proj1 (empty_inv toy_manager _ toy_empty_store))
    (proj2 (empty_inv toy_manager _ toy_empty_store))).
Defined.

(** A submission and a tick. *)
Lemma reachable_unique_witness :
  let w := snd (processTxs toy_manager 0 (snd (toy_submit toy_empty))) in
  option_map tx_AssignedNonce (q_rows (w_store w) !! "1") = Some (Some 7) /\
  forall k2 t1 t2, "1" <> k2 -> q_rows (w_store w) !! "1" = Some t1 -> q_rows (w_store w) !! k2 = Some t2 ->
  (forall n, tx_Sender t1 = alice -> tx_Sender t2 = alice -> tx_ChainID t1 = tx_ChainID t2 ->
     tx_AssignedNonce t1 = Some n -> tx_AssignedNonce t2 <> Some n) /\
  (forall key, has_operation key t1 -> ~ has_operation key t2).
Proof.
  intros w. split; [vm_compute; reflexivity|]. intros k2.
  apply (reachable_unique toy_manager toy_uuid toy_sender toy_empty w toy_empty_store).
  eapply rtc_l; [exact (sys_submit toy_manager toy_uuid 1 bob (Some []) 21000 None [] None [WithOperationKey "op"]
                          toy_empty toy_empty_fresh)|].
  eapply rtc_l; [exact (sys_tick toy_manager toy_uuid 0 _)|apply rtc_refl].
Defined.

Lemma transactionPayloadHash_identifies_witness :
  let p := @mkPayload toy_geth 1 bob None 21000 5 [tt] in
  exists h, transactionPayloadHash p = Ok h /\ forall p', transactionPayloadHash p' = Ok h ->
  p = p' \/ exists x y, x <> y /\ Keccak256_Hex x = Keccak256_Hex y.
Proof.
  intros p. eexists. split; [reflexivity|]. intros p' Hp'.
  exact (transactionPayloadHash_identifies p p' _ eq_refl Hp').
Defined.

Lemma notificationBackoff_bounds_witness :
  notificationMinBackoff <= notificationBackoff 3 <= notificationMaxBackoff /\
  notificationBackoff 3 <= notificationBackoff 9 /\ (6 <= 3 -> notificationBackoff 3 = notificationMaxBackoff).
Proof. apply (notificationBackoff_bounds 3 9); lia. Defined.

(** A finished row with an intent, ready to be announced. *)
Definition toy_done : Transaction := set_Status SucceedTxStatus (toy_row "a").
Definition toy_done_world : World txsState :=
  {| w_store := {| txs := {["a" := toy_done]}; attempts := ∅; hashes := ∅; laneLocks := ∅ |};
     w_lane := lane_of_max None; w_tick := 0; w_trace := [] |}.

Lemma deliverStatusNotification_spec_witness :
  exists t', q_rows (w_store (snd (deliverStatusNotification toy_done toy_done_world))) =
             <["a" := t']> (q_rows (w_store toy_done_world)) /\
    t' = merge_notification t' toy_done /\
    tx_NotifiedAt t' = Some (1000 * Second + 2) /\ tx_NotificationAttempts t' = 0.
Proof. exact (deliverStatusNotification_spec toy_done toy_done_world eq_refl eq_refl eq_refl eq_refl eq_refl). Defined.

Lemma deliverStatusNotifications_frame_witness :
  notify_frame (w_store toy_done_world) (w_store (snd (deliverStatusNotifications toy_done_world))) /\
  exists u, fst (deliverStatusNotifications toy_done_world) = Val u.
Proof. exact (deliverStatusNotifications_frame toy_done_world). Defined.

Lemma mem_implements_contract_witness : TransactionsQLaws (St := txsState).
Proof. exact mem_implements_contract. Defined.

(** A second attempt at nonce 7, above one at 120. *)
Definition first_signed : @SignedTx toy_geth :=
  {| toy_id := 56%nat; toy_from := alice; toy_nonce := 7; toy_type := 0; toy_price := 120; toy_tip := 120; toy_cap := 120 |}.
Definition first_attempt : TransactionAttempt :=
  {| at_TransactionID := "a"; at_Hash := 56%nat; at_Nonce := 7; at_Tx := Some first_signed; at_CreatedAt := 0 |}.

Lemma signAttempt_outbids_witness :
  exists t w', signAttempt toy_manager (set_AssignedNonce (Some 7) (toy_row "a")) [first_attempt] (Some (attempt_fee first_signed)) toy_world =
      (Val t, w') /\ toy_price t = 156 /\
    exists nonce d, toy_sign alice d = Ok t /\ carries (set_AssignedNonce (Some 7) (toy_row "a")) nonce d /\
      outbids 30 first_signed d.
Proof.
  set (tx := set_AssignedNonce (Some 7) (toy_row "a")).
  set (r := signAttempt toy_manager tx [first_attempt] (Some (attempt_fee first_signed)) toy_world).
  destruct (fst r) as [t|e|p] eqn:E; [|vm_compute in E; discriminate..].
  assert (H : signAttempt toy_manager tx [first_attempt] (Some (attempt_fee first_signed)) toy_world = (Val t, snd r))
    by (fold r; rewrite <- E; by destruct r).
  exists t, (snd r). split; [exact H|]. split; [by vm_compute in E; injection E as <-|].
  destruct (signAttempt_outbids toy_manager tx [first_attempt] [first_attempt] 0 (Some (attempt_fee first_signed)) toy_world t (snd r) eq_refl H)
    as (k & auth & nonce & d & [= <-] & _ & Hs & _ & Hd & Ho).
  exists nonce, d. split; [exact Hs|]. split; [exact Hd|]. apply (Ho first_signed). left. by exists first_attempt.
Defined.

(** ** Witnesses for the lifecycle

    One [Start] that runs its three loops, then one [Stop] that ends them. *)
Module Life.
Import Lifecycle.
Local Open Scope Z_scope.

Definition life_m : txManager := New {[1]} alice ∅ ∅ true [None; Some (WithOnStatusChange true)].

Definition moves (n i : nat) : list (nat * choice) := repeat (i, TakeStop) n.

(** Goroutine 0 is the [Start], 1 the [Stop], 2 to 4 the loops. *)
Definition life_waiting : lifecycle :=
  default (fresh, []) (schedule life_m (moves 11 0 ++ [(2%nat, TakeTick)] ++ moves 7 1) (fresh, [PStart StartOnce; PStop StopOnce])).
Definition life_stopped : lifecycle :=
  default (fresh, []) (schedule life_m (moves 3 2 ++ moves 2 3 ++ moves 2 4 ++ moves 1 1) life_waiting).

Lemma life_waiting_reachable : lc_reachable life_m life_waiting.
Proof.
  eapply rtc_l; [apply lc_start|]. eapply rtc_l; [apply lc_stop|].
  apply (schedule_steps life_m (moves 11 0 ++ [(2%nat, TakeTick)] ++ moves 7 1)). reflexivity.
Qed.

Lemma life_stopped_steps : rtc (lc_step life_m) life_waiting life_stopped.
Proof. apply (schedule_steps life_m (moves 3 2 ++ moves 2 3 ++ moves 2 4 ++ moves 1 1)). reflexivity. Qed.

Lemma life_stopped_reachable : lc_reachable life_m life_stopped.
Proof. unfold lc_reachable. transitivity life_waiting; [exact life_waiting_reachable|exact life_stopped_steps]. Qed.

Lemma stop_final_witness :
  PStop StopReturned ∈ life_stopped.2 /\ wg life_stopped.1 = 0 /\ life_stopped.2 !! 2%nat = Some (PLoop TxProcessor LoopExited).
Proof.
  assert (H : PStop StopReturned ∈ life_stopped.2) by (right; left).
  split; [exact H|]. split; [|reflexivity].
  exact (proj1 (stop_final life_m life_stopped life_stopped life_stopped_reachable H (rtc_refl _ _))).
Defined.

(** A [Stop] waits for a loop that is in the middle of a tick. *)
Lemma lifecycle_safe_witness :
  life_waiting.2 !! 2%nat = Some (PLoop TxProcessor LoopTick) /\ run_done life_waiting.1 = true.
Proof.
  split; [reflexivity|].
  destruct (lifecycle_safe life_m life_waiting life_waiting_reachable) as (_ & _ & _ & H).
  apply (H ltac:(right; left) TxProcessor LoopTick). right. right. left.
Defined.

Lemma calls_return_witness :
  exists n c', nsteps (runs life_m) n life_waiting c' /\ forall p, p ∈ c'.2 -> pending p = false.
Proof.
  destruct (calls_return life_m life_waiting life_waiting_reachable) as (n & c' & H & _ & H'). exists n, c'. exact (conj H H').
Defined.
End Life.
