(* ===== verification/PgRows.v ===== *)
(** * Rows of the PostgreSQL provider (evm/txmngr/txmngr_provider/pg/util.go)

    A transaction and an attempt as columns, and back.  A row is a map from
    column names to SQL values, as the source's [map[string]interface{}] and the
    [db] tags of [txModel] name them; the three columns a write may leave out
    ([raw_authorizations], [raw_tx], [raw_receipt]) keep their old or default
    value.  go-ethereum's JSON codecs are parameters ([PgCodec]). *)
From stdpp Require Import gmap.
From Stdlib Require Import Ascii Strings.Byte.
From S2P Require Export Provider Abi Decimal.
Local Open Scope Z_scope.
Local Open Scope go_scope.

Inductive SqlValue :=
| VNull
| VText (s : string)
| VInt (z : Z)
| VBool (b : bool)
| VTime (t : Z)
| VBytes (b : bytes).

Abbreviation Row := (gmap string SqlValue) (only parsing).

(** [errors.Wrap] of github.com/pkg/errors. *)
Definition errors_Wrap (err : GoError) (message : string) : GoError :=
  {| Error := message +:+ ": " +:+ Error err; wraps := wraps err; as_rpc := as_rpc err; as_http := as_http err;
     as_url := as_url err; as_net := as_net err; dynamic_type := "*errors.withStack" |}.

Definition wrap_err {X} (message : string) (r : result GoError X) : result GoError X :=
  match r with Ok x => Ok x | Err e => Err (errors_Wrap e message) end.

(** ** The codecs *)

Class PgCodec `{GoEthereum} := {
  tx_MarshalJSON : SignedTx -> result GoError string;
  tx_UnmarshalJSON : string -> result GoError SignedTx;
  receipt_MarshalJSON : Receipt -> result GoError string;
  receipt_UnmarshalJSON : string -> result GoError Receipt;
  auths_Marshal : list Authorization -> result GoError string;
  auths_Unmarshal : string -> result GoError (list Authorization);
  HexToHash : string -> Hash;
  BytesToHash : bytes -> Hash;
  Address_Bytes : Address -> bytes;
}.

(** The codecs read back what they write, which is never the empty text or the
    empty object; hexadecimal text of an address or a hash reads back too; an
    address is its 20 bytes. *)
Class PgCodecLaws `{!GoEthereum} `{!Abi} `{!PgCodec} : Prop := {
  tx_json t s : tx_MarshalJSON t = Ok s -> tx_UnmarshalJSON s = Ok t /\ s <> "" /\ s <> "{}";
  receipt_json r s : receipt_MarshalJSON r = Ok s -> receipt_UnmarshalJSON s = Ok r /\ s <> "" /\ s <> "{}";
  auths_json l s : auths_Marshal l = Ok s -> auths_Unmarshal s = Ok l /\ s <> "";
  HexToAddress_Hex a : HexToAddress (Address_Hex a) = a;
  HexToAddress_empty : HexToAddress "" = address_zero;
  HexToHash_Hex h : HexToHash (Hash_Hex h) = h;
  Hash_Hex_text h : Hash_Hex h = "0x" +:+ EncodeToString (Hash_Bytes h);
  BytesToHash_Bytes h : BytesToHash (Hash_Bytes h) = h;
  Hash_Bytes_length h : length (Hash_Bytes h) = 32%nat;
  Address_Bytes_length a : length (Address_Bytes a) = 20%nat;
  Address_Bytes_injective a b : Address_Bytes a = Address_Bytes b -> a = b;
}.

Section rows.
Context `{G : GoEthereum} `{AB : !Abi} `{PC : !PgCodec}.

(** ** Columns of a transaction *)

Definition nullableAddress (a : Address) : option string :=
  if bool_decide (a = address_zero) then None else Some (Address_Hex a).

Definition pointerValue (value : option string) : string := default "" value.

(** What the driver makes of a pointer. *)
Definition null_or {X} (f : X -> SqlValue) (v : option X) : SqlValue := match v with Some x => f x | None => VNull end.

Definition optional (column : string) (v : option string) (fields : Row) : Row :=
  match v with Some s => <[column := VText s]> fields | None => fields end.

Definition marshal_some {X} (message : string) (marshal : X -> result GoError string) (v : option X) :
    result GoError (option string) :=
  match v with
  | None => Ok None
  | Some x => match wrap_err message (marshal x) with Ok s => Ok (Some s) | Err e => Err e end
  end.

(** The columns every write of [tx] sets. *)
Definition tx_fields (tx : Transaction) : Row :=
  list_to_map [("id", VText (tx_ID tx)); ("chain_id", VInt (tx_ChainID tx)); ("intent_id", null_or VText (tx_IntentID tx));
     ("operation_key", null_or VText (tx_OperationKey tx)); ("payload_hash", null_or VText (tx_PayloadHash tx));
     ("sender", null_or VText (nullableAddress (tx_Sender tx))); ("address", VText (Address_Hex (tx_Address tx)));
     ("value", VText (big_String (default 0 (tx_Value tx)))); ("data", VBytes (tx_Data tx));
     ("gas_limit", VInt (tx_GasLimit tx)); ("assigned_nonce", null_or VInt (tx_AssignedNonce tx));
     ("status", VText (status_string (tx_Status tx))); ("msg", VText (tx_Msg tx));
     ("next_action_at", VTime (tx_NextActionAt tx)); ("broadcast_pending", VBool (tx_BroadcastPending tx));
     ("rejected_attempt_hash", null_or VText (tx_RejectedAttemptHash tx));
     ("nonce_consumed_at", null_or VTime (tx_NonceConsumedAt tx)); ("notified_at", null_or VTime (tx_NotifiedAt tx));
     ("notification_attempts", VInt (tx_NotificationAttempts tx));
     ("next_notification_at", VTime (tx_NextNotificationAt tx));
     ("notification_error", VText (tx_NotificationError tx)); ("updated_at", VTime (tx_UpdatedAt tx));
     ("created_at", VTime (tx_CreatedAt tx))].

(** An empty slice of authorizations is the nil one. *)
Definition non_nil {X} (l : list X) : option (list X) := match l with [] => None | _ => Some l end.

Definition transactionToTxModel (tx : Transaction) : result GoError Row :=
  let? auths := marshal_some "failed to marshal raw authorizations" auths_Marshal
                  (non_nil (tx_RawAuthorizations tx)) in
  let? rawTx := marshal_some "failed to marshal raw tx" tx_MarshalJSON (tx_Tx tx) in
  let? rawReceipt := marshal_some "failed to marshal raw receipt" receipt_MarshalJSON (tx_Receipt tx) in
  Ok (optional "raw_receipt" rawReceipt (optional "raw_tx" rawTx (optional "raw_authorizations" auths (tx_fields tx)))).

Record txModel := mkModel {
  m_ID : string; m_ChainID : Z; m_IntentID : option string; m_OperationKey : option string;
  m_PayloadHash : option string; m_Sender : option string; m_Address : string; m_Value : string; m_Data : bytes;
  m_GasLimit : Z; m_RawAuthorizations : option string; m_AssignedNonce : option Z; m_RawTx : string;
  m_RawReceipt : string; m_Status : TxStatus; m_Msg : string; m_NextActionAt : Z; m_BroadcastPending : bool;
  m_RejectedAttemptHash : option string; m_NonceConsumedAt : option Z; m_NotifiedAt : option Z;
  m_NotificationAttempts : Z; m_NextNotificationAt : Z; m_NotificationError : string; m_UpdatedAt : Z; m_CreatedAt : Z;
}.

(** *** Scanning a row into the tagged fields *)

Definition scan_error (column : string) : GoError := errors_New ("sql: Scan error on column " +:+ column).

Definition scan {X} (f : SqlValue -> option X) (row : Row) (column : string) : result GoError X :=
  match row !! column with
  | Some v => match f v with Some x => Ok x | None => Err (scan_error column) end
  | None => Err (scan_error column)
  end.

Definition as_text (v : SqlValue) : option string := match v with VText s => Some s | _ => None end.
Definition as_int (v : SqlValue) : option Z := match v with VInt z => Some z | _ => None end.
Definition as_flag (v : SqlValue) : option bool := match v with VBool b => Some b | _ => None end.
Definition as_time (v : SqlValue) : option Z := match v with VTime t => Some t | _ => None end.
Definition as_blob (v : SqlValue) : option bytes := match v with VBytes b => Some b | VNull => Some [] | _ => None end.

(** A pointer field takes NULL. *)
Definition nullable {X} (f : SqlValue -> option X) (v : SqlValue) : option (option X) :=
  match v with VNull => Some None | v => Some <$> f v end.

(** The statuses the package writes. *)
Definition as_status (v : SqlValue) : option TxStatus :=
  s ← as_text v; List.find (fun st => String.eqb (status_string st) s) (ActiveStatuses ++ TerminalStatuses).

Definition scan_tx (row : Row) : result GoError txModel :=
  let? id := scan as_text row "id" in
  let? chain := scan as_int row "chain_id" in
  let? intent := scan (nullable as_text) row "intent_id" in
  let? key := scan (nullable as_text) row "operation_key" in
  let? payload := scan (nullable as_text) row "payload_hash" in
  let? sender := scan (nullable as_text) row "sender" in
  let? address := scan as_text row "address" in
  let? value := scan as_text row "value" in
  let? data := scan as_blob row "data" in
  let? gas := scan as_int row "gas_limit" in
  let? auths := scan (nullable as_text) row "raw_authorizations" in
  let? nonce := scan (nullable as_int) row "assigned_nonce" in
  let? rawTx := scan as_text row "raw_tx" in
  let? rawReceipt := scan as_text row "raw_receipt" in
  let? status := scan as_status row "status" in
  let? msg := scan as_text row "msg" in
  let? next := scan as_time row "next_action_at" in
  let? pending := scan as_flag row "broadcast_pending" in
  let? rejected := scan (nullable as_text) row "rejected_attempt_hash" in
  let? consumed := scan (nullable as_time) row "nonce_consumed_at" in
  let? notified := scan (nullable as_time) row "notified_at" in
  let? attempts := scan as_int row "notification_attempts" in
  let? nextNotification := scan as_time row "next_notification_at" in
  let? notificationError := scan as_text row "notification_error" in
  let? updated := scan as_time row "updated_at" in
  let? created := scan as_time row "created_at" in
  Ok (mkModel id chain intent key payload sender address value data gas auths nonce rawTx rawReceipt status msg next
        pending rejected consumed notified attempts nextNotification notificationError updated created).

(** *** Back to a transaction *)

Definition normalizedHash (value : option string) : option string :=
  match value with
  | None => None
  | Some original =>
      let digits := if HasPrefix original "0x" || HasPrefix original "0X" then sdrop 2 original else original in
      if (slen digits =? 0)%nat || (64 <? slen digits)%nat then Some original
      else
        let digits := if Nat.odd (slen digits) then "0" +:+ digits else digits in
        match DecodeString digits with
        | None => Some original
        | Some decoded => Some (Hash_Hex (BytesToHash decoded))
        end
  end.

(** [if raw != "{}" && raw != ""] *)
Definition unmarshal_some {X} (message : string) (unmarshal : string -> result GoError X) (raw : string) :
    result GoError (option X) :=
  if String.eqb raw "{}" || String.eqb raw "" then Ok None
  else match wrap_err message (unmarshal raw) with Ok x => Ok (Some x) | Err e => Err e end.

Definition unmarshal_auths (raw : option string) : result GoError (list Authorization) :=
  match raw with
  | None => Ok []
  | Some raw => if String.eqb raw "" then Ok [] else wrap_err "failed to unmarshal raw authorizations" (auths_Unmarshal raw)
  end.

Definition txModelToTransaction (tx : txModel) : result GoError Transaction :=
  let? authorizations := unmarshal_auths (m_RawAuthorizations tx) in
  let? ethTx := unmarshal_some "failed to unmarshal raw tx" tx_UnmarshalJSON (m_RawTx tx) in
  let? receipt := unmarshal_some "failed to unmarshal raw receipt" receipt_UnmarshalJSON (m_RawReceipt tx) in
  match SetString10 (m_Value tx) with
  | None => Err (errors_New "failed to parse value")
  | Some value =>
      Ok {| tx_ID := m_ID tx; tx_IntentID := m_IntentID tx; tx_OperationKey := m_OperationKey tx;
            tx_PayloadHash := m_PayloadHash tx; tx_ChainID := m_ChainID tx;
            tx_Sender := HexToAddress (pointerValue (m_Sender tx)); tx_Address := HexToAddress (m_Address tx);
            tx_Data := m_Data tx; tx_Value := Some value; tx_GasLimit := m_GasLimit tx;
            tx_RawAuthorizations := authorizations; tx_AssignedNonce := m_AssignedNonce tx; tx_Tx := ethTx;
            tx_Receipt := receipt; tx_Status := m_Status tx; tx_Msg := m_Msg tx; tx_NextActionAt := m_NextActionAt tx;
            tx_BroadcastPending := m_BroadcastPending tx; tx_RejectedAttemptHash := normalizedHash (m_RejectedAttemptHash tx);
            tx_NonceConsumedAt := m_NonceConsumedAt tx; tx_NotifiedAt := m_NotifiedAt tx;
            tx_NotificationAttempts := m_NotificationAttempts tx; tx_NextNotificationAt := m_NextNotificationAt tx;
            tx_NotificationError := m_NotificationError tx; tx_UpdatedAt := m_UpdatedAt tx; tx_CreatedAt := m_CreatedAt tx |}
  end.

(** ** Attempts *)

Record attemptModel := mkAttemptModel {
  am_TransactionID : string; am_TxHash : string; am_Nonce : Z; am_RawTx : string; am_CreatedAt : Z;
}.

Definition attemptToModel (attempt : TransactionAttempt) : result GoError Row :=
  match at_Tx attempt with
  | None => Err (errors_New "transaction attempt is missing raw transaction")
  | Some t =>
      let? rawTx := wrap_err "failed to marshal transaction attempt" (tx_MarshalJSON t) in
      Ok {[ "transaction_id" := VText (at_TransactionID attempt); "tx_hash" := VText (Hash_Hex (at_Hash attempt));
            "nonce" := VInt (at_Nonce attempt); "raw_tx" := VText rawTx; "created_at" := VTime (at_CreatedAt attempt) ]}
  end.

Definition scan_attempt (row : Row) : result GoError attemptModel :=
  let? id := scan as_text row "transaction_id" in
  let? hash := scan as_text row "tx_hash" in
  let? nonce := scan as_int row "nonce" in
  let? rawTx := scan as_text row "raw_tx" in
  let? created := scan as_time row "created_at" in
  Ok (mkAttemptModel id hash nonce rawTx created).

Definition attemptModelToAttempt (model : attemptModel) : result GoError TransactionAttempt :=
  let? tx := wrap_err "failed to unmarshal transaction attempt" (tx_UnmarshalJSON (am_RawTx model)) in
  Ok {| at_TransactionID := am_TransactionID model; at_Hash := HexToHash (am_TxHash model);
        at_Nonce := am_Nonce model; at_Tx := Some tx; at_CreatedAt := am_CreatedAt model |}.

(** The batch fails with its first undecodable row. *)
Fixpoint attemptModelsToAttempts (models : list attemptModel) : result GoError (list TransactionAttempt) :=
  match models with
  | [] => Ok []
  | model :: rest =>
      match attemptModelToAttempt model with
      | Err e => Err (Errorf_w ("converting transaction attempt " +:+ am_TxHash model +:+ ": ") e "")
      | Ok attempt => let? attempts := attemptModelsToAttempts rest in Ok (attempt :: attempts)
      end
  end.

Definition qualifyColumns (table : string) (columns : list string) : list string :=
  map (fun column => table +:+ "." +:+ column) columns.

(** ** Round trips *)

(** A row as [Get] and [Select] decode it. *)
Definition load_tx (row : Row) : result GoError Transaction := let? model := scan_tx row in txModelToTransaction model.
Definition load_attempt (row : Row) : result GoError TransactionAttempt :=
  let? model := scan_attempt row in attemptModelToAttempt model.

(** What a transaction must be for its row to read back as itself: a value, and
    the hash of a rejected attempt in canonical form. *)
Record storable (tx : Transaction) : Prop := {
  st_value : is_Some (tx_Value tx);
  st_rejected : normalizedHash (tx_RejectedAttemptHash tx) = tx_RejectedAttemptHash tx;
}.

(** A row with nothing in one of the columns a write may leave out. *)
Definition vacant_json (row : Row) (column : string) : Prop :=
  row !! column = Some (VText "") \/ row !! column = Some (VText "{}").
Definition vacant_auths (row : Row) : Prop :=
  row !! "raw_authorizations" = Some VNull \/ row !! "raw_authorizations" = Some (VText "").

(** What a write of [tx] leaves out was vacant before. *)
Record over (tx : Transaction) (base : Row) : Prop := {
  ov_auths : tx_RawAuthorizations tx = [] -> vacant_auths base;
  ov_tx : tx_Tx tx = None -> vacant_json base "raw_tx";
  ov_receipt : tx_Receipt tx = None -> vacant_json base "raw_receipt";
}.

Lemma lookup_optional_ne c c' v fields : c <> c' -> optional c' v fields !! c = fields !! c.
Proof. intros H. destruct v; [|done]. by apply lookup_insert_ne. Qed.

Lemma lookup_optional c v fields base : fields !! c = None ->
  (optional c v fields ∪ base) !! c = match v with Some s => Some (VText s) | None => base !! c end.
Proof.
  intros H. destruct v as [s|]; simpl; [by rewrite lookup_union, lookup_insert_eq, union_Some_l|].
  rewrite lookup_union, H. by destruct (base !! c).
Qed.

Definition optional_columns : list string := ["raw_authorizations"; "raw_tx"; "raw_receipt"].

Lemma scan_mandatory {X} (f : SqlValue -> option X) fields auths rawTx rawReceipt base c v x :
  fields !! c = Some v -> c ∉ optional_columns -> f v = Some x ->
  scan f (optional "raw_receipt" rawReceipt (optional "raw_tx" rawTx (optional "raw_authorizations" auths fields)) ∪ base) c = Ok x.
Proof.
  intros Hc Hn Hf. unfold optional_columns in Hn. rewrite !not_elem_of_cons in Hn. destruct Hn as (H1 & H2 & H3 & _).
  unfold scan. rewrite lookup_union, !lookup_optional_ne, Hc by done. rewrite union_Some_l. by rewrite Hf.
Qed.

Lemma nullable_null_or {X} (f : SqlValue -> option X) (g : X -> SqlValue) v :
  (forall x, f (g x) = Some x) -> (forall x, g x <> VNull) -> nullable f (null_or g v) = Some v.
Proof.
  intros Hf Hg. destruct v as [x|]; [|done]. simpl. unfold nullable. specialize (Hf x). specialize (Hg x).
  revert Hf Hg. destruct (g x); intros Hf Hg; [done|by rewrite Hf..].
Qed.

Lemma as_status_string st : as_status (VText (status_string st)) = Some st.
Proof. by destruct st. Qed.

Ltac mandatory M := erewrite M; [cbn [result_bind]|reflexivity|apply (bool_decide_eq_true_1 _); reflexivity|
    first [reflexivity | by apply nullable_null_or]].

(** Every mandatory column scans back to its field. *)
Lemma scan_tx_written tx auths rawTx rawReceipt base a t r :
  let row := optional "raw_receipt" rawReceipt (optional "raw_tx" rawTx (optional "raw_authorizations" auths (tx_fields tx))) ∪ base in
  scan (nullable as_text) row "raw_authorizations" = Ok a -> scan as_text row "raw_tx" = Ok t ->
  scan as_text row "raw_receipt" = Ok r ->
  scan_tx row = Ok (mkModel (tx_ID tx) (tx_ChainID tx) (tx_IntentID tx) (tx_OperationKey tx) (tx_PayloadHash tx)
    (nullableAddress (tx_Sender tx)) (Address_Hex (tx_Address tx)) (big_String (default 0 (tx_Value tx))) (tx_Data tx)
    (tx_GasLimit tx) a (tx_AssignedNonce tx) t r (tx_Status tx) (tx_Msg tx) (tx_NextActionAt tx) (tx_BroadcastPending tx)
    (tx_RejectedAttemptHash tx) (tx_NonceConsumedAt tx) (tx_NotifiedAt tx) (tx_NotificationAttempts tx)
    (tx_NextNotificationAt tx) (tx_NotificationError tx) (tx_UpdatedAt tx) (tx_CreatedAt tx)).
Proof.
  intros row Ha Ht Hr. unfold scan_tx.
  assert (M : forall X (f : SqlValue -> option X) c v x, tx_fields tx !! c = Some v -> c ∉ optional_columns -> f v = Some x ->
    scan f row c = Ok x) by (intros; by eapply scan_mandatory).
  do 10 mandatory M. rewrite Ha. cbn [result_bind]. mandatory M. rewrite Ht. cbn [result_bind]. rewrite Hr. cbn [result_bind].
  erewrite M; [cbn [result_bind]|reflexivity|apply (bool_decide_eq_true_1 _); reflexivity|apply as_status_string].
  do 11 mandatory M. reflexivity.
Qed.

Context `{CL : !PgCodecLaws}.

Lemma marshal_some_Ok {X} message (marshal : X -> result GoError string) v s :
  marshal_some message marshal v = Ok s ->
  (v = None /\ s = None) \/ exists x text, v = Some x /\ marshal x = Ok text /\ s = Some text.
Proof.
  unfold marshal_some, wrap_err. destruct v as [x|]; [|intros [= <-]; by left]. destruct (marshal x) eqn:E; [|done].
  intros [= <-]. right. eauto.
Qed.

(** An optional JSON column reads back what was marshalled, or nothing when it
    was left out over a vacant one. *)
Lemma unmarshal_written {X} message message' (marshal : X -> result GoError string) unmarshal v s fields base c :
  (forall x text, marshal x = Ok text -> unmarshal text = Ok x /\ text <> "" /\ text <> "{}") ->
  marshal_some message marshal v = Ok s -> fields !! c = None -> (v = None -> vacant_json base c) ->
  exists text, scan as_text (optional c s fields ∪ base) c = Ok text /\ unmarshal_some message' unmarshal text = Ok v.
Proof.
  intros Hcodec Hm Hf Hv. unfold scan. rewrite lookup_optional by done. unfold unmarshal_some.
  apply marshal_some_Ok in Hm as [[-> ->]|(x & text & -> & Ht & ->)].
  - destruct (Hv eq_refl) as [-> | ->]; eexists; split; reflexivity.
  - exists text. split; [done|]. destruct (Hcodec x text Ht) as (-> & H1 & H2).
    by rewrite (proj2 (String.eqb_neq _ _) H1), (proj2 (String.eqb_neq _ _) H2).
Qed.

Lemma normalizedHash_Hash_Hex h : normalizedHash (Some (Hash_Hex h)) = Some (Hash_Hex h).
Proof.
  unfold normalizedHash. pose proof (Hash_Hex_text h) as E. set (text := Hash_Hex h) in *. rewrite E.
  set (digits := EncodeToString (Hash_Bytes h)).
  rewrite (proj2 (HasPrefix_spec ("0x" +:+ digits) "0x")) by by exists digits. cbn [orb].
  change (sdrop 2 ("0x" +:+ digits)) with digits.
  assert (Hl : slen digits = 64%nat) by (unfold digits; by rewrite slen_EncodeToString, Hash_Bytes_length).
  rewrite Hl. cbn [Nat.eqb Nat.ltb Nat.leb orb Nat.odd Nat.even negb]. unfold digits.
  rewrite DecodeString_EncodeToString, BytesToHash_Bytes. fold text. by rewrite E.
Qed.

Lemma sender_roundtrip a : HexToAddress (pointerValue (nullableAddress a)) = a.
Proof.
  unfold nullableAddress. case_bool_decide as H; simpl; [by rewrite HexToAddress_empty|apply HexToAddress_Hex].
Qed.

Lemma lookup_optional_outer c c' v (fields base : Row) : c <> c' -> (optional c' v fields ∪ base) !! c = (fields ∪ base) !! c.
Proof. intros H. by rewrite !lookup_union, lookup_optional_ne. Qed.

Lemma scan_outer {X} (f : SqlValue -> option X) c c' v fields base : c <> c' ->
  scan f (optional c' v fields ∪ base) c = scan f (fields ∪ base) c.
Proof. intros H. unfold scan. by rewrite lookup_optional_outer. Qed.

(** The authorizations, for which NULL stands for none. *)
Lemma auths_written l s base :
  marshal_some "failed to marshal raw authorizations" auths_Marshal (non_nil l) = Ok s ->
  (l = [] -> vacant_auths base) -> forall fields, fields !! "raw_authorizations" = None ->
  exists a, scan (nullable as_text) (optional "raw_authorizations" s fields ∪ base) "raw_authorizations" = Ok a /\
    unmarshal_auths a = Ok l.
Proof.
  intros Hm Hv fields Hf. unfold scan. rewrite lookup_optional by done.
  apply marshal_some_Ok in Hm as [[Hl ->]|(x & text & Hl & Ht & ->)].
  - destruct l; [|done]. destruct (Hv eq_refl) as [-> | ->]; eexists; split; reflexivity.
  - exists (Some text). split; [done|]. assert (x = l) as -> by (destruct l; [done|by injection Hl]).
    destruct (auths_json l text Ht) as [E Hne]. unfold unmarshal_auths. by rewrite (proj2 (String.eqb_neq _ _) Hne), E.
Qed.

(** C21: What is written reads back: the row of a storable transaction, inserted
    over the column defaults or updated over an old row, decodes to exactly the
    transaction, every field, provided the columns the write leaves out were
    vacant. *)
Theorem row_roundtrip tx fields base (Hf : transactionToTxModel tx = Ok fields) (Hs : storable tx) (Hb : over tx base) :
  load_tx (fields ∪ base) = Ok tx.
Proof.
  apply result_bind_Ok in Hf as (auths & Ha & Hf). apply result_bind_Ok in Hf as (rawTx & Ht & Hf).
  apply result_bind_Ok in Hf as (rawReceipt & Hr & [= <-]). destruct Hb as [Ba Bt Br]. destruct Hs as [[v Hv] Hrej].
  destruct (auths_written _ _ base Ha Ba (tx_fields tx) eq_refl) as (a & Sa & Ua).
  destruct (unmarshal_written _ "failed to unmarshal raw tx" _ tx_UnmarshalJSON _ _
    (optional "raw_authorizations" auths (tx_fields tx)) base "raw_tx" tx_json Ht) as (t & St & Ut);
    [by rewrite lookup_optional_ne|done|].
  destruct (unmarshal_written _ "failed to unmarshal raw receipt" _ receipt_UnmarshalJSON _ _
    (optional "raw_tx" rawTx (optional "raw_authorizations" auths (tx_fields tx))) base "raw_receipt" receipt_json Hr)
    as (r & Sr & Ur); [by rewrite !lookup_optional_ne|done|].
  unfold load_tx. erewrite scan_tx_written; [|rewrite !scan_outer by done; exact Sa|rewrite scan_outer by done; exact St|exact Sr].
  cbn [result_bind]. unfold txModelToTransaction. cbn [m_RawAuthorizations m_RawTx m_RawReceipt]. rewrite Ua, Ut, Ur.
  cbn [result_bind m_Value]. rewrite Hv, SetString10_String. cbn [m_Sender m_Address m_RejectedAttemptHash default].
  rewrite sender_roundtrip, HexToAddress_Hex, Hrej. destruct tx; simpl in *. by rewrite Hv.
Qed.

Lemma attempt_roundtrip attempt fields : attemptToModel attempt = Ok fields -> load_attempt fields = Ok attempt.
Proof.
  unfold attemptToModel. destruct (at_Tx attempt) as [t|] eqn:Et; [|done]. intros (raw & E & [= <-])%result_bind_Ok.
  unfold wrap_err in E. destruct (tx_MarshalJSON t) as [text|] eqn:Em; [|done]. injection E as <-.
  change (load_attempt _) with (attemptModelToAttempt (mkAttemptModel (at_TransactionID attempt) (Hash_Hex (at_Hash attempt))
    (at_Nonce attempt) text (at_CreatedAt attempt))).
  unfold attemptModelToAttempt. cbn [am_RawTx]. rewrite (proj1 (tx_json t text Em)). cbn [wrap_err result_bind].
  cbn [am_TransactionID am_TxHash am_Nonce am_CreatedAt]. rewrite HexToHash_Hex, <- Et. by destruct attempt.
Qed.

End rows.
