(* ===== verification/PgStore.v ===== *)
(** * Statements of the PostgreSQL provider (evm/txmngr/txmngr_provider/pg/tx.go)

    The conditions, orderings and limits the query builder collects are data,
    evaluated over rows with SQL's three-valued logic; an [INSERT ... ON
    CONFLICT], a conditional [UPDATE] and a [SELECT] are functions of the tables.
    The schema is not in the repository: column defaults, the conversion of
    parameters to column types, the text collation, the order of a table scan and
    the text of a unique violation are parameters ([PgSchema]).  Statements run
    atomically; a transport failure belongs to the caller's environment. *)
From stdpp Require Import gmap.
From Stdlib Require Import Ascii Strings.Byte.
From S2P Require Export PgRows.
Local Open Scope Z_scope.
Local Open Scope go_scope.

Class PgSchema := {
  schema_default : Row;
  coerce : Row -> result GoError Row;                 (* parameters to column types *)
  collate : string -> string -> comparison;
  table_scan : gmap string Row -> list Row;
  table_scan_perm m : table_scan m ≡ₚ (map_to_list m).*2;
  unique_violation : string -> GoError;
}.

(** ** Conditions *)

Inductive cond :=
| CEq (column : string) (v : SqlValue)           (* sq.Eq{column: v} *)
| CIn (column : string) (vs : list SqlValue)      (* sq.Eq{column: slice} *)
| CLtOrEq (column : string) (v : SqlValue)        (* sq.LtOrEq{column: v} *)
| CIsNull (column : string)
| CIsNotNull (column : string)
| CNotEq (column : string) (v : SqlValue)         (* column <> v *)
| CAnd (c d : cond)
| COr (c d : cond).

(** [None] is SQL's unknown. *)
Definition sql_eq (v w : SqlValue) : option bool :=
  match v, w with
  | VText s, VText t => Some (String.eqb s t)
  | VInt a, VInt b | VTime a, VTime b => Some (a =? b)
  | VBool a, VBool b => Some (Bool.eqb a b)
  | _, _ => None
  end.

Definition sql_le (v w : SqlValue) : option bool :=
  match v, w with VInt a, VInt b | VTime a, VTime b => Some (a <=? b) | _, _ => None end.

Definition and3 (a b : option bool) : option bool :=
  match a, b with
  | Some false, _ | _, Some false => Some false
  | Some true, Some true => Some true
  | _, _ => None
  end.
Definition or3 (a b : option bool) : option bool :=
  match a, b with
  | Some true, _ | _, Some true => Some true
  | Some false, Some false => Some false
  | _, _ => None
  end.

Definition column (row : Row) (c : string) : SqlValue := default VNull (row !! c).

(** [column IN (...)]; an empty list is [(1=0)]. *)
Fixpoint sql_in (v : SqlValue) (vs : list SqlValue) : option bool :=
  match vs with [] => Some false | w :: vs => or3 (sql_eq v w) (sql_in v vs) end.

Fixpoint eval (c : cond) (row : Row) : option bool :=
  match c with
  | CEq k v => sql_eq (column row k) v
  | CIn k vs => sql_in (column row k) vs
  | CLtOrEq k v => sql_le (column row k) v
  | CIsNull k => Some (match column row k with VNull => true | _ => false end)
  | CIsNotNull k => Some (match column row k with VNull => false | _ => true end)
  | CNotEq k v => negb <$> sql_eq (column row k) v
  | CAnd c d => and3 (eval c row) (eval d row)
  | COr c d => or3 (eval c row) (eval d row)
  end.

(** [WHERE] keeps the rows for which the condition is true. *)
Definition keeps (c : cond) (row : Row) : bool := match eval c row with Some true => true | _ => false end.

(** ** Orderings: ascending, NULL last *)

Section statements.
Context `{G : GoEthereum} `{AB : !Abi} `{PC : !PgCodec} `{PS : !PgSchema}.

Definition compare_values (v w : SqlValue) : comparison :=
  match v, w with
  | VText s, VText t => collate s t
  | VInt a, VInt b | VTime a, VTime b => a ?= b
  | VNull, VNull => Eq
  | VNull, _ => Gt
  | _, VNull => Lt
  | _, _ => Eq
  end.

Fixpoint compare_rows (columns : list string) (a b : Row) : comparison :=
  match columns with
  | [] => Eq
  | c :: columns => cmp_or (compare_values (column a c) (column b c)) (compare_rows columns a b)
  end.

(** ** The query builder *)

Record selector := mkSelector { wheres : list cond; order_by : list string; limit : option Z }.

(** A queue: the signer it is scoped to, and the query built so far. *)
Record transactionsQ := mkQ { q_sender : option Address; q_selector : selector }.

Definition NewTransactionsQ : transactionsQ := {| q_sender := None; q_selector := mkSelector [] [] None |}.

Definition Where (c : cond) (q : transactionsQ) : transactionsQ :=
  let sel := q_selector q in
  {| q_sender := q_sender q; q_selector := mkSelector (wheres sel ++ [c]) (order_by sel) (limit sel) |}.

Definition NewSenderTransactionsQ (sender : Address) : transactionsQ :=
  let q := Where (CEq "sender" (VText (Address_Hex sender))) NewTransactionsQ in
  {| q_sender := Some sender; q_selector := q_selector q |}.

Definition New (q : transactionsQ) : transactionsQ :=
  match q_sender q with Some sender => NewSenderTransactionsQ sender | None => NewTransactionsQ end.

Definition statuses_values (l : list TxStatus) : list SqlValue := map (fun st => VText (status_string st)) l.

Definition FilterByIds (ids : list string) : transactionsQ -> transactionsQ := Where (CIn "id" (map VText ids)).
Definition FilterByChainIds (chainIDs : list Z) : transactionsQ -> transactionsQ := Where (CIn "chain_id" (map VInt chainIDs)).
Definition FilterBySenderOrUnset (sender : Address) : transactionsQ -> transactionsQ :=
  Where (COr (CEq "sender" (VText (Address_Hex sender))) (CIsNull "sender")).
Definition FilterByStatuses (statuses : list TxStatus) : transactionsQ -> transactionsQ :=
  Where (CIn "status" (statuses_values statuses)).
Definition FilterReadyBefore (before : Z) : transactionsQ -> transactionsQ := Where (CLtOrEq "next_action_at" (VTime before)).
Definition FilterNotificationReadyBefore (before : Z) (q : transactionsQ) : transactionsQ :=
  Where (CLtOrEq "next_notification_at" (VTime before))
    (Where (CAnd (CIsNotNull "intent_id") (CNotEq "intent_id" (VText "")))
      (Where (CIsNull "notified_at") (Where (CIn "status" (statuses_values TerminalStatuses)) q))).

Definition OrderBy (columns : list string) (q : transactionsQ) : transactionsQ :=
  let sel := q_selector q in
  {| q_sender := q_sender q; q_selector := mkSelector (wheres sel) (order_by sel ++ columns) (limit sel) |}.
Definition OrderByNextAction : transactionsQ -> transactionsQ := OrderBy ["next_action_at"; "created_at"; "id"].
Definition OrderByLaneWork : transactionsQ -> transactionsQ :=
  OrderBy ["assigned_nonce"; "next_action_at"; "created_at"; "id"].
Definition OrderByNextNotification : transactionsQ -> transactionsQ :=
  OrderBy ["next_notification_at"; "created_at"; "id"].

Definition Limit (n : Z) (q : transactionsQ) : transactionsQ :=
  let sel := q_selector q in
  {| q_sender := q_sender q; q_selector := mkSelector (wheres sel) (order_by sel) (Some n) |}.

(** ** Tables *)

(** [transactions] by primary key, [transaction_attempts] in the order of their
    serial ids, and the advisory locks held. *)
Record pgState := mkPg {
  transactions : gmap string Row;
  transaction_attempts : list Row;
  advisory_locks : gset Z;
}.

Definition set_transactions (m : gmap string Row) (s : pgState) : pgState :=
  {| transactions := m; transaction_attempts := transaction_attempts s; advisory_locks := advisory_locks s |}.

(** [SELECT ... WHERE ... ORDER BY ... LIMIT ...] *)
Definition run_select (sel : selector) (s : pgState) : list Row :=
  let rows := List.filter (fun row => forallb (fun c => keeps c row) (wheres sel)) (table_scan (transactions s)) in
  let rows := sort_stable (compare_rows (order_by sel)) rows in
  match limit sel with Some n => take (Z.to_nat n) rows | None => rows end.

(** [UPDATE ... SET fields WHERE c]: the table, and the rows affected. *)
Definition run_update (fields : Row) (c : cond) (m : gmap string Row) : gmap string Row * Z :=
  ((fun row => if keeps c row then fields ∪ row else row) <$> m,
   Z.of_nat (length (List.filter (keeps c) (map_to_list m).*2))).

Definition same_operation (row : Row) (other : Row) : bool :=
  match sql_eq (column row "operation_key") (column other "operation_key") with Some true => true | _ => false end.

(** [INSERT]: the id is unique, and so is a non-null operation key. *)
Definition run_insert (id : string) (row : Row) (m : gmap string Row) : result GoError (gmap string Row) :=
  match m !! id with
  | Some _ => Err (unique_violation "id")
  | None =>
      if existsb (same_operation row) (table_scan m) then Err (unique_violation "operation_key")
      else Ok (<[id := row]> m)
  end.

(** ** Writes *)

Definition sender_differs (q : transactionsQ) (tx : Transaction) : bool :=
  match q_sender q with Some sender => negb (bool_decide (tx_Sender tx = sender)) | None => false end.

Definition errSender : GoError := errors_New "transaction sender differs from queue signer".

Definition Insert (q : transactionsQ) (tx : Transaction) (s : pgState) : result GoError unit * pgState :=
  if sender_differs q tx then (Err errSender, s)
  else
    match transactionToTxModel tx with
    | Err e => (Err (Errorf_w ("converting transaction " +:+ tx_ID tx +:+ " to model data: ") e ""), s)
    | Ok fields =>
        match (let? fields := coerce fields in run_insert (tx_ID tx) (fields ∪ schema_default) (transactions s)) with
        | Err e => (Err e, s)
        | Ok m => (Ok tt, set_transactions m s)
        end
    end.

(** What the row the statement returns means for the caller. *)
Definition returned_row (tx : Transaction) (row : Row) : result GoError Transaction :=
  match scan_tx row with
  | Err e => Err (Errorf_w "inserting transaction: " e "")
  | Ok model =>
      let same := match m_PayloadHash model, tx_PayloadHash tx with Some h, Some h' => String.eqb h h' | _, _ => false end in
      if bool_decide (tx_OperationKey tx <> None) && negb same then Err ErrIdempotencyConflict_v
      else txModelToTransaction model
  end.

Definition InsertOrGet (q : transactionsQ) (tx : Transaction) (s : pgState) : result GoError Transaction * pgState :=
  if sender_differs q tx then (Err errSender, s)
  else
    match wrap_err "failed to convert tx to model data" (transactionToTxModel tx) with
    | Err e => (Err e, s)
    | Ok fields =>
        match coerce fields with
        | Err e => (Err (Errorf_w "inserting transaction: " e ""), s)
        | Ok fields =>
            let row := fields ∪ schema_default in
            match List.find (same_operation row) (table_scan (transactions s)) with
            | Some existing => (returned_row tx existing, s)      (* DO UPDATE SET operation_key = EXCLUDED.operation_key *)
            | None =>
                match run_insert (tx_ID tx) row (transactions s) with
                | Err e => (Err (Errorf_w "inserting transaction: " e ""), s)
                | Ok m => (returned_row tx row, set_transactions m s)
                end
            end
        end
    end.

Definition owned_by_hash (hash : string) (row : Row) : bool := keeps (CEq "tx_hash" (VText hash)) row.

Definition InsertAttempt (attempt : TransactionAttempt) (s : pgState) : result GoError unit * pgState :=
  match wrap_err "failed to convert transaction attempt" (attemptToModel attempt) with
  | Err e => (Err e, s)
  | Ok fields =>
      let hash := Hash_Hex (at_Hash attempt) in
      let persisting e := Err (Errorf_w ("persisting transaction attempt " +:+ hash +:+ ": ") e "") in
      let verdict row :=
        match scan as_text row "transaction_id" with
        | Err e => persisting e
        | Ok owner => if String.eqb owner (at_TransactionID attempt) then Ok tt else Err (AttemptHashConflictError hash owner)
        end in
      match coerce fields with
      | Err e => (persisting e, s)
      | Ok fields =>
          match List.find (owned_by_hash hash) (transaction_attempts s) with
          | Some row => (verdict row, s)
          | None => (verdict fields, {| transactions := transactions s;
                                        transaction_attempts := transaction_attempts s ++ [fields];
                                        advisory_locks := advisory_locks s |})
          end
      end
  end.

Definition expectSingleUpdate (rows : Z) : result GoError unit :=
  if rows =? 1 then Ok tt else Err ErrStaleTransaction_v.

Definition update_transactions (fields : Row) (c : cond) (s : pgState) : result GoError unit * pgState :=
  let '(m, n) := run_update fields c (transactions s) in (expectSingleUpdate n, set_transactions m s).

Definition UpdateIfActive (tx : Transaction) (s : pgState) : result GoError unit * pgState :=
  match transactionToTxModel tx with
  | Err e => (Err (Errorf_w ("converting transaction " +:+ tx_ID tx +:+ " to model data: ") e ""), s)
  | Ok fields =>
      match coerce fields with
      | Err e => (Err (Errorf_w ("updating transaction " +:+ tx_ID tx +:+ ": ") e ""), s)
      | Ok fields =>
          update_transactions fields (CAnd (CEq "id" (VText (tx_ID tx))) (CIn "status" (statuses_values ActiveStatuses))) s
      end
  end.

Definition notification_fields (tx : Transaction) : Row :=
  list_to_map [("notified_at", null_or VTime (tx_NotifiedAt tx)); ("notification_attempts", VInt (tx_NotificationAttempts tx));
     ("next_notification_at", VTime (tx_NextNotificationAt tx)); ("notification_error", VText (tx_NotificationError tx));
     ("updated_at", VTime (tx_UpdatedAt tx))].

Definition UpdateNotification (tx : Transaction) (s : pgState) : result GoError unit * pgState :=
  match coerce (notification_fields tx) with
  | Err e => (Err e, s)
  | Ok fields =>
      update_transactions fields
        (CAnd (CAnd (CEq "id" (VText (tx_ID tx))) (CIn "status" (statuses_values TerminalStatuses))) (CIsNull "notified_at")) s
  end.

(** ** Reads *)

Fixpoint scan_all {X Y} (f : X -> result GoError Y) (rows : list X) : result GoError (list Y) :=
  match rows with
  | [] => Ok []
  | row :: rest => let? y := f row in let? ys := scan_all f rest in Ok (y :: ys)
  end.

Definition Select (q : transactionsQ) (s : pgState) : result GoError (list Transaction) :=
  let? models := wrap_err "failed to select transactions" (scan_all scan_tx (run_select (q_selector q) s)) in
  scan_all (fun model => wrap_err "failed to convert model to transaction" (txModelToTransaction model)) models.

(** [sqlx.Get] takes the first row. *)
Definition Get (q : transactionsQ) (s : pgState) : result GoError Transaction :=
  match run_select (q_selector q) s with
  | [] => Err (errors_Wrap ErrNoRows_v "failed to get transaction")
  | row :: _ =>
      let? model := wrap_err "failed to get transaction" (scan_tx row) in
      wrap_err "failed to convert model to transaction" (txModelToTransaction model)
  end.

(** The attempts kept by a condition, oldest first, by id among equals. *)
Definition select_attempts (holds : Row -> bool) (s : pgState) : list Row :=
  sort_stable (compare_rows ["created_at"]) (List.filter holds (transaction_attempts s)).

Definition decode_attempts (selecting converting : string) (rows : list Row) : result GoError (list TransactionAttempt) :=
  match scan_all scan_attempt rows with
  | Err e => Err (Errorf_w selecting e "")
  | Ok models =>
      match attemptModelsToAttempts models with Err e => Err (Errorf_w converting e "") | Ok attempts => Ok attempts end
  end.

Definition SelectAttempts (transactionID : string) (s : pgState) : result GoError (list TransactionAttempt) :=
  decode_attempts ("selecting attempts for transaction " +:+ transactionID +:+ ": ")
    ("converting attempts for transaction " +:+ transactionID +:+ ": ")
    (select_attempts (keeps (CEq "transaction_id" (VText transactionID))) s).

(** The attempt joins its owner's row, whose chain must match. *)
Definition on_lane (chainID nonce : Z) (s : pgState) (attempt : Row) : bool :=
  match column attempt "transaction_id" with
  | VText id =>
      match transactions s !! id with
      | Some owner => keeps (CEq "chain_id" (VInt chainID)) owner && keeps (CEq "nonce" (VInt nonce)) attempt
      | None => false
      end
  | _ => false
  end.

Definition SelectAttemptsByNonce (chainID nonce : Z) (s : pgState) : result GoError (list TransactionAttempt) :=
  decode_attempts ("selecting attempts for chain " +:+ pretty chainID +:+ " nonce " +:+ pretty nonce +:+ ": ")
    ("converting attempts for chain " +:+ pretty chainID +:+ " nonce " +:+ pretty nonce +:+ ": ")
    (select_attempts (on_lane chainID nonce s) s).

(** [SELECT chain_id, COUNT( * ) ... GROUP BY chain_id] *)
Definition count_group (c : cond) (rows : list Row) (counts : gmap Z Z) (row : Row) : gmap Z Z :=
  match column row "chain_id" with
  | VInt chain => <[chain := Z.of_nat (length (List.filter (keeps (CAnd c (CEq "chain_id" (VInt chain)))) rows))]> counts
  | _ => counts
  end.

Definition CountByChain (q : transactionsQ) (statuses : list TxStatus) (s : pgState) : gmap Z Z :=
  match statuses with
  | [] => ∅
  | _ =>
      let c := CIn "status" (statuses_values statuses) in
      let c := match q_sender q with Some sender => CAnd c (CEq "sender" (VText (Address_Hex sender))) | None => c end in
      let rows := table_scan (transactions s) in
      fold_left (count_group c rows) (List.filter (keeps c) rows) ∅
  end.

(** [MAX(assigned_nonce)], NULL over no rows. *)
Definition max_value (acc : option Z) (row : Row) : option Z :=
  match column row "assigned_nonce" with
  | VInt n => Some (match acc with Some m => Z.max m n | None => n end)
  | _ => acc
  end.

Definition MaxAssignedNonce (sender : Address) (chainID : Z) (s : pgState) : result GoError (option Z) :=
  let c := CAnd (CAnd (CEq "sender" (VText (Address_Hex sender))) (CEq "chain_id" (VInt chainID))) (CIsNotNull "assigned_nonce") in
  match fold_left max_value (List.filter (keeps c) (table_scan (transactions s))) None with
  | None => Ok None
  | Some n =>
      if n <? 0 then Err (errors_New ("persisted assigned nonce " +:+ pretty n +:+ " for chain " +:+ pretty chainID +:+ " is negative"))
      else Ok (Some n)
  end.

(** ** Lane locks *)

(** [binary.BigEndian.PutUint64] *)
Definition PutUint64 (v : Z) : bytes := map (fun i => byte_of (Z.shiftr v (8 * i))) [7; 6; 5; 4; 3; 2; 1; 0].

Definition laneLockKey (sender : Address) (chainID : Z) : Z :=
  wrap_i64 (SetBytes (take 8 (Hash_Bytes (Keccak256Hash (Address_Bytes sender ++ PutUint64 chainID))))).

(** [pg_try_advisory_lock] on a connection of its own. *)
Definition TryLockLane (sender : Address) (chainID : Z) (s : pgState) : bool * pgState :=
  let key := laneLockKey sender chainID in
  if bool_decide (key ∈ advisory_locks s) then (false, s)
  else (true, {| transactions := transactions s; transaction_attempts := transaction_attempts s;
                 advisory_locks := {[key]} ∪ advisory_locks s |}).

(** A held lock: its key, and whether [Unlock] ran. *)
Record laneLock := mkLock { lock_key : Z; lock_done : bool; lock_err : option GoError }.

(** What [TryLockLane] returns along with [true]. *)
Definition taken_lock (sender : Address) (chainID : Z) : laneLock :=
  {| lock_key := laneLockKey sender chainID; lock_done := false; lock_err := None |}.

(** The first call unlocks; the others return its result. *)
Definition Unlock (l : laneLock) (s : pgState) : option GoError * laneLock * pgState :=
  if lock_done l then (lock_err l, l, s)
  else
    let held := bool_decide (lock_key l ∈ advisory_locks s) in
    let err := if held then None else Some (errors_New "transaction lane advisory lock was not held") in
    (err, {| lock_key := lock_key l; lock_done := true; lock_err := err |},
     {| transactions := transactions s; transaction_attempts := transaction_attempts s;
        advisory_locks := advisory_locks s ∖ {[lock_key l]} |}).

End statements.
