(* ===== verification/PgRefine.v ===== *)
(** * The PostgreSQL provider refines the queue contract

    The view of the tables as transactions and attempts ([pg_rows],
    [pg_attempts], [pg_owner]), the invariant that every row was written by the
    package ([pg_wf]), and the proofs that each statement does to the view what
    [TransactionsQ] promises. *)
From stdpp Require Import gmap.
From Stdlib Require Import Ascii Strings.Byte.
From S2P Require Export PgStore.
Local Open Scope Z_scope.
Local Open Scope go_scope.

(** The columns a write may leave out start vacant. *)
Class PgSchemaLaws `{PgSchema} : Prop := {
  default_auths : vacant_auths schema_default;
  default_raw_tx : vacant_json schema_default "raw_tx";
  default_raw_receipt : vacant_json schema_default "raw_receipt";
}.

Section refine.
Context `{G : GoEthereum} `{AB : !Abi} `{PC : !PgCodec} `{CL : !PgCodecLaws} `{PS : !PgSchema} `{SL : !PgSchemaLaws}.

(** ** The view *)


Definition pg_rows (s : pgState) : gmap string Transaction := omap (fun row => ok_of (load_tx row)) (transactions s).
Definition pg_attempts (s : pgState) (id : string) : list TransactionAttempt :=
  omap (fun row => ok_of (load_attempt row)) (List.filter (keeps (CEq "transaction_id" (VText id))) (transaction_attempts s)).
Definition pg_owner (s : pgState) (hash : string) : option string :=
  row ← List.find (owned_by_hash hash) (transaction_attempts s); as_text (column row "transaction_id").

(** ** Rows the package wrote *)

Inductive row_of (t : Transaction) (row : Row) : Prop :=
| row_of_intro fields base : transactionToTxModel t = Ok fields -> storable t -> over t base -> row = fields ∪ base ->
    row_of t row.

Record pg_wf (s : pgState) : Prop := {
  pw_rows id row : transactions s !! id = Some row -> exists t, tx_ID t = id /\ row_of t row;
  pw_attempts row : row ∈ transaction_attempts s -> exists a, attemptToModel a = Ok row;
}.

Lemma row_of_loads t row : row_of t row -> load_tx row = Ok t.
Proof. intros [fields base Hf Hs Ho ->]. by apply row_roundtrip. Qed.

Lemma row_of_column t row c v : row_of t row -> tx_fields t !! c = Some v -> c ∉ optional_columns -> column row c = v.
Proof.
  intros [fields base Hf _ _ ->] Hc Hn. apply result_bind_Ok in Hf as (auths & _ & Hf).
  apply result_bind_Ok in Hf as (rawTx & _ & Hf). apply result_bind_Ok in Hf as (rawReceipt & _ & [= <-]).
  unfold optional_columns in Hn. rewrite !not_elem_of_cons in Hn. destruct Hn as (H1 & H2 & H3 & _).
  unfold column. by rewrite lookup_union, !lookup_optional_ne, Hc, union_Some_l by done.
Qed.

(** The value of a column of a row known by its transaction. *)
Ltac by_column := match goal with H : row_of ?t ?row |- context [column ?row ?c] =>
  erewrite (row_of_column t row c _ H); [|reflexivity|apply (bool_decide_eq_true_1 _); reflexivity] end.

Lemma pg_rows_lookup s id : pg_wf s ->
  (transactions s !! id = None /\ pg_rows s !! id = None) \/
  exists row t, transactions s !! id = Some row /\ pg_rows s !! id = Some t /\ row_of t row /\ tx_ID t = id.
Proof.
  intros W. unfold pg_rows. rewrite lookup_omap. destruct (transactions s !! id) as [row|] eqn:E; [|by left]. right.
  destruct (pw_rows s W id row E) as (t & Hid & Hr). exists row, t. simpl. by rewrite (row_of_loads t row Hr).
Qed.

(** ** Conditions on such rows *)

Lemma sql_in_map {X} (f : X -> SqlValue) (v : SqlValue) (P : X -> bool) l :
  (forall x, sql_eq v (f x) = Some (P x)) -> sql_in v (map f l) = Some (existsb P l).
Proof.
  intros H. induction l as [|x l IH]; [done|]. cbn [map sql_in existsb]. rewrite H, IH.
  by destruct (P x), (existsb P l).
Qed.

Lemma existsb_elem {X} `{EqDecision X} (P : X -> bool) x l :
  (forall y, P y = bool_decide (x = y)) -> existsb P l = bool_decide (x ∈ l).
Proof.
  intros H. apply eq_true_iff_eq. rewrite existsb_exists, bool_decide_eq_true. split.
  - intros (y & Hy%list_elem_of_In & E). rewrite H in E. by apply bool_decide_eq_true in E as ->.
  - intros Hx. exists x. rewrite H, bool_decide_eq_true. split; [by apply list_elem_of_In|done].
Qed.

Lemma status_string_eqb a b : String.eqb (status_string a) (status_string b) = bool_decide (a = b).
Proof. destruct a, b; reflexivity. Qed.

Lemma eval_status t row l : row_of t row ->
  eval (CIn "status" (statuses_values l)) row = Some (bool_decide (tx_Status t ∈ l)).
Proof.
  intros H. cbn [eval]. by_column. unfold statuses_values.
  rewrite (sql_in_map _ _ (fun st => String.eqb (status_string (tx_Status t)) (status_string st))) by done.
  f_equal. apply existsb_elem. intros st. apply status_string_eqb.
Qed.

Lemma eqb_bool_decide s t : String.eqb s t = bool_decide (s = t).
Proof. apply eq_true_iff_eq. by rewrite String.eqb_eq, bool_decide_eq_true. Qed.

Lemma eval_id t row id : row_of t row -> eval (CEq "id" (VText id)) row = Some (bool_decide (tx_ID t = id)).
Proof. intros H. cbn [eval]. by_column. simpl. by rewrite eqb_bool_decide. Qed.

Lemma eval_notified t row : row_of t row -> eval (CIsNull "notified_at") row = Some (bool_decide (tx_NotifiedAt t = None)).
Proof. intros H. cbn [eval]. by_column. by destruct (tx_NotifiedAt t). Qed.

Lemma IsCompleted_bool t : IsCompleted t = bool_decide (tx_Status t ∈ TerminalStatuses).
Proof. apply eq_true_iff_eq. rewrite IsCompleted_spec. by rewrite bool_decide_eq_true. Qed.

Lemma active_bool t : bool_decide (tx_Status t ∈ ActiveStatuses) = negb (IsCompleted t).
Proof.
  apply eq_true_iff_eq. rewrite bool_decide_eq_true, active_not_completed. by destruct (IsCompleted t).
Qed.

(** ** Updates of one row *)

Lemma filter_values_none (f : Row -> bool) (m : gmap string Row) :
  (forall k row, m !! k = Some row -> f row = false) -> List.filter f (map_to_list m).*2 = [].
Proof.
  intros H. apply List_filter_none. intros row ([k r] & -> & Hin%elem_of_map_to_list)%list_elem_of_fmap. by apply (H k).
Qed.

(** A condition that names the primary key updates at most that row. *)
Lemma run_update_one id c fields m (b : Row -> bool) :
  (forall k row, m !! k = Some row -> keeps c row = bool_decide (k = id) && b row) ->
  run_update fields c m =
  match m !! id with
  | Some row => if b row then (<[id := fields ∪ row]> m, 1) else (m, 0)
  | None => (m, 0)
  end.
Proof.
  intros H. unfold run_update.
  assert (Hnone : (forall k row, m !! k = Some row -> keeps c row = false) ->
    ((fun row => if keeps c row then fields ∪ row else row) <$> m = m) /\
    List.filter (keeps c) (map_to_list m).*2 = []).
  { intros Hf. split; [|by apply filter_values_none].
    apply map_eq. intros k. rewrite lookup_fmap. destruct (m !! k) eqn:E; simpl; [|done]. by rewrite (Hf k _ E). }
  destruct (m !! id) as [row|] eqn:E; [destruct (b row) eqn:Eb|].
  - assert (Hk : keeps c row = true) by (rewrite (H id row E), bool_decide_eq_true_2, Eb by done; done).
    f_equal.
    + apply map_eq. intros k. rewrite lookup_fmap. destruct (decide (k = id)) as [->|Hne].
      * by rewrite lookup_insert_eq, E; simpl; rewrite Hk.
      * rewrite lookup_insert_ne by done. destruct (m !! k) as [r|] eqn:Er; simpl; [|done].
        by rewrite (H k r Er), bool_decide_eq_false_2.
    + rewrite <- (insert_delete_id m id row E) at 1.
      rewrite (Permutation_length (List_filter_Permutation (keeps c) _ _
        (fmap_Permutation snd _ _ (map_to_list_insert (delete id m) id row (lookup_delete_eq m id))))).
      cbn [fmap list_fmap snd List.filter]. rewrite Hk. cbn [length].
      rewrite filter_values_none; [done|]. intros k r [Hne Hin]%lookup_delete_Some.
      by rewrite (H k r Hin), bool_decide_eq_false_2.
  - destruct Hnone as [-> ->]; [|done]. intros k r Hr. rewrite (H k r Hr). case_bool_decide as Hk; [|done].
    subst k. by simplify_eq/=.
  - destruct Hnone as [-> ->]; [|done]. intros k r Hr. rewrite (H k r Hr), bool_decide_eq_false_2; [done|]. congruence.
Qed.

(** ** Writes *)

(** A write keeps the optional columns of the row it replaces in use. *)
Record keeps_json (tx old : Transaction) : Prop := {
  kj_auths : tx_RawAuthorizations tx = [] -> tx_RawAuthorizations old = [];
  kj_tx : tx_Tx tx = None -> tx_Tx old = None;
  kj_receipt : tx_Receipt tx = None -> tx_Receipt old = None;
}.

(** The transactions the tables can hold: they marshal, their columns are within
    the column types, and they do not drop a signed transaction, a receipt or
    authorizations already stored. *)
Record admissible (tx : Transaction) (s : pgState) : Prop := {
  ad_storable : storable tx;
  ad_fits : exists fields, transactionToTxModel tx = Ok fields /\ coerce fields = Ok fields;
  ad_keeps old : pg_rows s !! tx_ID tx = Some old -> keeps_json tx old;
}.

Lemma over_row tx old row : row_of old row -> keeps_json tx old -> over tx row.
Proof.
  intros [fields base Hf _ [B1 B2 B3] ->] [K1 K2 K3]. apply result_bind_Ok in Hf as (auths & Ha & Hf).
  apply result_bind_Ok in Hf as (rawTx & Ht & Hf). apply result_bind_Ok in Hf as (rawReceipt & Hr & [= <-]).
  apply marshal_some_Ok in Ha, Ht, Hr. split; unfold vacant_auths, vacant_json.
  - intros E%K1. rewrite !lookup_optional_outer, lookup_optional by done.
    destruct Ha as [[_ ->]|(x & text & Hx & _ & ->)]; [by apply B1|]. by rewrite E in Hx.
  - intros E%K2. rewrite lookup_optional_outer, lookup_optional by (first [done|by rewrite lookup_optional_ne]).
    destruct Ht as [[_ ->]|(x & text & Hx & _ & ->)]; [by apply B2|congruence].
  - intros E%K3. rewrite lookup_optional by (by rewrite !lookup_optional_ne).
    destruct Hr as [[_ ->]|(x & text & Hx & _ & ->)]; [by apply B3|congruence].
Qed.

Lemma over_default tx : over tx schema_default.
Proof. split; intros _; [apply default_auths|apply default_raw_tx|apply default_raw_receipt]. Qed.

Lemma pg_rows_insert s id row t : load_tx row = Ok t ->
  pg_rows (set_transactions (<[id := row]> (transactions s)) s) = <[id := t]> (pg_rows s).
Proof. intros H. unfold pg_rows. simpl. by apply omap_insert_Some; rewrite H. Qed.

Lemma pg_wf_insert s id row t : pg_wf s -> tx_ID t = id -> row_of t row ->
  pg_wf (set_transactions (<[id := row]> (transactions s)) s).
Proof.
  intros [W1 W2] Hid Hr. split; [|done]. intros k r. simpl. rewrite lookup_insert_Some. intros [[<- <-]|[_ H]]; eauto.
Qed.

Lemma set_transactions_same s : set_transactions (transactions s) s = s.
Proof. by destruct s. Qed.

(** A conditional update of the row named by its key: what it does to the view,
    when the new columns make the row one of [new t]. *)
Lemma update_transactions_view s id c fields (b : Transaction -> bool) (new : Transaction -> Transaction) :
  pg_wf s ->
  (forall t row, row_of t row -> keeps c row = bool_decide (tx_ID t = id) && b t) ->
  (forall t row, row_of t row -> tx_ID t = id -> transactions s !! id = Some row -> row_of (new t) (fields ∪ row) /\ tx_ID (new t) = id) ->
  let hit := match pg_rows s !! id with Some t => b t | None => false end in
  let s' := snd (update_transactions fields c s) in
  fst (update_transactions fields c s) = (if hit then Ok tt else Err ErrStaleTransaction_v) /\
  pg_rows s' = (if hit then alter new id (pg_rows s) else pg_rows s) /\
  transaction_attempts s' = transaction_attempts s /\ advisory_locks s' = advisory_locks s /\ pg_wf s'.
Proof.
  intros W Hc Hn hit s'. subst s'. unfold update_transactions.
  rewrite (run_update_one id c fields (transactions s) (fun row => match load_tx row with Ok t => b t | Err _ => false end)).
  2:{ intros k row Hk. destruct (pw_rows s W k row Hk) as (t & Ht & Hr). rewrite (Hc t row Hr), Ht.
      by rewrite (row_of_loads t row Hr). }
  destruct (pg_rows_lookup s id W) as [[E1 E2]|(row & t & E1 & E2 & Hr & Ht)]; subst hit; rewrite E1, E2.
  { simpl. by rewrite set_transactions_same. }
  rewrite (row_of_loads t row Hr). destruct (b t) eqn:Eb; cbn [fst snd]; [|by rewrite set_transactions_same].
  destruct (Hn t row Hr Ht E1) as [Hnew Hid]. split; [done|]. split; [|split; [done|split; [done|by eapply pg_wf_insert]]].
  rewrite (pg_rows_insert s id _ (new t)) by by apply row_of_loads.
  apply map_eq. intros k. destruct (decide (k = id)) as [->|Hk].
  - by rewrite lookup_insert_eq, lookup_alter_eq, E2.
  - by rewrite lookup_insert_ne, lookup_alter_ne.
Qed.

Definition pg_active (id : string) (s : pgState) : bool :=
  match pg_rows s !! id with Some t => negb (IsCompleted t) | None => false end.
Definition pg_notifiable (id : string) (s : pgState) : bool :=
  match pg_rows s !! id with Some t => IsCompleted t && bool_decide (tx_NotifiedAt t = None) | None => false end.

Lemma UpdateIfActive_view tx s : pg_wf s -> admissible tx s ->
  let s' := snd (UpdateIfActive tx s) in
  fst (UpdateIfActive tx s) = (if pg_active (tx_ID tx) s then Ok tt else Err ErrStaleTransaction_v) /\
  pg_rows s' = (if pg_active (tx_ID tx) s then <[tx_ID tx := tx]> (pg_rows s) else pg_rows s) /\
  transaction_attempts s' = transaction_attempts s /\ advisory_locks s' = advisory_locks s /\ pg_wf s'.
Proof.
  intros W [Hst (fields & Hf & Hco) Hk]. unfold UpdateIfActive. rewrite Hf, Hco.
  destruct (update_transactions_view s (tx_ID tx) (CAnd (CEq "id" (VText (tx_ID tx))) (CIn "status" (statuses_values ActiveStatuses)))
    fields (fun t => negb (IsCompleted t)) (fun _ => tx) W) as (H1 & H2 & H3).
  - intros t row Hr. unfold keeps. cbn [eval]. change (sql_eq (column row "id") _) with (eval (CEq "id" (VText (tx_ID tx))) row).
    change (sql_in _ _) with (eval (CIn "status" (statuses_values ActiveStatuses)) row).
    rewrite (eval_id t row _ Hr), (eval_status t row _ Hr), active_bool.
    by destruct (bool_decide _), (IsCompleted t).
  - intros t row Hr Ht E. split; [|done]. econstructor; [done|done| |done]. eapply over_row; [done|]. apply Hk.
    destruct (pg_rows_lookup s (tx_ID tx) W) as [[E1 _]|(row' & t' & E1 & E2 & Hr' & _)]; [congruence|].
    rewrite E2. assert (row' = row) as -> by congruence. apply row_of_loads in Hr, Hr'. congruence.
  - unfold pg_active. split; [exact H1|]. split; [|exact H3]. rewrite H2. case_match; [|done].
    case_match eqn:Eh; [|done]. apply map_eq. intros k. destruct (decide (k = tx_ID tx)) as [->|Hne].
    + by rewrite lookup_insert_eq, lookup_alter_eq, Eh.
    + by rewrite lookup_insert_ne, lookup_alter_ne.
Qed.

Lemma union_optional c v (m fields : Row) : m !! c = None -> m ∪ optional c v fields = optional c v (m ∪ fields).
Proof. intros H. destruct v; [|done]. simpl. by rewrite insert_union_r. Qed.

(** Five columns over the twenty-three. *)
Lemma overlay (v0 v1 v2 v3 v4 v5 v6 v7 v8 v9 v10 v11 v12 v13 v14 v15 v16 v17 v18 v19 v20 v21 v22 n0 n1 n2 n3 n4 : SqlValue) :
  list_to_map
    [("id", v0); ("chain_id", v1); ("intent_id", v2); ("operation_key", v3); ("payload_hash", v4); ("sender", v5);
     ("address", v6); ("value", v7); ("data", v8); ("gas_limit", v9); ("assigned_nonce", v10); ("status", v11);
     ("msg", v12); ("next_action_at", v13); ("broadcast_pending", v14); ("rejected_attempt_hash", v15);
     ("nonce_consumed_at", v16); ("notified_at", n0); ("notification_attempts", n1); ("next_notification_at", n2);
     ("notification_error", n3); ("updated_at", n4); ("created_at", v22)] =
  list_to_map
    [("notified_at", n0); ("notification_attempts", n1); ("next_notification_at", n2); ("notification_error", n3);
     ("updated_at", n4)] ∪
  (list_to_map
    [("id", v0); ("chain_id", v1); ("intent_id", v2); ("operation_key", v3); ("payload_hash", v4); ("sender", v5);
     ("address", v6); ("value", v7); ("data", v8); ("gas_limit", v9); ("assigned_nonce", v10); ("status", v11);
     ("msg", v12); ("next_action_at", v13); ("broadcast_pending", v14); ("rejected_attempt_hash", v15);
     ("nonce_consumed_at", v16); ("notified_at", v17); ("notification_attempts", v18);
     ("next_notification_at", v19); ("notification_error", v20); ("updated_at", v21); ("created_at", v22)] : Row).
Proof.
  apply map_eq. intros c. cbn [list_to_map foldr fst snd]. rewrite lookup_union, !lookup_insert, !lookup_empty.
  repeat (case_decide; [subst c; reflexivity|]). reflexivity.
Qed.

Lemma tx_fields_merge tx t : tx_fields (merge_notification tx t) = notification_fields tx ∪ tx_fields t.
Proof. unfold tx_fields, notification_fields. apply overlay. Qed.

(** The notification columns over a row make the row of the merged transaction. *)
Lemma row_of_merge tx t row : row_of t row -> row_of (merge_notification tx t) (notification_fields tx ∪ row).
Proof.
  intros [fields base Hf [S1 S2] [B1 B2 B3] ->].
  apply row_of_intro with (fields := notification_fields tx ∪ fields) (base := base);
    [|by split|by split|by rewrite (assoc_L (∪))].
  revert Hf. unfold transactionToTxModel.
  change (tx_RawAuthorizations (merge_notification tx t)) with (tx_RawAuthorizations t).
  change (tx_Tx (merge_notification tx t)) with (tx_Tx t). change (tx_Receipt (merge_notification tx t)) with (tx_Receipt t).
  destruct (marshal_some _ auths_Marshal _) as [a|]; [|done]. destruct (marshal_some _ tx_MarshalJSON _) as [x|]; [|done].
  destruct (marshal_some _ receipt_MarshalJSON _) as [r|]; [|done]. cbn [result_bind]. intros [= <-].
  by rewrite tx_fields_merge, !union_optional.
Qed.

Lemma UpdateNotification_view tx s : pg_wf s -> coerce (notification_fields tx) = Ok (notification_fields tx) ->
  let s' := snd (UpdateNotification tx s) in
  fst (UpdateNotification tx s) = (if pg_notifiable (tx_ID tx) s then Ok tt else Err ErrStaleTransaction_v) /\
  pg_rows s' = (if pg_notifiable (tx_ID tx) s then alter (merge_notification tx) (tx_ID tx) (pg_rows s) else pg_rows s) /\
  transaction_attempts s' = transaction_attempts s /\ advisory_locks s' = advisory_locks s /\ pg_wf s'.
Proof.
  intros W Hco. unfold UpdateNotification. rewrite Hco.
  apply (update_transactions_view s (tx_ID tx) _ (notification_fields tx)
    (fun t => IsCompleted t && bool_decide (tx_NotifiedAt t = None)) (merge_notification tx) W).
  - intros t row Hr. unfold keeps. cbn [eval]. change (sql_eq (column row "id") _) with (eval (CEq "id" (VText (tx_ID tx))) row).
    change (sql_in _ _) with (eval (CIn "status" (statuses_values TerminalStatuses)) row).
    change (Some _) with (eval (CIsNull "notified_at") row) at 1.
    rewrite (eval_id t row _ Hr), (eval_status t row _ Hr), (eval_notified t row Hr), IsCompleted_bool.
    by destruct (bool_decide (tx_ID t = _)), (bool_decide (tx_Status t ∈ _)), (bool_decide (tx_NotifiedAt t = None)).
  - intros t row Hr Ht _. split; [by apply row_of_merge|done].
Qed.

(** *** Inserting *)

Lemma elem_of_scan m row : row ∈ table_scan m <-> exists id, m !! id = Some row.
Proof.
  rewrite table_scan_perm, list_elem_of_fmap. split.
  - intros ([k r] & -> & H%elem_of_map_to_list). by exists k.
  - intros [id H%elem_of_map_to_list]. by exists (id, row).
Qed.

Lemma same_operation_spec tx t row row' : row_of tx row -> row_of t row' ->
  same_operation row row' = true <-> exists key, has_operation key tx /\ has_operation key t.
Proof.
  intros Hx Ht. unfold same_operation, has_operation.
  assert (Hk : forall t row, row_of t row -> column row "operation_key" = null_or VText (tx_OperationKey t))
    by (intros ? ? ?; by_column; done).
  rewrite (Hk _ _ Hx), (Hk _ _ Ht).
  destruct (tx_OperationKey tx) as [k|], (tx_OperationKey t) as [k'|]; simpl.
  - destruct (String.eqb_spec k k') as [->|Hne]; split; [by exists k'|done|done|]. intros (? & [= ->] & [= ->]). done.
  - split; [done|]. intros (? & _ & [=]).
  - split; [done|]. intros (? & [=] & _).
  - split; [done|]. intros (? & [=] & _).
Qed.

Lemma model_payload m t : txModelToTransaction m = Ok t -> m_PayloadHash m = tx_PayloadHash t.
Proof.
  unfold txModelToTransaction. intros H. apply result_bind_Ok in H as (? & _ & H). apply result_bind_Ok in H as (? & _ & H).
  apply result_bind_Ok in H as (? & _ & H). destruct (SetString10 _); [|done]. by injection H as <-.
Qed.

Lemma returned_row_spec tx t row : row_of t row ->
  returned_row tx row =
  match tx_OperationKey tx with Some _ => operation_verdict t tx | None => Ok t end.
Proof.
  intros H%row_of_loads. unfold load_tx in H. apply result_bind_Ok in H as (m & Hm & H). unfold returned_row. rewrite Hm, H.
  rewrite (model_payload m t H). unfold operation_verdict. destruct (tx_OperationKey tx); [|done].
  rewrite bool_decide_eq_true_2 by done. destruct (tx_PayloadHash t), (tx_PayloadHash tx); try done. simpl. by destruct (String.eqb _ _).
Qed.

(** The row inserted for [tx]. *)
Lemma inserted_row tx s fields : admissible tx s -> transactionToTxModel tx = Ok fields -> row_of tx (fields ∪ schema_default).
Proof. intros [Hs _ _] Hf. econstructor; [done|done|apply over_default|done]. Qed.

Lemma InsertOrGet_view q tx s : pg_wf s -> admissible tx s -> sender_differs q tx = false ->
  let s' := snd (InsertOrGet q tx s) in
  pg_wf s' /\ transaction_attempts s' = transaction_attempts s /\ advisory_locks s' = advisory_locks s /\
  ((exists key k t, has_operation key tx /\ pg_rows s !! k = Some t /\ has_operation key t /\
      fst (InsertOrGet q tx s) = operation_verdict t tx /\ pg_rows s' = pg_rows s) \/
   ((forall key k t, has_operation key tx -> pg_rows s !! k = Some t -> ~ has_operation key t) /\
    match pg_rows s !! tx_ID tx with
    | Some _ => (exists e, fst (InsertOrGet q tx s) = Err e) /\ pg_rows s' = pg_rows s
    | None => fst (InsertOrGet q tx s) = (match tx_OperationKey tx with Some _ => operation_verdict tx tx | None => Ok tx end) /\
              pg_rows s' = <[tx_ID tx := tx]> (pg_rows s)
    end)).
Proof.
  intros W A Hq. pose proof A as [Hst (fields & Hf & Hco) _]. unfold InsertOrGet. rewrite Hq, Hf. cbn [wrap_err]. rewrite Hco.
  pose proof (inserted_row tx s fields A Hf) as Hrow. set (row := fields ∪ schema_default) in *.
  destruct (List.find (same_operation row) (table_scan (transactions s))) as [existing|] eqn:Efind.
  - apply find_some in Efind as [Hin Hsame]. apply list_elem_of_In, elem_of_scan in Hin as [k Hin].
    destruct (pg_rows_lookup s k W) as [[E1 _]|(r & t & E1 & E2 & Hr & Hid)]; [congruence|]. assert (r = existing) as -> by congruence.
    destruct (proj1 (same_operation_spec tx t row existing Hrow Hr) Hsame) as (key & K1 & K2).
    cbn [fst snd]. split; [done|]. split; [done|]. split; [done|]. left. exists key, k, t. split; [done|]. split; [done|]. split; [done|].
    split; [|done]. rewrite (returned_row_spec tx t existing Hr). unfold has_operation in K1. by rewrite K1.
  - assert (Hno : forall k r t, transactions s !! k = Some r -> row_of t r -> ~ exists key, has_operation key tx /\ has_operation key t).
    { intros k r t Hk Hr Hex. apply (proj2 (same_operation_spec tx t row r Hrow Hr)) in Hex.
      eapply find_none in Efind; [|apply list_elem_of_In, elem_of_scan; by exists k]. congruence. }
    assert (Hno' : forall key k t, has_operation key tx -> pg_rows s !! k = Some t -> ~ has_operation key t).
    { intros key k t K1 Hk K2. destruct (pg_rows_lookup s k W) as [[_ E2]|(r & t' & E1 & E2 & Hr & _)]; [congruence|].
      assert (t' = t) as -> by congruence. apply (Hno k r t E1 Hr). by exists key. }
    unfold run_insert.
    destruct (pg_rows_lookup s (tx_ID tx) W) as [[E1 E2]|(r & t & E1 & E2 & Hr & Hid)]; rewrite E1, E2; cbn [fst snd].
    + assert (Hex : existsb (same_operation row) (table_scan (transactions s)) = false).
      { apply not_true_is_false. intros (r & Hin & Hs)%existsb_exists. eapply find_none in Efind; [|done]. congruence. }
      rewrite Hex. cbn [fst snd]. split; [by eapply pg_wf_insert|]. split; [done|]. split; [done|]. right. split; [done|].
      split; [by apply returned_row_spec|]. apply pg_rows_insert. by apply row_of_loads.
    + split; [done|]. split; [done|]. split; [done|]. right. split; [done|]. split; [by eexists|done].
Qed.
End refine.

(** ** Queries of the PostgreSQL provider against the contract

    What a chain of builder calls selects is what the contract's [Query] denotes
    on the view of the tables: the same rows pass the filters, in the same order,
    cut to the same length. *)

Section queries.
Context `{G : GoEthereum} `{AB : !Abi} `{PC : !PgCodec} `{CL : !PgCodecLaws} `{PS : !PgSchema}.
(* The database compares text bytewise. *)
Hypothesis collate_C : forall s t, collate s t = String.compare s t.

(** ** Builder chains *)

Definition add_filter (f : Provider.Filter) : transactionsQ -> transactionsQ :=
  match f with
  | Provider.FilterByIds ids => FilterByIds ids
  | Provider.FilterByChainIds chainIDs => FilterByChainIds chainIDs
  | Provider.FilterBySenderOrUnset sender => FilterBySenderOrUnset sender
  | Provider.FilterByStatuses statuses => FilterByStatuses statuses
  | Provider.FilterReadyBefore before => FilterReadyBefore before
  | Provider.FilterNotificationReadyBefore before => FilterNotificationReadyBefore before
  end.

Definition add_order (o : Provider.Order) : transactionsQ -> transactionsQ :=
  match o with
  | orderNone => fun q => q
  | orderNextAction => OrderByNextAction
  | orderLaneWork => OrderByLaneWork
  | orderNextNotification => OrderByNextNotification
  end.

(** The chain [q.New().F1().F2()...OrderBy().Limit()]; a query without a limit
    makes no call to [Limit]. *)
Definition build_query (query : Query) (q : transactionsQ) : transactionsQ :=
  let q := fold_left (fun q f => add_filter f q) (qr_filters query) (New q) in
  let q := add_order (qr_order query) q in
  if 0 <? qr_limit query then Limit (qr_limit query) q else q.

(** The rows of the queue's own signer, all of them for an unscoped queue. *)
Definition in_scope (q : transactionsQ) (t : Transaction) : bool :=
  match q_sender q with Some sender => bool_decide (tx_Sender t = sender) && negb (bool_decide (tx_Sender t = address_zero)) | None => true end.

(** The order of the notification queue breaks ties by creation. *)
Definition pg_compare (o : Provider.Order) : Transaction -> Transaction -> comparison :=
  match o with
  | orderNone => fun _ _ => Eq
  | orderNextAction => compareScheduleOrder
  | orderLaneWork => compareLaneWork
  | orderNextNotification => fun a b =>
      cmp_or (tx_NextNotificationAt a ?= tx_NextNotificationAt b)
        (cmp_or (tx_CreatedAt a ?= tx_CreatedAt b) (String.compare (tx_ID a) (tx_ID b)))
  end.

(** ** Columns as fields *)

Ltac by_column := match goal with H : row_of ?t ?row |- context [column ?row ?c] =>
  erewrite (row_of_column t row c _ H); [|reflexivity|apply (bool_decide_eq_true_1 _); reflexivity] end.

Lemma cmp_or_Eq c : cmp_or c Eq = c.
Proof. by destruct c. Qed.

Lemma compare_nullable_int a b : compare_values (null_or VInt a) (null_or VInt b) = cmp_nulls_last Z.compare a b.
Proof. by destruct a, b. Qed.

Lemma compare_rows_spec o t row t' row' : row_of t row -> row_of t' row' ->
  compare_rows (order_by (q_selector (add_order o NewTransactionsQ))) row row' = pg_compare o t t'.
Proof.
  intros H H'. destruct o; cbn [add_order order_by q_selector NewTransactionsQ OrderByNextAction OrderByLaneWork
    OrderByNextNotification OrderBy app compare_rows]; [done|..]; repeat by_column; cbn [pg_compare];
    rewrite cmp_or_Eq; cbn [snd]; rewrite ?compare_nullable_int; cbn [compare_values]; rewrite ?collate_C; reflexivity.
Qed.

Lemma nullableAddress_eq a b : bool_decide (nullableAddress a = Some (Address_Hex b)) =
  bool_decide (a = b) && negb (bool_decide (a = address_zero)).
Proof.
  apply eq_true_iff_eq. rewrite andb_true_iff, negb_true_iff, !bool_decide_eq_true, bool_decide_eq_false.
  unfold nullableAddress. case_bool_decide as Hz; split; [done|naive_solver| |].
  - intros [= E]. apply (f_equal HexToAddress) in E. rewrite !HexToAddress_Hex in E. done.
  - by intros [-> _].
Qed.

(** The scope of a sender, for the row of [t]. *)
Lemma eval_sender t row a : row_of t row -> keeps (CEq "sender" (VText (Address_Hex a))) row =
  bool_decide (tx_Sender t = a) && negb (bool_decide (tx_Sender t = address_zero)).
Proof.
  intros H. unfold keeps. cbn [eval]. by_column. rewrite <- nullableAddress_eq.
  destruct (nullableAddress (tx_Sender t)) as [s|] eqn:E; simpl; [|done].
  rewrite eqb_bool_decide. repeat case_bool_decide; naive_solver.
Qed.

Lemma eval_sender_or_unset t row a : row_of t row ->
  keeps (COr (CEq "sender" (VText (Address_Hex a))) (CIsNull "sender")) row =
  bool_decide (tx_Sender t = a) || bool_decide (tx_Sender t = address_zero).
Proof.
  intros H. pose proof (eval_sender t row a H) as E. unfold keeps in *. cbn [eval] in *. revert E. by_column.
  unfold nullableAddress. repeat case_bool_decide; simpl; try done; destruct (String.eqb _ _); done.
Qed.

Lemma eval_ids t row ids : row_of t row -> keeps (CIn "id" (map VText ids)) row = bool_decide (tx_ID t ∈ ids).
Proof.
  intros H. unfold keeps. cbn [eval]. by_column. rewrite (sql_in_map _ _ (String.eqb (tx_ID t))) by done.
  rewrite (existsb_elem _ (tx_ID t)); [by case_bool_decide|]. intros s. apply eqb_bool_decide.
Qed.

Lemma eval_chains t row l : row_of t row -> keeps (CIn "chain_id" (map VInt l)) row = bool_decide (tx_ChainID t ∈ l).
Proof.
  intros H. unfold keeps. cbn [eval]. by_column. rewrite (sql_in_map _ _ (Z.eqb (tx_ChainID t))) by done.
  rewrite (existsb_elem _ (tx_ChainID t)); [by case_bool_decide|]. intros z. destruct (Z.eqb_spec (tx_ChainID t) z); by case_bool_decide.
Qed.

Lemma keeps_statuses t row l : row_of t row -> keeps (CIn "status" (statuses_values l)) row = bool_decide (tx_Status t ∈ l).
Proof. intros H. unfold keeps. rewrite (eval_status t row l H). by case_bool_decide. Qed.

Lemma keeps_intent t row : row_of t row ->
  keeps (CAnd (CIsNotNull "intent_id") (CNotEq "intent_id" (VText ""))) row = has_intent t.
Proof.
  intros H. unfold keeps, has_intent. cbn [eval]. by_column. destruct (tx_IntentID t) as [s|]; [|done]. simpl.
  by destruct (String.eqb s "").
Qed.

Lemma keeps_next_action t row b : row_of t row -> keeps (CLtOrEq "next_action_at" (VTime b)) row = (tx_NextActionAt t <=? b).
Proof. intros H. unfold keeps. cbn [eval]. by_column. simpl. by destruct (_ <=? _). Qed.

Lemma keeps_next_notification t row b : row_of t row ->
  keeps (CLtOrEq "next_notification_at" (VTime b)) row = (tx_NextNotificationAt t <=? b).
Proof. intros H. unfold keeps. cbn [eval]. by_column. simpl. by destruct (_ <=? _). Qed.

Lemma keeps_notified t row : row_of t row -> keeps (CIsNull "notified_at") row = bool_decide (tx_NotifiedAt t = None).
Proof. intros H. unfold keeps. rewrite (eval_notified t row H). by case_bool_decide. Qed.

(** ** The conditions of a chain *)

Definition pass (q : transactionsQ) (row : Row) : bool := forallb (fun c => keeps c row) (wheres (q_selector q)).

Lemma pass_Where c q row : pass (Where c q) row = pass q row && keeps c row.
Proof. unfold pass. cbn [Where q_selector wheres]. rewrite forallb_app. cbn [forallb]. by rewrite andb_true_r. Qed.

Lemma pass_filter t row f q : row_of t row -> pass (add_filter f q) row = pass q row && filter_holds f t.
Proof.
  intros H. destruct f; cbn [add_filter filter_holds];
    unfold FilterByIds, FilterByChainIds, FilterBySenderOrUnset, FilterByStatuses, FilterReadyBefore, FilterNotificationReadyBefore;
    rewrite ?pass_Where.
  - by rewrite (eval_ids t row _ H).
  - by rewrite (eval_chains t row _ H).
  - by rewrite (eval_sender_or_unset t row _ H).
  - by rewrite (keeps_statuses t row _ H).
  - by rewrite (keeps_next_action t row _ H).
  - rewrite (keeps_statuses t row _ H), (keeps_notified t row H), (keeps_intent t row H), (keeps_next_notification t row _ H).
    rewrite <- IsCompleted_bool. destruct (pass q row), (IsCompleted t), (has_intent t), (bool_decide _), (_ <=? _); done.
Qed.

Lemma add_filter_rest f q : q_sender (add_filter f q) = q_sender q /\
  order_by (q_selector (add_filter f q)) = order_by (q_selector q) /\ limit (q_selector (add_filter f q)) = limit (q_selector q).
Proof. by destruct f. Qed.

Lemma pass_filters t row fs q : row_of t row ->
  pass (fold_left (fun q f => add_filter f q) fs q) row = pass q row && forallb (fun f => filter_holds f t) fs /\
  order_by (q_selector (fold_left (fun q f => add_filter f q) fs q)) = order_by (q_selector q) /\
  limit (q_selector (fold_left (fun q f => add_filter f q) fs q)) = limit (q_selector q).
Proof.
  intros H. revert q. induction fs as [|f fs IH]; intros q; simpl; [by rewrite andb_true_r|].
  destruct (IH (add_filter f q)) as (-> & -> & ->). rewrite (pass_filter t row f q H).
  destruct (add_filter_rest f q) as (_ & -> & ->). by rewrite andb_assoc.
Qed.

Lemma pass_New t row q : row_of t row -> pass (New q) row = in_scope q t /\
  order_by (q_selector (New q)) = [] /\ limit (q_selector (New q)) = None.
Proof.
  intros H. unfold New, in_scope. destruct (q_sender q) as [a|]; [|done]. split; [|done].
  unfold pass. cbn [NewSenderTransactionsQ q_selector Where wheres NewTransactionsQ app forallb].
  by rewrite (eval_sender t row a H), andb_true_r.
Qed.

(** ** Selections *)

(** The transactions a table scan decodes to. *)
Definition scanned (s : pgState) : list Transaction := omap (fun row => ok_of (load_tx row)) (table_scan (transactions s)).

Lemma scanned_rows s : pg_wf s -> Forall2 row_of (scanned s) (table_scan (transactions s)).
Proof.
  intros W. unfold scanned.
  assert (H : forall row, row ∈ table_scan (transactions s) -> exists t, row_of t row).
  { intros row [id Hid]%elem_of_scan. destruct (pw_rows s W id row Hid) as (t & _ & Ht). by exists t. }
  induction (table_scan (transactions s)) as [|row l IH]; cbn [omap list_omap]; [constructor|].
  destruct (H row ltac:(by left)) as [t Ht]. rewrite (row_of_loads t row Ht). constructor; [done|].
  apply IH. intros r Hr. apply H. by right.
Qed.

(** The scan enumerates the view. *)
Lemma scanned_perm s : pg_wf s -> scanned s ≡ₚ (map_to_list (pg_rows s)).*2.
Proof.
  intros W. unfold scanned. rewrite table_scan_perm.
  unfold pg_rows. assert (H : forall id row, transactions s !! id = Some row -> is_Some (ok_of (load_tx row))).
  { intros id row Hid. destruct (pw_rows s W id row Hid) as (t & _ & Ht). by rewrite (row_of_loads t row Ht). }
  revert H. induction (transactions s) as [|id row m Hm IH] using map_ind; intros H.
  { by rewrite omap_empty, !map_to_list_empty. }
  destruct (H id row (lookup_insert_eq _ _ _)) as [t Ht]. rewrite (omap_insert_Some _ m id row t Ht).
  rewrite !map_to_list_insert by (by rewrite ?lookup_omap, ?Hm). cbn [fmap list_fmap snd omap list_omap]. rewrite Ht.
  constructor. apply IH. intros k r Hk. apply (H k r). by rewrite lookup_insert_ne by congruence.
Qed.

Lemma load_scan t row : row_of t row -> exists m, scan_tx row = Ok m /\ txModelToTransaction m = Ok t.
Proof. intros H%row_of_loads. unfold load_tx in H. apply result_bind_Ok in H as (m & Hm & H). by exists m. Qed.

Lemma scan_all_rows ts rows : Forall2 row_of ts rows ->
  (let? models := wrap_err "failed to select transactions" (scan_all scan_tx rows) in
   scan_all (fun model => wrap_err "failed to convert model to transaction" (txModelToTransaction model)) models) = Ok ts.
Proof.
  intros F. induction F as [|t row ts rows Ht F IH]; [done|]. destruct (load_scan t row Ht) as (m & Hm & Hc).
  cbn [scan_all]. rewrite Hm. cbn [result_bind]. destruct (scan_all scan_tx rows) as [ms|e]; [|done].
  cbn [result_bind wrap_err] in *. cbn [scan_all]. rewrite Hc. cbn [wrap_err result_bind]. by rewrite IH.
Qed.

(** The rows a chain selects are those of the contract's query. *)
Lemma run_select_rows query q s : pg_wf s ->
  Forall2 row_of
    (limit_rows (qr_limit query)
      (sort_stable (pg_compare (qr_order query))
        (List.filter (fun t => in_scope q t && query_holds query t) (scanned s))))
    (run_select (q_selector (build_query query q)) s).
Proof.
  intros W. set (q1 := fold_left (fun q f => add_filter f q) (qr_filters query) (New q)).
  assert (Hsort : Forall2 row_of
    (sort_stable (pg_compare (qr_order query)) (List.filter (fun t => in_scope q t && query_holds query t) (scanned s)))
    (sort_stable (compare_rows (order_by (q_selector (add_order (qr_order query) NewTransactionsQ))))
      (List.filter (pass q1) (table_scan (transactions s))))).
  { apply Forall2_sort_stable; [intros; symmetry; by apply compare_rows_spec|].
    apply Forall2_filter; [|by apply scanned_rows]. intros t row Ht. unfold q1.
    destruct (pass_filters t row (qr_filters query) (New q) Ht) as (-> & _).
    by destruct (pass_New t row q Ht) as (-> & _). }
  assert (Hq : order_by (q_selector q1) = [] /\ limit (q_selector q1) = None).
  { subst q1. assert (forall fs q, order_by (q_selector (fold_left (fun q f => add_filter f q) fs q)) = order_by (q_selector q) /\
      limit (q_selector (fold_left (fun q f => add_filter f q) fs q)) = limit (q_selector q)) as Hf.
    { intros fs. induction fs as [|f fs IH]; intros q'; simpl; [done|]. destruct (IH (add_filter f q')) as [-> ->].
      destruct (add_filter_rest f q') as (_ & -> & ->). done. }
    destruct (Hf (qr_filters query) (New q)) as [-> ->]. unfold New. by destruct (q_sender q). }
  destruct Hq as [Ho Hl]. unfold build_query. fold q1.
  assert (Hadd : forall o, wheres (q_selector (add_order o q1)) = wheres (q_selector q1) /\
    order_by (q_selector (add_order o q1)) = order_by (q_selector (add_order o NewTransactionsQ)) /\
    limit (q_selector (add_order o q1)) = None).
  { intros []; cbn [add_order OrderByNextAction OrderByLaneWork OrderByNextNotification OrderBy q_selector wheres order_by limit
      NewTransactionsQ]; by rewrite ?Ho. }
  destruct (Hadd (qr_order query)) as (H1 & H2 & H3). unfold limit_rows. destruct (Z.ltb_spec 0 (qr_limit query)) as [Hp|Hp].
  - unfold run_select. cbn [Limit q_selector wheres order_by limit]. rewrite H1, H2. cbn [andb].
    pose proof (Forall2_length _ _ _ Hsort) as Hlen. case_match.
    + apply Forall2_take. exact Hsort.
    + rewrite (take_ge (sort_stable (compare_rows _) _)); [exact Hsort|]. unfold pass in Hlen. rewrite <- Hlen. lia.
  - unfold run_select. rewrite H1, H2, H3. exact Hsort.
Qed.
End queries.
