(* ===== verification/PgContract.v ===== *)
(** * The contract, discharged by the PostgreSQL provider

    Attempts, aggregates and lane locks, and the theorems that put the statements
    of [PgStore] and [PgRefine] together: on the transactions the tables can
    hold, the provider answers and changes the view as [TransactionsQ] promises. *)
From stdpp Require Import gmap.
From Stdlib Require Import Ascii Strings.Byte.
From S2P Require Export PgRefine.
Local Open Scope Z_scope.
Local Open Scope go_scope.

Section contract.
Context `{G : GoEthereum} `{AB : !Abi} `{PC : !PgCodec} `{CL : !PgCodecLaws} `{PS : !PgSchema} `{SL : !PgSchemaLaws}.

(** ** Attempts *)

(** The columns of the row of an attempt. *)
Lemma attempt_columns a row : attemptToModel a = Ok row ->
  column row "transaction_id" = VText (at_TransactionID a) /\ column row "tx_hash" = VText (Hash_Hex (at_Hash a)) /\
  column row "nonce" = VInt (at_Nonce a) /\ column row "created_at" = VTime (at_CreatedAt a).
Proof.
  unfold attemptToModel. destruct (at_Tx a); [|done]. intros (raw & _ & [= <-])%result_bind_Ok. done.
Qed.

Lemma attempt_scans a row : attemptToModel a = Ok row ->
  exists m, scan_attempt row = Ok m /\ attemptModelToAttempt m = Ok a.
Proof. intros H%attempt_roundtrip. unfold load_attempt in H. apply result_bind_Ok in H as (m & Hm & H). by exists m. Qed.

Lemma keeps_text row c s : column row c = VText s -> forall s', keeps (CEq c (VText s')) row = bool_decide (s = s').
Proof. intros H s'. unfold keeps. cbn [eval]. rewrite H. simpl. rewrite eqb_bool_decide. by case_bool_decide. Qed.

Lemma keeps_int row c z : column row c = VInt z -> forall z', keeps (CEq c (VInt z')) row = (z =? z').
Proof. intros H z'. unfold keeps. cbn [eval]. rewrite H. simpl. by destruct (_ =? _). Qed.

(** The attempts the table holds, in the order of their ids. *)
Definition all_attempts (s : pgState) : list TransactionAttempt :=
  omap (fun row => ok_of (load_attempt row)) (transaction_attempts s).

Definition written (a : TransactionAttempt) (row : Row) : Prop := attemptToModel a = Ok row.

Lemma all_attempts_rows s : pg_wf s -> Forall2 written (all_attempts s) (transaction_attempts s).
Proof.
  intros W. unfold all_attempts. pose proof (pw_attempts s W) as H.
  induction (transaction_attempts s) as [|row l IH]; cbn [omap list_omap]; [constructor|].
  destruct (H row ltac:(by left)) as [a Ha]. rewrite (attempt_roundtrip a row Ha). constructor; [done|].
  apply IH. intros r Hr. apply H. by right.
Qed.

Lemma decode_rows selecting converting l rows : Forall2 written l rows -> decode_attempts selecting converting rows = Ok l.
Proof.
  intros F. unfold decode_attempts.
  assert (H : exists ms, scan_all scan_attempt rows = Ok ms /\ attemptModelsToAttempts ms = Ok l); [|by destruct H as (ms & -> & ->)].
  induction F as [|a row l rows Ha F (ms & IH1 & IH2)]; [by exists []|].
  destruct (attempt_scans a row Ha) as (m & Hm & Hc). exists (m :: ms). cbn [scan_all attemptModelsToAttempts].
  by rewrite Hm, Hc, IH1; cbn [result_bind]; rewrite IH2.
Qed.

Lemma omap_Forall2 l rows : Forall2 written l rows -> omap (fun row => ok_of (load_attempt row)) rows = l.
Proof. intros F. induction F as [|a row l rows Ha F IH]; [done|]. cbn [omap list_omap]. by rewrite (attempt_roundtrip a row Ha), IH. Qed.

Lemma pg_attempts_filter s id : pg_wf s ->
  pg_attempts s id = List.filter (fun a => bool_decide (at_TransactionID a = id)) (all_attempts s).
Proof.
  intros W. unfold pg_attempts. apply omap_Forall2. apply Forall2_filter; [|by apply all_attempts_rows].
  intros a row (H & _)%attempt_columns. by rewrite (keeps_text row _ _ H).
Qed.

Lemma pg_owner_find s h : pg_wf s ->
  pg_owner s h = at_TransactionID <$> List.find (fun a => bool_decide (Hash_Hex (at_Hash a) = h)) (all_attempts s).
Proof.
  intros W%all_attempts_rows. unfold pg_owner. induction W as [|a row l rows Ha F IH]; [done|].
  destruct (attempt_columns a row Ha) as (H1 & H2 & _). cbn [List.find]. unfold owned_by_hash at 1.
  rewrite (keeps_text row _ _ H2). case_bool_decide; [|exact IH]. simpl. by rewrite H1.
Qed.

Lemma SelectAttempts_view id s : pg_wf s ->
  SelectAttempts id s = Ok (sort_stable (cmp_on at_CreatedAt Z.compare) (pg_attempts s id)).
Proof.
  intros W. unfold SelectAttempts. apply decode_rows. apply Forall2_sort_stable.
  - intros a row a' row' (_ & _ & _ & H)%attempt_columns (_ & _ & _ & H')%attempt_columns. cbn [compare_rows].
    rewrite H, H', cmp_or_Eq. done.
  - rewrite pg_attempts_filter by done. apply Forall2_filter; [|by apply all_attempts_rows].
    intros a row (H & _)%attempt_columns. by rewrite (keeps_text row _ _ H).
Qed.

Lemma SelectAttemptsByNonce_view chainID nonce s a : pg_wf s ->
  exists l, SelectAttemptsByNonce chainID nonce s = Ok l /\
    (a ∈ l <-> exists id t, pg_rows s !! id = Some t /\ tx_ChainID t = chainID /\ a ∈ pg_attempts s id /\ at_Nonce a = nonce).
Proof.
  intros W. set (here := fun a => match pg_rows s !! at_TransactionID a with
    | Some t => (tx_ChainID t =? chainID) && (at_Nonce a =? nonce) | None => false end).
  exists (sort_stable (cmp_on at_CreatedAt Z.compare) (List.filter here (all_attempts s))). split.
  - apply decode_rows. apply Forall2_sort_stable.
    + intros b row b' row' (_ & _ & _ & H)%attempt_columns (_ & _ & _ & H')%attempt_columns. cbn [compare_rows].
      rewrite H, H', cmp_or_Eq. done.
    + apply Forall2_filter; [|by apply all_attempts_rows]. intros b row (H1 & _ & H3 & _)%attempt_columns.
      unfold on_lane, here. rewrite H1. destruct (pg_rows_lookup s (at_TransactionID b) W) as [[E1 E2]|(r & t & E1 & E2 & Hr & _)];
        rewrite E1, E2; [done|]. rewrite (keeps_int row _ _ H3).
      rewrite (keeps_int r "chain_id" (tx_ChainID t)); [done|]. erewrite (row_of_column t r); [done|done|reflexivity|].
      apply (bool_decide_eq_true_1 _). reflexivity.
  - rewrite sort_stable_elem, list_elem_of_In, filter_In, <- list_elem_of_In. unfold here. split.
    + intros [Ha Hh]. destruct (pg_rows s !! at_TransactionID a) as [t|] eqn:E; [|done]. exists (at_TransactionID a), t.
      apply andb_true_iff in Hh as [H1 H2]. split; [done|]. split; [lia|]. split; [|lia].
      rewrite pg_attempts_filter by done. rewrite list_elem_of_In, filter_In, <- list_elem_of_In, bool_decide_eq_true. done.
    + intros (id & t & E & Hc & Ha & Hn). rewrite pg_attempts_filter in Ha by done.
      rewrite list_elem_of_In, filter_In, <- list_elem_of_In, bool_decide_eq_true in Ha. destruct Ha as [Ha <-].
      rewrite E. split; [done|]. lia.
Qed.

(** *** Inserting an attempt *)

Lemma InsertAttempt_view a s fields : pg_wf s -> attemptToModel a = Ok fields -> coerce fields = Ok fields ->
  let s' := snd (InsertAttempt a s) in
  let hash := Hash_Hex (at_Hash a) in
  pg_wf s' /\ transactions s' = transactions s /\ advisory_locks s' = advisory_locks s /\
  match pg_owner s hash with
  | Some id => s' = s /\ fst (InsertAttempt a s) =
      (if decide (id = at_TransactionID a) then Ok tt else Err (AttemptHashConflictError hash id))
  | None => fst (InsertAttempt a s) = Ok tt /\ all_attempts s' = all_attempts s ++ [a]
  end.
Proof.
  intros W Hf Hco. unfold InsertAttempt. rewrite Hf. cbn [wrap_err]. rewrite Hco. cbn zeta.
  unfold pg_owner. destruct (List.find (owned_by_hash (Hash_Hex (at_Hash a))) (transaction_attempts s)) as [row|] eqn:E.
  - apply find_some in E as [Hin _]. apply list_elem_of_In, (pw_attempts s W) in Hin as [b Hb].
    destruct (attempt_columns b row Hb) as (H1 & _). cbn [mbind option_bind fst snd]. rewrite H1. cbn [as_text].
    split; [done|]. split; [done|]. split; [done|]. split; [done|]. unfold scan.
    unfold column in H1. destruct (row !! "transaction_id") as [v|]; [|done]. simpl in H1. subst v. cbn [as_text].
    destruct (String.eqb_spec (at_TransactionID b) (at_TransactionID a)); by case_decide.
  - cbn [mbind option_bind fst snd]. split.
    { split; [apply (pw_rows s W)|]. cbn [transaction_attempts]. intros row [Hr| ->%list_elem_of_singleton]%elem_of_app;
        [by apply (pw_attempts s W)|by exists a]. }
    split; [done|]. split; [done|]. split.
    + destruct (attempt_columns a fields Hf) as (H1 & _). unfold scan. unfold column in H1.
      destruct (fields !! "transaction_id") as [v|]; [|done]. simpl in H1. subst v. cbn [as_text]. by rewrite String.eqb_refl.
    + unfold all_attempts. cbn [transaction_attempts]. rewrite omap_app. cbn [omap list_omap].
      by rewrite (attempt_roundtrip a fields Hf).
Qed.

(** ** Aggregates *)

Lemma max_fold ns rows acc : Forall2 (fun n row => column row "assigned_nonce" = VInt n) ns rows ->
  match fold_left max_value rows acc with
  | None => acc = None /\ ns = []
  | Some m => (acc = Some m \/ m ∈ ns) /\ (forall n, n ∈ ns -> n <= m) /\ (forall k, acc = Some k -> k <= m)
  end.
Proof.
  intros F. revert acc. induction F as [|n row ns rows Hn F IH]; intros acc; cbn [fold_left].
  - destruct acc; [|done]. split; [by left|]. split; [by intros n ?%not_elem_of_nil|]. intros k [= ->]. lia.
  - specialize (IH (max_value acc row)).
    assert (E : max_value acc row = Some (match acc with Some m => Z.max m n | None => n end)) by (unfold max_value; by rewrite Hn).
    rewrite E in *.
    destruct (fold_left max_value rows _) as [m|]; [|by destruct IH]. destruct IH as (H1 & H2 & H3).
    specialize (H3 _ eq_refl). split; [|split].
    + destruct H1 as [[= H1]|H1]; [|right; by right]. destruct acc as [k|]; [|subst; right; by left].
      destruct (Z.max_spec k n) as [[_ Em]|[_ Em]]; rewrite Em in H1; subst; [right; by left|by left].
    + intros k [->|Hk]%elem_of_cons; [destruct acc; lia|by apply H2].
    + intros k ->. lia.
Qed.

Lemma assigned_columns ts rows : Forall2 row_of ts rows -> Forall (fun t => tx_AssignedNonce t <> None) ts ->
  Forall2 (fun n row => column row "assigned_nonce" = VInt n) (map (fun t => default 0 (tx_AssignedNonce t)) ts) rows.
Proof.
  intros F. induction F as [|t row ts rows Hr F IH]; intros H; [constructor|]. apply Forall_cons in H as [Ht Hts].
  constructor; [|by apply IH]. destruct (tx_AssignedNonce t) as [n|] eqn:E; [|done]. simpl.
  erewrite (row_of_column t row "assigned_nonce" (null_or VInt (tx_AssignedNonce t))); [by rewrite E|done|reflexivity|].
  by apply (bool_decide_eq_true_1 _).
Qed.

Lemma MaxAssignedNonce_view sender chainID s : pg_wf s -> sender <> address_zero ->
  (forall k t n, pg_rows s !! k = Some t -> tx_AssignedNonce t = Some n -> 0 <= n) ->
  match MaxAssignedNonce sender chainID s with
  | Ok None => forall k t, pg_rows s !! k = Some t -> in_lane sender chainID t -> tx_AssignedNonce t = None
  | Ok (Some m) =>
      (exists k t, pg_rows s !! k = Some t /\ in_lane sender chainID t /\ tx_AssignedNonce t = Some m) /\
      forall k t n, pg_rows s !! k = Some t -> in_lane sender chainID t -> tx_AssignedNonce t = Some n -> n <= m
  | Err _ => False
  end.
Proof.
  intros W Hz Hpos. unfold MaxAssignedNonce.
  set (c := CAnd (CAnd _ _) _). set (here := fun t => bool_decide (in_lane sender chainID t /\ tx_AssignedNonce t <> None)).
  assert (F : Forall2 row_of (List.filter here (scanned s)) (List.filter (keeps c) (table_scan (transactions s)))).
  { apply Forall2_filter; [|by apply scanned_rows]. intros t row Hr. unfold here, c, keeps. cbn [eval].
    pose proof (eval_sender t row sender Hr) as E. unfold keeps in E. cbn [eval] in E.
    assert (Hc : column row "chain_id" = VInt (tx_ChainID t))
      by (erewrite (row_of_column t row); [reflexivity|done|reflexivity|by apply (bool_decide_eq_true_1 _)]).
    assert (Hn : column row "assigned_nonce" = null_or VInt (tx_AssignedNonce t))
      by (erewrite (row_of_column t row); [reflexivity|done|reflexivity|by apply (bool_decide_eq_true_1 _)]).
    rewrite Hc, Hn. unfold in_lane.
    destruct (sql_eq (column row "sender") (VText (Address_Hex sender))) as [[|]|]; simpl;
      destruct (Z.eqb_spec (tx_ChainID t) chainID), (tx_AssignedNonce t); simpl; simpl in E;
      symmetry in E; rewrite ?andb_true_iff, ?andb_false_iff, ?negb_true_iff, ?negb_false_iff, ?bool_decide_eq_true, ?bool_decide_eq_false in E;
      first [apply bool_decide_eq_true_2 | apply bool_decide_eq_false_2]; naive_solver. }
  assert (Hin : forall t, t ∈ List.filter here (scanned s) <->
    exists k, pg_rows s !! k = Some t /\ in_lane sender chainID t /\ tx_AssignedNonce t <> None).
  { intros t. rewrite list_elem_of_In, filter_In, <- list_elem_of_In, (scanned_perm s W), list_elem_of_fmap. unfold here.
    rewrite bool_decide_eq_true. split.
    - intros [([k t'] & -> & Hk%elem_of_map_to_list) H]. by exists k.
    - intros (k & Hk & H). split; [|done]. exists (k, t). split; [done|]. by apply elem_of_map_to_list. }
  assert (Hsome : Forall (fun t => tx_AssignedNonce t <> None) (List.filter here (scanned s)))
    by (apply Forall_forall; intros t (k & _ & _ & H)%Hin; done).
  pose proof (max_fold _ _ None (assigned_columns _ _ F Hsome)) as Hmax.
  destruct (fold_left max_value _ None) as [m|].
  - destruct Hmax as ([|Hm] & Hub & _); [done|]. apply list_elem_of_In, in_map_iff in Hm as (t & Et & Ht%list_elem_of_In).
    apply Hin in Ht as (k & Hk & Hl & Hn). destruct (tx_AssignedNonce t) as [n|] eqn:En; [|done]. simpl in Et. subst n.
    rewrite (proj2 (Z.ltb_ge m 0)) by (by apply (Hpos k t)). split; [by exists k, t|].
    intros k' t' n' Hk' Hl' Hn'. apply Hub, list_elem_of_In, in_map_iff. exists t'. rewrite Hn'. split; [done|].
    apply list_elem_of_In, Hin. exists k'. split; [done|]. split; [done|]. congruence.
  - destruct Hmax as [_ Hnil]. intros k t Hk Hl. destruct (tx_AssignedNonce t) as [n|] eqn:En; [|done]. exfalso.
    apply map_eq_nil in Hnil. assert (Ht : t ∈ List.filter here (scanned s)); [|by rewrite Hnil in Ht; apply not_elem_of_nil in Ht].
    apply Hin. exists k. split; [done|]. split; [done|]. congruence.
Qed.

(** *** Counting *)

Lemma count_group_fold c rows l acc chainID :
  (forall row, row ∈ l -> exists z, column row "chain_id" = VInt z) ->
  fold_left (count_group c rows) l acc !! chainID =
  if existsb (keeps (CEq "chain_id" (VInt chainID))) l
  then Some (Z.of_nat (length (List.filter (keeps (CAnd c (CEq "chain_id" (VInt chainID)))) rows)))
  else acc !! chainID.
Proof.
  revert acc. induction l as [|row l IH]; intros acc H; [done|]. cbn [fold_left existsb].
  rewrite IH by (intros r Hr; apply H; by right). destruct (H row ltac:(by left)) as [z Hz].
  unfold count_group at 1. rewrite Hz, (keeps_int row _ _ Hz). destruct (existsb _ l); [by rewrite orb_true_r|].
  rewrite orb_false_r. destruct (Z.eqb_spec z chainID) as [->|Hne]; [by rewrite lookup_insert_eq|by rewrite lookup_insert_ne].
Qed.

Lemma CountByChain_view statuses chainID s : pg_wf s ->
  CountByChain NewTransactionsQ statuses s !! chainID =
  let n := Z.of_nat (length (List.filter (counted statuses chainID) (map_to_list (pg_rows s)).*2)) in
  if n =? 0 then None else Some n.
Proof.
  intros W. cbv zeta. rewrite <- (Permutation_length (List_filter_Permutation (counted statuses chainID) _ _ (scanned_perm s W))).
  unfold CountByChain. destruct statuses as [|st sts].
  { rewrite List_filter_none; [by rewrite lookup_empty|]. intros t _. unfold counted. rewrite (bool_decide_eq_false_2 (_ ∈ [])) by apply not_elem_of_nil.
    by rewrite andb_false_r. }
  set (statuses := st :: sts). cbn [q_sender NewTransactionsQ]. set (c := CIn "status" (statuses_values statuses)).
  assert (Hk : forall t row, row_of t row -> column row "chain_id" = VInt (tx_ChainID t))
    by (intros t row Hr; erewrite (row_of_column t row); [reflexivity|done|reflexivity|by apply (bool_decide_eq_true_1 _)]).
  pose proof (scanned_rows s W) as F.
  rewrite count_group_fold.
  2:{ intros row Hrow. apply list_elem_of_In, filter_In in Hrow as [Hrow _]. apply list_elem_of_In in Hrow.
      apply elem_of_scan in Hrow as [id Hid]. destruct (pw_rows s W id row Hid) as (t & _ & Hr). exists (tx_ChainID t). by apply Hk. }
  assert (Hand : forall t row, row_of t row -> keeps (CAnd c (CEq "chain_id" (VInt chainID))) row = counted statuses chainID t).
  { intros t row Hr. unfold keeps. cbn [eval]. change (eval c row) with (eval c row). unfold c at 1.
    rewrite (eval_status t row _ Hr). pose proof (keeps_int row "chain_id" _ (Hk t row Hr) chainID) as E. unfold keeps in E. cbn [eval] in E.
    unfold counted. destruct (sql_eq _ _) as [[|]|], (bool_decide _); rewrite <- E; done. }
  assert (Hlen : length (List.filter (keeps (CAnd c (CEq "chain_id" (VInt chainID)))) (table_scan (transactions s))) =
    length (List.filter (counted statuses chainID) (scanned s))).
  { symmetry. eapply Forall2_length. apply Forall2_filter; [|exact F]. intros t row Hr. symmetry. by apply Hand. }
  rewrite Hlen, lookup_empty.
  assert (Hex : existsb (keeps (CEq "chain_id" (VInt chainID))) (List.filter (keeps c) (table_scan (transactions s))) =
    negb (Z.of_nat (length (List.filter (counted statuses chainID) (scanned s))) =? 0)).
  { clear Hlen. induction F as [|t row l rows Hr F IH]; [done|]. cbn [List.filter]. rewrite <- (Hand t row Hr).
    pose proof (keeps_int row "chain_id" _ (Hk t row Hr) chainID) as E. pose proof (keeps_statuses t row statuses Hr) as Es. fold c in Es.
    rewrite (Hand t row Hr). unfold counted at 1. rewrite <- Es, <- E.
    destruct (keeps c row); [|by rewrite andb_false_r]. cbn [existsb]. rewrite IH. destruct (keeps (CEq _ _) row); [|done].
    cbn [andb length]. rewrite Nat2Z.inj_succ. symmetry. apply negb_true_iff, Z.eqb_neq. lia. }
  rewrite Hex. by destruct (_ =? _).
Qed.

(** ** The promises together *)

(** C17: On the transactions its tables can hold, the PostgreSQL provider writes
    as the contract says. A conditional update replaces exactly an active row and
    reports a stale one; a notification update touches exactly the notification
    columns of a terminal unannounced row; an insertion under a new key stores
    the row, under a known key returns the row that holds it or the conflict, and
    never replaces a row. The attempts stay, and every row stays readable. *)
Theorem pg_writes_refine tx s (W : pg_wf s) (A : admissible tx s)
    (Hn : coerce (notification_fields tx) = Ok (notification_fields tx)) :
  (let '(r, s') := UpdateIfActive tx s in
   r = (if pg_active (tx_ID tx) s then Ok tt else Err ErrStaleTransaction_v) /\
   pg_rows s' = (if pg_active (tx_ID tx) s then <[tx_ID tx := tx]> (pg_rows s) else pg_rows s) /\
   all_attempts s' = all_attempts s /\ pg_wf s') /\
  (let '(r, s') := UpdateNotification tx s in
   r = (if pg_notifiable (tx_ID tx) s then Ok tt else Err ErrStaleTransaction_v) /\
   pg_rows s' = (if pg_notifiable (tx_ID tx) s then alter (merge_notification tx) (tx_ID tx) (pg_rows s) else pg_rows s) /\
   all_attempts s' = all_attempts s /\ pg_wf s') /\
  (let '(r, s') := InsertOrGet NewTransactionsQ tx s in
   all_attempts s' = all_attempts s /\ pg_wf s' /\
   ((exists key k t, has_operation key tx /\ pg_rows s !! k = Some t /\ has_operation key t /\
       r = operation_verdict t tx /\ pg_rows s' = pg_rows s) \/
    ((forall key k t, has_operation key tx -> pg_rows s !! k = Some t -> ~ has_operation key t) /\
     match pg_rows s !! tx_ID tx with
     | Some _ => (exists e, r = Err e) /\ pg_rows s' = pg_rows s
     | None => r = (match tx_OperationKey tx with Some _ => operation_verdict tx tx | None => Ok tx end) /\
               pg_rows s' = <[tx_ID tx := tx]> (pg_rows s)
     end))).
Proof.
  assert (Ha : forall s', transaction_attempts s' = transaction_attempts s -> all_attempts s' = all_attempts s)
    by (intros s' E; unfold all_attempts; by rewrite E).
  split; [|split].
  - destruct (UpdateIfActive_view tx s W A) as (H1 & H2 & H3 & _ & H5). destruct (UpdateIfActive tx s). by auto.
  - destruct (UpdateNotification_view tx s W Hn) as (H1 & H2 & H3 & _ & H5). destruct (UpdateNotification tx s). by auto.
  - destruct (InsertOrGet_view NewTransactionsQ tx s W A eq_refl) as (H1 & H2 & _ & H4).
    destruct (InsertOrGet NewTransactionsQ tx s). by auto.
Qed.

(** C18: A chain of filter, order and limit calls selects what the contract's
    query denotes: of the rows of the view (in some enumeration), those that pass
    every filter and belong to the scoped signer, in the requested order, cut to
    the limit; [Get] returns the first, or no rows. The work orders are the
    contract's; the notification order breaks ties by creation as well. *)
Theorem pg_reads_refine query q s (W : pg_wf s) (Hc : forall x y, collate x y = String.compare x y) :
  exists l, l ≡ₚ (map_to_list (pg_rows s)).*2 /\
    let selected := limit_rows (qr_limit query)
      (sort_stable (pg_compare (qr_order query)) (List.filter (fun t => in_scope q t && query_holds query t) l)) in
    Select (build_query query q) s = Ok selected /\
    match Get (build_query query q) s with
    | Ok t => head selected = Some t
    | Err e => selected = [] /\ Is e ErrNoRows = true
    end /\
    (qr_order query <> orderNextNotification -> forall l', sort_stable (pg_compare (qr_order query)) l' = order_rows (qr_order query) l').
Proof.
  exists (scanned s). split; [by apply scanned_perm|]. pose proof (run_select_rows Hc query q s W) as F. cbv zeta.
  split; [unfold Select; by apply scan_all_rows|]. split.
  2:{ intros Ho l'. destruct (qr_order query); [|done..]. cbn [pg_compare order_rows].
      induction l' as [|t l' IH]; [done|]. simpl. rewrite IH. by destruct l'. }
  unfold Get. destruct F as [|t row ts rows Hr F]; [done|].
  destruct (load_scan t row Hr) as (m & -> & Hm). cbn [wrap_err result_bind]. by rewrite Hm.
Qed.

(** ** Runs of workers over the lane locks

    Any number of workers lock and unlock lanes in any order, each lock as many
    times as it likes, while the queue's other operations go on. *)

(** A lock a worker was given, for its lane. *)
Record lane_holder := mkHolder { h_lane : Address * Z; h_lock : laneLock }.

Definition held (h : lane_holder) : Prop := lock_done (h_lock h) = false.

Inductive lane_step : pgState * list lane_holder -> pgState * list lane_holder -> Prop :=
| lane_taken sender chainID s s' hs : is_u64 chainID -> TryLockLane sender chainID s = (true, s') ->
    lane_step (s, hs) (s', hs ++ [mkHolder (sender, chainID) (taken_lock sender chainID)])
| lane_refused sender chainID s s' hs : TryLockLane sender chainID s = (false, s') -> lane_step (s, hs) (s', hs)
| lane_unlock i h err l s s' hs : hs !! i = Some h -> Unlock (h_lock h) s = (err, l, s') ->
    lane_step (s, hs) (s', <[i := mkHolder (h_lane h) l]> hs)
| lane_other s s' hs : advisory_locks s' = advisory_locks s -> lane_step (s, hs) (s', hs).

(** The advisory locks are those of the locks held, one each. *)
Record lane_inv (s : pgState) (hs : list lane_holder) : Prop := {
  li_lock i h : hs !! i = Some h ->
    lock_key (h_lock h) = laneLockKey (h_lane h).1 (h_lane h).2 /\ is_u64 (h_lane h).2 /\ lock_err (h_lock h) = None;
  li_unique i j h h' : hs !! i = Some h -> hs !! j = Some h' -> held h -> held h' ->
    lock_key (h_lock h) = lock_key (h_lock h') -> i = j;
  li_locks k : k ∈ advisory_locks s <-> exists i h, hs !! i = Some h /\ held h /\ lock_key (h_lock h) = k;
}.

Lemma lane_inv_taken sender chainID s s' hs : is_u64 chainID -> TryLockLane sender chainID s = (true, s') ->
  lane_inv s hs -> lane_inv s' (hs ++ [mkHolder (sender, chainID) (taken_lock sender chainID)]).
Proof.
  intros Hc H [I1 I2 I3]. unfold TryLockLane in H. case_bool_decide as Hk; [done|]. injection H as <-.
  set (h0 := mkHolder _ _).
  assert (Hnew : forall i h, hs !! i = Some h -> held h -> lock_key (h_lock h) <> laneLockKey sender chainID).
  { intros i h Hi Hl E. apply Hk, I3. by exists i, h. }
  split.
  - intros i h [[_ Hi]|[_ <-]]%lookup_snoc_Some; [by eapply I1|done].
  - intros i j h h' [[_ Hi]|[-> <-]]%lookup_snoc_Some [[_ Hj]|[-> <-]]%lookup_snoc_Some Hl Hl' E.
    + by eapply I2.
    + by destruct (Hnew i h).
    + by destruct (Hnew j h').
    + done.
  - intros k. cbn [advisory_locks]. rewrite elem_of_union, elem_of_singleton, I3. split.
    + intros [->|(i & h & Hi & Hl & E)]; [exists (length hs), h0|exists i, h]; (split; [|done]).
      * apply list_lookup_middle. done.
      * by apply lookup_app_l_Some.
    + intros (i & h & [[_ Hi]|[_ <-]]%lookup_snoc_Some & Hl & E); [right; by exists i, h|by left].
Qed.

Lemma lane_inv_unlock i h err l s s' hs : hs !! i = Some h -> Unlock (h_lock h) s = (err, l, s') ->
  lane_inv s hs -> lane_inv s' (<[i := mkHolder (h_lane h) l]> hs).
Proof.
  intros Hi H [I1 I2 I3]. unfold Unlock in H. destruct (lock_done (h_lock h)) eqn:Hd.
  { injection H as _ <- <-. rewrite list_insert_id; [by split|]. by destruct h. }
  rewrite bool_decide_eq_true_2 in H by (apply I3; by exists i, h). injection H as _ <- <-.
  assert (Hins : forall j x, <[i := mkHolder (h_lane h) (mkLock (lock_key (h_lock h)) true None)]> hs !! j = Some x ->
    held x -> j <> i /\ hs !! j = Some x).
  { intros j x [(<- & <- & _)|[Hj E]]%list_lookup_insert_Some Hx; [done|]. by split. }
  split.
  - intros j x [(<- & <- & _)|[_ E]]%list_lookup_insert_Some; [|by eapply I1]. cbn. by destruct (I1 _ h Hi) as (? & ? & _).
  - intros j k x y Hx Hy Lx Ly E. eapply (I2 j k); [by eapply Hins..|done|done|done].
  - intros k. cbn [advisory_locks]. rewrite elem_of_difference, elem_of_singleton, I3. split.
    + intros [(j & x & Hx & Lx & E) Hk]. exists j, x. split; [|done]. rewrite list_lookup_insert_ne; [done|]. intros <-. congruence.
    + intros (j & x & Hx & Lx & E). destruct (Hins j x Hx Lx) as [Hne Hj]. split; [by exists j, x|].
      intros ->. destruct Hne. by eapply I2.
Qed.

Lemma lane_inv_reachable s0 s hs : advisory_locks s0 = ∅ -> rtc lane_step (s0, []) (s, hs) -> lane_inv s hs.
Proof.
  intros H0 R. apply (rtc_ind_r (fun c => lane_inv c.1 c.2) (s0, [])) in R; [done| |].
  - split; cbn [fst snd]; [done..|]. intros k. rewrite H0. split; [set_solver|]. by intros (i & h & Hi & _).
  - intros ? ? _ T I. destruct T; cbn [fst snd] in *.
    + by eapply lane_inv_taken.
    + unfold TryLockLane in *. case_bool_decide; [|done]. by simplify_eq.
    + by eapply lane_inv_unlock.
    + destruct I as [I1 I2 I3]. split; [done..|]. intros k.
      by match goal with E : advisory_locks _ = _ |- _ => rewrite E end.
Qed.

(** What names a lane to Keccak, and the 64 bits of the hash that PostgreSQL is given. *)
Lemma laneLockKey_collision a c a' c' : is_u64 c -> is_u64 c' -> laneLockKey a c = laneLockKey a' c' -> (a, c) <> (a', c') ->
  let p := Address_Bytes a ++ PutUint64 c in let p' := Address_Bytes a' ++ PutUint64 c' in
  p <> p' /\ take 8 (Hash_Bytes (Keccak256Hash p)) = take 8 (Hash_Bytes (Keccak256Hash p')).
Proof.
  intros Hc Hc' E Hne p p'. assert (Hl : forall q, length (take 8 (Hash_Bytes (Keccak256Hash q))) = 8%nat).
  { intros q. rewrite length_take, Hash_Bytes_length. done. }
  split.
  - intros Ep. apply app_inj_1 in Ep as [->%Address_Bytes_injective Ep]; [|by rewrite !Address_Bytes_length].
    apply Hne. f_equal. apply (f_equal SetBytes) in Ep. unfold is_u64, u64_modulus in *.
    by rewrite <- (SetBytes_64 c), <- (SetBytes_64 c').
  - apply SetBytes_inj; [by rewrite !Hl|]. assert (Hb : forall q, is_u64 (SetBytes (take 8 (Hash_Bytes (Keccak256Hash q))))).
    { intros q. unfold is_u64. pose proof (SetBytes_bounds (take 8 (Hash_Bytes (Keccak256Hash q)))) as B. by rewrite Hl in B. }
    by eapply wrap_i64_inj.
Qed.

(** C20: However workers lock and unlock lanes, over a database that starts
    without advisory locks: no two locks that are held are of one lane; a lane is
    refused only when a lock of it is held, or one of a lane whose sender and
    chain id, as bytes, hash to the same 64 bits without being the same bytes, and
    refusal changes nothing; unlocking a lock that is held succeeds, leaves the
    tables alone and makes its lane available at once; unlocking it again changes
    nothing, so never frees a lane another worker has locked since. *)
Theorem pg_lane_exclusive s0 s hs (H0 : advisory_locks s0 = ∅) (R : rtc lane_step (s0, []) (s, hs)) :
  (forall i j h h', hs !! i = Some h -> hs !! j = Some h' -> held h -> held h' -> h_lane h = h_lane h' -> i = j) /\
  (forall sender chainID, is_u64 chainID ->
    match TryLockLane sender chainID s with
    | (true, _) => forall i h, hs !! i = Some h -> held h -> h_lane h <> (sender, chainID)
    | (false, s') => s' = s /\ exists i h, hs !! i = Some h /\ held h /\
        (h_lane h = (sender, chainID) \/
         let p := Address_Bytes (h_lane h).1 ++ PutUint64 (h_lane h).2 in let p' := Address_Bytes sender ++ PutUint64 chainID in
         p <> p' /\ take 8 (Hash_Bytes (Keccak256Hash p)) = take 8 (Hash_Bytes (Keccak256Hash p')))
    end) /\
  (forall i h, hs !! i = Some h ->
    let '(err, l, s') := Unlock (h_lock h) s in
    err = None /\ lock_done l = true /\ transactions s' = transactions s /\ transaction_attempts s' = transaction_attempts s /\
    if lock_done (h_lock h) then s' = s else fst (TryLockLane (h_lane h).1 (h_lane h).2 s') = true).
Proof.
  destruct (lane_inv_reachable s0 s hs H0 R) as [I1 I2 I3]. split; [|split].
  - intros i j h h' Hi Hj Hl Hl' E. eapply I2; [done..|].
    destruct (I1 i h Hi) as [-> _], (I1 j h' Hj) as [-> _]. by rewrite E.
  - intros sender chainID Hc. unfold TryLockLane. case_bool_decide as Hk.
    + split; [done|]. apply I3 in Hk as (i & h & Hi & Hl & E). exists i, h. split; [done|]. split; [done|].
      destruct (I1 i h Hi) as (Ek & Hu & _). rewrite Ek in E. destruct h as [[a c] l]. cbn [h_lane fst snd] in *.
      destruct (decide ((a, c) = (sender, chainID))); [by left|right]. by apply laneLockKey_collision.
    + intros i h Hi Hl E. apply Hk, I3. exists i, h. split; [done|]. split; [done|]. destruct (I1 i h Hi) as [-> _]. by rewrite E.
  - intros i h Hi. destruct (I1 i h Hi) as (Ek & _ & He). unfold Unlock. destruct (lock_done (h_lock h)) eqn:Hd; [done|].
    rewrite bool_decide_eq_true_2 by (apply I3; by exists i, h). cbn [lock_done transactions transaction_attempts].
    split_and!; [done..|]. unfold TryLockLane. cbn [advisory_locks]. rewrite Ek, bool_decide_eq_false_2; [done|]. set_solver.
Qed.

(** C19: Attempts are owned once. Recording one reports success and appends it
    when its hash is new, repeats the success for its own transaction, and names
    the owner when the hash belongs to another; listing the attempts of a
    transaction gives them oldest first, and those of a nonce are exactly the
    attempts with that nonce of the chain's transactions. *)
Theorem pg_attempts_refine a s fields (W : pg_wf s) (Hf : attemptToModel a = Ok fields) (Hc : coerce fields = Ok fields) :
  let s' := snd (InsertAttempt a s) in
  let hash := Hash_Hex (at_Hash a) in
  pg_wf s' /\ pg_rows s' = pg_rows s /\
  match pg_owner s hash with
  | Some id => s' = s /\ fst (InsertAttempt a s) =
      (if decide (id = at_TransactionID a) then Ok tt else Err (AttemptHashConflictError hash id))
  | None => fst (InsertAttempt a s) = Ok tt /\ all_attempts s' = all_attempts s ++ [a] /\
            pg_owner s' hash = Some (at_TransactionID a)
  end /\
  (forall id, SelectAttempts id s' = Ok (sort_stable (cmp_on at_CreatedAt Z.compare) (pg_attempts s' id))) /\
  forall chainID nonce, exists l, SelectAttemptsByNonce chainID nonce s' = Ok l /\ forall b,
    b ∈ l <-> exists id t, pg_rows s' !! id = Some t /\ tx_ChainID t = chainID /\ b ∈ pg_attempts s' id /\ at_Nonce b = nonce.
Proof.
  destruct (InsertAttempt_view a s fields W Hf Hc) as (H1 & H2 & _ & H4). cbv zeta. split; [done|].
  split; [unfold pg_rows; by rewrite H2|]. split; [|split; [intros id; by apply SelectAttempts_view|]].
  - destruct (pg_owner s (Hash_Hex (at_Hash a))) as [id|] eqn:E; [done|]. destruct H4 as [H3 H4]. split; [done|]. split; [done|].
    rewrite pg_owner_find in E |- * by done. rewrite H4.
    destruct (List.find _ (all_attempts s)) as [b|] eqn:Ef; [done|]. clear E H3 H4.
    induction (all_attempts s) as [|b l IH]; cbn [app List.find] in *; [by rewrite bool_decide_eq_true_2|].
    case_bool_decide; [done|by apply IH].
  - intros chainID nonce. destruct (SelectAttemptsByNonce_view chainID nonce (snd (InsertAttempt a s)) a H1) as (l & Hl & _).
    exists l. split; [done|]. intros b. destruct (SelectAttemptsByNonce_view chainID nonce (snd (InsertAttempt a s)) b H1) as (l' & Hl' & Hb).
    rewrite Hl in Hl'. by injection Hl' as <-.
Qed.

End contract.
