(* ===== verification/ToyCodec.v ===== *)
(** * A second small world: hashes of 32 bytes and an executable codec

    An instance of [Abi] whose values are decoded from real bytes: integers,
    addresses and hashes are 32-byte words, strings and byte strings are a
    length word and their bytes.  A hash is one byte behind 31 zeros, so
    collisions exist, as they do for Keccak-256. *)
From Stdlib Require Import Ascii Strings.Byte.
From S2P Require Export KmsSigner PgContract.
Local Open Scope Z_scope.

(** The last byte of hexadecimal text, with or without [0x]. *)
Definition last_byte (w : bytes) : Byte.byte := List.last w x00.
Definition last_hex (s : string) : Byte.byte :=
  default x00 (last_byte <$> DecodeString (if HasPrefix s "0x" then sdrop 2 s else s)).

Definition zeros_then (n : nat) (b : Byte.byte) : bytes := replicate n x00 ++ [b].
Definition hex_text (n : nat) (b : Byte.byte) : string := "0x" +:+ EncodeToString (zeros_then n b).

#[export] Instance codec_geth : GoEthereum := {
  Address := Byte.byte; Hash := Byte.byte; SignedTx := Byte.byte; Receipt := Byte.byte; Authorization := unit;
  address_zero := x00; Address_Hex := hex_text 19; Hash_Hex := hex_text 31;
  geth_Hash t := t; geth_Nonce _ := 0; geth_Type _ := 0; geth_GasPrice _ := 0;
  geth_GasTipCap _ := 0; geth_GasFeeCap _ := 0; geth_ChainId _ := Some 1; geth_Sender _ t := Ok t;
  receipt_TxHash r := r; receipt_Status _ := 1;
  MustFromBig v := if Z.abs v <? 2 ^ 256 then Some (v mod 2 ^ 256) else None;
}.

(** ** Words *)

Definition word (n : Z) : bytes := adjustSignatureLength (Bytes n).
Definition padded : Byte.byte -> bytes := zeros_then 31.

Lemma word_spec n : 0 <= n < 2 ^ 256 -> length (word n) = 32%nat /\ SetBytes (word n) = n.
Proof.
  intros Hn. unfold word. destruct (adjust_spec (Bytes n)) as [H1 H2]. rewrite SetBytes_Bytes in H1 by lia.
  split; [apply H2; rewrite SetBytes_Bytes by lia; lia|done].
Qed.

(** The first word, and what follows it. *)
Definition split_word (data : bytes) : option (bytes * bytes) :=
  if (32 <=? length data)%nat then Some (take 32 data, drop 32 data) else None.

Lemma split_word_app w r : length w = 32%nat -> split_word (w ++ r) = Some (w, r).
Proof.
  intros H. unfold split_word. rewrite length_app, H. cbn [Nat.leb Nat.add].
  by rewrite <- H, take_app_length, drop_app_length.
Qed.

(** ** Values *)

Definition int_bits (t : AbiType) : Z :=
  match t with T_uint8 => 8 | T_uint32 => 32 | T_uint64 => 64 | _ => 256 end.

Definition enc (t : AbiType) (v : AbiValue) : option bytes :=
  match t, v with
  | T_uint8, V_uint8 n | T_uint32, V_uint32 n | T_uint64, V_uint64 n | T_uint256, V_uint256 n =>
      if (0 <=? n) && (n <? 2 ^ int_bits t) then Some (word n) else None
  | T_bool, V_bool b => Some (padded (if b then x01 else x00))
  | T_address, V_address a => Some (padded a)
  | T_bytes32, V_bytes32 h => Some (padded h)
  | T_string, V_string s =>
      let data := String.list_byte_of_string s in
      let n := Z.of_nat (length data) in if n <? 2 ^ 256 then Some (word n ++ data) else None
  | T_bytes, V_bytes data =>
      let n := Z.of_nat (length data) in if n <? 2 ^ 256 then Some (word n ++ data) else None
  | _, _ => None
  end.

(** The bytes a length word announces. *)
Definition dec_tail (w rest : bytes) : option (bytes * bytes) :=
  let n := SetBytes w in
  if n <=? Z.of_nat (length rest) then Some (take (Z.to_nat n) rest, drop (Z.to_nat n) rest) else None.

Definition dec (t : AbiType) (data : bytes) : option (AbiValue * bytes) :=
  '(w, rest) ← split_word data;
  let n := SetBytes w in
  if n <? 2 ^ int_bits t then
    match t with
    | T_uint8 => Some (V_uint8 n, rest)
    | T_uint32 => Some (V_uint32 n, rest)
    | T_uint64 => Some (V_uint64 n, rest)
    | T_uint256 => Some (V_uint256 n, rest)
    | T_bool => if n =? 0 then Some (V_bool false, rest) else if n =? 1 then Some (V_bool true, rest) else None
    | T_address => Some (V_address (last_byte w), rest)
    | T_bytes32 => Some (V_bytes32 (last_byte w), rest)
    | T_string => '(d, rest) ← dec_tail w rest; Some (V_string (String.string_of_list_byte d), rest)
    | T_bytes => '(d, rest) ← dec_tail w rest; Some (V_bytes d, rest)
    | _ => None
    end
  else None.

Lemma padded_spec b : length (padded b) = 32%nat /\ SetBytes (padded b) = byte_int b /\ last_byte (padded b) = b.
Proof.
  unfold padded, zeros_then. rewrite SetBytes_app, SetBytes_zeros, SetBytes_cons. split; [done|]. split; [|done].
  change (SetBytes []) with 0. simpl. lia.
Qed.

Lemma dec_tail_app w data r : SetBytes w = Z.of_nat (length data) -> dec_tail w (data ++ r) = Some (data, r).
Proof.
  intros H. unfold dec_tail. rewrite H, length_app, (proj2 (Z.leb_le _ _)) by lia.
  by rewrite Nat2Z.id, take_app_length, drop_app_length.
Qed.

Lemma int_bits_bound t : 2 ^ int_bits t <= 2 ^ 256.
Proof. apply Z.pow_le_mono_r; destruct t; simpl; lia. Qed.

Lemma byte_small b t : int_bits t = 256 -> byte_int b < 2 ^ int_bits t.
Proof. intros ->. pose proof (byte_int_bounds b). assert (256 <= 2 ^ 256) by (vm_compute; discriminate). lia. Qed.

(** Decoding what was encoded gives it back, and leaves what followed. *)
Lemma dec_enc t v data r : enc t v = Some data -> dec t (data ++ r) = Some (v, r).
Proof.
  pose proof (int_bits_bound t) as Hb.
  assert (Hi : forall n, 0 <= n < 2 ^ int_bits t -> split_word (word n ++ r) = Some (word n, r) /\ SetBytes (word n) = n).
  { intros n Hn. destruct (word_spec n ltac:(lia)) as [H1 H2]. split; [by apply split_word_app|done]. }
  assert (Hp : forall b, split_word (padded b ++ r) = Some (padded b, r) /\ SetBytes (padded b) = byte_int b /\ last_byte (padded b) = b).
  { intros b. destruct (padded_spec b) as (H1 & H2). split; [by apply split_word_app|done]. }
  assert (Hd : forall d, Z.of_nat (length d) < 2 ^ 256 ->
    split_word ((word (Z.of_nat (length d)) ++ d) ++ r) = Some (word (Z.of_nat (length d)), d ++ r) /\
    SetBytes (word (Z.of_nat (length d))) = Z.of_nat (length d)).
  { intros d Hl. destruct (word_spec (Z.of_nat (length d)) ltac:(lia)) as [H1 H2]. rewrite <- app_assoc.
    split; [by apply split_word_app|done]. }
  destruct t, v; try discriminate; cbn [enc]; intros E.
  1-4: case_match eqn:En; [|done]; injection E as <-; destruct (Hi v ltac:(lia)) as [H1 H2];
    unfold dec; rewrite H1; cbn [mbind option_bind]; rewrite H2, (proj2 (Z.ltb_lt _ _)) by lia; reflexivity.
  - injection E as <-. destruct v; reflexivity.
  - injection E as <-. destruct (Hp v) as (H1 & H2 & H3). unfold dec. rewrite H1. cbn [mbind option_bind].
    rewrite H2, H3, (proj2 (Z.ltb_lt _ _)) by (by apply byte_small). reflexivity.
  - injection E as <-. destruct (Hp v) as (H1 & H2 & H3). unfold dec. rewrite H1. cbn [mbind option_bind].
    rewrite H2, H3, (proj2 (Z.ltb_lt _ _)) by (by apply byte_small). reflexivity.
  - case_match eqn:En; [|done]. injection E as <-. apply Z.ltb_lt in En. destruct (Hd _ En) as [H1 H2].
    unfold dec. rewrite H1. cbn [mbind option_bind]. rewrite dec_tail_app by done. cbn [mbind option_bind].
    rewrite H2, (proj2 (Z.ltb_lt _ _)) by done. by rewrite String.string_of_list_byte_of_string.
  - case_match eqn:En; [|done]. injection E as <-. apply Z.ltb_lt in En. destruct (Hd _ En) as [H1 H2].
    unfold dec. rewrite H1. cbn [mbind option_bind]. rewrite dec_tail_app by done. cbn [mbind option_bind].
    by rewrite H2, (proj2 (Z.ltb_lt _ _)) by done.
Qed.

(** ** Arguments *)

Fixpoint enc_all (tys : list AbiType) (vs : list AbiValue) : option bytes :=
  match tys, vs with
  | [], [] => Some []
  | t :: tys, v :: vs => d ← enc t v; r ← enc_all tys vs; Some (d ++ r)
  | _, _ => None
  end.

Fixpoint dec_all (tys : list AbiType) (data : bytes) : option (list AbiValue) :=
  match tys with
  | [] => Some []
  | t :: tys => '(v, rest) ← dec t data; vs ← dec_all tys rest; Some (v :: vs)
  end.

Lemma dec_enc_all tys vs data : enc_all tys vs = Some data -> dec_all tys data = Some vs.
Proof.
  revert vs data. induction tys as [|t tys IH]; intros [|v vs] data E; simplify_eq/=; [done|].
  apply bind_Some in E as (d & E1 & E). apply bind_Some in E as (r & E2 & [= <-]).
  rewrite (dec_enc _ _ _ _ E1). cbn [mbind option_bind]. by rewrite (IH _ _ E2).
Qed.

Lemma dec_typed t data v rest : dec t data = Some (v, rest) -> has_type v t.
Proof.
  unfold dec. intros E. apply bind_Some in E as ([w r] & _ & E). case_match; [|done].
  destruct t; repeat case_match; simplify_option_eq; try done.
  all: destruct (dec_tail w r) as [[? ?]|]; simplify_option_eq; done.
Qed.

Lemma dec_all_typed tys data vs : dec_all tys data = Some vs -> Forall2 has_type vs tys.
Proof.
  revert data vs. induction tys as [|t tys IH]; intros data vs E; simplify_eq/=; [constructor|].
  apply bind_Some in E as ([v rest] & E1 & E). apply bind_Some in E as (vs' & E2 & [= <-]).
  constructor; [by eapply dec_typed|by eapply IH].
Qed.

Definition sum_bytes (b : bytes) : Byte.byte := byte_of (fold_left (fun acc c => acc * 3 + byte_int c) b 0).

Definition result_of {X} (why : string) (x : option X) : result GoError X :=
  match x with Some x => Ok x | None => Err (errors_New why) end.

#[export] Instance codec_abi : Abi := {
  Unpack tys data := result_of "abi: cannot unmarshal" (dec_all tys data);
  Pack tys vs := result_of "abi: cannot marshal" (enc_all tys vs);
  HexToAddress := last_hex;
  BytesToAddress b := last_byte b;
  Keccak256Hash := sum_bytes;
  Hash_Bytes := padded;
  hash_zero := x00;
}.

#[export] Instance codec_laws : AbiLaws.
Proof.
  split. intros tys data vs. simpl. destruct (dec_all tys data) eqn:E; simpl; [|done]. intros [= <-]. by eapply dec_all_typed.
Qed.

#[export] Instance codec_pack_laws : AbiPackLaws.
Proof.
  split.
  - intros tys vs vs' data _ _. simpl. destruct (enc_all tys vs) eqn:E1; [|done]. destruct (enc_all tys vs') eqn:E2; [|done].
    intros [= <-] [= <-]. apply dec_enc_all in E1. apply dec_enc_all in E2. congruence.
  - intros h k E. by apply (f_equal last_byte) in E.
  - intros h. by destruct (padded_spec h).
Qed.

#[export] Instance codec_unicode : UnicodeTables := { unicode_ToLower s := s; unicode_ToUpper s := s; unicode_EqualFold := String.eqb; strconv_Quote s := s }.

(** ** JSON and the schema *)

Definition json_of (b : Byte.byte) : string := "{" +:+ EncodeToString [b] +:+ "}".
Definition of_json (s : string) : result GoError Byte.byte :=
  match DecodeString (stake 2 (sdrop 1 s)) with Some [b] => Ok b | _ => Err (errors_New "invalid character") end.

Fixpoint units_text (l : list unit) : string := match l with [] => "]" | _ :: l => String ","%char (units_text l) end.
Fixpoint text_units (s : string) : list unit :=
  match s with String c rest => if Ascii.eqb c ","%char then tt :: text_units rest else [] | "" => [] end.

#[export] Instance codec_pg : PgCodec := {
  tx_MarshalJSON t := Ok (json_of t); tx_UnmarshalJSON := of_json;
  receipt_MarshalJSON r := Ok (json_of r); receipt_UnmarshalJSON := of_json;
  auths_Marshal l := Ok (units_text l); auths_Unmarshal s := Ok (text_units s);
  HexToHash := last_hex; BytesToHash := last_byte; Address_Bytes a := zeros_then 19 a;
}.

Lemma last_hex_text n b : last_hex (hex_text n b) = b.
Proof.
  unfold last_hex, hex_text. rewrite (proj2 (HasPrefix_spec _ _)) by by eexists.
  change (sdrop 2 ("0x" +:+ EncodeToString (zeros_then n b))) with (EncodeToString (zeros_then n b)).
  rewrite DecodeString_EncodeToString. simpl. unfold last_byte, zeros_then. apply List.last_last.
Qed.

Lemma of_json_of b s : Ok (json_of b) = Ok s :> result GoError string -> of_json s = Ok b /\ s <> "" /\ s <> "{}".
Proof. intros [= <-]. by destruct b. Qed.

#[export] Instance codec_pg_laws : PgCodecLaws.
Proof.
  split; try done; try apply of_json_of.
  - intros l s [= <-]. split; [|by destruct l]. simpl. f_equal. induction l as [|[] l IH]; [done|]. simpl. by rewrite IH.
  - intros a. apply last_hex_text.
  - intros h. apply last_hex_text.
  - intros a b E. simpl in E. unfold zeros_then in E. by apply app_inj_2 in E as [_ [= ->]].
Qed.

Definition fits64 (v : SqlValue) : bool := match v with VInt z => bool_decide (is_i64 z) | _ => true end.

(** Columns the schema leaves empty; integers are 64-bit. *)
#[export] Instance codec_schema : PgSchema.
Proof.
  refine {|
    schema_default := list_to_map [("raw_authorizations", VNull); ("raw_tx", VText "{}"); ("raw_receipt", VText "")];
    coerce row := if forallb (fun kv => fits64 kv.2) (map_to_list row) then Ok row
                  else Err (errors_New "pq: bigint out of range");
    collate := String.compare;
    table_scan m := (map_to_list m).*2;
    unique_violation c := errors_New ("pq: duplicate key value violates unique constraint on " +:+ c);
  |}; done.
Defined.

#[export] Instance codec_schema_laws : PgSchemaLaws.
Proof. split; [by left|by right|by left]. Qed.
