(* ===== verification/UtilWitnesses.v ===== *)
(** * Witnesses for the libraries

    The theorems on amounts, orders, CoreWriter evidence, the HTTP client, the
    signer and the event indexer, applied to concrete inputs. *)
From stdpp Require Import gmap relations.
From Stdlib Require Import Ascii Strings.Byte.
From S2P Require Import ToyCodec HyperCore Backoff HttpJson CoreWriter Polymarket EventIndexer.
Local Open Scope Z_scope.

(** Runs the left-hand side; the types, which hold the instances, stay as they
    are. *)
Ltac run := match goal with |- _ = ?b => vm_cast_no_check (@eq_refl _ b) end.

Ltac run_decide := refine (bool_decide_eq_true_1 _ _); run.

(** ** Orders *)

(** Buy 5.55 shares at 0.37 on a cent grid. *)
Definition an_input : BuildOrderInput :=
  {| i_Salt := 42; i_Maker := x01; i_Signer := x02; i_TokenID := Some 987654321; i_PriceE6 := 370000;
     i_SizeE6 := Some 5550000; i_TickSizeE6 := 10000; i_Side := OrderSideBuy;
     i_SignatureType := OrderSignatureTypePoly1271; i_Timestamp := 1700000000; i_Metadata := x00; i_Builder := x05 |}.

Definition an_order : Order :=
  {| Salt := 42; Maker := x01; OSigner := x02; TokenID := "987654321"; MakerAmount := "2053500";
     TakerAmount := "5550000"; Side := OrderSideBuy; SignatureType := OrderSignatureTypePoly1271;
     Timestamp := 1700000000; Metadata := x00; Builder := x05 |}.

Lemma an_input_valid : valid_input an_input 987654321 5550000.
Proof.
  split; try reflexivity; try discriminate.
  all: first [by left | split; vm_compute; first [reflexivity | discriminate] | vm_compute; first [reflexivity|discriminate]].
Qed.

Lemma BuildOrder_complete_witness :
  valid_input an_input 987654321 5550000 /\ BuildOrder an_input = Ok an_order /\ exists o, BuildOrder an_input = Ok o.
Proof.
  split; [exact an_input_valid|]. split; [run|].
  exact (proj1 (BuildOrder_complete an_input ltac:(vm_compute; discriminate) ltac:(vm_compute; discriminate)) _ _ an_input_valid).
Defined.

Definition digest : Byte.byte := match Order_Hash an_order MarketTypeNegRisk with Ok h => h | Err _ => x00 end.

Lemma Order_Hash_binds_witness :
  Order_Hash an_order MarketTypeNegRisk = Ok digest /\
  exists dom enc dom' enc', encoded an_order MarketTypeNegRisk dom enc /\ digest = Keccak256Hash (order_message dom enc) /\
    (Exchange MarketTypeNegRisk = Exchange MarketTypeNegRisk \/ collide dom dom' \/ collide enc enc' \/
     collide (order_message dom enc) (order_message dom' enc')).
Proof.
  assert (H : Order_Hash an_order MarketTypeNegRisk = Ok digest) by run.
  split; [exact H|].
  destruct (Order_Hash_binds an_order an_order MarketTypeNegRisk MarketTypeNegRisk digest
    ltac:(vm_compute; discriminate) ltac:(vm_compute; discriminate) ltac:(vm_compute; discriminate) ltac:(vm_compute; discriminate) H H) as (dom & enc & dom' & enc' & He & _ & Ed & [[Hx _]|Hc]); exists dom, enc, dom', enc'; (split; [exact He|]); (split; [exact Ed|]); [by left|by right].
Defined.

Lemma NormalizeOrderAmounts_spec_witness :
  NormalizeOrderAmounts OrderSideBuy 370000 (Some 5555) = Ok (2056, 5555) /\ 0 < 2056 < 2 ^ 256.
Proof.
  split; [run|].
  pose proof (NormalizeOrderAmounts_spec OrderSideBuy 370000 5555 ltac:(by left) ltac:(split; vm_compute; first [reflexivity|discriminate]) ltac:(split; vm_compute; first [reflexivity|discriminate])) as H.
  assert (E : NormalizeOrderAmounts OrderSideBuy 370000 (Some 5555) = Ok (2056, 5555)) by run.
  rewrite E in H. exact (proj1 H).
Defined.

Lemma ParseFixedPoint_agrees_witness :
  ParseFixedPoint "12.34" 6 = Ok 12340000 /\ Parse "12.34" 6 = Ok 12340000.
Proof.
  assert (H : ParseFixedPoint "12.34" 6 = Ok 12340000) by run.
  split; [exact H|]. exact (proj1 (ParseFixedPoint_agrees "12.34" 6 12340000 H)).
Defined.

(** ** CoreWriter *)

(** Action 7, a transfer of 1000 ntl to the perp account, on the wire. *)
Definition raw_transfer : bytes := [x01; x00; x00; x07] ++ word 1000 ++ padded x01.

Lemma raw_transfer_decodes : DecodeCoreWriterAction raw_transfer = Val (USDClassTransferAction 1000 true).
Proof. run. Qed.

Lemma DecodeCoreWriterAction_injective_witness :
  DecodeCoreWriterAction raw_transfer = Val (USDClassTransferAction 1000 true) /\ raw_transfer = raw_transfer.
Proof.
  split; [exact raw_transfer_decodes|].
  exact (DecodeCoreWriterAction_injective raw_transfer raw_transfer _ raw_transfer_decodes raw_transfer_decodes).
Defined.

Lemma DecodeCoreWriterAction_total_witness : DecodeCoreWriterAction raw_transfer <> Panic "interface conversion".
Proof. exact (DecodeCoreWriterAction_total raw_transfer "interface conversion"). Defined.

Definition a_log : Log :=
  {| lg_Address := CoreWriterAddress; lg_Topics := [CoreWriterRawActionTopic; x09];
     lg_Data := word 68 ++ raw_transfer; lg_BlockNumber := 0; lg_TxHash := x00; lg_BlockHash := x00; lg_Index := 3;
     lg_Removed := false |}.

Definition other_log : Log :=
  {| lg_Address := x77; lg_Topics := []; lg_Data := []; lg_BlockNumber := 0; lg_TxHash := x00; lg_BlockHash := x00;
     lg_Index := 2; lg_Removed := false |}.

Definition a_receipt : EvmReceipt :=
  {| rc_Status := ReceiptStatusSuccessful; rc_TxHash := xaa; rc_BlockHash := xbb; rc_BlockNumber := Some 17;
     rc_Logs := [Some other_log; None; Some a_log] |}.

Definition an_evidence : DecodedCoreWriterAction :=
  {| User := x09; Version := x01; ActionID := 7; RawAction := raw_transfer; Action := USDClassTransferAction 1000 true;
     TransactionHash := xaa; BlockHash := xbb; BlockNumber := 17; LogIndex := 3 |}.

Lemma DecodeCoreWriterRawActions_sound_witness :
  DecodeCoreWriterRawActions (Some a_receipt) = Val ([an_evidence], None) /\ rc_Status a_receipt = ReceiptStatusSuccessful.
Proof.
  assert (H : DecodeCoreWriterRawActions (Some a_receipt) = Val ([an_evidence], None)) by run.
  split; [exact H|]. exact (proj1 (DecodeCoreWriterRawActions_sound a_receipt _ _ H)).
Defined.

(** ** Core wei, basis points *)

Lemma EvmToCoreWeiFloor_conserves_witness :
  EvmToCoreWeiFloor (Some 123456789) 3 = Ok (123456, 789) /\ CoreWeiToEvmFloor 123456 3 = (123456000, 0).
Proof.
  assert (H : EvmToCoreWeiFloor (Some 123456789) 3 = Ok (123456, 789)) by run.
  split; [exact H|]. exact (proj2 (proj2 (EvmToCoreWeiFloor_conserves 123456789 3 123456 789 H))).
Defined.

(** 1.5 USD. *)
Lemma UsdToNtl_exact_witness : UsdToNtl (Some (SetFrac 3 2)) = Ok 1500000 /\ NtlToUsd 1500000 = SetFrac 3 2.
Proof.
  assert (H : UsdToNtl (Some (SetFrac 3 2)) = Ok 1500000) by run.
  split; [exact H|]. exact (proj2 (UsdToNtl_exact _ _ H)).
Defined.

Lemma bps_split_witness : MulBpsCeil (Some 1001) 50 + ApplySlippageBps (Some 1001) 50 = 1001.
Proof. exact (proj1 (bps_split 1001 50 ltac:(lia) ltac:(split; vm_compute; first [reflexivity|discriminate]))). Defined.

(** ** Retries *)

(** Fails twice, then succeeds. *)
Definition third_time (i : nat) : option GoError * bool :=
  if (i <? 2)%nat then (Some (errors_New "busy"), true) else (None, false).

Lemma ExponentialWithContext_spec_witness :
  run_waits (ExponentialWithContext third_time (fun _ => None) 5 100) = [100; 200] /\
  exists k, (k < 5)%nat /\ run_calls (ExponentialWithContext third_time (fun _ => None) 5 100) = S k.
Proof.
  split; [run|].
  destruct (ExponentialWithContext_spec third_time (fun _ => None) 5 100 ltac:(lia)) as (k & Hk & _ & _ & Hc & _).
  by exists k.
Defined.

Lemma responseBody_limit_witness :
  read_all [(4%nat, mkAnswer 3 false); (4%nat, mkAnswer 4 true); (1%nat, mkAnswer 1 true)] (body_of 5 "hello!") = ("hello", Some ErrResponseTooLarge) /\
  exists tail, "hello!" = "hello" +:+ tail.
Proof.
  split; [run|].
  destruct (responseBody_limit [(4%nat, mkAnswer 3 false); (4%nat, mkAnswer 4 true); (1%nat, mkAnswer 1 true)] 5 "hello!" ltac:(lia)) as (tail & H & _).
  exists tail. exact H.
Defined.

Lemma read_all_terminates_witness :
  exists e, snd (read_all [(2%nat, mkAnswer 2 false); (2%nat, mkAnswer 1 false); (9%nat, mkAnswer 1 false)] (body_of 2 "ab")) = Some e.
Proof.
  exact (read_all_terminates [(2%nat, mkAnswer 2 false); (2%nat, mkAnswer 1 false); (9%nat, mkAnswer 1 false)] (body_of 2 "ab")
    ltac:(repeat constructor) ltac:(simpl; lia)).
Defined.

(** ** The signer *)

(** A KMS that signs with r = 7 and the high s = N - 5, over a curve on which
    every signature with recovery id 1 is the key's. *)
#[export] Instance toy_kms : Kms := {
  PublicKey := unit;
  kms_GetPublicKey _ _ := Ok [x04];
  kms_Sign _ _ hash := Ok hash;
  asn1_pubkey b := Ok b;
  asn1_sig _ := Ok ([x07], Bytes (secp256k1N - 5));
  UnmarshalPubkey _ := Ok tt;
  MarshalPubkey _ := [x04];
  Ecrecover _ sig := Ok (if bool_decide (drop 64 sig = [x01]) then [x04] else [x09]);
}.

Definition a_signature : bytes := word 7 ++ word 5 ++ [x01].

Lemma SignMessageHash_spec_witness :
  SignMessageHash 0 "key" tt [x10] = Ok a_signature /\ SetBytes (take 32 (drop 32 a_signature)) = 5 /\
  length a_signature = 65%nat.
Proof.
  assert (H : SignMessageHash 0 "key" tt [x10] = Ok a_signature) by run.
  assert (Hk : getSignatureFromKms 0 "key" [x10] = Ok ([x07], Bytes (secp256k1N - 5))) by run.
  assert (Hr : (SetBytes [x07] ?= 2 ^ 256) = Lt) by run.
  assert (Hs : (0 ?= SetBytes (Bytes (secp256k1N - 5))) = Lt) by run.
  assert (Hn : (SetBytes (Bytes (secp256k1N - 5)) ?= secp256k1N) = Lt) by run.
  split; [exact H|]. split; [run|].
  exact (proj1 (SignMessageHash_spec 0 "key" tt [x10] _ _ a_signature Hk Hr (conj Hs Hn) H)).
Defined.

(** ** The event indexer *)

(** Chain 1 watched twice on channel 0, by two contracts; the second is removed
    and its goroutine exits. *)
Definition ix0 : indexer := New {[1]}.
Definition ix1 : indexer := snd (AddContract (fun _ => None) [(1, x01)] [x20] 0 ix0).
Definition ix2 : indexer := snd (AddContract (fun _ => None) [(1, x02)] [x20] 0 ix1).
Definition ix3 : indexer := RemoveContract [] (Address_Hex x02) ix2.

Lemma ix_add_ok a s : 0%nat ∉ closed s -> ix_step s (snd (AddContract (fun _ => None) [(1, a)] [x20] 0 s)).
Proof. intros H. apply ix_add; [apply NoDup_singleton|by repeat constructor|done]. Qed.

Lemma ix3_reachable : rtc ix_step (New {[1]}) ix3.
Proof.
  eapply rtc_l; [apply (ix_add_ok x01 ix0); run_decide|]. eapply rtc_l; [apply (ix_add_ok x02 ix1); run_decide|].
  eapply rtc_l; [apply ix_remove|apply rtc_refl].
Qed.

Lemma indexer_no_panic_witness : outputs ix3 !! 0%nat = Some 2 /\ is_Some (deliver 0 ix3) /\ is_Some (finish 1 ix3).
Proof.
  split; [run|].
  exact (conj (proj1 (indexer_no_panic {[1]} ix3 0 ix3_reachable)) (proj2 (indexer_no_panic {[1]} ix3 1 ix3_reachable))).
Defined.

Definition first_reg : contractInfo := {| chainID := 1; address := x01; events := [x20]; eventChan := 0 |}.
Definition ix4 : indexer := default ix3 (finish 1 ix3).

(** The first registration still uses the channel, so it stays open. *)
Lemma indexer_close_last_witness : 0%nat ∉ closed ix4 /\ 0%nat ∉ closed ix3.
Proof.
  assert (Hc : running ix3 !! 1%nat = Some {| chainID := 1; address := x02; events := [x20]; eventChan := 0 |}) by run.
  assert (Hf : finish 1 ix3 = Some ix4) by run.
  assert (Hd : 1%nat ∈ cancelled ix3) by run_decide.
  destruct (indexer_close_last {[1]} ix3 1 _ ix4 ix3_reachable Hc Hd Hf) as [H1 H2]. split; [|exact H1].
  intros H. assert (Hc0 : exists c, running ix3 !! 0%nat = Some c /\ eventChan c = 0%nat) by (exists first_reg; split; [run|reflexivity]).
  destruct Hc0 as (c & Hc0 & Hch). apply H2 with (r' := 0%nat) in Hc0; [discriminate Hc0|exact H|exact Hch].
Defined.

Lemma indexer_no_leak_witness : stopped (shutdown ix3) = true /\ 0%nat ∈ cancelled (shutdown ix3).
Proof.
  split; [run|].
  assert (H : rtc ix_step (New {[1]}) (shutdown ix3)) by (eapply rtc_r; [exact ix3_reachable|apply ix_stop]).
  assert (Hr : bool_decide (is_Some (running (shutdown ix3) !! 0%nat)) = true) by run.
  exact (proj2 (proj2 (indexer_no_leak {[1]} (shutdown ix3) H)) eq_refl 0%nat (bool_decide_eq_true_1 _ Hr)).
Defined.

(** The second subscription of the call fails; the first is undone. *)
Definition second_fails (i : nat) : option GoError := if (i =? 1)%nat then Some (errors_New "refused") else None.

Lemma AddContract_atomic_witness :
  let s := New {[1; 2]} in
  fst (AddContract second_fails [(1, x01); (2, x02)] [x20] 0 s) =
    Err (Errorf_w "failed to setup subscription for chain 2: " (errors_New "refused") "") /\
  live (snd (AddContract second_fails [(1, x01); (2, x02)] [x20] 0 s)) = live s.
Proof.
  cbv zeta.
  assert (H : fst (AddContract second_fails [(1, x01); (2, x02)] [x20] 0 (New {[1; 2]})) =
    Err (Errorf_w "failed to setup subscription for chain 2: " (errors_New "refused") "")) by run.
  split; [exact H|].
  exact (proj1 (proj2 (proj2 (proj2 (AddContract_atomic {[1; 2]} second_fails [(1, x01); (2, x02)] [x20] 0 (New {[1; 2]}) _ (rtc_refl _ _) H))))).
Defined.

Lemma Rescale_spec_witness : Rescale (Some (Rescale (Some 125) 2 6)) 6 2 = 125.
Proof. exact (proj1 (Rescale_spec 125 2 6 ltac:(lia))). Defined.

(** ** The HTTP client *)

(** A server that is rate limited for five seconds, then answers. *)
Definition limited_response : Response :=
  {| StatusCode := 429; resp_Header := header_Set "Retry-After" "5" ∅; Body := "slow down"; body_err := None; close_err := None |}.

#[export] Instance toy_http : HttpEnv := {
  env_limiter _ := None;
  env_exchange i _ := if (i =? 0)%nat then Ok limited_response
    else Ok {| StatusCode := 200; resp_Header := ∅; Body := "done"; body_err := None; close_err := None |};
  env_parent_done _ := false;
  env_cancelled _ := None;
  env_clock _ := 0;
  http_ParseTime _ := None;
}.

Definition a_transport : Transport := fst (BuildClient (SetAuth "X-Key" "k" NewClientBuilder)).
Definition a_request : Request := {| req_Header := ∅ |}.

Lemma attempt_status_witness :
  attempt a_transport a_request 0 = Err (rateLimited (statusError 429 "slow down" 5000000000), true, 5000000000) /\
  ~ (200 <= StatusCode limited_response < 300).
Proof.
  assert (E : attempt a_transport a_request 0 = Err (rateLimited (statusError 429 "slow down" 5000000000), true, 5000000000)) by run.
  split; [exact E|]. pose proof (attempt_status a_transport a_request 0 limited_response eq_refl eq_refl) as H.
  rewrite E in H. exact (proj1 H).
Defined.
