(* ===== verification/PgWitnesses.v ===== *)
(** * Witnesses for the PostgreSQL provider

    A small table: one queued transaction, then signed, with an attempt. *)
From stdpp Require Import gmap.
From Stdlib Require Import Ascii Strings.Byte.
From S2P Require Import ToyCodec.
Local Open Scope Z_scope.

Ltac run := match goal with |- _ = ?b => vm_cast_no_check (@eq_refl _ b) end.

Definition pg_tx : Transaction :=
  {| tx_ID := "a"; tx_IntentID := Some "intent"; tx_OperationKey := Some "op"; tx_PayloadHash := Some "hash"; tx_ChainID := 1;
     tx_Sender := x01; tx_Address := x02; tx_Data := [x10]; tx_Value := Some 5; tx_GasLimit := 21000;
     tx_RawAuthorizations := [tt]; tx_AssignedNonce := None; tx_Tx := None; tx_Receipt := None;
     tx_Status := PendingTxStatus; tx_Msg := ""; tx_NextActionAt := 10; tx_BroadcastPending := false;
     tx_RejectedAttemptHash := None; tx_NonceConsumedAt := None; tx_NotifiedAt := None;
     tx_NotificationAttempts := 0; tx_NextNotificationAt := 10; tx_NotificationError := ""; tx_UpdatedAt := 10;
     tx_CreatedAt := 10 |}.

Definition pg_signed : Transaction :=
  set_Status ConfirmingTxStatus (set_AssignedNonce (Some 7) (set_Tx (Some x42) (set_RejectedAttemptHash (Some (Hash_Hex x41)) pg_tx))).

Definition pg_empty : pgState := {| transactions := ∅; transaction_attempts := []; advisory_locks := ∅ |}.

Lemma pg_empty_wf : pg_wf pg_empty.
Proof. split; [intros id row; cbn [transactions pg_empty]; by rewrite lookup_empty|by intros row E%not_elem_of_nil]. Qed.

Definition fields_of (tx : Transaction) : gmap string SqlValue := match transactionToTxModel tx with Ok f => f | Err _ => ∅ end.

Lemma pg_tx_fields : transactionToTxModel pg_tx = Ok (fields_of pg_tx).
Proof. run. Qed.
Lemma pg_signed_fields : transactionToTxModel pg_signed = Ok (fields_of pg_signed).
Proof. run. Qed.

Lemma pg_tx_storable : storable pg_tx.
Proof. split; [by eexists|done]. Qed.
Lemma pg_signed_storable : storable pg_signed.
Proof. split; [by eexists|]. change (tx_RejectedAttemptHash pg_signed) with (Some (Hash_Hex x41)). apply normalizedHash_Hash_Hex. Qed.

Lemma pg_tx_admissible : admissible pg_tx pg_empty.
Proof.
  split; [exact pg_tx_storable|exists (fields_of pg_tx); split; [exact pg_tx_fields|run]|].
  intros old E. unfold pg_rows in E. cbn [transactions pg_empty] in E. by rewrite omap_empty, lookup_empty in E.
Qed.

(** The table after queueing. *)
Definition pg_one : pgState := snd (InsertOrGet NewTransactionsQ pg_tx pg_empty).

Lemma pg_one_wf : pg_wf pg_one.
Proof. exact (proj1 (InsertOrGet_view NewTransactionsQ pg_tx pg_empty pg_empty_wf pg_tx_admissible eq_refl)). Qed.

Lemma pg_one_row : pg_rows pg_one !! "a" = Some pg_tx.
Proof. run. Qed.

Lemma pg_signed_admissible : admissible pg_signed pg_one.
Proof.
  split; [exact pg_signed_storable|exists (fields_of pg_signed); split; [exact pg_signed_fields|run]|].
  intros old E. change (tx_ID pg_signed) with "a" in E. rewrite pg_one_row in E. injection E as <-. by split.
Qed.

Lemma row_roundtrip_witness :
  transactionToTxModel pg_tx = Ok (fields_of pg_tx) /\ load_tx (fields_of pg_tx ∪ schema_default) = Ok pg_tx.
Proof.
  split; [exact pg_tx_fields|]. exact (row_roundtrip pg_tx _ schema_default pg_tx_fields pg_tx_storable (over_default pg_tx)).
Defined.

(** The signed transaction replaces the queued one; queueing it again finds the
    row of its operation key. *)
Lemma pg_writes_refine_witness :
  pg_wf pg_one /\ fst (UpdateIfActive pg_signed pg_one) = Ok tt /\
  pg_rows (snd (UpdateIfActive pg_signed pg_one)) = <["a" := pg_signed]> (pg_rows pg_one).
Proof.
  split; [exact pg_one_wf|]. split; [run|].
  assert (Hn : coerce (notification_fields pg_signed) = Ok (notification_fields pg_signed)) by run.
  assert (Ha : pg_active (tx_ID pg_signed) pg_one = true) by run.
  destruct (pg_writes_refine pg_signed pg_one pg_one_wf pg_signed_admissible Hn) as [H _]. revert H. rewrite Ha.
  destruct (UpdateIfActive pg_signed pg_one) as [r s']. intros (_ & H & _). exact H.
Defined.

Definition pg_query : Query :=
  {| qr_filters := [Provider.FilterByChainIds [1]; Provider.FilterReadyBefore 10]; qr_order := orderLaneWork; qr_limit := 20 |}.

Lemma pg_reads_refine_witness :
  Select (build_query pg_query NewTransactionsQ) pg_one = Ok [pg_tx] /\
  exists l, l ≡ₚ (map_to_list (pg_rows pg_one)).*2 /\
    Select (build_query pg_query NewTransactionsQ) pg_one =
      Ok (limit_rows 20 (sort_stable compareLaneWork (List.filter (query_holds pg_query) l))).
Proof.
  split; [run|]. assert (Hc : forall x y, @collate codec_schema x y = String.compare x y) by (intros; reflexivity).
  destruct (pg_reads_refine pg_query NewTransactionsQ pg_one pg_one_wf Hc) as (l & Hl & H & _).
  exists l. split; [exact Hl|exact H].
Defined.

Definition pg_attempt : TransactionAttempt :=
  {| at_TransactionID := "a"; at_Hash := x42; at_Nonce := 7; at_Tx := Some x42; at_CreatedAt := 11 |}.
Definition attempt_fields : gmap string SqlValue := match attemptToModel pg_attempt with Ok f => f | Err _ => ∅ end.

Lemma pg_attempts_refine_witness :
  fst (InsertAttempt pg_attempt pg_one) = Ok tt /\
  SelectAttempts "a" (snd (InsertAttempt pg_attempt pg_one)) = Ok [pg_attempt] /\
  pg_rows (snd (InsertAttempt pg_attempt pg_one)) = pg_rows pg_one.
Proof.
  assert (Hf : attemptToModel pg_attempt = Ok attempt_fields) by run.
  assert (Hc : coerce attempt_fields = Ok attempt_fields) by run.
  split; [run|]. split; [run|]. exact (proj1 (proj2 (pg_attempts_refine pg_attempt pg_one attempt_fields pg_one_wf Hf Hc))).
Defined.

Definition lane_sender : @Address codec_geth := x01.

(** A worker locks a lane and unlocks it, and a second worker locks it. *)
Definition lane_held : lane_holder := mkHolder (lane_sender, 1) (taken_lock lane_sender 1).
Definition lane_released : lane_holder := mkHolder (lane_sender, 1) (mkLock (laneLockKey lane_sender 1) true None).
Definition lane_locked : pgState := snd (TryLockLane lane_sender 1 pg_one).

Lemma chain_one : is_u64 1.
Proof. done. Qed.

Lemma second_worker_reached : rtc lane_step (pg_one, []) (lane_locked, [lane_released; lane_held]).
Proof.
  eapply rtc_l; [apply (lane_taken lane_sender 1 pg_one lane_locked); [done|run]|].
  eapply rtc_l; [apply (lane_unlock 0 lane_held None (h_lock lane_released) lane_locked pg_one [lane_held]); [done|run]|].
  apply rtc_once. apply (lane_taken lane_sender 1 pg_one lane_locked [lane_released]); [done|run].
Qed.

(** The first worker's second unlock changes nothing, a third worker is refused,
    and has the lane once the second unlocks. *)
Lemma pg_lane_exclusive_witness :
  rtc lane_step (pg_one, []) (lane_locked, [lane_released; lane_held]) /\
  fst (TryLockLane lane_sender 1 lane_locked) = false /\
  snd (Unlock (h_lock lane_released) lane_locked) = lane_locked /\
  let '(err, _, s') := Unlock (h_lock lane_held) lane_locked in
  err = None /\ fst (TryLockLane lane_sender 1 s') = true.
Proof.
  destruct (pg_lane_exclusive pg_one lane_locked [lane_released; lane_held] eq_refl second_worker_reached) as (_ & Htry & Hunlock).
  split; [exact second_worker_reached|]. split; [|split].
  - specialize (Htry lane_sender 1 chain_one). destruct (TryLockLane lane_sender 1 lane_locked) as [[] s']; [|reflexivity].
    destruct (Htry 1%nat lane_held eq_refl eq_refl eq_refl).
  - specialize (Hunlock 0%nat lane_released eq_refl). destruct (Unlock (h_lock lane_released) lane_locked) as [[err l] s'].
    destruct Hunlock as (_ & _ & _ & _ & Hs). exact Hs.
  - specialize (Hunlock 1%nat lane_held eq_refl). destruct (Unlock (h_lock lane_held) lane_locked) as [[err l] s'].
    destruct Hunlock as (He & _ & _ & _ & Hf). exact (conj He Hf).
Defined.
