(* ===== verification/HyperWitnesses.v ===== *)
(** * Witnesses for Hyperliquid

    A unary stand-in for MessagePack over the bytes of [ToyCodec], and the
    theorems of [HyperAction] applied to a request with a vault and an expiry. *)
From Stdlib Require Import Ascii Strings.Byte.
From S2P Require Import ToyCodec Precompiles HyperAction Explorer.
Local Open Scope Z_scope.

Ltac run := match goal with |- _ = ?b => vm_cast_no_check (@eq_refl _ b) end.

Definition unary_bytes (n : nat) : bytes := replicate n x01 ++ [x00].

#[export] Instance toy_actions : ActionCodec := {
  OtherAction := nat;
  msgpack_Encode a := match a with AOther n => Ok (unary_bytes n) | AOrder _ => Ok [x02] | ACancel _ => Ok [x03] end;
  msgpack_value b := b = [x02] \/ b = [x03] \/ exists n, b = unary_bytes n;
  Address_Bytes := zeros_then 19;
  SigToAddress _ signature := Ok (last_byte signature);
}.

Lemma unary_bytes_inj n k u v : unary_bytes n ++ u = unary_bytes k ++ v -> n = k.
Proof. revert k. induction n as [|n IH]; intros [|k] E; simpl in E; try done. injection E as E. f_equal. by apply IH. Qed.

Lemma hex_value_lower c : is_hex c = true -> hex_value (if byte_in 65 90 c then ascii_of_N (byte_N c + 32) else c) = hex_value c.
Proof.
  destruct (byte_in 65 90 c) eqn:E; [|done]. unfold is_hex, hex_value, byte_in, byte_N in *. intros H.
  rewrite N_ascii_embedding by lia. repeat case_match; try done; try lia; simplify_eq; f_equal; lia.
Qed.

Lemma DecodeString_lower n : forall s, (slen s < n)%nat -> sforall is_hex s = true -> DecodeString (ToLower_ascii s) = DecodeString s.
Proof.
  induction n as [|n IH]; intros [|a [|b s]] Hn Hs; try done; [simpl in Hn; lia..|].
  cbn [sforall] in Hs. apply andb_true_iff in Hs as [Ha [Hb Hs]%andb_true_iff]. cbn [ToLower_ascii DecodeString].
  rewrite !hex_value_lower, IH; [done|simpl in Hn; lia|done..].
Qed.

#[export] Instance toy_action_laws : ActionCodecLaws.
Proof.
  split.
  - intros x y u v; simpl. intros [->|[->|[n ->]]] [->|[->|[k ->]]] E; try done; try (by destruct n); try (by destruct k).
    by apply unary_bytes_inj in E as ->.
  - intros [|?|n] x; simpl; [|intros _ [= <-]; auto|done]. intros _ [= <-]. by left.
  - intros a b E. by apply (f_equal last_byte) in E.
  - done.
  - intros s [[(t & ->)%HasPrefix_cons2 _]%andb_true_iff H]%andb_true_iff. cbn [sdrop] in H. simpl. unfold last_hex.
    cbn [ToLower_ascii]. change (if byte_in 65 90 "0"%char then _ else "0"%char) with "0"%char.
    change (if byte_in 65 90 "x"%char then _ else "x"%char) with "x"%char. cbn [HasPrefix sdrop].
    assert (Hp : forall r, HasPrefix r "" = true) by (by intros []). rewrite !Hp. simpl. by rewrite (DecodeString_lower (S (slen t))) by done || lia.
Qed.

Definition vault_text : string := " 0x00000000000000000000000000000000000000Ab ".

Definition an_envelope : SignedEnvelope :=
  {| e_Action := "{}"; e_Nonce := 1700000000000; e_Signature := replicate 64 x05 ++ [x01]; e_VaultAddress := vault_text;
     e_ExpiresAfter := Some 1700000060000 |}.

Definition request_of (e : SignedEnvelope) : ExchangeRequest :=
  match NewExchangeRequest e with
  | Ok r => r
  | Err _ => {| r_Action := ""; r_Nonce := 0; r_Signature := {| sig_R := ""; sig_S := ""; sig_V := 0 |}; r_VaultAddress := None; r_ExpiresAfter := None |}
  end.

Lemma envelope_roundtrip_witness :
  NewExchangeRequest an_envelope = Ok (request_of an_envelope) /\ sig_V (r_Signature (request_of an_envelope)) = 28 /\
  exists decoded, DecodeEnvelope (Some (request_of an_envelope)) = Ok decoded /\ e_Nonce decoded = 1700000000000.
Proof.
  assert (H : NewExchangeRequest an_envelope = Ok (request_of an_envelope)) by run. split; [exact H|]. split; [run|].
  destruct (envelope_roundtrip an_envelope (request_of an_envelope) H) as (d & Hd & _ & Hn & _).
  - cbn [e_Nonce an_envelope]. lia.
  - intros t [= <-]. lia.
  - exists d. exact (conj Hd Hn).
Defined.

Definition an_action : Action (@OtherAction codec_geth toy_actions) := AOther 3%nat.

Definition connection : Hash := match ConnectionID an_action 5 vault_text (Some 9) [Some 100] with Ok h => h | Err _ => x00 end.
Definition digest : bytes := match AgentDigest connection "a" with Ok d => d | Err _ => [] end.

Lemma an_action_value x : msgpack_Encode an_action = Ok x -> msgpack_value x.
Proof. intros [= <-]. right. right. by exists 3%nat. Qed.

(** The vault written in two ways. *)
Lemma action_digest_binds_witness :
  ConnectionID an_action 5 vault_text (Some 9) [Some 100] = Ok connection /\ AgentDigest connection "a" = Ok digest /\
  let p v := connection_preimage (unary_bytes 3) 5 (vault_account v) (Some 9) in
  digest = Keccak (typed_message (agent_struct "a" (p vault_text))) /\
  (vault_account vault_text = vault_account (ToLower_ascii vault_text) \/ collide (p vault_text) (p (ToLower_ascii vault_text)) \/
   collide (text_bytes "a") (text_bytes "a") \/
   collide (agent_struct "a" (p vault_text)) (agent_struct "a" (p (ToLower_ascii vault_text))) \/
   collide (typed_message (agent_struct "a" (p vault_text))) (typed_message (agent_struct "a" (p (ToLower_ascii vault_text))))).
Proof.
  assert (H : ConnectionID an_action 5 vault_text (Some 9) [Some 100] = Ok connection) by run.
  assert (H' : ConnectionID an_action 5 (ToLower_ascii vault_text) (Some 9) [] = Ok connection) by run.
  assert (D : AgentDigest connection "a" = Ok digest) by run.
  split; [exact H|]. split; [exact D|]. cbv zeta.
  destruct (action_digest_binds an_action 5 vault_text (Some 9) "a" [Some 100] an_action 5 (ToLower_ascii vault_text) (Some 9) "a" []
    connection connection digest an_action_value an_action_value ltac:(lia) ltac:(lia) ltac:(intros ? [= <-]; lia) ltac:(intros ? [= <-]; lia) H D H' D)
    as (x & x' & [= <-] & [= <-] & Ed & [(_ & _ & E & _)|C]); (split; [exact Ed|]); [left; exact E|right; exact C].
Defined.

(** ** The explorer *)

#[export] Instance toy_json_errors : JsonErrors := { unmarshal_error _ type := errors_New ("json: cannot unmarshal into " +:+ type) }.

#[export] Instance toy_geth_json : GethJson := {
  Address_UnmarshalJSON v := match v with JString s => Ok (last_hex s) | v => Err (unmarshal_error v "common.Address") end;
  Hash_UnmarshalJSON v := match v with JString s => Ok (last_hex s) | v => Err (unmarshal_error v "common.Hash") end;
}.

(** A transfer, and an action the package does not know. *)
Definition json_transfer : json :=
  JObject [("type", JString "SystemUsdClassTransferAction"); ("ntl", JNumber "5000000"); ("toPerp", JBool true)].
Definition json_tx (hash : string) (action error : json) : json :=
  JObject [("time", JNumber "1700000000000"); ("user", JString "0x11"); ("action", action); ("block", JNumber "42");
           ("hash", JString hash); ("error", error)].
Definition json_block : json :=
  JObject [("blockTime", JNumber "1700000000000"); ("hash", JString "0x77"); ("height", JNumber "42"); ("numTxs", JNumber "2");
    ("txs", JArray [json_tx "0x01" json_transfer JNull; json_tx "0x02" (JObject [("type", JString "noop")]) (JString "rejected")])].
Definition json_answer : result PostError json := Ok (JObject [("type", JString "blockDetails"); ("blockDetails", json_block)]).

Definition a_block : L1BlockDetails :=
  match BlockDetails json_answer 42 with
  | Ok b => b
  | Err _ => {| b_BlockTime := 0; b_Hash := x00; b_Height := 0; b_NumTransactions := 0; b_Transactions := None |}
  end.

Lemma explorer_sound_witness :
  BlockDetails json_answer 42 = Ok a_block /\ b_NumTransactions a_block = 2 /\ exists transactions, consistent a_block transactions.
Proof.
  assert (H : BlockDetails json_answer 42 = Ok a_block) by run. split; [exact H|]. split; [run|].
  destruct (proj1 (explorer_sound json_answer) 42 a_block H) as (_ & data & v & ts & es & _ & _ & _ & Hc & _). by exists ts.
Defined.

(** ** Two precompiles in one call

    A codec of its own: the answer of the aggregate is the margin's 128 bytes and
    the balance's 96, a signed word is its unsigned reading reduced. *)
Definition int64_of (z : Z) : Z := (z + 2 ^ 63) mod 2 ^ 64 - 2 ^ 63.
Definition word_at (i : nat) (data : bytes) : Z := SetBytes (take 32 (drop (32 * i) data)).

#[local] Instance pair_abi : Abi := {
  Unpack tys data :=
    match tys with
    | [T_slice (T_tuple [T_bool; T_bytes])] =>
        Ok [V_slice [V_tuple [V_bool true; V_bytes (take 128 data)]; V_tuple [V_bool true; V_bytes (drop 128 data)]]]
    | [T_int64; T_uint64; T_uint64; T_int64] =>
        Ok [V_int64 (int64_of (word_at 0 data)); V_uint64 (word_at 1 data); V_uint64 (word_at 2 data); V_int64 (int64_of (word_at 3 data))]
    | _ => @Unpack _ codec_abi tys data
    end;
  Pack tys vs :=
    match vs with
    | [V_slice [V_tuple [V_bool true; V_bytes a]; V_tuple [V_bool true; V_bytes b]]] => Ok (a ++ b)
    | [V_slice [V_tuple [V_address _; V_bool true; V_bytes a]; V_tuple [V_address _; V_bool true; V_bytes b]]] => Ok (a ++ b)
    | [V_int64 a; V_uint64 b; V_uint64 c; V_int64 d] => Ok (word (a mod 2 ^ 64) ++ word b ++ word c ++ word (d mod 2 ^ 64))
    | _ => @Pack _ codec_abi tys vs
    end;
  HexToAddress := @HexToAddress _ codec_abi;
  BytesToAddress := @BytesToAddress _ codec_abi;
  Keccak256Hash := @Keccak256Hash _ codec_abi;
  Hash_Bytes := @Hash_Bytes _ codec_abi;
  hash_zero := @hash_zero _ codec_abi;
}.

#[local] Instance pair_laws : @AbiLaws _ pair_abi.
Proof.
  split. intros tys data vs. cbn [Unpack pair_abi]. pose proof (@Unpack_typed _ codec_abi codec_laws tys data vs) as H.
  repeat case_match; intros E; try (by apply H); simplify_eq; repeat constructor.
Qed.

Definition pair_answer : bytes := word (2 ^ 64 - 7) ++ word 8 ++ word 9 ++ word 10 ++ word 11 ++ word 12 ++ word 13.
Definition pair_caller : EthCaller :=
  {| ctx_Err := None;
     CallContract := Some (fun target _ => if bool_decide (target = Multicall3Address) then Ok pair_answer else Err (errors_New "reverted")) |}.
Definition pair_read : MarginAndSpot :=
  {| ms_Margin := {| AccountValue := -7; MarginUsed := 8; NtlPos := 9; RawUsd := 10 |};
     ms_Spot := {| Precompiles.Total := 11; Hold := 12; EntryNtl := 13 |} |}.

Lemma ReadMarginAndSpot_exact_witness :
  ReadMarginAndSpot pair_caller 0 x11 5 = Val pair_read /\
  exists out margin spot, encodes aggregate3Outputs 0 (pair_values margin spot) out /\ length spot = 96%nat.
Proof.
  assert (H : ReadMarginAndSpot pair_caller 0 x11 5 = Val pair_read) by run. split; [exact H|].
  destruct (proj1 (ReadMarginAndSpot_exact pair_caller 0 x11 5 pair_read) H) as (si & out & m & s & _ & _ & Ho & _ & Hs).
  exists out, m, s. split; [exact Ho|]. destruct Hs as [[Hs|Hs] _]; [discriminate Hs|exact Hs].
Defined.
