(* ===== verification/ApiWitnesses.v ===== *)
(** * Witnesses for the API clients

    Concrete runs of the API clients, and the theorems about
    them applied there. *)
From Stdlib Require Import Ascii SpecFloat Strings.Byte.
From S2P Require HttpClient ToyCodec FrankfurterSafety PolymarketSafety MerklSafety Sec YahooSafety Webhook AddressText PartnerSafety Prices.
From S2P Require Import Json Decimal Errors Exchange.
Local Open Scope Z_scope.
Local Open Scope go_scope.

Ltac run := match goal with |- _ = ?b => vm_cast_no_check (@eq_refl _ b) end.

#[export] Instance api_unicode : UnicodeTables := { unicode_ToLower s := ""; unicode_ToUpper s := s; unicode_EqualFold := String.eqb; strconv_Quote s := s }.
#[export] Instance api_json_errors : JsonErrors := { unmarshal_error _ type := errors_New ("json: cannot unmarshal into " +:+ type) }.

Definition ok_response (body : string) : HttpResponse := mkResponse 200 (fun _ => "") body None.
Definition status_response (status : Z) : HttpResponse := mkResponse status (fun _ => "") "" None.

(** ** SEC *)

Module Sec.
Import Sec.
Local Open Scope Z_scope.

Definition ticker (cik : Z) (name : string) : json := JObject [("cik_str", JNumber (pretty cik)); ("ticker", JString name)].
Definition value (from to filed : string) : json :=
  JObject [("start", JString from); ("end", JString to); ("val", JNumber "15"); ("form", JString "10-k"); ("filed", JString filed)].
Definition facts : json :=
  JObject [("cik", JString "0000000320"); ("facts", JObject [
    ("dei", JObject [("EntityCommonStockSharesOutstanding", JObject [("units", JObject [("shares", JArray [
       value "" "2024-03-31" "2024-04-01"; value "" "2024-06-30" "2024-07-01"; value "" "never" "2025-01-01"])])])]);
    ("us-gaap", JObject [("WeightedAverageNumberOfDilutedSharesOutstanding", JObject [("units", JObject [("SHARES", JArray [
       value "2024-01-01" "2024-06-30" "2024-07-01"; value "2024-04-01" "2024-06-30" "2024-07-01"])])])])])].

#[local] Instance stream : JsonStream := {
  json_next s := Some (Ok (if String.eqb s "tickers" then JObject [("0", ticker 0 "none"); ("1", ticker 320 " aapl ")] else facts, ""));
}.

(** The tickers, then the facts. *)
Definition answers (n : nat) : reply := mkReply None None (Ok (ok_response (if (n =? 0)%nat then "tickers" else "facts"))) 0.
Definition agent_client : client := mkClient "agent" "https://data.test" "https://www.test" None None None.
Definition apple := GetEquityFacts answers agent_client some_order " aapl" None [].

Definition summary (r : result SecError EquityFacts) : option (Z * string * option string * option string * option string) :=
  match r with
  | Ok e => Some (e_CIK e, e_Ticker e, fv_End <$> e_SharesOutstanding e, fv_Start <$> e_DilutedWeightedAverageShares e, fv_End <$> e_PublicFloatUSD e)
  | Err _ => None
  end.

Lemma apple_runs :
  summary apple.1.1 = Some (320, "AAPL", Some "2024-06-30", Some "2024-04-01", None) /\
  rq_URL <$> apple.2 = ["https://www.test/files/company_tickers.json"; "https://data.test/api/xbrl/companyfacts/CIK0000000320.json"].
Proof. split; run. Qed.

Definition duration_values : list FactValue :=
  [mkFact "2024-01-01" "2024-06-30" float_one "" None "" "10-K" "2024-07-01" ""; mkFact "2024-04-01" "2024-06-30" float_one "" None "" "10-K" "2024-07-01" ""].
Definition some_facts : CompanyFacts := mkFacts 1 "" {["us-gaap" := {["T" := mkCompanyFact "" "" {["shares" := duration_values]}]}]}.

Lemma latest_facts_greatest_witness :
  (forall f, f ∈ factValues some_order some_facts "us-gaap" "T" "shares" -> duration f = true -> 0 < factDurationDays f) /\
  greatest duration betterDurationFact (factValues some_order some_facts "us-gaap" "T" "shares") (latestDurationFact some_order some_facts "us-gaap" "T" "shares") /\
  fv_Start <$> latestDurationFact some_order some_facts "us-gaap" "T" "shares" = Some "2024-04-01".
Proof.
  assert (H : forall f, f ∈ factValues some_order some_facts "us-gaap" "T" "shares" -> duration f = true -> 0 < factDurationDays f).
  { assert (E : forallb (fun f => 0 <? factDurationDays f) (factValues some_order some_facts "us-gaap" "T" "shares") = true) by run.
    rewrite forallb_forall in E. intros f Hf _. apply Z.ltb_lt, E. by apply list_elem_of_In. }
  split; [exact H|]. split; [|run].
  exact (proj2 (latest_facts_greatest some_order some_facts "us-gaap" "T" "shares") H).
Defined.

Lemma GetEquityFacts_spec_witness : cache_ok None /\ apple.2 = [] ++ equity_requests agent_client " aapl" None apple.1.2.
Proof.
  split; [done|]. pose proof (GetEquityFacts_spec answers agent_client some_order " aapl" None [] I) as H. fold apple in H.
  destruct apple as [[r s] log]. exact (proj1 (proj2 (proj2 H))).
Defined.
End Sec.

(** ** Yahoo *)

Module Yahoo.
Import YahooSafety.
Local Open Scope Z_scope.

(** Statistics come for the second session only. *)
Definition summary : json := JObject [("quoteSummary", JObject [("result", JArray [JObject [
  ("price", JObject [("symbol", JString "aapl"); ("exchangeName", JString "Nasdaq")]);
  ("defaultKeyStatistics", JObject [("floatShares", JNumber "15")])]])])].
#[local] Instance stream : JsonStream := { json_next _ := Some (Ok (summary, "")) }.

Definition got (resp : HttpResponse) : reply := mkReply None (Ok resp).
Definition new_crumb (body : string) : bootstrap := mkBootstrap (got (status_response 404)) true (got (ok_response body)).
Definition network (crumb : string) (n : Z) : answer :=
  mkAnswer None None (new_crumb crumb) (fun _ => got (if n =? 200 then ok_response "" else status_response n)).
Definition cancelled : answer :=
  mkAnswer None None (mkBootstrap (mkReply None (Err (mkTransportError ContextCanceled_v None))) false (got (ok_response ""))) (fun _ => got (ok_response "")).
Definition yahoo_client : client := (New []).1.

Inductive event := ECall (symbol : string) | EMove (i : nat) (a : answer).
Definition exec (y : system) (e : event) : option system :=
  match e with
  | ECall symbol => Some (mkSystem (sys_shared y) (calls y ++ [GetShareStatistics symbol]))
  | EMove i a => p ← calls y !! i; '(s, p') ← step yahoo_client a (sys_shared y) p; Some (mkSystem s (<[i := p']> (calls y)))
  end.
Definition exec_all (l : list event) : option system := foldl (fun r e => y ← r; exec y e) (Some (mkSystem noShared [])) l.

Lemma exec_reachable l y : exec_all l = Some y -> reachable yahoo_client y.
Proof.
  unfold exec_all. revert y. induction l as [|e l IH] using rev_ind; intros y; [intros [= <-]; constructor|].
  rewrite foldl_app. cbn [foldl]. intros (z & Hz%IH & He)%bind_Some. eapply R_step; [exact Hz|]. destruct e as [symbol|i a].
  - injection He as <-. constructor.
  - apply bind_Some in He as (p & Hp & ([s p'] & Hs & [= <-])%bind_Some). by econstructor.
Qed.

(** Two calls share one bootstrap; the first is refused and fetches again. *)
Definition shared_run : list event :=
  [ECall "aapl"; ECall "msft"; EMove 0 (network "c1" 401); EMove 0 (network "c1" 401); EMove 1 (network "c1" 401); EMove 1 (network "c1" 401);
   EMove 0 (network "c1" 401); EMove 0 (network "c1" 401); EMove 0 (network "c1" 401); EMove 0 (network "c1" 401); EMove 0 (network "c1" 401)].
Definition rest : list event :=
  [EMove 0 (network "c2" 200); EMove 0 (network "c2" 200); EMove 0 (network "c2" 200); EMove 1 (network "c2" 200); EMove 1 (network "c2" 200)].
Definition at_ (l : list event) : system := match exec_all l with Some y => y | None => mkSystem noShared [] end.
Definition symbols (y : system) : list (option string) :=
  (fun p => match p with PDone (Ok s) => Some (ss_Symbol s) | _ => None end) <$> calls y.

Lemma shared_runs :
  symbols (at_ (shared_run ++ rest)) = [Some "AAPL"; Some "AAPL"] /\ session (sys_shared (at_ (shared_run ++ rest))) = mkSession "c2" 2 /\
  length (attempts (sys_shared (at_ (shared_run ++ rest)))) = 2%nat.
Proof. split; [run|split; run]. Qed.

Lemma at_reachable l : exec_all l <> None -> reachable yahoo_client (at_ l).
Proof. unfold at_. destruct (exec_all l) eqn:E; [intros _; by eapply exec_reachable|done]. Qed.

Lemma share_session_safe_witness : Z.of_nat (length (attempts (sys_shared (at_ shared_run)))) < 2 ^ 64 /\
  (crumb (session (sys_shared (at_ (shared_run ++ rest)))) <> "" -> valid_crumb (crumb (session (sys_shared (at_ (shared_run ++ rest))))) = true).
Proof.
  split; [by vm_compute|]. assert (R : reachable yahoo_client (at_ (shared_run ++ rest))).
  { apply at_reachable. assert (H : option_map (fun _ => tt) (exec_all (shared_run ++ rest)) = Some tt) by run.
    destruct (exec_all (shared_run ++ rest)); [done|discriminate H]. }
  assert (Hb : Z.of_nat (length (attempts (sys_shared (at_ (shared_run ++ rest))))) < 2 ^ 64) by (by vm_compute).
  exact (proj2 (proj2 (share_session_safe yahoo_client _ R Hb))).
Defined.

(** In the middle of the run one call waits for the other, which can go on. *)
Lemma share_calls_return_witness :
  exists i q s q', calls (at_ (take 6 shared_run)) !! i = Some q /\ step yahoo_client (network "c1" 200) (sys_shared (at_ (take 6 shared_run))) q = Some (s, q').
Proof.
  assert (R : reachable yahoo_client (at_ (take 6 shared_run))).
  { apply at_reachable. assert (H : option_map (fun _ => tt) (exec_all (take 6 shared_run)) = Some tt) by run.
    destruct (exec_all (take 6 shared_run)); [done|discriminate H]. }
  assert (Hb : Z.of_nat (length (attempts (sys_shared (at_ (take 6 shared_run))))) < 2 ^ 64) by (by vm_compute).
  refine (proj2 (proj2 (share_calls_return yahoo_client _ R Hb)) (PWait "MSFT" First 0%nat) _ eq_refl (network "c1" 200)).
  apply (list_elem_of_lookup_2 _ 1%nat). run.
Defined.

(** The call that leads is cancelled: the one that waits, whose own context is
    live, fails with it. *)
Definition cancelled_run : list event :=
  [ECall "aapl"; ECall "msft"; EMove 0 cancelled; EMove 0 cancelled; EMove 1 (network "c1" 200); EMove 1 (network "c1" 200);
   EMove 0 cancelled; EMove 0 cancelled; EMove 1 (network "c1" 200)].
Lemma cancelled_leader :
  match calls (at_ cancelled_run) !! 1%nat with Some (PDone (Err e)) => Is (ce_err e) ContextCanceled | _ => false end = true.
Proof. run. Qed.
End Yahoo.

(** ** Witnesses for the exchange-rate client

    Executable runs of the client's calls, the theorem of [FrankfurterSafety]
    applied to one, and a run in which a stale rate replaces a fetched one. *)
Module Frankfurter.
Import ToyCodec FrankfurterSafety.
Local Open Scope Z_scope.

#[export] Instance frankfurter_json_errors : JsonErrors := { unmarshal_error _ type := errors_New ("json: cannot unmarshal into " +:+ type) }.

(** Two bodies: the rates of a day and of the day after. *)
Definition day_one : Z := midnight 20000.
Definition day_two : Z := midnight 20001.
Definition row (date : Z) (rate : string) : json :=
  JObject [("date", JString (FormatDate date)); ("base", JString "eur"); ("quote", JString "USD"); ("rate", JNumber rate)].
#[export] Instance toy_json_text : JsonText := {
  json_parse s := Ok (if String.eqb s "one" then JArray [row day_one "1.25"] else if String.eqb s "two" then JArray [row day_one "1.25"; row day_two "1.5"] else JNull);
}.

(** ** Running the client *)

Section running.
Context `{U : UnicodeTables} `{JE : JsonErrors} `{JT : JsonText}.

Inductive event := ECall (req : RateRequest) | EMove (i : nat) (a : answer).

Definition exec (c : config) (y : system) (e : event) : option system :=
  match e with
  | ECall req => Some (mkSystem (sys_cache y) (calls y ++ [mkCall req (PStart req)]))
  | EMove i a =>
      k ← calls y !! i;
      '(s, p') ← step c a (gate_free y) (sys_cache y) (c_at k);
      Some (mkSystem s (<[i := mkCall (c_req k) p']> (calls y)))
  end.

Definition exec_all (c : config) (l : list event) : option system :=
  foldl (fun r e => y ← r; exec c y e) (Some (mkSystem empty_cache [])) l.

Lemma exec_step c y e y' : exec c y e = Some y' -> sys_step c y y'.
Proof.
  destruct e as [req|i a]; [intros [= <-]; constructor|]. cbn [exec].
  intros ([req p] & Hi & ([s p'] & Hs & [= <-])%bind_Some)%bind_Some. by econstructor.
Qed.

Lemma exec_all_reachable c l : match exec_all c l with Some y => reachable c y | None => True end.
Proof.
  unfold exec_all. induction l as [|e l IH] using rev_ind; [constructor|]. rewrite foldl_app. cbn [foldl].
  destruct (foldl _ _ l) as [y|]; [|done]. cbn [mbind option_bind]. destruct (exec c y e) as [y'|] eqn:E; [|done].
  eapply R_step; [done|by eapply exec_step].
Qed.

End running.

Definition good (body : string) (_ : string) : reply := mkReply None None (Ok (mkResponse 200 (fun _ => "") body None)).
Definition down (_ : string) : reply := mkReply None None (Err (errors_New "connection refused")).
Definition at_time (now : Z) (get : string -> reply) : answer := mkAnswer now None None some_order get.
Definition moves (i n : nat) (a : answer) : list event := replicate n (EMove i a).

Definition client_config : config := New [Some (WithQuotes [" usd"; "gbp"; "USD"])].
Definition usd (date : Z) : RateRequest := {| Base := " eur "; Quote := "usd"; EffectiveAt := date |}.
Definition gbp (date : Z) : RateRequest := {| Base := "EUR"; Quote := "GBP"; EffectiveAt := date |}.

(** The day before is fetched; the next day's request for another quote fails and
    is remembered; then a call that saw the failure pauses while another, after
    the failure has expired, fetches the day's rate, and resumes. *)
Definition noon : Z := day_two + 12 * 3600 * nanosPerSecond.
Definition later : Z := noon + 301 * nanosPerSecond.
Definition before_resume : list event :=
  [ECall (usd day_one)] ++ moves 0 10 (at_time noon (good "one")) ++
  [ECall (gbp day_two)] ++ moves 1 9 (at_time noon down) ++
  [ECall (usd day_two)] ++ moves 2 3 (at_time noon down) ++
  [ECall (usd day_two)] ++ moves 3 10 (at_time later (good "two")).
Definition resume : list event := moves 2 2 (at_time later down).

Definition system_of (l : list event) : system := match exec_all client_config l with Some y => y | None => mkSystem empty_cache [] end.


Lemma GetRate_sound_witness : exec_all client_config before_resume <> None /\
  (size (ratesByDate (sys_cache (system_of before_resume))) <= maxCacheDays client_config)%nat /\ (holders (system_of before_resume) <= 1)%nat.
Proof.
  assert (Hr : reachable client_config (system_of before_resume)).
  { unfold system_of. pose proof (exec_all_reachable client_config before_resume) as H. destruct (exec_all client_config before_resume); [exact H|constructor]. }
  split; [|split].
  - assert (H : option_map (fun _ => true) (exec_all client_config before_resume) = Some true) by run.
    destruct (exec_all client_config before_resume); discriminate.
  - exact (proj1 (proj2 (proj2 (GetRate_sound client_config _ Hr)))).
  - exact (proj2 (proj2 (proj2 (GetRate_sound client_config _ Hr)))).
Defined.

(** ** A stale rate over a fetched one *)

(** What a call returned, without the date: whether it is stale, and its rate. *)
Definition returned (k : call) : option (bool * float64) :=
  match c_at k with PDone _ (Ok r) => Some (r_Stale r, r_Value r) | _ => None end.
Definition cached_usd (y : system) : option (bool * float64) :=
  (fun r => (r_Stale r, r_Value r)) <$> cachedRate (sys_cache y) "EUR" day_two "USD".
Definition value_of (text : string) : float64 := default float_zero (ParseFloat text).

(** The last call fetched the day's rate and it was cached as fetched; the paused
    call then replaces it by the previous day's, which every later call for the
    day finds. *)
Lemma stale_overwrites :
  returned <$> calls (system_of before_resume) !! 3%nat = Some (Some (false, value_of "1.5")) /\
  cached_usd (system_of before_resume) = Some (false, value_of "1.5") /\
  cached_usd (system_of (before_resume ++ resume)) = Some (true, value_of "1.25").
Proof. split; [run|split; run]. Qed.
End Frankfurter.

(** ** Runs of the CLOB client

    The vector of the repository's tests for a signed request, and the client's
    operations against a scripted provider. *)
Module Polymarket.
Import HttpClient ToyCodec PolymarketSafety.
Local Open Scope Z_scope.

#[export] Instance clob_json_errors : JsonErrors := { unmarshal_error _ type := errors_New ("json: cannot unmarshal into " +:+ type) }.
#[export] Instance clob_time : TimeJson := { Time_UnmarshalJSON v := match v with JNumber _ => Ok 0 | v => Err (unmarshal_error v "Time") end }.
#[export] Instance clob_url : UrlText := {
  url_Parse s := if HasPrefix s "https://clob.example" then Ok (mkUrl "https" "clob.example" false (sdrop 20 s) "" "") else Err (errors_New "parse");
  url_String u := Scheme u +:+ "://" +:+ Host u +:+ Path u +:+ (if String.eqb (RawQuery u) "" then "" else "?" +:+ RawQuery u);
  http_date _ := None;
}.
#[export] Instance clob_auth : AuthLibrary := {
  auth_address := {| IsHexAddress s := isAddress s |};
  TypedDataAndHash p := Ok (bytes_of (ap_address p +:+ ap_timestamp p +:+ ap_nonce p));
  hexutil_Decode s := match DecodeString (sdrop 2 s) with Some b => Ok b | None => Err (errors_New "hex") end;
  ValidateSignatureValues v _ _ _ := (v =? 0) || (v =? 1);
  SigToAddress digest sig := if Nat.ltb (length sig) 65 then Err (errors_New "recovery failed") else Ok x11;
}.

Definition test_market : string := "0x" +:+ Repeat "b" 64.
Definition test_maker : string := "0x" +:+ Repeat "1" 40.
Definition test_order_id : string := "0x" +:+ Repeat "a" 64.

Definition token_fields : list (string * json) := [("token_id", JString "1"); ("outcome", JString "Yes"); ("price", JNumber "0.5"); ("winner", JBool false)].
Definition token_json : json := JObject token_fields.
Definition market_of (token_json : json) : json := JObject [
  ("accepting_order_timestamp", JNull); ("minimum_order_size", JNumber "1"); ("minimum_tick_size", JNumber "0.01");
  ("condition_id", JString test_market); ("question", JString "Question?"); ("tokens", JArray [token_json]); ("tags", JArray [])].
Definition market_json : json := market_of token_json.
(** A market whose token comes with a book of another token, at a negative price. *)
Definition booked_json : json := market_of (JObject (token_fields ++ [("book", JObject [("asset_id", JString "2");
  ("bids", JArray [JObject [("price", JString "-1"); ("size", JString "0")]]); ("asks", JArray [])])])).
Definition book_json : json := JObject [("market", JString test_market); ("asset_id", JString "1"); ("bids", JArray [
  JObject [("price", JString "0.4"); ("size", JString "10")]]); ("asks", JArray [])].
Definition placement_json : json := JObject [("success", JBool true); ("orderID", JString test_order_id); ("status", JString "LIVE")].

(** The provider's texts: the documents by name. *)
#[export] Instance clob_text : JsonText := { json_parse _ := Err (errors_New "invalid character") }.
#[export] Instance clob_stream : JsonStream := {
  json_next s :=
    if String.eqb s "" then None
    else if String.eqb s "market" then Some (Ok (market_json, "")) else if String.eqb s "book" then Some (Ok (book_json, ""))
    else if String.eqb s "booked" then Some (Ok (booked_json, ""))
    else if String.eqb s "placement" then Some (Ok (placement_json, "")) else if String.eqb s "market market" then Some (Ok (market_json, "market"))
    else Some (Err (errors_New "invalid character"));
}.

Definition response (status : Z) (body : string) : HttpResponse := Exchange.mkResponse status (fun _ => "") body None.
Definition reply_of (r : result GoError HttpResponse) : reply := mkReply None (1700000000 * nanosPerSecond) r None None 0 None.
Definition scripted (l : list HttpResponse) (i : nat) : reply :=
  reply_of (match l !! i with Some r => Ok r | None => Err (errors_New "connection refused") end).

Definition trading : client := mkClient "https://clob.example" defaultTimeout true.
Definition test_credentials : Credentials := mkCredentials test_maker "key" "c2VjcmV0" "phrase".

(** The vector of [TestSetL2HeadersMatchesOfficialGoldenVector]. *)
Example golden_vector :
  match setL2Headers "POST" "/order" ("{" +:+ String "034" "x" +:+ String "034" ":1}") test_credentials (1700000000 * nanosPerSecond) ∅ with
  | Ok h => map (fun key => header_Get key h) ["POLY_TIMESTAMP"; "POLY_SIGNATURE"; "POLY_ADDRESS"; "POLY_API_KEY"; "POLY_PASSPHRASE"]
  | Err _ => []
  end = ["1700000000"; "Uc3z_vcj4K83dnLn8zBFPPSLPInoPi4jixQmfdQDv8s="; test_maker; "key"; "phrase"].
Proof. vm_compute. reflexivity. Qed.

(** ** Runs *)

Definition start_run : run_state := mkRun 0 [].
Definition methods (st : run_state) : list (string * string) := map (fun r => (rq_Method r, rq_URL r)) (sent st).
Definition status_of {A} (r : result ClientError A) : option Z := match r with Ok _ => None | Err e => he_StatusCode <$> ce_http e end.

Definition test_order : SignedOrder :=
  mkSigned (Polymarket.mkOrder 1 x11 x11 "1" "500000" "1000000" OrderSideBuy OrderSignatureTypePoly1271 1700000000000 x00 x00) "0x12" 1700000840 OrderTypeGTD true.

(** A read is tried again after a transient answer, a write is not. *)
Example get_retries :
  let '(r, st) := GetMarket (scripted [response 503 "temporary"; response 200 "market"; response 200 "book"]) trading test_market true start_run in
  (match r with Ok m => map (fun t => option_map ob_AssetID (t_Book t)) (m_Tokens m) | Err _ => [] end, methods st) =
  ([Some "1"], [("GET", "https://clob.example/markets/" +:+ test_market); ("GET", "https://clob.example/markets/" +:+ test_market);
                ("GET", "https://clob.example/book?token_id=1")]).
Proof. vm_compute. reflexivity. Qed.

(** A book that comes inside a market is returned as it came. *)
Example provider_book_unchecked :
  match fst (GetMarket (scripted [response 200 "booked"]) trading test_market false start_run) with
  | Ok m => map (fun t => (t_TokenID t, (fun b => (ob_AssetID b, map l_Price (ob_Bids b))) <$> t_Book t)) (m_Tokens m)
  | Err _ => []
  end = [("1", Some ("2", ["-1"]))].
Proof. vm_compute. reflexivity. Qed.

Example delete_is_sent_once :
  let '(r, st) := CancelOrder (scripted [response 503 "temporary"; response 200 "cancel"]) trading test_credentials test_order_id start_run in
  (status_of r, methods st) = (Some 503, [("DELETE", "https://clob.example/order")]).
Proof. vm_compute. reflexivity. Qed.

Example order_is_placed :
  let '(r, st) := PostOrder (scripted [response 200 "placement"]) trading test_credentials test_order start_run in
  (match r with Ok p => p_OrderID p | Err e => Error (ce_err e) end, methods st) = (test_order_id, [("POST", "https://clob.example/order")]).
Proof. vm_compute. reflexivity. Qed.

(** A rejection, and a failure that is none. *)
Example rejected_or_unknown :
  let fate l := match fst (PostOrder (scripted l) trading test_credentials test_order start_run) with
                | Ok _ => None | Err e => Some (IsDefinitiveSubmissionRejection e) end in
  (fate [response 400 "bad"], fate [response 408 ""], fate [response 502 ""], fate []) = (Some true, Some false, Some false, Some false).
Proof. vm_compute. reflexivity. Qed.

Example two_documents :
  match fst (GetMarket (scripted [response 200 "market market"]) trading test_market false start_run) with
  | Ok _ => "" | Err e => Error (ce_err e) end = "polymarket: response contains multiple JSON values".
Proof. vm_compute. reflexivity. Qed.

(** An error page longer than the limit hides the status: a rejection is then no
    longer recognized as one. *)
Example long_rejection :
  let page := Repeat "x" (Z.to_nat maxErrorBodyBytes + 1) in
  match fst (PostOrder (scripted [response 400 page]) trading test_credentials test_order start_run) with
  | Ok _ => None | Err e => Some (IsDefinitiveSubmissionRejection e) end = Some false.
Proof. vm_compute. reflexivity. Qed.

Definition proof_of : L1Authorization := mkL1 test_maker 1700000000 0 ("0x" +:+ Repeat "0" 130).
Example derive_after_failure :
  let now := 1700000000 * nanosPerSecond in
  map (fun l => methods (snd (CreateOrDeriveCredentials (scripted l) trading now None proof_of start_run))) [[response 500 ""]; [response 403 ""]] =
  [[("POST", "https://clob.example/auth/api-key"); ("GET", "https://clob.example/auth/derive-api-key")];
   [("POST", "https://clob.example/auth/api-key")]].
Proof. vm_compute. reflexivity. Qed.
End Polymarket.

(** ** Witnesses for the Merkl client

    A listing of three pages, the rewards of a user on two chains, and the
    theorems of [MerklSafety] applied to them. *)
Module Merkl.
Import ToyCodec MerklSafety.
Local Open Scope Z_scope.
Local Open Scope go_scope.

#[export] Instance merkl_json_errors : JsonErrors := { unmarshal_error _ type := errors_New ("json: cannot unmarshal into " +:+ type) }.

(** Bodies by name: an opportunity's page, full or short. *)
Definition named (name : string) : json := JObject [("name", JString name); ("apr", JNumber "4.5")].
#[export] Instance merkl_json_text : JsonText := {
  json_parse s := if String.eqb s "full" then Ok (JArray [named "a"; named "b"]) else if String.eqb s "short" then Ok (JArray [named "c"])
                  else if String.eqb s "none" then Ok (JArray []) else Err (errors_New "invalid character");
}.

Definition http_date (_ : string) : option Z := None.
Definition answered (body : string) : reply := mkReply None None (Ok (mkResponse 200 (fun _ => "") body None)) 0.

(** Two full pages, then a short one. *)
Definition three_pages (n : nat) : reply := answered (if (n <? 2)%nat then "full" else "short").
Definition client_key : client := New [Some (WithBaseURL "https://merkl.test/"); Some (WithAPIKey " key ")].
Definition by_two : OpportunityQuery := mkOpportunityQuery 1 2 0 "" " LIVE " true.

Definition listing : (list Opportunity * option MerklError) * list Request :=
  ListAllOpportunities http_date three_pages client_key by_two [].

Lemma listing_runs :
  o_Name <$> listing.1.1 = ["a"; "b"; "a"; "b"; "c"] /\ listing.1.2 = None /\
  rq_URL <$> listing.2 =
    ["https://merkl.test/v4/opportunities?campaigns=true&chainId=1&items=2&page=0&status=LIVE";
     "https://merkl.test/v4/opportunities?campaigns=true&chainId=1&items=2&page=1&status=LIVE";
     "https://merkl.test/v4/opportunities?campaigns=true&chainId=1&items=2&page=2&status=LIVE"].
Proof. split; [run|split; run]. Qed.

Lemma ListAllOpportunities_pages_witness : is_i64 (oq_Page by_two) /\
  exists pages log1, fetched http_date three_pages client_key by_two 2 0 [] pages log1 /\
    pages_end http_date three_pages client_key by_two 2 0 1000 [] pages log1 listing.
Proof.
  split; [vm_compute; split; congruence|]. assert (Hp : is_i64 (oq_Page by_two)) by (vm_compute; split; congruence).
  pose proof (ListAllOpportunities_pages http_date three_pages client_key by_two [] Hp) as H.
  destruct (opportunityQueryValues by_two) as [[values items]|e] eqn:E; [|discriminate E].
  assert (Hi : items = 2). { apply (f_equal (fun r => match r with Ok (_, n) => n | Err _ => 0 end)) in E. vm_compute in E. by symmetry. }
  subst items. destruct H as (_ & pages & log1 & F & _ & _ & _ & P). exists pages, log1. split; [exact F|exact P].
Defined.

(** The same chains twice over, in another order. *)
Lemma GetUserRewardsForChains_canonical_witness :
  GetUserRewardsForChains http_date (fun _ => answered "none") client_key " user/1" [10; 1; 10] [] =
  GetUserRewardsForChains http_date (fun _ => answered "none") client_key "user/1 " [1; 10] [] /\
  rq_URL <$> (GetUserRewardsForChains http_date (fun _ => answered "none") client_key " user/1" [10; 1; 10] []).2 =
    ["https://merkl.test/v4/users/user%2F1/rewards?chainId=1&chainId=10"].
Proof.
  split; [|run]. apply (GetUserRewardsForChains_canonical http_date (fun _ => answered "none") client_key " user/1" [10; 1; 10] "user/1 " [1; 10] []).
  - split; [vm_compute; congruence|]. split; [done|]. by vm_compute; intros H; repeat (apply elem_of_cons in H as [H|H]; [congruence|]); apply elem_of_nil in H.
  - split; [vm_compute; congruence|]. split; [done|]. by vm_compute; intros H; repeat (apply elem_of_cons in H as [H|H]; [congruence|]); apply elem_of_nil in H.
  - run.
  - intros x. rewrite !elem_of_cons, elem_of_nil. tauto.
Defined.

(** A refused request, and a response that cannot be consumed. *)
Lemma refusals_run :
  GetUserRewardsForChains http_date three_pages client_key "user" [1; 0] [] =
    (Err (other_error (errors_New "merkl user rewards requires a non-zero chain id")), []) /\
  match (GetUserRewards http_date (fun _ => answered "?") client_key "user" 1 []).1 with Err e => me_response e | Ok _ => false end = true.
Proof. split; run. Qed.
End Merkl.

(** ** Witnesses for the partners, the aggregators and DeBank

    A Coinbase client of a toy key, whose theorem of [PartnerSafety] is applied;
    a swap built and a slippage refused; two batches of tokens. *)
Module Partners.
Import ToyCodec PartnerSafety.
Local Open Scope Z_scope.
Local Open Scope go_scope.

#[export] Instance toy_json_errors : JsonErrors := { unmarshal_error _ type := errors_New ("json: cannot unmarshal into " +:+ type) }.
#[export] Instance toy_body : JsonBody := {
  json_decode s _ :=
    if String.eqb s "config" then Ok (JObject [("countries", JArray [JObject [("id", JString "US")]])])
    else if String.eqb s "build" then Ok (JObject [("code", JNumber "0"); ("data", JObject [("amountOut", JString "999"); ("data", JString "0xab")])])
    else if String.eqb s "tokens" then Ok (JArray [JObject [("id", JString "eth"); ("chain", JString "eth")]; JObject [("id", JString "0x01"); ("chain", JString "?")]])
    else Err (errors_New "invalid character");
}.
#[export] Instance toy_keys : EcKeys := { EcKey := unit }.
#[export] Instance toy_formats : KeyFormats := {
  EcKey_isP256 _ := true; EcKey_curveName _ := "P-256"; EcKey_orderBits _ := 256; pem_Decode _ := None;
  ParseECPrivateKey _ := Ok tt; ParsePKCS8PrivateKey _ := Ok (PkEcdsa tt);
  ed25519_NewKeyFromSeed seed := seed ++ seed; ed25519_Sign key message := take 2 message;
}.
#[export] Instance toy_minting : Minting := { jwt_nonce := Ok [x01; x02]; jwt_now := 1700000000 * nanosPerSecond; ecdsa_Sign _ _ := Ok (1, 2) }.
#[export] Instance toy_url : UrlQuery := {
  url_SetRawQuery u q := Ok (u +:+ "?" +:+ q); url_Host u := Ok (sdrop 8 u); url_Query _ := Ok ∅;
}.

Definition toy_options : list (option coinbase_Option) :=
  [Some (WithAPIKeyID " key "); Some (WithAPIKeySecret (Repeat "A" 43 +:+ "=")); Some (coinbase_WithAPIBaseURL "https://api.test/")].
Definition toy_coinbase : coinbase_client :=
  match coinbase_New toy_options with
  | Ok c => c
  | Err _ => mkCoinbase "" "" None "" "" "" ""
  end.
Definition answering (body : string) (_ : nat) : reply := mkReply None None (Ok (ok_response body)) 0.

Lemma toy_coinbase_ready : cc_apiHost toy_coinbase = "api.test" /\ cc_apiBaseURL toy_coinbase = "https://api.test" /\ bool_decide (is_Some (cc_signer toy_coinbase)) = true.
Proof. split; [run|split; run]. Qed.

(** The configuration is read with one request, which is authorized. *)
Lemma coinbase_token_scoped_witness :
  (map bc_ID <$> (match (GetBuyConfig (answering "config") toy_coinbase []).1 with Ok l => Some l | Err _ => None end)) = Some ["US"] /\
  exists rq, (GetBuyConfig (answering "config") toy_coinbase []).2 = [rq] /\ rq_URL rq = "https://api.test/onramp/v1/buy/config" /\
    authorized toy_minting toy_coinbase "api.test" "GET" "/onramp/v1/buy/config" rq.
Proof.
  split; [run|]. assert (Hnew : coinbase_New toy_options = Ok toy_coinbase) by run.
  destruct (coinbase_token_scoped toy_options toy_coinbase Hnew) as (host & Hh & _ & H & _).
  assert (Hhost : url_Host (cc_apiBaseURL toy_coinbase) = Ok "api.test") by run.
  rewrite Hhost in Hh. apply (f_equal (fun r => match r with Ok h => h | Err _ => "" end)) in Hh. cbv beta iota in Hh. subst host.
  destruct (H toy_minting (answering "config")) as (_ & _ & Hc & _). specialize (Hc []). destruct Hc as (l & El & F).
  assert (Hl : rq_URL <$> l = ["https://api.test/onramp/v1/buy/config"]).
  { trans (rq_URL <$> (GetBuyConfig (answering "config") toy_coinbase []).2); [by rewrite El|run]. }
  rewrite El. destruct l as [|rq [|rq' l]]; [discriminate Hl| |discriminate Hl].
  exists rq. split; [reflexivity|]. split; [exact (f_equal (fun l => List.hd "" l) Hl)|exact (Forall_inv F)].
Defined.
End Partners.

(** ** Runs of the aggregators and of DeBank *)
Module Swaps.
Import ToyCodec Prices.
Local Open Scope Z_scope.
Local Open Scope go_scope.

#[export] Instance swap_json_errors : JsonErrors := { unmarshal_error _ type := errors_New ("json: cannot unmarshal into " +:+ type) }.
#[export] Instance swap_body : JsonBody := Partners.toy_body.
#[export] Instance swap_hex : GethHex := { FromHex s := if String.eqb s "" then [] else [xab] }.
#[export] Instance swap_hex_address : HexAddress := { IsHexAddress s := (slen s =? 42)%nat }.

Definition dex_answers (body : string) (_ : nat) : dex_reply := mkDexReply None (Ok (ok_response body)).
Definition built (bps : Z) : option (Z * Z) * nat :=
  let '(r, log) := BuildRoute (dex_answers "build") (kyber_New []) (mkBuildRequest MainnetChainID None "" "" bps) [] in
  (match r with Ok b => Some (b_AmountOut b, b_AmountOutMin b) | Err _ => None end, length log).

(** The least amount is rounded down; a slippage out of range makes no request. *)
Example BuildRoute_run : map built [0; 50; 10000; 10001] = [(Some (999, 999), 1%nat); (Some (999, 994), 1%nat); (Some (999, 0), 1%nat); (None, 0%nat)].
Proof. run. Qed.

Definition debank_client : debank := mkDebank "key" "https://debank.test" None None None.
Definition asked (tokens : list Address) : option (list Z) * list string :=
  let '(r, log) := GetTokens (fun _ => mkReply None None (Ok (ok_response "tokens")) 0) debank_client MainnetChainID tokens [] in
  (match r with Ok l => Some (map dt_ChainID l) | Err _ => None end, rq_URL <$> log).

(** The native token is asked for by the chain's name, once, and a token of an unknown chain is dropped. *)
Example GetTokens_run :
  asked [x00; x00] = (Some [MainnetChainID], ["https://debank.test/token/list_by_ids?chain_id=eth&ids=eth"]) /\ asked [] = (Some [], []).
Proof. split; run. Qed.
End Swaps.
